(* ===== verification/_CoqProject ===== *)
-Q . S2P
Prelude.v
GoPath.v
Json.v
Util.v
Net.v
Prefix.v
FsConfig.v
FsValidate.v
Secrets.v
Entities.v
UserPerms.v
GroupMerge.v
ValidateUser.v
ValidateUserProps.v
Links.v
Tables.v
MemoryCore.v
MemoryOps.v
MemoryInv.v
MemoryAccounts.v
MemoryObjects.v
MemoryShares.v
Atomic.v
MemorySpec.v
ObjectSpec.v
MemoryQueries.v
ValidateObjects.v
ValidateObjectsProps.v
EventRules.v
EventContainer.v
EventTasks.v
IPLists.v
IPListSync.v
Quota.v
Mfa.v
Credentials.v
ProviderApi.v
Backup.v
Evict.v
Defender.v
DefenderProps.v
DbDefender.v
DbDefenderProps.v
ConnData.v
FsPaths.v
FsPathsProps.v
Connection.v
ConnectionOps.v
ConnectionCopy.v
Effects.v
ConnectionProps.v
Retention.v
EventMatch.v
RateLimiter.v
TransfersChecker.v
Transfers.v
Connections.v
EventActions.v
EventManager.v
ConnectionsSpec.v
Streams.v
SftpHandlers.v
FtpHandlers.v
WebDavHandlers.v
HttpHandlers.v
Handlers.v
Samples.v
ToyStorage.v
QuotaProps.v
TransferProps.v
RetentionProps.v
HandlerSpec.v
HandlerProps.v
HandlerLimits.v
MemoryProps.v
QueryProps.v
BackupProps.v
ApiProps.v
EventProps.v
IdpProps.v
