(* ===== verification/Prelude.v ===== *)
(** * SFTPGo, verified

    SFTPGo (src/) serves files over SFTP, FTP, WebDAV and HTTP.  A protocol
    server turns the requests of a client into operations of a connection; a
    connection checks the permissions and the quota of its user, translates the
    virtual paths and works on a storage; users and the other objects live in
    the data provider, behind functions that keep caches and IP lists in step
    and announce every change; the changes and the transfers trigger the rules
    of the event manager.  This library models these layers file by file:

    - internal/util (util.go): [GoPath] (the standard library's path.Clean and
      friends), [Util] (clean paths, ancestor chains, overlap, slices), [Json]
      (escaping of strings), [Net] and [Prefix] (netip.ParseAddr, net.ParseIP,
      CIDR networks).
    - internal/vfs, internal/kms: [FsConfig], [FsValidate] (filesystem
      configurations and virtual folders), [Secrets] (encrypted secrets),
      [FsPaths] and [FsPathsProps] (how each storage backend resolves a virtual
      path and shows it again: osfs.go, s3fs.go, gcsfs.go, azblobfs.go,
      cryptfs.go, sftpfs.go, httpfs.go).
    - internal/dataprovider, the objects: [Entities] (the records and their
      copies), [UserPerms] (permissions, virtual folders, patterns, login rules
      of a user), [GroupMerge] (group settings), [ValidateUser],
      [ValidateUserProps], [ValidateObjects], [ValidateObjectsProps],
      [EventRules] (the validators).
    - internal/dataprovider, the in-memory provider (memory.go): [Links] and
      [Tables] (the mappings between objects and the sorted tables),
      [MemoryCore] (the handle), [MemoryOps] (every method that writes),
      [MemoryQueries] (every method that reads), [MemoryInv] to [MemoryShares]
      (the invariant and that each group of methods keeps it), [Atomic] (failed
      calls), [MemorySpec] (the calls as one step relation), [ObjectSpec] (what
      single calls do), [MemoryProps] and [QueryProps] (the theorems).
    - internal/dataprovider, around the provider: [IPLists] and [IPListSync]
      (iplist.go), [Quota] and [QuotaProps] (quotaupdater.go), [Mfa]
      (internal/mfa), [Credentials] (cached users and passwords), [ProviderApi]
      and [ApiProps] (the exported functions of dataprovider.go over the
      provider, its caches and its announcements), [Backup] and [BackupProps]
      (dumps, the reload, and the restore of internal/httpd api_maintenance.go).
    - internal/common: [Evict], [Defender], [DefenderProps] (defender.go,
      defendermem.go), [DbDefender], [DbDefenderProps] (defenderdb.go, with the
      statements of sqlcommon.go), [RateLimiter] (ratelimiter.go), [ConnData],
      [Connection], [ConnectionOps], [ConnectionCopy] (connection.go),
      [Transfers] (transfer.go), [TransfersChecker] (transferschecker.go),
      [Effects], [ConnectionProps] and [TransferProps] (what they guarantee),
      [Connections] (common.go and clientsmap.go: the table of the connections)
      with its abstract specification [ConnectionsSpec], [Retention] and
      [RetentionProps] (dataretention.go).
    - internal/common, the event manager (eventmanager.go): [EventMatch]
      (events, placeholders and conditions), [EventContainer] (the rules and
      their schedules), [EventTasks] (scheduled jobs of several nodes, with the
      table of tasks of sqlcommon.go), [EventActions] (the actions),
      [EventManager] (the runs of the rules, from events and schedules, and the
      account check of a login through an identity provider), [EventProps] and
      [IdpProps] (what they guarantee).
    - internal/sftpd, ftpd, webdavd, httpd (handler.go, transfer.go, file.go):
      [Streams] (what the transfers share), [SftpHandlers], [FtpHandlers],
      [WebDavHandlers], [HttpHandlers], [Handlers] (all the requests of a
      client), [HandlerSpec], [HandlerProps], [HandlerLimits] (what they
      guarantee).
    - [Samples] and [ToyStorage] build the small store and the small storage the
      witnesses evaluate on.

    Conventions.  A definition names the Go declaration it translates in the
    comment before it.  A method that changes state is a function [S → res A *
    S] (the monad [M S] of this file): it returns a value or an error and the
    state it leaves, also on an error, as there is no transaction. The 64-bit
    integers are [Z] with [add64], [sub64] and [mul64]; a map is a [gmap] and a
    range over it takes its order from a parameter.  The clock is an argument.
    Where a method releases its lock in between, or starts a goroutine, its
    steps are separate definitions and the theorems interleave them.

    The theorems.  Every method of the in-memory provider keeps the references
    between its objects consistent, failed calls included but for the methods
    that do not undo all they did, which are named ([MemoryProps]); its listings and searches return what they
    promise ([QueryProps]).  A user gets exactly the permissions of the nearest
    configured directory, sees exactly the listed entries and is let in from
    exactly the allowed addresses ([UserPerms]); group settings keep
    the folders, the patterns and the permissions below the root that the user
    has ([GroupMerge]); validation leaves only well-formed objects
    ([ValidateUserProps], [ValidateObjectsProps], [FsValidate]).  Delayed quota
    updates are counted once under every interleaving ([QuotaProps]).  Whatever
    a connection does to a storage is an effect on a virtual path ([Effects]),
    and each is permitted to its user, apart from the server-side copies and the
    reads that the file patterns do not see ([ConnectionProps]); an upload stays within the quota and is counted ([TransferProps]), and
    concurrent transfers are aborted exactly when they exceed it
    ([TransfersChecker]).  The same holds of what a client of the four
    protocols asks for ([HandlerProps]); the resolved paths stay inside
    of the root of the storage ([FsPathsProps]).  A failed request to the data
    provider changes nothing outside of the provider and a successful one
    announces its change ([ApiProps]); a restore that keeps existing objects
    keeps them ([BackupProps]).  The table of connections refines a bag of
    connections with its limits ([ConnectionsSpec]), the rate limiters bound the
    requests of a source ([RateLimiter]), the retention checks delete only what
    is old enough ([RetentionProps]).  The actions of the matching rules run in
    order up to the first that stops, filesystem actions do for the users the
    rule selects what they could do with all the permissions, failures name
    their users ([EventProps]), the starts of a guarded scheduled rule on several nodes are
    apart ([EventTasks]), and a login through an
    identity provider lets in the account it vouches for ([IdpProps]).  The
    defender bans by the scores of the observed events and stays within its
    limits, also when checks come in between other calls as long as they do not
    revive a ban ([DefenderProps]); the one that shares a database loses no ban
    however the nodes interleave, unless the database refuses it
    ([DbDefenderProps]).  A passcode is not accepted again once a
    login has recorded it ([Mfa]).  A few theorems show where
    the code departs from what it means to do ([extending_truncate_lifts_limit],
    [copy_without_permissions], [reset_during_flush], [unban_is_undone],
    [revived_ban_breaks_limits], [concurrent_logins_accepted] and others).

    Fuel.  The recursions over a directory tree have fuel ([RemoveAll], [Copy],
    the folders of [Retention], [getSizeForPath] and [addZipEntry]): the code
    recurses without bound on a storage that answers with ever deeper trees, and
    running out of fuel stands for the overflow of the stack; the theorems on
    them hold for every fuel.  The search for the parent of a missing path has
    the fuel [findNonexistentDirs_fuel] proves to be enough; the loop of
    [sftp_ResolvePath] has any, as the links of the server decide how far it
    goes.  The other loops with fuel shorten a string or a path in every round
    and start with its length, or divide a number of known width
    ([GetDirs_total] proves the first of them total).  The rest is structural
    recursion.

    Parameters.  The storage backends ([Storage]), the hooks ([Hooks]), the
    cipher ([Secrets]), password hashing and email checks ([Settings]), the
    one-time password library ([Mfa]), the prefix tree of the IP lists
    ([IPLists]), the token buckets of the rate limiters, the archives of a
    compress action ([Zip]), the commands, mails and requests of event actions
    ([Outside]), JSON templates and doublestar patterns are code outside the
    modelled packages; what is relied on of them are the laws of their classes,
    and the witnesses use concrete instances.

    Not modelled.  The SQL and bolt providers, apart from the tables of the
    tasks and of the defender, and the storage backends, apart from their paths,
    are input and output with third-party libraries; so are the network servers
    around the handlers, the SSH commands, the web pages and their tokens, the
    login hooks, the sending of mails and the bodies of HTTP requests of event
    actions.  The command line, the configuration files, metrics, ACME and
    plugins are glue. *)
From stdpp Require Export base tactics option list list_numbers numbers strings gmap sets fin_maps sorting.
From Stdlib Require Export ZArith Lia.
From Stdlib Require Import Ascii.

Declare Scope go_scope.
Delimit Scope go_scope with go.
Open Scope go_scope.

(** Canonical paths. *)
Create HintDb gopath.

(** * Record update

    [r <| f := v |>] is the Go assignment [r.f = v] on a value; the setter of a
    field is derived from the eta-expanded identity of its record. *)

Class Settable (R : Type) := { settable : R → R }.
Class Setter {R T : Type} (p : R → T) := { setter : (T → T) → R → R }.
Arguments setter {R T} p {_} _ _.
#[global] Hint Mode Setter ! ! ! : typeclass_instances.

Ltac derive_setter :=
  lazymatch goal with
  | |- @Setter ?R ?T ?p =>
      let eta := eval hnf in (@settable R _) in
      let upd := fresh "upd" in let r := fresh "r" in
      refine {| setter := fun upd r => _ |};
      let t := eval cbv beta in (eta r) in
      let t' := eval pattern (p r) in t in
      lazymatch t' with
      | ?g _ => let u := eval cbv beta in (g (upd (p r))) in exact u
      end
  end.
#[export] Hint Extern 1 (Setter _) => derive_setter : typeclass_instances.

Notation "r <| p := v |>" := (setter p (fun _ => v) r)
  (at level 1, left associativity, p at level 0) : go_scope.
Notation "r <| p ::= g |>" := (setter p g r)
  (at level 1, left associativity, p at level 0) : go_scope.

(** * Errors and results *)

(** The error values the modelled code returns.  Messages built with
    [fmt.Sprintf] are replaced by the kind of object and the name they mention;
    the translation keys of [util.NewI18nError] are dropped. *)
Inductive error :=
  | ErrMemoryProviderClosed                      (* errMemoryProviderClosed *)
  | RecordNotFoundError (what name : string)     (* util.NewRecordNotFoundError *)
  | ErrDuplicatedKey (what name : string)        (* wraps ErrDuplicatedKey *)
  | ErrForeignKeyViolated (what name : string)   (* wraps ErrForeignKeyViolated *)
  | ValidationError (msg : string)               (* util.NewValidationError *)
  | GenericError (msg : string)                  (* util.NewGenericError *)
  | PlainError (msg : string)                    (* errors.New, fmt.Errorf *)
  | RuntimePanic (msg : string).                 (* the run-time panic of a Go program *)

Inductive res (A : Type) := Ok (a : A) | Err (e : error).
Arguments Ok {A} _.
Arguments Err {A} _.

#[export] Instance error_eq_dec : EqDecision error.
Proof. solve_decision. Defined.

#[export] Instance res_eq_dec {A} `{EqDecision A} : EqDecision (res A).
Proof. solve_decision. Defined.

#[export] Instance res_ret : MRet res := fun A a => Ok a.
#[export] Instance res_bind : MBind res := fun A B f m =>
  match m with Ok a => f a | Err e => Err e end.

Definition is_none {A} (o : option A) : bool := if o is Some _ then false else true.
Definition is_ok {A} (r : res A) : bool := match r with Ok _ => true | Err _ => false end.

(** [if bad { return e }] *)
Definition refuse (bad : bool) (e : error) : res unit := if bad then Err e else Ok tt.
(** [for _, x := range l { if err := f(x); err != nil { return err } }] *)
Fixpoint for_each {A} (f : A → res unit) (l : list A) : res unit :=
  match l with [] => Ok tt | x :: l' => _ ← f x; for_each f l' end.

Lemma res_bind_Ok {A B} (m : res A) (k : A → res B) b : m ≫= k = Ok b → ∃ a, m = Ok a ∧ k a = Ok b.
Proof. destruct m as [a|e]; intros H; [eauto|done]. Qed.

(** [inv_res H] takes the first call of the [H : m ≫= k = Ok b] apart. *)
Ltac inv_res H :=
  let a := fresh "a" in let E := fresh "E" in let H' := fresh "H'" in
  apply res_bind_Ok in H; destruct H as (a & E & H'); rename H' into H.

Lemma refuse_Ok bad e u : refuse bad e = Ok u ↔ bad = false.
Proof. destruct bad, u; simpl; by split. Qed.

Lemma for_each_Ok {A} (f : A → res unit) l u : for_each f l = Ok u ↔ Forall (fun x => f x = Ok tt) l.
Proof.
  destruct u. induction l as [|x l IH]; simpl; [by split|]. rewrite Forall_cons. split.
  - intros H. inv_res H. destruct a. split; [done|]. by apply IH.
  - intros [-> H]. by apply IH.
Qed.

(** [inv_checks H] takes all of them apart; a check gives the condition it tested. *)
Ltac as_check E := first [apply refuse_Ok in E | apply for_each_Ok in E].
Ltac inv_checks H :=
  repeat (let a := fresh "a" in let E := fresh "E" in let H' := fresh "H'" in
          apply res_bind_Ok in H; destruct H as (a & E & H'); rename H' into H; try as_check E);
  try as_check H.

(** State and error: a method of a stateful component.  An error keeps the
    state reached when it was raised, as the Go methods do: there is no
    transaction to roll back. *)
Definition M (S A : Type) : Type := S → res A * S.

#[export] Instance M_ret {S} : MRet (M S) := fun A a s => (Ok a, s).
#[export] Instance M_bind {S} : MBind (M S) := fun A B f m s =>
  match m s with (Ok a, s') => f a s' | (Err e, s') => (Err e, s') end.

Definition fail {S A} (e : error) : M S A := fun s => (Err e, s).
Definition lift {S A} (r : res A) : M S A := fun s => (r, s).
Definition get {S} : M S S := fun s => (Ok s, s).
Definition gets {S A} (f : S → A) : M S A := fun s => (Ok (f s), s).
Definition modify {S} (f : S → S) : M S unit := fun s => (Ok tt, f s).
(** [_, err := m; if err == nil { k1 } else { k2 err }] *)
Definition try_catch {S A B} (m : M S A) (k1 : A → M S B) (k2 : error → M S B) : M S B :=
  fun s => match m s with (Ok a, s') => k1 a s' | (Err e, s') => k2 e s' end.
(** a call whose error the caller logs and ignores *)
Definition ignore {S A} (m : M S A) : M S unit := fun s => (Ok tt, (m s).2).

(** * Machine integers *)

Definition MaxInt64 : Z := 2 ^ 63 - 1.
Definition MinInt64 : Z := - 2 ^ 63.
(** wrap-around of a two's complement 64-bit integer: Go's [int64], and [int]
    on the 64-bit platforms *)
Definition wrap64 (z : Z) : Z := (z + 2 ^ 63) mod 2 ^ 64 - 2 ^ 63.
Definition in_int64 (z : Z) : Prop := (MinInt64 <= z <= MaxInt64)%Z.
Definition add64 (a b : Z) : Z := wrap64 (a + b).
Definition sub64 (a b : Z) : Z := wrap64 (a - b).
Definition mul64 (a b : Z) : Z := wrap64 (a * b).

Lemma wrap64_range z : in_int64 (wrap64 z).
Proof.
  unfold in_int64, wrap64, MinInt64, MaxInt64.
  pose proof (Z.mod_pos_bound (z + 2 ^ 63) (2 ^ 64)). lia.
Qed.

Lemma wrap64_id z : in_int64 z → wrap64 z = z.
Proof.
  unfold in_int64, wrap64, MinInt64, MaxInt64; intros H.
  rewrite Z.mod_small; lia.
Qed.

Lemma wrap64_add_l a b : wrap64 (wrap64 a + b) = wrap64 (a + b).
Proof.
  unfold wrap64.
  replace ((a + 2 ^ 63) mod 2 ^ 64 - 2 ^ 63 + b + 2 ^ 63)%Z
    with ((a + 2 ^ 63) mod 2 ^ 64 + b)%Z by lia.
  rewrite Zplus_mod_idemp_l. do 2 f_equal. lia.
Qed.

(** * Strings *)

Fixpoint has_prefix (s p : string) {struct p} : bool :=
  match p, s with
  | EmptyString, _ => true
  | String c p', String d s' => Ascii.eqb c d && has_prefix s' p'
  | String _ _, EmptyString => false
  end.

Definition str_eqb (a b : string) : bool := String.eqb a b.
Definition str_ltb (a b : string) : bool := String.ltb a b.
Notation "a =s b" := (String.eqb a b) (at level 70, no associativity) : go_scope.

Lemma has_prefix_app p s : has_prefix (p +:+ s) p = true.
Proof. induction p as [|c p IH]; [by destruct s|]. simpl. by rewrite Ascii.eqb_refl, IH. Qed.

Lemma has_prefix_spec s p : has_prefix s p = true ↔ ∃ t, s = p +:+ t.
Proof.
  split; [|intros [t ->]; apply has_prefix_app].
  revert s; induction p as [|c p IH]; intros s; simpl; [eauto|].
  destruct s as [|d s]; [done|]. intros [->%Ascii.eqb_eq [t ->]%IH]%andb_true_iff. by exists t.
Qed.

(** * Slices *)

(** [util.Contains] at type string, the only one the data layer uses. *)
(* source: internal/util/util.go Contains *)
Fixpoint contains (l : list string) (x : string) : bool :=
  match l with [] => false | y :: l' => if x =s y then true else contains l' x end.

Lemma contains_spec l x : contains l x = true ↔ x ∈ l.
Proof.
  induction l as [|y l IH]; simpl; [by rewrite elem_of_nil|].
  rewrite elem_of_cons. destruct (String.eqb_spec x y) as [->|Hne]; [tauto|]. rewrite IH. tauto.
Qed.

Lemma contains_false l x : contains l x = false ↔ x ∉ l.
Proof. rewrite <-contains_spec. by destruct (contains l x). Qed.

(** the loops that build a new slice without the elements equal to [x] *)
Definition without (x : string) (l : list string) : list string :=
  List.filter (fun y => negb (y =s x)) l.

Lemma elem_of_without x l y : y ∈ without x l ↔ y ∈ l ∧ y ≠ x.
Proof.
  unfold without. rewrite !list_elem_of_In, filter_In, negb_true_iff, String.eqb_neq. done.
Qed.

Lemma without_notin x l : x ∉ l → without x l = l.
Proof.
  induction l as [|y l IH]; simpl; [done|]. intros [??]%not_elem_of_cons.
  destruct (String.eqb_spec y x); simpl; [by subst|]. by rewrite IH.
Qed.

(** [sort.Strings] *)
Definition sort_strings : list string → list string := merge_sort String.le.

(** [sort.Slice(l, func(i, j int) bool { return key(l[i]) < key(l[j]) })]; the
    library sort is not stable, so this is the code's order only when the keys
    are pairwise different, see [sort_by_unique]. *)
Definition key_le {A} (key : A → string) (x y : A) : Prop := String.le (key x) (key y).
#[export] Instance key_le_dec {A} (key : A → string) : RelDecision (key_le key).
Proof. intros x y. unfold key_le. apply _. Defined.
#[export] Instance key_le_total {A} (key : A → string) : Total (key_le key).
Proof. intros x y. unfold key_le. apply (total String.le). Qed.
#[export] Instance key_le_trans {A} (key : A → string) : Transitive (key_le key).
Proof. intros x y z. unfold key_le. apply transitivity. Qed.
Definition sort_by {A} (key : A → string) : list A → list A := merge_sort (key_le key).

Lemma sort_strings_perm l : sort_strings l ≡ₚ l.
Proof. apply merge_sort_Permutation. Qed.

Lemma sort_strings_sorted l : StronglySorted String.le (sort_strings l).
Proof. apply StronglySorted_merge_sort; apply _. Qed.

Lemma sort_strings_unique l l' :
  StronglySorted String.le l' → l ≡ₚ l' → sort_strings l = l'.
Proof.
  intros Hs Hp. apply (StronglySorted_unique String.le).
  - apply sort_strings_sorted.
  - done.
  - by rewrite sort_strings_perm.
Qed.

Lemma sort_strings_perm_eq l l' : l ≡ₚ l' → sort_strings l = sort_strings l'.
Proof.
  intros Hp. apply sort_strings_unique; [apply sort_strings_sorted|].
  by rewrite sort_strings_perm.
Qed.

Lemma elem_of_sort_strings l x : x ∈ sort_strings l ↔ x ∈ l.
Proof. by rewrite sort_strings_perm. Qed.

Lemma elem_of_sort_by {A} (key : A → string) l (x : A) : x ∈ sort_by key l ↔ x ∈ l.
Proof. unfold sort_by. by rewrite merge_sort_Permutation. Qed.

Lemma sort_by_perm {A} (key : A → string) (l : list A) : sort_by key l ≡ₚ l.
Proof. apply merge_sort_Permutation. Qed.

(** With pairwise different keys there is one sorted permutation, whatever
    sorting algorithm produced it. *)
Lemma sort_by_unique {A} (key : A → string) (l l' : list A) :
  NoDup (key <$> l) → l' ≡ₚ l → Sorted (key_le key) l' → sort_by key l = l'.
Proof.
  intros Hnd Hp Hs. apply (Sorted_unique_strong (key_le key)).
  - intros x1 x2 Hx1 Hx2 H12 H21.
    rewrite elem_of_sort_by in Hx1. rewrite Hp in Hx2.
    assert (key x1 = key x2) as Hk by (by apply (anti_symm String.le)).
    apply list_elem_of_lookup in Hx1 as [i Hi]. apply list_elem_of_lookup in Hx2 as [j Hj].
    assert (i = j) as ->.
    { eapply (NoDup_lookup (key <$> l)); [done| |]; rewrite list_lookup_fmap;
        [by rewrite Hi|rewrite Hj; simpl; by rewrite Hk]. }
    congruence.
  - apply Sorted_merge_sort, _.
  - done.
  - by rewrite sort_by_perm.
Qed.

(** * Slices *)

(** [s[idx] = s[last]; s = s[:last]] *)
Definition swap_remove {A} (idx : nat) (l : list A) : list A :=
  match last l with Some x => take (pred (length l)) (<[idx := x]> l) | None => l end.
Lemma swap_remove_perm {A} (l : list A) idx c : l !! idx = Some c → l ≡ₚ c :: swap_remove idx l.
Proof.
  intros Hc. unfold swap_remove. destruct l as [|x l] using rev_ind; [done|]. clear IHl. rewrite last_snoc, length_app. cbn [length].
  rewrite Nat.add_1_r. cbn [pred]. pose proof (lookup_lt_Some _ _ _ Hc) as Hlt. rewrite length_app in Hlt. cbn in Hlt.
  destruct (decide (idx < length l)%nat) as [Hl|Hl].
  - rewrite insert_app_l by done. rewrite take_app_le, take_ge by (rewrite length_insert; lia).
    rewrite lookup_app_l in Hc by done. rewrite <- (take_drop_middle l idx c Hc) at 1.
    rewrite (insert_take_drop l idx x) by done. solve_Permutation.
  - assert (idx = length l) as -> by lia. rewrite list_lookup_middle in Hc by done. injection Hc as ->.
    rewrite insert_app_r_alt, Nat.sub_diag by lia. cbn. rewrite take_app_length. solve_Permutation.
Qed.
