(* ===== verification/GoPath.v ===== *)
(** The parts of Go's [path] package the code relies on ([Clean], [Join], [Dir],
    [Base], [IsAbs], [Match]; on the platforms modelled [filepath] agrees with
    it), and the algebra of clean absolute paths.

    A path is split at its slashes and its components are processed with a
    stack, which is what [path.Clean] does on its buffer.  [Match] is modelled
    on bytes: a [?] or a class consumes one byte. *)
From stdpp Require Import strings list.
From Stdlib Require Import Ascii.
From S2P Require Import Prelude.

Definition slash : ascii := "/"%char.

(** * Splitting and joining *)

(** [strings.Split(s, "/")] *)
Fixpoint split_slash (s : string) : list string :=
  match s with
  | EmptyString => [""]
  | String c s' =>
      if Ascii.eqb c slash then "" :: split_slash s'
      else match split_slash s' with
           | w :: ws => String c w :: ws
           | [] => [String c EmptyString]
           end
  end.

(** [strings.Join(ws, "/")] *)
Fixpoint join_slash (ws : list string) : string :=
  match ws with
  | [] => ""
  | [w] => w
  | w :: ws' => w +:+ String slash (join_slash ws')
  end.

Fixpoint no_slash (s : string) : bool :=
  match s with EmptyString => true | String c s' => negb (Ascii.eqb c slash) && no_slash s' end.

(** * path.Clean and friends *)

Definition is_abs (p : string) : bool := has_prefix p "/".

Definition clean_step (rooted : bool) (st : list string) (c : string) : list string :=
  if (c =s "") || (c =s ".") then st
  else if c =s ".." then
    match st with
    | t :: st' => if t =s ".." then c :: st else st'
    | [] => if rooted then [] else [c]
    end
  else c :: st.

Definition clean_comps (rooted : bool) (cs : list string) : list string :=
  reverse (foldl (clean_step rooted) [] cs).

Definition path_Clean (p : string) : string :=
  if p =s "" then "."
  else
    let cs := clean_comps (is_abs p) (split_slash p) in
    if is_abs p then String slash (join_slash cs)
    else match cs with [] => "." | _ => join_slash cs end.

(** [path.Join(a, b)] *)
Definition path_Join2 (a b : string) : string :=
  if a =s "" then (if b =s "" then "" else path_Clean b)
  else path_Clean (a +:+ String slash b).

(** the directory half of [path.Split]: everything up to the last slash *)
Definition split_dir_of (cs : list string) : string :=
  if bool_decide (length cs ≤ 1) then "" else join_slash (removelast cs) +:+ "/".
Definition path_Split_dir (p : string) : string := split_dir_of (split_slash p).

Definition path_Dir (p : string) : string := path_Clean (path_Split_dir p).

Definition path_Base (p : string) : string :=
  if p =s "" then "."
  else match List.filter (fun c => negb (c =s "")) (reverse (split_slash p)) with
       | c :: _ => c
       | [] => "/"
       end.

(** * path.Match *)

Inductive pat_item :=
  | PStar
  | PAny
  | PChar (c : ascii)
  | PClass (negated : bool) (ranges : list (ascii * ascii)).

(** [getEsc]: one character of a class, possibly escaped; the class must go on. *)
Definition get_esc (s : string) : option (ascii * string) :=
  match s with
  | EmptyString => None
  | String c s' =>
      if (Ascii.eqb c "-" || Ascii.eqb c "]")%char then None
      else if Ascii.eqb c "\"%char then
        match s' with
        | String d (String _ _ as s'') => Some (d, s'')
        | _ => None
        end
      else match s' with EmptyString => None | _ => Some (c, s') end
  end.

Fixpoint parse_class (fuel : nat) (first : bool) (s : string) : option (list (ascii * ascii) * string) :=
  match fuel with
  | O => None
  | S fuel' =>
      match s, first with
      | String "]"%char s', false => Some ([], s')
      | _, _ =>
          match get_esc s with
          | None => None
          | Some (lo, s1) =>
              match (match s1 with
                     | String "-"%char s2 => get_esc s2
                     | _ => Some (lo, s1)
                     end) with
              | None => None
              | Some (hi, s3) =>
                  match parse_class fuel' false s3 with
                  | None => None
                  | Some (rs, s4) => Some ((lo, hi) :: rs, s4)
                  end
              end
          end
      end
  end.

(** [None] is [ErrBadPattern]; every step consumes a byte, so a fuel of the
    length of the pattern plus one is enough. *)
Fixpoint parse_pattern (fuel : nat) (s : string) : option (list pat_item) :=
  match fuel with
  | O => None
  | S fuel' =>
      match s with
      | EmptyString => Some []
      | String c s' =>
          if Ascii.eqb c "*"%char then cons PStar <$> parse_pattern fuel' s'
          else if Ascii.eqb c "?"%char then cons PAny <$> parse_pattern fuel' s'
          else if Ascii.eqb c "["%char then
            let '(neg, body) := match s' with
                                | String "^"%char s'' => (true, s'')
                                | _ => (false, s')
                                end in
            match parse_class fuel' true body with
            | None => None
            | Some (rs, rest) => cons (PClass neg rs) <$> parse_pattern fuel' rest
            end
          else if Ascii.eqb c "\"%char then
            match s' with
            | EmptyString => None
            | String d s'' => cons (PChar d) <$> parse_pattern fuel' s''
            end
          else cons (PChar c) <$> parse_pattern fuel' s'
      end
  end.

Definition in_range (c : ascii) (r : ascii * ascii) : bool :=
  ((N_of_ascii r.1 <=? N_of_ascii c) && (N_of_ascii c <=? N_of_ascii r.2))%N.

Fixpoint match_items (ps : list pat_item) : string → bool :=
  match ps with
  | [] => fun s => s =s ""
  | PStar :: ps' =>
      fix star s :=
        if match_items ps' s then true
        else match s with
             | EmptyString => false
             | String c s' => if Ascii.eqb c slash then false else star s'
             end
  | PAny :: ps' => fun s =>
      match s with
      | EmptyString => false
      | String c s' => negb (Ascii.eqb c slash) && match_items ps' s'
      end
  | PChar d :: ps' => fun s =>
      match s with EmptyString => false | String c s' => Ascii.eqb c d && match_items ps' s' end
  | PClass neg rs :: ps' => fun s =>
      match s with
      | EmptyString => false
      | String c s' => xorb neg (existsb (in_range c) rs) && match_items ps' s'
      end
  end.

Definition path_Match (pattern name : string) : option bool :=
  match parse_pattern (S (String.length pattern)) pattern with
  | None => None
  | Some ps => Some (match_items ps name)
  end.

Example match_ex1 : path_Match "/a*/[b-d]?" "/abc/cx" = Some true. Proof. reflexivity. Qed.
Example match_ex2 : path_Match "/a*" "/abc/cx" = Some false. Proof. reflexivity. Qed.
Example match_ex3 : path_Match "/a[" "/b" = None. Proof. reflexivity. Qed.
Example clean_ex : path_Clean "/a/../../b//./c/" = "/b/c". Proof. reflexivity. Qed.
Example clean_ex2 : path_Clean "a/../../b/.." = "..". Proof. reflexivity. Qed.
Example dir_ex : path_Dir "/a/b/" = "/a/b". Proof. reflexivity. Qed.

(** * Clean absolute paths *)

(** A component of a clean path. *)
Definition normal (c : string) : Prop :=
  c ≠ "" ∧ c ≠ "." ∧ c ≠ ".." ∧ no_slash c = true.

(** The absolute path with the given components. *)
Definition abs_path (cs : list string) : string := String slash (join_slash cs).

Lemma append_cons c (a b : string) : String c a +:+ b = String c (a +:+ b).
Proof. reflexivity. Qed.

Lemma append_assoc (a b c : string) : a +:+ (b +:+ c) = (a +:+ b) +:+ c.
Proof. induction a as [|x a IH]; [done|]. by rewrite !append_cons, IH. Qed.

Lemma append_nil_r (a : string) : a +:+ "" = a.
Proof. induction a as [|x a IH]; [done|]. by rewrite append_cons, IH. Qed.

Lemma length_append (a b : string) : String.length (a +:+ b) = String.length a + String.length b.
Proof. induction a as [|x a IH]; [done|]. rewrite append_cons. simpl. by rewrite IH. Qed.

Lemma split_slash_nonempty s : split_slash s ≠ [].
Proof. destruct s as [|c s]; simpl; [done|]. destruct (Ascii.eqb c slash); [done|]. by destruct (split_slash s). Qed.

Lemma split_no_slash s : Forall (fun c => no_slash c = true) (split_slash s).
Proof.
  induction s as [|c s IH]; simpl; [by repeat constructor|].
  destruct (Ascii.eqb c slash) eqn:Hc; [by constructor|].
  destruct (split_slash s) as [|w ws]; [by repeat constructor; simpl; rewrite Hc|].
  inversion IH; subst. constructor; [|done]. simpl. by rewrite Hc.
Qed.

Lemma split_slash_app w s : no_slash w = true →
  split_slash (w +:+ String slash s) = w :: split_slash s.
Proof.
  induction w as [|c w IH]; [done|]. simpl no_slash.
  intros [Hc Hw]%andb_true_iff. rewrite negb_true_iff in Hc.
  rewrite append_cons. simpl. by rewrite Hc, IH.
Qed.

Lemma split_slash_app_gen a b : split_slash (a +:+ String slash b) = split_slash a ++ split_slash b.
Proof.
  induction a as [|c a IH]; [done|]. rewrite append_cons. simpl.
  destruct (Ascii.eqb c slash); simpl; [by rewrite IH|].
  rewrite IH. pose proof (split_slash_nonempty a). by destruct (split_slash a).
Qed.

Lemma split_slash_word w : no_slash w = true → split_slash w = [w].
Proof.
  induction w as [|c w IH]; simpl; [done|].
  intros [Hc Hw]%andb_true_iff. rewrite negb_true_iff in Hc. by rewrite Hc, IH.
Qed.

Lemma split_join ws : ws ≠ [] → Forall (fun c => no_slash c = true) ws →
  split_slash (join_slash ws) = ws.
Proof.
  induction ws as [|w [|w' ws] IH]; [done| |]; intros _ Hall; inversion Hall; subst.
  - by apply split_slash_word.
  - change (join_slash (w :: w' :: ws)) with (w +:+ String slash (join_slash (w' :: ws))).
    rewrite split_slash_app by done. by rewrite IH.
Qed.

Lemma split_abs_path cs : cs ≠ [] → Forall normal cs → split_slash (abs_path cs) = "" :: cs.
Proof.
  intros Hne Hall. unfold abs_path. simpl. f_equal. apply split_join; [done|].
  eapply Forall_impl; [done|]. by intros c (_ & _ & _ & ?).
Qed.

Lemma foldl_clean_normal rooted st cs : Forall normal cs →
  foldl (clean_step rooted) st cs = reverse cs ++ st.
Proof.
  intros Hall. revert st. induction Hall as [|c cs (H1 & H2 & H3 & _) _ IH]; intros st; simpl; [done|].
  unfold clean_step at 2.
  rewrite (proj2 (String.eqb_neq _ _) H1), (proj2 (String.eqb_neq _ _) H2), (proj2 (String.eqb_neq _ _) H3).
  simpl. rewrite IH, reverse_cons, <-app_assoc. done.
Qed.

Lemma clean_comps_normal rooted cs : Forall normal cs → clean_comps rooted cs = cs.
Proof.
  intros Hall. unfold clean_comps. by rewrite foldl_clean_normal, app_nil_r, reverse_involutive.
Qed.

(** A rooted path cleans to normal components: no [..] survives. *)
Lemma clean_step_rooted st c : Forall normal st → no_slash c = true → Forall normal (clean_step true st c).
Proof.
  intros Hst Hc. unfold clean_step.
  destruct (String.eqb_spec c "") as [|H1]; [done|]. simpl.
  destruct (String.eqb_spec c ".") as [|H2]; [done|].
  destruct (String.eqb_spec c "..") as [->|H3].
  - destruct Hst as [|t st (?&?&Ht&?) Hst]; [done|].
    by rewrite (proj2 (String.eqb_neq _ _) Ht).
  - by constructor.
Qed.

Lemma foldl_clean_rooted cs : ∀ st, Forall normal st → Forall (fun c => no_slash c = true) cs →
  Forall normal (foldl (clean_step true) st cs).
Proof.
  induction cs as [|c cs IH]; intros st Hst Hcs; simpl; [done|].
  inversion Hcs; subst. apply IH; [|done]. by apply clean_step_rooted.
Qed.

Lemma clean_comps_rooted cs : Forall (fun c => no_slash c = true) cs →
  Forall normal (clean_comps true cs).
Proof.
  intros Hcs. unfold clean_comps. apply Forall_reverse. by apply foldl_clean_rooted.
Qed.

Lemma is_abs_abs_path cs : is_abs (abs_path cs) = true.
Proof. unfold is_abs, abs_path. simpl. by destruct (join_slash cs). Qed.

Lemma path_Clean_abs_path cs : Forall normal cs → path_Clean (abs_path cs) = abs_path cs.
Proof.
  intros Hall. unfold path_Clean. rewrite is_abs_abs_path. simpl String.eqb. cbv match.
  unfold abs_path at 2. f_equal. f_equal.
  destruct cs as [|c cs]; [reflexivity|].
  rewrite split_abs_path by done.
  assert (clean_comps true ("" :: c :: cs) = clean_comps true (c :: cs)) as -> by reflexivity.
  by apply clean_comps_normal.
Qed.

Lemma path_Clean_abs p : is_abs p = true → ∃ cs, Forall normal cs ∧ path_Clean p = abs_path cs.
Proof.
  intros Hp. exists (clean_comps true (split_slash p)). split.
  - apply clean_comps_rooted, split_no_slash.
  - unfold path_Clean. rewrite Hp. by destruct p.
Qed.

Lemma path_Clean_rooted p cs : is_abs p = true → clean_comps true (split_slash p) = cs →
  path_Clean p = abs_path cs.
Proof. intros Hp <-. unfold path_Clean. rewrite Hp. by destruct p. Qed.

Lemma join_slash_cons w ws : ws ≠ [] → join_slash (w :: ws) = w +:+ String slash (join_slash ws).
Proof. by destruct ws. Qed.

Lemma snoc_ne_nil {A} (l : list A) x : l ++ [x] ≠ [].
Proof. by destruct l. Qed.

Lemma join_slash_snoc ws w : ws ≠ [] → join_slash (ws ++ [w]) = join_slash ws +:+ String slash w.
Proof.
  induction ws as [|v ws IH]; [done|]. intros _. destruct ws as [|v' ws]; [done|].
  change ((v :: v' :: ws) ++ [w]) with (v :: (v' :: ws) ++ [w]).
  rewrite (join_slash_cons v ((v' :: ws) ++ [w])), (join_slash_cons v (v' :: ws)), IH
    by (try apply snoc_ne_nil; discriminate).
  by rewrite <-append_assoc, append_cons.
Qed.

Lemma join_slash_app ws us : ws ≠ [] → us ≠ [] →
  join_slash (ws ++ us) = join_slash ws +:+ String slash (join_slash us).
Proof.
  intros Hws Hus. induction ws as [|w ws IH]; [done|]. destruct ws as [|v ws].
  - simpl app. by rewrite join_slash_cons.
  - change ((w :: v :: ws) ++ us) with (w :: (v :: ws) ++ us).
    rewrite !join_slash_cons, IH by (by destruct us). by rewrite <-append_assoc.
Qed.

Lemma normal_no_slash cs : Forall normal cs → Forall (fun c => no_slash c = true) cs.
Proof. intros H. eapply Forall_impl; [done|]. by intros c (_ & _ & _ & ?). Qed.

Lemma clean_comps_padded cs : Forall normal cs → clean_comps true ("" :: cs ++ [""]) = cs.
Proof.
  intros Hall. unfold clean_comps. simpl foldl. rewrite foldl_app.
  change (clean_step true [] "") with (@nil string).
  rewrite (foldl_clean_normal true [] cs), app_nil_r by done. simpl. apply reverse_involutive.
Qed.

Lemma path_Split_dir_snoc p ws w : ws ≠ [] → split_slash p = ws ++ [w] →
  path_Split_dir p = join_slash (ws ++ [""]).
Proof.
  intros Hne Hs. unfold path_Split_dir, split_dir_of. rewrite Hs, join_slash_snoc by done.
  rewrite bool_decide_false, removelast_last; [done|].
  rewrite length_app. destruct ws; simpl; [done|lia].
Qed.

(** The directory of an absolute path is a clean absolute path. *)
Lemma path_Dir_abs p : is_abs p = true → ∃ cs, Forall normal cs ∧ path_Dir p = abs_path cs.
Proof.
  intros Hp. apply path_Clean_abs. unfold is_abs in Hp. apply has_prefix_spec in Hp as [t ->].
  destruct (exists_last (split_slash_nonempty t)) as (ws & w & Ht).
  rewrite (path_Split_dir_snoc _ ("" :: ws) w); [|done|].
  - change (("" :: ws) ++ [""]) with ("" :: ws ++ [""]).
    rewrite join_slash_cons by apply snoc_ne_nil. done.
  - change ("/" +:+ t) with (String slash t). simpl. by rewrite Ht.
Qed.

Lemma path_Dir_snoc cs c : Forall normal (cs ++ [c]) → path_Dir (abs_path (cs ++ [c])) = abs_path cs.
Proof.
  intros Hall. unfold path_Dir.
  rewrite (path_Split_dir_snoc _ ("" :: cs) c)
    by (solve [discriminate | apply split_abs_path; [apply snoc_ne_nil|done]]).
  apply Forall_app in Hall as [Hcs _].
  destruct cs as [|d cs]; [reflexivity|]. set (l := d :: cs) in *.
  unfold path_Clean. rewrite split_join.
  - change (is_abs (join_slash (("" :: l) ++ [""]))) with true.
    change (("" :: l) ++ [""]) with ("" :: l ++ [""]). by rewrite clean_comps_padded.
  - by apply snoc_ne_nil.
  - apply Forall_app; split; [|by repeat constructor].
    constructor; [done|]. by apply normal_no_slash.
Qed.

Lemma path_Base_snoc cs c : Forall normal (cs ++ [c]) → path_Base (abs_path (cs ++ [c])) = c.
Proof.
  intros Hall. unfold path_Base. rewrite split_abs_path by (apply snoc_ne_nil || done).
  apply Forall_app in Hall as [_ Hc]. inversion Hc as [|? ? (Hc1 & _)]; subst.
  change ("" :: cs ++ [c]) with (("" :: cs) ++ [c]). rewrite reverse_app, reverse_singleton.
  simpl. by rewrite (proj2 (String.eqb_neq _ _) Hc1).
Qed.

Lemma abs_path_inj cs ds : Forall normal cs → Forall normal ds → abs_path cs = abs_path ds → cs = ds.
Proof.
  intros Hcs Hds Heq.
  assert (∀ l, Forall normal l → clean_comps true (split_slash (abs_path l)) = l) as Hinv.
  { intros l Hl. destruct l as [|c l]; [done|]. rewrite split_abs_path by done.
    change (clean_comps true ("" :: c :: l)) with (clean_comps true (c :: l)).
    by apply clean_comps_normal. }
  by rewrite <-(Hinv cs), <-(Hinv ds), Heq.
Qed.

Lemma abs_path_root cs : Forall normal cs → abs_path cs = "/" ↔ cs = [].
Proof.
  intros Hcs. split; [|by intros ->]. intros H. by apply (abs_path_inj cs []).
Qed.

Lemma length_join_slash cs : Forall normal cs → length cs ≤ String.length (join_slash cs).
Proof.
  induction 1 as [|c cs (Hc & _) _ IH]; [done|].
  destruct cs as [|d cs]; simpl in *; [by destruct c; simpl; [|lia]|].
  rewrite length_append. simpl. destruct c; simpl; [done|]. lia.
Qed.

(** An ancestor of a clean path is a prefix of its components. *)
Definition ancestors (cs : list string) : list string :=
  (fun k => abs_path (take k cs)) <$> reverse (seq 0 (S (length cs))).

Lemma ancestors_nil : ancestors [] = ["/"].
Proof. reflexivity. Qed.

Lemma ancestors_snoc cs c : ancestors (cs ++ [c]) = abs_path (cs ++ [c]) :: ancestors cs.
Proof.
  unfold ancestors. rewrite length_app. simpl (length [c]). rewrite Nat.add_1_r.
  rewrite (seq_S (S (length cs))), reverse_app, reverse_singleton.
  rewrite fmap_app. change (0 + S (length cs)) with (S (length cs)).
  change ((fun k => abs_path (take k (cs ++ [c]))) <$> [S (length cs)])
    with [abs_path (take (S (length cs)) (cs ++ [c]))]. cbn [app]. f_equal.
  - rewrite take_ge; [done|]. rewrite length_app. simpl. lia.
  - apply list_fmap_ext. intros i k Hk. f_equal.
    apply list_elem_of_lookup_2 in Hk. rewrite elem_of_reverse, list_elem_of_In, in_seq in Hk.
    rewrite take_app_le by lia. done.
Qed.

Lemma elem_of_ancestors cs p : p ∈ ancestors cs ↔ ∃ k, k ≤ length cs ∧ p = abs_path (take k cs).
Proof.
  unfold ancestors. rewrite list_elem_of_fmap. setoid_rewrite elem_of_reverse.
  setoid_rewrite list_elem_of_In. setoid_rewrite in_seq.
  split; intros (k & ?); exists k; [|]; destruct_and!; split; (done || lia).
Qed.

(** * Canonical paths *)

(** An absolute path that [path.Clean] does not change. *)
Definition canonical (p : string) : Prop := ∃ cs, Forall normal cs ∧ p = abs_path cs.

Lemma canonical_abs_path cs : Forall normal cs → canonical (abs_path cs).
Proof. intros H. by exists cs. Qed.
Lemma canonical_root : canonical "/".
Proof. by exists []. Qed.
Lemma canonical_abs p : canonical p → is_abs p = true.
Proof. intros (cs & _ & ->). apply is_abs_abs_path. Qed.
Lemma canonical_Clean p : canonical p → path_Clean p = p.
Proof. intros (cs & H & ->). by apply path_Clean_abs_path. Qed.
#[export] Hint Resolve canonical_abs_path canonical_root : gopath.

(** A component that is not empty and has no slash does not begin with one. *)
Lemma no_slash_not_abs c s : c ≠ "" → no_slash c = true → is_abs (c +:+ s) = false.
Proof.
  destruct c as [|x c]; [done|]. intros _ [Hx _]%andb_true_iff. rewrite negb_true_iff, Ascii.eqb_sym in Hx.
  rewrite append_cons. unfold is_abs. cbn [has_prefix]. fold slash. by rewrite Hx.
Qed.

Lemma foldl_clean_words rooted cs : ∀ st, Forall (fun c => c ≠ "" ∧ no_slash c = true) st →
  Forall (fun c => no_slash c = true) cs → Forall (fun c => c ≠ "" ∧ no_slash c = true) (foldl (clean_step rooted) st cs).
Proof.
  induction cs as [|c cs IH]; intros st Hst Hcs; simpl; [done|]. inversion Hcs; subst. apply IH; [|done].
  unfold clean_step. destruct (String.eqb_spec c "") as [|Hne]; [done|]. simpl.
  destruct (String.eqb_spec c "."); [done|]. destruct (String.eqb_spec c "..") as [->|]; [|by constructor].
  destruct Hst as [|t st Ht Hst]; [destruct rooted; [done|by apply Forall_singleton]|].
  destruct (String.eqb_spec t ".."); [by constructor; [|constructor]|done].
Qed.

Lemma is_abs_Clean p : is_abs (path_Clean p) = is_abs p.
Proof.
  destruct (is_abs p) eqn:Hp; [by destruct (path_Clean_abs p Hp) as (cs & _ & ->); apply is_abs_abs_path|].
  unfold path_Clean. rewrite Hp. destruct (String.eqb_spec p "") as [|_]; [done|].
  destruct (clean_comps false (split_slash p)) as [|c cs] eqn:Hcs; [done|].
  assert (Forall (fun c => c ≠ "" ∧ no_slash c = true) (c :: cs)) as Hall.
  { rewrite <-Hcs. apply Forall_reverse, foldl_clean_words; [constructor|apply split_no_slash]. }
  inversion Hall as [|? ? [Hne Hns] ?]; subst. destruct cs as [|d cs].
  - simpl. rewrite <-(append_nil_r c). by apply no_slash_not_abs.
  - change (join_slash (c :: d :: cs)) with (c +:+ String slash (join_slash (d :: cs))). by apply no_slash_not_abs.
Qed.

Lemma Clean_canonical p : is_abs p = true → canonical (path_Clean p).
Proof. intros H. destruct (path_Clean_abs p H) as (cs & ? & ->). by exists cs. Qed.
Lemma Clean_abs_canonical p : is_abs (path_Clean p) = true → canonical (path_Clean p).
Proof. rewrite is_abs_Clean. apply Clean_canonical. Qed.

Lemma path_Join2_Clean a b : (a ≠ "" ∨ b ≠ "") → ∃ p, path_Join2 a b = path_Clean p.
Proof.
  intros H. unfold path_Join2. destruct (String.eqb_spec a "") as [->|]; [|eauto].
  destruct (String.eqb_spec b ""); [by destruct H|eauto].
Qed.
