(* ===== verification/Json.v ===== *)
(** Text that is put in templates: the escaping of JSON strings as
    [encoding/json] does it (internal/util/util.go JSONEscape) and the
    substitutions of [strings.Replacer], of the standard library. *)
From Stdlib Require Import Ascii.
From S2P Require Import Prelude.

Definition code (c : ascii) : N := N_of_ascii c.
Definition between (lo hi : N) (c : ascii) : bool := (lo <=? code c)%N && (code c <=? hi)%N.
Definition is_cont : ascii → bool := between 128 191.
Definition is_ascii : ascii → bool := between 0 127.

(** The number of bytes of the first code point of a text, [0] when it does
    not start with a valid encoding ([utf8.DecodeRuneInString]). *)
Definition rune_len (s : string) : nat :=
  match s with
  | String c (String c1 (String c2 (String c3 _))) =>
      if is_ascii c then 1
      else if between 194 223 c && is_cont c1 then 2
      else if ((code c =? 224)%N && between 160 191 c1 || between 225 236 c && is_cont c1 ||
               (code c =? 237)%N && between 128 159 c1 || between 238 239 c && is_cont c1) && is_cont c2 then 3
      else if ((code c =? 240)%N && between 144 191 c1 || between 241 243 c && is_cont c1 ||
               (code c =? 244)%N && between 128 143 c1) && is_cont c2 && is_cont c3 then 4
      else 0
  | String c (String c1 (String c2 EmptyString)) =>
      if is_ascii c then 1
      else if between 194 223 c && is_cont c1 then 2
      else if ((code c =? 224)%N && between 160 191 c1 || between 225 236 c && is_cont c1 ||
               (code c =? 237)%N && between 128 159 c1 || between 238 239 c && is_cont c1) && is_cont c2 then 3
      else 0
  | String c (String c1 EmptyString) => if is_ascii c then 1 else if between 194 223 c && is_cont c1 then 2 else 0
  | String c EmptyString => if is_ascii c then 1 else 0
  | EmptyString => 0
  end%nat.

Definition backslash : ascii := "\"%char.
Definition quote : ascii := "034"%char.
Definition hex_digit (n : N) : ascii := ascii_of_N (if (n <? 10)%N then 48 + n else 87 + n).
Definition escape_u (hi lo : N) : string :=
  String backslash (String "u" (String (hex_digit (hi / 16)) (String (hex_digit (hi mod 16))
    (String (hex_digit (lo / 16)) (String (hex_digit (lo mod 16)) EmptyString))))).
(** a byte below 128; [<], [>] and [&] are escaped as well *)
Definition escape_byte (c : ascii) : string :=
  if Ascii.eqb c backslash || Ascii.eqb c quote then String backslash (String c EmptyString)
  else if (code c =? 10)%N then String backslash "n"
  else if (code c =? 13)%N then String backslash "r"
  else if (code c =? 9)%N then String backslash "t"
  else if (code c <? 32)%N || Ascii.eqb c "<" || Ascii.eqb c ">" || Ascii.eqb c "&" then escape_u 0 (code c)
  else String c EmptyString.
Definition escape_rune3 (c c1 c2 : ascii) : string :=
  if (code c =? 226)%N && (code c1 =? 128)%N && ((code c2 =? 168)%N || (code c2 =? 169)%N)
  then escape_u 32 (code c2 - 128)
  else String c (String c1 (String c2 EmptyString)).

(** [appendString] of [encoding/json], without the quotes *)
Fixpoint json_escape (s : string) : string :=
  match s with
  | EmptyString => EmptyString
  | String c s0 =>
      match rune_len s, s0 with
      | 1, _ => escape_byte c +:+ json_escape s0
      | 2, String c1 s1 => String c (String c1 (json_escape s1))
      | 3, String c1 (String c2 s1) => escape_rune3 c c1 c2 +:+ json_escape s1
      | 4, String c1 (String c2 (String c3 s1)) => String c (String c1 (String c2 (String c3 (json_escape s1))))
      | _, _ => escape_u 255 253 +:+ json_escape s0
      end%nat
  end.
(* source: internal/util/util.go JSONEscape *)
Definition JSONEscape (val : string) : string := if val =s "" then val else json_escape val.

(** * Reading a JSON string *)

Definition hex_value (c : ascii) : option N :=
  if between 48 57 c then Some (code c - 48)%N
  else if between 97 102 c then Some (code c - 87)%N
  else if between 65 70 c then Some (code c - 55)%N else None.
Definition simple_escape (c : ascii) : option ascii :=
  if Ascii.eqb c quote || Ascii.eqb c backslash || Ascii.eqb c "/" then Some c
  else if Ascii.eqb c "n" then Some "010"%char else if Ascii.eqb c "r" then Some "013"%char
  else if Ascii.eqb c "t" then Some "009"%char else if Ascii.eqb c "b" then Some "008"%char
  else if Ascii.eqb c "f" then Some "012"%char else None.
(** the bytes of a code point of at most 16 bits *)
Definition rune_bytes (n : N) : string :=
  if (n <? 128)%N then String (ascii_of_N n) EmptyString
  else if (n <? 2048)%N then String (ascii_of_N (192 + n / 64)) (String (ascii_of_N (128 + n mod 64)) EmptyString)
  else String (ascii_of_N (224 + n / 4096)) (String (ascii_of_N (128 + n / 64 mod 64)) (String (ascii_of_N (128 + n mod 64)) EmptyString)).
(** The text between the quotes of a JSON string; [None] when a quote, a
    control character or a wrong escape is in it.  Surrogates are not read. *)
Fixpoint json_unescape (s : string) : option string :=
  match s with
  | EmptyString => Some EmptyString
  | String c s =>
      if Ascii.eqb c quote || (code c <? 32)%N then None
      else if Ascii.eqb c backslash then
        match s with
        | EmptyString => None
        | String e s0 =>
            if Ascii.eqb e "u" then
              match s0 with
              | String a (String b (String d (String f s1))) =>
                  match hex_value a, hex_value b, hex_value d, hex_value f with
                  | Some a, Some b, Some d, Some f =>
                      let n := (4096 * a + 256 * b + 16 * d + f)%N in
                      if (55296 <=? n)%N && (n <? 57344)%N then None
                      else String.append (rune_bytes n) <$> json_unescape s1
                  | _, _, _, _ => None
                  end
              | _ => None
              end
            else match simple_escape e with
                 | Some x => String x <$> json_unescape s0
                 | None => None
                 end
        end
      else String c <$> json_unescape s
  end.

(** what is read: the text with U+FFFD in place of every invalid byte *)
Fixpoint valid_text (s : string) : string :=
  match s with
  | EmptyString => EmptyString
  | String c s0 =>
      match rune_len s, s0 with
      | 1, _ => String c (valid_text s0)
      | 2, String c1 s1 => String c (String c1 (valid_text s1))
      | 3, String c1 (String c2 s1) => String c (String c1 (String c2 (valid_text s1)))
      | 4, String c1 (String c2 (String c3 s1)) => String c (String c1 (String c2 (String c3 (valid_text s1))))
      | _, _ => rune_bytes 65533 +:+ valid_text s0
      end%nat
  end.

Lemma read_escape_byte c s : is_ascii c → json_unescape (escape_byte c +:+ s) = String c <$> json_unescape s.
Proof. destruct c as [[] [] [] [] [] [] [] []]; intros H; first [reflexivity | by vm_compute in H]. Qed.
Lemma read_byte c s : is_ascii c = false → json_unescape (String c s) = String c <$> json_unescape s.
Proof. destruct c as [[] [] [] [] [] [] [] []]; intros H; first [discriminate H | reflexivity]. Qed.
Lemma cont_not_ascii c : is_cont c → is_ascii c = false.
Proof. destruct c as [[] [] [] [] [] [] [] []]; intros H; first [reflexivity | by vm_compute in H]. Qed.
Lemma between_cont lo hi c : between lo hi c → (128 <=? lo)%N → (hi <=? 191)%N → is_cont c.
Proof. unfold is_cont, between. rewrite !andb_True, !Is_true_true, !N.leb_le. lia. Qed.
Lemma read_invalid s : json_unescape (escape_u 255 253 +:+ s) = String.append (rune_bytes 65533) <$> json_unescape s.
Proof. reflexivity. Qed.

Lemma read_bytes2 c c1 s : is_ascii c = false → is_cont c1 → json_unescape (String c (String c1 s)) = (String c ∘ String c1) <$> json_unescape s.
Proof. intros Hc H1. rewrite read_byte, read_byte by auto using cont_not_ascii. by rewrite <-option_fmap_compose. Qed.
Lemma read_rune3 c c1 c2 s : is_ascii c = false → is_cont c1 → is_cont c2 →
  json_unescape (escape_rune3 c c1 c2 +:+ s) = (String c ∘ String c1 ∘ String c2) <$> json_unescape s.
Proof.
  intros Hc H1 H2. unfold escape_rune3. case_match eqn:Hs.
  - apply andb_prop in Hs as [[Ha Hb]%andb_prop Hd]. apply N.eqb_eq in Ha, Hb.
    assert (c = ascii_of_N 226) as -> by by rewrite <-Ha, ascii_N_embedding.
    assert (c1 = ascii_of_N 128) as -> by by rewrite <-Hb, ascii_N_embedding.
    apply orb_prop in Hd as [Hd|Hd]; apply N.eqb_eq in Hd.
    + assert (c2 = ascii_of_N 168) as -> by by rewrite <-Hd, ascii_N_embedding. reflexivity.
    + assert (c2 = ascii_of_N 169) as -> by by rewrite <-Hd, ascii_N_embedding. reflexivity.
  - change (String c (String c1 (String c2 "")) +:+ s) with (String c (String c1 (String c2 s))).
    rewrite read_byte, read_bytes2 by auto using cont_not_ascii. by rewrite <-option_fmap_compose.
Qed.

(** the bytes of the first code point *)
Lemma rune_len_bytes c s :
  match rune_len (String c s), s with
  | 1, _ => is_ascii c = true
  | 2, String c1 _ => is_ascii c = false ∧ is_cont c1
  | 3, String c1 (String c2 _) => is_ascii c = false ∧ is_cont c1 ∧ is_cont c2
  | 4, String c1 (String c2 (String c3 _)) => is_ascii c = false ∧ is_cont c1 ∧ is_cont c2 ∧ is_cont c3
  | _, _ => True
  end%nat.
Proof.
  unfold rune_len. destruct s as [|c1 [|c2 [|c3 s]]]; 
    repeat match goal with |- context [if ?b then _ else _] => destruct b eqn:? end; try done;
    repeat match goal with
    | H : (_ && _) = true |- _ => apply andb_prop in H as [? ?]
    | H : (_ || _) = true |- _ => apply orb_prop in H as [?|?]
    end; split_and?; try done;
    first [by apply Is_true_true_2 |
      match goal with H : between ?lo ?hi ?x = true |- Is_true (is_cont ?x) => eapply (between_cont lo hi); [by rewrite H|done|done] end].
Qed.

Lemma json_escape_read s : json_unescape (json_escape s) = Some (valid_text s).
Proof.
  remember (String.length s) as n eqn:Hn. revert s Hn. induction n as [n IH] using lt_wf_ind; intros [|c s] ->; [done|].
  assert (∀ t, (String.length t <= String.length s)%nat → json_unescape (json_escape t) = Some (valid_text t)) as IHt.
  { intros t Ht. eapply IH; [|done]. cbn. lia. }
  pose proof (rune_len_bytes c s) as Hb. cbn [json_escape valid_text].
  destruct (rune_len (String c s)) as [|[|[|[|[|k]]]]]; try (by rewrite read_invalid, IHt).
  - by rewrite read_escape_byte, IHt by (by rewrite Hb || done).
  - destruct s as [|c1 s1]; [by rewrite read_invalid, IHt|]. destruct Hb as [Ha H1].
    by rewrite read_bytes2, IHt by (done || cbn; lia).
  - destruct s as [|c1 [|c2 s2]]; try (by rewrite read_invalid, IHt). destruct Hb as (Ha & H1 & H2).
    by rewrite read_rune3, IHt by (done || cbn; lia).
  - destruct s as [|c1 [|c2 [|c3 s3]]]; try (by rewrite read_invalid, IHt). destruct Hb as (Ha & H1 & H2 & H3).
    rewrite read_byte, read_byte by auto using cont_not_ascii. rewrite read_byte, read_byte by auto using cont_not_ascii.
    by rewrite IHt by (cbn; lia).
Qed.

(** A text put between quotes with [JSONEscape] is read back as it was, with
    invalid bytes replaced: it never ends the string it is put in. *)
Theorem JSONEscape_read s : json_unescape (JSONEscape s) = Some (valid_text s).
Proof. unfold JSONEscape. destruct (String.eqb_spec s "") as [->|]; [done|apply json_escape_read]. Qed.

(** * Substitutions *)

(** the first pair, in the order of the arguments, whose key starts the text *)
Fixpoint find_old (pairs : list (string * string)) (s : string) : option (string * nat) :=
  match pairs with
  | [] => None
  | (old, new) :: pairs => if has_prefix s old then Some (new, String.length old) else find_old pairs s
  end.
(** [strings.NewReplacer(...).Replace], for keys that are not empty; [skip]
    bytes of a key remain *)
Fixpoint replace_from (pairs : list (string * string)) (skip : nat) (s : string) : string :=
  match s with
  | EmptyString => EmptyString
  | String c s' =>
      match skip with
      | S k => replace_from pairs k s'
      | O => match find_old pairs s with
             | Some (new, n) => new +:+ replace_from pairs (n - 1) s'
             | None => String c (replace_from pairs 0 s')
             end
      end
  end.
Definition Replacer_Replace (pairs : list (string * string)) (s : string) : string := replace_from pairs 0 s.
