(* ===== verification/Util.v ===== *)
(** internal/util/util.go: slices, paths and the directories of a virtual path.

    Slices that a function rewrites in place are returned together with the
    new contents of their backing array, so that the aliasing is visible. *)
From stdpp Require Import strings list gmap.
From Stdlib Require Import Ascii.
From S2P Require Import Prelude GoPath.

(** * strings.TrimSpace *)

Definition bytes (l : list nat) : string :=
  String.string_of_list_ascii (ascii_of_nat <$> l).

(** the UTF-8 encodings of the runes with [unicode.IsSpace] *)
Definition space_runes : list string :=
  bytes <$> ([[9]; [10]; [11]; [12]; [13]; [32]; [194; 133]; [194; 160]; [225; 154; 128];
    [226; 128; 168]; [226; 128; 169]; [226; 128; 175]; [226; 129; 159]; [227; 128; 128]]
    ++ ((fun k => [226; 128; k]) <$> seq 128 11)).

Definition string_rev (s : string) : string := String.string_of_list_ascii (reverse (String.list_ascii_of_string s)).

(** one rune of the given encodings cut off the front *)
Fixpoint cut_rune (rs : list string) (s : string) : option string :=
  match rs with
  | [] => None
  | r :: rs' =>
      if has_prefix s r
      then Some (String.substring (String.length r) (String.length s - String.length r) s)
      else cut_rune rs' s
  end.

Fixpoint cut_runes (rs : list string) (fuel : nat) (s : string) : string :=
  match fuel with
  | O => s
  | S fuel' => match cut_rune rs s with Some s' => cut_runes rs fuel' s' | None => s end
  end.

Definition TrimSpace (s : string) : string :=
  let l := cut_runes space_runes (String.length s) s in
  string_rev (cut_runes (string_rev <$> space_runes) (String.length l) (string_rev l)).

Example TrimSpace_ex : TrimSpace "	 a b  " = "a b". Proof. reflexivity. Qed.

(** [strings.HasSuffix], [strings.TrimSuffix] and [strings.TrimPrefix] *)
Definition has_suffix (s t : string) : bool := has_prefix (string_rev s) (string_rev t).
Definition TrimSuffix (s t : string) : string :=
  if has_suffix s t then String.substring 0 (String.length s - String.length t) s else s.
Definition TrimPrefix (s p : string) : string :=
  if has_prefix s p then String.substring (String.length p) (String.length s - String.length p) s else s.

(** * Slices *)

(** The result is a prefix of the caller's array, which is rewritten. *)
(* source: internal/util/util.go Remove *)
Definition Remove (elems : list string) (val : string) : list string :=
  match list_find (fun v => v = val) elems with
  | Some (idx, _) => removelast (<[idx := List.last elems ""]> elems)
  | None => elems
  end.

(* source: internal/util/util.go IsStringPrefixInSlice *)
Fixpoint IsStringPrefixInSlice (obj : string) (l : list string) : bool :=
  match l with
  | [] => false
  | p :: l' => if has_prefix obj p then true else IsStringPrefixInSlice obj l'
  end.

(** The loop reads the [i]-th element of the array it is rewriting. *)
(* source: internal/util/util.go#L170-L180 RemoveDuplicates *)
Fixpoint RemoveDuplicates_loop (trim : bool) (n i : nat) (seen : gset string)
    (validIdx : nat) (obj : list string) : nat * list string :=
  match n with
  | O => (validIdx, obj)
  | S n' =>
      match obj !! i with
      | None => (validIdx, obj)
      | Some item0 =>
          let item := if trim then TrimSpace item0 else item0 in
          if bool_decide (item ∈ seen) then RemoveDuplicates_loop trim n' (S i) seen validIdx obj
          else RemoveDuplicates_loop trim n' (S i) ({[item]} ∪ seen) (S validIdx) (<[validIdx := item]> obj)
      end
  end.

(** The result and the caller's array after the call. *)
(* source: internal/util/util.go RemoveDuplicates *)
Definition RemoveDuplicates_mut (obj : list string) (trim : bool) : list string * list string :=
  match obj with
  | [] => ([], [])
  | _ =>
      let '(validIdx, obj') := RemoveDuplicates_loop trim (length obj) 0 ∅ 0 obj in
      (take validIdx obj', obj')
  end.

Definition RemoveDuplicates (obj : list string) (trim : bool) : list string :=
  (RemoveDuplicates_mut obj trim).1.

(** [append(files, nil)], shift by one, set the head. *)
(* source: internal/util/util.go PrependFileInfo *)
Definition PrependFileInfo {A} (nilv : A) (files : list A) (info : A) : list A :=
  let files1 := files ++ [nilv] in
  let files2 := take 1 files1 ++ take (length files1 - 1) files1 in
  <[0 := info]> files2.

(** * Paths *)

(* source: internal/util/util.go IsDirOverlapped *)
Definition IsDirOverlapped (dir1 dir2 : string) (fullCheck : bool) (separator : string) : bool :=
  if dir1 =s dir2 then true
  else if fullCheck then
    if Nat.ltb (String.length dir2) (String.length dir1) && has_prefix dir1 (dir2 +:+ separator) then true
    else if Nat.ltb (String.length dir1) (String.length dir2) && has_prefix dir2 (dir1 +:+ separator) then true
    else false
  else false.

(** [filepath.ToSlash] is the identity where the separator is a slash. *)
(* source: internal/util/util.go CleanPathWithBase *)
Definition CleanPathWithBase (base p : string) : string :=
  let p := if negb (is_abs p) then path_Join2 base p else p in
  path_Clean p.

(* source: internal/util/util.go CleanPath *)
Definition CleanPath (p : string) : string := CleanPathWithBase "/" p.

(* source: internal/util/util.go IsFileInputValid *)
Definition IsFileInputValid (fileInput : string) : bool :=
  let cleanInput := path_Clean fileInput in
  if (cleanInput =s ".") || (cleanInput =s "..") then false else true.

(* source: internal/util/util.go#L487-L494 GetDirsForVirtualPath *)
Fixpoint GetDirs_loop (fuel : nat) (virtualPath : string) (dirsForPath : list string) : option (list string) :=
  match fuel with
  | O => None
  | S fuel' =>
      if virtualPath =s "/" then Some dirsForPath
      else let virtualPath := path_Dir virtualPath in
           GetDirs_loop fuel' virtualPath (dirsForPath ++ [virtualPath])
  end.

(** [None] is a loop still running when the fuel, two more than the length of
    the path, is spent: see [GetDirs_total]. *)
(* source: internal/util/util.go GetDirsForVirtualPath *)
Definition GetDirsForVirtualPath (virtualPath0 : string) : option (list string) :=
  let virtualPath :=
    if (virtualPath0 =s "") || (virtualPath0 =s ".") then "/"
    else if negb (is_abs virtualPath0) then CleanPath virtualPath0 else virtualPath0 in
  GetDirs_loop (3 + String.length virtualPath) virtualPath [virtualPath].

(** * Client addresses *)

Section RealIP.
(** [net.ParseIP(s) != nil] and [strings.Split(h, ",")] *)
Variable parses_as_ip : string → bool.

Fixpoint split_on (sep : ascii) (s : string) : list string :=
  match s with
  | EmptyString => [""]
  | String c s' =>
      if Ascii.eqb c sep then "" :: split_on sep s'
      else match split_on sep s' with
           | w :: ws => String c w :: ws
           | [] => [String c EmptyString]
           end
  end.

(** [values] is [r.Header.Values(header)]; [depth] is an int, non negative in
    a validated configuration. *)
(* source: internal/util/util.go GetRealIP *)
Definition GetRealIP (header : string) (values : list string) (depth : Z) : string :=
  if header =s "" then ""
  else
    let ipAddresses := mjoin ((fun h => TrimSpace <$> split_on ","%char h) <$> values) in
    let idx := (Z.of_nat (length ipAddresses) - 1 - depth)%Z in
    if (0 <=? idx)%Z then
      match ipAddresses !! Z.to_nat idx with
      | Some a =>
          let ip := TrimSpace a in
          if (ip =s "") || negb (parses_as_ip ip) then "" else ip
      | None => ""
      end
    else "".
End RealIP.

(** * Facts *)

Example Remove_ex : Remove ["a"; "b"; "c"; "d"] "b" = ["a"; "d"; "c"]. Proof. reflexivity. Qed.
Example RemoveDuplicates_ex :
  RemoveDuplicates_mut ["a"; " a"; "b"; "a "; "c"] true = (["a"; "b"; "c"], ["a"; "b"; "c"; "a "; "c"]).
Proof. vm_compute. reflexivity. Qed.
Example GetDirs_ex :
  GetDirsForVirtualPath "/1/2/3/4" = Some ["/1/2/3/4"; "/1/2/3"; "/1/2"; "/1"; "/"].
Proof. reflexivity. Qed.

(** ** RemoveDuplicates *)

(** The reference: keep the first of equal elements, after [f]. *)
Fixpoint dedup (seen : gset string) (l : list string) : list string :=
  match l with
  | [] => []
  | x :: l' => if bool_decide (x ∈ seen) then dedup seen l' else x :: dedup ({[x]} ∪ seen) l'
  end.

Lemma elem_of_dedup l : ∀ seen x, x ∈ dedup seen l ↔ x ∈ l ∧ x ∉ seen.
Proof.
  induction l as [|y l IH]; intros seen x; simpl.
  - rewrite elem_of_nil. tauto.
  - case_bool_decide; rewrite ?elem_of_cons, ?IH; [set_solver|].
    destruct (decide (x = y)); set_solver.
Qed.

Lemma NoDup_dedup l : ∀ seen, NoDup (dedup seen l).
Proof.
  induction l as [|y l IH]; intros seen; simpl; [constructor|].
  case_bool_decide; [done|]. constructor; [|done]. rewrite elem_of_dedup. set_solver.
Qed.

Definition item_of (trim : bool) (x : string) : string := if trim then TrimSpace x else x.

Lemma RemoveDuplicates_loop_spec trim n : ∀ i seen done obj,
  length done ≤ i → i + n = length obj → take (length done) obj = done →
  let '(v, obj') := RemoveDuplicates_loop trim n i seen (length done) obj in
  take v obj' = done ++ dedup seen (item_of trim <$> drop i obj) ∧ drop v obj' = drop v obj.
Proof.
  induction n as [|n IH]; intros i seen ds obj Hle Hlen Hdone; simpl.
  - rewrite drop_ge by lia. simpl. by rewrite app_nil_r.
  - destruct (lookup_lt_is_Some_2 obj i) as [x Hx]; [lia|]. rewrite Hx.
    rewrite (drop_S _ _ _ Hx). simpl. fold (item_of trim x). set (y := item_of trim x).
    case_bool_decide.
    + specialize (IH (S i) seen ds obj). by apply IH; [lia|lia|].
    + specialize (IH (S i) ({[y]} ∪ seen) (ds ++ [y]) (<[length ds := y]> obj)).
      rewrite length_app in IH. simpl (length [y]) in IH. rewrite Nat.add_1_r in IH.
      destruct (RemoveDuplicates_loop _ _ _ _ _ _) as [v obj'].
      destruct IH as [IH1 IH2].
      * lia.
      * rewrite length_insert. lia.
      * rewrite (take_S_r _ _ y) by (rewrite list_lookup_insert_eq; [done|lia]).
        by rewrite take_insert_ge, Hdone.
      * rewrite drop_insert_lt, <-app_assoc in IH1 by lia. split; [done|].
        rewrite IH2. destruct (decide (length ds < v)); [by rewrite drop_insert_lt by lia|].
        exfalso. apply (f_equal length) in IH1. rewrite length_app, length_take in IH1. simpl in IH1. lia.
Qed.

Lemma RemoveDuplicates_eq obj trim : RemoveDuplicates obj trim = dedup ∅ (item_of trim <$> obj).
Proof.
  unfold RemoveDuplicates, RemoveDuplicates_mut. destruct obj as [|x l]; [done|].
  pose proof (RemoveDuplicates_loop_spec trim (length (x :: l)) 0 ∅ [] (x :: l)) as H.
  simpl (length []) in H. destruct (RemoveDuplicates_loop _ _ _ _ _ _) as [v obj'].
  destruct H as [H _]; [lia|done|done|]. exact H.
Qed.

Lemma RemoveDuplicates_dedup l : RemoveDuplicates l false = dedup ∅ l.
Proof. by rewrite RemoveDuplicates_eq, list_fmap_id. Qed.
Lemma elem_of_RemoveDuplicates l x : x ∈ RemoveDuplicates l false ↔ x ∈ l.
Proof. rewrite RemoveDuplicates_dedup, elem_of_dedup. set_solver. Qed.
Lemma NoDup_RemoveDuplicates l : NoDup (RemoveDuplicates l false).
Proof. rewrite RemoveDuplicates_dedup. apply NoDup_dedup. Qed.
Lemma RemoveDuplicates_nil l : RemoveDuplicates l false = [] ↔ l = [].
Proof.
  split; [|by intros ->]. destruct l as [|x l]; [done|]. intros H.
  assert (x ∈ RemoveDuplicates (x :: l) false) as Hx by (rewrite elem_of_RemoveDuplicates; left).
  rewrite H in Hx. by apply elem_of_nil in Hx.
Qed.

(** ** Remove *)

Lemma Remove_notin elems v : v ∉ elems → Remove elems v = elems.
Proof.
  intros H. unfold Remove. destruct (list_find _ elems) as [[i y]|] eqn:Hf; [|done].
  apply list_find_Some in Hf as (Hi & -> & _). exfalso. apply H. by eapply list_elem_of_lookup_2.
Qed.

Lemma Remove_perm elems v : v ∈ elems → v :: Remove elems v ≡ₚ elems.
Proof.
  intros Hin. unfold Remove. destruct (list_find _ elems) as [[i y]|] eqn:Hf.
  2:{ apply list_find_None in Hf. rewrite Forall_forall in Hf. by destruct (Hf v Hin). }
  apply list_find_Some in Hf as (Hi & -> & _). clear Hin.
  destruct elems as [|x0 l0] eqn:He using rev_ind; [done|]. clear IHl0 He.
  rewrite last_last. destruct (decide (i < length l0)) as [Hlt|Hge].
  - rewrite insert_app_l, removelast_last by done.
    rewrite lookup_app_l in Hi by done.
    rewrite (delete_Permutation l0 i v) at 2 by done.
    rewrite insert_take_drop by done. rewrite delete_take_drop.
    rewrite Permutation_middle. solve_Permutation.
  - rewrite lookup_app_r in Hi by lia.
    apply list_lookup_singleton_Some in Hi as [Hi ->].
    replace i with (length l0 + 0) by lia. rewrite insert_app_r. simpl. rewrite removelast_last.
    by rewrite Permutation_cons_append.
Qed.

(** ** Paths *)

Lemma CleanPathWithBase_abs base p : is_abs base = true →
  ∃ cs, Forall normal cs ∧ CleanPathWithBase base p = abs_path cs.
Proof.
  intros Hb. unfold CleanPathWithBase. destruct (is_abs p) eqn:Hp; simpl; [by apply path_Clean_abs|].
  apply path_Clean_abs. unfold path_Join2.
  destruct (String.eqb_spec base "") as [->|Hne]; [discriminate|].
  destruct (path_Clean_abs (base +:+ String slash p)) as (cs & _ & ->); [|apply is_abs_abs_path].
  unfold is_abs in *. apply has_prefix_spec in Hb as [t ->].
  apply has_prefix_spec. exists (t +:+ String slash p). by rewrite append_assoc.
Qed.

Lemma CleanPath_canonical p : ∃ cs, Forall normal cs ∧ CleanPath p = abs_path cs.
Proof. by apply CleanPathWithBase_abs. Qed.

Lemma CleanPath_of_abs_path cs : Forall normal cs → CleanPath (abs_path cs) = abs_path cs.
Proof.
  intros H. unfold CleanPath, CleanPathWithBase. rewrite is_abs_abs_path. simpl. by apply path_Clean_abs_path.
Qed.

Lemma CleanPath_idemp p : CleanPath (CleanPath p) = CleanPath p.
Proof. destruct (CleanPath_canonical p) as (cs & Hcs & ->). by apply CleanPath_of_abs_path. Qed.

Lemma canonical_CleanPath p : canonical (CleanPath p).
Proof. destruct (CleanPath_canonical p) as (cs & ? & ->). by exists cs. Qed.
Lemma CleanPath_canonical_id p : canonical p → CleanPath p = p.
Proof. intros (cs & H & ->). by apply CleanPath_of_abs_path. Qed.
#[export] Hint Resolve canonical_CleanPath : gopath.

(** ** Substrings *)

Lemma substring_app x y : String.substring 0 (String.length x) (x +:+ y) = x.
Proof. induction x as [|c x IH]; [by destruct y|]. rewrite append_cons. cbn [String.length String.substring]. by rewrite IH. Qed.
Lemma substring_full y n : (String.length y <= n)%nat → String.substring 0 n y = y.
Proof.
  revert n. induction y as [|c y IH]; intros [|n] H; cbn [String.length String.substring] in *; [done|done|lia|].
  by rewrite IH by lia.
Qed.
Lemma substring_drop x y n : (String.length y <= n)%nat → String.substring (String.length x) n (x +:+ y) = y.
Proof.
  intros Hn. induction x as [|c x IH]; [by apply substring_full|]. rewrite append_cons. exact IH.
Qed.

Lemma TrimPrefix_app p s : TrimPrefix (p +:+ s) p = s.
Proof.
  unfold TrimPrefix. rewrite has_prefix_app. apply substring_drop. rewrite length_append. lia.
Qed.

(** ** Suffixes *)

Lemma string_rev_cons c s : string_rev (String c s) = string_rev s +:+ String c "".
Proof.
  assert (∀ l m, String.string_of_list_ascii (l ++ m) = String.string_of_list_ascii l +:+ String.string_of_list_ascii m) as Happ.
  { intros l m. induction l as [|x l IH]; [done|]. simpl. by rewrite IH. }
  unfold string_rev. simpl. rewrite reverse_cons, Happ. done.
Qed.
Lemma string_rev_app a b : string_rev (a +:+ b) = string_rev b +:+ string_rev a.
Proof.
  induction a as [|c a IH]; [by rewrite append_nil_r|]. by rewrite append_cons, !string_rev_cons, IH, append_assoc.
Qed.
Lemma no_slash_rev c : no_slash c = true → no_slash (string_rev c) = true.
Proof.
  assert (∀ a b, no_slash (a +:+ b) = no_slash a && no_slash b) as Happ.
  { intros a b. induction a as [|x a IH]; [done|]. simpl. by rewrite IH, andb_assoc. }
  induction c as [|x c IH]; [done|]. simpl. rewrite string_rev_cons, Happ. simpl.
  intros [Hx Hc]%andb_true_iff. by rewrite IH, Hx.
Qed.

(** No clean path but the root ends in a slash. *)
Lemma canonical_no_suffix p : canonical p → p ≠ "/" → has_suffix p "/" = false.
Proof.
  intros (cs & Hcs & ->) Hne. destruct cs as [|c cs _] using rev_ind; [done|].
  apply Forall_app in Hcs as [_ Hc]. apply Forall_singleton in Hc as (Hc & _ & _ & Hns).
  assert (∃ s, abs_path (cs ++ [c]) = s +:+ String slash c) as [s ->].
  { destruct cs as [|d cs]; [by exists ""|]. exists (abs_path (d :: cs)).
    unfold abs_path at 1. rewrite join_slash_snoc by done. done. }
  unfold has_suffix. rewrite string_rev_app, string_rev_cons, <-append_assoc.
  apply (no_slash_not_abs (string_rev c)); [|by apply no_slash_rev].
  destruct c as [|x c]; [done|]. rewrite string_rev_cons. by destruct (string_rev c).
Qed.

(** ** Ancestors *)

Lemma GetDirs_loop_normal cs : Forall normal cs → ∀ fuel acc, length cs < fuel →
  GetDirs_loop fuel (abs_path cs) (acc ++ [abs_path cs]) = Some (acc ++ ancestors cs).
Proof.
  induction cs as [|c cs IH] using rev_ind; intros Hall fuel acc Hf; destruct fuel as [|fuel]; try (simpl in Hf; lia).
  - done.
  - pose proof (proj1 (Forall_app _ _ _) Hall) as [Hcs _].
    rewrite length_app in Hf. simpl in Hf. cbn [GetDirs_loop].
    destruct (String.eqb_spec (abs_path (cs ++ [c])) "/") as [He|_].
    { apply abs_path_root in He; [|done]. by apply snoc_ne_nil in He. }
    rewrite path_Dir_snoc, IH by (done || lia). rewrite ancestors_snoc.
    by rewrite <-app_assoc.
Qed.

Lemma length_clean_comps rooted cs : length (clean_comps rooted cs) ≤ length cs.
Proof.
  unfold clean_comps. rewrite length_reverse.
  assert (∀ st, length (foldl (clean_step rooted) st cs) ≤ length st + length cs) as H; [|apply (H [])].
  induction cs as [|c cs IH]; intros st; simpl; [lia|].
  rewrite IH. enough (length (clean_step rooted st c) ≤ S (length st)) by lia.
  unfold clean_step. destruct (_ || _); [lia|]. destruct (c =s ".."); [|done].
  destruct st as [|t st]; [destruct rooted; simpl; lia|]. destruct (t =s ".."); simpl; lia.
Qed.

Lemma length_split_slash s : length (split_slash s) ≤ S (String.length s).
Proof.
  induction s as [|c s IH]; simpl; [done|]. destruct (Ascii.eqb c slash); simpl; [lia|].
  destruct (split_slash s); simpl in *; lia.
Qed.

(** The number of components of a directory is bounded by the length of the path. *)
Lemma path_Dir_bounded p : is_abs p = true →
  ∃ cs, Forall normal cs ∧ path_Dir p = abs_path cs ∧ length cs ≤ S (String.length p).
Proof.
  intros Hp. destruct (path_Dir_abs p Hp) as (cs & Hcs & Hd). exists cs. split_and!; [done..|].
  unfold path_Dir in Hd. destruct (exists_last (split_slash_nonempty p)) as (ws & w & Hs).
  pose proof (length_split_slash p) as Hlen. rewrite Hs, length_app in Hlen. simpl in Hlen.
  destruct (decide (ws = [])) as [->|Hne].
  { unfold path_Split_dir in Hd. rewrite Hs in Hd. change (split_dir_of _) with "" in Hd.
    change (path_Clean "") with "." in Hd. discriminate. }
  rewrite (path_Split_dir_snoc p ws w) in Hd by done.
  assert (Forall (fun c => no_slash c = true) (ws ++ [""])) as Hns.
  { pose proof (split_no_slash p) as H. rewrite Hs in H. apply Forall_app in H as [??].
    apply Forall_app; split; [done|by repeat constructor]. }
  assert (clean_comps true (ws ++ [""]) = cs) as <-; [|rewrite length_clean_comps, length_app; simpl; lia].
  destruct (path_Clean_abs_path cs Hcs). unfold path_Clean in Hd.
  destruct (join_slash (ws ++ [""]) =s ""); [discriminate|].
  rewrite split_join in Hd by (done || apply snoc_ne_nil).
  destruct (is_abs (join_slash (ws ++ [""]))) eqn:Ha.
  - apply abs_path_inj; [by apply clean_comps_rooted|done|]. exact Hd.
  - exfalso. unfold is_abs in *. apply has_prefix_spec in Hp as [t ->].
    change ("/" +:+ t) with (String slash t) in Hs. simpl in Hs.
    destruct ws as [|v ws]; [done|]. injection Hs as <- Hs.
    change (("" :: ws) ++ [""]) with ("" :: ws ++ [""]) in Ha.
    rewrite join_slash_cons in Ha by apply snoc_ne_nil. discriminate.
Qed.

Lemma GetDirs_loop_abs p : is_abs p = true → p ≠ "/" →
  ∃ cs, Forall normal cs ∧ path_Dir p = abs_path cs ∧
    GetDirs_loop (3 + String.length p) p [p] = Some (p :: ancestors cs).
Proof.
  intros Hp Hne. destruct (path_Dir_bounded p Hp) as (cs & Hcs & Hd & Hlen).
  exists cs. split_and!; [done..|]. change (3 + String.length p) with (S (2 + String.length p)). cbn [GetDirs_loop].
  rewrite (proj2 (String.eqb_neq _ _) Hne), Hd.
  apply (GetDirs_loop_normal cs Hcs _ [p]). lia.
Qed.

Lemma GetDirs_normal cs : Forall normal cs → GetDirsForVirtualPath (abs_path cs) = Some (ancestors cs).
Proof.
  intros Hcs. unfold GetDirsForVirtualPath. rewrite is_abs_abs_path.
  replace ((abs_path cs =s "") || (abs_path cs =s ".")) with false by done. cbn [negb].
  apply (GetDirs_loop_normal cs Hcs _ []). pose proof (length_join_slash cs Hcs). simpl. lia.
Qed.

(** ** IsDirOverlapped *)

Lemma has_prefix_sep cs ds : cs ≠ [] → Forall normal cs → Forall normal ds →
  has_prefix (abs_path ds) (abs_path cs +:+ "/") = true ↔ ∃ k, k ≠ [] ∧ ds = cs ++ k.
Proof.
  intros Hne Hcs Hds. rewrite has_prefix_spec. split.
  - intros [t Ht]. rewrite <-append_assoc in Ht. change ("/" +:+ t) with (String slash t) in Ht.
    apply (f_equal split_slash) in Ht. rewrite split_slash_app_gen, (split_abs_path cs) in Ht by done.
    exists (split_slash t). split; [apply split_slash_nonempty|].
    destruct ds as [|d ds].
    + destruct cs as [|c cs]; [done|]. injection Ht as _ Ht. symmetry in Ht.
      apply app_eq_nil in Ht as [_ Ht]. by destruct (split_slash_nonempty t).
    + rewrite split_abs_path in Ht by done. by injection Ht.
  - intros (k & Hk & ->). exists (join_slash k). unfold abs_path.
    rewrite join_slash_app by done. by rewrite <-append_assoc.
Qed.

(** ** Properties *)

(** C40: [GetDirsForVirtualPath] terminates on every input, and what it returns
    starts with the path it was given (made absolute), ends with the root and
    is, after the first element, the chain of all the ancestors of a clean
    path. *)
Theorem GetDirs_total p : ∃ q l,
  GetDirsForVirtualPath p = Some (q :: l) ∧ is_abs q = true ∧ (is_abs p = true → q = p) ∧
  List.last (q :: l) "" = "/" ∧
  (q = "/" ∧ l = [] ∨ ∃ cs, Forall normal cs ∧ path_Dir q = abs_path cs ∧ l = ancestors cs).
Proof.
  assert (∀ cs, List.last (ancestors cs) "" = "/") as Hlast.
  { intros cs. unfold ancestors. rewrite <-cons_seq, reverse_cons, fmap_app. simpl. apply last_last. }
  assert (∀ q, is_abs q = true → (is_abs p = true → q = p) →
    GetDirsForVirtualPath p = GetDirs_loop (3 + String.length q) q [q] → ∃ q l,
    GetDirsForVirtualPath p = Some (q :: l) ∧ is_abs q = true ∧ (is_abs p = true → q = p) ∧
    List.last (q :: l) "" = "/" ∧
    (q = "/" ∧ l = [] ∨ ∃ cs, Forall normal cs ∧ path_Dir q = abs_path cs ∧ l = ancestors cs)) as Hgo.
  { intros q Hq Hpq ->. exists q. destruct (decide (q = "/")) as [->|Hne].
    - exists []. by split_and!; [..|left].
    - destruct (GetDirs_loop_abs q Hq Hne) as (cs & Hcs & Hd & ->). exists (ancestors cs).
      split_and!; [done..| |right; by exists cs].
      rewrite <-(Hlast cs). unfold ancestors. by rewrite <-cons_seq, reverse_cons, fmap_app; destruct (_ <$> _). }
  unfold GetDirsForVirtualPath in *.
  destruct (String.eqb_spec p "") as [->|H1]; [by apply (Hgo "/")|].
  destruct (String.eqb_spec p ".") as [->|H2]; [by apply (Hgo "/")|]. simpl orb in *. cbv iota in *.
  destruct (is_abs p) eqn:Hp; simpl negb in *; cbv iota in *; [by apply (Hgo p)|].
  apply (Hgo (CleanPath p)); [|done..].
  destruct (CleanPath_canonical p) as (cs & _ & ->). apply is_abs_abs_path.
Qed.

(** On a clean absolute path [GetDirsForVirtualPath] is the list of all
    its ancestors, the path itself first and the root last. *)
Theorem GetDirs_ancestors cs (Hcs : Forall normal cs) :
  ∃ l, GetDirsForVirtualPath (abs_path cs) = Some l ∧
    ∀ d, d ∈ l ↔ ∃ k, k ≤ length cs ∧ d = abs_path (take k cs).
Proof.
  exists (ancestors cs). split; [by apply GetDirs_normal|]. intros d. apply elem_of_ancestors.
Qed.

Lemma GetDirs_ancestors_witness :
  Forall normal ["a"; "b"] ∧
  ∃ l, GetDirsForVirtualPath (abs_path ["a"; "b"]) = Some l ∧
    ∀ d, d ∈ l ↔ ∃ k, k ≤ length ["a"; "b"] ∧ d = abs_path (take k ["a"; "b"]).
Proof.
  assert (Forall normal ["a"; "b"]) as H by (repeat constructor; done).
  split; [exact H|exact (GetDirs_ancestors ["a"; "b"] H)].
Defined.

(** Joining a clean path to a clean root directory. *)
Lemma path_Join2_abs_path root cs : Forall normal root → Forall normal cs →
  path_Join2 (abs_path root) (abs_path cs) = abs_path (root ++ cs).
Proof.
  intros Hroot Hcs. unfold path_Join2. simpl String.eqb. cbv iota.
  apply path_Clean_rooted; [done|].
  rewrite <-(clean_comps_normal true (root ++ cs)) by (by apply Forall_app).
  unfold clean_comps. f_equal.
  (* the text is "/" root "/" "/" cs *)
  assert (split_slash (abs_path root +:+ String slash (abs_path cs))
    = "" :: split_slash (join_slash root) ++ "" :: split_slash (join_slash cs)) as ->.
  { unfold abs_path. rewrite append_cons. simpl. f_equal. apply (split_slash_app_gen (join_slash root)). }
  assert (∀ l st, Forall normal l →
    foldl (clean_step true) st (split_slash (join_slash l)) = reverse l ++ st) as Hf.
  { intros l st Hl. destruct l as [|c l]; [done|].
    rewrite split_join by (done || by apply normal_no_slash). by apply foldl_clean_normal. }
  simpl foldl at 1. change (clean_step true [] "") with (@nil string). rewrite foldl_app, Hf by done. simpl.
  change (clean_step true (reverse root ++ []) "") with (reverse root ++ []).
  rewrite Hf by done. rewrite foldl_clean_normal by (by apply Forall_app).
  by rewrite reverse_app, !app_nil_r.
Qed.

(** Whatever the client sends, [CleanPath] yields a clean absolute path: a
    slash and components that are neither empty nor dots nor contain a slash,
    so no [..] survives; it is idempotent, it is the identity on clean paths,
    and joining it to a clean root directory stays below that directory. *)
Theorem CleanPath_confined p : ∃ cs,
  Forall normal cs ∧ CleanPath p = abs_path cs ∧ CleanPath (CleanPath p) = CleanPath p ∧
  ∀ root, Forall normal root → path_Join2 (abs_path root) (CleanPath p) = abs_path (root ++ cs).
Proof.
  destruct (CleanPath_canonical p) as (cs & Hcs & Heq). exists cs. split_and!; [done..|apply CleanPath_idemp|].
  intros root Hroot. rewrite Heq. by apply path_Join2_abs_path.
Qed.

Lemma IsDirOverlapped_spec cs ds (Hcs : Forall normal cs) (Hds : Forall normal ds)
    (Hcne : cs ≠ []) (Hdne : ds ≠ []) :
  IsDirOverlapped (abs_path cs) (abs_path ds) true "/" = true ↔
  cs `prefix_of` ds ∨ ds `prefix_of` cs.
Proof.
  assert (∀ xs ys, xs ≠ [] → Forall normal xs → Forall normal ys → xs ≠ ys →
    Nat.ltb (String.length (abs_path xs)) (String.length (abs_path ys))
      && has_prefix (abs_path ys) (abs_path xs +:+ "/") = true ↔ xs `prefix_of` ys) as Hone.
  { intros xs ys Hne Hx Hy Hxy. rewrite andb_true_iff, (has_prefix_sep xs ys) by done. split.
    - intros [_ (k & _ & ->)]. by exists k.
    - intros [k ->]. destruct k as [|k0 k]; [by rewrite app_nil_r in Hxy|].
      split; [|by exists (k0 :: k)]. apply Nat.ltb_lt. unfold abs_path.
      rewrite join_slash_app by done. simpl. rewrite length_append. simpl. lia. }
  unfold IsDirOverlapped. destruct (String.eqb_spec (abs_path cs) (abs_path ds)) as [He|Hne].
  { apply abs_path_inj in He as ->; [|done..]. split; [by left|done]. }
  assert (cs ≠ ds) as Hcd by (by intros ->).
  rewrite <-(Hone cs ds), <-(Hone ds cs) by done.
  destruct (_ && _); [tauto|]. destruct (_ && _); simpl; [tauto|]. intuition discriminate.
Qed.

(** [IsDirOverlapped] with the full check decides, on clean paths other
    than the root, whether one directory is the other or an ancestor of it;
    a common prefix inside a component does not count. *)
Theorem IsDirOverlapped_iff cs ds (Hcs : Forall normal cs) (Hds : Forall normal ds)
    (Hcne : cs ≠ []) (Hdne : ds ≠ []) :
  IsDirOverlapped (abs_path cs) (abs_path ds) true "/" = true ↔
  cs `prefix_of` ds ∨ ds `prefix_of` cs.
Proof. by apply IsDirOverlapped_spec. Qed.

Lemma IsDirOverlapped_iff_witness :
  (IsDirOverlapped "/a/b" "/a/bc" true "/" = true ↔ ["a"; "b"] `prefix_of` ["a"; "bc"] ∨ ["a"; "bc"] `prefix_of` ["a"; "b"]).
Proof. apply (IsDirOverlapped_iff ["a"; "b"] ["a"; "bc"]); repeat constructor; done. Defined.

(** [RemoveDuplicates] returns the first occurrence of every (trimmed)
    element, in order: it has no duplicates and the same elements. *)
Theorem RemoveDuplicates_correct obj trim :
  RemoveDuplicates obj trim = dedup ∅ (item_of trim <$> obj) ∧
  NoDup (RemoveDuplicates obj trim) ∧
  ∀ x, x ∈ RemoveDuplicates obj trim ↔ ∃ y, y ∈ obj ∧ x = item_of trim y.
Proof.
  rewrite RemoveDuplicates_eq. split_and!; [done|apply NoDup_dedup|].
  intros x. rewrite elem_of_dedup, list_elem_of_fmap. set_solver.
Qed.

(** The slice [RemoveDuplicates] returns shares the caller's array, whose
    elements are overwritten: it is not a new slice. *)
Theorem RemoveDuplicates_rewrites_argument :
  ∃ obj, (RemoveDuplicates_mut obj false).2 ≠ obj.
Proof. exists ["a"; "a"; "b"]. vm_compute. congruence. Qed.
