(* ===== verification/Net.v ===== *)
(** The parts of Go's [net] and [net/netip] the program uses: addresses,
    networks and host:port pairs, with the functions of internal/util/util.go
    built on them.  An address is its bytes, 4 or 16 of them. *)
From stdpp Require Import strings list.
From Stdlib Require Import Ascii.
From S2P Require Import Prelude GoPath Util.
Open Scope Z_scope.

(** * Characters *)

Definition char (s : string) : ascii := match s with String c _ => c | _ => "000"%char end.
Definition code (c : ascii) : Z := Z.of_nat (nat_of_ascii c).

Definition digit (c : ascii) : option Z :=
  let n := code c in if (48 <=? n) && (n <=? 57) then Some (n - 48) else None.
Definition hexdigit (c : ascii) : option Z :=
  let n := code c in
  if (48 <=? n) && (n <=? 57) then Some (n - 48)
  else if (97 <=? n) && (n <=? 102) then Some (n - 97 + 10)
  else if (65 <=? n) && (n <=? 70) then Some (n - 65 + 10) else None.

(** the text before and after the first [c] *)
Fixpoint cut_at (c : ascii) (s : string) : option (string * string) :=
  match s with
  | EmptyString => None
  | String d s' =>
      if Ascii.eqb c d then Some ("", s')
      else match cut_at c s' with Some (a, b) => Some (String d a, b) | None => None end
  end.

(** * netip.ParseAddr *)

(** An IPv6 address has a zone, empty most of the time. *)
Inductive addr := V4 (b : list Z) | V6 (b : list Z) (zone : string).

(** an octet: one to three digits, no leading zero, at most 255 *)
Fixpoint octet_value (s : string) (acc : Z) : option Z :=
  match s with
  | EmptyString => Some acc
  | String c s' =>
      match digit c with
      | Some d => let v := acc * 10 + d in if 255 <? v then None else octet_value s' v
      | None => None
      end
  end.
Definition octet (s : string) : option Z :=
  match s with
  | EmptyString => None
  | String c s' => if (code c =? 48) && negb (s' =s "") then None else octet_value s 0
  end.
Definition parse_ipv4 (s : string) : option (list Z) :=
  match mapM octet (split_on "."%char s) with
  | Some [a; b; c; d] => Some [a; b; c; d]
  | _ => None
  end.

(** up to four hexadecimal digits: their value and what follows *)
Fixpoint hex_field (n : nat) (acc : Z) (s : string) {struct s} : option (Z * string) :=
  match s with
  | EmptyString => Some (acc, s)
  | String c s' =>
      match hexdigit c with
      | None => Some (acc, s)
      | Some d => match n with O => None | S n' => hex_field n' (acc * 16 + d) s' end
      end
  end.

(** The loop of [parseIPv6] over the fields: [ip] holds the bytes so far,
    [ellipsis] the position of the [::]. *)
Fixpoint ipv6_fields (fuel : nat) (ip : list Z) (ellipsis : option nat) (s : string)
    : option (list Z * option nat * string) :=
  match fuel with
  | O => Some (ip, ellipsis, s)
  | S fuel' =>
      match hex_field 4 0 s with
      | None => None
      | Some (acc, rest) =>
          if rest =s s then None (* each field must have at least one digit *)
          else if Ascii.eqb (char rest) "."%char then
            if negb (bool_decide (is_Some ellipsis)) && negb (bool_decide (length ip = 12%nat)) then None
            else if bool_decide (16 < length ip + 4)%nat then None
            else match parse_ipv4 s with Some b => Some (ip ++ b, ellipsis, "") | None => None end
          else
            let ip := ip ++ [Z.shiftr acc 8; Z.land acc 255] in
            match rest with
            | EmptyString => Some (ip, ellipsis, "")
            | String c s' =>
                if negb (Ascii.eqb c ":"%char) then None
                else match s' with
                     | EmptyString => None (* colon must be followed by more characters *)
                     | String c' s'' =>
                         if Ascii.eqb c' ":"%char then
                           match ellipsis with
                           | Some _ => None (* multiple :: in address *)
                           | None =>
                               if s'' =s "" then Some (ip, Some (length ip), "")
                               else ipv6_fields fuel' ip (Some (length ip)) s''
                           end
                         else ipv6_fields fuel' ip ellipsis s'
                     end
            end
      end
  end.

Definition parse_ipv6 (s0 : string) : option addr :=
  match (match cut_at "%"%char s0 with
         | Some (s, zone) => if zone =s "" then None else Some (s, zone)
         | None => Some (s0, "")
         end) with
  | None => None
  | Some (s, zone) =>
      let '(ellipsis, s) := if has_prefix s "::" then (Some 0%nat, String.substring 2 (String.length s - 2) s) else (None, s) in
      if bool_decide (is_Some ellipsis) && (s =s "") then Some (V6 (replicate 16 0) zone)
      else match ipv6_fields 8 [] ellipsis s with
           | Some (ip, ellipsis, "") =>
               if bool_decide (length ip < 16)%nat then
                 match ellipsis with
                 | None => None (* address string too short *)
                 | Some e => Some (V6 (take e ip ++ replicate (16 - length ip) 0 ++ drop e ip) zone)
                 end
               else match ellipsis with None => Some (V6 ip zone) | Some _ => None end
           | _ => None
           end
  end.

(** the first of [.], [:] and [%] decides *)
Fixpoint ParseAddr_from (s whole : string) : option addr :=
  match s with
  | EmptyString => None
  | String c s' =>
      if Ascii.eqb c "."%char then V4 <$> parse_ipv4 whole
      else if Ascii.eqb c ":"%char then parse_ipv6 whole
      else if Ascii.eqb c "%"%char then None
      else ParseAddr_from s' whole
  end.
Definition ParseAddr (s : string) : option addr := ParseAddr_from s s.

(** * The addresses it accepts *)

Definition is_byte (b : Z) : Prop := 0 <= b < 256.
Definition addr_bytes (a : addr) : list Z := match a with V4 b => b | V6 b _ => b end.
Definition addr_ok (a : addr) : Prop :=
  Forall is_byte (addr_bytes a) ∧ length (addr_bytes a) = match a with V4 _ => 4%nat | V6 _ _ => 16%nat end.

Lemma between lo hi n : (lo <=? n) && (n <=? hi) = true → lo <= n <= hi.
Proof. intros [H1 H2]%andb_true_iff. split; by apply Z.leb_le. Qed.
Lemma Some_between (v d lo hi : Z) : Some v = Some d → lo <= v < hi → lo <= d < hi.
Proof. congruence. Qed.

Lemma digit_range c d : digit c = Some d → 0 <= d < 10.
Proof.
  unfold digit. destruct ((48 <=? code c) && _) eqn:H; [|discriminate]. apply between in H.
  intros E. apply (Some_between _ _ _ _ E). clear E. lia.
Qed.
Lemma hexdigit_range c d : hexdigit c = Some d → 0 <= d < 16.
Proof.
  unfold hexdigit. destruct ((48 <=? code c) && _) eqn:H1; [|destruct ((97 <=? code c) && _) eqn:H2; [|destruct ((65 <=? code c) && _) eqn:H3]];
    intros E; try discriminate E; apply (Some_between _ _ _ _ E); clear E.
  - apply between in H1. lia.
  - clear H1. apply between in H2. lia.
  - clear H1 H2. apply between in H3. lia.
Qed.

Lemma octet_value_range s : ∀ acc v, is_byte acc → octet_value s acc = Some v → is_byte v.
Proof.
  unfold is_byte. induction s as [|c s IH]; intros acc v Ha; simpl; [congruence|].
  destruct (digit c) as [d|] eqn:Hd; [|done]. apply digit_range in Hd.
  destruct (Z.ltb_spec 255 (acc * 10 + d)); [done|]. apply IH. lia.
Qed.
Lemma octet_range s v : octet s = Some v → is_byte v.
Proof.
  unfold octet. destruct s; [done|]. destruct (_ && _); [done|]. apply octet_value_range. unfold is_byte. lia.
Qed.

Lemma parse_ipv4_range s b : parse_ipv4 s = Some b → Forall is_byte b ∧ length b = 4%nat.
Proof.
  unfold parse_ipv4. destruct (mapM octet _) as [l|] eqn:H; [|done].
  apply mapM_Some in H. assert (Forall is_byte l) as HF.
  { induction H as [|x y ?? Hxy]; constructor; [by eapply octet_range|done]. }
  intros E. repeat (destruct l; try done). by injection E as <-.
Qed.

Lemma hex_field_range s : ∀ n acc v rest, 0 <= acc → hex_field n acc s = Some (v, rest) →
  0 <= v < (acc + 1) * 16 ^ Z.of_nat n.
Proof.
  induction s as [|c s IH]; intros n acc v rest Ha; simpl.
  { intros [= <- _]. pose proof (Z.pow_pos_nonneg 16 (Z.of_nat n)). nia. }
  destruct (hexdigit c) as [d|] eqn:Hd.
  - apply hexdigit_range in Hd. destruct n as [|n]; [done|]. intros H%IH; [|lia].
    rewrite Nat2Z.inj_succ, Z.pow_succ_r by lia. pose proof (Z.pow_pos_nonneg 16 (Z.of_nat n)). nia.
  - intros [= <- _]. pose proof (Z.pow_pos_nonneg 16 (Z.of_nat n)). nia.
Qed.

Lemma two_bytes v : 0 <= v < 65536 → Forall is_byte [Z.shiftr v 8; Z.land v 255].
Proof.
  intros H. rewrite Z.shiftr_div_pow2 by lia. change 255 with (Z.ones 8). rewrite Z.land_ones by lia.
  change (2 ^ 8) with 256. unfold is_byte.
  pose proof (Z.mod_pos_bound v 256 eq_refl). apply Forall_cons; split; [|apply Forall_singleton; lia].
  split; [apply Z.div_pos; lia|apply Z.div_lt_upper_bound; lia].
Qed.

(** The bytes so far and the fields to come fit in 16 bytes. *)
Lemma ipv6_fields_ok fuel : ∀ ip e s ip' e' rest,
  ipv6_fields fuel ip e s = Some (ip', e', rest) → Forall is_byte ip → (length ip + 2 * fuel <= 16)%nat →
  from_option (fun n => n <= length ip)%nat True e →
  Forall is_byte ip' ∧ (length ip' <= 16)%nat ∧ from_option (fun n => n <= length ip')%nat True e'.
Proof.
  induction fuel as [|fuel IH]; intros ip e s ip' e' rest H Hb Hl He; simpl in H.
  { injection H as <- <- <-. split_and!; [done|lia|done]. }
  destruct (hex_field 4 0 s) as [[acc r]|] eqn:Hx; [|done]. apply hex_field_range in Hx; [|lia].
  destruct (r =s s); [done|]. destruct (Ascii.eqb (char r) ".").
  - destruct (_ && _); [done|]. case_bool_decide; [done|]. destruct (parse_ipv4 s) as [b|] eqn:Hp; [|done].
    apply parse_ipv4_range in Hp as [Hb4 Hl4]. injection H as <- <- <-. rewrite length_app.
    split_and!; [by apply Forall_app|lia|]. destruct e; simpl in *; [lia|done].
  - assert (Forall is_byte (ip ++ [Z.shiftr acc 8; Z.land acc 255])) as Hb'.
    { apply Forall_app. split; [done|]. apply two_bytes. simpl in Hx. lia. }
    set (ip1 := ip ++ _) in *. assert (length ip1 = (length ip + 2)%nat) as Hl1 by (unfold ip1; by rewrite length_app).
    assert (from_option (fun n => n <= length ip1)%nat True e) as He1 by (destruct e; simpl in *; [lia|done]).
    destruct r as [|c s']; [injection H as <- <- <-; split_and!; [done|lia|done]|].
    destruct (negb _); [done|]. destruct s' as [|c' s'']; [done|]. destruct (Ascii.eqb c' ":").
    + destruct e; [done|]. destruct (s'' =s ""); [injection H as <- <- <-; split_and!; simpl; [done|lia..]|].
      apply IH in H; [done|done|lia|simpl; lia].
    + apply IH in H; [done|done|lia|done].
Qed.

Lemma zero_bytes n : Forall is_byte (replicate n 0).
Proof. apply Forall_replicate. unfold is_byte. lia. Qed.

Lemma parse_ipv6_ok s a : parse_ipv6 s = Some a → addr_ok a.
Proof.
  unfold parse_ipv6, addr_ok. intros H. destruct (match cut_at _ _ with Some _ => _ | None => _ end) as [[s1 zone]|]; [|done].
  destruct (if has_prefix s1 "::" then _ else _) as [e s2] eqn:Hs.
  assert (from_option (fun n => n <= 0)%nat True e) as He by (destruct (has_prefix s1 "::"); injection Hs as <- _; simpl; auto).
  destruct (_ && _); [injection H as <-; cbn [addr_bytes]; split; [apply (zero_bytes 16)|done]|].
  destruct (ipv6_fields 8 [] e s2) as [[[ip e'] [|]]|] eqn:Hf; [|done..].
  apply ipv6_fields_ok in Hf as (Hb & Hl & He'); [|done|simpl; lia|done].
  case_bool_decide.
  - destruct e' as [n|]; [|done]. injection H as <-. simpl in *. split.
    + rewrite !Forall_app. split_and!; [by apply Forall_take|apply zero_bytes|by apply Forall_drop].
    + rewrite !length_app, length_take, length_replicate, length_drop. lia.
  - destruct e'; [done|]. injection H as <-. simpl. split; [done|]. lia.
Qed.

(** What [ParseAddr] accepts is an address: 4 or 16 bytes. *)
Lemma ParseAddr_addr_ok s a : ParseAddr s = Some a → addr_ok a.
Proof.
  unfold ParseAddr. generalize s at 1. intros p. induction p as [|c p IH]; simpl; [done|].
  destruct (Ascii.eqb c "."); [|destruct (Ascii.eqb c ":"); [by apply parse_ipv6_ok|by destruct (Ascii.eqb c "%")]].
  destruct (parse_ipv4 s) as [b|] eqn:H; [|done]. intros [= <-]. by apply parse_ipv4_range in H.
Qed.

Definition v4InV6Prefix : list Z := [0; 0; 0; 0; 0; 0; 0; 0; 0; 0; 255; 255].
Definition Is4In6 (a : addr) : bool :=
  match a with V4 _ => false | V6 b _ => bool_decide (take 12 b = v4InV6Prefix) end.
Definition As16 (a : addr) : list Z := match a with V4 b => v4InV6Prefix ++ b | V6 b _ => b end.
Definition BitLen (a : addr) : Z := match a with V4 _ => 32 | V6 _ _ => 128 end.

(** * net.IP and net.IPNet *)

(** [net.ParseIP]: 16 bytes; a zone is refused. *)
Definition ParseIP (s : string) : option (list Z) :=
  match ParseAddr s with
  | Some (V4 b) => Some (v4InV6Prefix ++ b)
  | Some (V6 b zone) => if zone =s "" then Some b else None
  | None => None
  end.

(** [ip.To4] *)
Definition To4 (ip : list Z) : option (list Z) :=
  if bool_decide (length ip = 4%nat) then Some ip
  else if bool_decide (length ip = 16%nat ∧ take 12 ip = v4InV6Prefix) then Some (drop 12 ip)
  else None.

Record IPNet := mk_ipnet { IPNet_IP : list Z; IPNet_Mask : list Z }.

(** [net.CIDRMask(ones, 8 * n)] *)
Definition CIDRMask (ones : Z) (n : nat) : list Z :=
  (fun i => let k := ones - 8 * Z.of_nat i in
            if 8 <=? k then 255 else if k <=? 0 then 0 else 255 - (2 ^ (8 - k) - 1)) <$> seq 0 n.
Definition mask_bytes (ip mask : list Z) : list Z := zip_with Z.land ip mask.

(** [ip.Mask(m)] for a mask of the length of the address or of an IPv4 one *)
Definition IP_Mask (ip m : list Z) : list Z :=
  let ip := if bool_decide (length m = 4%nat ∧ length ip = 16%nat ∧ take 12 ip = v4InV6Prefix) then drop 12 ip else ip in
  mask_bytes ip m.

(** [dtoi] on a whole string: a decimal number below 0xFFFFFF *)
Fixpoint dtoi_from (s : string) (acc : Z) : option Z :=
  match s with
  | EmptyString => Some acc
  | String c s' =>
      match digit c with
      | Some d => let v := acc * 10 + d in if 16777215 <=? v then None else dtoi_from s' v
      | None => None
      end
  end.
Definition dtoi (s : string) : option Z := if s =s "" then None else dtoi_from s 0.

Definition ParseCIDR (s : string) : option (list Z * IPNet) :=
  match cut_at "/"%char s with
  | None => None
  | Some (address, mask) =>
      match ParseAddr address with
      | None => None
      | Some a =>
          if (match a with V6 _ zone => negb (zone =s "") | V4 _ => false end) then None
          else match dtoi mask with
               | None => None
               | Some n =>
                   if BitLen a <? n then None
                   else let m := CIDRMask n (Z.to_nat (BitLen a / 8)) in
                        Some (As16 a, mk_ipnet (IP_Mask (As16 a) m) m)
               end
      end
  end.

Definition IPNet_Contains (n : IPNet) (ip : list Z) : bool :=
  let nn := default (IPNet_IP n) (To4 (IPNet_IP n)) in
  let m := if bool_decide (length nn = 4%nat ∧ length (IPNet_Mask n) = 16%nat)
           then drop 12 (IPNet_Mask n) else IPNet_Mask n in
  let x := default ip (To4 ip) in
  bool_decide (length x = length nn) && bool_decide (length nn = length m) &&
  bool_decide (mask_bytes nn m = mask_bytes x m).

(** [ip.Equal]: the same address in either form *)
Definition IP_Equal (ip x : list Z) : bool :=
  if bool_decide (length ip = length x) then bool_decide (ip = x)
  else if bool_decide (length ip = 4%nat ∧ length x = 16%nat) then bool_decide (x = v4InV6Prefix ++ ip)
  else if bool_decide (length ip = 16%nat ∧ length x = 4%nat) then bool_decide (ip = v4InV6Prefix ++ x)
  else false.

(** * net.SplitHostPort *)

Fixpoint last_index_of (c : ascii) (s : string) : option nat :=
  match s with
  | EmptyString => None
  | String d s' =>
      match last_index_of c s' with
      | Some i => Some (S i)
      | None => if Ascii.eqb c d then Some 0%nat else None
      end
  end.
Fixpoint index_of (c : ascii) (s : string) : option nat :=
  match s with
  | EmptyString => None
  | String d s' => if Ascii.eqb c d then Some 0%nat else S <$> index_of c s'
  end.
Definition str_drop (n : nat) (s : string) : string := String.substring n (String.length s - n) s.
Definition str_take (n : nat) (s : string) : string := String.substring 0 n s.

Definition SplitHostPort (hostport : string) : option (string * string) :=
  match last_index_of ":"%char hostport with
  | None => None
  | Some i =>
      let checked host j k :=
        if bool_decide (is_Some (index_of "["%char (str_drop j hostport))) then None
        else if bool_decide (is_Some (index_of "]"%char (str_drop k hostport))) then None
        else Some (host, str_drop (i + 1) hostport) in
      if Ascii.eqb (char hostport) "["%char then
        match index_of "]"%char hostport with
        | None => None
        | Some e =>
            if bool_decide (e + 1 = i)%nat
            then checked (String.substring 1 (e - 1) hostport) 1%nat (e + 1)%nat else None
        end
      else
        let host := str_take i hostport in
        if bool_decide (is_Some (index_of ":"%char host)) then None else checked host 0%nat 0%nat
  end.

(** * internal/util/util.go *)

(* source: internal/util/util.go GetIPFromRemoteAddress *)
Definition GetIPFromRemoteAddress (remoteAddress : string) : string :=
  match SplitHostPort remoteAddress with Some (ip, _) => ip | None => remoteAddress end.

(** Each entry is a network or an address; the result decides membership. *)
(* source: internal/util/util.go ParseAllowedIPAndRanges *)
Fixpoint ParseAllowedIPAndRanges (allowed : list string) : res (list (list Z → bool)) :=
  match allowed with
  | [] => Ok []
  | allowFrom :: rest =>
      if bool_decide (0 < default 0 (last_index_of "/"%char allowFrom))%nat then
        match ParseCIDR allowFrom with
        | None => Err (PlainError "not a valid IP range")
        | Some (_, ipRange) => fs ← ParseAllowedIPAndRanges rest; Ok (IPNet_Contains ipRange :: fs)
        end
      else
        match ParseIP allowFrom with
        | None => Err (PlainError "not a valid IP address")
        | Some ip => fs ← ParseAllowedIPAndRanges rest; Ok (IP_Equal ip :: fs)
        end
  end.

(** A valid prefix is an address and a number of bits within its length. *)
(* source: internal/util/util.go GetLastIPForPrefix *)
Definition GetLastIPForPrefix (a : addr) (p_bits : Z) : addr :=
  let off := match a with V4 _ => 12 | V6 _ _ => 0 end in
  let set a16 b := alter (fun v => Z.lor v (Z.shiftl 1 (7 - b `mod` 8))) (Z.to_nat (off + b / 8)) a16 in
  let a16 := foldl set (As16 a) (seqZ p_bits (BitLen a - p_bits)) in
  match a with V4 _ => V4 (drop 12 a16) | V6 _ zone => V6 a16 "" end.

Example addr1 : ParseAddr "192.168.1.10" = Some (V4 [192; 168; 1; 10]). Proof. reflexivity. Qed.
Example addr2 : ParseAddr "192.168.01.10" = None. Proof. reflexivity. Qed.
Example addr3 : ParseAddr "fe80::1%eth0" = Some (V6 [254; 128; 0; 0; 0; 0; 0; 0; 0; 0; 0; 0; 0; 0; 0; 1] "eth0"). Proof. vm_compute. reflexivity. Qed.
Example addr4 : ParseAddr "::ffff:1.2.3.4" = Some (V6 (v4InV6Prefix ++ [1; 2; 3; 4]) ""). Proof. vm_compute. reflexivity. Qed.
Example addr5 : ParseAddr "1:2:3:4:5:6:7::8" = None. Proof. vm_compute. reflexivity. Qed.
Example addr6 : ParseAddr "1:2:3:4:5:6:7:8" = Some (V6 [0; 1; 0; 2; 0; 3; 0; 4; 0; 5; 0; 6; 0; 7; 0; 8] ""). Proof. vm_compute. reflexivity. Qed.
Example addr7 : ParseAddr "::" = Some (V6 (replicate 16 0) ""). Proof. vm_compute. reflexivity. Qed.
Example addr8 : ParseAddr "12345::" = None. Proof. vm_compute. reflexivity. Qed.
Definition cidr_contains (cidr ip : string) : option bool :=
  '(_, n) ← ParseCIDR cidr; x ← ParseIP ip; Some (IPNet_Contains n x).
Example cidr1 : cidr_contains "10.8.0.0/21" "10.8.7.255" = Some true. Proof. vm_compute. reflexivity. Qed.
Example cidr2 : cidr_contains "10.8.0.0/21" "10.8.8.0" = Some false. Proof. vm_compute. reflexivity. Qed.
Example cidr3 : cidr_contains "2001:db8::/33" "2001:db8:7fff::1" = Some true. Proof. vm_compute. reflexivity. Qed.
Example last1 : GetLastIPForPrefix (V4 [10; 8; 0; 0]) 21 = V4 [10; 8; 7; 255]. Proof. vm_compute. reflexivity. Qed.
Example hp1 : SplitHostPort "[::1]:22" = Some ("::1", "22"). Proof. vm_compute. reflexivity. Qed.
Example hp2 : SplitHostPort "::1:22" = None. Proof. vm_compute. reflexivity. Qed.
Example hp3 : GetIPFromRemoteAddress "127.0.0.1:5000" = "127.0.0.1". Proof. vm_compute. reflexivity. Qed.
