(* ===== verification/Prefix.v ===== *)
(** Prefixes: the part of Go's [netip.Prefix] the IP lists use, and the numbers
    behind addresses, masks and the last address of a prefix. *)
From stdpp Require Import pretty.
From Stdlib Require Import Ascii.
From S2P Require Import Prelude GoPath Util Net.
Open Scope Z_scope.

(** * netip.Prefix *)

(** [Addr.String] for an IPv4 address *)
Definition byte_string (b : Z) : string := pretty (Z.to_N b).
Definition addr_String4 (b : list Z) : string :=
  match byte_string <$> b with
  | [a; b; c; d] => a +:+ String "."%char (b +:+ String "."%char (c +:+ String "."%char d))
  | _ => ""
  end.

(** The bits: a number without a leading zero, at most the length of the
    address; an address with a zone is refused. *)
Definition ParsePrefix (s : string) : option (addr * Z) :=
  match last_index_of "/"%char s with
  | None => None
  | Some i =>
      match ParseAddr (str_take i s) with
      | None => None
      | Some a =>
          if (match a with V6 _ zone => negb (zone =s "") | V4 _ => false end) then None
          else
            let bits := str_drop (i + 1) s in
            if (1 <? String.length bits)%nat && negb ((49 <=? code (char bits)) && (code (char bits) <=? 57)) then None
            else match dtoi bits with
                 | Some n => if BitLen a <? n then None else Some (a, n)
                 | None => None
                 end
      end
  end.

(** [prefix.Masked().Addr()] *)
Definition Masked (a : addr) (bits : Z) : addr :=
  match a with
  | V4 b => V4 (mask_bytes b (CIDRMask bits 4))
  | V6 b _ => V6 (mask_bytes b (CIDRMask bits 16)) ""
  end.
(** [a.As4()] of an IPv4 address or an IPv4-mapped one *)
Definition As4 (a : addr) : list Z := match a with V4 b => b | V6 b _ => drop 12 b end.

(** * Numbers *)

(** The number an address stands for. *)
Definition be_value (b : list Z) : Z := foldl (fun acc x => acc * 256 + x) 0 b.

Lemma be_fold b : ∀ acc, foldl (fun acc x => acc * 256 + x) acc b = acc * 256 ^ Z.of_nat (length b) + be_value b.
Proof.
  unfold be_value. induction b as [|x b IH]; intros acc; cbn [foldl length]; [lia|].
  rewrite IH, (IH (0 * 256 + x)). rewrite Nat2Z.inj_succ, Z.pow_succ_r by lia. lia.
Qed.
Lemma be_cons x b : be_value (x :: b) = x * 256 ^ Z.of_nat (length b) + be_value b.
Proof. unfold be_value at 1. cbn [foldl]. rewrite be_fold. lia. Qed.
Lemma be_range b : Forall is_byte b → 0 <= be_value b < 256 ^ Z.of_nat (length b).
Proof.
  induction 1 as [|x b Hx _ IH]; [done|]. unfold is_byte in Hx. rewrite be_cons. cbn [length].
  rewrite Nat2Z.inj_succ, Z.pow_succ_r by lia. nia.
Qed.


Lemma be_app a b : be_value (a ++ b) = be_value a * 256 ^ Z.of_nat (length b) + be_value b.
Proof. unfold be_value at 1. rewrite foldl_app. apply be_fold. Qed.

Lemma be_inj a : ∀ b, Forall is_byte a → Forall is_byte b → length a = length b → be_value a = be_value b → a = b.
Proof.
  induction a as [|x a IH]; intros [|y b] Ha Hb Hl Hv; try done.
  apply Forall_cons in Ha as [Hx Ha]. apply Forall_cons in Hb as [Hy Hb]. injection Hl as Hl. unfold is_byte in *.
  rewrite !be_cons, Hl in Hv. pose proof (be_range a Ha) as R1. pose proof (be_range b Hb) as R2. rewrite Hl in R1.
  set (P := 256 ^ Z.of_nat (length b)) in *. assert (x = y) as -> by nia. f_equal. apply IH; [done|done|done|lia].
Qed.

(** ** Masks *)

(** A property of the bytes and of a bit number is checked on all of them. *)
Lemma all_bytes (P : Z → Z → bool) :
  forallb (fun x => forallb (P (Z.of_nat x)) (Z.of_nat <$> seq 0 8)) (seq 0 256) = true →
  ∀ x k, is_byte x → 0 <= k < 8 → P x k = true.
Proof.
  intros H x k Hx Hk. unfold is_byte in Hx. rewrite forallb_forall in H.
  specialize (H (Z.to_nat x)). rewrite in_seq, Z2Nat.id in H by lia. specialize (H ltac:(lia)).
  rewrite forallb_forall in H. apply H. apply list_elem_of_In, list_elem_of_fmap. exists (Z.to_nat k).
  rewrite Z2Nat.id by lia. split; [done|]. apply elem_of_seq. lia.
Qed.

Lemma mask_byte x k : is_byte x → 0 <= k < 8 → Z.land x (255 - (2 ^ k - 1)) = x / 2 ^ k * 2 ^ k.
Proof.
  intros Hx Hk. apply Z.eqb_eq.
  apply (all_bytes (fun x k => Z.land x (255 - (2 ^ k - 1)) =? x / 2 ^ k * 2 ^ k)); [by vm_compute|done|done].
Qed.
Lemma set_byte x k : is_byte x → 0 <= k < 8 → x mod 2 ^ (k + 1) = 0 →
  Z.lor x (Z.shiftl 1 k) = x + 2 ^ k ∧ is_byte (x + 2 ^ k).
Proof.
  intros Hx Hk Hm. assert ((x mod 2 ^ (k + 1) =? 0) = true) as Hm' by lia. clear Hm. revert Hx Hk.
  pose proof (all_bytes (fun x k => negb (x mod 2 ^ (k + 1) =? 0) || (Z.lor x (Z.shiftl 1 k) =? x + 2 ^ k) && (x + 2 ^ k <? 256))
    ltac:(by vm_compute) x k) as H.
  intros Hx Hk. specialize (H Hx Hk). cbv beta in H. rewrite Hm' in H. simpl in H.
  apply andb_true_iff in H as [H1%Z.eqb_eq H2%Z.ltb_lt]. split; [done|]. unfold is_byte in *.
  pose proof (Z.pow_nonneg 2 k). lia.
Qed.

Lemma CIDRMask_S p n : CIDRMask p (S n) =
  (if 8 <=? p then 255 else if p <=? 0 then 0 else 255 - (2 ^ (8 - p) - 1)) :: CIDRMask (p - 8) n.
Proof.
  unfold CIDRMask. rewrite <-cons_seq, fmap_cons. rewrite Z.mul_0_r, Z.sub_0_r. f_equal.
  rewrite <-fmap_S_seq, <-list_fmap_compose. apply list_fmap_ext. intros i j _. cbn [compose].
  replace (p - 8 * Z.of_nat (S j)) with (p - 8 - 8 * Z.of_nat j) by lia. done.
Qed.
Lemma CIDRMask_length p n : length (CIDRMask p n) = n.
Proof. unfold CIDRMask. by rewrite length_fmap, length_seq. Qed.
Lemma CIDRMask_low p n : p <= 0 → CIDRMask p n = replicate n 0.
Proof.
  revert p. induction n as [|n IH]; intros p Hp; [done|]. rewrite CIDRMask_S, IH by lia.
  replace (8 <=? p) with false by lia. by replace (p <=? 0) with true by lia.
Qed.

Lemma be_zeros n : be_value (replicate n 0) = 0.
Proof. induction n as [|n IH]; [done|]. cbn [replicate]. rewrite be_cons, IH. lia. Qed.

Lemma mask_zeros ip n : length ip = n → mask_bytes ip (replicate n 0) = replicate n 0.
Proof.
  revert n. induction ip as [|x ip IH]; intros [|n] Hl; try done. injection Hl as Hl. cbn.
  rewrite Z.land_0_r. f_equal. by apply IH.
Qed.

Lemma pow256 m : 256 ^ Z.of_nat m = 2 ^ (8 * Z.of_nat m).
Proof. rewrite Z.pow_mul_r by lia. done. Qed.

(** Masking clears the bits after the prefix. *)
Lemma mask_value ip : ∀ p, Forall is_byte ip → 0 <= p <= 8 * Z.of_nat (length ip) →
  let k := 8 * Z.of_nat (length ip) - p in
  be_value (mask_bytes ip (CIDRMask p (length ip))) = be_value ip / 2 ^ k * 2 ^ k.
Proof.
  induction ip as [|x ip IH]; intros p Hip Hp k.
  { subst k. cbn in *. replace (0 - p) with 0 by lia. done. }
  apply Forall_cons in Hip as [Hx Hip]. cbn [length] in *. rewrite Nat2Z.inj_succ in *.
  pose proof (be_range ip Hip) as Hr. rewrite pow256 in Hr. pose proof (Z.pow_pos_nonneg 2 (8 * Z.of_nat (length ip))) as Hpos.
  unfold is_byte in Hx. rewrite CIDRMask_S. unfold mask_bytes. cbn [zip_with]. fold (mask_bytes ip (CIDRMask (p - 8) (length ip))).
  rewrite !be_cons. unfold mask_bytes. rewrite length_zip_with, CIDRMask_length, Nat.min_id. fold (mask_bytes ip (CIDRMask (p - 8) (length ip))).
  rewrite !pow256. destruct (Z.leb_spec 8 p) as [H8|H8].
  - rewrite IH by (done || lia). replace (8 * Z.of_nat (length ip) - (p - 8)) with k by lia.
    replace (Z.land x 255) with x by (change 255 with (Z.ones 8); rewrite Z.land_ones, Z.mod_small; lia).
    assert (2 ^ (8 * Z.of_nat (length ip)) = 2 ^ (p - 8) * 2 ^ k) as -> by (rewrite <-Z.pow_add_r by lia; f_equal; lia).
    rewrite Z.mul_assoc, Z.div_add_l by (apply Z.pow_nonzero; lia). ring.
  - rewrite CIDRMask_low, mask_zeros, be_zeros by (done || lia).
    destruct (Z.leb_spec p 0) as [H0|H0].
    + rewrite Z.land_0_r. symmetry. rewrite Z.div_small; [lia|]. replace k with (8 + 8 * Z.of_nat (length ip)) by lia.
      rewrite Z.pow_add_r by lia. nia.
    + rewrite mask_byte by (done || lia). replace k with (8 * Z.of_nat (length ip) + (8 - p)) by lia.
      rewrite !Z.pow_add_r by lia. rewrite <-Z.div_div by lia. rewrite Z.div_add_l, (Z.div_small (be_value ip)) by lia.
      rewrite !Z.add_0_r. ring.
Qed.

(** ** The last address *)

(** [a16[off+b/8] |= 1 << (7 - b%8)] *)
Definition set_bit (a : list Z) (b : Z) : list Z :=
  alter (fun v => Z.lor v (Z.shiftl 1 (7 - b `mod` 8))) (Z.to_nat (b / 8)) a.

Lemma set_bit_value a : ∀ b, Forall is_byte a → 0 <= b < 8 * Z.of_nat (length a) →
  be_value a mod 2 ^ (8 * Z.of_nat (length a) - b) = 0 →
  be_value (set_bit a b) = be_value a + 2 ^ (8 * Z.of_nat (length a) - 1 - b) ∧ Forall is_byte (set_bit a b).
Proof.
  induction a as [|x a IH]; intros b Ha Hb Hm; [simpl in Hb; lia|].
  apply Forall_cons in Ha as [Hx Ha]. cbn [length] in *. rewrite Nat2Z.inj_succ in *.
  pose proof (be_range a Ha) as Hr. rewrite pow256 in Hr. rewrite be_cons, pow256 in Hm |- *.
  set (m := 8 * Z.of_nat (length a)) in *. pose proof (Z.pow_pos_nonneg 2 m ltac:(lia) ltac:(lia)) as Hpos.
  unfold set_bit. destruct (Z.ltb_spec b 8) as [H8|H8].
  - rewrite (Z.div_small b 8), (Z.mod_small b 8) by lia. change (Z.to_nat 0) with 0%nat. cbn [alter list_alter].
    replace (8 * Z.succ (Z.of_nat (length a)) - b) with (m + (8 - b)) in Hm by lia.
    rewrite Z.pow_add_r in Hm by lia. pose proof (Z.pow_pos_nonneg 2 (8 - b) ltac:(lia) ltac:(lia)) as Hj.
    rewrite Z.rem_mul_r in Hm by lia. rewrite Z.div_add_l, (Z.div_small (be_value a)), Z.add_0_r in Hm by lia.
    rewrite (Z.add_comm (x * 2 ^ m)), Z.mod_add, (Z.mod_small (be_value a)) in Hm by lia.
    pose proof (Z.mod_pos_bound x (2 ^ (8 - b)) Hj) as Hxm.
    assert (be_value a = 0 ∧ x mod 2 ^ (8 - b) = 0) as [Hz Hxz] by nia.
    destruct (set_byte x (7 - b)) as [-> Hbyte]; [done|lia|by replace (7 - b + 1) with (8 - b) by lia|].
    split; [|by constructor]. rewrite be_cons, pow256. fold m.
    replace (8 * Z.succ (Z.of_nat (length a)) - 1 - b) with (7 - b + m) by lia. rewrite Z.pow_add_r by lia. ring.
  - replace (Z.to_nat (b / 8)) with (S (Z.to_nat ((b - 8) / 8))).
    2:{ replace b with (b - 8 + 1 * 8) at 2 by lia. rewrite Z.div_add by lia.
        rewrite <-Z2Nat.inj_succ by (apply Z.div_pos; lia). f_equal. }
    replace (b `mod` 8) with ((b - 8) `mod` 8) by (replace b with (b - 8 + 1 * 8) at 2 by lia; by rewrite Z.mod_add by lia).
    destruct (IH (b - 8)) as [Hv Hb']; [done|unfold m in *; lia| |].
    { replace (m - (b - 8)) with (8 * Z.succ (Z.of_nat (length a)) - b) by lia.
      set (j := 8 * Z.succ (Z.of_nat (length a)) - b) in *.
      assert (2 ^ m = 2 ^ (m - j) * 2 ^ j) as Hsplit by (rewrite <-Z.pow_add_r by lia; f_equal; lia).
      rewrite Hsplit, Z.mul_assoc, Z.add_comm, Z.mod_add in Hm; [done|]. apply Z.pow_nonzero; lia. }
    cbn [alter list_alter]. fold (set_bit a (b - 8)). split; [|by constructor].
    assert (length (set_bit a (b - 8)) = length a) as Hl by (unfold set_bit; apply length_alter).
    rewrite be_cons, Hv, Hl, pow256. fold m. replace (m - 1 - (b - 8)) with (8 * Z.succ (Z.of_nat (length a)) - 1 - b) by lia. ring.
Qed.

Lemma length_set_bit a b : length (set_bit a b) = length a.
Proof. apply length_alter. Qed.

Lemma set_bits_value c : ∀ a, Forall is_byte a → (c <= 8 * length a)%nat → be_value a mod 2 ^ Z.of_nat c = 0 →
  let l := foldl set_bit a (seqZ (8 * Z.of_nat (length a) - Z.of_nat c) (Z.of_nat c)) in
  be_value l = be_value a + 2 ^ Z.of_nat c - 1 ∧ Forall is_byte l ∧ length l = length a.
Proof.
  induction c as [|c IH]; intros a Ha Hc Hm.
  { change (Z.of_nat 0) with 0. rewrite seqZ_nil by lia. cbn [foldl]. rewrite Z.pow_0_r. split_and!; [lia|done|done]. }
  rewrite seqZ_cons by lia. set (b := 8 * Z.of_nat (length a) - Z.of_nat (S c)). cbn [foldl].
  destruct (set_bit_value a b) as [Hv Hb]; [done|lia| |].
  { replace (8 * Z.of_nat (length a) - b) with (Z.of_nat (S c)) by lia. done. }
  replace (8 * Z.of_nat (length a) - 1 - b) with (Z.of_nat c) in Hv by lia.
  rewrite Nat2Z.inj_succ, Z.pow_succ_r in Hm |- * by lia. pose proof (Z.pow_pos_nonneg 2 (Z.of_nat c) ltac:(lia) ltac:(lia)).
  specialize (IH (set_bit a b) Hb). rewrite length_set_bit, Hv in IH.
  replace (8 * Z.of_nat (length a) - Z.of_nat c) with (Z.succ b) in IH by lia.
  replace (Z.pred (Z.succ (Z.of_nat c))) with (Z.of_nat c) by lia.
  destruct IH as (Hv' & Hb' & Hl'); [lia| |split_and!; [lia|done|done]].
  rewrite <-(Z.mul_1_l (2 ^ Z.of_nat c)) at 1. rewrite Z.mod_add by lia.
  apply Z.mod_divide; [lia|]. apply Z.mod_divide in Hm; [|lia]. etransitivity; [|exact Hm]. by exists 2.
Qed.

Lemma foldl_set_app (pre a : list Z) l : Forall (fun b => 0 <= b) l →
  foldl (fun a16 b => alter (fun v => Z.lor v (Z.shiftl 1 (7 - b `mod` 8))) (Z.to_nat (Z.of_nat (length pre) + b / 8)) a16)
    (pre ++ a) l = pre ++ foldl set_bit a l.
Proof.
  intros H. revert a. induction H as [|b l Hb _ IH]; intros a; [done|]. cbn [foldl]. rewrite <-IH. f_equal.
  rewrite Z2Nat.inj_add, Nat2Z.id by (lia || by apply Z.div_pos). by rewrite alter_app_r.
Qed.

Definition same_family (a b : addr) : Prop := match a, b with V4 _, V4 _ | V6 _ _, V6 _ _ => True | _, _ => False end.
Lemma addr_ok_length a : addr_ok a → BitLen a = 8 * Z.of_nat (length (addr_bytes a)).
Proof. intros [_ H]. destruct a; cbn in *; by rewrite H. Qed.

Lemma GetLastIPForPrefix_value a p : addr_ok a → 0 <= p <= BitLen a → be_value (addr_bytes a) mod 2 ^ (BitLen a - p) = 0 →
  let l := GetLastIPForPrefix a p in
  be_value (addr_bytes l) = be_value (addr_bytes a) + 2 ^ (BitLen a - p) - 1 ∧ addr_ok l ∧ same_family a l.
Proof.
  intros Hok Hp Hm. pose proof (addr_ok_length a Hok) as Hlen. destruct Hok as [Hb Hl].
  destruct (set_bits_value (Z.to_nat (BitLen a - p)) (addr_bytes a)) as (H1 & H2 & H3); [done|lia|by rewrite Z2Nat.id by lia|].
  rewrite Z2Nat.id in H1, H2, H3 by lia. rewrite <-Hlen in H1, H2, H3.
  replace (BitLen a - (BitLen a - p)) with p in H1, H2, H3 by lia.
  unfold GetLastIPForPrefix. destruct a as [b|b z]; cbn [As16 addr_bytes] in *.
  - change 12 with (Z.of_nat (length v4InV6Prefix)). rewrite foldl_set_app.
    2:{ apply Forall_forall. intros x Hx%elem_of_seqZ. lia. }
    rewrite drop_app_length' by done. exact (conj H1 (conj (conj H2 (eq_trans H3 Hl)) I)).
  - pose proof (foldl_set_app [] b (seqZ p (BitLen (V6 b z) - p))) as Hf. change (Z.of_nat (length [])) with 0 in Hf.
    rewrite !app_nil_l in Hf. rewrite Hf; [exact (conj H1 (conj (conj H2 (eq_trans H3 Hl)) I))|].
    apply Forall_forall. intros x Hx%elem_of_seqZ. lia.
Qed.

Lemma mask_is_byte ip m : Forall is_byte ip → Forall is_byte (mask_bytes ip m).
Proof.
  intros Hip. apply Forall_zip_with_fst with is_byte; [done|]. apply Forall_true. intros y x Hx. unfold is_byte in *.
  split; [apply Z.land_nonneg; lia|].
  assert (Z.land x y = Z.land x y `mod` 2 ^ 8) as ->; [|by apply Z.mod_pos_bound].
  rewrite <-Z.land_ones, <-Z.land_assoc, (Z.land_comm y), Z.land_assoc, Z.land_ones, Z.mod_small by lia. done.
Qed.

Lemma Masked_value a p : addr_ok a → 0 <= p <= BitLen a →
  be_value (addr_bytes (Masked a p)) = be_value (addr_bytes a) / 2 ^ (BitLen a - p) * 2 ^ (BitLen a - p) ∧
  addr_ok (Masked a p) ∧ same_family a (Masked a p).
Proof.
  intros Hok Hp. pose proof (addr_ok_length a Hok) as Hlen. destruct Hok as [Hb Hl].
  assert (be_value (mask_bytes (addr_bytes a) (CIDRMask p (length (addr_bytes a)))) =
    be_value (addr_bytes a) / 2 ^ (BitLen a - p) * 2 ^ (BitLen a - p)) as Hv.
  { rewrite Hlen. apply mask_value; [done|lia]. }
  assert (∀ n ip, length ip = n → Forall is_byte ip → Forall is_byte (mask_bytes ip (CIDRMask p n)) ∧
    length (mask_bytes ip (CIDRMask p n)) = n) as Hm.
  { intros n ip Hn Hip. split; [by apply mask_is_byte|]. unfold mask_bytes.
    by rewrite length_zip_with, CIDRMask_length, Hn, Nat.min_id. }
  destruct a as [b|b z]; cbn [addr_bytes] in *; rewrite Hl in Hv; destruct (Hm _ b Hl Hb) as [Hm1 Hm2].
  - exact (conj Hv (conj (conj Hm1 Hm2) I)).
  - exact (conj Hv (conj (conj Hm1 Hm2) I)).
Qed.

(** ** Printing and parsing *)

Definition plain_char (c : ascii) : bool :=
  negb (Ascii.eqb c "."%char) && negb (Ascii.eqb c ":"%char) && negb (Ascii.eqb c "%"%char) && negb (Ascii.eqb c "/"%char).
Fixpoint plain_word (s : string) : bool :=
  match s with EmptyString => true | String c s' => plain_char c && plain_word s' end.

Lemma byte_string_ok b : is_byte b → octet (byte_string b) = Some b ∧ plain_word (byte_string b) = true.
Proof.
  intros Hb.
  pose proof (all_bytes (fun x _ => bool_decide (octet (byte_string x) = Some x) && plain_word (byte_string x))
    ltac:(by vm_compute) b 0 Hb ltac:(lia)) as H. cbv beta in H.
  apply andb_true_iff in H as [H1%bool_decide_eq_true H2]. done.
Qed.

Lemma plain_head c : plain_char c = true → Ascii.eqb c "."%char = false ∧ Ascii.eqb c ":"%char = false ∧
  Ascii.eqb c "%"%char = false ∧ Ascii.eqb c "/"%char = false.
Proof. unfold plain_char. rewrite !andb_true_iff, !negb_true_iff. tauto. Qed.

Lemma split_on_word w s : plain_word w = true → split_on "."%char (w +:+ String "."%char s) = w :: split_on "."%char s.
Proof.
  induction w as [|c w IH]; [done|]. cbn [plain_word]. intros [Hc Hw]%andb_true_iff. rewrite append_cons.
  apply plain_head in Hc as [Hc _]. cbn [split_on]. by rewrite Hc, (IH Hw).
Qed.
Lemma split_on_last w : plain_word w = true → split_on "."%char w = [w].
Proof.
  induction w as [|c w IH]; [done|]. cbn [plain_word]. intros [Hc Hw]%andb_true_iff.
  apply plain_head in Hc as [Hc _]. cbn [split_on]. by rewrite Hc, (IH Hw).
Qed.
Lemma ParseAddr_from_word w s whole : plain_word w = true →
  ParseAddr_from (w +:+ String "."%char s) whole = V4 <$> parse_ipv4 whole.
Proof.
  induction w as [|c w IH]; [done|]. cbn [plain_word]. intros [Hc Hw]%andb_true_iff. rewrite append_cons.
  apply plain_head in Hc as (H1 & H2 & H3 & _). cbn [ParseAddr_from]. rewrite H1, H2, H3. by apply IH.
Qed.

(** An IPv4 address printed in dotted form parses back to itself. *)
Theorem ParseAddr_String4 b : Forall is_byte b → length b = 4%nat → ParseAddr (addr_String4 b) = Some (V4 b).
Proof.
  intros Hb Hl. destruct b as [|x1 [|x2 [|x3 [|x4 [|]]]]]; try done.
  rewrite !Forall_cons in Hb. destruct Hb as (B1 & B2 & B3 & B4 & _).
  apply byte_string_ok in B1 as [O1 P1], B2 as [O2 P2], B3 as [O3 P3], B4 as [O4 P4].
  unfold addr_String4, ParseAddr. cbn [fmap list_fmap].
  rewrite ParseAddr_from_word by done. unfold parse_ipv4.
  rewrite !split_on_word, split_on_last by done. cbn [mapM]. rewrite O1, O2, O3, O4. done.
Qed.
