(* ===== verification/FsConfig.v ===== *)
(** Filesystem configurations, secrets and virtual folders: the data of
    internal/vfs/filesystem.go, internal/vfs/folder.go and the *FsConfig
    structs of internal/vfs, with the functions the data provider applies to
    them when it copies, renders and validates an object.

    Pointers to secrets are [option Secret.t] ([None] is nil).  Slices have
    value semantics and a nil slice is the empty list. *)
From S2P Require Import Prelude.
Open Scope Z_scope.

Module Secret.
(* source: internal/kms/basesecret.go BaseSecret *)
Record t := mk {
  Status : string;
  Payload : string;
  Key : string;
  AdditionalData : string;
  Mode : Z;
}.
#[global] Instance eta : Settable t := {| settable := fun x =>
  mk (Status x) (Payload x) (Key x) (AdditionalData x) (Mode x) |}.
(* the zero value of the Go type *)
Definition zero : t :=
  mk "" "" "" "" 0.
End Secret.

Module OSFsConfig.
(* third-party sdk.OSFsConfig, the fields the code reads and copies *)
Record t := mk {
  ReadBufferSize : Z;
  WriteBufferSize : Z;
}.
#[global] Instance eta : Settable t := {| settable := fun x =>
  mk (ReadBufferSize x) (WriteBufferSize x) |}.
(* the zero value of the Go type *)
Definition zero : t :=
  mk 0 0.
End OSFsConfig.

Module S3FsConfig.
(* source: internal/vfs/vfs.go S3FsConfig *)
Record t := mk {
  Bucket : string;
  Region : string;
  AccessKey : string;
  RoleARN : string;
  Endpoint : string;
  StorageClass : string;
  ACL : string;
  KeyPrefix : string;
  UploadPartSize : Z;
  UploadConcurrency : Z;
  DownloadPartSize : Z;
  DownloadConcurrency : Z;
  DownloadPartMaxTime : Z;
  UploadPartMaxTime : Z;
  ForcePathStyle : bool;
  SkipTLSVerify : bool;
  AccessSecret : option Secret.t;
}.
#[global] Instance eta : Settable t := {| settable := fun x =>
  mk (Bucket x) (Region x) (AccessKey x) (RoleARN x) (Endpoint x) (StorageClass x) (ACL x) (KeyPrefix x) (UploadPartSize x) (UploadConcurrency x) (DownloadPartSize x) (DownloadConcurrency x) (DownloadPartMaxTime x) (UploadPartMaxTime x) (ForcePathStyle x) (SkipTLSVerify x) (AccessSecret x) |}.
(* the zero value of the Go type *)
Definition zero : t :=
  mk "" "" "" "" "" "" "" "" 0 0 0 0 0 0 false false None.
End S3FsConfig.

Module GCSFsConfig.
(* source: internal/vfs/vfs.go GCSFsConfig *)
Record t := mk {
  Bucket : string;
  AutomaticCredentials : Z;
  StorageClass : string;
  ACL : string;
  KeyPrefix : string;
  UploadPartSize : Z;
  UploadPartMaxTime : Z;
  Credentials : option Secret.t;
}.
#[global] Instance eta : Settable t := {| settable := fun x =>
  mk (Bucket x) (AutomaticCredentials x) (StorageClass x) (ACL x) (KeyPrefix x) (UploadPartSize x) (UploadPartMaxTime x) (Credentials x) |}.
(* the zero value of the Go type *)
Definition zero : t :=
  mk "" 0 "" "" "" 0 0 None.
End GCSFsConfig.

Module AzBlobFsConfig.
(* source: internal/vfs/vfs.go AzBlobFsConfig *)
Record t := mk {
  Container : string;
  AccountName : string;
  Endpoint : string;
  KeyPrefix : string;
  UploadPartSize : Z;
  UploadConcurrency : Z;
  DownloadPartSize : Z;
  DownloadConcurrency : Z;
  UseEmulator : bool;
  AccessTier : string;
  AccountKey : option Secret.t;
  SASURL : option Secret.t;
}.
#[global] Instance eta : Settable t := {| settable := fun x =>
  mk (Container x) (AccountName x) (Endpoint x) (KeyPrefix x) (UploadPartSize x) (UploadConcurrency x) (DownloadPartSize x) (DownloadConcurrency x) (UseEmulator x) (AccessTier x) (AccountKey x) (SASURL x) |}.
(* the zero value of the Go type *)
Definition zero : t :=
  mk "" "" "" "" 0 0 0 0 false "" None None.
End AzBlobFsConfig.

Module CryptFsConfig.
(* source: internal/vfs/vfs.go CryptFsConfig *)
Record t := mk {
  ReadBufferSize : Z;
  WriteBufferSize : Z;
  Passphrase : option Secret.t;
}.
#[global] Instance eta : Settable t := {| settable := fun x =>
  mk (ReadBufferSize x) (WriteBufferSize x) (Passphrase x) |}.
(* the zero value of the Go type *)
Definition zero : t :=
  mk 0 0 None.
End CryptFsConfig.

Module SFTPFsConfig.
(* source: internal/vfs/sftpfs.go SFTPFsConfig *)
Record t := mk {
  Endpoint : string;
  Username : string;
  Prefix : string;
  DisableCouncurrentReads : bool;
  BufferSize : Z;
  EqualityCheckMode : Z;
  Fingerprints : list string;
  Password : option Secret.t;
  PrivateKey : option Secret.t;
  KeyPassphrase : option Secret.t;
  forbiddenSelfUsernames : list string;
}.
#[global] Instance eta : Settable t := {| settable := fun x =>
  mk (Endpoint x) (Username x) (Prefix x) (DisableCouncurrentReads x) (BufferSize x) (EqualityCheckMode x) (Fingerprints x) (Password x) (PrivateKey x) (KeyPassphrase x) (forbiddenSelfUsernames x) |}.
(* the zero value of the Go type *)
Definition zero : t :=
  mk "" "" "" false 0 0 [] None None None [].
End SFTPFsConfig.

Module HTTPFsConfig.
(* source: internal/vfs/httpfs.go HTTPFsConfig *)
Record t := mk {
  Endpoint : string;
  Username : string;
  SkipTLSVerify : bool;
  EqualityCheckMode : Z;
  Password : option Secret.t;
  APIKey : option Secret.t;
}.
#[global] Instance eta : Settable t := {| settable := fun x =>
  mk (Endpoint x) (Username x) (SkipTLSVerify x) (EqualityCheckMode x) (Password x) (APIKey x) |}.
(* the zero value of the Go type *)
Definition zero : t :=
  mk "" "" false 0 None None.
End HTTPFsConfig.

Module Filesystem.
(* source: internal/vfs/filesystem.go Filesystem *)
Record t := mk {
  RedactedSecret : string;
  Provider : Z;
  OSConfig : OSFsConfig.t;
  S3Config : S3FsConfig.t;
  GCSConfig : GCSFsConfig.t;
  AzBlobConfig : AzBlobFsConfig.t;
  CryptConfig : CryptFsConfig.t;
  SFTPConfig : SFTPFsConfig.t;
  HTTPConfig : HTTPFsConfig.t;
}.
#[global] Instance eta : Settable t := {| settable := fun x =>
  mk (RedactedSecret x) (Provider x) (OSConfig x) (S3Config x) (GCSConfig x) (AzBlobConfig x) (CryptConfig x) (SFTPConfig x) (HTTPConfig x) |}.
(* the zero value of the Go type *)
Definition zero : t :=
  mk "" 0 OSFsConfig.zero S3FsConfig.zero GCSFsConfig.zero AzBlobFsConfig.zero CryptFsConfig.zero SFTPFsConfig.zero HTTPFsConfig.zero.
End Filesystem.

Module BaseVirtualFolder.
(* source: internal/vfs/folder.go BaseVirtualFolder *)
Record t := mk {
  ID : Z;
  Name : string;
  MappedPath : string;
  Description : string;
  UsedQuotaSize : Z;
  UsedQuotaFiles : Z;
  LastQuotaUpdate : Z;
  Users : list string;
  Groups : list string;
  FsConfig : Filesystem.t;
}.
#[global] Instance eta : Settable t := {| settable := fun x =>
  mk (ID x) (Name x) (MappedPath x) (Description x) (UsedQuotaSize x) (UsedQuotaFiles x) (LastQuotaUpdate x) (Users x) (Groups x) (FsConfig x) |}.
(* the zero value of the Go type *)
Definition zero : t :=
  mk 0 "" "" "" 0 0 0 [] [] Filesystem.zero.
End BaseVirtualFolder.

Module VirtualFolder.
(* source: internal/vfs/folder.go VirtualFolder *)
Record t := mk {
  Base : BaseVirtualFolder.t;
  VirtualPath : string;
  QuotaSize : Z;
  QuotaFiles : Z;
}.
#[global] Instance eta : Settable t := {| settable := fun x =>
  mk (Base x) (VirtualPath x) (QuotaSize x) (QuotaFiles x) |}.
(* the zero value of the Go type *)
Definition zero : t :=
  mk BaseVirtualFolder.zero "" 0 0.
End VirtualFolder.

(** Provider numbers of the sdk, documented in openapi/openapi.yaml (FsProviders). *)
Definition LocalFilesystemProvider : Z := 0.
Definition S3FilesystemProvider : Z := 1.
Definition GCSFilesystemProvider : Z := 2.
Definition AzureBlobFilesystemProvider : Z := 3.
Definition CryptedFilesystemProvider : Z := 4.
Definition SFTPFilesystemProvider : Z := 5.
Definition HTTPFilesystemProvider : Z := 6.

(** Secret statuses, documented in openapi/openapi.yaml (Secret). *)
Definition SecretStatusPlain : string := "Plain".
Definition SecretStatusRedacted : string := "Redacted".

(** * Secrets *)

(* source: internal/kms/kms.go NewEmptySecret *)
Definition NewEmptySecret : Secret.t := Secret.zero.

(* source: internal/kms/kms.go IsEmpty *)
Definition secret_IsEmpty (s : Secret.t) : bool :=
  if negb (Secret.Status s =s "") then false
  else if negb (Secret.Payload s =s "") then false
  else if negb (Secret.Key s =s "") then false
  else if negb (Secret.AdditionalData s =s "") then false
  else true.

(* source: internal/kms/kms.go IsPlain *)
Definition secret_IsPlain (s : Secret.t) : bool := Secret.Status s =s SecretStatusPlain.

(* source: internal/kms/kms.go IsRedacted *)
Definition secret_IsRedacted (s : Secret.t) : bool := Secret.Status s =s SecretStatusRedacted.

(* source: internal/kms/kms.go Hide *)
Definition secret_Hide (s : Secret.t) : Secret.t :=
  s <| Secret.Key := "" |> <| Secret.AdditionalData := "" |>.

(* source: internal/kms/kms.go IsEqual *)
Definition secret_IsEqual (s other : Secret.t) : bool :=
  if negb (Secret.Status s =s Secret.Status other) then false
  else if negb (Secret.Payload s =s Secret.Payload other) then false
  else if negb (Secret.Key s =s Secret.Key other) then false
  else if negb (Secret.AdditionalData s =s Secret.AdditionalData other) then false
  else if negb (Secret.Mode s =? Secret.Mode other) then false
  else true.

(** [if s == nil { s = kms.NewEmptySecret() }] *)
Definition emptyIfNil (o : option Secret.t) : option Secret.t :=
  match o with None => Some NewEmptySecret | Some s => Some s end.
(** [if s != nil && s.IsEmpty() { s = nil }] *)
Definition nilIfEmpty (o : option Secret.t) : option Secret.t :=
  match o with Some s => if secret_IsEmpty s then None else Some s | None => None end.
(** [if s != nil { s.Hide() }] *)
Definition hideIfSet (o : option Secret.t) : option Secret.t := secret_Hide <$> o.
(** A method call on a pointer to a secret.  Go panics on nil; every caller
    below runs after [SetEmptySecretsIfNil], so the default is never used. *)
Definition deref (o : option Secret.t) : Secret.t := default NewEmptySecret o.

(** * Filesystem configuration *)

(* source: internal/vfs/filesystem.go SetEmptySecrets *)
Definition fs_SetEmptySecrets (f : Filesystem.t) : Filesystem.t :=
  let e := Some NewEmptySecret in
  f <| Filesystem.S3Config ::= fun c => c <| S3FsConfig.AccessSecret := e |> |>
    <| Filesystem.GCSConfig ::= fun c => c <| GCSFsConfig.Credentials := e |> |>
    <| Filesystem.AzBlobConfig ::= fun c => c <| AzBlobFsConfig.AccountKey := e |> <| AzBlobFsConfig.SASURL := e |> |>
    <| Filesystem.CryptConfig ::= fun c => c <| CryptFsConfig.Passphrase := e |> |>
    <| Filesystem.SFTPConfig ::= fun c => c <| SFTPFsConfig.Password := e |> <| SFTPFsConfig.PrivateKey := e |>
                                             <| SFTPFsConfig.KeyPassphrase := e |> |>
    <| Filesystem.HTTPConfig ::= fun c => c <| HTTPFsConfig.Password := e |> <| HTTPFsConfig.APIKey := e |> |>.

(* source: internal/vfs/filesystem.go SetEmptySecretsIfNil *)
Definition fs_SetEmptySecretsIfNil (f : Filesystem.t) : Filesystem.t :=
  f <| Filesystem.S3Config ::= fun c => c <| S3FsConfig.AccessSecret ::= emptyIfNil |> |>
    <| Filesystem.GCSConfig ::= fun c => c <| GCSFsConfig.Credentials ::= emptyIfNil |> |>
    <| Filesystem.AzBlobConfig ::= fun c => c <| AzBlobFsConfig.AccountKey ::= emptyIfNil |>
                                               <| AzBlobFsConfig.SASURL ::= emptyIfNil |> |>
    <| Filesystem.CryptConfig ::= fun c => c <| CryptFsConfig.Passphrase ::= emptyIfNil |> |>
    <| Filesystem.SFTPConfig ::= fun c => c <| SFTPFsConfig.Password ::= emptyIfNil |>
                                             <| SFTPFsConfig.PrivateKey ::= emptyIfNil |>
                                             <| SFTPFsConfig.KeyPassphrase ::= emptyIfNil |> |>
    <| Filesystem.HTTPConfig ::= fun c => c <| HTTPFsConfig.Password ::= emptyIfNil |>
                                             <| HTTPFsConfig.APIKey ::= emptyIfNil |> |>.

(* source: internal/vfs/filesystem.go SetNilSecretsIfEmpty *)
Definition fs_SetNilSecretsIfEmpty (f : Filesystem.t) : Filesystem.t :=
  f <| Filesystem.S3Config ::= fun c => c <| S3FsConfig.AccessSecret ::= nilIfEmpty |> |>
    <| Filesystem.GCSConfig ::= fun c => c <| GCSFsConfig.Credentials ::= nilIfEmpty |> |>
    <| Filesystem.AzBlobConfig ::= fun c => c <| AzBlobFsConfig.AccountKey ::= nilIfEmpty |>
                                               <| AzBlobFsConfig.SASURL ::= nilIfEmpty |> |>
    <| Filesystem.CryptConfig ::= fun c => c <| CryptFsConfig.Passphrase ::= nilIfEmpty |> |>
    <| Filesystem.SFTPConfig ::= fun c => c <| SFTPFsConfig.Password ::= nilIfEmpty |>
                                             <| SFTPFsConfig.PrivateKey ::= nilIfEmpty |>
                                             <| SFTPFsConfig.KeyPassphrase ::= nilIfEmpty |> |>
    <| Filesystem.HTTPConfig ::= fun c => c <| HTTPFsConfig.Password ::= nilIfEmpty |>
                                             <| HTTPFsConfig.APIKey ::= nilIfEmpty |> |>.

(* source: internal/vfs/filesystem.go HideConfidentialData *)
Definition fs_HideConfidentialData (f : Filesystem.t) : Filesystem.t :=
  let p := Filesystem.Provider f in
  if p =? S3FilesystemProvider then
    f <| Filesystem.S3Config ::= fun c => c <| S3FsConfig.AccessSecret ::= hideIfSet |> |>
  else if p =? GCSFilesystemProvider then
    f <| Filesystem.GCSConfig ::= fun c => c <| GCSFsConfig.Credentials ::= hideIfSet |> |>
  else if p =? AzureBlobFilesystemProvider then
    f <| Filesystem.AzBlobConfig ::= fun c => c <| AzBlobFsConfig.AccountKey ::= hideIfSet |>
                                               <| AzBlobFsConfig.SASURL ::= hideIfSet |> |>
  else if p =? CryptedFilesystemProvider then
    f <| Filesystem.CryptConfig ::= fun c => c <| CryptFsConfig.Passphrase ::= hideIfSet |> |>
  else if p =? SFTPFilesystemProvider then
    f <| Filesystem.SFTPConfig ::= fun c => c <| SFTPFsConfig.Password ::= hideIfSet |>
                                             <| SFTPFsConfig.PrivateKey ::= hideIfSet |>
                                             <| SFTPFsConfig.KeyPassphrase ::= hideIfSet |> |>
  else if p =? HTTPFilesystemProvider then
    f <| Filesystem.HTTPConfig ::= fun c => c <| HTTPFsConfig.Password ::= hideIfSet |>
                                             <| HTTPFsConfig.APIKey ::= hideIfSet |> |>
  else f.

(* source: internal/vfs/filesystem.go HasRedactedSecret *)
Definition fs_HasRedactedSecret (f : Filesystem.t) : bool :=
  let red o := secret_IsRedacted (deref o) in
  let p := Filesystem.Provider f in
  if p =? S3FilesystemProvider then red (S3FsConfig.AccessSecret (Filesystem.S3Config f))
  else if p =? GCSFilesystemProvider then red (GCSFsConfig.Credentials (Filesystem.GCSConfig f))
  else if p =? AzureBlobFilesystemProvider then
    if red (AzBlobFsConfig.AccountKey (Filesystem.AzBlobConfig f)) then true
    else red (AzBlobFsConfig.SASURL (Filesystem.AzBlobConfig f))
  else if p =? CryptedFilesystemProvider then red (CryptFsConfig.Passphrase (Filesystem.CryptConfig f))
  else if p =? SFTPFilesystemProvider then
    if red (SFTPFsConfig.Password (Filesystem.SFTPConfig f)) then true
    else if red (SFTPFsConfig.PrivateKey (Filesystem.SFTPConfig f)) then true
    else red (SFTPFsConfig.KeyPassphrase (Filesystem.SFTPConfig f))
  else if p =? HTTPFilesystemProvider then
    if red (HTTPFsConfig.Password (Filesystem.HTTPConfig f)) then true
    else red (HTTPFsConfig.APIKey (Filesystem.HTTPConfig f))
  else false.

(** [Secret.Clone] copies the five fields of a secret; it is called on the
    pointers after [SetEmptySecretsIfNil]. *)
(* source: internal/kms/kms.go Clone *)
Definition secret_Clone (o : option Secret.t) : option Secret.t :=
  Some {| Secret.Status := Secret.Status (deref o); Secret.Payload := Secret.Payload (deref o);
          Secret.Key := Secret.Key (deref o); Secret.AdditionalData := Secret.AdditionalData (deref o);
          Secret.Mode := Secret.Mode (deref o) |}.

Definition copy_S3FsConfig (c : S3FsConfig.t) : S3FsConfig.t :=
  {| S3FsConfig.Bucket := S3FsConfig.Bucket c;
     S3FsConfig.Region := S3FsConfig.Region c;
     S3FsConfig.AccessKey := S3FsConfig.AccessKey c;
     S3FsConfig.RoleARN := S3FsConfig.RoleARN c;
     S3FsConfig.Endpoint := S3FsConfig.Endpoint c;
     S3FsConfig.StorageClass := S3FsConfig.StorageClass c;
     S3FsConfig.ACL := S3FsConfig.ACL c;
     S3FsConfig.KeyPrefix := S3FsConfig.KeyPrefix c;
     S3FsConfig.UploadPartSize := S3FsConfig.UploadPartSize c;
     S3FsConfig.UploadConcurrency := S3FsConfig.UploadConcurrency c;
     S3FsConfig.DownloadPartSize := S3FsConfig.DownloadPartSize c;
     S3FsConfig.DownloadConcurrency := S3FsConfig.DownloadConcurrency c;
     S3FsConfig.DownloadPartMaxTime := S3FsConfig.DownloadPartMaxTime c;
     S3FsConfig.UploadPartMaxTime := S3FsConfig.UploadPartMaxTime c;
     S3FsConfig.ForcePathStyle := S3FsConfig.ForcePathStyle c;
     S3FsConfig.SkipTLSVerify := S3FsConfig.SkipTLSVerify c;
     S3FsConfig.AccessSecret := secret_Clone (S3FsConfig.AccessSecret c) |}.

Definition copy_GCSFsConfig (c : GCSFsConfig.t) : GCSFsConfig.t :=
  {| GCSFsConfig.Bucket := GCSFsConfig.Bucket c;
     GCSFsConfig.AutomaticCredentials := GCSFsConfig.AutomaticCredentials c;
     GCSFsConfig.StorageClass := GCSFsConfig.StorageClass c;
     GCSFsConfig.ACL := GCSFsConfig.ACL c;
     GCSFsConfig.KeyPrefix := GCSFsConfig.KeyPrefix c;
     GCSFsConfig.UploadPartSize := GCSFsConfig.UploadPartSize c;
     GCSFsConfig.UploadPartMaxTime := GCSFsConfig.UploadPartMaxTime c;
     GCSFsConfig.Credentials := secret_Clone (GCSFsConfig.Credentials c) |}.

Definition copy_AzBlobFsConfig (c : AzBlobFsConfig.t) : AzBlobFsConfig.t :=
  {| AzBlobFsConfig.Container := AzBlobFsConfig.Container c;
     AzBlobFsConfig.AccountName := AzBlobFsConfig.AccountName c;
     AzBlobFsConfig.Endpoint := AzBlobFsConfig.Endpoint c;
     AzBlobFsConfig.KeyPrefix := AzBlobFsConfig.KeyPrefix c;
     AzBlobFsConfig.UploadPartSize := AzBlobFsConfig.UploadPartSize c;
     AzBlobFsConfig.UploadConcurrency := AzBlobFsConfig.UploadConcurrency c;
     AzBlobFsConfig.DownloadPartSize := AzBlobFsConfig.DownloadPartSize c;
     AzBlobFsConfig.DownloadConcurrency := AzBlobFsConfig.DownloadConcurrency c;
     AzBlobFsConfig.UseEmulator := AzBlobFsConfig.UseEmulator c;
     AzBlobFsConfig.AccessTier := AzBlobFsConfig.AccessTier c;
     AzBlobFsConfig.AccountKey := secret_Clone (AzBlobFsConfig.AccountKey c);
     AzBlobFsConfig.SASURL := secret_Clone (AzBlobFsConfig.SASURL c) |}.

Definition copy_CryptFsConfig (c : CryptFsConfig.t) : CryptFsConfig.t :=
  {| CryptFsConfig.ReadBufferSize := CryptFsConfig.ReadBufferSize c;
     CryptFsConfig.WriteBufferSize := CryptFsConfig.WriteBufferSize c;
     CryptFsConfig.Passphrase := secret_Clone (CryptFsConfig.Passphrase c) |}.

Definition copy_SFTPFsConfig (c : SFTPFsConfig.t) : SFTPFsConfig.t :=
  {| SFTPFsConfig.Endpoint := SFTPFsConfig.Endpoint c;
     SFTPFsConfig.Username := SFTPFsConfig.Username c;
     SFTPFsConfig.Prefix := SFTPFsConfig.Prefix c;
     SFTPFsConfig.DisableCouncurrentReads := SFTPFsConfig.DisableCouncurrentReads c;
     SFTPFsConfig.BufferSize := SFTPFsConfig.BufferSize c;
     SFTPFsConfig.EqualityCheckMode := SFTPFsConfig.EqualityCheckMode c;
     SFTPFsConfig.Fingerprints := SFTPFsConfig.Fingerprints c;
     SFTPFsConfig.Password := secret_Clone (SFTPFsConfig.Password c);
     SFTPFsConfig.PrivateKey := secret_Clone (SFTPFsConfig.PrivateKey c);
     SFTPFsConfig.KeyPassphrase := secret_Clone (SFTPFsConfig.KeyPassphrase c);
     SFTPFsConfig.forbiddenSelfUsernames := [] |}.

Definition copy_HTTPFsConfig (c : HTTPFsConfig.t) : HTTPFsConfig.t :=
  {| HTTPFsConfig.Endpoint := HTTPFsConfig.Endpoint c;
     HTTPFsConfig.Username := HTTPFsConfig.Username c;
     HTTPFsConfig.SkipTLSVerify := HTTPFsConfig.SkipTLSVerify c;
     HTTPFsConfig.EqualityCheckMode := HTTPFsConfig.EqualityCheckMode c;
     HTTPFsConfig.Password := secret_Clone (HTTPFsConfig.Password c);
     HTTPFsConfig.APIKey := secret_Clone (HTTPFsConfig.APIKey c) |}.

(** The copy leaves [RedactedSecret] and the unexported
    [forbiddenSelfUsernames] at their zero value. *)
(* source: internal/vfs/filesystem.go GetACopy *)
Definition fs_GetACopy (f0 : Filesystem.t) : Filesystem.t :=
  let f := fs_SetEmptySecretsIfNil f0 in
  {| Filesystem.RedactedSecret := "";
     Filesystem.Provider := Filesystem.Provider f;
     Filesystem.OSConfig :=
       {| OSFsConfig.ReadBufferSize := OSFsConfig.ReadBufferSize (Filesystem.OSConfig f);
          OSFsConfig.WriteBufferSize := OSFsConfig.WriteBufferSize (Filesystem.OSConfig f) |};
     Filesystem.S3Config := copy_S3FsConfig (Filesystem.S3Config f);
     Filesystem.GCSConfig := copy_GCSFsConfig (Filesystem.GCSConfig f);
     Filesystem.AzBlobConfig := copy_AzBlobFsConfig (Filesystem.AzBlobConfig f);
     Filesystem.CryptConfig := copy_CryptFsConfig (Filesystem.CryptConfig f);
     Filesystem.SFTPConfig := copy_SFTPFsConfig (Filesystem.SFTPConfig f);
     Filesystem.HTTPConfig := copy_HTTPFsConfig (Filesystem.HTTPConfig f) |}.

Lemma secret_Clone_emptyIfNil o : secret_Clone (emptyIfNil o) = emptyIfNil o.
Proof. by destruct o as [[]|]. Qed.

(** What the copy changes. *)
Lemma fs_GetACopy_eq f : fs_GetACopy f =
  (fs_SetEmptySecretsIfNil f) <| Filesystem.RedactedSecret := "" |>
    <| Filesystem.SFTPConfig ::= fun c => c <| SFTPFsConfig.forbiddenSelfUsernames := [] |> |>.
Proof.
  destruct f as [? ? [] [] [] [] [] [] []]. unfold fs_GetACopy, fs_SetEmptySecretsIfNil.
  unfold copy_S3FsConfig, copy_GCSFsConfig, copy_AzBlobFsConfig, copy_CryptFsConfig, copy_SFTPFsConfig, copy_HTTPFsConfig.
  simpl. by rewrite !secret_Clone_emptyIfNil.
Qed.

(** A copy of a copy is the copy. *)
Lemma fs_GetACopy_idemp f : fs_GetACopy (fs_GetACopy f) = fs_GetACopy f.
Proof.
  rewrite !fs_GetACopy_eq. destruct f as [? ? [] [] [] [] [] [] []]. unfold fs_SetEmptySecretsIfNil. simpl.
  by repeat match goal with |- context [emptyIfNil (emptyIfNil ?o)] =>
    replace (emptyIfNil (emptyIfNil o)) with (emptyIfNil o) by (by destruct o) end.
Qed.

(** * Virtual folders *)

(* source: internal/vfs/folder.go BaseVirtualFolder.GetACopy *)
Definition folder_GetACopy (v : BaseVirtualFolder.t) : BaseVirtualFolder.t :=
  v <| BaseVirtualFolder.FsConfig ::= fs_GetACopy |>.

(* source: internal/vfs/folder.go hideConfidentialData *)
Definition folder_hideConfidentialData (v : BaseVirtualFolder.t) : BaseVirtualFolder.t :=
  v <| BaseVirtualFolder.FsConfig ::= fs_HideConfidentialData |>.

(* source: internal/vfs/folder.go PrepareForRendering *)
Definition folder_PrepareForRendering (v : BaseVirtualFolder.t) : BaseVirtualFolder.t :=
  (folder_hideConfidentialData v) <| BaseVirtualFolder.FsConfig ::= fs_SetEmptySecretsIfNil |>.

(* source: internal/vfs/folder.go HasRedactedSecret *)
Definition folder_HasRedactedSecret (v : BaseVirtualFolder.t) : bool :=
  fs_HasRedactedSecret (BaseVirtualFolder.FsConfig v).

(* source: internal/vfs/folder.go IsLocalOrLocalCrypted *)
Definition folder_IsLocalOrLocalCrypted (v : BaseVirtualFolder.t) : bool :=
  let p := Filesystem.Provider (BaseVirtualFolder.FsConfig v) in
  (p =? LocalFilesystemProvider) || (p =? CryptedFilesystemProvider).

(* source: internal/vfs/folder.go VirtualFolder.GetACopy *)
Definition vfolder_GetACopy (v : VirtualFolder.t) : VirtualFolder.t :=
  v <| VirtualFolder.Base ::= folder_GetACopy |>.

(* source: internal/vfs/folder.go IsIncludedInUserQuota *)
Definition vfolder_IsIncludedInUserQuota (v : VirtualFolder.t) : bool :=
  (VirtualFolder.QuotaFiles v =? -1) && (VirtualFolder.QuotaSize v =? -1).

(* source: internal/vfs/folder.go VirtualFolder.HasNoQuotaRestrictions *)
Definition vfolder_HasNoQuotaRestrictions (v : VirtualFolder.t) (checkFiles : bool) : bool :=
  if (VirtualFolder.QuotaSize v =? 0) && (negb checkFiles || (VirtualFolder.QuotaFiles v =? 0)) then true
  else false.

(** The embedded fields of a [VirtualFolder]. *)
Definition vfolder_Name (v : VirtualFolder.t) : string := BaseVirtualFolder.Name (VirtualFolder.Base v).
Definition vfolder_MappedPath (v : VirtualFolder.t) : string := BaseVirtualFolder.MappedPath (VirtualFolder.Base v).
Definition vfolder_FsConfig (v : VirtualFolder.t) : Filesystem.t := BaseVirtualFolder.FsConfig (VirtualFolder.Base v).
