(* ===== verification/FsValidate.v ===== *)
(** Validation and comparison of filesystem configurations: Filesystem.Validate,
    IsEqual and IsSameResource (internal/vfs/filesystem.go), the methods of the
    configuration of each backend they call (internal/vfs/vfs.go, sftpfs.go,
    httpfs.go), and the secrets they encrypt (internal/kms).

    A validator returns the configuration it leaves behind or the error.  The
    ciphers are parameters; so is the parser of URLs, of which the code uses
    whether it succeeds, the host and the query parameter [socket_path]. *)
From Stdlib Require Import Ascii.
From S2P Require Import Prelude GoPath Util Net FsConfig.
Open Scope Z_scope.

(** * Secrets *)

Definition SecretStatusAES256GCM : string := "AES-256-GCM".
Definition SecretStatusSecretBox : string := "Secretbox".
Definition SecretStatusVaultTransit : string := "VaultTransit".
Definition SecretStatusAWS : string := "AWS".
Definition SecretStatusGCP : string := "GCP".

(* source: internal/kms/kms.go#L75-L76 validSecretStatuses *)
Definition validSecretStatuses : list string :=
  [SecretStatusPlain; SecretStatusAES256GCM; SecretStatusSecretBox; SecretStatusVaultTransit; SecretStatusAWS;
   SecretStatusGCP; SecretStatusRedacted].

(* source: internal/kms/kms.go isSecretStatusValid *)
Definition isSecretStatusValid (status : string) : bool := existsb (fun v => v =s status) validSecretStatuses.

(* source: internal/kms/kms.go IsValidInput *)
Definition secret_IsValidInput (s : Secret.t) : bool :=
  if negb (isSecretStatusValid (Secret.Status s)) then false
  else if Secret.Payload s =s "" then false else true.

(* source: internal/kms/kms.go IsValid *)
Definition secret_IsValid (s : Secret.t) : bool :=
  let status := Secret.Status s in
  let key := Secret.Key s in
  if negb (secret_IsValidInput s) then false
  else if (status =s SecretStatusAES256GCM) || (status =s SecretStatusSecretBox) then
    bool_decide (String.length key = 64%nat)
  else if (status =s SecretStatusAWS) || (status =s SecretStatusGCP) || (status =s SecretStatusVaultTransit) then
    negb (negb (key =s "") && negb (bool_decide (String.length key = 64%nat)))
  else true.

(** The key management: the providers in use and their ciphers.  A cipher gets
    the payload and the additional data and gives the encoded key and the
    encoded ciphertext, or fails. *)
Class Kms := {
  kms_builtin : bool;                 (* the configured URL selects the builtin provider *)
  kms_masterKey : string;
  kms_plugins : list string;          (* the encrypted statuses of the registered plugins *)
  kms_box : string → string → res (string * string);   (* gocloud.dev localsecrets *)
  kms_gcm : string → string → res (string * string);   (* AES-256 in Galois counter mode *)
}.

Section secrets.
Context {K : Kms}.

(** The provider of a secret that is not plain is the one registered for its
    status, so a secret is encrypted when its status is a registered one. *)
(* source: internal/kms/kms.go IsEncrypted *)
Definition secret_IsEncrypted (s : Secret.t) : bool :=
  contains ([SecretStatusSecretBox; SecretStatusAES256GCM] ++ kms_plugins) (Secret.Status s).

(* source: internal/kms/local.go getEncryptionMode *)
Definition local_getEncryptionMode : Z := if kms_masterKey =s "" then 0 else 1.

(* source: internal/kms/local.go Encrypt *)
Definition local_Encrypt (s : Secret.t) : res Secret.t :=
  if negb (Secret.Status s =s SecretStatusPlain) then Err (PlainError "wrong secret status")
  else if Secret.Payload s =s "" then Err (PlainError "invalid secret")
  else '(key, payload) ← kms_box (Secret.Payload s) (Secret.AdditionalData s);
       Ok (s <| Secret.Key := key |> <| Secret.Payload := payload |> <| Secret.Status := SecretStatusSecretBox |>
             <| Secret.Mode := local_getEncryptionMode |>).

(* source: internal/kms/builtin.go Encrypt *)
Definition builtin_Encrypt (s : Secret.t) : res Secret.t :=
  if Secret.Payload s =s "" then Err (PlainError "invalid secret")
  else if Secret.Status s =s SecretStatusPlain then
    '(key, payload) ← kms_gcm (Secret.Payload s) (Secret.AdditionalData s);
    Ok (s <| Secret.Key := key |> <| Secret.Payload := payload |> <| Secret.Status := SecretStatusAES256GCM |>)
  else Err (PlainError "wrong secret status").

(** [s.provider.Encrypt()]: a plain secret has the configured provider. *)
(* source: internal/kms/kms.go Encrypt *)
Definition secret_Encrypt (s : Secret.t) : res Secret.t :=
  if kms_builtin then builtin_Encrypt s else local_Encrypt s.

(** [if s.IsPlain() { s.SetAdditionalData(data); err := s.Encrypt() ... }] *)
Definition seal (what data : string) (o : option Secret.t) : res (option Secret.t) :=
  let s := deref o in
  if secret_IsPlain s then
    match secret_Encrypt (s <| Secret.AdditionalData := data |>) with
    | Ok s' => Ok (Some s')
    | Err _ => Err (ValidationError ("could not encrypt " +:+ what))
    end
  else Ok o.
End secrets.

(** * Helpers *)

(** [err := m; if err != nil { return util.NewValidationError(what + err) }] *)
Definition invalid {A} (what : string) (m : res A) : res A :=
  match m with Ok a => Ok a | Err _ => Err (ValidationError what) end.
Definition check (bad : bool) (msg : string) : res unit := if bad then Err (PlainError msg) else Ok tt.

(** a key prefix: relative, clean and with a slash at its end *)
Definition clean_prefix (p : string) : res string :=
  if p =s "" then Ok p
  else if has_prefix p "/" then Err (PlainError "key_prefix cannot start with /")
  else let p := path_Clean p in Ok (if has_suffix p "/" then p else p +:+ "/").

(** the encrypted secrets and the non empty ones that are not valid *)
Definition bad_encrypted `{Kms} (s : Secret.t) : bool := secret_IsEncrypted s && negb (secret_IsValid s).
Definition bad_input (s : Secret.t) : bool := negb (secret_IsEmpty s) && negb (secret_IsValidInput s).

(** [strings.TrimRight(s, "/")] *)
Fixpoint drop_slashes (s : string) : string :=
  match s with String c s' => if Ascii.eqb c slash then drop_slashes s' else s | EmptyString => s end.
Definition trim_right_slashes (s : string) : string := string_rev (drop_slashes (string_rev s)).

(* source: internal/vfs/vfs.go isEqualityCheckModeValid *)
Definition isEqualityCheckModeValid (mode : Z) : bool := (0 <=? mode) || (mode <=? 1).

(* source: internal/vfs/vfs.go validateOSFsConfig *)
Definition validateOSFsConfig (readBufferSize writeBufferSize : Z) : res unit :=
  if (readBufferSize <? 0) || (10 <? readBufferSize)
  then Err (PlainError "invalid read buffer size must be between 0 and 10 MB")
  else if (writeBufferSize <? 0) || (10 <? writeBufferSize)
  then Err (PlainError "invalid write buffer size must be between 0 and 10 MB")
  else Ok tt.

Section validate.
Context {K : Kms}.
(** [url.Parse]: the host and the query parameter [socket_path] *)
Variable url_Parse : string → option (string * string).

(** * S3 *)

(* source: internal/vfs/vfs.go S3FsConfig.checkCredentials *)
Definition s3_checkCredentials (c : S3FsConfig.t) : res unit :=
  let secret := deref (S3FsConfig.AccessSecret c) in
  _ ← check ((S3FsConfig.AccessKey c =s "") && negb (secret_IsEmpty secret))
        "access_key cannot be empty with access_secret not empty";
  _ ← check (secret_IsEmpty secret && negb (S3FsConfig.AccessKey c =s ""))
        "access_secret cannot be empty with access_key not empty";
  _ ← check (bad_encrypted secret) "invalid encrypted access_secret";
  check (bad_input secret) "invalid access_secret".

(* source: internal/vfs/vfs.go S3FsConfig.checkPartSizeAndConcurrency *)
Definition s3_checkPartSizeAndConcurrency (c : S3FsConfig.t) : res unit :=
  let bad_size n := negb (n =? 0) && ((n <? 5) || (5000 <? n)) in
  let bad_concurrency n := (n <? 0) || (64 <? n) in
  _ ← check (bad_size (S3FsConfig.UploadPartSize c)) "upload_part_size cannot be != 0, lower than 5 (MB) or greater than 5000 (MB)";
  _ ← check (bad_concurrency (S3FsConfig.UploadConcurrency c)) "invalid upload concurrency";
  _ ← check (bad_size (S3FsConfig.DownloadPartSize c)) "download_part_size cannot be != 0, lower than 5 (MB) or greater than 5000 (MB)";
  check (bad_concurrency (S3FsConfig.DownloadConcurrency c)) "invalid download concurrency".

(* source: internal/vfs/vfs.go S3FsConfig.validate *)
Definition s3_validate (c : S3FsConfig.t) : res S3FsConfig.t :=
  let c := c <| S3FsConfig.AccessSecret ::= emptyIfNil |> in
  _ ← check (S3FsConfig.Bucket c =s "") "bucket cannot be empty";
  _ ← check ((S3FsConfig.Endpoint c =s "") && (S3FsConfig.Region c =s "")) "region cannot be empty";
  _ ← s3_checkCredentials c;
  prefix ← clean_prefix (S3FsConfig.KeyPrefix c);
  let c := c <| S3FsConfig.KeyPrefix := prefix |> <| S3FsConfig.StorageClass ::= TrimSpace |>
             <| S3FsConfig.ACL ::= TrimSpace |> in
  _ ← s3_checkPartSizeAndConcurrency c;
  Ok c.

(* source: internal/vfs/vfs.go S3FsConfig.ValidateAndEncryptCredentials *)
Definition s3_ValidateAndEncryptCredentials (additionalData : string) (c : S3FsConfig.t) : res S3FsConfig.t :=
  c ← invalid "could not validate s3config" (s3_validate c);
  secret ← seal "s3 access secret" additionalData (S3FsConfig.AccessSecret c);
  Ok (c <| S3FsConfig.AccessSecret := secret |>).

(** * Google Cloud Storage *)

(* source: internal/vfs/vfs.go GCSFsConfig.validate *)
Definition gcs_validate (c : GCSFsConfig.t) : res GCSFsConfig.t :=
  let c := if GCSFsConfig.AutomaticCredentials c =? 1 then c <| GCSFsConfig.Credentials := Some NewEmptySecret |>
           else c <| GCSFsConfig.Credentials ::= emptyIfNil |> in
  _ ← check (GCSFsConfig.Bucket c =s "") "bucket cannot be empty";
  prefix ← clean_prefix (GCSFsConfig.KeyPrefix c);
  let c := c <| GCSFsConfig.KeyPrefix := prefix |> in
  let credentials := deref (GCSFsConfig.Credentials c) in
  _ ← check (bad_encrypted credentials) "invalid encrypted credentials";
  _ ← check ((GCSFsConfig.AutomaticCredentials c =? 0) && negb (secret_IsValidInput credentials)) "invalid credentials";
  Ok (c <| GCSFsConfig.StorageClass ::= TrimSpace |> <| GCSFsConfig.ACL ::= TrimSpace |>
        <| GCSFsConfig.UploadPartSize ::= Z.max 0 |> <| GCSFsConfig.UploadPartMaxTime ::= Z.max 0 |>).

(* source: internal/vfs/vfs.go GCSFsConfig.ValidateAndEncryptCredentials *)
Definition gcs_ValidateAndEncryptCredentials (additionalData : string) (c : GCSFsConfig.t) : res GCSFsConfig.t :=
  c ← invalid "could not validate GCS config" (gcs_validate c);
  secret ← seal "GCS credentials" additionalData (GCSFsConfig.Credentials c);
  Ok (c <| GCSFsConfig.Credentials := secret |>).

(** * Azure Blob *)

(* source: internal/vfs/vfs.go#L57-L57 validAzAccessTier *)
Definition validAzAccessTier : list string := [""; "Archive"; "Hot"; "Cool"].

(* source: internal/vfs/vfs.go AzBlobFsConfig.checkCredentials *)
Definition az_checkCredentials (c : AzBlobFsConfig.t) : res unit :=
  let sas := deref (AzBlobFsConfig.SASURL c) in
  let key := deref (AzBlobFsConfig.AccountKey c) in
  if secret_IsPlain sas then
    match url_Parse (Secret.Payload sas) with None => Err (PlainError "invalid SAS URL") | Some _ => Ok tt end
  else if bad_encrypted sas then Err (PlainError "invalid encrypted sas_url")
  else if negb (secret_IsEmpty sas) then Ok tt
  else
    _ ← check ((AzBlobFsConfig.AccountName c =s "") || negb (secret_IsValidInput key)) "credentials cannot be empty or invalid";
    check (bad_encrypted key) "invalid encrypted account_key".

(* source: internal/vfs/vfs.go AzBlobFsConfig.checkPartSizeAndConcurrency *)
Definition az_checkPartSizeAndConcurrency (c : AzBlobFsConfig.t) : res unit :=
  let outside max n := (n <? 0) || (max <? n) in
  _ ← check (outside 100 (AzBlobFsConfig.UploadPartSize c)) "invalid upload part size";
  _ ← check (outside 64 (AzBlobFsConfig.UploadConcurrency c)) "invalid upload concurrency";
  _ ← check (outside 100 (AzBlobFsConfig.DownloadPartSize c)) "invalid download part size";
  check (outside 64 (AzBlobFsConfig.DownloadConcurrency c)) "invalid upload concurrency".

(* source: internal/vfs/vfs.go AzBlobFsConfig.validate *)
Definition az_validate (c : AzBlobFsConfig.t) : res AzBlobFsConfig.t :=
  let c := c <| AzBlobFsConfig.AccountKey ::= emptyIfNil |> <| AzBlobFsConfig.SASURL ::= emptyIfNil |> in
  _ ← check (secret_IsEmpty (deref (AzBlobFsConfig.SASURL c)) && (AzBlobFsConfig.Container c =s "")) "container cannot be empty";
  _ ← az_checkCredentials c;
  prefix ← clean_prefix (AzBlobFsConfig.KeyPrefix c);
  let c := c <| AzBlobFsConfig.KeyPrefix := prefix |> in
  _ ← az_checkPartSizeAndConcurrency c;
  _ ← check (negb (contains validAzAccessTier (AzBlobFsConfig.AccessTier c))) "invalid access tier";
  Ok c.

(* source: internal/vfs/vfs.go AzBlobFsConfig.ValidateAndEncryptCredentials *)
Definition az_ValidateAndEncryptCredentials (additionalData : string) (c : AzBlobFsConfig.t) : res AzBlobFsConfig.t :=
  c ← invalid "could not validate Azure Blob config" (az_validate c);
  key ← seal "Azure blob account key" additionalData (AzBlobFsConfig.AccountKey c);
  sas ← seal "Azure blob SAS URL" additionalData (AzBlobFsConfig.SASURL c);
  Ok (c <| AzBlobFsConfig.AccountKey := key |> <| AzBlobFsConfig.SASURL := sas |>).

(** * Encrypted local files *)

(* source: internal/vfs/vfs.go CryptFsConfig.validate *)
Definition crypt_validate (c : CryptFsConfig.t) : res unit :=
  match CryptFsConfig.Passphrase c with
  | None => Err (PlainError "invalid passphrase")
  | Some s =>
      _ ← check (secret_IsEmpty s) "invalid passphrase";
      _ ← check (negb (secret_IsValidInput s)) "passphrase cannot be empty or invalid";
      check (bad_encrypted s) "invalid encrypted passphrase"
  end.

(* source: internal/vfs/vfs.go CryptFsConfig.ValidateAndEncryptCredentials *)
Definition crypt_ValidateAndEncryptCredentials (additionalData : string) (c : CryptFsConfig.t) : res CryptFsConfig.t :=
  _ ← invalid "could not validate crypt fs config" (crypt_validate c);
  secret ← seal "Crypt fs passphrase" additionalData (CryptFsConfig.Passphrase c);
  Ok (c <| CryptFsConfig.Passphrase := secret |>).

(** * SFTP *)

(* source: internal/vfs/sftpfs.go setEmptyCredentialsIfNil *)
Definition sftp_setEmptyCredentialsIfNil (c : SFTPFsConfig.t) : SFTPFsConfig.t :=
  c <| SFTPFsConfig.Password ::= emptyIfNil |> <| SFTPFsConfig.PrivateKey ::= emptyIfNil |>
    <| SFTPFsConfig.KeyPassphrase ::= emptyIfNil |>.

(* source: internal/vfs/sftpfs.go SFTPFsConfig.validateCredentials *)
Definition sftp_validateCredentials (c : SFTPFsConfig.t) : res unit :=
  let password := deref (SFTPFsConfig.Password c) in
  let key := deref (SFTPFsConfig.PrivateKey c) in
  let passphrase := deref (SFTPFsConfig.KeyPassphrase c) in
  _ ← check (secret_IsEmpty password && secret_IsEmpty key) "credentials cannot be empty";
  _ ← check (bad_encrypted password) "invalid encrypted password";
  _ ← check (bad_input password) "invalid password";
  _ ← check (bad_encrypted key) "invalid encrypted private key";
  _ ← check (bad_input key) "invalid private key";
  _ ← check (bad_encrypted passphrase) "invalid encrypted private key passphrase";
  check (bad_input passphrase) "invalid private key passphrase".

(** [strings.Contains(s, string(c))] *)
Definition has_char (c : ascii) (s : string) : bool := bool_decide (is_Some (index_of c s)).

(* source: internal/vfs/sftpfs.go SFTPFsConfig.validate *)
Definition sftp_validate (c : SFTPFsConfig.t) : res SFTPFsConfig.t :=
  let c := sftp_setEmptyCredentialsIfNil c in
  _ ← check (SFTPFsConfig.Endpoint c =s "") "endpoint cannot be empty";
  let c := if negb (has_char ":"%char (SFTPFsConfig.Endpoint c))
           then c <| SFTPFsConfig.Endpoint ::= fun e => e +:+ ":22" |> else c in
  _ ← check (negb (bool_decide (is_Some (SplitHostPort (SFTPFsConfig.Endpoint c))))) "invalid endpoint";
  _ ← check (SFTPFsConfig.Username c =s "") "username cannot be empty";
  _ ← check ((SFTPFsConfig.BufferSize c <? 0) || (16 <? SFTPFsConfig.BufferSize c)) "invalid buffer_size, valid range is 0-16";
  _ ← check (negb (isEqualityCheckModeValid (SFTPFsConfig.EqualityCheckMode c))) "invalid equality_check_mode";
  _ ← sftp_validateCredentials c;
  Ok (c <| SFTPFsConfig.Prefix ::= fun p => if negb (p =s "") then CleanPath p else "/" |>).

(* source: internal/vfs/sftpfs.go SFTPFsConfig.ValidateAndEncryptCredentials *)
Definition sftp_ValidateAndEncryptCredentials (additionalData : string) (c : SFTPFsConfig.t) : res SFTPFsConfig.t :=
  c ← invalid "could not validate SFTP fs config" (sftp_validate c);
  password ← seal "SFTP fs password" additionalData (SFTPFsConfig.Password c);
  key ← seal "SFTP fs private key" additionalData (SFTPFsConfig.PrivateKey c);
  passphrase ← seal "SFTP fs private key passphrase" additionalData (SFTPFsConfig.KeyPassphrase c);
  Ok (c <| SFTPFsConfig.Password := password |> <| SFTPFsConfig.PrivateKey := key |>
        <| SFTPFsConfig.KeyPassphrase := passphrase |>).

(** * HTTP *)

(* source: internal/vfs/httpfs.go setEmptyCredentialsIfNil *)
Definition http_setEmptyCredentialsIfNil (c : HTTPFsConfig.t) : HTTPFsConfig.t :=
  c <| HTTPFsConfig.Password ::= emptyIfNil |> <| HTTPFsConfig.APIKey ::= emptyIfNil |>.

(* source: internal/vfs/httpfs.go#L47-L47 supportedEndpointSchema *)
Definition supportedEndpointSchema : list string := ["http://"; "https://"].

(* source: internal/vfs/httpfs.go HTTPFsConfig.validate *)
Definition http_validate (c : HTTPFsConfig.t) : res HTTPFsConfig.t :=
  let c := http_setEmptyCredentialsIfNil c in
  let password := deref (HTTPFsConfig.Password c) in
  let key := deref (HTTPFsConfig.APIKey c) in
  _ ← check (HTTPFsConfig.Endpoint c =s "") "httpfs: endpoint cannot be empty";
  let c := c <| HTTPFsConfig.Endpoint ::= trim_right_slashes |> in
  match url_Parse (HTTPFsConfig.Endpoint c) with
  | None => Err (PlainError "httpfs: invalid endpoint")
  | Some (host, socketPath) =>
      _ ← check (negb (IsStringPrefixInSlice (HTTPFsConfig.Endpoint c) supportedEndpointSchema))
            "httpfs: invalid endpoint schema: http and https are supported";
      _ ← check ((host =s "unix") && negb (is_abs socketPath)) "httpfs: invalid unix domain socket path";
      _ ← check (negb (isEqualityCheckModeValid (HTTPFsConfig.EqualityCheckMode c))) "invalid equality_check_mode";
      _ ← check (bad_encrypted password) "httpfs: invalid encrypted password";
      _ ← check (bad_input password) "httpfs: invalid password";
      _ ← check (bad_encrypted key) "httpfs: invalid encrypted API key";
      _ ← check (bad_input key) "httpfs: invalid API key";
      Ok c
  end.

(* source: internal/vfs/httpfs.go HTTPFsConfig.ValidateAndEncryptCredentials *)
Definition http_ValidateAndEncryptCredentials (additionalData : string) (c : HTTPFsConfig.t) : res HTTPFsConfig.t :=
  c ← invalid "could not validate HTTP fs config" (http_validate c);
  password ← seal "HTTP fs password" additionalData (HTTPFsConfig.Password c);
  key ← seal "HTTP fs API key" additionalData (HTTPFsConfig.APIKey c);
  Ok (c <| HTTPFsConfig.Password := password |> <| HTTPFsConfig.APIKey := key |>).

(** * Filesystem *)

(** every backend's configuration at its zero value *)
Definition cleared (f : Filesystem.t) : Filesystem.t :=
  f <| Filesystem.OSConfig := OSFsConfig.zero |> <| Filesystem.S3Config := S3FsConfig.zero |>
    <| Filesystem.GCSConfig := GCSFsConfig.zero |> <| Filesystem.AzBlobConfig := AzBlobFsConfig.zero |>
    <| Filesystem.CryptConfig := CryptFsConfig.zero |> <| Filesystem.SFTPConfig := SFTPFsConfig.zero |>
    <| Filesystem.HTTPConfig := HTTPFsConfig.zero |>.

(* source: internal/vfs/filesystem.go Validate *)
Definition fs_Validate (additionalData : string) (f : Filesystem.t) : res Filesystem.t :=
  let p := Filesystem.Provider f in
  if p =? S3FilesystemProvider then
    c ← s3_ValidateAndEncryptCredentials additionalData (Filesystem.S3Config f);
    Ok ((cleared f) <| Filesystem.S3Config := c |>)
  else if p =? GCSFilesystemProvider then
    c ← gcs_ValidateAndEncryptCredentials additionalData (Filesystem.GCSConfig f);
    Ok ((cleared f) <| Filesystem.GCSConfig := c |>)
  else if p =? AzureBlobFilesystemProvider then
    c ← az_ValidateAndEncryptCredentials additionalData (Filesystem.AzBlobConfig f);
    Ok ((cleared f) <| Filesystem.AzBlobConfig := c |>)
  else if p =? CryptedFilesystemProvider then
    c ← crypt_ValidateAndEncryptCredentials additionalData (Filesystem.CryptConfig f);
    _ ← validateOSFsConfig (CryptFsConfig.ReadBufferSize c) (CryptFsConfig.WriteBufferSize c);
    Ok ((cleared f) <| Filesystem.CryptConfig := c |>)
  else if p =? SFTPFilesystemProvider then
    c ← sftp_ValidateAndEncryptCredentials additionalData (Filesystem.SFTPConfig f);
    Ok ((cleared f) <| Filesystem.SFTPConfig := c |>)
  else if p =? HTTPFilesystemProvider then
    c ← http_ValidateAndEncryptCredentials additionalData (Filesystem.HTTPConfig f);
    Ok ((cleared f) <| Filesystem.HTTPConfig := c |>)
  else
    let c := Filesystem.OSConfig f in
    let f := (cleared f) <| Filesystem.OSConfig := c |> <| Filesystem.Provider := LocalFilesystemProvider |> in
    _ ← validateOSFsConfig (OSFsConfig.ReadBufferSize c) (OSFsConfig.WriteBufferSize c);
    Ok f.
End validate.

(** * Comparison

    The secrets are compared after nil ones are replaced by empty ones. *)

Definition same_secret (a b : option Secret.t) : bool := secret_IsEqual (deref a) (deref b).

(* source: internal/vfs/vfs.go S3FsConfig.areMultipartFieldsEqual *)
Definition s3_areMultipartFieldsEqual (c other : S3FsConfig.t) : bool :=
  (S3FsConfig.UploadPartSize c =? S3FsConfig.UploadPartSize other) &&
  (S3FsConfig.UploadConcurrency c =? S3FsConfig.UploadConcurrency other) &&
  (S3FsConfig.DownloadConcurrency c =? S3FsConfig.DownloadConcurrency other) &&
  (S3FsConfig.DownloadPartSize c =? S3FsConfig.DownloadPartSize other) &&
  (S3FsConfig.DownloadPartMaxTime c =? S3FsConfig.DownloadPartMaxTime other) &&
  (S3FsConfig.UploadPartMaxTime c =? S3FsConfig.UploadPartMaxTime other).

(* source: internal/vfs/vfs.go S3FsConfig.isSecretEqual *)
Definition s3_isSecretEqual (c other : S3FsConfig.t) : bool :=
  same_secret (S3FsConfig.AccessSecret c) (S3FsConfig.AccessSecret other).

(* source: internal/vfs/vfs.go S3FsConfig.isEqual *)
Definition s3_isEqual (c other : S3FsConfig.t) : bool :=
  (S3FsConfig.Bucket c =s S3FsConfig.Bucket other) && (S3FsConfig.KeyPrefix c =s S3FsConfig.KeyPrefix other) &&
  (S3FsConfig.Region c =s S3FsConfig.Region other) && (S3FsConfig.AccessKey c =s S3FsConfig.AccessKey other) &&
  (S3FsConfig.RoleARN c =s S3FsConfig.RoleARN other) && (S3FsConfig.Endpoint c =s S3FsConfig.Endpoint other) &&
  (S3FsConfig.StorageClass c =s S3FsConfig.StorageClass other) && (S3FsConfig.ACL c =s S3FsConfig.ACL other) &&
  s3_areMultipartFieldsEqual c other &&
  Bool.eqb (S3FsConfig.ForcePathStyle c) (S3FsConfig.ForcePathStyle other) &&
  Bool.eqb (S3FsConfig.SkipTLSVerify c) (S3FsConfig.SkipTLSVerify other) && s3_isSecretEqual c other.

(* source: internal/vfs/vfs.go S3FsConfig.isSameResource *)
Definition s3_isSameResource (c other : S3FsConfig.t) : bool :=
  (S3FsConfig.Bucket c =s S3FsConfig.Bucket other) && (S3FsConfig.Endpoint c =s S3FsConfig.Endpoint other) &&
  (S3FsConfig.Region c =s S3FsConfig.Region other).

(* source: internal/vfs/vfs.go GCSFsConfig.isEqual *)
Definition gcs_isEqual (c other : GCSFsConfig.t) : bool :=
  (GCSFsConfig.Bucket c =s GCSFsConfig.Bucket other) && (GCSFsConfig.KeyPrefix c =s GCSFsConfig.KeyPrefix other) &&
  (GCSFsConfig.AutomaticCredentials c =? GCSFsConfig.AutomaticCredentials other) &&
  (GCSFsConfig.StorageClass c =s GCSFsConfig.StorageClass other) && (GCSFsConfig.ACL c =s GCSFsConfig.ACL other) &&
  (GCSFsConfig.UploadPartSize c =? GCSFsConfig.UploadPartSize other) &&
  (GCSFsConfig.UploadPartMaxTime c =? GCSFsConfig.UploadPartMaxTime other) &&
  same_secret (GCSFsConfig.Credentials c) (GCSFsConfig.Credentials other).

(* source: internal/vfs/vfs.go GCSFsConfig.isSameResource *)
Definition gcs_isSameResource (c other : GCSFsConfig.t) : bool := GCSFsConfig.Bucket c =s GCSFsConfig.Bucket other.

(* source: internal/vfs/vfs.go AzBlobFsConfig.isSecretEqual *)
Definition az_isSecretEqual (c other : AzBlobFsConfig.t) : bool :=
  same_secret (AzBlobFsConfig.AccountKey c) (AzBlobFsConfig.AccountKey other).

(** [IsEmpty] is called on the SAS URL, which must not be nil; an empty one is
    replaced by an empty one, so but for its mode nothing changes. *)
Definition az_sas (c : AzBlobFsConfig.t) : Secret.t :=
  let s := deref (AzBlobFsConfig.SASURL c) in if secret_IsEmpty s then NewEmptySecret else s.

(* source: internal/vfs/vfs.go AzBlobFsConfig.isEqual *)
Definition az_isEqual (c other : AzBlobFsConfig.t) : bool :=
  (AzBlobFsConfig.Container c =s AzBlobFsConfig.Container other) &&
  (AzBlobFsConfig.AccountName c =s AzBlobFsConfig.AccountName other) &&
  (AzBlobFsConfig.Endpoint c =s AzBlobFsConfig.Endpoint other) &&
  secret_IsEqual (az_sas c) (az_sas other) &&
  (AzBlobFsConfig.KeyPrefix c =s AzBlobFsConfig.KeyPrefix other) &&
  (AzBlobFsConfig.UploadPartSize c =? AzBlobFsConfig.UploadPartSize other) &&
  (AzBlobFsConfig.UploadConcurrency c =? AzBlobFsConfig.UploadConcurrency other) &&
  (AzBlobFsConfig.DownloadPartSize c =? AzBlobFsConfig.DownloadPartSize other) &&
  (AzBlobFsConfig.DownloadConcurrency c =? AzBlobFsConfig.DownloadConcurrency other) &&
  Bool.eqb (AzBlobFsConfig.UseEmulator c) (AzBlobFsConfig.UseEmulator other) &&
  (AzBlobFsConfig.AccessTier c =s AzBlobFsConfig.AccessTier other) && az_isSecretEqual c other.

(* source: internal/vfs/vfs.go AzBlobFsConfig.isSameResource *)
Definition az_isSameResource (c other : AzBlobFsConfig.t) : bool :=
  (AzBlobFsConfig.AccountName c =s AzBlobFsConfig.AccountName other) &&
  (AzBlobFsConfig.Endpoint c =s AzBlobFsConfig.Endpoint other) &&
  (Secret.Payload (deref (AzBlobFsConfig.SASURL c)) =s Secret.Payload (deref (AzBlobFsConfig.SASURL other))).

(* source: internal/vfs/vfs.go CryptFsConfig.isEqual *)
Definition crypt_isEqual (c other : CryptFsConfig.t) : bool :=
  same_secret (CryptFsConfig.Passphrase c) (CryptFsConfig.Passphrase other).

(* source: internal/vfs/vfs.go CryptFsConfig.isSameResource *)
Definition crypt_isSameResource (c other : CryptFsConfig.t) : bool :=
  Secret.Payload (deref (CryptFsConfig.Passphrase c)) =s Secret.Payload (deref (CryptFsConfig.Passphrase other)).

(* source: internal/vfs/sftpfs.go SFTPFsConfig.isEqual *)
Definition sftp_isEqual (c other : SFTPFsConfig.t) : bool :=
  (SFTPFsConfig.Endpoint c =s SFTPFsConfig.Endpoint other) &&
  (SFTPFsConfig.Username c =s SFTPFsConfig.Username other) &&
  (SFTPFsConfig.Prefix c =s SFTPFsConfig.Prefix other) &&
  Bool.eqb (SFTPFsConfig.DisableCouncurrentReads c) (SFTPFsConfig.DisableCouncurrentReads other) &&
  (SFTPFsConfig.BufferSize c =? SFTPFsConfig.BufferSize other) &&
  bool_decide (length (SFTPFsConfig.Fingerprints c) = length (SFTPFsConfig.Fingerprints other)) &&
  forallb (contains (SFTPFsConfig.Fingerprints other)) (SFTPFsConfig.Fingerprints c) &&
  same_secret (SFTPFsConfig.Password c) (SFTPFsConfig.Password other) &&
  same_secret (SFTPFsConfig.KeyPassphrase c) (SFTPFsConfig.KeyPassphrase other) &&
  same_secret (SFTPFsConfig.PrivateKey c) (SFTPFsConfig.PrivateKey other).

(* source: internal/vfs/sftpfs.go SFTPFsConfig.isSameResource *)
Definition sftp_isSameResource (c other : SFTPFsConfig.t) : bool :=
  if ((0 <? SFTPFsConfig.EqualityCheckMode c) || (0 <? SFTPFsConfig.EqualityCheckMode other)) &&
     negb (SFTPFsConfig.Username c =s SFTPFsConfig.Username other) then false
  else SFTPFsConfig.Endpoint c =s SFTPFsConfig.Endpoint other.

(* source: internal/vfs/httpfs.go HTTPFsConfig.isEqual *)
Definition http_isEqual (c other : HTTPFsConfig.t) : bool :=
  (HTTPFsConfig.Endpoint c =s HTTPFsConfig.Endpoint other) &&
  (HTTPFsConfig.Username c =s HTTPFsConfig.Username other) &&
  Bool.eqb (HTTPFsConfig.SkipTLSVerify c) (HTTPFsConfig.SkipTLSVerify other) &&
  same_secret (HTTPFsConfig.Password c) (HTTPFsConfig.Password other) &&
  same_secret (HTTPFsConfig.APIKey c) (HTTPFsConfig.APIKey other).

(* source: internal/vfs/httpfs.go HTTPFsConfig.isSameResource *)
Definition http_isSameResource (c other : HTTPFsConfig.t) : bool :=
  if ((0 <? HTTPFsConfig.EqualityCheckMode c) || (0 <? HTTPFsConfig.EqualityCheckMode other)) &&
     negb (HTTPFsConfig.Username c =s HTTPFsConfig.Username other) then false
  else HTTPFsConfig.Endpoint c =s HTTPFsConfig.Endpoint other.

(** the comparison of the backend the provider selects *)
Definition by_provider (p : Z) (s3 gcs az crypt sftp http : bool) : bool :=
  if p =? S3FilesystemProvider then s3 else if p =? GCSFilesystemProvider then gcs
  else if p =? AzureBlobFilesystemProvider then az else if p =? CryptedFilesystemProvider then crypt
  else if p =? SFTPFilesystemProvider then sftp else if p =? HTTPFilesystemProvider then http else true.

(* source: internal/vfs/filesystem.go IsEqual *)
Definition fs_IsEqual (f other : Filesystem.t) : bool :=
  if negb (Filesystem.Provider f =? Filesystem.Provider other) then false
  else by_provider (Filesystem.Provider f)
    (s3_isEqual (Filesystem.S3Config f) (Filesystem.S3Config other))
    (gcs_isEqual (Filesystem.GCSConfig f) (Filesystem.GCSConfig other))
    (az_isEqual (Filesystem.AzBlobConfig f) (Filesystem.AzBlobConfig other))
    (crypt_isEqual (Filesystem.CryptConfig f) (Filesystem.CryptConfig other))
    (sftp_isEqual (Filesystem.SFTPConfig f) (Filesystem.SFTPConfig other))
    (http_isEqual (Filesystem.HTTPConfig f) (Filesystem.HTTPConfig other)).

(* source: internal/vfs/filesystem.go IsSameResource *)
Definition fs_IsSameResource (f other : Filesystem.t) : bool :=
  if negb (Filesystem.Provider f =? Filesystem.Provider other) then false
  else by_provider (Filesystem.Provider f)
    (s3_isSameResource (Filesystem.S3Config f) (Filesystem.S3Config other))
    (gcs_isSameResource (Filesystem.GCSConfig f) (Filesystem.GCSConfig other))
    (az_isSameResource (Filesystem.AzBlobConfig f) (Filesystem.AzBlobConfig other))
    (crypt_isSameResource (Filesystem.CryptConfig f) (Filesystem.CryptConfig other))
    (sftp_isSameResource (Filesystem.SFTPConfig f) (Filesystem.SFTPConfig other))
    (http_isSameResource (Filesystem.HTTPConfig f) (Filesystem.HTTPConfig other)).

(** [strings.Contains] *)
Fixpoint has_substring (s p : string) : bool :=
  has_prefix s p || match s with String _ s' => has_substring s' p | EmptyString => false end.

(* source: internal/vfs/folder.go hasPathPlaceholder *)
Definition folder_hasPathPlaceholder (v : BaseVirtualFolder.t) : bool :=
  let f := BaseVirtualFolder.FsConfig v in
  let p := Filesystem.Provider f in
  let placeholder := "%username%" in
  if p =? S3FilesystemProvider then has_substring (S3FsConfig.KeyPrefix (Filesystem.S3Config f)) placeholder
  else if p =? GCSFilesystemProvider then has_substring (GCSFsConfig.KeyPrefix (Filesystem.GCSConfig f)) placeholder
  else if p =? AzureBlobFilesystemProvider then has_substring (AzBlobFsConfig.KeyPrefix (Filesystem.AzBlobConfig f)) placeholder
  else if p =? SFTPFilesystemProvider then has_substring (SFTPFsConfig.Prefix (Filesystem.SFTPConfig f)) placeholder
  else if (p =? LocalFilesystemProvider) || (p =? CryptedFilesystemProvider)
  then has_substring (BaseVirtualFolder.MappedPath v) placeholder
  else false.

(** * What validation guarantees *)

(** The secrets a configuration holds. *)
Definition fs_secrets (f : Filesystem.t) : list (option Secret.t) :=
  [S3FsConfig.AccessSecret (Filesystem.S3Config f); GCSFsConfig.Credentials (Filesystem.GCSConfig f);
   AzBlobFsConfig.AccountKey (Filesystem.AzBlobConfig f); AzBlobFsConfig.SASURL (Filesystem.AzBlobConfig f);
   CryptFsConfig.Passphrase (Filesystem.CryptConfig f); SFTPFsConfig.Password (Filesystem.SFTPConfig f);
   SFTPFsConfig.PrivateKey (Filesystem.SFTPConfig f); SFTPFsConfig.KeyPassphrase (Filesystem.SFTPConfig f);
   HTTPFsConfig.Password (Filesystem.HTTPConfig f); HTTPFsConfig.APIKey (Filesystem.HTTPConfig f)].
Definition not_plain (o : option Secret.t) : Prop := secret_IsPlain (deref o) = false.

(** the configuration with that of its provider only *)
Definition only_provider (f : Filesystem.t) : Filesystem.t :=
  let p := Filesystem.Provider f in
  let z := cleared f in
  if p =? S3FilesystemProvider then z <| Filesystem.S3Config := Filesystem.S3Config f |>
  else if p =? GCSFilesystemProvider then z <| Filesystem.GCSConfig := Filesystem.GCSConfig f |>
  else if p =? AzureBlobFilesystemProvider then z <| Filesystem.AzBlobConfig := Filesystem.AzBlobConfig f |>
  else if p =? CryptedFilesystemProvider then z <| Filesystem.CryptConfig := Filesystem.CryptConfig f |>
  else if p =? SFTPFilesystemProvider then z <| Filesystem.SFTPConfig := Filesystem.SFTPConfig f |>
  else if p =? HTTPFilesystemProvider then z <| Filesystem.HTTPConfig := Filesystem.HTTPConfig f |>
  else z <| Filesystem.OSConfig := Filesystem.OSConfig f |>.

Section facts.
Context {K : Kms}.
Variable url_Parse : string → option (string * string).

Lemma encrypt_not_plain s s' : secret_Encrypt s = Ok s' → secret_IsPlain s' = false.
Proof.
  unfold secret_Encrypt, builtin_Encrypt, local_Encrypt. destruct kms_builtin.
  - destruct (_ =s ""); [done|]. destruct (_ =s _); [|done]. intros H. inv_res H. destruct a. by injection H as <-.
  - destruct (negb _); [done|]. destruct (_ =s _); [done|]. intros H. inv_res H. destruct a. by injection H as <-.
Qed.

Lemma seal_not_plain what data o o' : seal what data o = Ok o' → not_plain o'.
Proof.
  unfold seal, not_plain. destruct (secret_IsPlain (deref o)) eqn:Hp; [|by intros [= <-]].
  destruct (secret_Encrypt _) as [s'|e] eqn:He; [|done]. intros [= <-]. by apply encrypt_not_plain in He.
Qed.

Lemma s3_sealed data c c' : s3_ValidateAndEncryptCredentials data c = Ok c' → not_plain (S3FsConfig.AccessSecret c').
Proof. unfold s3_ValidateAndEncryptCredentials. intros H. inv_res H. inv_res H. injection H as <-. by eapply seal_not_plain. Qed.
Lemma gcs_sealed data c c' : gcs_ValidateAndEncryptCredentials data c = Ok c' → not_plain (GCSFsConfig.Credentials c').
Proof. unfold gcs_ValidateAndEncryptCredentials. intros H. inv_res H. inv_res H. injection H as <-. by eapply seal_not_plain. Qed.
Lemma az_sealed data c c' : az_ValidateAndEncryptCredentials url_Parse data c = Ok c' →
  not_plain (AzBlobFsConfig.AccountKey c') ∧ not_plain (AzBlobFsConfig.SASURL c').
Proof.
  unfold az_ValidateAndEncryptCredentials. intros H. do 3 inv_res H. injection H as <-. split; by eapply seal_not_plain.
Qed.
Lemma crypt_sealed data c c' : crypt_ValidateAndEncryptCredentials data c = Ok c' → not_plain (CryptFsConfig.Passphrase c').
Proof. unfold crypt_ValidateAndEncryptCredentials. intros H. do 2 inv_res H. injection H as <-. by eapply seal_not_plain. Qed.
Lemma sftp_sealed data c c' : sftp_ValidateAndEncryptCredentials data c = Ok c' →
  not_plain (SFTPFsConfig.Password c') ∧ not_plain (SFTPFsConfig.PrivateKey c') ∧ not_plain (SFTPFsConfig.KeyPassphrase c').
Proof.
  unfold sftp_ValidateAndEncryptCredentials. intros H. do 4 inv_res H. injection H as <-.
  split_and!; by eapply seal_not_plain.
Qed.
Lemma http_sealed data c c' : http_ValidateAndEncryptCredentials url_Parse data c = Ok c' →
  not_plain (HTTPFsConfig.Password c') ∧ not_plain (HTTPFsConfig.APIKey c').
Proof.
  unfold http_ValidateAndEncryptCredentials. intros H. do 3 inv_res H. injection H as <-. split; by eapply seal_not_plain.
Qed.

(** The last conjunct, secret by secret; all of them, for the provider of [Hp]. *)
Ltac each_secret :=
  let o := fresh "o" in let Ho := fresh "Ho" in
  intros o Ho; repeat (apply elem_of_cons in Ho as [->|Ho]; [done|]); by apply elem_of_nil in Ho.
Ltac by_secrets Hp := cbn; rewrite Hp; split_and!; [done|done|done|done|each_secret].

Lemma fs_Validate_ok data f f' : fs_Validate url_Parse data f = Ok f' →
  f' = only_provider f' ∧ 0 <= Filesystem.Provider f' <= 6 ∧
  (1 <= Filesystem.Provider f <= 6 → Filesystem.Provider f' = Filesystem.Provider f) ∧
  (∀ o, o ∈ fs_secrets f' → not_plain o).
Proof.
  unfold fs_Validate, only_provider.
  destruct (Z.eqb_spec (Filesystem.Provider f) S3FilesystemProvider) as [Hp|H1];
    [|destruct (Z.eqb_spec (Filesystem.Provider f) GCSFilesystemProvider) as [Hp|H2];
    [|destruct (Z.eqb_spec (Filesystem.Provider f) AzureBlobFilesystemProvider) as [Hp|H3];
    [|destruct (Z.eqb_spec (Filesystem.Provider f) CryptedFilesystemProvider) as [Hp|H4];
    [|destruct (Z.eqb_spec (Filesystem.Provider f) SFTPFilesystemProvider) as [Hp|H5];
    [|destruct (Z.eqb_spec (Filesystem.Provider f) HTTPFilesystemProvider) as [Hp|H6]]]]]]; intros H; inv_res H.
  - injection H as <-. apply s3_sealed in E. by_secrets Hp.
  - injection H as <-. apply gcs_sealed in E. by_secrets Hp.
  - injection H as <-. apply az_sealed in E as [? ?]. by_secrets Hp.
  - inv_res H. injection H as <-. apply crypt_sealed in E. by_secrets Hp.
  - injection H as <-. apply sftp_sealed in E as (? & ? & ?). by_secrets Hp.
  - injection H as <-. apply http_sealed in E as [? ?]. by_secrets Hp.
  - injection H as <-. cbn. split_and!; [done|done|done| |].
    + unfold S3FilesystemProvider, GCSFilesystemProvider, AzureBlobFilesystemProvider, CryptedFilesystemProvider,
        SFTPFilesystemProvider, HTTPFilesystemProvider in *. lia.
    + each_secret.
Qed.

(** After a successful Filesystem.Validate the provider is a known one
    (the local one if it was not), every backend's configuration but that of the
    provider is at its zero value, and no secret is in plain text. *)
Theorem fs_Validate_sound data f f' : fs_Validate url_Parse data f = Ok f' →
  f' = only_provider f' ∧ 0 <= Filesystem.Provider f' <= 6 ∧
  (1 <= Filesystem.Provider f <= 6 → Filesystem.Provider f' = Filesystem.Provider f) ∧
  (∀ o, o ∈ fs_secrets f' → not_plain o).
Proof. apply fs_Validate_ok. Qed.
End facts.

(** The comparison of SFTP configurations is not symmetric: of two lists of
    fingerprints of the same length the first may repeat one of the second. *)
Theorem sftp_isEqual_asymmetric :
  let c := SFTPFsConfig.zero <| SFTPFsConfig.Fingerprints := ["SHA256:a"; "SHA256:a"] |> in
  let other := SFTPFsConfig.zero <| SFTPFsConfig.Fingerprints := ["SHA256:a"; "SHA256:b"] |> in
  sftp_isEqual c other = true ∧ sftp_isEqual other c = false.
Proof. by vm_compute. Qed.

(** The equality check mode: every value is accepted as valid; with the
    default mode 0 two SFTP (or HTTP) configurations are the same resource
    exactly when their endpoints match, whatever the user names; the user
    names count when one of the modes is positive. *)
Theorem equality_check_mode :
  (∀ mode, isEqualityCheckModeValid mode = true) ∧
  (∀ c other, SFTPFsConfig.EqualityCheckMode c = 0 → SFTPFsConfig.EqualityCheckMode other = 0 →
     sftp_isSameResource c other = true ↔ SFTPFsConfig.Endpoint c = SFTPFsConfig.Endpoint other) ∧
  (∀ c other, 0 < SFTPFsConfig.EqualityCheckMode c →
     sftp_isSameResource c other = true ↔
       SFTPFsConfig.Username c = SFTPFsConfig.Username other ∧ SFTPFsConfig.Endpoint c = SFTPFsConfig.Endpoint other) ∧
  (∀ c other, HTTPFsConfig.EqualityCheckMode c = 0 → HTTPFsConfig.EqualityCheckMode other = 0 →
     http_isSameResource c other = true ↔ HTTPFsConfig.Endpoint c = HTTPFsConfig.Endpoint other) ∧
  (∀ c other, 0 < HTTPFsConfig.EqualityCheckMode c →
     http_isSameResource c other = true ↔
       HTTPFsConfig.Username c = HTTPFsConfig.Username other ∧ HTTPFsConfig.Endpoint c = HTTPFsConfig.Endpoint other).
Proof.
  split_and!.
  - intros mode. unfold isEqualityCheckModeValid. lia.
  - intros c other H1 H2. unfold sftp_isSameResource. rewrite H1, H2. simpl. apply String.eqb_eq.
  - intros c other H. unfold sftp_isSameResource. rewrite (proj2 (Z.ltb_lt _ _) H). simpl.
    destruct (String.eqb_spec (SFTPFsConfig.Username c) (SFTPFsConfig.Username other)) as [->|Hn]; simpl; [|by intuition].
    rewrite String.eqb_eq. tauto.
  - intros c other H1 H2. unfold http_isSameResource. rewrite H1, H2. simpl. apply String.eqb_eq.
  - intros c other H. unfold http_isSameResource. rewrite (proj2 (Z.ltb_lt _ _) H). simpl.
    destruct (String.eqb_spec (HTTPFsConfig.Username c) (HTTPFsConfig.Username other)) as [->|Hn]; simpl; [|by intuition].
    rewrite String.eqb_eq. tauto.
Qed.

(** * Witness *)

(** A cipher for the examples: the payload reversed, under a fixed key. *)
Definition sample_cipher (payload data : string) : res (string * string) := Ok ("00", string_rev payload).
Definition sample_kms : Kms := {|
  kms_builtin := false; kms_masterKey := ""; kms_plugins := []; kms_box := sample_cipher; kms_gcm := sample_cipher |}.
Definition plain (payload : string) : option Secret.t :=
  Some (NewEmptySecret <| Secret.Status := SecretStatusPlain |> <| Secret.Payload := payload |>).
Definition any_url (s : string) : option (string * string) := Some ("", "").

(** a configuration for SFTP with leftovers of S3 *)
Definition sample_fs : Filesystem.t :=
  Filesystem.zero <| Filesystem.Provider := SFTPFilesystemProvider |>
    <| Filesystem.SFTPConfig := SFTPFsConfig.zero <| SFTPFsConfig.Endpoint := "host" |> <| SFTPFsConfig.Username := "u" |>
                                 <| SFTPFsConfig.Password := plain "pwd" |> |>
    <| Filesystem.S3Config := S3FsConfig.zero <| S3FsConfig.AccessSecret := plain "old" |> |>.

Definition validated_fs : Filesystem.t :=
  match @fs_Validate sample_kms any_url "alice" sample_fs with Ok f => f | Err _ => Filesystem.zero end.
Lemma fs_Validate_sound_witness : @fs_Validate sample_kms any_url "alice" sample_fs = Ok validated_fs ∧
  validated_fs = only_provider validated_fs ∧ SFTPFsConfig.Endpoint (Filesystem.SFTPConfig validated_fs) = "host:22".
Proof.
  assert (@fs_Validate sample_kms any_url "alice" sample_fs = Ok validated_fs) as H by (by vm_compute).
  split; [exact H|]. split; [exact (proj1 (@fs_Validate_sound sample_kms any_url "alice" sample_fs _ H))|]. by vm_compute.
Defined.
