(* ===== verification/Secrets.v ===== *)
(** Decryption of secrets (internal/kms/local.go, builtin.go and
    Secret.TryDecrypt of kms.go) and the round trip through a store.

    The ciphers, as their inverses, are third-party code: an interface, with
    the law that opening what was sealed with the same data gives the text
    back.  The hexadecimal and base64 encodings around them are part of it. *)
From Stdlib Require Import Ascii.
From S2P Require Import Prelude GoPath Util Net FsConfig FsValidate.
Open Scope Z_scope.

Class KmsOpen `{Kms} := {
  box_Open : string → string → string → Z → res string;   (* key, payload, additional data, mode *)
  gcm_Open : string → string → string → res string;
  plugin_Decrypt : Secret.t → res Secret.t;
}.

Class KmsLaws `{KmsOpen} : Prop := {
  box_law p d k c : kms_box p d = Ok (k, c) → box_Open k c d local_getEncryptionMode = Ok p;
  gcm_law p d k c : kms_gcm p d = Ok (k, c) → gcm_Open k c d = Ok p;
  (* the ciphertext has a nonce, so it is not empty *)
  box_payload p d k c : kms_box p d = Ok (k, c) → c ≠ "";
  gcm_payload p d k c : kms_gcm p d = Ok (k, c) → c ≠ "";
}.

Section decrypt.
Context {K : Kms} {O : KmsOpen}.

(** a secret after a decryption *)
Definition opened (s : Secret.t) (plaintext : string) : Secret.t :=
  s <| Secret.Status := SecretStatusPlain |> <| Secret.Payload := plaintext |> <| Secret.Key := "" |>
    <| Secret.AdditionalData := "" |>.

(* source: internal/kms/local.go Decrypt *)
Definition local_Decrypt (s : Secret.t) : res Secret.t :=
  if negb (Secret.Status s =s SecretStatusSecretBox) then Err (PlainError "wrong secret status")
  else plaintext ← box_Open (Secret.Key s) (Secret.Payload s) (Secret.AdditionalData s) (Secret.Mode s);
       Ok ((opened s plaintext) <| Secret.Mode := 0 |>).

(* source: internal/kms/builtin.go Decrypt *)
Definition builtin_Decrypt (s : Secret.t) : res Secret.t :=
  if Secret.Status s =s SecretStatusAES256GCM then
    plaintext ← gcm_Open (Secret.Key s) (Secret.Payload s) (Secret.AdditionalData s);
    Ok (opened s plaintext)
  else Err (PlainError "wrong secret status").

(** [s.provider.Decrypt()]: the provider registered for the status *)
(* source: internal/kms/kms.go Secret.Decrypt *)
Definition secret_Decrypt (s : Secret.t) : res Secret.t :=
  if Secret.Status s =s SecretStatusSecretBox then local_Decrypt s
  else if Secret.Status s =s SecretStatusAES256GCM then builtin_Decrypt s
  else if secret_IsEncrypted s then plugin_Decrypt s
  else Err (PlainError "wrong secret status").

(* source: internal/kms/kms.go TryDecrypt *)
Definition secret_TryDecrypt (s : Secret.t) : res Secret.t :=
  if secret_IsEncrypted s then secret_Decrypt s else Ok s.

Lemma secret_Encrypt_inv `{!KmsLaws} s s' : secret_Encrypt s = Ok s' →
  Secret.Status s = SecretStatusPlain ∧ Secret.Payload s ≠ "" ∧
  ∃ k c, s' = s <| Secret.Key := k |> <| Secret.Payload := c |>
      <| Secret.Status := if kms_builtin then SecretStatusAES256GCM else SecretStatusSecretBox |>
      <| Secret.Mode := if kms_builtin then Secret.Mode s else local_getEncryptionMode |> ∧
    (if kms_builtin then kms_gcm else kms_box) (Secret.Payload s) (Secret.AdditionalData s) = Ok (k, c).
Proof.
  unfold secret_Encrypt, builtin_Encrypt, local_Encrypt. destruct kms_builtin;
    destruct (String.eqb_spec (Secret.Status s) SecretStatusPlain) as [Hp|]; cbn [negb];
    destruct (String.eqb_spec (Secret.Payload s) "") as [|Hne]; try done.
  - intros Hs. inv_res Hs. destruct a as [k c]. injection Hs as <-. split_and!; [done|done|]. exists k, c. split; [by destruct s|done].
  - intros Hs. inv_res Hs. destruct a as [k c]. injection Hs as <-. split_and!; [done|done|]. by exists k, c.
Qed.

(** A secret that was encrypted is decrypted to its text, with either
    provider and with or without a master key: the status is plain again, the
    key and the additional data are cleared, and encrypting left neither the
    plain status nor an empty payload in the store. *)
Theorem secret_roundtrip `{!KmsLaws} s s' : secret_Encrypt s = Ok s' →
  secret_IsPlain s' = false ∧ secret_IsEncrypted s' = true ∧ Secret.Payload s' ≠ "" ∧
  ∃ t, secret_TryDecrypt s' = Ok t ∧ Secret.Status t = SecretStatusPlain ∧ Secret.Payload t = Secret.Payload s ∧
    Secret.Key t = "" ∧ Secret.AdditionalData t = "".
Proof.
  intros Hs. apply secret_Encrypt_inv in Hs as (_ & Hne & k & c & -> & Hc).
  unfold secret_TryDecrypt, secret_IsEncrypted, secret_IsPlain, secret_Decrypt, local_Decrypt, builtin_Decrypt.
  destruct kms_builtin; cbn [Secret.Status Secret.Payload Secret.Key Secret.AdditionalData Secret.Mode setter].
  - pose proof (gcm_law _ _ _ _ Hc) as Hl. pose proof (gcm_payload _ _ _ _ Hc). split_and!; [done|done|done|].
    cbn -[gcm_Open]. rewrite Hl. eexists. split; [done|]. done.
  - pose proof (box_law _ _ _ _ Hc) as Hl. pose proof (box_payload _ _ _ _ Hc). split_and!; [done|done|done|].
    cbn -[box_Open local_getEncryptionMode]. rewrite Hl. eexists. split; [done|]. done.
Qed.
End decrypt.

(** ** A toy cipher *)

Definition toy_kms (builtin : bool) : Kms := {|
  kms_builtin := builtin; kms_masterKey := "master"; kms_plugins := [];
  kms_box := fun p d => Ok ("k", "c" +:+ string_rev p); kms_gcm := fun p d => Ok ("k", "c" +:+ string_rev p) |}.
Definition toy_open (c : string) : res string := Ok (string_rev (TrimPrefix c "c")).
Definition toy_kms_open (builtin : bool) : @KmsOpen (toy_kms builtin) :=
  {| box_Open := fun _ c _ _ => toy_open c; gcm_Open := fun _ c _ => toy_open c; plugin_Decrypt := Ok |}.

Lemma string_rev_involutive s : string_rev (string_rev s) = s.
Proof.
  induction s as [|c s IH]; [done|]. rewrite string_rev_cons, string_rev_app, IH. done.
Qed.
Lemma toy_laws builtin : @KmsLaws (toy_kms builtin) (toy_kms_open builtin).
Proof.
  split; intros p d k c [= <- <-]; [| |done|done]; cbn; unfold toy_open; by rewrite TrimPrefix_app, string_rev_involutive.
Qed.

Lemma secret_roundtrip_witness :
  let s := Secret.zero <| Secret.Status := SecretStatusPlain |> <| Secret.Payload := "pwd" |> <| Secret.AdditionalData := "alice" |> in
  ∃ s', @secret_Encrypt (toy_kms false) s = Ok s' ∧ Secret.Payload s' = "cdwp" ∧
    ∃ t, @secret_TryDecrypt (toy_kms false) (toy_kms_open false) s' = Ok t ∧ Secret.Payload t = "pwd".
Proof.
  intros s. eexists. split; [vm_compute; reflexivity|]. split; [reflexivity|].
  destruct (@secret_roundtrip (toy_kms false) (toy_kms_open false) (toy_laws false) s _ eq_refl) as (_ & _ & _ & t & H1 & _ & H2 & _).
  exists t. exact (conj H1 H2).
Defined.
