(* ===== verification/Entities.v ===== *)
(** The objects of the data provider: users, groups, roles, admins, API keys,
    shares, event actions and rules, IP list entries and configurations, with
    the functions that copy an object ([getACopy]), prepare it for rendering
    and fill in its missing secrets.

    The embedded structs of the sdk (third-party code) are listed with the
    fields the source copies.  Left out: [User.fsCache] and
    [User.OIDCCustomFields], which no modelled code reads.  A [getACopy] is
    written as an update of the fields it does not copy as they are; slices
    and maps have value semantics, a nil one is the empty one.  Fields called
    [Type] in the source are [Type_] here. *)
From stdpp Require Import pretty.
From S2P Require Import Prelude FsConfig.
Open Scope Z_scope.

Module PatternsFilter.
(* third-party sdk.PatternsFilter *)
Record t := mk {
  Path : string;
  AllowedPatterns : list string;
  DeniedPatterns : list string;
  DenyPolicy : Z;
}.
#[global] Instance eta : Settable t := {| settable := fun x =>
  mk (Path x) (AllowedPatterns x) (DeniedPatterns x) (DenyPolicy x) |}.
(* the zero value of the Go type *)
Definition zero : t :=
  mk "" [] [] 0.
End PatternsFilter.

Module BandwidthLimit.
(* third-party sdk.BandwidthLimit *)
Record t := mk {
  Sources : list string;
  UploadBandwidth : Z;
  DownloadBandwidth : Z;
}.
#[global] Instance eta : Settable t := {| settable := fun x =>
  mk (Sources x) (UploadBandwidth x) (DownloadBandwidth x) |}.
(* the zero value of the Go type *)
Definition zero : t :=
  mk [] 0 0.
End BandwidthLimit.

Module BaseUserFilters.
(* third-party sdk.BaseUserFilters, the fields copyBaseUserFilters copies; the three sdk.HooksFilter flags are inlined *)
Record t := mk {
  AllowedIP : list string;
  DeniedIP : list string;
  DeniedLoginMethods : list string;
  DeniedProtocols : list string;
  FilePatterns : list PatternsFilter.t;
  MaxUploadFileSize : Z;
  TLSUsername : string;
  TLSCerts : list string;
  ExternalAuthDisabled : bool;
  PreLoginDisabled : bool;
  CheckPasswordDisabled : bool;
  DisableFsChecks : bool;
  WebClient : list string;
  AllowAPIKeyAuth : bool;
  UserType : string;
  BandwidthLimits : list BandwidthLimit.t;
  ExternalAuthCacheTime : Z;
  StartDirectory : string;
  TwoFactorAuthProtocols : list string;
  FTPSecurity : Z;
  IsAnonymous : bool;
  DefaultSharesExpiration : Z;
  MaxSharesExpiration : Z;
  PasswordExpiration : Z;
  PasswordStrength : Z;
}.
#[global] Instance eta : Settable t := {| settable := fun x =>
  mk (AllowedIP x) (DeniedIP x) (DeniedLoginMethods x) (DeniedProtocols x) (FilePatterns x) (MaxUploadFileSize x) (TLSUsername x) (TLSCerts x) (ExternalAuthDisabled x) (PreLoginDisabled x) (CheckPasswordDisabled x) (DisableFsChecks x) (WebClient x) (AllowAPIKeyAuth x) (UserType x) (BandwidthLimits x) (ExternalAuthCacheTime x) (StartDirectory x) (TwoFactorAuthProtocols x) (FTPSecurity x) (IsAnonymous x) (DefaultSharesExpiration x) (MaxSharesExpiration x) (PasswordExpiration x) (PasswordStrength x) |}.
(* the zero value of the Go type *)
Definition zero : t :=
  mk [] [] [] [] [] 0 "" [] false false false false [] false "" [] 0 "" [] 0 false 0 0 0 0.
End BaseUserFilters.

Module RecoveryCode.
(* source: internal/dataprovider/user.go RecoveryCode *)
Record t := mk {
  Secret : option Secret.t;
  Used : bool;
}.
#[global] Instance eta : Settable t := {| settable := fun x =>
  mk (Secret x) (Used x) |}.
(* the zero value of the Go type *)
Definition zero : t :=
  mk None false.
End RecoveryCode.

Module UserTOTPConfig.
(* source: internal/dataprovider/user.go UserTOTPConfig *)
Record t := mk {
  Enabled : bool;
  ConfigName : string;
  Secret : option Secret.t;
  Protocols : list string;
}.
#[global] Instance eta : Settable t := {| settable := fun x =>
  mk (Enabled x) (ConfigName x) (Secret x) (Protocols x) |}.
(* the zero value of the Go type *)
Definition zero : t :=
  mk false "" None [].
End UserTOTPConfig.

Module UserFilters.
(* source: internal/dataprovider/user.go UserFilters *)
Record t := mk {
  Base : BaseUserFilters.t;
  RequirePasswordChange : bool;
  TOTPConfig : UserTOTPConfig.t;
  RecoveryCodes : list RecoveryCode.t;
}.
#[global] Instance eta : Settable t := {| settable := fun x =>
  mk (Base x) (RequirePasswordChange x) (TOTPConfig x) (RecoveryCodes x) |}.
(* the zero value of the Go type *)
Definition zero : t :=
  mk BaseUserFilters.zero false UserTOTPConfig.zero [].
End UserFilters.

Module GroupMapping.
(* third-party sdk.GroupMapping *)
Record t := mk {
  Name : string;
  Type_ : Z;
}.
#[global] Instance eta : Settable t := {| settable := fun x =>
  mk (Name x) (Type_ x) |}.
(* the zero value of the Go type *)
Definition zero : t :=
  mk "" 0.
End GroupMapping.

Module User.
(* source: internal/dataprovider/user.go User *)
Record t := mk {
  ID : Z;
  Status : Z;
  Username : string;
  Email : string;
  ExpirationDate : Z;
  Password : string;
  PublicKeys : list string;
  HasPassword : bool;
  HomeDir : string;
  UID : Z;
  GID : Z;
  MaxSessions : Z;
  QuotaSize : Z;
  QuotaFiles : Z;
  Permissions : gmap string (list string);
  UsedQuotaSize : Z;
  UsedQuotaFiles : Z;
  LastQuotaUpdate : Z;
  UploadBandwidth : Z;
  DownloadBandwidth : Z;
  LastLogin : Z;
  FirstDownload : Z;
  FirstUpload : Z;
  LastPasswordChange : Z;
  AdditionalInfo : string;
  Description : string;
  CreatedAt : Z;
  UpdatedAt : Z;
  UploadDataTransfer : Z;
  DownloadDataTransfer : Z;
  TotalDataTransfer : Z;
  UsedUploadDataTransfer : Z;
  UsedDownloadDataTransfer : Z;
  Role : string;
  Filters : UserFilters.t;
  VirtualFolders : list VirtualFolder.t;
  FsConfig : Filesystem.t;
  Groups : list GroupMapping.t;
  groupSettingsApplied : bool;
  DeletedAt : Z;
}.
#[global] Instance eta : Settable t := {| settable := fun x =>
  mk (ID x) (Status x) (Username x) (Email x) (ExpirationDate x) (Password x) (PublicKeys x) (HasPassword x) (HomeDir x) (UID x) (GID x) (MaxSessions x) (QuotaSize x) (QuotaFiles x) (Permissions x) (UsedQuotaSize x) (UsedQuotaFiles x) (LastQuotaUpdate x) (UploadBandwidth x) (DownloadBandwidth x) (LastLogin x) (FirstDownload x) (FirstUpload x) (LastPasswordChange x) (AdditionalInfo x) (Description x) (CreatedAt x) (UpdatedAt x) (UploadDataTransfer x) (DownloadDataTransfer x) (TotalDataTransfer x) (UsedUploadDataTransfer x) (UsedDownloadDataTransfer x) (Role x) (Filters x) (VirtualFolders x) (FsConfig x) (Groups x) (groupSettingsApplied x) (DeletedAt x) |}.
(* the zero value of the Go type *)
Definition zero : t :=
  mk 0 0 "" "" 0 "" [] false "" 0 0 0 0 0 ∅ 0 0 0 0 0 0 0 0 0 "" "" 0 0 0 0 0 0 0 "" UserFilters.zero [] Filesystem.zero [] false 0.
End User.

Module GroupUserSettings.
(* source: internal/dataprovider/group.go GroupUserSettings *)
Record t := mk {
  HomeDir : string;
  MaxSessions : Z;
  QuotaSize : Z;
  QuotaFiles : Z;
  Permissions : gmap string (list string);
  UploadBandwidth : Z;
  DownloadBandwidth : Z;
  UploadDataTransfer : Z;
  DownloadDataTransfer : Z;
  TotalDataTransfer : Z;
  ExpiresIn : Z;
  Filters : BaseUserFilters.t;
  FsConfig : Filesystem.t;
}.
#[global] Instance eta : Settable t := {| settable := fun x =>
  mk (HomeDir x) (MaxSessions x) (QuotaSize x) (QuotaFiles x) (Permissions x) (UploadBandwidth x) (DownloadBandwidth x) (UploadDataTransfer x) (DownloadDataTransfer x) (TotalDataTransfer x) (ExpiresIn x) (Filters x) (FsConfig x) |}.
(* the zero value of the Go type *)
Definition zero : t :=
  mk "" 0 0 0 ∅ 0 0 0 0 0 0 BaseUserFilters.zero Filesystem.zero.
End GroupUserSettings.

Module Group.
(* source: internal/dataprovider/group.go Group *)
Record t := mk {
  ID : Z;
  Name : string;
  Description : string;
  CreatedAt : Z;
  UpdatedAt : Z;
  Users : list string;
  Admins : list string;
  UserSettings : GroupUserSettings.t;
  VirtualFolders : list VirtualFolder.t;
}.
#[global] Instance eta : Settable t := {| settable := fun x =>
  mk (ID x) (Name x) (Description x) (CreatedAt x) (UpdatedAt x) (Users x) (Admins x) (UserSettings x) (VirtualFolders x) |}.
(* the zero value of the Go type *)
Definition zero : t :=
  mk 0 "" "" 0 0 [] [] GroupUserSettings.zero [].
End Group.

Module Role.
(* source: internal/dataprovider/role.go Role *)
Record t := mk {
  ID : Z;
  Name : string;
  Description : string;
  CreatedAt : Z;
  UpdatedAt : Z;
  Admins : list string;
  Users : list string;
}.
#[global] Instance eta : Settable t := {| settable := fun x =>
  mk (ID x) (Name x) (Description x) (CreatedAt x) (UpdatedAt x) (Admins x) (Users x) |}.
(* the zero value of the Go type *)
Definition zero : t :=
  mk 0 "" "" 0 0 [] [].
End Role.

Module AdminTOTPConfig.
(* source: internal/dataprovider/admin.go AdminTOTPConfig *)
Record t := mk {
  Enabled : bool;
  ConfigName : string;
  Secret : option Secret.t;
}.
#[global] Instance eta : Settable t := {| settable := fun x =>
  mk (Enabled x) (ConfigName x) (Secret x) |}.
(* the zero value of the Go type *)
Definition zero : t :=
  mk false "" None.
End AdminTOTPConfig.

Module AdminPreferences.
(* source: internal/dataprovider/admin.go AdminPreferences *)
Record t := mk {
  HideUserPageSections : Z;
  DefaultUsersExpiration : Z;
}.
#[global] Instance eta : Settable t := {| settable := fun x =>
  mk (HideUserPageSections x) (DefaultUsersExpiration x) |}.
(* the zero value of the Go type *)
Definition zero : t :=
  mk 0 0.
End AdminPreferences.

Module AdminFilters.
(* source: internal/dataprovider/admin.go AdminFilters *)
Record t := mk {
  AllowList : list string;
  AllowAPIKeyAuth : bool;
  TOTPConfig : AdminTOTPConfig.t;
  RecoveryCodes : list RecoveryCode.t;
  Preferences : AdminPreferences.t;
}.
#[global] Instance eta : Settable t := {| settable := fun x =>
  mk (AllowList x) (AllowAPIKeyAuth x) (TOTPConfig x) (RecoveryCodes x) (Preferences x) |}.
(* the zero value of the Go type *)
Definition zero : t :=
  mk [] false AdminTOTPConfig.zero [] AdminPreferences.zero.
End AdminFilters.

Module AdminGroupMapping.
(* source: internal/dataprovider/admin.go AdminGroupMapping *)
Record t := mk {
  Name : string;
  AddToUsersAs : Z;
}.
#[global] Instance eta : Settable t := {| settable := fun x =>
  mk (Name x) (AddToUsersAs x) |}.
(* the zero value of the Go type *)
Definition zero : t :=
  mk "" 0.
End AdminGroupMapping.

Module Admin.
(* source: internal/dataprovider/admin.go Admin *)
Record t := mk {
  ID : Z;
  Status : Z;
  Username : string;
  Password : string;
  Email : string;
  Permissions : list string;
  Filters : AdminFilters.t;
  Description : string;
  AdditionalInfo : string;
  Groups : list AdminGroupMapping.t;
  CreatedAt : Z;
  UpdatedAt : Z;
  LastLogin : Z;
  Role : string;
}.
#[global] Instance eta : Settable t := {| settable := fun x =>
  mk (ID x) (Status x) (Username x) (Password x) (Email x) (Permissions x) (Filters x) (Description x) (AdditionalInfo x) (Groups x) (CreatedAt x) (UpdatedAt x) (LastLogin x) (Role x) |}.
(* the zero value of the Go type *)
Definition zero : t :=
  mk 0 0 "" "" "" [] AdminFilters.zero "" "" [] 0 0 0 "".
End Admin.

Module APIKey.
(* source: internal/dataprovider/apikey.go APIKey *)
Record t := mk {
  ID : Z;
  KeyID : string;
  Name : string;
  Key : string;
  Scope : Z;
  CreatedAt : Z;
  UpdatedAt : Z;
  LastUseAt : Z;
  ExpiresAt : Z;
  Description : string;
  User : string;
  Admin : string;
  userID : Z;
  adminID : Z;
  plainKey : string;
}.
#[global] Instance eta : Settable t := {| settable := fun x =>
  mk (ID x) (KeyID x) (Name x) (Key x) (Scope x) (CreatedAt x) (UpdatedAt x) (LastUseAt x) (ExpiresAt x) (Description x) (User x) (Admin x) (userID x) (adminID x) (plainKey x) |}.
(* the zero value of the Go type *)
Definition zero : t :=
  mk 0 "" "" "" 0 0 0 0 0 "" "" "" 0 0 "".
End APIKey.

Module Share.
(* source: internal/dataprovider/share.go Share *)
Record t := mk {
  ID : Z;
  ShareID : string;
  Name : string;
  Description : string;
  Scope : Z;
  Paths : list string;
  Username : string;
  CreatedAt : Z;
  UpdatedAt : Z;
  LastUseAt : Z;
  ExpiresAt : Z;
  Password : string;
  MaxTokens : Z;
  UsedTokens : Z;
  AllowFrom : list string;
  IsRestore : bool;
}.
#[global] Instance eta : Settable t := {| settable := fun x =>
  mk (ID x) (ShareID x) (Name x) (Description x) (Scope x) (Paths x) (Username x) (CreatedAt x) (UpdatedAt x) (LastUseAt x) (ExpiresAt x) (Password x) (MaxTokens x) (UsedTokens x) (AllowFrom x) (IsRestore x) |}.
(* the zero value of the Go type *)
Definition zero : t :=
  mk 0 "" "" "" 0 [] "" 0 0 0 0 "" 0 0 [] false.
End Share.

Module KeyValue.
(* source: internal/dataprovider/eventrule.go KeyValue *)
Record t := mk {
  Key : string;
  Value : string;
}.
#[global] Instance eta : Settable t := {| settable := fun x =>
  mk (Key x) (Value x) |}.
(* the zero value of the Go type *)
Definition zero : t :=
  mk "" "".
End KeyValue.

Module HTTPPart.
(* source: internal/dataprovider/eventrule.go HTTPPart *)
Record t := mk {
  Name : string;
  Filepath : string;
  Headers : list KeyValue.t;
  Body : string;
  Order : Z;
}.
#[global] Instance eta : Settable t := {| settable := fun x =>
  mk (Name x) (Filepath x) (Headers x) (Body x) (Order x) |}.
(* the zero value of the Go type *)
Definition zero : t :=
  mk "" "" [] "" 0.
End HTTPPart.

Module EventActionHTTPConfig.
(* source: internal/dataprovider/eventrule.go EventActionHTTPConfig *)
Record t := mk {
  Endpoint : string;
  Username : string;
  Password : option Secret.t;
  Headers : list KeyValue.t;
  Timeout : Z;
  SkipTLSVerify : bool;
  Method : string;
  QueryParameters : list KeyValue.t;
  Body : string;
  Parts : list HTTPPart.t;
}.
#[global] Instance eta : Settable t := {| settable := fun x =>
  mk (Endpoint x) (Username x) (Password x) (Headers x) (Timeout x) (SkipTLSVerify x) (Method x) (QueryParameters x) (Body x) (Parts x) |}.
(* the zero value of the Go type *)
Definition zero : t :=
  mk "" "" None [] 0 false "" [] "" [].
End EventActionHTTPConfig.

Module EventActionCommandConfig.
(* source: internal/dataprovider/eventrule.go EventActionCommandConfig *)
Record t := mk {
  Cmd : string;
  Args : list string;
  Timeout : Z;
  EnvVars : list KeyValue.t;
}.
#[global] Instance eta : Settable t := {| settable := fun x =>
  mk (Cmd x) (Args x) (Timeout x) (EnvVars x) |}.
(* the zero value of the Go type *)
Definition zero : t :=
  mk "" [] 0 [].
End EventActionCommandConfig.

Module EventActionEmailConfig.
(* source: internal/dataprovider/eventrule.go EventActionEmailConfig *)
Record t := mk {
  Recipients : list string;
  Bcc : list string;
  Subject : string;
  Body : string;
  Attachments : list string;
  ContentType : Z;
}.
#[global] Instance eta : Settable t := {| settable := fun x =>
  mk (Recipients x) (Bcc x) (Subject x) (Body x) (Attachments x) (ContentType x) |}.
(* the zero value of the Go type *)
Definition zero : t :=
  mk [] [] "" "" [] 0.
End EventActionEmailConfig.

Module FolderRetention.
(* source: internal/dataprovider/eventrule.go FolderRetention *)
Record t := mk {
  Path : string;
  Retention : Z;
  DeleteEmptyDirs : bool;
  IgnoreUserPermissions : bool;
}.
#[global] Instance eta : Settable t := {| settable := fun x =>
  mk (Path x) (Retention x) (DeleteEmptyDirs x) (IgnoreUserPermissions x) |}.
(* the zero value of the Go type *)
Definition zero : t :=
  mk "" 0 false false.
End FolderRetention.

Module EventActionFsCompress.
(* source: internal/dataprovider/eventrule.go EventActionFsCompress *)
Record t := mk {
  Name : string;
  Paths : list string;
}.
#[global] Instance eta : Settable t := {| settable := fun x =>
  mk (Name x) (Paths x) |}.
(* the zero value of the Go type *)
Definition zero : t :=
  mk "" [].
End EventActionFsCompress.

Module EventActionFilesystemConfig.
(* source: internal/dataprovider/eventrule.go EventActionFilesystemConfig *)
Record t := mk {
  Type_ : Z;
  Renames : list KeyValue.t;
  MkDirs : list string;
  Deletes : list string;
  Exist : list string;
  Copy : list KeyValue.t;
  Compress : EventActionFsCompress.t;
}.
#[global] Instance eta : Settable t := {| settable := fun x =>
  mk (Type_ x) (Renames x) (MkDirs x) (Deletes x) (Exist x) (Copy x) (Compress x) |}.
(* the zero value of the Go type *)
Definition zero : t :=
  mk 0 [] [] [] [] [] EventActionFsCompress.zero.
End EventActionFilesystemConfig.

Module EventActionIDPAccountCheck.
(* source: internal/dataprovider/eventrule.go EventActionIDPAccountCheck *)
Record t := mk {
  Mode : Z;
  TemplateUser : string;
  TemplateAdmin : string;
}.
#[global] Instance eta : Settable t := {| settable := fun x =>
  mk (Mode x) (TemplateUser x) (TemplateAdmin x) |}.
(* the zero value of the Go type *)
Definition zero : t :=
  mk 0 "" "".
End EventActionIDPAccountCheck.

Module BaseEventActionOptions.
(* source: internal/dataprovider/eventrule.go BaseEventActionOptions *)
Record t := mk {
  HTTPConfig : EventActionHTTPConfig.t;
  CmdConfig : EventActionCommandConfig.t;
  EmailConfig : EventActionEmailConfig.t;
  RetentionFolders : list FolderRetention.t;
  FsConfig : EventActionFilesystemConfig.t;
  PwdExpirationThreshold : Z;
  IDPConfig : EventActionIDPAccountCheck.t;
}.
#[global] Instance eta : Settable t := {| settable := fun x =>
  mk (HTTPConfig x) (CmdConfig x) (EmailConfig x) (RetentionFolders x) (FsConfig x) (PwdExpirationThreshold x) (IDPConfig x) |}.
(* the zero value of the Go type *)
Definition zero : t :=
  mk EventActionHTTPConfig.zero EventActionCommandConfig.zero EventActionEmailConfig.zero [] EventActionFilesystemConfig.zero 0 EventActionIDPAccountCheck.zero.
End BaseEventActionOptions.

Module BaseEventAction.
(* source: internal/dataprovider/eventrule.go BaseEventAction *)
Record t := mk {
  ID : Z;
  Name : string;
  Description : string;
  Type_ : Z;
  Options : BaseEventActionOptions.t;
  Rules : list string;
}.
#[global] Instance eta : Settable t := {| settable := fun x =>
  mk (ID x) (Name x) (Description x) (Type_ x) (Options x) (Rules x) |}.
(* the zero value of the Go type *)
Definition zero : t :=
  mk 0 "" "" 0 BaseEventActionOptions.zero [].
End BaseEventAction.

Module EventAction.
(* source: internal/dataprovider/eventrule.go EventAction *)
Record t := mk {
  Base : BaseEventAction.t;
  Order : Z;
  IsFailureAction : bool;
  StopOnFailure : bool;
  ExecuteSync : bool;
}.
#[global] Instance eta : Settable t := {| settable := fun x =>
  mk (Base x) (Order x) (IsFailureAction x) (StopOnFailure x) (ExecuteSync x) |}.
(* the zero value of the Go type *)
Definition zero : t :=
  mk BaseEventAction.zero 0 false false false.
End EventAction.

Module ConditionPattern.
(* source: internal/dataprovider/eventrule.go ConditionPattern *)
Record t := mk {
  Pattern : string;
  InverseMatch : bool;
}.
#[global] Instance eta : Settable t := {| settable := fun x =>
  mk (Pattern x) (InverseMatch x) |}.
(* the zero value of the Go type *)
Definition zero : t :=
  mk "" false.
End ConditionPattern.

Module ConditionOptions.
(* source: internal/dataprovider/eventrule.go ConditionOptions *)
Record t := mk {
  Names : list ConditionPattern.t;
  GroupNames : list ConditionPattern.t;
  RoleNames : list ConditionPattern.t;
  FsPaths : list ConditionPattern.t;
  Protocols : list string;
  ProviderObjects : list string;
  MinFileSize : Z;
  MaxFileSize : Z;
  ConcurrentExecution : bool;
}.
#[global] Instance eta : Settable t := {| settable := fun x =>
  mk (Names x) (GroupNames x) (RoleNames x) (FsPaths x) (Protocols x) (ProviderObjects x) (MinFileSize x) (MaxFileSize x) (ConcurrentExecution x) |}.
(* the zero value of the Go type *)
Definition zero : t :=
  mk [] [] [] [] [] [] 0 0 false.
End ConditionOptions.

Module Schedule.
(* source: internal/dataprovider/eventrule.go Schedule *)
Record t := mk {
  Hours : string;
  DayOfWeek : string;
  DayOfMonth : string;
  Month : string;
}.
#[global] Instance eta : Settable t := {| settable := fun x =>
  mk (Hours x) (DayOfWeek x) (DayOfMonth x) (Month x) |}.
(* the zero value of the Go type *)
Definition zero : t :=
  mk "" "" "" "".
End Schedule.

Module EventConditions.
(* source: internal/dataprovider/eventrule.go EventConditions *)
Record t := mk {
  FsEvents : list string;
  ProviderEvents : list string;
  Schedules : list Schedule.t;
  IDPLoginEvent : Z;
  Options : ConditionOptions.t;
}.
#[global] Instance eta : Settable t := {| settable := fun x =>
  mk (FsEvents x) (ProviderEvents x) (Schedules x) (IDPLoginEvent x) (Options x) |}.
(* the zero value of the Go type *)
Definition zero : t :=
  mk [] [] [] 0 ConditionOptions.zero.
End EventConditions.

Module EventRule.
(* source: internal/dataprovider/eventrule.go EventRule *)
Record t := mk {
  ID : Z;
  Name : string;
  Status : Z;
  Description : string;
  CreatedAt : Z;
  UpdatedAt : Z;
  Trigger : Z;
  Conditions : EventConditions.t;
  Actions : list EventAction.t;
  DeletedAt : Z;
}.
#[global] Instance eta : Settable t := {| settable := fun x =>
  mk (ID x) (Name x) (Status x) (Description x) (CreatedAt x) (UpdatedAt x) (Trigger x) (Conditions x) (Actions x) (DeletedAt x) |}.
(* the zero value of the Go type *)
Definition zero : t :=
  mk 0 "" 0 "" 0 0 0 EventConditions.zero [] 0.
End EventRule.

Module IPListEntry.
(* source: internal/dataprovider/iplist.go IPListEntry *)
Record t := mk {
  IPOrNet : string;
  Description : string;
  Type_ : Z;
  Mode : Z;
  Protocols : Z;
  First : list Z;
  Last : list Z;
  IPType : Z;
  CreatedAt : Z;
  UpdatedAt : Z;
  DeletedAt : Z;
}.
#[global] Instance eta : Settable t := {| settable := fun x =>
  mk (IPOrNet x) (Description x) (Type_ x) (Mode x) (Protocols x) (First x) (Last x) (IPType x) (CreatedAt x) (UpdatedAt x) (DeletedAt x) |}.
(* the zero value of the Go type *)
Definition zero : t :=
  mk "" "" 0 0 0 [] [] 0 0 0 0.
End IPListEntry.

Module SFTPDConfigs.
(* source: internal/dataprovider/configs.go SFTPDConfigs *)
Record t := mk {
  HostKeyAlgos : list string;
  PublicKeyAlgos : list string;
  KexAlgorithms : list string;
  Ciphers : list string;
  MACs : list string;
}.
#[global] Instance eta : Settable t := {| settable := fun x =>
  mk (HostKeyAlgos x) (PublicKeyAlgos x) (KexAlgorithms x) (Ciphers x) (MACs x) |}.
(* the zero value of the Go type *)
Definition zero : t :=
  mk [] [] [] [] [].
End SFTPDConfigs.

Module SMTPOAuth2.
(* source: internal/dataprovider/configs.go SMTPOAuth2 *)
Record t := mk {
  Provider : Z;
  Tenant : string;
  ClientID : string;
  ClientSecret : option Secret.t;
  RefreshToken : option Secret.t;
}.
#[global] Instance eta : Settable t := {| settable := fun x =>
  mk (Provider x) (Tenant x) (ClientID x) (ClientSecret x) (RefreshToken x) |}.
(* the zero value of the Go type *)
Definition zero : t :=
  mk 0 "" "" None None.
End SMTPOAuth2.

Module SMTPConfigs.
(* source: internal/dataprovider/configs.go SMTPConfigs *)
Record t := mk {
  Host : string;
  Port : Z;
  From : string;
  User : string;
  Password : option Secret.t;
  AuthType : Z;
  Encryption : Z;
  Domain : string;
  Debug : Z;
  OAuth2 : SMTPOAuth2.t;
}.
#[global] Instance eta : Settable t := {| settable := fun x =>
  mk (Host x) (Port x) (From x) (User x) (Password x) (AuthType x) (Encryption x) (Domain x) (Debug x) (OAuth2 x) |}.
(* the zero value of the Go type *)
Definition zero : t :=
  mk "" 0 "" "" None 0 0 "" 0 SMTPOAuth2.zero.
End SMTPConfigs.

Module ACMEConfigs.
(* source: internal/dataprovider/configs.go ACMEConfigs *)
Record t := mk {
  Domain : string;
  Email : string;
  HTTP01Port : Z;
  Protocols : Z;
}.
#[global] Instance eta : Settable t := {| settable := fun x =>
  mk (Domain x) (Email x) (HTTP01Port x) (Protocols x) |}.
(* the zero value of the Go type *)
Definition zero : t :=
  mk "" "" 0 0.
End ACMEConfigs.

Module Configs.
(* source: internal/dataprovider/configs.go Configs *)
Record t := mk {
  SFTPD : option SFTPDConfigs.t;
  SMTP : option SMTPConfigs.t;
  ACME : option ACMEConfigs.t;
  UpdatedAt : Z;
}.
#[global] Instance eta : Settable t := {| settable := fun x =>
  mk (SFTPD x) (SMTP x) (ACME x) (UpdatedAt x) |}.
(* the zero value of the Go type *)
Definition zero : t :=
  mk None None None 0.
End Configs.


(** * Filters *)

(* source: internal/dataprovider/dataprovider.go copyBaseUserFilters *)
Definition copyBaseUserFilters (in_ : BaseUserFilters.t) : BaseUserFilters.t :=
  let copy_limit (limit : BandwidthLimit.t) :=
    {| BandwidthLimit.Sources := BandwidthLimit.Sources limit;
       BandwidthLimit.UploadBandwidth := BandwidthLimit.UploadBandwidth limit;
       BandwidthLimit.DownloadBandwidth := BandwidthLimit.DownloadBandwidth limit |} in
  {| BaseUserFilters.AllowedIP := BaseUserFilters.AllowedIP in_;
     BaseUserFilters.DeniedIP := BaseUserFilters.DeniedIP in_;
     BaseUserFilters.DeniedLoginMethods := BaseUserFilters.DeniedLoginMethods in_;
     BaseUserFilters.DeniedProtocols := BaseUserFilters.DeniedProtocols in_;
     BaseUserFilters.FilePatterns := BaseUserFilters.FilePatterns in_;
     BaseUserFilters.MaxUploadFileSize := BaseUserFilters.MaxUploadFileSize in_;
     BaseUserFilters.TLSUsername := BaseUserFilters.TLSUsername in_;
     BaseUserFilters.TLSCerts := BaseUserFilters.TLSCerts in_;
     BaseUserFilters.ExternalAuthDisabled := BaseUserFilters.ExternalAuthDisabled in_;
     BaseUserFilters.PreLoginDisabled := BaseUserFilters.PreLoginDisabled in_;
     BaseUserFilters.CheckPasswordDisabled := BaseUserFilters.CheckPasswordDisabled in_;
     BaseUserFilters.DisableFsChecks := BaseUserFilters.DisableFsChecks in_;
     BaseUserFilters.WebClient := BaseUserFilters.WebClient in_;
     BaseUserFilters.AllowAPIKeyAuth := BaseUserFilters.AllowAPIKeyAuth in_;
     BaseUserFilters.UserType := BaseUserFilters.UserType in_;
     BaseUserFilters.BandwidthLimits := copy_limit <$> BaseUserFilters.BandwidthLimits in_;
     BaseUserFilters.ExternalAuthCacheTime := BaseUserFilters.ExternalAuthCacheTime in_;
     BaseUserFilters.StartDirectory := BaseUserFilters.StartDirectory in_;
     BaseUserFilters.TwoFactorAuthProtocols := BaseUserFilters.TwoFactorAuthProtocols in_;
     BaseUserFilters.FTPSecurity := BaseUserFilters.FTPSecurity in_;
     BaseUserFilters.IsAnonymous := BaseUserFilters.IsAnonymous in_;
     BaseUserFilters.DefaultSharesExpiration := BaseUserFilters.DefaultSharesExpiration in_;
     BaseUserFilters.MaxSharesExpiration := BaseUserFilters.MaxSharesExpiration in_;
     BaseUserFilters.PasswordExpiration := BaseUserFilters.PasswordExpiration in_;
     BaseUserFilters.PasswordStrength := BaseUserFilters.PasswordStrength in_ |}.

(** [if code.Secret == nil { code.Secret = kms.NewEmptySecret() }], then a clone. *)
Definition copy_recovery_code (c : RecoveryCode.t) : RecoveryCode.t :=
  {| RecoveryCode.Secret := secret_Clone (emptyIfNil (RecoveryCode.Secret c));
     RecoveryCode.Used := RecoveryCode.Used c |}.
Definition hide_recovery_code (c : RecoveryCode.t) : RecoveryCode.t :=
  c <| RecoveryCode.Secret ::= hideIfSet |>.

(** * Users *)

(* source: internal/dataprovider/user.go SetEmptySecretsIfNil *)
Definition user_SetEmptySecretsIfNil (u : User.t) : User.t :=
  u <| User.HasPassword := negb (User.Password u =s "") |>
    <| User.FsConfig ::= fs_SetEmptySecretsIfNil |>
    <| User.VirtualFolders ::= fmap (fun v => v <| VirtualFolder.Base ::= fun b =>
         b <| BaseVirtualFolder.FsConfig ::= fs_SetEmptySecretsIfNil |> |>) |>
    <| User.Filters ::= fun f => f <| UserFilters.TOTPConfig ::= fun t =>
         t <| UserTOTPConfig.Secret ::= emptyIfNil |> |> |>.

(* source: internal/dataprovider/user.go getACopy *)
Definition user_getACopy (u0 : User.t) : User.t :=
  let u := user_SetEmptySecretsIfNil u0 in
  let filters :=
    let f := User.Filters u in
    let totp := UserFilters.TOTPConfig f in
    {| UserFilters.Base := copyBaseUserFilters (UserFilters.Base f);
       UserFilters.RequirePasswordChange := UserFilters.RequirePasswordChange f;
       UserFilters.TOTPConfig :=
         {| UserTOTPConfig.Enabled := UserTOTPConfig.Enabled totp;
            UserTOTPConfig.ConfigName := UserTOTPConfig.ConfigName totp;
            UserTOTPConfig.Secret := secret_Clone (UserTOTPConfig.Secret totp);
            UserTOTPConfig.Protocols := UserTOTPConfig.Protocols totp |};
       UserFilters.RecoveryCodes := copy_recovery_code <$> UserFilters.RecoveryCodes f |} in
  let copy_group g :=
    {| GroupMapping.Name := GroupMapping.Name g; GroupMapping.Type_ := GroupMapping.Type_ g |} in
  {| User.ID := User.ID u; User.Status := User.Status u; User.Username := User.Username u;
     User.Email := User.Email u; User.ExpirationDate := User.ExpirationDate u;
     User.Password := User.Password u; User.PublicKeys := User.PublicKeys u;
     User.HasPassword := User.HasPassword u; User.HomeDir := User.HomeDir u;
     User.UID := User.UID u; User.GID := User.GID u; User.MaxSessions := User.MaxSessions u;
     User.QuotaSize := User.QuotaSize u; User.QuotaFiles := User.QuotaFiles u;
     User.Permissions := User.Permissions u; User.UsedQuotaSize := User.UsedQuotaSize u;
     User.UsedQuotaFiles := User.UsedQuotaFiles u; User.LastQuotaUpdate := User.LastQuotaUpdate u;
     User.UploadBandwidth := User.UploadBandwidth u;
     User.DownloadBandwidth := User.DownloadBandwidth u; User.LastLogin := User.LastLogin u;
     User.FirstDownload := User.FirstDownload u; User.FirstUpload := User.FirstUpload u;
     User.LastPasswordChange := User.LastPasswordChange u;
     User.AdditionalInfo := User.AdditionalInfo u; User.Description := User.Description u;
     User.CreatedAt := User.CreatedAt u; User.UpdatedAt := User.UpdatedAt u;
     User.UploadDataTransfer := User.UploadDataTransfer u;
     User.DownloadDataTransfer := User.DownloadDataTransfer u;
     User.TotalDataTransfer := User.TotalDataTransfer u;
     User.UsedUploadDataTransfer := User.UsedUploadDataTransfer u;
     User.UsedDownloadDataTransfer := User.UsedDownloadDataTransfer u; User.Role := User.Role u;
     User.Filters := filters; User.VirtualFolders := vfolder_GetACopy <$> User.VirtualFolders u;
     User.FsConfig := fs_GetACopy (User.FsConfig u); User.Groups := copy_group <$> User.Groups u;
     User.groupSettingsApplied := User.groupSettingsApplied u; User.DeletedAt := 0 |}.

(* source: internal/dataprovider/user.go hideConfidentialData *)
Definition user_hideConfidentialData (u : User.t) : User.t :=
  u <| User.Password := "" |>
    <| User.FsConfig ::= fs_HideConfidentialData |>
    <| User.Filters ::= fun f => f
         <| UserFilters.TOTPConfig ::= fun t => t <| UserTOTPConfig.Secret ::= hideIfSet |> |>
         <| UserFilters.RecoveryCodes ::= fmap hide_recovery_code |> |>.

(* source: internal/dataprovider/user.go PrepareForRendering *)
Definition user_PrepareForRendering (u : User.t) : User.t :=
  (user_hideConfidentialData u)
    <| User.FsConfig ::= fs_SetNilSecretsIfEmpty |>
    <| User.VirtualFolders ::= fmap (fun v => v <| VirtualFolder.Base ::= folder_PrepareForRendering |>) |>.

(* source: internal/dataprovider/user.go hasRedactedSecret *)
Definition user_hasRedactedSecret (u : User.t) : bool :=
  if fs_HasRedactedSecret (User.FsConfig u) then true
  else if existsb (fun v => folder_HasRedactedSecret (VirtualFolder.Base v)) (User.VirtualFolders u) then true
  else secret_IsRedacted (deref (UserTOTPConfig.Secret (UserFilters.TOTPConfig (User.Filters u)))).

(* source: internal/dataprovider/user.go hasRole *)
Definition user_hasRole (u : User.t) (role : string) : bool :=
  if role =s "" then true else role =s User.Role u.

(** * Groups *)

(* source: internal/dataprovider/group.go SetEmptySecretsIfNil *)
Definition group_SetEmptySecretsIfNil (g : Group.t) : Group.t :=
  g <| Group.UserSettings ::= fun s => s <| GroupUserSettings.FsConfig ::= fs_SetEmptySecretsIfNil |> |>
    <| Group.VirtualFolders ::= fmap (fun v => v <| VirtualFolder.Base ::= fun b =>
         b <| BaseVirtualFolder.FsConfig ::= fs_SetEmptySecretsIfNil |> |>) |>.

(* source: internal/dataprovider/group.go getACopy *)
Definition group_getACopy (g : Group.t) : Group.t :=
  let s := Group.UserSettings g in
  let settings :=
    {| GroupUserSettings.HomeDir := GroupUserSettings.HomeDir s;
     GroupUserSettings.MaxSessions := GroupUserSettings.MaxSessions s;
     GroupUserSettings.QuotaSize := GroupUserSettings.QuotaSize s;
     GroupUserSettings.QuotaFiles := GroupUserSettings.QuotaFiles s;
     GroupUserSettings.Permissions := GroupUserSettings.Permissions s;
     GroupUserSettings.UploadBandwidth := GroupUserSettings.UploadBandwidth s;
     GroupUserSettings.DownloadBandwidth := GroupUserSettings.DownloadBandwidth s;
     GroupUserSettings.UploadDataTransfer := GroupUserSettings.UploadDataTransfer s;
     GroupUserSettings.DownloadDataTransfer := GroupUserSettings.DownloadDataTransfer s;
     GroupUserSettings.TotalDataTransfer := GroupUserSettings.TotalDataTransfer s;
     GroupUserSettings.ExpiresIn := GroupUserSettings.ExpiresIn s;
     GroupUserSettings.Filters := copyBaseUserFilters (GroupUserSettings.Filters s);
     GroupUserSettings.FsConfig := fs_GetACopy (GroupUserSettings.FsConfig s) |} in
  {| Group.ID := Group.ID g; Group.Name := Group.Name g; Group.Description := Group.Description g;
     Group.CreatedAt := Group.CreatedAt g; Group.UpdatedAt := Group.UpdatedAt g;
     Group.Users := Group.Users g; Group.Admins := Group.Admins g; Group.UserSettings := settings;
     Group.VirtualFolders := vfolder_GetACopy <$> Group.VirtualFolders g |}.

(* source: internal/dataprovider/group.go PrepareForRendering *)
Definition group_PrepareForRendering (g : Group.t) : Group.t :=
  g <| Group.UserSettings ::= fun s => s
         <| GroupUserSettings.FsConfig ::= fun f => fs_SetNilSecretsIfEmpty (fs_HideConfidentialData f) |> |>
    <| Group.VirtualFolders ::= fmap (fun v => v <| VirtualFolder.Base ::= folder_PrepareForRendering |>) |>.

(* source: internal/dataprovider/group.go hasRedactedSecret *)
Definition group_hasRedactedSecret (g : Group.t) : bool :=
  if existsb (fun v => folder_HasRedactedSecret (VirtualFolder.Base v)) (Group.VirtualFolders g) then true
  else fs_HasRedactedSecret (GroupUserSettings.FsConfig (Group.UserSettings g)).

(** * Roles *)

(* source: internal/dataprovider/role.go getACopy *)
Definition role_getACopy (r : Role.t) : Role.t :=
  {| Role.ID := Role.ID r; Role.Name := Role.Name r; Role.Description := Role.Description r;
     Role.CreatedAt := Role.CreatedAt r; Role.UpdatedAt := Role.UpdatedAt r;
     Role.Admins := Role.Admins r; Role.Users := Role.Users r |}.

(** * Admins *)

(* source: internal/dataprovider/admin.go SetEmptySecretsIfNil *)
Definition admin_SetEmptySecretsIfNil (a : Admin.t) : Admin.t :=
  a <| Admin.Filters ::= fun f => f <| AdminFilters.TOTPConfig ::= fun t =>
         t <| AdminTOTPConfig.Secret ::= emptyIfNil |> |> |>.

(* source: internal/dataprovider/admin.go SetNilSecretsIfEmpty *)
Definition admin_SetNilSecretsIfEmpty (a : Admin.t) : Admin.t :=
  a <| Admin.Filters ::= fun f => f <| AdminFilters.TOTPConfig ::= fun t =>
         t <| AdminTOTPConfig.Secret ::= nilIfEmpty |> |> |>.

(* source: internal/dataprovider/admin.go getACopy *)
Definition admin_getACopy (a0 : Admin.t) : Admin.t :=
  let a := admin_SetEmptySecretsIfNil a0 in
  let filters :=
    let f := Admin.Filters a in
    let totp := AdminFilters.TOTPConfig f in
    {| AdminFilters.AllowList := AdminFilters.AllowList f;
       AdminFilters.AllowAPIKeyAuth := AdminFilters.AllowAPIKeyAuth f;
       AdminFilters.TOTPConfig :=
         {| AdminTOTPConfig.Enabled := AdminTOTPConfig.Enabled totp;
            AdminTOTPConfig.ConfigName := AdminTOTPConfig.ConfigName totp;
            AdminTOTPConfig.Secret := secret_Clone (AdminTOTPConfig.Secret totp) |};
       AdminFilters.RecoveryCodes := copy_recovery_code <$> AdminFilters.RecoveryCodes f;
       AdminFilters.Preferences :=
         {| AdminPreferences.HideUserPageSections := AdminPreferences.HideUserPageSections (AdminFilters.Preferences f);
            AdminPreferences.DefaultUsersExpiration := AdminPreferences.DefaultUsersExpiration (AdminFilters.Preferences f) |} |} in
  let copy_group g :=
    {| AdminGroupMapping.Name := AdminGroupMapping.Name g;
       AdminGroupMapping.AddToUsersAs := AdminGroupMapping.AddToUsersAs g |} in
  {| Admin.ID := Admin.ID a; Admin.Status := Admin.Status a; Admin.Username := Admin.Username a;
     Admin.Password := Admin.Password a; Admin.Email := Admin.Email a;
     Admin.Permissions := Admin.Permissions a; Admin.Filters := filters;
     Admin.Description := Admin.Description a; Admin.AdditionalInfo := Admin.AdditionalInfo a;
     Admin.Groups := copy_group <$> Admin.Groups a; Admin.CreatedAt := Admin.CreatedAt a;
     Admin.UpdatedAt := Admin.UpdatedAt a; Admin.LastLogin := Admin.LastLogin a;
     Admin.Role := Admin.Role a |}.

(* source: internal/dataprovider/admin.go HideConfidentialData *)
Definition admin_HideConfidentialData (a : Admin.t) : Admin.t :=
  admin_SetNilSecretsIfEmpty
    (a <| Admin.Password := "" |>
       <| Admin.Filters ::= fun f => f
            <| AdminFilters.TOTPConfig ::= fun t => t <| AdminTOTPConfig.Secret ::= hideIfSet |> |>
            <| AdminFilters.RecoveryCodes ::= fmap hide_recovery_code |> |>).

(** * API keys and shares *)

(* source: internal/dataprovider/apikey.go getACopy *)
Definition apikey_getACopy (k : APIKey.t) : APIKey.t :=
  {| APIKey.ID := APIKey.ID k; APIKey.KeyID := APIKey.KeyID k; APIKey.Name := APIKey.Name k;
     APIKey.Key := APIKey.Key k; APIKey.Scope := APIKey.Scope k;
     APIKey.CreatedAt := APIKey.CreatedAt k; APIKey.UpdatedAt := APIKey.UpdatedAt k;
     APIKey.LastUseAt := APIKey.LastUseAt k; APIKey.ExpiresAt := APIKey.ExpiresAt k;
     APIKey.Description := APIKey.Description k; APIKey.User := APIKey.User k;
     APIKey.Admin := APIKey.Admin k; APIKey.userID := APIKey.userID k;
     APIKey.adminID := APIKey.adminID k; APIKey.plainKey := "" |}.

(* source: internal/dataprovider/apikey.go HideConfidentialData *)
Definition apikey_HideConfidentialData (k : APIKey.t) : APIKey.t := k <| APIKey.Key := "" |>.

(* source: internal/dataprovider/share.go getACopy *)
Definition share_getACopy (s : Share.t) : Share.t :=
  {| Share.ID := Share.ID s; Share.ShareID := Share.ShareID s; Share.Name := Share.Name s;
     Share.Description := Share.Description s; Share.Scope := Share.Scope s;
     Share.Paths := Share.Paths s; Share.Username := Share.Username s;
     Share.CreatedAt := Share.CreatedAt s; Share.UpdatedAt := Share.UpdatedAt s;
     Share.LastUseAt := Share.LastUseAt s; Share.ExpiresAt := Share.ExpiresAt s;
     Share.Password := Share.Password s; Share.MaxTokens := Share.MaxTokens s;
     Share.UsedTokens := Share.UsedTokens s; Share.AllowFrom := Share.AllowFrom s;
     Share.IsRestore := false |}.

Definition redactedPassword : string := "[**redacted**]".

(* source: internal/dataprovider/share.go HideConfidentialData *)
Definition share_HideConfidentialData (s : Share.t) : Share.t :=
  if negb (Share.Password s =s "") then s <| Share.Password := redactedPassword |> else s.

(* source: internal/dataprovider/share.go HasRedactedPassword *)
Definition share_HasRedactedPassword (s : Share.t) : bool := Share.Password s =s redactedPassword.

(** * Event actions and rules *)

(* source: internal/dataprovider/eventrule.go cloneKeyValues *)
Definition cloneKeyValues (keyVals : list KeyValue.t) : list KeyValue.t :=
  (fun kv => {| KeyValue.Key := KeyValue.Key kv; KeyValue.Value := KeyValue.Value kv |}) <$> keyVals.

(* source: internal/dataprovider/eventrule.go cloneConditionPatterns *)
Definition cloneConditionPatterns (patterns : list ConditionPattern.t) : list ConditionPattern.t :=
  (fun p => {| ConditionPattern.Pattern := ConditionPattern.Pattern p;
               ConditionPattern.InverseMatch := ConditionPattern.InverseMatch p |}) <$> patterns.

(* source: internal/dataprovider/eventrule.go EventActionFilesystemConfig.getACopy *)
Definition fsaction_getACopy (c : EventActionFilesystemConfig.t) : EventActionFilesystemConfig.t :=
  {| EventActionFilesystemConfig.Type_ := EventActionFilesystemConfig.Type_ c;
     EventActionFilesystemConfig.Renames := cloneKeyValues (EventActionFilesystemConfig.Renames c);
     EventActionFilesystemConfig.MkDirs := EventActionFilesystemConfig.MkDirs c;
     EventActionFilesystemConfig.Deletes := EventActionFilesystemConfig.Deletes c;
     EventActionFilesystemConfig.Exist := EventActionFilesystemConfig.Exist c;
     EventActionFilesystemConfig.Copy := cloneKeyValues (EventActionFilesystemConfig.Copy c);
     EventActionFilesystemConfig.Compress := EventActionFilesystemConfig.Compress c |}.

(* source: internal/dataprovider/eventrule.go BaseEventActionOptions.SetEmptySecretsIfNil *)
Definition options_SetEmptySecretsIfNil (o : BaseEventActionOptions.t) : BaseEventActionOptions.t :=
  o <| BaseEventActionOptions.HTTPConfig ::= fun c => c <| EventActionHTTPConfig.Password ::= emptyIfNil |> |>.

(* source: internal/dataprovider/eventrule.go setNilSecretsIfEmpty *)
Definition options_setNilSecretsIfEmpty (o : BaseEventActionOptions.t) : BaseEventActionOptions.t :=
  o <| BaseEventActionOptions.HTTPConfig ::= fun c => c <| EventActionHTTPConfig.Password ::= nilIfEmpty |> |>.

(* source: internal/dataprovider/eventrule.go hideConfidentialData *)
Definition options_hideConfidentialData (o : BaseEventActionOptions.t) : BaseEventActionOptions.t :=
  o <| BaseEventActionOptions.HTTPConfig ::= fun c => c <| EventActionHTTPConfig.Password ::= hideIfSet |> |>.

(** A copied part of an HTTP request loses its [Order]. *)
(* source: internal/dataprovider/eventrule.go BaseEventActionOptions.getACopy *)
Definition options_getACopy (o0 : BaseEventActionOptions.t) : BaseEventActionOptions.t :=
  let o := options_SetEmptySecretsIfNil o0 in
  let copy_folder f :=
  {| FolderRetention.Path := FolderRetention.Path f;
     FolderRetention.Retention := FolderRetention.Retention f;
     FolderRetention.DeleteEmptyDirs := FolderRetention.DeleteEmptyDirs f;
     FolderRetention.IgnoreUserPermissions := FolderRetention.IgnoreUserPermissions f |} in
  let copy_part p :=
  {| HTTPPart.Name := HTTPPart.Name p; HTTPPart.Filepath := HTTPPart.Filepath p;
     HTTPPart.Headers := cloneKeyValues (HTTPPart.Headers p); HTTPPart.Body := HTTPPart.Body p;
     HTTPPart.Order := 0 |} in
  let h := BaseEventActionOptions.HTTPConfig o in
  let c := BaseEventActionOptions.CmdConfig o in
  let e := BaseEventActionOptions.EmailConfig o in
  let i := BaseEventActionOptions.IDPConfig o in
  {| BaseEventActionOptions.HTTPConfig :=
  {| EventActionHTTPConfig.Endpoint := EventActionHTTPConfig.Endpoint h;
     EventActionHTTPConfig.Username := EventActionHTTPConfig.Username h;
     EventActionHTTPConfig.Password := secret_Clone (EventActionHTTPConfig.Password h);
     EventActionHTTPConfig.Headers := cloneKeyValues (EventActionHTTPConfig.Headers h);
     EventActionHTTPConfig.Timeout := EventActionHTTPConfig.Timeout h;
     EventActionHTTPConfig.SkipTLSVerify := EventActionHTTPConfig.SkipTLSVerify h;
     EventActionHTTPConfig.Method := EventActionHTTPConfig.Method h;
     EventActionHTTPConfig.QueryParameters := cloneKeyValues (EventActionHTTPConfig.QueryParameters h);
     EventActionHTTPConfig.Body := EventActionHTTPConfig.Body h;
     EventActionHTTPConfig.Parts := copy_part <$> EventActionHTTPConfig.Parts h |};
     BaseEventActionOptions.CmdConfig :=
  {| EventActionCommandConfig.Cmd := EventActionCommandConfig.Cmd c;
     EventActionCommandConfig.Args := EventActionCommandConfig.Args c;
     EventActionCommandConfig.Timeout := EventActionCommandConfig.Timeout c;
     EventActionCommandConfig.EnvVars := cloneKeyValues (EventActionCommandConfig.EnvVars c) |};
     BaseEventActionOptions.EmailConfig :=
  {| EventActionEmailConfig.Recipients := EventActionEmailConfig.Recipients e;
     EventActionEmailConfig.Bcc := EventActionEmailConfig.Bcc e;
     EventActionEmailConfig.Subject := EventActionEmailConfig.Subject e;
     EventActionEmailConfig.Body := EventActionEmailConfig.Body e;
     EventActionEmailConfig.Attachments := EventActionEmailConfig.Attachments e;
     EventActionEmailConfig.ContentType := EventActionEmailConfig.ContentType e |};
     BaseEventActionOptions.RetentionFolders := copy_folder <$> BaseEventActionOptions.RetentionFolders o;
     BaseEventActionOptions.FsConfig := fsaction_getACopy (BaseEventActionOptions.FsConfig o);
     BaseEventActionOptions.PwdExpirationThreshold := BaseEventActionOptions.PwdExpirationThreshold o;
     BaseEventActionOptions.IDPConfig :=
  {| EventActionIDPAccountCheck.Mode := EventActionIDPAccountCheck.Mode i;
     EventActionIDPAccountCheck.TemplateUser := EventActionIDPAccountCheck.TemplateUser i;
     EventActionIDPAccountCheck.TemplateAdmin := EventActionIDPAccountCheck.TemplateAdmin i |} |}.

(* source: internal/dataprovider/eventrule.go BaseEventAction.getACopy *)
Definition action_getACopy (a : BaseEventAction.t) : BaseEventAction.t :=
  {| BaseEventAction.ID := BaseEventAction.ID a; BaseEventAction.Name := BaseEventAction.Name a;
     BaseEventAction.Description := BaseEventAction.Description a;
     BaseEventAction.Type_ := BaseEventAction.Type_ a;
     BaseEventAction.Options := options_getACopy (BaseEventAction.Options a);
     BaseEventAction.Rules := BaseEventAction.Rules a |}.

(* source: internal/dataprovider/eventrule.go BaseEventAction.PrepareForRendering *)
Definition action_PrepareForRendering (a : BaseEventAction.t) : BaseEventAction.t :=
  a <| BaseEventAction.Options ::= fun o => options_hideConfidentialData (options_setNilSecretsIfEmpty o) |>.

(* source: internal/dataprovider/eventrule.go EventAction.getACopy *)
Definition eventaction_getACopy (a : EventAction.t) : EventAction.t :=
  {| EventAction.Base := action_getACopy (EventAction.Base a);
     EventAction.Order := EventAction.Order a;
     EventAction.IsFailureAction := EventAction.IsFailureAction a;
     EventAction.StopOnFailure := EventAction.StopOnFailure a;
     EventAction.ExecuteSync := EventAction.ExecuteSync a |}.

(* source: internal/dataprovider/eventrule.go ConditionOptions.getACopy *)
Definition condition_options_getACopy (f : ConditionOptions.t) : ConditionOptions.t :=
  {| ConditionOptions.Names := cloneConditionPatterns (ConditionOptions.Names f);
     ConditionOptions.GroupNames := cloneConditionPatterns (ConditionOptions.GroupNames f);
     ConditionOptions.RoleNames := cloneConditionPatterns (ConditionOptions.RoleNames f);
     ConditionOptions.FsPaths := cloneConditionPatterns (ConditionOptions.FsPaths f);
     ConditionOptions.Protocols := ConditionOptions.Protocols f;
     ConditionOptions.ProviderObjects := ConditionOptions.ProviderObjects f;
     ConditionOptions.MinFileSize := ConditionOptions.MinFileSize f;
     ConditionOptions.MaxFileSize := ConditionOptions.MaxFileSize f;
     ConditionOptions.ConcurrentExecution := ConditionOptions.ConcurrentExecution f |}.

(* source: internal/dataprovider/eventrule.go EventConditions.getACopy *)
Definition conditions_getACopy (c : EventConditions.t) : EventConditions.t :=
  let copy_schedule s :=
  {| Schedule.Hours := Schedule.Hours s; Schedule.DayOfWeek := Schedule.DayOfWeek s;
     Schedule.DayOfMonth := Schedule.DayOfMonth s; Schedule.Month := Schedule.Month s |} in
  {| EventConditions.FsEvents := EventConditions.FsEvents c;
     EventConditions.ProviderEvents := EventConditions.ProviderEvents c;
     EventConditions.Schedules := copy_schedule <$> EventConditions.Schedules c;
     EventConditions.IDPLoginEvent := EventConditions.IDPLoginEvent c;
     EventConditions.Options := condition_options_getACopy (EventConditions.Options c) |}.

(* source: internal/dataprovider/eventrule.go EventRule.getACopy *)
Definition rule_getACopy (r : EventRule.t) : EventRule.t :=
  {| EventRule.ID := EventRule.ID r; EventRule.Name := EventRule.Name r;
     EventRule.Status := EventRule.Status r; EventRule.Description := EventRule.Description r;
     EventRule.CreatedAt := EventRule.CreatedAt r; EventRule.UpdatedAt := EventRule.UpdatedAt r;
     EventRule.Trigger := EventRule.Trigger r;
     EventRule.Conditions := conditions_getACopy (EventRule.Conditions r);
     EventRule.Actions := eventaction_getACopy <$> EventRule.Actions r;
     EventRule.DeletedAt := EventRule.DeletedAt r |}.

(* source: internal/dataprovider/eventrule.go EventRule.PrepareForRendering *)
Definition rule_PrepareForRendering (r : EventRule.t) : EventRule.t :=
  r <| EventRule.Actions ::= fmap (fun a => a <| EventAction.Base ::= action_PrepareForRendering |>) |>.

(** * IP list entries *)

Definition IPListTypeAllowList : Z := 1.
Definition IPListTypeDefender : Z := 2.
Definition IPListTypeRateLimiterSafeList : Z := 3.
Definition ListModeAllow : Z := 1.
Definition ListModeDeny : Z := 2.
Definition ipTypeV4 : Z := 1.
Definition ipTypeV6 : Z := 2.

(* source: internal/dataprovider/iplist.go AsString *)
Definition listtype_AsString (t : Z) : string :=
  if t =? IPListTypeAllowList then "Allow list"
  else if t =? IPListTypeDefender then "Defender"
  else if t =? IPListTypeRateLimiterSafeList then "Rate limiters safe list"
  else "".

(* source: internal/dataprovider/iplist.go getACopy *)
Definition ipentry_getACopy (e : IPListEntry.t) : IPListEntry.t :=
  {| IPListEntry.IPOrNet := IPListEntry.IPOrNet e;
     IPListEntry.Description := IPListEntry.Description e;
     IPListEntry.Type_ := IPListEntry.Type_ e; IPListEntry.Mode := IPListEntry.Mode e;
     IPListEntry.Protocols := IPListEntry.Protocols e; IPListEntry.First := IPListEntry.First e;
     IPListEntry.Last := IPListEntry.Last e; IPListEntry.IPType := IPListEntry.IPType e;
     IPListEntry.CreatedAt := IPListEntry.CreatedAt e;
     IPListEntry.UpdatedAt := IPListEntry.UpdatedAt e;
     IPListEntry.DeletedAt := IPListEntry.DeletedAt e |}.

(* source: internal/dataprovider/iplist.go PrepareForRendering *)
Definition ipentry_PrepareForRendering (e : IPListEntry.t) : IPListEntry.t :=
  e <| IPListEntry.First := [] |> <| IPListEntry.Last := [] |> <| IPListEntry.IPType := 0 |>.

(** [fmt.Sprintf("%d_%s", e.Type, e.IPOrNet)] *)
(* source: internal/dataprovider/iplist.go getKey *)
Definition ipentry_getKey (e : IPListEntry.t) : string :=
  pretty (IPListEntry.Type_ e) +:+ "_" +:+ IPListEntry.IPOrNet e.

(* source: internal/dataprovider/iplist.go getName *)
Definition ipentry_getName (e : IPListEntry.t) : string :=
  listtype_AsString (IPListEntry.Type_ e) +:+ "-" +:+ IPListEntry.IPOrNet e.

Definition OrderASC : string := "ASC".
Definition OrderDESC : string := "DESC".

(* source: internal/dataprovider/iplist.go satisfySearchConstraints *)
Definition ipentry_satisfySearchConstraints (e : IPListEntry.t) (filter from order : string) : bool :=
  if negb (filter =s "") && negb (has_prefix (IPListEntry.IPOrNet e) filter) then false
  else if negb (from =s "") then
    if order =s OrderASC then str_ltb from (IPListEntry.IPOrNet e)
    else str_ltb (IPListEntry.IPOrNet e) from
  else true.

Definition protocolSSH : string := "SSH".
Definition protocolFTP : string := "FTP".
Definition protocolWebDAV : string := "DAV".
Definition protocolHTTP : string := "HTTP".

(* source: internal/dataprovider/iplist.go HasProtocol *)
Definition ipentry_HasProtocol (e : IPListEntry.t) (proto : string) : bool :=
  let p := IPListEntry.Protocols e in
  if proto =s protocolSSH then negb (Z.land p 1 =? 0)
  else if proto =s protocolFTP then negb (Z.land p 2 =? 0)
  else if proto =s protocolWebDAV then negb (Z.land p 4 =? 0)
  else if proto =s protocolHTTP then negb (Z.land p 8 =? 0)
  else false.

(** * Configurations *)

(* source: internal/dataprovider/configs.go SFTPDConfigs.getACopy *)
Definition sftpd_getACopy (c : SFTPDConfigs.t) : SFTPDConfigs.t :=
  {| SFTPDConfigs.HostKeyAlgos := SFTPDConfigs.HostKeyAlgos c;
     SFTPDConfigs.PublicKeyAlgos := SFTPDConfigs.PublicKeyAlgos c;
     SFTPDConfigs.KexAlgorithms := SFTPDConfigs.KexAlgorithms c;
     SFTPDConfigs.Ciphers := SFTPDConfigs.Ciphers c; SFTPDConfigs.MACs := SFTPDConfigs.MACs c |}.

(** [if s != nil { s = s.Clone() }] *)
Definition cloneIfSet (o : option Secret.t) : option Secret.t :=
  match o with Some s => secret_Clone (Some s) | None => None end.

(* source: internal/dataprovider/configs.go SMTPOAuth2.getACopy *)
Definition oauth2_getACopy (c : SMTPOAuth2.t) : SMTPOAuth2.t :=
  {| SMTPOAuth2.Provider := SMTPOAuth2.Provider c; SMTPOAuth2.Tenant := SMTPOAuth2.Tenant c;
     SMTPOAuth2.ClientID := SMTPOAuth2.ClientID c;
     SMTPOAuth2.ClientSecret := cloneIfSet (SMTPOAuth2.ClientSecret c);
     SMTPOAuth2.RefreshToken := cloneIfSet (SMTPOAuth2.RefreshToken c) |}.

(* source: internal/dataprovider/configs.go SMTPConfigs.getACopy *)
Definition smtp_getACopy (c : SMTPConfigs.t) : SMTPConfigs.t :=
  {| SMTPConfigs.Host := SMTPConfigs.Host c; SMTPConfigs.Port := SMTPConfigs.Port c;
     SMTPConfigs.From := SMTPConfigs.From c; SMTPConfigs.User := SMTPConfigs.User c;
     SMTPConfigs.Password := cloneIfSet (SMTPConfigs.Password c);
     SMTPConfigs.AuthType := SMTPConfigs.AuthType c;
     SMTPConfigs.Encryption := SMTPConfigs.Encryption c;
     SMTPConfigs.Domain := SMTPConfigs.Domain c; SMTPConfigs.Debug := SMTPConfigs.Debug c;
     SMTPConfigs.OAuth2 := oauth2_getACopy (SMTPConfigs.OAuth2 c) |}.

(* source: internal/dataprovider/configs.go ACMEConfigs.getACopy *)
Definition acme_getACopy (c : ACMEConfigs.t) : ACMEConfigs.t :=
  {| ACMEConfigs.Domain := ACMEConfigs.Domain c; ACMEConfigs.Email := ACMEConfigs.Email c;
     ACMEConfigs.HTTP01Port := ACMEConfigs.HTTP01Port c;
     ACMEConfigs.Protocols := ACMEConfigs.Protocols c |}.

(* source: internal/dataprovider/configs.go Configs.getACopy *)
Definition configs_getACopy (c : Configs.t) : Configs.t :=
  {| Configs.SFTPD := sftpd_getACopy <$> Configs.SFTPD c;
     Configs.SMTP := smtp_getACopy <$> Configs.SMTP c;
     Configs.ACME := acme_getACopy <$> Configs.ACME c;
     Configs.UpdatedAt := Configs.UpdatedAt c |}.

