(* ===== verification/UserPerms.v ===== *)
(** What a user may do: permissions for a path, the virtual folder a path is
    in, file name patterns, login methods and addresses, quota and second
    factor requirements (internal/dataprovider/user.go). *)
From S2P Require Import Prelude GoPath Util Net FsConfig Entities.
Open Scope Z_scope.

(** * Constants *)

Definition PermAny : string := "*".
Definition PermListItems : string := "list".
Definition PermDownload : string := "download".
Definition PermUpload : string := "upload".
Definition PermOverwrite : string := "overwrite".
Definition PermDelete : string := "delete".
Definition PermDeleteFiles : string := "delete_files".
Definition PermDeleteDirs : string := "delete_dirs".
Definition PermRename : string := "rename".
Definition PermRenameFiles : string := "rename_files".
Definition PermRenameDirs : string := "rename_dirs".
Definition PermCreateDirs : string := "create_dirs".
Definition PermCreateSymlinks : string := "create_symlinks".
Definition PermChmod : string := "chmod".
Definition PermChown : string := "chown".
Definition PermChtimes : string := "chtimes".

Definition LoginMethodPassword : string := "password".
Definition SSHLoginMethodPassword : string := "password-over-SSH".
Definition SSHLoginMethodPublicKey : string := "publickey".
Definition SSHLoginMethodKeyboardInteractive : string := "keyboard-interactive".
Definition SSHLoginMethodKeyAndPassword : string := "publickey+password".
Definition SSHLoginMethodKeyAndKeyboardInt : string := "publickey+keyboard-interactive".
Definition LoginMethodTLSCertificate : string := "TLSCertificate".
Definition LoginMethodTLSCertificateAndPwd : string := "TLSCertificate+password".

Definition ValidLoginMethods : list string :=
  [SSHLoginMethodPublicKey; LoginMethodPassword; SSHLoginMethodPassword; SSHLoginMethodKeyboardInteractive;
   SSHLoginMethodKeyAndPassword; SSHLoginMethodKeyAndKeyboardInt; LoginMethodTLSCertificate;
   LoginMethodTLSCertificateAndPwd].
Definition SSHMultiStepsLoginMethods : list string :=
  [SSHLoginMethodKeyAndPassword; SSHLoginMethodKeyAndKeyboardInt].
Definition permsRenameAny : list string := [PermRename; PermRenameDirs; PermRenameFiles].
Definition permsDeleteAny : list string := [PermDelete; PermDeleteDirs; PermDeleteFiles].

(** The values of the sdk constants are those of openapi/openapi.yaml. *)
Definition DenyPolicyHide : Z := 1.
Definition TLSUsernameNone : string := "None".
Definition WebClientPubKeyChangeDisabled : string := "publickey-change-disabled".
Definition WebClientWriteDisabled : string := "write-disabled".
Definition WebClientMFADisabled : string := "mfa-disabled".
Definition WebClientPasswordChangeDisabled : string := "password-change-disabled".
Definition WebClientAPIKeyAuthChangeDisabled : string := "api-key-auth-change-disabled".
Definition WebClientInfoChangeDisabled : string := "info-change-disabled".
Definition WebClientSharesDisabled : string := "shares-disabled".
Definition WebClientPasswordResetDisabled : string := "password-reset-disabled".

Definition base_filters (u : User.t) : BaseUserFilters.t := UserFilters.Base (User.Filters u).

(** [GetDirsForVirtualPath] always returns a list ([GetDirs_total]). *)
Definition dirs_of (p : string) : list string := default [] (GetDirsForVirtualPath p).

(** the first element on which [f] is defined *)
Fixpoint first_some {A B} (f : A → option B) (l : list A) : option B :=
  match l with
  | [] => None
  | x :: l' => match f x with Some y => Some y | None => first_some f l' end
  end.

(** * Paths *)

(* source: internal/dataprovider/user.go GetCleanedPath *)
Definition GetCleanedPath (u : User.t) (rawVirtualPath : string) : string :=
  let start := BaseUserFilters.StartDirectory (base_filters u) in
  if negb (start =s "") then
    if negb (is_abs rawVirtualPath) then CleanPath (start +:+ "/" +:+ rawVirtualPath)
    else CleanPath rawVirtualPath
  else CleanPath rawVirtualPath.

Section permissions.
(** The order of [for dir, perms := range u.Permissions]. *)
Variable range : gmap string (list string) → list (string * list string).

Definition matches (pattern name : string) : bool := default false (path_Match pattern name).

(* source: internal/dataprovider/user.go GetPermissionsForPath *)
Definition GetPermissionsForPath (u : User.t) (p : string) : list string :=
  let search permissions :=
    default permissions (first_some (fun dir =>
      match User.Permissions u !! dir with
      | Some perms => Some perms
      | None => first_some (fun '(d, perms) => if matches d dir then Some perms else None) (range (User.Permissions u))
      end) (dirs_of p)) in
  match User.Permissions u !! "/" with
  | Some perms => if bool_decide (size (User.Permissions u) = 1%nat) then perms else search perms
  | None => search []
  end.

(* source: internal/dataprovider/user.go HasPerm *)
Definition HasPerm (u : User.t) (permission path : string) : bool :=
  let perms := GetPermissionsForPath u path in
  if contains perms PermAny then true else contains perms permission.

(* source: internal/dataprovider/user.go HasAnyPerm *)
Definition HasAnyPerm (u : User.t) (permissions : list string) (path : string) : bool :=
  let perms := GetPermissionsForPath u path in
  if contains perms PermAny then true else existsb (contains perms) permissions.

(* source: internal/dataprovider/user.go HasPerms *)
Definition HasPerms (u : User.t) (permissions : list string) (path : string) : bool :=
  let perms := GetPermissionsForPath u path in
  if contains perms PermAny then true else forallb (contains perms) permissions.

(** The loop shared by the two methods below: one of [always] at once, or both
    of [files] and [dirs]. *)
Fixpoint has_both (whole files dirs : string) (f d : bool) (perms : list string) : bool :=
  match perms with
  | [] => f && d
  | permission :: perms' =>
      if (permission =s PermAny) || (permission =s whole) then true
      else has_both whole files dirs (if permission =s files then true else f)
             (if permission =s dirs then true else d) perms'
  end.

(* source: internal/dataprovider/user.go HasPermsDeleteAll *)
Definition HasPermsDeleteAll (u : User.t) (path : string) : bool :=
  has_both PermDelete PermDeleteFiles PermDeleteDirs false false (GetPermissionsForPath u path).

(* source: internal/dataprovider/user.go HasPermsRenameAll *)
Definition HasPermsRenameAll (u : User.t) (path : string) : bool :=
  has_both PermRename PermRenameFiles PermRenameDirs false false (GetPermissionsForPath u path).

(* source: internal/dataprovider/user.go HasPermissionsInside *)
Definition HasPermissionsInside (u : User.t) (virtualPath : string) : bool :=
  existsb (fun '(dir, perms) =>
    if bool_decide (perms = [PermAny]) then false
    else if dir =s virtualPath then true
    else Nat.ltb (String.length virtualPath) (String.length dir) && has_prefix dir (virtualPath +:+ "/"))
    (range (User.Permissions u)).

(* source: internal/dataprovider/user.go GetSubDirPermissions *)
Definition GetSubDirPermissions (u : User.t) : list (string * list string) :=
  List.filter (fun '(k, _) => negb (k =s "/")) (range (User.Permissions u)).

(* source: internal/dataprovider/user.go CanAddFilesFromWeb *)
Definition CanAddFilesFromWeb (u : User.t) (target : string) : bool :=
  if contains (BaseUserFilters.WebClient (base_filters u)) WebClientWriteDisabled then false
  else HasPerm u PermUpload target || HasPerm u PermOverwrite target.

(* source: internal/dataprovider/user.go CanAddDirsFromWeb *)
Definition CanAddDirsFromWeb (u : User.t) (target : string) : bool :=
  if contains (BaseUserFilters.WebClient (base_filters u)) WebClientWriteDisabled then false
  else HasPerm u PermCreateDirs target.

(* source: internal/dataprovider/user.go CanRenameFromWeb *)
Definition CanRenameFromWeb (u : User.t) (src dest : string) : bool :=
  if contains (BaseUserFilters.WebClient (base_filters u)) WebClientWriteDisabled then false
  else HasAnyPerm u permsRenameAny src && HasAnyPerm u permsRenameAny dest.

(* source: internal/dataprovider/user.go CanDeleteFromWeb *)
Definition CanDeleteFromWeb (u : User.t) (target : string) : bool :=
  if contains (BaseUserFilters.WebClient (base_filters u)) WebClientWriteDisabled then false
  else HasAnyPerm u permsDeleteAny target.
End permissions.

(** ** Virtual folders *)

(* source: internal/dataprovider/user.go GetVirtualFolderForPath *)
Definition GetVirtualFolderForPath (u : User.t) (virtualPath : string) : res VirtualFolder.t :=
  let not_found := Err (PlainError "no matching virtual folder found") in
  match User.VirtualFolders u with
  | [] => not_found
  | folders =>
      match first_some (fun dir => List.find (fun v => VirtualFolder.VirtualPath v =s dir) folders)
              (dirs_of virtualPath) with
      | Some v => Ok v
      | None => not_found
      end
  end.

(* source: internal/dataprovider/user.go GetFsConfigForPath *)
Definition GetFsConfigForPath (u : User.t) (virtualPath : string) : Filesystem.t :=
  if negb (virtualPath =s "") && negb (virtualPath =s "/") && bool_decide (0 < length (User.VirtualFolders u))%nat then
    match GetVirtualFolderForPath u virtualPath with
    | Ok folder => vfolder_FsConfig folder
    | Err _ => User.FsConfig u
    end
  else User.FsConfig u.

(** The directories of [p] right below [virtualPath]. *)
Definition dirs_inside (virtualPath p : string) : list string :=
  List.filter (fun d => if d =s "/" then false else path_Dir d =s virtualPath) (dirs_of p).

(** The keys of the map: the values are all [true]. *)
(* source: internal/dataprovider/user.go GetVirtualFoldersInPath *)
Definition GetVirtualFoldersInPath (u : User.t) (virtualPath : string) : gset string :=
  let start := BaseUserFilters.StartDirectory (base_filters u) in
  list_to_set (mjoin ((fun v => dirs_inside virtualPath (VirtualFolder.VirtualPath v)) <$> User.VirtualFolders u))
  ∪ (if negb (start =s "") then list_to_set (dirs_inside virtualPath start) else ∅).

(* source: internal/dataprovider/user.go hasVirtualDirs *)
Definition hasVirtualDirs (u : User.t) : bool :=
  if negb (BaseUserFilters.StartDirectory (base_filters u) =s "") then true
  else match User.VirtualFolders u with
       | [v] => negb (VirtualFolder.VirtualPath v =s "/")
       | l => bool_decide (0 < length l)%nat
       end.

(* source: internal/dataprovider/user.go IsMappedPath *)
Definition IsMappedPath (u : User.t) (fsPath : string) : bool :=
  existsb (fun v => fsPath =s vfolder_MappedPath v) (User.VirtualFolders u).

(* source: internal/dataprovider/user.go IsVirtualFolder *)
Definition IsVirtualFolder (u : User.t) (virtualPath : string) : bool :=
  existsb (fun v => virtualPath =s VirtualFolder.VirtualPath v) (User.VirtualFolders u).

(* source: internal/dataprovider/user.go HasVirtualFoldersInside *)
Definition HasVirtualFoldersInside (u : User.t) (virtualPath : string) : bool :=
  if (virtualPath =s "/") && bool_decide (0 < length (User.VirtualFolders u))%nat then true
  else existsb (fun v =>
         let p := VirtualFolder.VirtualPath v in
         Nat.ltb (String.length virtualPath) (String.length p) && has_prefix p (virtualPath +:+ "/"))
         (User.VirtualFolders u).

(** * File name patterns *)

Section patterns.
(** [sdk.PatternsFilter.CheckAllowed] *)
Variable CheckAllowed : PatternsFilter.t → string → bool.

(** The loop over [dirsForPath]; [prev] is the directory before [dir], the one
    below it, when there is one. *)
Fixpoint patterns_loop (patterns : list PatternsFilter.t) (prev : option string) (dirs : list string)
    : PatternsFilter.t :=
  match dirs with
  | [] => PatternsFilter.zero
  | dir :: dirs' =>
      match List.find (fun f => PatternsFilter.Path f =s dir) patterns with
      | Some f =>
          match prev with
          | Some below =>
              if bool_decide (0 < length (PatternsFilter.AllowedPatterns f))%nat &&
                 bool_decide (head (PatternsFilter.DeniedPatterns f) = Some "*") &&
                 CheckAllowed f (path_Base below)
              then PatternsFilter.zero
              else if negb (PatternsFilter.Path f =s "") then f else patterns_loop patterns (Some dir) dirs'
          | None => if negb (PatternsFilter.Path f =s "") then f else patterns_loop patterns (Some dir) dirs'
          end
      | None => patterns_loop patterns (Some dir) dirs'
      end
  end.

(* source: internal/dataprovider/user.go getPatternsFilterForPath *)
Definition getPatternsFilterForPath (u : User.t) (virtualPath : string) : PatternsFilter.t :=
  match BaseUserFilters.FilePatterns (base_filters u) with
  | [] => PatternsFilter.zero
  | patterns => patterns_loop patterns None (dirs_of virtualPath)
  end.

Fixpoint hidden_loop (u : User.t) (dirs : list string) : bool :=
  match dirs with
  | [] => false
  | dirPath :: dirs' =>
      if dirPath =s "/" then false
      else
        let filter := getPatternsFilterForPath u dirPath in
        if (PatternsFilter.DenyPolicy filter =? DenyPolicyHide) && negb (PatternsFilter.Path filter =s dirPath)
           && negb (CheckAllowed filter (path_Base dirPath))
        then true else hidden_loop u dirs'
  end.

(* source: internal/dataprovider/user.go isDirHidden *)
Definition isDirHidden (u : User.t) (virtualPath : string) : bool :=
  match BaseUserFilters.FilePatterns (base_filters u) with
  | [] => false
  | _ => hidden_loop u (dirs_of virtualPath)
  end.

(* source: internal/dataprovider/user.go IsFileAllowed *)
Definition IsFileAllowed (u : User.t) (virtualPath : string) : bool * Z :=
  let dirPath := path_Dir virtualPath in
  if isDirHidden u dirPath then (false, DenyPolicyHide)
  else
    let filter := getPatternsFilterForPath u dirPath in
    (CheckAllowed filter (path_Base virtualPath), PatternsFilter.DenyPolicy filter).
End patterns.

(** * Login *)

(* source: internal/dataprovider/user.go CheckLoginConditions *)
Definition CheckLoginConditions (now : Z) (u : User.t) : res unit :=
  if User.Status u <? 1 then Err (PlainError "user is disabled")
  else if (0 <? User.ExpirationDate u) && (User.ExpirationDate u <? now) then Err (PlainError "user is expired")
  else Ok tt.

(* source: internal/dataprovider/user.go IsTLSVerificationEnabled *)
Definition IsTLSVerificationEnabled (u : User.t) : bool :=
  if bool_decide (0 < length (BaseUserFilters.TLSCerts (base_filters u)))%nat then true
  else if negb (BaseUserFilters.TLSUsername (base_filters u) =s "")
       then negb (BaseUserFilters.TLSUsername (base_filters u) =s TLSUsernameNone)
       else false.

(* source: internal/dataprovider/user.go IsLoginMethodAllowed *)
Definition IsLoginMethodAllowed (u : User.t) (loginMethod protocol : string) : bool :=
  let denied := BaseUserFilters.DeniedLoginMethods (base_filters u) in
  if bool_decide (length denied = 0%nat) then true
  else if contains denied loginMethod then false
  else if (protocol =s protocolSSH) && (loginMethod =s LoginMethodPassword)
       then negb (contains denied SSHLoginMethodPassword)
       else true.

(* source: internal/dataprovider/user.go GetAllowedLoginMethods *)
Definition GetAllowedLoginMethods (u : User.t) : list string :=
  List.filter (fun method =>
    if method =s SSHLoginMethodPassword then false
    else negb (contains (BaseUserFilters.DeniedLoginMethods (base_filters u)) method)) ValidLoginMethods.

(* source: internal/dataprovider/user.go GetNextAuthMethods *)
Definition GetNextAuthMethods (u : User.t) : list string :=
  mjoin ((fun method =>
    (if method =s SSHLoginMethodKeyAndPassword then [LoginMethodPassword] else []) ++
    (if method =s SSHLoginMethodKeyAndKeyboardInt then [SSHLoginMethodKeyboardInteractive] else []))
    <$> GetAllowedLoginMethods u).

(* source: internal/dataprovider/user.go IsPartialAuth *)
Definition IsPartialAuth (u : User.t) : bool :=
  forallb (fun method =>
    if (method =s LoginMethodTLSCertificate) || (method =s LoginMethodTLSCertificateAndPwd)
       || (method =s SSHLoginMethodPassword) then true
    else if (method =s LoginMethodPassword)
            && contains (BaseUserFilters.DeniedLoginMethods (base_filters u)) SSHLoginMethodPassword then true
    else contains SSHMultiStepsLoginMethods method) (GetAllowedLoginMethods u).

(** Loops over networks: [None] when one cannot be parsed, else whether one
    contains the address; the loop stops at the first that does. *)
Fixpoint any_network (remoteIP : list Z) (masks : list string) : option bool :=
  match masks with
  | [] => Some false
  | IPMask :: masks' =>
      match ParseCIDR IPMask with
      | None => None
      | Some (_, n) => if IPNet_Contains n remoteIP then Some true else any_network remoteIP masks'
      end
  end.

(* source: internal/dataprovider/user.go IsLoginFromAddrAllowed *)
Definition IsLoginFromAddrAllowed (u : User.t) (remoteAddr : string) : bool :=
  let allowed := BaseUserFilters.AllowedIP (base_filters u) in
  let denied := BaseUserFilters.DeniedIP (base_filters u) in
  if bool_decide (length allowed = 0%nat) && bool_decide (length denied = 0%nat) then true
  else match ParseIP (GetIPFromRemoteAddress remoteAddr) with
       | None => true
       | Some remoteIP =>
           match any_network remoteIP allowed with
           | None => false
           | Some true => true
           | Some false =>
               match any_network remoteIP denied with
               | None => false
               | Some true => false
               | Some false => bool_decide (length allowed = 0%nat)
               end
           end
       end.

(* source: internal/dataprovider/user.go GetBandwidthForIP *)
Definition GetBandwidthForIP (u : User.t) (clientIP : string) : Z * Z :=
  let main := (User.UploadBandwidth u, User.DownloadBandwidth u) in
  match ParseIP clientIP with
  | None => main
  | Some ip =>
      default main (first_some (fun bwLimit =>
        if existsb (fun source => match ParseCIDR source with
                                  | Some (_, n) => IPNet_Contains n ip
                                  | None => false
                                  end) (BandwidthLimit.Sources bwLimit)
        then Some (BandwidthLimit.UploadBandwidth bwLimit, BandwidthLimit.DownloadBandwidth bwLimit)
        else None) (BaseUserFilters.BandwidthLimits (base_filters u)))
  end.

(* source: internal/dataprovider/user.go MustSetSecondFactorForProtocol *)
Definition MustSetSecondFactorForProtocol (u : User.t) (protocol : string) : bool :=
  let totp := UserFilters.TOTPConfig (User.Filters u) in
  contains (BaseUserFilters.TwoFactorAuthProtocols (base_filters u)) protocol &&
  (negb (UserTOTPConfig.Enabled totp) || negb (contains (UserTOTPConfig.Protocols totp) protocol)).

(* source: internal/dataprovider/user.go MustSetSecondFactor *)
Definition MustSetSecondFactor (u : User.t) : bool :=
  let totp := UserFilters.TOTPConfig (User.Filters u) in
  match BaseUserFilters.TwoFactorAuthProtocols (base_filters u) with
  | [] => false
  | protocols =>
      if negb (UserTOTPConfig.Enabled totp) then true
      else existsb (fun p => negb (contains (UserTOTPConfig.Protocols totp) p)) protocols
  end.

(* source: internal/dataprovider/user.go setAnonymousSettings *)
Definition setAnonymousSettings (u : User.t) : User.t :=
  u <| User.Permissions ::= fmap (fun _ => [PermListItems; PermDownload]) |>
    <| User.Filters ::= fun f => f <| UserFilters.Base ::= fun b =>
         b <| BaseUserFilters.DeniedProtocols ::= fun l =>
                RemoveDuplicates (l ++ [protocolSSH; protocolHTTP]) false |>
           <| BaseUserFilters.DeniedLoginMethods ::= fun l =>
                RemoveDuplicates (l ++ List.filter (fun m => negb (m =s LoginMethodPassword)) ValidLoginMethods) false |> |> |>.

(** * Limits and options *)

(* source: internal/dataprovider/user.go HasNoQuotaRestrictions *)
Definition HasNoQuotaRestrictions (u : User.t) (checkFiles : bool) : bool :=
  (User.QuotaSize u =? 0) && (negb checkFiles || (User.QuotaFiles u =? 0)).

(* source: internal/dataprovider/user.go HasQuotaRestrictions *)
Definition HasQuotaRestrictions (u : User.t) : bool := (0 <? User.QuotaFiles u) || (0 <? User.QuotaSize u).

(* source: internal/dataprovider/user.go HasTransferQuotaRestrictions *)
Definition HasTransferQuotaRestrictions (u : User.t) : bool :=
  (0 <? User.UploadDataTransfer u) || (0 <? User.TotalDataTransfer u) || (0 <? User.DownloadDataTransfer u).

(** Upload, download and total limits in bytes, from limits in MB. *)
(* source: internal/dataprovider/user.go GetDataTransferLimits *)
Definition GetDataTransferLimits (u : User.t) : Z * Z * Z :=
  let bytes mb := if 0 <? mb then mul64 mb 1048576 else 0 in
  (bytes (User.UploadDataTransfer u), bytes (User.DownloadDataTransfer u), bytes (User.TotalDataTransfer u)).

Definition valid_os_id (id : Z) : Z := if (id <=? 0) || (2147483647 <? id) then -1 else id.
(* source: internal/dataprovider/user.go GetUID *)
Definition GetUID (u : User.t) : Z := valid_os_id (User.UID u).
(* source: internal/dataprovider/user.go GetGID *)
Definition GetGID (u : User.t) : Z := valid_os_id (User.GID u).

(* source: internal/dataprovider/user.go CountUnusedRecoveryCodes *)
Definition CountUnusedRecoveryCodes (u : User.t) : Z :=
  foldl (fun unused code => if negb (RecoveryCode.Used code) then unused + 1 else unused) 0
    (UserFilters.RecoveryCodes (User.Filters u)).

Definition web_enabled (option : string) (u : User.t) : bool :=
  negb (contains (BaseUserFilters.WebClient (base_filters u)) option).
(* source: internal/dataprovider/user.go CanManageShares *)
Definition CanManageShares : User.t → bool := web_enabled WebClientSharesDisabled.
(* source: internal/dataprovider/user.go CanResetPassword *)
Definition CanResetPassword : User.t → bool := web_enabled WebClientPasswordResetDisabled.
(* source: internal/dataprovider/user.go CanChangePassword *)
Definition CanChangePassword : User.t → bool := web_enabled WebClientPasswordChangeDisabled.
(* source: internal/dataprovider/user.go CanChangeAPIKeyAuth *)
Definition CanChangeAPIKeyAuth : User.t → bool := web_enabled WebClientAPIKeyAuthChangeDisabled.
(* source: internal/dataprovider/user.go CanChangeInfo *)
Definition CanChangeInfo : User.t → bool := web_enabled WebClientInfoChangeDisabled.
(* source: internal/dataprovider/user.go CanManagePublicKeys *)
Definition CanManagePublicKeys : User.t → bool := web_enabled WebClientPubKeyChangeDisabled.

(** * Directory listings *)

Section listing.
Variable CheckAllowed : PatternsFilter.t → string → bool.
(** [os.FileInfo], of which the code uses the name and the type. *)
Context {I : Type} (fi_Name : I → string) (fi_IsDir : I → bool).
(** [vfs.NewFileInfo(name, true, 0, time.Unix(0, 0), false)] *)
Variable new_dir : string → I.
(** the order of [for dir := range vdirs] *)
Variable range : gset string → list string.

(** The loop over the entries; [hide] is the test on the deny policy, [vdirs]
    the virtual directories that have not been seen yet. *)
Fixpoint list_loop (hide : bool) (filter : PatternsFilter.t) (vdirs : gset string) (entries : list I)
    : list I * gset string :=
  match entries with
  | [] => ([], vdirs)
  | fi :: entries' =>
      let '(fi, vdirs) :=
        if bool_decide (fi_Name fi ∈ vdirs)
        then (if fi_IsDir fi then fi else new_dir (fi_Name fi), vdirs ∖ {[fi_Name fi]})
        else (fi, vdirs) in
      let '(rest, vdirs) := list_loop hide filter vdirs entries' in
      (if hide && negb (CheckAllowed filter (fi_Name fi)) then rest else fi :: rest, vdirs)
  end.

(** The listing is rewritten in place and returned. *)
(* source: internal/dataprovider/user.go FilterListDir *)
Definition FilterListDir (u : User.t) (dirContents : list I) (virtualPath : string) : list I :=
  let filter := getPatternsFilterForPath CheckAllowed u virtualPath in
  let hide := PatternsFilter.DenyPolicy filter =? DenyPolicyHide in
  if negb (hasVirtualDirs u) && negb hide then dirContents
  else
    let names := path_Base <$> elements (GetVirtualFoldersInPath u virtualPath) in
    let vdirs : gset string :=
      list_to_set (List.filter (fun name => if hide then CheckAllowed filter name else true) names) in
    let '(kept, vdirs) := list_loop hide filter vdirs dirContents in
    kept ++ (new_dir <$> range vdirs).
End listing.

(** * Facts *)

Lemma dirs_of_abs cs : Forall normal cs → dirs_of (abs_path cs) = ancestors cs.
Proof. intros H. unfold dirs_of. by rewrite GetDirs_normal. Qed.

Lemma first_some_None {A B} (f : A → option B) l : first_some f l = None ↔ ∀ x, x ∈ l → f x = None.
Proof.
  induction l as [|y l IH]; simpl; [split; [set_solver|done]|].
  destruct (f y) eqn:Hy.
  - split; [done|]. intros H. specialize (H y). rewrite Hy in H. by apply H; left.
  - rewrite IH. split; [|intros H x Hx; apply H; by right].
    intros H x [->|Hx]%elem_of_cons; [done|by apply H].
Qed.

Lemma first_some_Some {A B} (f : A → option B) l v : first_some f l = Some v →
  ∃ i x, l !! i = Some x ∧ f x = Some v ∧ ∀ j y, (j < i)%nat → l !! j = Some y → f y = None.
Proof.
  induction l as [|y l IH]; simpl; [done|]. destruct (f y) as [w|] eqn:Hy.
  - intros [= ->]. exists 0%nat, y. split_and!; [done..|lia].
  - intros (i & x & Hi & Hf & Hb)%IH. exists (S i), x. split_and!; [done..|].
    intros [|j] z Hj Hz; [by injection Hz as <-|]. by eapply (Hb j); [lia|].
Qed.

Lemma ancestors_lookup cs i : (i ≤ length cs)%nat → ancestors cs !! i = Some (abs_path (take (length cs - i) cs)).
Proof.
  revert i; induction cs as [|c cs IH] using rev_ind; intros i Hi.
  - simpl in Hi. replace i with 0%nat by lia. by rewrite ancestors_nil.
  - rewrite ancestors_snoc, length_app. simpl. destruct i as [|i]; simpl.
    + by rewrite take_ge by (rewrite length_app; simpl; lia).
    + rewrite length_app in Hi. simpl in Hi. rewrite IH by lia.
      replace (length cs + 1 - S i)%nat with (length cs - i)%nat by lia. by rewrite take_app_le by lia.
Qed.
Lemma ancestors_length cs : length (ancestors cs) = S (length cs).
Proof. unfold ancestors. by rewrite length_fmap, length_reverse, length_seq. Qed.

Lemma GetVirtualFoldersInPath_none u p : hasVirtualDirs u = false → GetVirtualFoldersInPath u p = ∅.
Proof.
  unfold hasVirtualDirs, GetVirtualFoldersInPath. destruct (negb _); [done|].
  destruct (User.VirtualFolders u) as [|v [|v' l]]; simpl; intros H.
  - reflexivity.
  - apply negb_false_iff, String.eqb_eq in H. rewrite H. reflexivity.
  - done.
Qed.

Lemma only_key {B} (m : gmap string B) k v k' v' :
  m !! k = Some v → size m = 1%nat → m !! k' = Some v' → k' = k ∧ v' = v.
Proof.
  intros Hk Hs Hk'. assert (delete k m = ∅) as He.
  { apply map_size_empty_inv. rewrite map_size_delete, Hk, Hs. done. }
  destruct (decide (k' = k)) as [->|Hne]; [by simplify_eq|].
  assert (delete k m !! k' = Some v') as H by by rewrite lookup_delete_ne. by rewrite He in H.
Qed.

(** ** Properties *)

(** the permissions configured for a directory: its own entry or, when it has
    none, an entry whose pattern matches it *)
Definition configured (u : User.t) (dir : string) (perms : list string) : Prop :=
  User.Permissions u !! dir = Some perms ∨
  (User.Permissions u !! dir = None ∧ ∃ pattern, User.Permissions u !! pattern = Some perms ∧ path_Match pattern dir = Some true).

Section nearest.
Variable range : gmap string (list string) → list (string * list string).
Hypothesis range_perm : ∀ m, range m ≡ₚ map_to_list m.
Variable u : User.t.

Definition find_configured (dir : string) : option (list string) :=
  match User.Permissions u !! dir with
  | Some perms => Some perms
  | None => first_some (fun '(d, perms) => if matches d dir then Some perms else None) (range (User.Permissions u))
  end.
Lemma find_configured_spec dir :
  match find_configured dir with Some perms => configured u dir perms | None => ∀ perms, ¬ configured u dir perms end.
Proof.
  unfold find_configured, configured. destruct (User.Permissions u !! dir) as [perms|] eqn:Hd; [by left|].
  destruct (first_some _ _) as [perms|] eqn:Hf.
  - apply first_some_Some in Hf as (i & [d v] & Hi & Hm & _). right. split; [done|]. exists d. unfold matches in Hm.
    destruct (path_Match d dir) as [[]|]; [|done..]. injection Hm as ->. split; [|done].
    apply elem_of_map_to_list. rewrite <- range_perm. by eapply list_elem_of_lookup_2.
  - intros perms [?|(_ & d & Hl & Hm)]; [done|].
    pose proof (proj1 (first_some_None _ _) Hf (d, perms)) as H. unfold matches in H. rewrite Hm in H.
    discriminate H. rewrite range_perm. by apply elem_of_map_to_list.
Qed.
Lemma GetPermissionsForPath_find cs : Forall normal cs →
  GetPermissionsForPath range u (abs_path cs) = default [] (first_some find_configured (ancestors cs)).
Proof.
  intros Hcs. unfold GetPermissionsForPath. rewrite dirs_of_abs by done. change (fun dir => match User.Permissions u !! dir with _ => _ end) with find_configured.
  destruct (User.Permissions u !! "/") as [root|] eqn:Hroot; [|done].
  destruct (first_some find_configured (ancestors cs)) as [perms|] eqn:Hf.
  - case_bool_decide as Hsize; [|done]. (* only the root has permissions *)
    apply first_some_Some in Hf as (i & d & _ & Hd & _). pose proof (find_configured_spec d) as Hc. rewrite Hd in Hc.
    destruct Hc as [Hl|(_ & pattern & Hl & _)]; by destruct (only_key _ _ _ _ _ Hroot Hsize Hl) as [_ ->].
  - assert (find_configured "/" = None) as H.
    { apply (proj1 (first_some_None _ _) Hf), elem_of_ancestors. exists 0%nat. split; [lia|done]. }
    unfold find_configured in H. by rewrite Hroot in H.
Qed.

(** C3: The permissions for a path are those configured for the nearest
    directory above it (or the path itself) that has any, by an entry of its own
    or, without one, by an entry whose pattern matches it; directories closer to
    the root do not matter.  Without any there are no permissions. *)
Theorem GetPermissionsForPath_nearest cs : Forall normal cs →
  let nothing j := ∀ perms, ¬ configured u (abs_path (take j cs)) perms in
  let perms := GetPermissionsForPath range u (abs_path cs) in
  (∃ k, (k ≤ length cs)%nat ∧ configured u (abs_path (take k cs)) perms ∧ ∀ j, (k < j ≤ length cs)%nat → nothing j) ∨
  (perms = [] ∧ ∀ j, (j ≤ length cs)%nat → nothing j).
Proof.
  intros Hcs. cbn zeta. rewrite GetPermissionsForPath_find by done. destruct (first_some find_configured (ancestors cs)) as [perms|] eqn:Hf.
  - left. apply first_some_Some in Hf as (i & d & Hi & Hd & Hbefore).
    assert (i ≤ length cs)%nat as Hil by (apply lookup_lt_Some in Hi; rewrite ancestors_length in Hi; lia).
    rewrite ancestors_lookup in Hi by done. injection Hi as <-. exists (length cs - i)%nat. split; [lia|]. cbn [default].
    split; [pose proof (find_configured_spec (abs_path (take (length cs - i) cs))) as Hc; by rewrite Hd in Hc|].
    intros j Hj. pose proof (find_configured_spec (abs_path (take j cs))) as Hc.
    rewrite (Hbefore (length cs - j)%nat) in Hc; [done|lia|]. rewrite ancestors_lookup by lia.
    by replace (length cs - (length cs - j))%nat with j by lia.
  - right. split; [done|]. intros j Hj. pose proof (find_configured_spec (abs_path (take j cs))) as Hc.
    rewrite (proj1 (first_some_None _ _) Hf) in Hc; [done|]. apply elem_of_ancestors. by exists j.
Qed.
End nearest.

Definition sample_user : User.t :=
  User.zero <| User.Username := "bob" |>
    <| User.Permissions := {["/" := [PermAny]; "/docs" := [PermListItems]; "/docs/*/drafts" := [PermUpload]]} |>.

Lemma GetPermissionsForPath_nearest_witness :
  let perms := GetPermissionsForPath map_to_list sample_user "/docs/a/drafts/x" in
  perms = [PermUpload] ∧
  ((∃ k, (k ≤ 4)%nat ∧ configured sample_user (abs_path (take k ["docs"; "a"; "drafts"; "x"])) perms ∧
     ∀ j, (k < j ≤ 4)%nat → ∀ perms, ¬ configured sample_user (abs_path (take j ["docs"; "a"; "drafts"; "x"])) perms) ∨
   (perms = [] ∧ ∀ j, (j ≤ 4)%nat → ∀ perms, ¬ configured sample_user (abs_path (take j ["docs"; "a"; "drafts"; "x"])) perms)).
Proof.
  split; [vm_compute; reflexivity|].
  apply (GetPermissionsForPath_nearest map_to_list (fun m => Permutation_refl _) sample_user ["docs"; "a"; "drafts"; "x"]).
  repeat constructor; done.
Defined.

(** A user that has no permission entry for a path, nor for any directory
    above it, is denied everything there. *)
Theorem GetPermissionsForPath_default_deny range u cs permission
    (Hcs : Forall normal cs)
    (Hnone : ∀ j, (j ≤ length cs)%nat → User.Permissions u !! abs_path (take j cs) = None)
    (Hpat : ∀ j d v, (j ≤ length cs)%nat → (d, v) ∈ range (User.Permissions u) →
            path_Match d (abs_path (take j cs)) ≠ Some true) :
  GetPermissionsForPath range u (abs_path cs) = [] ∧ HasPerm range u permission (abs_path cs) = false.
Proof.
  assert (GetPermissionsForPath range u (abs_path cs) = []) as Hnil.
  { unfold GetPermissionsForPath. pose proof (Hnone 0%nat) as Hroot.
    change (abs_path (take 0 cs)) with "/" in Hroot. rewrite Hroot by lia.
    rewrite dirs_of_abs by done. erewrite (proj2 (first_some_None _ _)); [done|].
    intros x Hx. apply elem_of_ancestors in Hx as (k & Hk & ->). rewrite Hnone by done.
    apply first_some_None. intros [d v] Hdv. unfold matches.
    specialize (Hpat k d v Hk Hdv). by destruct (path_Match d _) as [[]|]. }
  split; [done|]. unfold HasPerm. by rewrite Hnil.
Qed.

Lemma GetPermissionsForPath_default_deny_witness :
  let u := User.zero <| User.Permissions := {["/docs" := [PermAny]]} |> in
  GetPermissionsForPath map_to_list u "/src" = [] ∧ HasPerm map_to_list u PermListItems "/src" = false.
Proof.
  intros u. apply (GetPermissionsForPath_default_deny map_to_list u ["src"] PermListItems).
  - repeat constructor; done.
  - intros j Hj. simpl in Hj. assert (j = 0 ∨ j = 1)%nat as [->| ->] by lia; reflexivity.
  - intros j d v Hj Hin. simpl in Hj. change (map_to_list (User.Permissions u)) with [("/docs", [PermAny])] in Hin.
    apply list_elem_of_singleton in Hin as [= -> ->].
    assert (j = 0 ∨ j = 1)%nat as [->| ->] by lia; vm_compute; congruence.
Defined.

(** C4: a clean path is in the virtual folder with the deepest virtual path
    among those that contain it, and in none when none does. *)
Theorem GetVirtualFolderForPath_deepest u cs (Hcs : Forall normal cs) :
  match GetVirtualFolderForPath u (abs_path cs) with
  | Ok v => v ∈ User.VirtualFolders u ∧ ∃ k, (k ≤ length cs)%nat ∧ VirtualFolder.VirtualPath v = abs_path (take k cs) ∧
      ∀ w j, w ∈ User.VirtualFolders u → (j ≤ length cs)%nat → VirtualFolder.VirtualPath w = abs_path (take j cs) → (j ≤ k)%nat
  | Err _ => ∀ w j, w ∈ User.VirtualFolders u → (j ≤ length cs)%nat → VirtualFolder.VirtualPath w ≠ abs_path (take j cs)
  end.
Proof.
  unfold GetVirtualFolderForPath. destruct (User.VirtualFolders u) as [|v0 l0] eqn:Hl; [set_solver|].
  rewrite <-Hl. clear v0 l0 Hl. rewrite dirs_of_abs by done.
  set (find d := List.find (fun v => VirtualFolder.VirtualPath v =s d) (User.VirtualFolders u)).
  assert (∀ w d, w ∈ User.VirtualFolders u → VirtualFolder.VirtualPath w = d → find d ≠ None) as Hfind.
  { intros w d Hw Hd Hn. apply list_elem_of_In in Hw. pose proof (find_none _ _ Hn w Hw) as H. simpl in H.
    by rewrite Hd, String.eqb_refl in H. }
  destruct (first_some find (ancestors cs)) as [v|] eqn:Hf.
  - apply first_some_Some in Hf as (i & d & Hi & Hd & Hbefore).
    assert (i ≤ length cs)%nat as Hil by (apply lookup_lt_Some in Hi; rewrite ancestors_length in Hi; lia).
    rewrite ancestors_lookup in Hi by done. injection Hi as <-.
    apply find_some in Hd as [Hin Hp%String.eqb_eq]. split; [by apply list_elem_of_In|].
    exists (length cs - i)%nat. split_and!; [lia|done|]. intros w j Hw Hj Hwp.
    destruct (decide (j ≤ length cs - i)%nat) as [|Hlt]; [done|]. exfalso.
    apply (Hfind w _ Hw Hwp). apply (Hbefore (length cs - j)%nat); [lia|].
    rewrite ancestors_lookup by lia. by replace (length cs - (length cs - j))%nat with j by lia.
  - intros w j Hw Hj Hwp. apply (Hfind w _ Hw Hwp).
    apply (proj1 (first_some_None _ _) Hf). apply elem_of_ancestors. by exists j.
Qed.

Lemma GetVirtualFolderForPath_deepest_witness :
  let f p := VirtualFolder.zero <| VirtualFolder.VirtualPath := p |> in
  let u := User.zero <| User.VirtualFolders := [f "/a"; f "/a/b"; f "/c"] |> in
  match GetVirtualFolderForPath u "/a/b/x" with
  | Ok v => v ∈ User.VirtualFolders u ∧ ∃ k, (k ≤ 3)%nat ∧ VirtualFolder.VirtualPath v = abs_path (take k ["a"; "b"; "x"]) ∧
      ∀ w j, w ∈ User.VirtualFolders u → (j ≤ 3)%nat → VirtualFolder.VirtualPath w = abs_path (take j ["a"; "b"; "x"]) → (j ≤ k)%nat
  | Err _ => ∀ w j, w ∈ User.VirtualFolders u → (j ≤ 3)%nat → VirtualFolder.VirtualPath w ≠ abs_path (take j ["a"; "b"; "x"])
  end.
Proof. intros f u. apply (GetVirtualFolderForPath_deepest u ["a"; "b"; "x"]). repeat constructor; done. Defined.

(** ** Directory listings *)

Section listing_facts.
Context {I : Type} (CheckAllowed : PatternsFilter.t → string → bool) (fi_Name : I → string) (fi_IsDir : I → bool)
  (new_dir : string → I).
Hypothesis new_dir_name : ∀ n, fi_Name (new_dir n) = n.
Hypothesis new_dir_dir : ∀ n, fi_IsDir (new_dir n) = true.

Lemma list_loop_spec hide filter entries : ∀ vdirs,
  NoDup (fi_Name <$> entries) →
  let '(kept, rest) := list_loop CheckAllowed fi_Name fi_IsDir new_dir hide filter vdirs entries in
  rest = vdirs ∖ list_to_set (fi_Name <$> entries) ∧
  fi_Name <$> kept = List.filter (fun n => negb hide || CheckAllowed filter n) (fi_Name <$> entries) ∧
  ∀ x, x ∈ kept → fi_Name x ∈ vdirs → fi_IsDir x = true.
Proof.
  induction entries as [|fi entries IH]; intros vdirs Hnd; simpl.
  { split_and!; [set_solver|done|set_solver]. }
  apply NoDup_cons in Hnd as [Hfi Hnd].
  remember (if fi_IsDir fi then fi else new_dir (fi_Name fi)) as fi' eqn:Hfi'.
  assert (fi_Name fi' = fi_Name fi) as Hn by (subst fi'; destruct (fi_IsDir fi); auto).
  assert (fi_IsDir fi' = true) as Hd by (subst fi'; destruct (fi_IsDir fi) eqn:?; auto).
  clear Hfi'.
  case_bool_decide as Hin; cbn [fst snd].
  - specialize (IH (vdirs ∖ {[fi_Name fi]}) Hnd).
    destruct (list_loop CheckAllowed fi_Name fi_IsDir new_dir hide filter _ entries) as [kept rest]. destruct IH as (-> & Hk & Hv).
    split; [set_solver|]. rewrite Hn. split.
    + destruct hide, (CheckAllowed filter (fi_Name fi)); simpl; rewrite ?Hn;
        try change (list_fmap I string fi_Name kept) with (fi_Name <$> kept); rewrite ?Hk; done.
    + intros x Hx Hxv. assert (x = fi' ∨ x ∈ kept) as [->|Hx'] by
        (destruct (hide && _); [by right|by apply elem_of_cons in Hx]); [done|].
      apply Hv; [done|]. assert (fi_Name x ∈ fi_Name <$> entries) as Hxe.
      { assert (fi_Name x ∈ fi_Name <$> kept) as H by (by apply list_elem_of_fmap_2). rewrite Hk in H.
        apply list_elem_of_In, filter_In in H as [H _]. by apply list_elem_of_In. }
      apply elem_of_difference. split; [done|]. intros Heq%elem_of_singleton. by rewrite <-Heq in Hfi.
  - specialize (IH vdirs Hnd).
    destruct (list_loop CheckAllowed fi_Name fi_IsDir new_dir hide filter _ entries) as [kept rest]. destruct IH as (-> & Hk & Hv).
    split; [set_solver|]. split.
    + destruct hide, (CheckAllowed filter (fi_Name fi)); simpl;
        try change (list_fmap I string fi_Name kept) with (fi_Name <$> kept); rewrite ?Hk; done.
    + intros x Hx Hxv. assert (x = fi ∨ x ∈ kept) as [->|Hx'] by
        (destruct (hide && _); [by right|by apply elem_of_cons in Hx]); [done|by apply Hv].
Qed.

(** a name the filter does not hide *)
Definition shown (filter : PatternsFilter.t) (n : string) : bool :=
  negb (PatternsFilter.DenyPolicy filter =? DenyPolicyHide) || CheckAllowed filter n.

(** the names of the virtual directories to show *)
Definition virtual_names (u : User.t) (p : string) : gset string :=
  list_to_set (List.filter (shown (getPatternsFilterForPath CheckAllowed u p))
                 (path_Base <$> elements (GetVirtualFoldersInPath u p))).

Lemma elem_of_virtual_names u p n : n ∈ virtual_names u p ↔
  shown (getPatternsFilterForPath CheckAllowed u p) n = true ∧ ∃ d, d ∈ GetVirtualFoldersInPath u p ∧ n = path_Base d.
Proof.
  unfold virtual_names. rewrite elem_of_list_to_set, list_elem_of_In, filter_In, <-list_elem_of_In, list_elem_of_fmap.
  setoid_rewrite elem_of_elements. naive_solver.
Qed.

Lemma FilterListDir_names range u l p : NoDup (fi_Name <$> l) →
  let filter := getPatternsFilterForPath CheckAllowed u p in
  let l' := FilterListDir CheckAllowed fi_Name fi_IsDir new_dir range u l p in
  hasVirtualDirs u = true ∨ (PatternsFilter.DenyPolicy filter =? DenyPolicyHide) = true →
  fi_Name <$> l' = List.filter (shown filter) (fi_Name <$> l) ++
                   range (virtual_names u p ∖ list_to_set (fi_Name <$> l)) ∧
  ∀ x, x ∈ l' → fi_Name x ∈ virtual_names u p → fi_IsDir x = true.
Proof.
  intros Hnd filter l' Hor. assert (Hl' : l' = FilterListDir CheckAllowed fi_Name fi_IsDir new_dir range u l p) by done.
  clearbody l'. unfold FilterListDir in Hl'. cbv zeta in Hl'. fold filter in Hl'.
  set (hide := PatternsFilter.DenyPolicy filter =? DenyPolicyHide) in *.
  assert (negb (hasVirtualDirs u) && negb hide = false) as Hgo by (destruct Hor as [-> | ->]; [done|apply andb_false_r]).
  rewrite Hgo in Hl'.
  assert ((list_to_set (List.filter (fun name => if hide then CheckAllowed filter name else true)
    (path_Base <$> elements (GetVirtualFoldersInPath u p))) : gset string) = virtual_names u p) as Hvd.
  { unfold virtual_names. f_equal. apply filter_ext. intros n. unfold shown. fold filter hide. by destruct hide. }
  rewrite Hvd in Hl'.
  pose proof (list_loop_spec hide filter l
    (virtual_names u p) Hnd) as Hspec.
  destruct (list_loop _ _ _ _ hide filter _ l) as [kept rest]. destruct Hspec as (-> & Hk & Hd). subst l'. split.
  - rewrite fmap_app, Hk, <-list_fmap_compose. f_equal.
    rewrite <-(list_fmap_id (range _)) at 2. apply list_fmap_ext. intros ? x _. apply new_dir_name.
  - intros x [Hx|Hx]%elem_of_app Hxv; [by apply Hd|]. apply list_elem_of_fmap in Hx as (n & -> & _). apply new_dir_dir.
Qed.
End listing_facts.

Lemma elem_of_filter_b {A} (f : A → bool) l x : x ∈ List.filter f l ↔ x ∈ l ∧ f x = true.
Proof. by rewrite list_elem_of_In, filter_In, <-list_elem_of_In. Qed.

(** A directory listing shows every virtual folder below the directory as
    a directory (but for those the hiding filter denies), hides what that
    filter denies, keeps everything else, and lists no name twice. *)
Theorem FilterListDir_listing {I} CheckAllowed (fi_Name : I → string) fi_IsDir new_dir range u l p
    (Hname : ∀ n, fi_Name (new_dir n) = n) (Hdir : ∀ n, fi_IsDir (new_dir n) = true)
    (Hrange : ∀ s : gset string, range s ≡ₚ elements s) (Hnd : NoDup (fi_Name <$> l)) :
  let shown := shown CheckAllowed (getPatternsFilterForPath CheckAllowed u p) in
  let l' := FilterListDir CheckAllowed fi_Name fi_IsDir new_dir range u l p in
  NoDup (fi_Name <$> l') ∧
  (∀ n, n ∈ fi_Name <$> l' ↔ shown n = true ∧
     (n ∈ fi_Name <$> l ∨ ∃ d, d ∈ GetVirtualFoldersInPath u p ∧ n = path_Base d)) ∧
  (∀ x d, x ∈ l' → d ∈ GetVirtualFoldersInPath u p → fi_Name x = path_Base d → fi_IsDir x = true).
Proof.
  intros sh l'. pose proof (FilterListDir_names CheckAllowed fi_Name fi_IsDir new_dir Hname Hdir range u l p Hnd) as H.
  pose proof (elem_of_virtual_names CheckAllowed u p) as Hvd. fold sh l' in H, Hvd. cbv zeta in H.
  destruct (decide (hasVirtualDirs u = true ∨
    (PatternsFilter.DenyPolicy (getPatternsFilterForPath CheckAllowed u p) =? DenyPolicyHide) = true)) as [Hor|Hno].
  - specialize (H Hor). destruct H as [Hl' Hd]. rewrite Hl'.
    assert (∀ n, n ∈ List.filter sh (fi_Name <$> l) ++ range (virtual_names CheckAllowed u p ∖ list_to_set (fi_Name <$> l)) ↔
      sh n = true ∧ (n ∈ fi_Name <$> l ∨ ∃ d, d ∈ GetVirtualFoldersInPath u p ∧ n = path_Base d)) as Hin.
    { intros n. rewrite elem_of_app, elem_of_filter_b, Hrange, elem_of_elements, elem_of_difference, elem_of_list_to_set, Hvd.
      destruct (decide (n ∈ fi_Name <$> l)); naive_solver. }
    split_and!; [|done|].
    + apply NoDup_app. split_and!; [by apply NoDup_ListNoDup, List.NoDup_filter, NoDup_ListNoDup| |].
      * intros n [Hn _]%elem_of_filter_b. rewrite Hrange, elem_of_elements. set_solver.
      * rewrite Hrange. apply NoDup_elements.
    + intros x d Hx Hdin Hxd. apply Hd; [done|]. apply Hvd. split; [|eauto].
      assert (fi_Name x ∈ fi_Name <$> l') as Hxk by (by apply list_elem_of_fmap_2). rewrite Hl' in Hxk. by apply Hin in Hxk as [Hxk _].
  - clear H. apply Decidable.not_or in Hno as [Hv%not_true_is_false Hh%not_true_is_false].
    assert (l' = l) as -> by (subst l'; unfold FilterListDir; by rewrite Hv, Hh).
    assert (∀ n, sh n = true) as Hsh by (intros n; subst sh; unfold UserPerms.shown; by rewrite Hh).
    rewrite (GetVirtualFoldersInPath_none u p Hv). split_and!; [done| |set_solver].
    intros n. rewrite Hsh. set_solver.
Qed.

(** The listing of the directory of [u]: a file that a virtual folder covers. *)
Lemma FilterListDir_listing_witness :
  let u := User.zero <| User.VirtualFolders := [VirtualFolder.zero <| VirtualFolder.VirtualPath := "/a/b" |>] |> in
  let l' := FilterListDir (fun _ _ => true) fst snd (fun n => (n, true)) elements u [("b", false); ("c", false)] "/a" in
  l' = [("b", true); ("c", false)] ∧
  NoDup (fst <$> l') ∧
  (∀ n, n ∈ fst <$> l' ↔ shown (fun _ _ => true) (getPatternsFilterForPath (fun _ _ => true) u "/a") n = true ∧
     (n ∈ fst <$> [("b", false); ("c", false)] ∨ ∃ d, d ∈ GetVirtualFoldersInPath u "/a" ∧ n = path_Base d)) ∧
  (∀ x d, x ∈ l' → d ∈ GetVirtualFoldersInPath u "/a" → fst x = path_Base d → snd x = true).
Proof.
  intros u l'. split; [vm_compute; reflexivity|].
  apply (FilterListDir_listing (fun _ _ => true) fst snd (fun n => (n, true)) elements u _ "/a"); try done.
  apply NoDup_cons_2; [|apply NoDup_singleton]. by intros ?%list_elem_of_singleton.
Defined.


