(* ===== verification/GroupMerge.v ===== *)
(** The settings a user takes from its groups (internal/dataprovider/user.go):
    [applyGroupSettings] and [LoadAndApplyGroupSettings].

    Slices and maps have value semantics; the order of the [range] over a
    map of permissions is a parameter. *)
From S2P Require Import Prelude GoPath Util FsConfig Entities UserPerms.
Open Scope Z_scope.

(** The values of the sdk constants are those of openapi/openapi.yaml. *)
Definition GroupTypePrimary : Z := 1.
Definition GroupTypeSecondary : Z := 2.
Definition GroupTypeMembership : Z := 3.

(** * Placeholders *)

(** [strings.NewReplacer(old, new).Replace(s)]; [skip] bytes of an occurrence
    of [old] are still to be passed over. *)
Fixpoint replace_from (old new : string) (skip : nat) (s : string) : string :=
  match s with
  | EmptyString => EmptyString
  | String c s' =>
      match skip with
      | S k => replace_from old new k s'
      | O => if has_prefix s old then new +:+ replace_from old new (String.length old - 1) s'
             else String c (replace_from old new 0 s')
      end
  end.
Definition placeholder : string := "%username%".

(** [u.getGroupPlacehodersReplacer()] is the name that replaces the placeholder. *)
(* source: internal/dataprovider/user.go getGroupPlacehodersReplacer *)
Definition getGroupPlacehodersReplacer (u : User.t) : string → string :=
  replace_from placeholder (User.Username u) 0.

(* source: internal/dataprovider/user.go replacePlaceholder *)
Definition replacePlaceholder (value : string) (replacer : string → string) : string :=
  if value =s "" then value else replacer value.

(* source: internal/dataprovider/user.go replaceFsConfigPlaceholders *)
Definition replaceFsConfigPlaceholders (fsConfig : Filesystem.t) (replacer : string → string) : Filesystem.t :=
  let repl v := replacePlaceholder v replacer in
  if Filesystem.Provider fsConfig =? S3FilesystemProvider then
    fsConfig <| Filesystem.S3Config ::= fun c => c <| S3FsConfig.KeyPrefix ::= repl |> |>
  else if Filesystem.Provider fsConfig =? GCSFilesystemProvider then
    fsConfig <| Filesystem.GCSConfig ::= fun c => c <| GCSFsConfig.KeyPrefix ::= repl |> |>
  else if Filesystem.Provider fsConfig =? AzureBlobFilesystemProvider then
    fsConfig <| Filesystem.AzBlobConfig ::= fun c => c <| AzBlobFsConfig.KeyPrefix ::= repl |> |>
  else if Filesystem.Provider fsConfig =? SFTPFilesystemProvider then
    fsConfig <| Filesystem.SFTPConfig ::= fun c => c <| SFTPFsConfig.Username ::= repl |> <| SFTPFsConfig.Prefix ::= repl |> |>
  else if Filesystem.Provider fsConfig =? HTTPFilesystemProvider then
    fsConfig <| Filesystem.HTTPConfig ::= fun c => c <| HTTPFsConfig.Username ::= repl |> |>
  else fsConfig.

(** * Groups of a user *)

Definition group_type_is (t : Z) (u : User.t) (name : string) : bool :=
  match List.find (fun g => GroupMapping.Name g =s name) (User.Groups u) with
  | Some g => GroupMapping.Type_ g =? t
  | None => false
  end.
(* source: internal/dataprovider/user.go HasPrimaryGroup *)
Definition HasPrimaryGroup : User.t → string → bool := group_type_is GroupTypePrimary.
(* source: internal/dataprovider/user.go HasSecondaryGroup *)
Definition HasSecondaryGroup : User.t → string → bool := group_type_is GroupTypeSecondary.
(* source: internal/dataprovider/user.go HasMembershipGroup *)
Definition HasMembershipGroup : User.t → string → bool := group_type_is GroupTypeMembership.

(* source: internal/dataprovider/user.go hasSettingsFromGroups *)
Definition hasSettingsFromGroups (u : User.t) : bool :=
  existsb (fun g => negb (GroupMapping.Type_ g =? GroupTypeMembership)) (User.Groups u).

(** [if old == zero { old = new }] *)
Definition or_z (new old : Z) : Z := if old =? 0 then new else old.
Definition or_b (new old : bool) : bool := if negb old then new else old.

(* source: internal/dataprovider/user.go hasMainDataTransferLimits *)
Definition hasMainDataTransferLimits (u : User.t) : bool :=
  (0 <? User.UploadDataTransfer u) || (0 <? User.DownloadDataTransfer u) || (0 <? User.TotalDataTransfer u).

Definition on_base (f : BaseUserFilters.t → BaseUserFilters.t) (u : User.t) : User.t :=
  u <| User.Filters ::= fun fl => fl <| UserFilters.Base ::= f |> |>.

(* source: internal/dataprovider/user.go mergeCryptFsConfig *)
Definition mergeCryptFsConfig (u : User.t) (group : Group.t) : User.t :=
  let fs := GroupUserSettings.FsConfig (Group.UserSettings group) in
  if Filesystem.Provider fs =? CryptedFilesystemProvider then
    u <| User.FsConfig ::= fun f => f <| Filesystem.CryptConfig ::= fun c =>
      c <| CryptFsConfig.ReadBufferSize ::= or_z (CryptFsConfig.ReadBufferSize (Filesystem.CryptConfig fs)) |>
        <| CryptFsConfig.WriteBufferSize ::= or_z (CryptFsConfig.WriteBufferSize (Filesystem.CryptConfig fs)) |> |> |>
  else u.

(* source: internal/dataprovider/user.go mergePrimaryGroupFilters *)
Definition mergePrimaryGroupFilters (u : User.t) (filters : BaseUserFilters.t) (replacer : string → string) : User.t :=
  let tls := IsTLSVerificationEnabled u in
  on_base (fun f =>
    f <| BaseUserFilters.MaxUploadFileSize ::= or_z (BaseUserFilters.MaxUploadFileSize filters) |>
      <| BaseUserFilters.TLSUsername ::= fun v => if negb tls then BaseUserFilters.TLSUsername filters else v |>
      <| BaseUserFilters.CheckPasswordDisabled ::= or_b (BaseUserFilters.CheckPasswordDisabled filters) |>
      <| BaseUserFilters.PreLoginDisabled ::= or_b (BaseUserFilters.PreLoginDisabled filters) |>
      <| BaseUserFilters.ExternalAuthDisabled ::= or_b (BaseUserFilters.ExternalAuthDisabled filters) |>
      <| BaseUserFilters.DisableFsChecks ::= or_b (BaseUserFilters.DisableFsChecks filters) |>
      <| BaseUserFilters.AllowAPIKeyAuth ::= or_b (BaseUserFilters.AllowAPIKeyAuth filters) |>
      <| BaseUserFilters.IsAnonymous ::= or_b (BaseUserFilters.IsAnonymous filters) |>
      <| BaseUserFilters.ExternalAuthCacheTime ::= or_z (BaseUserFilters.ExternalAuthCacheTime filters) |>
      <| BaseUserFilters.FTPSecurity ::= or_z (BaseUserFilters.FTPSecurity filters) |>
      <| BaseUserFilters.StartDirectory ::= fun v =>
           if v =s "" then replacePlaceholder (BaseUserFilters.StartDirectory filters) replacer else v |>
      <| BaseUserFilters.DefaultSharesExpiration ::= or_z (BaseUserFilters.DefaultSharesExpiration filters) |>
      <| BaseUserFilters.MaxSharesExpiration ::= or_z (BaseUserFilters.MaxSharesExpiration filters) |>
      <| BaseUserFilters.PasswordExpiration ::= or_z (BaseUserFilters.PasswordExpiration filters) |>
      <| BaseUserFilters.PasswordStrength ::= or_z (BaseUserFilters.PasswordStrength filters) |>) u.

Section merge.
(** The order of [for k, v := range group.UserSettings.Permissions]. *)
Variable range : gmap string (list string) → list (string * list string).

(** The paths the user has folders at are read once, before the loop. *)
(* source: internal/dataprovider/user.go mergeVirtualFolders *)
Definition mergeVirtualFolders (u : User.t) (group : Group.t) (groupType : Z) (replacer : string → string) : User.t :=
  let folderPaths := VirtualFolder.VirtualPath <$> User.VirtualFolders u in
  let new := omap (fun folder =>
    if (VirtualFolder.VirtualPath folder =s "/") && negb (groupType =? GroupTypePrimary) then None
    else
      let folder := folder <| VirtualFolder.VirtualPath ::= fun p => replacePlaceholder p replacer |> in
      if contains folderPaths (VirtualFolder.VirtualPath folder) then None
      else Some (folder <| VirtualFolder.Base ::= fun b =>
        b <| BaseVirtualFolder.MappedPath ::= fun p => replacePlaceholder p replacer |>
          <| BaseVirtualFolder.FsConfig ::= fun c => replaceFsConfigPlaceholders c replacer |> |>))
    (Group.VirtualFolders group) in
  u <| User.VirtualFolders ::= fun l => l ++ new |>.

Definition merge_permission (groupType : Z) (replacer : string → string)
    (perms : gmap string (list string)) (kv : string * list string) : gmap string (list string) :=
  let '(k, v) := kv in
  let add perms :=
    let k := replacePlaceholder k replacer in
    match perms !! k with None => <[k := v]> perms | Some _ => perms end in
  if k =s "/" then
    if groupType =? GroupTypePrimary then add (<[k := v]> perms) else perms
  else add perms.

(* source: internal/dataprovider/user.go mergePermissions *)
Definition mergePermissions (u : User.t) (group : Group.t) (groupType : Z) (replacer : string → string) : User.t :=
  u <| User.Permissions ::= fun perms =>
    foldl (merge_permission groupType replacer) perms (range (GroupUserSettings.Permissions (Group.UserSettings group))) |>.

(* source: internal/dataprovider/user.go mergeFilePatterns *)
Definition mergeFilePatterns (u : User.t) (group : Group.t) (groupType : Z) (replacer : string → string) : User.t :=
  let patternPaths := PatternsFilter.Path <$> BaseUserFilters.FilePatterns (base_filters u) in
  let new := omap (fun pattern =>
    if (PatternsFilter.Path pattern =s "/") && negb (groupType =? GroupTypePrimary) then None
    else
      let pattern := pattern <| PatternsFilter.Path ::= fun p => replacePlaceholder p replacer |> in
      if contains patternPaths (PatternsFilter.Path pattern) then None else Some pattern)
    (BaseUserFilters.FilePatterns (GroupUserSettings.Filters (Group.UserSettings group))) in
  on_base (fun f => f <| BaseUserFilters.FilePatterns ::= fun l => l ++ new |>) u.

(* source: internal/dataprovider/user.go mergeAdditiveProperties *)
Definition mergeAdditiveProperties (u : User.t) (group : Group.t) (groupType : Z) (replacer : string → string) : User.t :=
  let u := mergeVirtualFolders u group groupType replacer in
  let u := mergePermissions u group groupType replacer in
  let u := mergeFilePatterns u group groupType replacer in
  let g := GroupUserSettings.Filters (Group.UserSettings group) in
  on_base (fun f =>
    f <| BaseUserFilters.BandwidthLimits ::= fun l => l ++ BaseUserFilters.BandwidthLimits g |>
      <| BaseUserFilters.AllowedIP ::= fun l => l ++ BaseUserFilters.AllowedIP g |>
      <| BaseUserFilters.DeniedIP ::= fun l => l ++ BaseUserFilters.DeniedIP g |>
      <| BaseUserFilters.DeniedLoginMethods ::= fun l => l ++ BaseUserFilters.DeniedLoginMethods g |>
      <| BaseUserFilters.DeniedProtocols ::= fun l => l ++ BaseUserFilters.DeniedProtocols g |>
      <| BaseUserFilters.WebClient ::= fun l => l ++ BaseUserFilters.WebClient g |>
      <| BaseUserFilters.TwoFactorAuthProtocols ::= fun l => l ++ BaseUserFilters.TwoFactorAuthProtocols g |>) u.

(* source: internal/dataprovider/user.go mergeWithPrimaryGroup *)
Definition mergeWithPrimaryGroup (u : User.t) (group : Group.t) (replacer : string → string) : User.t :=
  let s := Group.UserSettings group in
  let u := if negb (GroupUserSettings.HomeDir s =s "")
           then u <| User.HomeDir := replacePlaceholder (GroupUserSettings.HomeDir s) replacer |> else u in
  let u :=
    if negb (Filesystem.Provider (GroupUserSettings.FsConfig s) =? 0) then
      mergeCryptFsConfig (u <| User.FsConfig := replaceFsConfigPlaceholders (GroupUserSettings.FsConfig s) replacer |>) group
    else
      let os := Filesystem.OSConfig (GroupUserSettings.FsConfig s) in
      u <| User.FsConfig ::= fun f => f <| Filesystem.OSConfig ::= fun c =>
        c <| OSFsConfig.ReadBufferSize ::= or_z (OSFsConfig.ReadBufferSize os) |>
          <| OSFsConfig.WriteBufferSize ::= or_z (OSFsConfig.WriteBufferSize os) |> |> |> in
  let u := u <| User.MaxSessions ::= or_z (GroupUserSettings.MaxSessions s) |>
             <| User.QuotaSize ::= or_z (GroupUserSettings.QuotaSize s) |>
             <| User.QuotaFiles ::= or_z (GroupUserSettings.QuotaFiles s) |>
             <| User.UploadBandwidth ::= or_z (GroupUserSettings.UploadBandwidth s) |>
             <| User.DownloadBandwidth ::= or_z (GroupUserSettings.DownloadBandwidth s) |> in
  let u :=
    if negb (hasMainDataTransferLimits u) then
      u <| User.UploadDataTransfer := GroupUserSettings.UploadDataTransfer s |>
        <| User.DownloadDataTransfer := GroupUserSettings.DownloadDataTransfer s |>
        <| User.TotalDataTransfer := GroupUserSettings.TotalDataTransfer s |>
    else u in
  let u :=
    if (User.ExpirationDate u =? 0) && (0 <? GroupUserSettings.ExpiresIn s) then
      u <| User.ExpirationDate := add64 (User.CreatedAt u) (mul64 (GroupUserSettings.ExpiresIn s) 86400000) |>
    else u in
  let u := mergePrimaryGroupFilters u (GroupUserSettings.Filters s) replacer in
  mergeAdditiveProperties u group GroupTypePrimary replacer.

(* source: internal/dataprovider/user.go removeDuplicatesAfterGroupMerge *)
Definition removeDuplicatesAfterGroupMerge (u : User.t) : User.t :=
  let u := on_base (fun f =>
    f <| BaseUserFilters.AllowedIP ::= fun l => RemoveDuplicates l false |>
      <| BaseUserFilters.DeniedIP ::= fun l => RemoveDuplicates l false |>
      <| BaseUserFilters.DeniedLoginMethods ::= fun l => RemoveDuplicates l false |>
      <| BaseUserFilters.DeniedProtocols ::= fun l => RemoveDuplicates l false |>
      <| BaseUserFilters.WebClient ::= fun l => RemoveDuplicates l false |>
      <| BaseUserFilters.TwoFactorAuthProtocols ::= fun l => RemoveDuplicates l false |>) u in
  (user_SetEmptySecretsIfNil u) <| User.groupSettingsApplied := true |>.

(** [for _, g := range u.Groups { if g.Type == Primary { ...; break } }] *)
Definition first_primary (groups : list GroupMapping.t) : option GroupMapping.t :=
  List.find (fun g => GroupMapping.Type_ g =? GroupTypePrimary) groups.

(* source: internal/dataprovider/user.go applyGroupSettings *)
Definition applyGroupSettings (u : User.t) (groupsMapping : gmap string Group.t) : User.t :=
  if negb (hasSettingsFromGroups u) then u
  else if User.groupSettingsApplied u then u
  else
    let replacer := getGroupPlacehodersReplacer u in
    let groups := User.Groups u in
    let u := match first_primary groups with
             | Some g => match groupsMapping !! GroupMapping.Name g with
                         | Some group => mergeWithPrimaryGroup u group replacer
                         | None => u
                         end
             | None => u
             end in
    let u := foldl (fun u g =>
      if GroupMapping.Type_ g =? GroupTypeSecondary then
        match groupsMapping !! GroupMapping.Name g with
        | Some group => mergeAdditiveProperties u group GroupTypeSecondary replacer
        | None => u
        end
      else u) u groups in
    removeDuplicatesAfterGroupMerge u.

(** The group of the given name is merged first; the last one takes its place. *)
Fixpoint take_primary (name : string) (before groups : list Group.t) : option (Group.t * list Group.t) :=
  match groups with
  | [] => None
  | g :: groups' =>
      if Group.Name g =s name then
        Some (g, match reverse groups' with
                 | [] => before
                 | l :: r => before ++ l :: reverse r
                 end)
      else take_primary name (before ++ [g]) groups'
  end.

(** [getGroupsWithNames] is the method of the provider. *)
(* source: internal/dataprovider/user.go LoadAndApplyGroupSettings *)
Definition LoadAndApplyGroupSettings (getGroupsWithNames : list string → res (list Group.t)) (u : User.t) : res User.t :=
  if negb (hasSettingsFromGroups u) then Ok u
  else if User.groupSettingsApplied u then Ok u
  else
    let primaryGroupName := foldl (fun name g =>
      if GroupMapping.Type_ g =? GroupTypePrimary then GroupMapping.Name g else name) "" (User.Groups u) in
    let names := omap (fun g =>
      if negb (GroupMapping.Type_ g =? GroupTypeMembership) then Some (GroupMapping.Name g) else None) (User.Groups u) in
    match getGroupsWithNames names with
    | Err e => Err (PlainError "unable to get groups")
    | Ok groups =>
        let replacer := getGroupPlacehodersReplacer u in
        let '(u, groups) := match take_primary primaryGroupName [] groups with
                            | Some (g, groups) => (mergeWithPrimaryGroup u g replacer, groups)
                            | None => (u, groups)
                            end in
        let u := foldl (fun u g => mergeAdditiveProperties u g GroupTypeSecondary replacer) u groups in
        Ok (removeDuplicatesAfterGroupMerge u)
    end.
End merge.

Example repl1 : replace_from placeholder "bob" 0 "/home/%username%/%username%x%user" = "/home/bob/bobx%user".
Proof. reflexivity. Qed.

(** * What a merge keeps *)

Definition vpaths (u : User.t) : list string := VirtualFolder.VirtualPath <$> User.VirtualFolders u.

(** the folders, with nothing for a secret being the empty one *)
Definition settled (v : VirtualFolder.t) : VirtualFolder.t :=
  v <| VirtualFolder.Base ::= fun b => b <| BaseVirtualFolder.FsConfig ::= fs_SetEmptySecretsIfNil |> |>.
Definition folders (u : User.t) : list VirtualFolder.t := settled <$> User.VirtualFolders u.

(** A setting that is not zero does not change. *)
Definition keeps_nonzero (f : User.t → Z) (u u' : User.t) : Prop := f u ≠ 0 → f u' = f u.

Lemma keeps_nonzero_refl f u : keeps_nonzero f u u.
Proof. by intros _. Qed.
Lemma keeps_nonzero_trans f u v w : keeps_nonzero f u v → keeps_nonzero f v w → keeps_nonzero f u w.
Proof. intros H1 H2 Hu. rewrite <-(H1 Hu). apply H2. by rewrite (H1 Hu). Qed.
Lemma keeps_nonzero_or f u u' n : f u' = or_z n (f u) → keeps_nonzero f u u'.
Proof. intros E H. rewrite E. unfold or_z. by rewrite (proj2 (Z.eqb_neq _ _) H). Qed.

(** A list that only grows. *)
Definition keeps_list {A} (f : User.t → list A) (u u' : User.t) : Prop := f u ⊆ f u'.

Lemma keeps_list_eq {A} (f : User.t → list A) u u' : f u' = f u → keeps_list f u u'.
Proof. unfold keeps_list. intros ->. by intros x. Qed.
Lemma keeps_list_trans {A} (f : User.t → list A) u v w : keeps_list f u v → keeps_list f v w → keeps_list f u w.
Proof. intros H1 H2 x Hx. by apply H2, H1. Qed.

(** Permissions of directories other than the root do not change. *)
Definition keeps_perms (m m' : gmap string (list string)) : Prop :=
  ∀ k v, k ≠ "/" → m !! k = Some v → m' !! k = Some v.

Definition patterns (u : User.t) : list PatternsFilter.t := BaseUserFilters.FilePatterns (base_filters u).
Definition allowed_ip (u : User.t) : list string := BaseUserFilters.AllowedIP (base_filters u).
Definition denied_ip (u : User.t) : list string := BaseUserFilters.DeniedIP (base_filters u).
Definition denied_protocols (u : User.t) : list string := BaseUserFilters.DeniedProtocols (base_filters u).
Definition denied_methods (u : User.t) : list string := BaseUserFilters.DeniedLoginMethods (base_filters u).

Definition web_client (u : User.t) : list string := BaseUserFilters.WebClient (base_filters u).
Definition two_factor (u : User.t) : list string := BaseUserFilters.TwoFactorAuthProtocols (base_filters u).
Definition start_directory (u : User.t) : string := BaseUserFilters.StartDirectory (base_filters u).

(** [u'] is [u] with settings added: what the user has of its own stays. *)
Record extends (u u' : User.t) : Prop := {
  ext_name : User.Username u' = User.Username u;
  ext_groups : User.Groups u' = User.Groups u;
  ext_role : User.Role u' = User.Role u;
  ext_perms : keeps_perms (User.Permissions u) (User.Permissions u');
  ext_account : (User.Status u', User.Password u', User.PublicKeys u', User.CreatedAt u') = (User.Status u, User.Password u, User.PublicKeys u, User.CreatedAt u);
  ext_folders : folders u `prefix_of` folders u';
  ext_patterns : patterns u `prefix_of` patterns u';
  ext_allowed : keeps_list allowed_ip u u';
  ext_denied : keeps_list denied_ip u u';
  ext_protocols : keeps_list denied_protocols u u';
  ext_methods : keeps_list denied_methods u u';
  ext_web : keeps_list web_client u u';
  ext_two_factor : keeps_list two_factor u u';
  ext_start : start_directory u ≠ "" → start_directory u' = start_directory u;
  ext_quota_size : keeps_nonzero User.QuotaSize u u';
  ext_quota_files : keeps_nonzero User.QuotaFiles u u';
  ext_sessions : keeps_nonzero User.MaxSessions u u';
  ext_upload : keeps_nonzero User.UploadBandwidth u u';
  ext_download : keeps_nonzero User.DownloadBandwidth u u';
  ext_expiration : keeps_nonzero User.ExpirationDate u u';
}.

(** closes what a step does not touch *)
Ltac ext_tac := split; try first [done | by apply keeps_list_eq | solve [intros ? ? _ ?; assumption]].

#[export] Instance extends_refl : Reflexive extends.
Proof. intros u. ext_tac. Qed.
#[export] Instance extends_trans : Transitive extends.
Proof.
  intros u v w [] []. split; try congruence; try (by etrans); try (eapply keeps_nonzero_trans; eassumption);
    try (eapply keeps_list_trans; eassumption).
  - intros k x Hk Hx. auto.
  - intros Hu. rewrite <- ext_start0 by done. apply ext_start1. by rewrite ext_start0.
Qed.

Lemma merge_permission_keeps t repl perms kv : keeps_perms perms (merge_permission t repl perms kv).
Proof.
  intros k v Hk Hv. destruct kv as [k0 v0]. unfold merge_permission.
  assert (∀ m : gmap string (list string), m !! k = Some v → (match m !! replacePlaceholder k0 repl with
    | Some _ => m | None => <[replacePlaceholder k0 repl := v0]> m end) !! k = Some v) as Hadd.
  { intros m Hm. destruct (m !! replacePlaceholder k0 repl) eqn:Hr; [done|].
    rewrite lookup_insert_ne; [done|]. intros He. by rewrite He, Hm in Hr. }
  destruct (String.eqb_spec k0 "/") as [->|]; [|by apply Hadd].
  destruct (t =? GroupTypePrimary); [|done]. apply Hadd. by rewrite lookup_insert_ne.
Qed.

Lemma merge_permissions_keep t repl l perms : keeps_perms perms (foldl (merge_permission t repl) perms l).
Proof.
  revert perms; induction l as [|kv l IH]; intros perms k v Hk Hv; simpl; [done|].
  apply IH; [done|]. by apply merge_permission_keeps.
Qed.

Lemma mergeVirtualFolders_ext u g t repl : extends u (mergeVirtualFolders u g t repl).
Proof. ext_tac. unfold folders, mergeVirtualFolders. cbn. rewrite fmap_app. by apply prefix_app_r. Qed.
Lemma mergePermissions_ext range u g t repl : extends u (mergePermissions range u g t repl).
Proof. ext_tac. apply merge_permissions_keep. Qed.
Lemma mergeFilePatterns_ext u g t repl : extends u (mergeFilePatterns u g t repl).
Proof. ext_tac. unfold patterns, base_filters, mergeFilePatterns, on_base. cbn. by apply prefix_app_r. Qed.
Lemma on_base_ext f u :
  (∀ b, BaseUserFilters.FilePatterns b `prefix_of` BaseUserFilters.FilePatterns (f b) ∧
    BaseUserFilters.AllowedIP b ⊆ BaseUserFilters.AllowedIP (f b) ∧
    BaseUserFilters.DeniedIP b ⊆ BaseUserFilters.DeniedIP (f b) ∧
    BaseUserFilters.DeniedProtocols b ⊆ BaseUserFilters.DeniedProtocols (f b) ∧
    BaseUserFilters.DeniedLoginMethods b ⊆ BaseUserFilters.DeniedLoginMethods (f b) ∧
    BaseUserFilters.WebClient b ⊆ BaseUserFilters.WebClient (f b) ∧
    BaseUserFilters.TwoFactorAuthProtocols b ⊆ BaseUserFilters.TwoFactorAuthProtocols (f b) ∧
    (BaseUserFilters.StartDirectory b ≠ "" → BaseUserFilters.StartDirectory (f b) = BaseUserFilters.StartDirectory b)) → extends u (on_base f u).
Proof. intros H. destruct (H (base_filters u)) as (?&?&?&?&?&?&?&?). ext_tac. Qed.

Lemma mergeAdditiveProperties_ext range u g t repl : extends u (mergeAdditiveProperties range u g t repl).
Proof.
  unfold mergeAdditiveProperties. etrans; [apply mergeVirtualFolders_ext|]. etrans; [apply mergePermissions_ext|].
  etrans; [apply mergeFilePatterns_ext|]. apply on_base_ext. intros b. cbn. split_and!; [done|set_solver..|done].
Qed.

Lemma mergePrimaryGroupFilters_ext u f repl : extends u (mergePrimaryGroupFilters u f repl).
Proof.
  unfold mergePrimaryGroupFilters. cbv zeta. apply on_base_ext. intros b. cbn. split_and!; [done..|].
  by destruct (String.eqb_spec (BaseUserFilters.StartDirectory b) "").
Qed.

(** the part of [mergeWithPrimaryGroup] on the fields of the user *)
Lemma mergeWithPrimaryGroup_ext range u g repl : extends u (mergeWithPrimaryGroup range u g repl).
Proof.
  unfold mergeWithPrimaryGroup. cbv zeta. etrans; [|apply mergeAdditiveProperties_ext].
  etrans; [|apply mergePrimaryGroupFilters_ext].
  set (u1 := if negb (GroupUserSettings.HomeDir _ =s "") then _ else u).
  assert (extends u u1) as H1 by (subst u1; destruct (negb _); ext_tac). etrans; [exact H1|]. clearbody u1. clear H1 u.
  set (u2 := if negb (_ =? 0) then _ else _).
  assert (extends u1 u2) as H2.
  { subst u2. unfold mergeCryptFsConfig. destruct (negb _); [destruct (_ =? _)|]; ext_tac. }
  etrans; [exact H2|]. clearbody u2. clear H2 u1.
  set (u3 := u2 <| User.MaxSessions ::= _ |> <| User.QuotaSize ::= _ |> <| User.QuotaFiles ::= _ |>
    <| User.UploadBandwidth ::= _ |> <| User.DownloadBandwidth ::= _ |>).
  assert (extends u2 u3) as H3 by (ext_tac; by eapply keeps_nonzero_or).
  etrans; [exact H3|]. clearbody u3. clear H3 u2.
  set (u4 := if negb (hasMainDataTransferLimits u3) then _ else u3).
  assert (extends u3 u4) as H4 by (subst u4; destruct (negb _); ext_tac). etrans; [exact H4|]. clearbody u4. clear H4 u3.
  destruct (User.ExpirationDate u4 =? 0) eqn:He; simpl; [|done]. apply Z.eqb_eq in He.
  destruct (_ <? _); [|done]. ext_tac. intros Hne. by rewrite He in Hne.
Qed.

Lemma RemoveDuplicates_elem l x : x ∈ RemoveDuplicates l false ↔ x ∈ l.
Proof.
  rewrite RemoveDuplicates_eq, elem_of_dedup. unfold item_of. rewrite list_fmap_id. set_solver.
Qed.

Lemma emptyIfNil_idemp o : emptyIfNil (emptyIfNil o) = emptyIfNil o.
Proof. by destruct o. Qed.
Lemma fs_secrets_idemp f : fs_SetEmptySecretsIfNil (fs_SetEmptySecretsIfNil f) = fs_SetEmptySecretsIfNil f.
Proof. destruct f as [? ? [] [] [] [] [] [] []]. unfold fs_SetEmptySecretsIfNil. simpl. by rewrite !emptyIfNil_idemp. Qed.
Lemma settled_idemp v : settled (settled v) = settled v.
Proof. destruct v as [[] ? ? ?]. unfold settled. simpl. by rewrite fs_secrets_idemp. Qed.
Lemma vpaths_secrets u : vpaths (user_SetEmptySecretsIfNil u) = vpaths u.
Proof. unfold vpaths, user_SetEmptySecretsIfNil. cbn. by rewrite <-list_fmap_compose. Qed.

Lemma removeDuplicates_ext u : extends u (removeDuplicatesAfterGroupMerge u).
Proof.
  unfold removeDuplicatesAfterGroupMerge. cbv zeta. set (u1 := on_base _ u). transitivity u1; [apply on_base_ext|].
  - intros b. cbn. split_and!; [done|..|done]; intros x; by rewrite RemoveDuplicates_elem.
  - clearbody u1. ext_tac. exists []. rewrite app_nil_r. transitivity (settled <$> (settled <$> User.VirtualFolders u1)); [reflexivity|].
    rewrite <-list_fmap_compose. apply list_fmap_ext. intros ? v _. apply settled_idemp.
Qed.

Lemma foldl_ext {A} (f : User.t → A → User.t) l u : (∀ u a, extends u (f u a)) → extends u (foldl f u l).
Proof. intros Hf. revert u; induction l as [|a l IH]; intros u; simpl; [done|]. etrans; [apply Hf|apply IH]. Qed.

Lemma applyGroupSettings_ext range u m : extends u (applyGroupSettings range u m).
Proof.
  unfold applyGroupSettings. destruct (negb _); [done|]. destruct (User.groupSettingsApplied u); [done|]. cbv zeta.
  etrans; [|apply removeDuplicates_ext].
  set (u1 := match first_primary _ with Some _ => _ | None => u end).
  assert (extends u u1) as H1.
  { subst u1. destruct (first_primary _) as [g|]; [|done]. destruct (m !! _); [|done]. apply mergeWithPrimaryGroup_ext. }
  etrans; [exact H1|]. clearbody u1. apply foldl_ext. intros u' g.
  destruct (_ =? _); [|done]. destruct (m !! _); [|done]. apply mergeAdditiveProperties_ext.
Qed.

(** ** The root directory *)

Lemma replace_nonempty old new s : s ≠ "" → new ≠ "" → replace_from old new 0 s ≠ "".
Proof. destruct s as [|c s]; [done|]. intros _ Hn. simpl. destruct (has_prefix _ _); [|done]. by destruct new. Qed.

(** A path other than the root stays so when the placeholder is replaced. *)
Lemma replaced_not_root u p : User.Username u ≠ "" → is_abs p = true → p ≠ "/" →
  replacePlaceholder p (getGroupPlacehodersReplacer u) ≠ "/".
Proof.
  intros Hu Hp Hne. unfold is_abs in Hp. apply has_prefix_spec in Hp as [t ->].
  change ("/" +:+ t) with (String slash t) in *. unfold replacePlaceholder, getGroupPlacehodersReplacer. simpl.
  intros [= Ht]. assert (t ≠ "") as Htn by (by intros ->). by apply (replace_nonempty placeholder (User.Username u) t).
Qed.

(** The paths the settings of a group are about are absolute. *)
Definition group_paths_abs (g : Group.t) : Prop :=
  (∀ k v, GroupUserSettings.Permissions (Group.UserSettings g) !! k = Some v → is_abs k = true) ∧
  (∀ f, f ∈ Group.VirtualFolders g → is_abs (VirtualFolder.VirtualPath f) = true).

Lemma merge_secondary_root range u g repl :
  (∀ m : gmap string (list string), range m ≡ₚ map_to_list m) → group_paths_abs g →
  (∀ p, is_abs p = true → p ≠ "/" → replacePlaceholder p repl ≠ "/") →
  let u' := mergeAdditiveProperties range u g GroupTypeSecondary repl in
  User.Permissions u' !! "/" = User.Permissions u !! "/" ∧ ("/" ∈ vpaths u' ↔ "/" ∈ vpaths u).
Proof.
  intros Hrange [Hk Hf] Hrepl u'. split.
  - assert (∀ l m, (∀ k v, (k, v) ∈ l → is_abs k = true) →
      foldl (merge_permission GroupTypeSecondary repl) m l !! "/" = m !! "/") as Hfold.
    { clear -Hrepl. induction l as [|[k v] l IH]; intros m Hl; simpl; [done|].
      rewrite IH by (intros; eapply Hl; by right). destruct (String.eqb_spec k "/") as [->|Hne]; [done|].
      destruct (m !! replacePlaceholder k repl); [done|]. rewrite lookup_insert_ne; [done|].
      apply Hrepl; [|done]. by eapply Hl; left. }
    apply (Hfold _ (User.Permissions u)). intros k v. rewrite Hrange, elem_of_map_to_list. apply Hk.
  - unfold vpaths. subst u'. cbn. rewrite fmap_app, elem_of_app. split; [|by left].
    intros [?|Hin]; [done|]. exfalso. apply list_elem_of_fmap in Hin as (f & Hp & Hin).
    apply list_elem_of_omap in Hin as (f0 & Hf0 & Heq).
    destruct (String.eqb_spec (VirtualFolder.VirtualPath f0) "/") as [|Hne]; [done|]. simpl in Heq.
    destruct (contains _ _); [done|]. injection Heq as <-. simpl in Hp. symmetry in Hp. revert Hp.
    apply Hrepl; [by apply Hf|done].
Qed.

(** ** Properties *)

(** C22: Group settings leave what a user has of its own, apart from its home
    directory, its filesystem and its permissions on the root, which a primary
    group may replace: its credentials, its permissions on other directories, its
    virtual folders, each as it is, its file patterns, its denied or allowed
    addresses, protocols, login methods, web permissions and second factors stay,
    and so do its start directory and its quota, session, bandwidth and
    expiration settings when they are set.  What the groups add comes after. *)
Theorem applyGroupSettings_keeps_user_settings range u m : extends u (applyGroupSettings range u m).
Proof. apply applyGroupSettings_ext. Qed.

(** Group settings are applied once: a second application, whatever the
    groups by then, changes nothing. *)
Theorem applyGroupSettings_once range range' u m m' :
  applyGroupSettings range' (applyGroupSettings range u m) m' = applyGroupSettings range u m.
Proof.
  unfold applyGroupSettings at 1. unfold hasSettingsFromGroups. rewrite (ext_groups _ _ (applyGroupSettings_ext range u m)).
  fold (hasSettingsFromGroups u). destruct (hasSettingsFromGroups u) eqn:Hs; [|done]. simpl.
  assert (User.groupSettingsApplied (applyGroupSettings range u m) = true) as ->; [|done].
  unfold applyGroupSettings. rewrite Hs. simpl. by destruct (User.groupSettingsApplied u) eqn:Ha.
Qed.

(** Secondary groups have no say on the root directory: a user without a
    primary group keeps its root permissions and gets no folder mounted on the
    root. *)
Theorem secondary_groups_leave_root range u m
    (Hrange : ∀ perms : gmap string (list string), range perms ≡ₚ map_to_list perms)
    (Hname : User.Username u ≠ "")
    (Hprimary : first_primary (User.Groups u) = None)
    (Habs : ∀ name g, m !! name = Some g → group_paths_abs g) :
  let u' := applyGroupSettings range u m in
  User.Permissions u' !! "/" = User.Permissions u !! "/" ∧ ("/" ∈ vpaths u' ↔ "/" ∈ vpaths u).
Proof.
  cbv zeta. unfold applyGroupSettings. destruct (negb _); [done|]. destruct (User.groupSettingsApplied u); [done|].
  rewrite Hprimary. pose proof (replaced_not_root u) as Hrepl.
  set (repl := getGroupPlacehodersReplacer u) in *. clearbody repl.
  assert (∀ u1, vpaths (removeDuplicatesAfterGroupMerge u1) = vpaths u1 ∧
    User.Permissions (removeDuplicatesAfterGroupMerge u1) = User.Permissions u1) as Hrem.
  { intros u1. split; [|done]. unfold vpaths. cbn. by rewrite <-list_fmap_compose. }
  destruct (Hrem (foldl (fun u g => if GroupMapping.Type_ g =? GroupTypeSecondary then
    match m !! GroupMapping.Name g with
    | Some group => mergeAdditiveProperties range u group GroupTypeSecondary repl | None => u end else u) u (User.Groups u)))
    as [-> ->]. clear Hrem Hprimary.
  enough (∀ l u0, User.Permissions (foldl (fun u g => if GroupMapping.Type_ g =? GroupTypeSecondary then
      match m !! GroupMapping.Name g with
      | Some group => mergeAdditiveProperties range u group GroupTypeSecondary repl | None => u end else u) u0 l) !! "/"
      = User.Permissions u0 !! "/" ∧
    ("/" ∈ vpaths (foldl (fun u g => if GroupMapping.Type_ g =? GroupTypeSecondary then
      match m !! GroupMapping.Name g with
      | Some group => mergeAdditiveProperties range u group GroupTypeSecondary repl | None => u end else u) u0 l)
      ↔ "/" ∈ vpaths u0)) as H by apply H.
  induction l as [|g l IH]; intros u0; simpl; [done|].
  match goal with |- context [foldl _ ?x l] => destruct (IH x) as [-> ->] end.
  destruct (_ =? _); [|done]. destruct (m !! _) as [group|] eqn:Hg; [|done].
  apply merge_secondary_root; [done|by eapply Habs|]. intros p Hp Hne. by apply Hrepl.
Qed.

Definition sample_secondary : Group.t :=
  Group.zero <| Group.Name := "g" |>
    <| Group.UserSettings ::= fun s => s <| GroupUserSettings.Permissions := {["/" := [PermAny]; "/x" := [PermUpload]]} |> |>.

Lemma secondary_groups_leave_root_witness :
  let u := User.zero <| User.Username := "bob" |> <| User.Permissions := {["/" := [PermListItems]]} |>
    <| User.Groups := [GroupMapping.mk "g" GroupTypeSecondary] |> in
  let u' := applyGroupSettings map_to_list u {["g" := sample_secondary]} in
  User.Permissions u' !! "/x" = Some [PermUpload] ∧
  User.Permissions u' !! "/" = User.Permissions u !! "/" ∧ ("/" ∈ vpaths u' ↔ "/" ∈ vpaths u).
Proof.
  intros u u'. split; [vm_compute; reflexivity|].
  assert (∀ perms : gmap string (list string), map_to_list perms ≡ₚ map_to_list perms) as H1 by done.
  assert (User.Username u ≠ "") as H2 by done.
  assert (first_primary (User.Groups u) = None) as H3 by reflexivity.
  assert (∀ name g, ({["g" := sample_secondary]} : gmap string Group.t) !! name = Some g → group_paths_abs g) as H4.
  { intros name g [<- <-]%lookup_singleton_Some. split; [|set_solver].
    intros k v Hk. change ((<["/" := [PermAny]]> {["/x" := [PermUpload]]} : gmap string (list string)) !! k = Some v) in Hk.
    apply lookup_insert_Some in Hk as [[<- _]|[_ [<- _]%lookup_singleton_Some]]; reflexivity. }
  exact (secondary_groups_leave_root map_to_list u {["g" := sample_secondary]} H1 H2 H3 H4).
Defined.

(** ** Loading the groups and applying loaded ones *)

(** [getGroupsWithNames] of a provider that has the groups [m]. *)
Definition groups_with_names (m : gmap string Group.t) (names : list string) : res (list Group.t) :=
  Ok (omap (fun name => m !! name) names).

(** The groups of a list of mappings with the given test. *)
Definition groups_of (m : gmap string Group.t) (p : GroupMapping.t → bool) (l : list GroupMapping.t) : list Group.t :=
  omap (fun g => if p g then m !! GroupMapping.Name g else None) l.
Definition secondary (g : GroupMapping.t) : bool := GroupMapping.Type_ g =? GroupTypeSecondary.
Definition not_membership (g : GroupMapping.t) : bool := negb (GroupMapping.Type_ g =? GroupTypeMembership).

Lemma fold_secondary (f : User.t → Group.t → User.t) m l u :
  foldl (fun u g => if secondary g then match m !! GroupMapping.Name g with Some group => f u group | None => u end else u) u l
  = foldl f u (groups_of m secondary l).
Proof.
  revert u; induction l as [|g l IH]; intros u; [done|]. unfold groups_of in *. simpl. rewrite IH.
  destruct (secondary g); [|done]. by destruct (m !! GroupMapping.Name g).
Qed.

Lemma groups_with_names_of m l :
  groups_with_names m (omap (fun g => if not_membership g then Some (GroupMapping.Name g) else None) l)
  = Ok (groups_of m not_membership l).
Proof.
  unfold groups_with_names, groups_of. f_equal. induction l as [|g l IH]; [done|]. simpl.
  destruct (not_membership g); simpl; [|done]. destruct (m !! GroupMapping.Name g); [by f_equal|done].
Qed.

Lemma groups_of_ext m p q l : Forall (fun g => p g = q g) l → groups_of m p l = groups_of m q l.
Proof. intros H. apply list_omap_ext. induction H as [|g l Hg _ IH]; constructor; [by rewrite Hg|done]. Qed.

Lemma groups_of_app m p l l' : groups_of m p (l ++ l') = groups_of m p l ++ groups_of m p l'.
Proof. apply omap_app. Qed.

Lemma groups_of_name m p l g : (∀ k gr, m !! k = Some gr → Group.Name gr = k) →
  g ∈ groups_of m p l → Group.Name g ∈ GroupMapping.Name <$> l.
Proof.
  intros Hm Hin. apply list_elem_of_omap in Hin as (gm & Hgm & Hg). destruct (p gm); [|done].
  rewrite (Hm _ _ Hg). by apply list_elem_of_fmap_2.
Qed.

Lemma take_primary_spec name l P post : ∀ before, Forall (fun g => Group.Name g ≠ name) l → Group.Name P = name →
  (length post ≤ 1)%nat → take_primary name before (l ++ P :: post) = Some (P, before ++ l ++ post).
Proof.
  induction l as [|g l IH]; intros before Hl HP Hpost; simpl.
  - rewrite HP, String.eqb_refl. by destruct post as [|x [|y post]]; simpl in *; rewrite ?app_nil_r; [..|lia].
  - apply Forall_cons in Hl as [Hg Hl]. rewrite (proj2 (String.eqb_neq _ _) Hg), IH by done. by rewrite <-app_assoc.
Qed.

Lemma last_primary l P l' : GroupMapping.Type_ P = GroupTypePrimary →
  Forall (fun g => GroupMapping.Type_ g ≠ GroupTypePrimary) l' → ∀ name,
  foldl (fun name g => if GroupMapping.Type_ g =? GroupTypePrimary then GroupMapping.Name g else name) name (l ++ P :: l')
  = GroupMapping.Name P.
Proof.
  intros HP Hl' name. rewrite foldl_app. simpl. rewrite HP. simpl. generalize (GroupMapping.Name P) as n.
  induction Hl' as [|g l' Hg _ IH]; intros n; simpl; [done|]. by rewrite (proj2 (Z.eqb_neq _ _) Hg).
Qed.

Lemma first_primary_app l P l' : GroupMapping.Type_ P = GroupTypePrimary →
  Forall (fun g => GroupMapping.Type_ g ≠ GroupTypePrimary) l → first_primary (l ++ P :: l') = Some P.
Proof.
  intros HP Hl. unfold first_primary. induction Hl as [|g l Hg _ IH]; simpl; [by rewrite HP|].
  by rewrite (proj2 (Z.eqb_neq _ _) Hg).
Qed.

(** the groups that are not primary: what they are *)
Definition below_primary (g : GroupMapping.t) : Prop :=
  GroupMapping.Type_ g = GroupTypeSecondary ∨ GroupMapping.Type_ g = GroupTypeMembership.

Lemma below_primary_type l : Forall below_primary l → Forall (fun g => GroupMapping.Type_ g ≠ GroupTypePrimary) l.
Proof. intros H. eapply Forall_impl; [exact H|]. intros g [->| ->]; done. Qed.
Lemma below_primary_secondary l : Forall below_primary l → Forall (fun g => not_membership g = secondary g) l.
Proof. intros H. eapply Forall_impl; [exact H|]. unfold not_membership, secondary. intros g [->| ->]; done. Qed.

(** The two ways to apply group settings agree when at most one secondary
    group comes after the primary one in the user's list. *)
Theorem load_and_apply_agree range u m l P l' gP
    (Hgroups : User.Groups u = l ++ P :: l') (HP : GroupMapping.Type_ P = GroupTypePrimary)
    (Hl : Forall below_primary l) (Hl' : Forall below_primary l')
    (Hone : (length (groups_of m secondary l') ≤ 1)%nat)
    (Hnd : NoDup (GroupMapping.Name <$> User.Groups u))
    (Hm : ∀ k g, m !! k = Some g → Group.Name g = k) (HgP : m !! GroupMapping.Name P = Some gP) :
  LoadAndApplyGroupSettings range (groups_with_names m) u = Ok (applyGroupSettings range u m).
Proof.
  unfold LoadAndApplyGroupSettings, applyGroupSettings. destruct (negb (hasSettingsFromGroups u)); [done|].
  destruct (User.groupSettingsApplied u); [done|]. cbv zeta. rewrite Hgroups in *.
  rewrite last_primary, first_primary_app by auto using below_primary_type. rewrite HgP.
  change (fun g => if negb (GroupMapping.Type_ g =? GroupTypeMembership) then Some (GroupMapping.Name g) else None)
    with (fun g => if not_membership g then Some (GroupMapping.Name g) else None).
  rewrite groups_with_names_of, groups_of_app.
  rewrite (groups_of_ext m _ _ l) by (by apply below_primary_secondary).
  assert (groups_of m not_membership (P :: l') = gP :: groups_of m secondary l') as Htail.
  { rewrite <-(groups_of_ext m _ _ l') by (by apply below_primary_secondary).
    unfold groups_of at 1, not_membership at 1. simpl. rewrite HP. simpl. by rewrite HgP. }
  rewrite Htail, take_primary_spec; [|..|by apply Hm|done].
  - do 2 f_equal. simpl. rewrite <-groups_of_app.
    change (fun u g => if GroupMapping.Type_ g =? GroupTypeSecondary then ?f u g else u)
      with (fun u g => if secondary g then f u g else u).
    match goal with |- _ = foldl _ ?x _ => rewrite (fold_secondary _ m (l ++ P :: l') x) end.
    rewrite !groups_of_app. do 2 f_equal. unfold groups_of. simpl. unfold secondary at 2. by rewrite HP.
  - apply Forall_forall. intros g Hg Hn. apply groups_of_name in Hg; [|done]. rewrite Hn in Hg.
    rewrite fmap_app in Hnd. apply NoDup_app in Hnd as (_ & Hd & _). eapply (Hd _ Hg). by left.
Qed.

Definition sample_group (name folder : string) : Group.t :=
  Group.zero <| Group.Name := name |>
    <| Group.VirtualFolders := [VirtualFolder.zero <| VirtualFolder.VirtualPath := "/shared" |>
         <| VirtualFolder.Base ::= fun b => b <| BaseVirtualFolder.Name := folder |> |>] |>.
Definition sample_mapping : gmap string Group.t :=
  {["a" := Group.zero <| Group.Name := "a" |>; "b" := sample_group "b" "fb"; "c" := sample_group "c" "fc"]}.
Definition sample_member : User.t :=
  User.zero <| User.Username := "bob" |>
    <| User.Groups := [GroupMapping.mk "a" GroupTypePrimary; GroupMapping.mk "b" GroupTypeSecondary] |>.

Lemma load_and_apply_agree_witness :
  LoadAndApplyGroupSettings map_to_list (groups_with_names sample_mapping) sample_member =
  Ok (applyGroupSettings map_to_list sample_member sample_mapping).
Proof.
  apply (load_and_apply_agree map_to_list sample_member sample_mapping []
    (GroupMapping.mk "a" GroupTypePrimary) [GroupMapping.mk "b" GroupTypeSecondary]
    (Group.zero <| Group.Name := "a" |>)).
  - reflexivity.
  - reflexivity.
  - constructor.
  - constructor; [by left|constructor].
  - vm_compute. lia.
  - apply NoDup_cons_2; [|apply NoDup_singleton]. by intros ?%list_elem_of_singleton.
  - intros k g Hk. unfold sample_mapping in Hk.
    apply lookup_insert_Some in Hk as [[<- <-]|[_ Hk]]; [done|].
    apply lookup_insert_Some in Hk as [[<- <-]|[_ Hk]]; [done|].
    by apply lookup_singleton_Some in Hk as [<- <-].
  - reflexivity.
Defined.

(** With two secondary groups after the primary one they do not agree:
    loading moves the last group to the place of the primary one, and of two
    folders for the same path the first merged wins. *)
Theorem load_and_apply_differ :
  let u := sample_member <| User.Groups ::= fun l => l ++ [GroupMapping.mk "c" GroupTypeSecondary] |> in
  (vfolder_Name <$> User.VirtualFolders (applyGroupSettings map_to_list u sample_mapping)) = ["fb"] ∧
  ∃ u', LoadAndApplyGroupSettings map_to_list (groups_with_names sample_mapping) u = Ok u' ∧
    (vfolder_Name <$> User.VirtualFolders u') = ["fc"].
Proof. intros u. split; [vm_compute; reflexivity|]. eexists. split; [reflexivity|]. vm_compute. reflexivity. Qed.
