(* ===== verification/ValidateUser.v ===== *)
(** Validation of users and folders (internal/dataprovider/dataprovider.go,
    buildUserHomeDir to ValidateUser).

    A validator returns the object it leaves behind or the error.  The settings
    of the provider are the class [Settings]; third-party code (password hashes,
    password entropy, SSH keys, certificates) is part of it.  Patterns are put
    in lower case byte by byte, that is for ASCII letters.  The e-mail regular
    expression is a parameter. *)
From Stdlib Require Import Ascii QArith.
From S2P Require Import Prelude GoPath Util Net FsConfig FsValidate Entities UserPerms GroupMerge.
Open Scope Z_scope.

(** The settings the validators read. *)
Class Settings := {
  NamingRules : Z;
  UsersBaseDir : string;
  tempPath : string;
  os_TempDir : string;
  users_MinEntropy : Q;
  admins_MinEntropy : Q;
  hashing_Algo : string;
  bcrypt_Cost : Z;
  ExternalAuthHook : string;
  HasAuthenticators : bool;              (* a plugin authenticates users *)
  totp_configs : list string;            (* mfa.GetAvailableTOTPConfigNames() *)
  WebClientOptions : list string;        (* sdk.WebClientOptions *)
  IsEmailValid : string → bool;
  bcrypt_Generate : string → Z → res string;
  argon2id_CreateHash : string → res string;
  weak_password : string → Q → bool;     (* passwordvalidator.Validate fails *)
  ssh_ParseAuthorizedKey : string → bool;
  pem_Decode : string → option string;
  x509_ParseCertificate : string → bool;
}.

(** * Constants *)

Definition argonPwdPrefix : string := "$argon2id$".
Definition bcryptPwdPrefix : string := "$2a$".
(** The hashes the two libraries produce begin with the prefix of their format. *)
Class HashPrefixes `{Settings} : Prop := {
  bcrypt_prefix p c h : bcrypt_Generate p c = Ok h → has_prefix h bcryptPwdPrefix = true;
  argon2id_prefix p h : argon2id_CreateHash p = Ok h → has_prefix h argonPwdPrefix = true;
}.

(* source: internal/dataprovider/dataprovider.go#L194-L194 internalHashPwdPrefixes *)
Definition internalHashPwdPrefixes : list string := [argonPwdPrefix; bcryptPwdPrefix].
(* source: internal/dataprovider/dataprovider.go#L195-L197 hashPwdPrefixes *)
Definition hashPwdPrefixes : list string :=
  [argonPwdPrefix; bcryptPwdPrefix; "$pbkdf2-sha1$"; "$pbkdf2-sha256$"; "$pbkdf2-sha512$"; "$pbkdf2-b64salt-sha256$";
   "$1$"; "$apr1$"; "{MD5}"; "{SHA256}"; "{SHA512}"; "$5$"; "$6$"; "$y$"].
Definition HashingAlgoBcrypt : string := "bcrypt".

(* source: internal/dataprovider/dataprovider.go#L161-L164 ValidPerms *)
Definition ValidPerms : list string :=
  [PermAny; PermListItems; PermDownload; PermUpload; PermOverwrite; PermCreateDirs; PermRename; PermRenameFiles;
   PermRenameDirs; PermDelete; PermDeleteFiles; PermDeleteDirs; PermCreateSymlinks; PermChmod; PermChown; PermChtimes].
(* source: internal/dataprovider/dataprovider.go#L176-L176 ValidProtocols *)
Definition ValidProtocols : list string := [protocolSSH; protocolFTP; protocolWebDAV; protocolHTTP].
(* source: internal/dataprovider/dataprovider.go#L178-L178 MFAProtocols *)
Definition MFAProtocols : list string := [protocolHTTP; protocolSSH; protocolFTP].
Definition validTLSUsernames : list string := [TLSUsernameNone; "CommonName"].
(* source: internal/dataprovider/actions.go#L60-L60 reservedUsers *)
Definition reservedUsers : list string := ["__self__"; "__system__"].
Definition DenyPolicyDefault : Z := 0.

(* source: internal/dataprovider/dataprovider.go checkReservedUsernames *)
Definition checkReservedUsernames (username : string) : res unit :=
  refuse (contains reservedUsers username) (ValidationError "this username is reserved").

Definition in_range (lo hi c : ascii) : bool := (code lo <=? code c) && (code c <=? code hi).
Definition name_char (c : ascii) : bool :=
  in_range "a" "z" c || in_range "A" "Z" c || in_range "0" "9" c ||
  Ascii.eqb c "-" || Ascii.eqb c "_" || Ascii.eqb c "." || Ascii.eqb c "~".
(** [^[a-zA-Z0-9-_.~]+$] *)
(* source: internal/dataprovider/dataprovider.go#L230-L230 usernameRegex *)
Definition usernameRegex_MatchString (s : string) : bool :=
  negb (s =s "") && forallb name_char (String.list_ascii_of_string s).

(** [strings.ToLower] on ASCII letters *)
Definition lower_char (c : ascii) : ascii :=
  if in_range "A" "Z" c then ascii_of_nat (nat_of_ascii c + 32) else c.
Fixpoint ToLower (s : string) : string :=
  match s with EmptyString => "" | String c s' => String (lower_char c) (ToLower s') end.

Section validate_user.
Context {K : Kms} {S : Settings}.
Variable url_Parse : string → option (string * string).
(** the time of the call, and the order of [for dir, perms := range permissions] *)
Variable now : Z.
Variable range : gmap string (list string) → list (string * list string).

(** [config.NamingRules&1 == 0 && !usernameRegex.MatchString(name)] *)
Definition bad_name (name : string) : bool := (Z.land NamingRules 1 =? 0) && negb (usernameRegex_MatchString name).

(** * Home directory, folders, groups *)

(* source: internal/dataprovider/dataprovider.go buildUserHomeDir *)
Definition buildUserHomeDir (user : User.t) : User.t :=
  if User.HomeDir user =s "" then
    if negb (UsersBaseDir =s "") then user <| User.HomeDir := path_Join2 UsersBaseDir (User.Username user) |>
    else
      let p := Filesystem.Provider (User.FsConfig user) in
      if (p =? SFTPFilesystemProvider) || (p =? S3FilesystemProvider) || (p =? AzureBlobFilesystemProvider)
         || (p =? GCSFilesystemProvider) || (p =? HTTPFilesystemProvider) then
        if negb (tempPath =s "") then user <| User.HomeDir := path_Join2 tempPath (User.Username user) |>
        else user <| User.HomeDir := path_Join2 os_TempDir (User.Username user) |>
      else user
  else user <| User.HomeDir := path_Clean (User.HomeDir user) |>.

(* source: internal/dataprovider/dataprovider.go validateFolderQuotaLimits *)
Definition validateFolderQuotaLimits (folder : VirtualFolder.t) : res unit :=
  let size := VirtualFolder.QuotaSize folder in
  let files := VirtualFolder.QuotaFiles folder in
  _ ← refuse (size <? -1) (ValidationError "invalid quota_size");
  _ ← refuse (files <? -1) (ValidationError "invalid quota_file");
  refuse ((size =? -1) && negb (files =? -1) || (files =? -1) && negb (size =? -1))
    (ValidationError "virtual folder quota_size and quota_files must be both -1 or >= 0").

Fixpoint groups_loop (hasPrimary : bool) (groupNames : gset string) (groups : list GroupMapping.t) : res unit :=
  match groups with
  | [] => Ok tt
  | g :: groups' =>
      _ ← refuse ((GroupMapping.Type_ g <? GroupTypePrimary) && (GroupTypeMembership <? GroupMapping.Type_ g))
            (ValidationError "invalid group type");
      let primary := GroupMapping.Type_ g =? GroupTypePrimary in
      _ ← refuse (primary && hasPrimary) (ValidationError "only one primary group is allowed");
      _ ← refuse (bool_decide (GroupMapping.Name g ∈ groupNames)) (ValidationError "the group is duplicated");
      groups_loop (hasPrimary || primary) ({[GroupMapping.Name g]} ∪ groupNames) groups'
  end.
(* source: internal/dataprovider/dataprovider.go validateUserGroups *)
Definition validateUserGroups (user : User.t) : res unit := groups_loop false ∅ (User.Groups user).

(** The loop: the folders kept so far and the names seen. *)
Fixpoint folders_loop (virtualFolders : list VirtualFolder.t) (folderNames : gset string)
    (vfolders : list VirtualFolder.t) : res (list VirtualFolder.t) :=
  match vfolders with
  | [] => Ok virtualFolders
  | v :: vfolders' =>
      let name := vfolder_Name v in
      _ ← refuse (VirtualFolder.VirtualPath v =s "") (ValidationError "mount/virtual path is mandatory");
      let cleanedVPath := CleanPath (VirtualFolder.VirtualPath v) in
      _ ← validateFolderQuotaLimits v;
      _ ← refuse (name =s "") (ValidationError "folder name is mandatory");
      _ ← refuse (bool_decide (name ∈ folderNames)) (ValidationError "the folder is duplicated");
      _ ← refuse (existsb (fun f => IsDirOverlapped (VirtualFolder.VirtualPath f) cleanedVPath false "/") virtualFolders)
            (ValidationError "invalid virtual folder, it overlaps with another one");
      let kept :=
        VirtualFolder.zero <| VirtualFolder.Base := BaseVirtualFolder.zero <| BaseVirtualFolder.Name := name |> |>
          <| VirtualFolder.VirtualPath := cleanedVPath |>
          <| VirtualFolder.QuotaSize := VirtualFolder.QuotaSize v |>
          <| VirtualFolder.QuotaFiles := VirtualFolder.QuotaFiles v |> in
      folders_loop (virtualFolders ++ [kept]) ({[name]} ∪ folderNames) vfolders'
  end.
(* source: internal/dataprovider/dataprovider.go validateAssociatedVirtualFolders *)
Definition validateAssociatedVirtualFolders (vfolders : list VirtualFolder.t) : res (list VirtualFolder.t) :=
  folders_loop [] ∅ vfolders.

(** * Second factor *)

(** [if secret.IsPlain() { secret.SetAdditionalData(username); err := secret.Encrypt() }] *)
Definition encrypt_plain (username msg : string) (secret : option Secret.t) : res (option Secret.t) :=
  if secret_IsPlain (deref secret) then
    s ← invalid msg (secret_Encrypt ((deref secret) <| Secret.AdditionalData := username |>)); Ok (Some s)
  else Ok secret.

(* source: internal/dataprovider/dataprovider.go validateUserTOTPConfig *)
Definition validateUserTOTPConfig (c : UserTOTPConfig.t) (username : string) : res UserTOTPConfig.t :=
  if negb (UserTOTPConfig.Enabled c) then
    Ok (c <| UserTOTPConfig.ConfigName := "" |> <| UserTOTPConfig.Secret := Some NewEmptySecret |>
          <| UserTOTPConfig.Protocols := [] |>)
  else
    _ ← refuse (UserTOTPConfig.ConfigName c =s "") (ValidationError "totp: config name is mandatory");
    _ ← refuse (negb (contains totp_configs (UserTOTPConfig.ConfigName c))) (ValidationError "totp: config name not found");
    _ ← refuse (secret_IsEmpty (deref (UserTOTPConfig.Secret c))) (ValidationError "totp: secret is mandatory");
    secret ← encrypt_plain username "totp: unable to encrypt secret" (UserTOTPConfig.Secret c);
    _ ← refuse (bool_decide (UserTOTPConfig.Protocols c = [])) (ValidationError "totp: specify at least one protocol");
    _ ← for_each (fun p => refuse (negb (contains MFAProtocols p)) (ValidationError "totp: invalid protocol"))
          (UserTOTPConfig.Protocols c);
    Ok (c <| UserTOTPConfig.Secret := secret |>).

(** A code without a secret is a nil pointer, and the call on it panics. *)
Definition validate_recovery_code (username : string) (code : RecoveryCode.t) : res RecoveryCode.t :=
  _ ← refuse (bool_decide (RecoveryCode.Secret code = None)) (RuntimePanic "nil pointer dereference");
  _ ← refuse (secret_IsEmpty (deref (RecoveryCode.Secret code))) (ValidationError "mfa: recovery code cannot be empty");
  secret ← encrypt_plain username "mfa: unable to encrypt recovery code" (RecoveryCode.Secret code);
  Ok (code <| RecoveryCode.Secret := secret |>).
(* source: internal/dataprovider/dataprovider.go validateUserRecoveryCodes *)
Definition validateUserRecoveryCodes (user : User.t) : res User.t :=
  codes ← mapM (validate_recovery_code (User.Username user)) (UserFilters.RecoveryCodes (User.Filters user));
  Ok (user <| User.Filters ::= fun f => f <| UserFilters.RecoveryCodes := codes |> |>).

(** * Permissions and public keys *)

(** [filepath.ToSlash(path.Clean(dir))] without the slash at its end *)
Definition clean_dir (dir : string) : string :=
  let cleanedDir := path_Clean dir in
  if negb (cleanedDir =s "/") then TrimSuffix cleanedDir "/" else cleanedDir.

Definition validate_dir_permissions (permissions : gmap string (list string)) (dir : string) (perms : list string)
    : res (gmap string (list string)) :=
  _ ← refuse (bool_decide (perms = []) && (dir =s "/")) (ValidationError "no permissions granted for the directory");
  _ ← refuse (length ValidPerms <? length perms)%nat (ValidationError "invalid permissions");
  _ ← for_each (fun p => refuse (negb (contains ValidPerms p)) (ValidationError "invalid permission")) perms;
  let cleanedDir := clean_dir dir in
  _ ← refuse (negb (is_abs cleanedDir)) (ValidationError "cannot set permissions for non absolute path");
  _ ← refuse (negb (dir =s cleanedDir) && (cleanedDir =s "/")) (ValidationError "cannot set permissions for an alias of /");
  Ok (if contains perms PermAny then <[cleanedDir := [PermAny]]> permissions
      else <[cleanedDir := RemoveDuplicates perms false]> permissions).
Fixpoint permissions_loop (permissions : gmap string (list string)) (l : list (string * list string))
    : res (gmap string (list string)) :=
  match l with
  | [] => Ok permissions
  | (dir, perms) :: l' => permissions ← validate_dir_permissions permissions dir perms; permissions_loop permissions l'
  end.
(* source: internal/dataprovider/dataprovider.go validateUserPermissions *)
Definition validateUserPermissions (permsToCheck : gmap string (list string)) : res (gmap string (list string)) :=
  permissions_loop ∅ (range permsToCheck).

(* source: internal/dataprovider/dataprovider.go validatePermissions *)
Definition validatePermissions (user : User.t) : res User.t :=
  _ ← refuse (bool_decide (User.Permissions user = ∅)) (ValidationError "please grant some permissions to this user");
  _ ← refuse (bool_decide (User.Permissions user !! "/" = None)) (ValidationError "permissions for the root dir must be set");
  permissions ← validateUserPermissions (User.Permissions user);
  Ok (user <| User.Permissions := permissions |>).

(* source: internal/dataprovider/dataprovider.go validatePublicKeys *)
Definition validatePublicKeys (user : User.t) : res User.t :=
  let keys := List.filter (fun k => negb (k =s "")) (User.PublicKeys user) in
  _ ← for_each (fun k => refuse (negb (ssh_ParseAuthorizedKey k)) (ValidationError "could not parse key")) keys;
  Ok (user <| User.PublicKeys := RemoveDuplicates keys false |>).

(** * Filters *)

Definition check_pattern (pattern : string) : res unit :=
  refuse (bool_decide (path_Match pattern "abc" = None)) (ValidationError "invalid file pattern filter").
Fixpoint patterns_filter_loop (filteredPaths : list string) (filters l : list PatternsFilter.t) : res (list PatternsFilter.t) :=
  match l with
  | [] => Ok filters
  | f :: l' =>
      let cleanedPath := path_Clean (PatternsFilter.Path f) in
      _ ← refuse (negb (is_abs cleanedPath)) (ValidationError "invalid path for file patterns filter");
      _ ← refuse (contains filteredPaths cleanedPath) (ValidationError "duplicate file patterns filter");
      _ ← refuse (bool_decide (PatternsFilter.AllowedPatterns f = []) && bool_decide (PatternsFilter.DeniedPatterns f = []))
            (ValidationError "empty file patterns filter");
      _ ← refuse ((PatternsFilter.DenyPolicy f <? DenyPolicyDefault) || (DenyPolicyHide <? PatternsFilter.DenyPolicy f))
            (ValidationError "invalid deny policy");
      _ ← for_each check_pattern (PatternsFilter.AllowedPatterns f);
      _ ← for_each check_pattern (PatternsFilter.DeniedPatterns f);
      let f := f <| PatternsFilter.Path := cleanedPath |>
        <| PatternsFilter.AllowedPatterns ::= fun ps => RemoveDuplicates (ToLower <$> ps) false |>
        <| PatternsFilter.DeniedPatterns ::= fun ps => RemoveDuplicates (ToLower <$> ps) false |> in
      patterns_filter_loop (filteredPaths ++ [cleanedPath]) (filters ++ [f]) l'
  end.
(* source: internal/dataprovider/dataprovider.go validateFiltersPatternExtensions *)
Definition validateFiltersPatternExtensions (b : BaseUserFilters.t) : res BaseUserFilters.t :=
  filters ← patterns_filter_loop [] [] (BaseUserFilters.FilePatterns b);
  Ok (b <| BaseUserFilters.FilePatterns := filters |>).

Definition check_cidr (msg IPMask : string) : res unit :=
  refuse (bool_decide (ParseCIDR IPMask = None)) (ValidationError msg).
(* source: internal/dataprovider/dataprovider.go validateIPFilters *)
Definition validateIPFilters (b : BaseUserFilters.t) : res BaseUserFilters.t :=
  let denied := RemoveDuplicates (BaseUserFilters.DeniedIP b) false in
  _ ← for_each (check_cidr "could not parse denied IP/Mask") denied;
  let allowed := RemoveDuplicates (BaseUserFilters.AllowedIP b) false in
  _ ← for_each (check_cidr "could not parse allowed IP/Mask") allowed;
  Ok (b <| BaseUserFilters.DeniedIP := denied |> <| BaseUserFilters.AllowedIP := allowed |>).

(* source: internal/dataprovider/dataprovider.go validateBandwidthLimit *)
Definition validateBandwidthLimit (bl : BandwidthLimit.t) : res unit :=
  _ ← refuse (bool_decide (BandwidthLimit.Sources bl = [])) (ValidationError "no bandwidth limit source specified");
  for_each (check_cidr "could not parse bandwidth limit source") (BandwidthLimit.Sources bl).

Definition not_negative (z : Z) : Z := if z <? 0 then 0 else z.
(* source: internal/dataprovider/dataprovider.go validateBandwidthLimitsFilter *)
Definition validateBandwidthLimitsFilter (b : BaseUserFilters.t) : res BaseUserFilters.t :=
  _ ← for_each validateBandwidthLimit (BaseUserFilters.BandwidthLimits b);
  Ok (b <| BaseUserFilters.BandwidthLimits ::= fmap (fun bl =>
        bl <| BandwidthLimit.DownloadBandwidth ::= not_negative |> <| BandwidthLimit.UploadBandwidth ::= not_negative |>) |>).

(* source: internal/dataprovider/dataprovider.go updateFiltersValues *)
Definition updateFiltersValues (b : BaseUserFilters.t) : BaseUserFilters.t :=
  b <| BaseUserFilters.StartDirectory ::= fun d =>
    if d =s "" then d else let d := CleanPath d in if d =s "/" then "" else d |>.

(* source: internal/dataprovider/dataprovider.go validateFilterProtocols *)
Definition validateFilterProtocols (b : BaseUserFilters.t) : res unit :=
  _ ← refuse (length ValidProtocols <=? length (BaseUserFilters.DeniedProtocols b))%nat
        (ValidationError "invalid denied_protocols");
  _ ← for_each (fun p => refuse (negb (contains ValidProtocols p)) (ValidationError "invalid denied protocol"))
        (BaseUserFilters.DeniedProtocols b);
  for_each (fun p => refuse (negb (contains MFAProtocols p)) (ValidationError "invalid two factor protocol"))
    (BaseUserFilters.TwoFactorAuthProtocols b).

(* source: internal/dataprovider/dataprovider.go validateTLSCerts *)
Definition validateTLSCerts (certs : list string) : res unit :=
  for_each (fun cert => match pem_Decode cert with
    | None => Err (ValidationError "invalid TLS certificate")
    | Some der => refuse (negb (x509_ParseCertificate der)) (ValidationError "error parsing TLS certificate")
    end) certs.

(** checkEmptyFiltersStruct replaces nil slices by empty ones, which are the
    same here. *)
(* source: internal/dataprovider/dataprovider.go validateBaseFilters *)
Definition validateBaseFilters (b : BaseUserFilters.t) : res BaseUserFilters.t :=
  b ← validateIPFilters b;
  b ← validateBandwidthLimitsFilter b;
  _ ← refuse (length ValidLoginMethods <=? length (BaseUserFilters.DeniedLoginMethods b))%nat
        (ValidationError "invalid denied_login_methods");
  _ ← for_each (fun m => refuse (negb (contains ValidLoginMethods m)) (ValidationError "invalid login method"))
        (BaseUserFilters.DeniedLoginMethods b);
  _ ← validateFilterProtocols b;
  _ ← refuse (negb (BaseUserFilters.TLSUsername b =s "") && negb (contains validTLSUsernames (BaseUserFilters.TLSUsername b)))
        (ValidationError "invalid TLS username");
  _ ← validateTLSCerts (BaseUserFilters.TLSCerts b);
  _ ← for_each (fun o => refuse (negb (contains WebClientOptions o)) (ValidationError "invalid web client options"))
        (BaseUserFilters.WebClient b);
  let max := BaseUserFilters.MaxSharesExpiration b in
  _ ← refuse ((0 <? max) && (max <? BaseUserFilters.DefaultSharesExpiration b))
        (ValidationError "default shares expiration must be less than or equal to max shares expiration");
  validateFiltersPatternExtensions (updateFiltersValues b).

(* source: internal/dataprovider/dataprovider.go validateCombinedUserFilters *)
Definition validateCombinedUserFilters (user : User.t) : res unit :=
  let f := User.Filters user in
  let web := BaseUserFilters.WebClient (UserFilters.Base f) in
  _ ← refuse (UserTOTPConfig.Enabled (UserFilters.TOTPConfig f) && contains web WebClientMFADisabled)
        (ValidationError "two-factor authentication cannot be disabled for a user with an active configuration");
  refuse (UserFilters.RequirePasswordChange f && contains web WebClientPasswordChangeDisabled)
    (ValidationError "you cannot require password change and at the same time disallow it").

(** * Users *)

(** the values validateBaseParams corrects *)
(* source: internal/dataprovider/dataprovider.go#L3151-L3165 validateBaseParams *)
Definition adjust_params (user : User.t) : User.t :=
  let user := user <| User.DownloadBandwidth ::= not_negative |> <| User.UploadBandwidth ::= not_negative |> in
  let user := if 0 <? User.TotalDataTransfer user
              then user <| User.UploadDataTransfer := 0 |> <| User.DownloadDataTransfer := 0 |> else user in
  if BaseUserFilters.IsAnonymous (base_filters user) then setAnonymousSettings user else user.

(* source: internal/dataprovider/dataprovider.go validateBaseParams *)
Definition validateBaseParams (user : User.t) : res User.t :=
  _ ← refuse (User.Username user =s "") (ValidationError "username is mandatory");
  _ ← checkReservedUsernames (User.Username user);
  _ ← refuse (negb (User.Email user =s "") && negb (IsEmailValid (User.Email user))) (ValidationError "email is not valid");
  _ ← refuse (bad_name (User.Username user)) (ValidationError "username is not valid");
  _ ← refuse (user_hasRedactedSecret user) (ValidationError "cannot save a user with a redacted secret");
  _ ← refuse (User.HomeDir user =s "") (ValidationError "home_dir is mandatory");
  _ ← refuse (negb (is_abs (User.HomeDir user))) (ValidationError "home_dir must be an absolute path");
  let user := adjust_params user in
  fs ← fs_Validate url_Parse (User.Username user) (User.FsConfig user);
  Ok (user <| User.FsConfig := fs |>).

(* source: internal/dataprovider/dataprovider.go hashPlainPassword *)
Definition hashPlainPassword (plainPwd : string) : res string :=
  if hashing_Algo =s HashingAlgoBcrypt
  then match bcrypt_Generate plainPwd bcrypt_Cost with
       | Ok pwd => Ok pwd | Err _ => Err (PlainError "bcrypt hashing error") end
  else match argon2id_CreateHash plainPwd with
       | Ok pwd => Ok pwd | Err _ => Err (PlainError "argon2ID hashing error") end.

(* source: internal/dataprovider/user.go IsPasswordHashed *)
Definition IsPasswordHashed (user : User.t) : bool := IsStringPrefixInSlice (User.Password user) hashPwdPrefixes.

(** [float64] of an int, exact up to [2 ^ 53] *)
(* source: internal/dataprovider/user.go getMinPasswordEntropy *)
Definition getMinPasswordEntropy (user : User.t) : Q :=
  let strength := BaseUserFilters.PasswordStrength (base_filters user) in
  if 0 <? strength then inject_Z strength else users_MinEntropy.

(** [if minEntropy > 0 { err := passwordvalidator.Validate(password, minEntropy) }] *)
Definition check_entropy (password : string) (minEntropy : Q) : res unit :=
  refuse (negb (Qle_bool minEntropy 0) && weak_password password minEntropy) (ValidationError "insecure password").

(* source: internal/dataprovider/dataprovider.go createUserPasswordHash *)
Definition createUserPasswordHash (user : User.t) : res User.t :=
  if negb (User.Password user =s "") && negb (IsPasswordHashed user) then
    _ ← check_entropy (User.Password user) (getMinPasswordEntropy user);
    hashedPwd ← hashPlainPassword (User.Password user);
    Ok (user <| User.Password := hashedPwd |> <| User.LastPasswordChange := now |>)
  else Ok user.

(* source: internal/dataprovider/user.go HasExternalAuth *)
Definition user_HasExternalAuth (user : User.t) : bool :=
  if BaseUserFilters.ExternalAuthDisabled (base_filters user) then false
  else if negb (ExternalAuthHook =s "") then true
  else HasAuthenticators.

(* source: internal/dataprovider/dataprovider.go ValidateUser *)
Definition ValidateUser (user : User.t) : res User.t :=
  let user := user_SetEmptySecretsIfNil (user <| User.HasPassword := false |>) in
  let user := buildUserHomeDir user in
  user ← validateBaseParams user;
  _ ← validateUserGroups user;
  user ← validatePermissions user;
  totp ← validateUserTOTPConfig (UserFilters.TOTPConfig (User.Filters user)) (User.Username user);
  user ← validateUserRecoveryCodes (user <| User.Filters ::= fun f => f <| UserFilters.TOTPConfig := totp |> |>);
  vfolders ← validateAssociatedVirtualFolders (User.VirtualFolders user);
  let user := user <| User.VirtualFolders := vfolders |> in
  _ ← refuse ((User.Status user <? 0) || (1 <? User.Status user)) (ValidationError "invalid user status");
  user ← createUserPasswordHash user;
  user ← validatePublicKeys user;
  base ← validateBaseFilters (base_filters user);
  let user := user <| User.Filters ::= fun f => f <| UserFilters.Base := base |> |> in
  let user := if negb (user_HasExternalAuth user)
              then user <| User.Filters ::= fun f => f <| UserFilters.Base ::= fun b =>
                     b <| BaseUserFilters.ExternalAuthCacheTime := 0 |> |> |>
              else user in
  _ ← validateCombinedUserFilters user;
  Ok user.

(** * Folders *)

(* source: internal/dataprovider/dataprovider.go ValidateFolder *)
Definition ValidateFolder (folder : BaseVirtualFolder.t) : res BaseVirtualFolder.t :=
  let folder := folder <| BaseVirtualFolder.FsConfig ::= fs_SetEmptySecretsIfNil |> in
  let name := BaseVirtualFolder.Name folder in
  _ ← refuse (name =s "") (ValidationError "folder name is mandatory");
  _ ← refuse (bad_name name) (ValidationError "folder name is not valid");
  let p := Filesystem.Provider (BaseVirtualFolder.FsConfig folder) in
  folder ← (if (p =? LocalFilesystemProvider) || (p =? CryptedFilesystemProvider)
               || negb (BaseVirtualFolder.MappedPath folder =s "") then
              let cleanedMPath := path_Clean (BaseVirtualFolder.MappedPath folder) in
              _ ← refuse (negb (is_abs cleanedMPath)) (ValidationError "invalid folder mapped path");
              Ok (folder <| BaseVirtualFolder.MappedPath := cleanedMPath |>)
            else Ok folder);
  _ ← refuse (folder_HasRedactedSecret folder) (PlainError "cannot save a folder with a redacted secret");
  fs ← fs_Validate url_Parse ("folder_" +:+ name) (BaseVirtualFolder.FsConfig folder);
  Ok (folder <| BaseVirtualFolder.FsConfig := fs |>).
End validate_user.
