(* ===== verification/ValidateUserProps.v ===== *)
(** What the validators of users and folders establish: the well-formedness of
    an accepted user, the exact conditions on virtual folders, groups and
    permissions, and the cases where the result is not what is meant. *)
From Stdlib Require Import Ascii QArith.
From S2P Require Import Prelude GoPath Util Net FsConfig FsValidate Entities UserPerms GroupMerge ValidateUser.
Open Scope Z_scope.

(** * What a valid object is *)

Definition cidr_list (l : list string) : Prop := NoDup l ∧ ∀ x, x ∈ l → ParseCIDR x ≠ None.

(** The permissions by directory: canonical directories, known permissions,
    each once, and nothing beside [*]. *)
Definition permissions_ok (m : gmap string (list string)) : Prop := ∀ dir perms, m !! dir = Some perms →
  canonical dir ∧ NoDup perms ∧ perms ⊆ ValidPerms ∧ (PermAny ∈ perms → perms = [PermAny]).

Definition quota_ok (f : VirtualFolder.t) : Prop :=
  let size := VirtualFolder.QuotaSize f in let files := VirtualFolder.QuotaFiles f in
  (size = -1 ∧ files = -1) ∨ (0 <= size ∧ 0 <= files).

Definition folders_ok (l : list VirtualFolder.t) : Prop :=
  NoDup (vfolder_Name <$> l) ∧ NoDup (VirtualFolder.VirtualPath <$> l) ∧
  Forall (fun f => vfolder_Name f ≠ "" ∧ canonical (VirtualFolder.VirtualPath f) ∧ quota_ok f) l.

Definition is_primary (g : GroupMapping.t) : bool := GroupMapping.Type_ g =? GroupTypePrimary.
Definition groups_ok (l : list GroupMapping.t) : Prop :=
  NoDup (GroupMapping.Name <$> l) ∧ (length (List.filter is_primary l) <= 1)%nat.

(** The patterns are kept in lower case; each is one that [path.Match] accepts. *)
Definition parses (p : string) : Prop := ∃ q, p = ToLower q ∧ path_Match q "abc" ≠ None.
Definition pattern_ok (f : PatternsFilter.t) : Prop :=
  Forall parses (PatternsFilter.AllowedPatterns f) ∧ Forall parses (PatternsFilter.DeniedPatterns f) ∧
  canonical (PatternsFilter.Path f) ∧ NoDup (PatternsFilter.AllowedPatterns f) ∧ NoDup (PatternsFilter.DeniedPatterns f) ∧
  (PatternsFilter.AllowedPatterns f ≠ [] ∨ PatternsFilter.DeniedPatterns f ≠ []) ∧
  (PatternsFilter.DenyPolicy f = DenyPolicyDefault ∨ PatternsFilter.DenyPolicy f = DenyPolicyHide).

(** The filters of a user or a group: the networks parse, some login method and
    some protocol are left, one filter for a directory. *)
Record filters_ok `{Settings} (b : BaseUserFilters.t) : Prop := {
  fo_allowed : cidr_list (BaseUserFilters.AllowedIP b);
  fo_denied : cidr_list (BaseUserFilters.DeniedIP b);
  fo_limits : ∀ l, l ∈ BaseUserFilters.BandwidthLimits b → BandwidthLimit.Sources l ≠ [] ∧
    (∀ x, x ∈ BandwidthLimit.Sources l → ParseCIDR x ≠ None) ∧
    0 <= BandwidthLimit.UploadBandwidth l ∧ 0 <= BandwidthLimit.DownloadBandwidth l;
  fo_methods : BaseUserFilters.DeniedLoginMethods b ⊆ ValidLoginMethods ∧
    ∃ m, m ∈ ValidLoginMethods ∧ m ∉ BaseUserFilters.DeniedLoginMethods b;
  fo_protocols : BaseUserFilters.DeniedProtocols b ⊆ ValidProtocols ∧
    ∃ p, p ∈ ValidProtocols ∧ p ∉ BaseUserFilters.DeniedProtocols b;
  fo_2fa : BaseUserFilters.TwoFactorAuthProtocols b ⊆ MFAProtocols;
  fo_tls : BaseUserFilters.TLSUsername b = "" ∨ BaseUserFilters.TLSUsername b ∈ validTLSUsernames;
  fo_certs : ∀ cert, cert ∈ BaseUserFilters.TLSCerts b → ∃ der, pem_Decode cert = Some der ∧ x509_ParseCertificate der = true;
  fo_web : BaseUserFilters.WebClient b ⊆ WebClientOptions;
  fo_shares : 0 < BaseUserFilters.MaxSharesExpiration b →
    BaseUserFilters.DefaultSharesExpiration b <= BaseUserFilters.MaxSharesExpiration b;
  fo_start : BaseUserFilters.StartDirectory b = "" ∨
    canonical (BaseUserFilters.StartDirectory b) ∧ BaseUserFilters.StartDirectory b ≠ "/";
  fo_patterns : Forall pattern_ok (BaseUserFilters.FilePatterns b) ∧
    NoDup (PatternsFilter.Path <$> BaseUserFilters.FilePatterns b);
}.

Record user_ok `{Settings} (u : User.t) : Prop := {
  uo_username : User.Username u ≠ "" ∧ User.Username u ∉ reservedUsers ∧ bad_name (User.Username u) = false;
  uo_home : canonical (User.HomeDir u);
  uo_password : User.Password u = "" ∨ IsPasswordHashed u = true;
  uo_permissions : permissions_ok (User.Permissions u) ∧ ∃ perms, User.Permissions u !! "/" = Some perms ∧ perms ≠ [];
  uo_groups : groups_ok (User.Groups u);
  uo_folders : folders_ok (User.VirtualFolders u);
  uo_status : User.Status u = 0 ∨ User.Status u = 1;
  uo_fs : User.FsConfig u = only_provider (User.FsConfig u) ∧ ∀ o, o ∈ fs_secrets (User.FsConfig u) → not_plain o;
  uo_limits : 0 <= User.UploadBandwidth u ∧ 0 <= User.DownloadBandwidth u ∧
    (0 < User.TotalDataTransfer u → User.UploadDataTransfer u = 0 ∧ User.DownloadDataTransfer u = 0);
  uo_filters : filters_ok (base_filters u);
  uo_totp : let t := UserFilters.TOTPConfig (User.Filters u) in
    not_plain (UserTOTPConfig.Secret t) ∧
    (UserTOTPConfig.Enabled t = true → UserTOTPConfig.ConfigName t ∈ totp_configs ∧
       UserTOTPConfig.Protocols t ≠ [] ∧ UserTOTPConfig.Protocols t ⊆ MFAProtocols ∧
       WebClientMFADisabled ∉ BaseUserFilters.WebClient (base_filters u));
  uo_codes : ∀ c, c ∈ UserFilters.RecoveryCodes (User.Filters u) → not_plain (RecoveryCode.Secret c);
}.

(** * What the validators establish *)

(** [for _, x := range l { if !util.Contains(valid, x) { return err } }] *)
Lemma all_contained (valid l : list string) e :
  Forall (fun x => refuse (negb (contains valid x)) e = Ok tt) l ↔ l ⊆ valid.
Proof.
  rewrite Forall_forall. unfold subseteq, list_subseteq. apply forall_proper; intros x. apply forall_proper; intros Hx.
  by rewrite refuse_Ok, negb_false_iff, contains_spec.
Qed.

Lemma all_cidr msg l : Forall (fun x => check_cidr msg x = Ok tt) l ↔ ∀ x, x ∈ l → ParseCIDR x ≠ None.
Proof.
  rewrite Forall_forall. apply forall_proper; intros x. apply forall_proper; intros Hx.
  unfold check_cidr. by rewrite refuse_Ok, bool_decide_eq_false.
Qed.

(** A shorter list of members leaves one out. *)
Lemma one_left (valid l : list string) : NoDup valid → (length valid <=? length l)%nat = false →
  ∃ m, m ∈ valid ∧ m ∉ l.
Proof.
  intros Hnd Hlen. apply Nat.leb_gt in Hlen.
  destruct (decide (Exists (fun m => m ∉ l) valid)) as [H|H]; [by apply Exists_exists in H|].
  apply not_Exists_Forall in H; [|apply _]. exfalso.
  assert (valid ⊆+ l) as Hs; [|apply submseteq_length in Hs; lia].
  apply NoDup_submseteq; [done|]. intros x Hx. rewrite Forall_forall in H. by apply dec_stable, H.
Qed.

(** ** Virtual folders *)

(** What is kept of a virtual folder. *)
Definition trim_folder (v : VirtualFolder.t) : VirtualFolder.t :=
  VirtualFolder.zero <| VirtualFolder.Base := BaseVirtualFolder.zero <| BaseVirtualFolder.Name := vfolder_Name v |> |>
    <| VirtualFolder.VirtualPath := CleanPath (VirtualFolder.VirtualPath v) |>
    <| VirtualFolder.QuotaSize := VirtualFolder.QuotaSize v |> <| VirtualFolder.QuotaFiles := VirtualFolder.QuotaFiles v |>.

Definition mount_path (v : VirtualFolder.t) : string := CleanPath (VirtualFolder.VirtualPath v).
Definition acceptable (v : VirtualFolder.t) : Prop :=
  VirtualFolder.VirtualPath v ≠ "" ∧ vfolder_Name v ≠ "" ∧ quota_ok v.

Lemma validateFolderQuotaLimits_Ok f u : validateFolderQuotaLimits f = Ok u ↔ quota_ok f.
Proof.
  destruct u. unfold validateFolderQuotaLimits, quota_ok. split.
  - intros H. inv_checks H. lia.
  - intros H. unfold refuse.
    destruct (Z.ltb_spec (VirtualFolder.QuotaSize f) (-1)); [lia|]. simpl.
    destruct (Z.ltb_spec (VirtualFolder.QuotaFiles f) (-1)); [lia|]. simpl.
    destruct (_ || _) eqn:He; [|done]. lia.
Qed.

Lemma no_overlap path l : existsb (fun f => IsDirOverlapped (VirtualFolder.VirtualPath f) path false "/") l = false ↔
  path ∉ (VirtualFolder.VirtualPath <$> l).
Proof.
  rewrite <-not_true_iff_false, existsb_exists, list_elem_of_fmap. unfold IsDirOverlapped.
  split; intros H (f & Hf); apply H; exists f.
  - destruct Hf as [-> Hf]. rewrite String.eqb_refl. by rewrite <-list_elem_of_In.
  - rewrite list_elem_of_In. destruct Hf as [Hin Hf].
    destruct (String.eqb_spec (VirtualFolder.VirtualPath f) path); by subst.
Qed.

Lemma folders_loop_Ok vs : ∀ kept (seen : gset string) r,
  folders_loop kept seen vs = Ok r ↔
  r = kept ++ (trim_folder <$> vs) ∧ Forall acceptable vs ∧
  NoDup (vfolder_Name <$> vs) ∧ (∀ v, v ∈ vs → vfolder_Name v ∉ seen) ∧
  NoDup (mount_path <$> vs) ∧
  (∀ v, v ∈ vs → mount_path v ∉ (VirtualFolder.VirtualPath <$> kept)).
Proof.
  induction vs as [|v vs IH]; intros kept seen r; simpl.
  { rewrite app_nil_r. split; [|by intros (-> & _)]. intros [= ->].
    split_and!; [done|constructor|constructor|by intros ? ?%elem_of_nil|constructor|by intros ? ?%elem_of_nil]. }
  rewrite !Forall_cons, !NoDup_cons. unfold acceptable at 1. split.
  - intros H. inv_checks H. rename a0 into u. apply IH in H as (-> & H2 & H3 & H4 & H5 & H6).
    apply String.eqb_neq in E, E1. apply validateFolderQuotaLimits_Ok in E0.
    apply bool_decide_eq_false in E2. apply no_overlap in E3.
    rewrite <-app_assoc. split_and!; try done.
    + intros (w & Hw & Hin)%list_elem_of_fmap. specialize (H4 w Hin). set_solver.
    + intros w [->|Hw]%elem_of_cons; [done|]. specialize (H4 w Hw). set_solver.
    + intros (w & Hw & Hin)%list_elem_of_fmap. specialize (H6 w Hin).
      rewrite fmap_app in H6. rewrite <-Hw in H6. set_solver.
    + intros w [->|Hw]%elem_of_cons; [done|]. specialize (H6 w Hw). rewrite fmap_app in H6. set_solver.
  - intros (-> & [(A1 & A2 & A3) H2] & [B1 B2] & C & [D1 D2] & F).
    rewrite (proj2 (String.eqb_neq _ _) A1), (proj2 (String.eqb_neq _ _) A2). simpl.
    rewrite (proj2 (validateFolderQuotaLimits_Ok _ tt) A3). simpl.
    rewrite bool_decide_eq_false_2 by (apply C; left). simpl.
    rewrite (proj2 (no_overlap _ _)) by (apply F; left). simpl.
    apply IH. rewrite <-app_assoc. split_and!; try done.
    + intros w Hw. rewrite elem_of_union, elem_of_singleton. intros [Heq|Hin].
      * apply B1. apply list_elem_of_fmap. by exists w.
      * apply (C w); [by right|done].
    + intros w Hw. rewrite fmap_app, elem_of_app. intros [Hin|Hin].
      * apply (F w); [by right|done].
      * apply list_elem_of_singleton in Hin. apply D1. apply list_elem_of_fmap. by exists w.
Qed.

Lemma folders_ok_trimmed vs : Forall acceptable vs → NoDup (vfolder_Name <$> vs) → NoDup (mount_path <$> vs) →
  folders_ok (trim_folder <$> vs).
Proof.
  intros Ha Hn Hp. unfold folders_ok. rewrite <-!list_fmap_compose. split_and!; [done|done|].
  apply Forall_fmap. eapply Forall_impl; [exact Ha|]. intros v (_ & Hname & Hq). cbn. split_and!; auto with gopath.
Qed.

(** ** Groups *)

Lemma groups_loop_Ok l : ∀ (has : bool) (seen : gset string) u, groups_loop has seen l = Ok u ↔
  NoDup (GroupMapping.Name <$> l) ∧ (∀ g, g ∈ l → GroupMapping.Name g ∉ seen) ∧
  (length (List.filter is_primary l) <= if has then 0 else 1)%nat.
Proof.
  induction l as [|g l IH]; intros has seen u; simpl.
  { destruct u. split; [intros _|done]. split_and!; [constructor|by intros ? ?%elem_of_nil|destruct has; lia]. }
  unfold is_primary at 1. rewrite NoDup_cons.
  assert (((GroupMapping.Type_ g <? GroupTypePrimary) && (GroupTypeMembership <? GroupMapping.Type_ g)) = false) as ->.
  { unfold GroupTypePrimary, GroupTypeMembership. lia. }
  simpl. set (primary := GroupMapping.Type_ g =? GroupTypePrimary).
  assert (∀ P : Prop, (∀ w, w ∈ g :: l → GroupMapping.Name w ∉ seen) ∧ P ↔
    GroupMapping.Name g ∉ seen ∧ (∀ w, w ∈ l → GroupMapping.Name w ∉ seen) ∧ P) as Hsplit.
  { intros P. setoid_rewrite elem_of_cons. naive_solver. }
  rewrite Hsplit. split.
  - intros H. inv_checks H. apply IH in H as (H1 & H2 & H3). apply bool_decide_eq_false in E0. split_and!; try done.
    + intros (w & Hw & Hin)%list_elem_of_fmap. specialize (H2 w Hin). set_solver.
    + intros w Hw. specialize (H2 w Hw). set_solver.
    + destruct primary, has; simpl in *; lia.
  - intros ([H0 H1] & H2 & H3 & H4). destruct (primary && has) eqn:Hp; simpl.
    { apply andb_true_iff in Hp as [-> ->]. simpl in H4. lia. }
    rewrite bool_decide_eq_false_2 by done. simpl. apply IH. split_and!; [done| |destruct primary, has; simpl in *; lia].
    intros w Hw. rewrite elem_of_union, elem_of_singleton. intros [Heq|Hin]; [|by apply (H3 w)].
    apply H0, list_elem_of_fmap. by exists w.
Qed.

Lemma validateUserGroups_Ok user u : validateUserGroups user = Ok u ↔ groups_ok (User.Groups user).
Proof.
  unfold validateUserGroups, groups_ok. rewrite groups_loop_Ok. split; [by intros (? & _ & ?)|].
  intros [? ?]. split_and!; [done| |done]. intros g _. apply not_elem_of_empty.
Qed.

(** ** Permissions *)

Lemma clean_dir_canonical dir : is_abs (clean_dir dir) = true → canonical (clean_dir dir).
Proof.
  unfold clean_dir. destruct (String.eqb_spec (path_Clean dir) "/") as [->|Hne]; simpl; [auto with gopath|].
  destruct (is_abs (path_Clean dir)) eqn:Ha.
  - unfold TrimSuffix. rewrite canonical_no_suffix by (done || by apply Clean_abs_canonical). intros _.
    by apply Clean_abs_canonical.
  - unfold TrimSuffix. destruct (has_suffix _ _); [|congruence]. intros H. exfalso.
    destruct (path_Clean dir) as [|c s]; [by destruct (_ - _)%nat|]. unfold is_abs in *.
    destruct (_ - _)%nat; [done|]. cbn [String.substring has_prefix] in H, Ha. by destruct (Ascii.eqb "/" c).
Qed.

Lemma clean_dir_id dir : canonical dir → clean_dir dir = dir.
Proof.
  intros H. unfold clean_dir. rewrite canonical_Clean by done.
  destruct (String.eqb_spec dir "/") as [->|Hne]; simpl; [done|]. unfold TrimSuffix. by rewrite canonical_no_suffix.
Qed.

(** What is stored for a list of permissions. *)
Definition stored_perms (perms : list string) : list string :=
  if contains perms PermAny then [PermAny] else RemoveDuplicates perms false.

(** The tests on one entry. *)
Definition entry_ok (dir : string) (perms : list string) : Prop :=
  (dir = "/" → perms ≠ []) ∧ (length perms <= length ValidPerms)%nat ∧ perms ⊆ ValidPerms ∧
  is_abs (clean_dir dir) = true ∧ (clean_dir dir = "/" → dir = "/").

Lemma validate_dir_permissions_Ok m dir perms m' : validate_dir_permissions m dir perms = Ok m' ↔
  entry_ok dir perms ∧ m' = <[clean_dir dir := stored_perms perms]> m.
Proof.
  unfold validate_dir_permissions, entry_ok, stored_perms. split.
  - intros H. inv_checks H. apply all_contained in E1. apply negb_false_iff in E2. apply Nat.ltb_ge in E0.
    split; [|destruct (contains perms PermAny); by injection H as <-]. split_and!; [|done|done|done|].
    + intros -> ->. done.
    + intros Hc. rewrite Hc in E3. destruct (String.eqb_spec dir "/"); done.
  - intros [(H1 & H2 & H3 & H4 & H5) ->].
    destruct (bool_decide (perms = []) && (dir =s "/")) eqn:He.
    { apply andb_true_iff in He as [->%bool_decide_eq_true ->%String.eqb_eq]. by destruct H1. }
    rewrite (proj2 (Nat.ltb_ge _ _) H2), (proj2 (for_each_Ok _ _ tt)) by (by apply all_contained). cbn [refuse mbind res_bind].
    rewrite H4. cbn [refuse negb mbind res_bind].
    assert (negb (dir =s clean_dir dir) && (clean_dir dir =s "/") = false) as ->.
    { destruct (String.eqb_spec (clean_dir dir) "/") as [Hc|Hc]; [rewrite Hc, (H5 Hc); done|by rewrite andb_false_r]. }
    simpl. by destruct (contains perms PermAny).
Qed.

Definition stored_entry (e : string * list string) : string * list string := (clean_dir e.1, stored_perms e.2).

(** The entries are stored in the order they are visited. *)
Lemma permissions_loop_Ok l : ∀ m m', permissions_loop m l = Ok m' ↔
  Forall (fun e => entry_ok e.1 e.2) l ∧ m' = foldl (fun m e => <[e.1 := e.2]> m) m (stored_entry <$> l).
Proof.
  induction l as [|[dir perms] l IH]; intros m m'; simpl.
  { split; [by intros [= ->]|by intros [_ ->]]. }
  rewrite Forall_cons. split.
  - intros H. inv_res H. apply validate_dir_permissions_Ok in E as [He ->]. by apply IH in H as [? ->].
  - intros [[He Hl] ->]. rewrite (proj2 (validate_dir_permissions_Ok m dir perms _) (conj He eq_refl)). simpl. by apply IH.
Qed.

Definition store {B} (m : gmap string B) (e : string * B) : gmap string B := <[e.1 := e.2]> m.

Lemma store_lookup {B} (l : list (string * B)) : ∀ m k v, foldl store m l !! k = Some v →
  m !! k = Some v ∨ (k, v) ∈ l.
Proof.
  induction l as [|[k' v'] l IH]; intros m k v; simpl; [by left|].
  intros [H|H]%IH; [|by right; right]. unfold store in H. simpl in H.
  apply lookup_insert_Some in H as [[-> ->]|[_ H]]; [by right; left|by left].
Qed.

Lemma store_keeps {B} (l : list (string * B)) : ∀ m k, is_Some (m !! k) ∨ k ∈ l.*1 → is_Some (foldl store m l !! k).
Proof.
  induction l as [|[k' v'] l IH]; intros m k H; simpl in *; [by destruct H as [H|H%elem_of_nil]|].
  apply IH. unfold store. simpl. rewrite elem_of_cons in H. destruct (decide (k = k')) as [->|Hne].
  - left. rewrite lookup_insert_eq. eauto.
  - rewrite lookup_insert_ne by done. tauto.
Qed.

Lemma store_distinct {B} (l : list (string * B)) : ∀ m, NoDup l.*1 → foldl store m l = list_to_map l ∪ m.
Proof.
  induction l as [|[k v] l IH]; intros m Hnd; simpl in *; [by rewrite (left_id_L ∅ (∪))|].
  apply NoDup_cons in Hnd as [Hk Hnd]. rewrite IH by done. unfold store. simpl.
  rewrite <-insert_union_l, insert_union_r; [done|]. by apply not_elem_of_list_to_map_1.
Qed.

Section permissions.
Variable range : gmap string (list string) → list (string * list string).
Hypothesis range_all : ∀ m, range m ≡ₚ map_to_list m.

Lemma range_entries m (P : string → list string → Prop) :
  Forall (fun e => P e.1 e.2) (range m) ↔ ∀ dir perms, m !! dir = Some perms → P dir perms.
Proof.
  rewrite Forall_forall. split.
  - intros H dir perms Hd. apply (H (dir, perms)). by rewrite range_all, elem_of_map_to_list.
  - intros H [dir perms] Hin. rewrite range_all in Hin. by apply H, elem_of_map_to_list.
Qed.

Lemma stored_perms_ok perms : perms ⊆ ValidPerms →
  NoDup (stored_perms perms) ∧ stored_perms perms ⊆ ValidPerms ∧
  (PermAny ∈ stored_perms perms → stored_perms perms = [PermAny]).
Proof.
  intros Hs. unfold stored_perms. destruct (contains perms PermAny) eqn:Hc.
  - split_and!; [apply NoDup_singleton| |done]. intros x ->%list_elem_of_singleton. left.
  - split_and!; [apply NoDup_RemoveDuplicates| |].
    + intros x Hx. rewrite elem_of_RemoveDuplicates in Hx. by apply Hs.
    + rewrite elem_of_RemoveDuplicates, <-contains_spec. by rewrite Hc.
Qed.

(** Whatever the order, an accepted map gives a well-formed one. *)
Lemma validateUserPermissions_ok m m' : validateUserPermissions range m = Ok m' →
  permissions_ok m' ∧ (∀ perms, m !! "/" = Some perms → m' !! "/" = Some (stored_perms perms) ∧ stored_perms perms ≠ []).
Proof.
  unfold validateUserPermissions. intros [Hall ->]%permissions_loop_Ok.
  pose proof (proj1 (range_entries m entry_ok) Hall) as He. fold (@store (list string)).
  assert (∀ dir perms, foldl store ∅ (stored_entry <$> range m) !! dir = Some perms →
    ∃ d ps, m !! d = Some ps ∧ entry_ok d ps ∧ dir = clean_dir d ∧ perms = stored_perms ps) as Hs.
  { intros dir perms [H|H]%store_lookup; [by rewrite lookup_empty in H|].
    apply list_elem_of_fmap in H as ([d ps] & [= -> ->] & Hin). exists d, ps. rewrite range_all in Hin. apply elem_of_map_to_list in Hin. split_and!; [done|by apply He|done|done]. }
  split.
  - intros dir perms (d & ps & Hm & (_ & _ & Hsub & Habs & _) & -> & ->)%Hs.
    split; [by apply clean_dir_canonical|by apply stored_perms_ok].
  - intros perms Hp. destruct (He _ _ Hp) as (Hne & _).
    assert (stored_perms perms ≠ []) as Hnn.
    { unfold stored_perms. destruct (contains _ _); [done|]. rewrite RemoveDuplicates_nil. by apply Hne. }
    split; [|done]. destruct (store_keeps (stored_entry <$> range m) ∅ "/") as [ps Hps].
    { right. apply list_elem_of_fmap. exists ("/", stored_perms perms). split; [done|].
      apply list_elem_of_fmap. exists ("/", perms). split; [by rewrite <-(clean_dir_id "/" canonical_root) at 1|].
      by rewrite range_all, elem_of_map_to_list. }
    rewrite Hps. f_equal. apply Hs in Hps as (d & ps' & Hd & (_ & _ & _ & _ & Hroot) & Hc & ->).
    rewrite (Hroot (eq_sym Hc)) in Hd. congruence.
Qed.

Lemma validatePermissions_ok u u' : validatePermissions range u = Ok u' →
  ∃ m, u' = u <| User.Permissions := m |> ∧ permissions_ok m ∧ ∃ perms, m !! "/" = Some perms ∧ perms ≠ [].
Proof.
  unfold validatePermissions. intros H. inv_checks H. injection H as <-. apply bool_decide_eq_false in E0.
  apply validateUserPermissions_ok in E1 as [Hp1 Hp2]. eexists. split_and!; [done|done|].
  destruct (User.Permissions u !! "/") as [ps|]; [|done]. destruct (Hp2 ps eq_refl). eauto.
Qed.
End permissions.

(** ** Filters *)

Lemma patterns_parse l : Forall (fun p => check_pattern p = Ok tt) l → Forall parses (RemoveDuplicates (ToLower <$> l) false).
Proof.
  rewrite !Forall_forall. intros H p Hp. apply elem_of_RemoveDuplicates, list_elem_of_fmap in Hp as (q & -> & Hq). exists q.
  split; [done|]. specialize (H q Hq). unfold check_pattern in H. apply refuse_Ok, bool_decide_eq_false in H. done.
Qed.
Lemma certs_parse `{Settings} l u : validateTLSCerts l = Ok u → ∀ cert, cert ∈ l → ∃ der, pem_Decode cert = Some der ∧ x509_ParseCertificate der = true.
Proof.
  unfold validateTLSCerts. rewrite for_each_Ok, Forall_forall. intros Hall cert Hc. specialize (Hall cert Hc).
  destruct (pem_Decode cert) as [der|]; [|done]. exists der. split; [done|]. apply refuse_Ok in Hall. by apply negb_false_iff.
Qed.

Lemma patterns_filter_loop_ok l : ∀ paths kept r, patterns_filter_loop paths kept l = Ok r →
  paths = PatternsFilter.Path <$> kept → NoDup paths → Forall pattern_ok kept →
  Forall pattern_ok r ∧ NoDup (PatternsFilter.Path <$> r).
Proof.
  induction l as [|f l IH]; intros paths kept r H Hp Hnd Hok; simpl in H; [injection H as <-; by subst|].
  inv_checks H. apply contains_false in E0. apply negb_false_iff in E.
  apply IH in H; [done|by rewrite fmap_app, Hp| |].
  - rewrite NoDup_app. split_and!; [done| |apply NoDup_singleton]. intros x Hx ->%list_elem_of_singleton. done.
  - apply Forall_app. split; [done|]. apply Forall_singleton. unfold pattern_ok. cbn.
    split_and!; [by apply patterns_parse|by apply patterns_parse|by apply Clean_abs_canonical|apply NoDup_RemoveDuplicates|apply NoDup_RemoveDuplicates| |].
    + rewrite !RemoveDuplicates_nil. apply andb_false_iff in E1. rewrite !bool_decide_eq_false in E1.
      destruct E1 as [E1|E1]; [left|right]; intros He; by apply fmap_nil_inv in He.
    + unfold DenyPolicyDefault, DenyPolicyHide in *. lia.
Qed.

Lemma cidr_list_RemoveDuplicates msg l : Forall (fun x => check_cidr msg x = Ok tt) (RemoveDuplicates l false) →
  cidr_list (RemoveDuplicates l false).
Proof. rewrite all_cidr. intros H. split; [apply NoDup_RemoveDuplicates|done]. Qed.

Lemma validateIPFilters_ok b b' : validateIPFilters b = Ok b' →
  cidr_list (BaseUserFilters.AllowedIP b') ∧ cidr_list (BaseUserFilters.DeniedIP b').
Proof. unfold validateIPFilters. intros H. inv_checks H. injection H as <-. split; by eapply cidr_list_RemoveDuplicates. Qed.

Lemma not_negative_pos z : 0 <= not_negative z.
Proof. unfold not_negative. destruct (Z.ltb_spec z 0); lia. Qed.

Lemma validateBandwidthLimitsFilter_ok b b' : validateBandwidthLimitsFilter b = Ok b' →
  BaseUserFilters.AllowedIP b' = BaseUserFilters.AllowedIP b ∧ BaseUserFilters.DeniedIP b' = BaseUserFilters.DeniedIP b ∧
  ∀ l, l ∈ BaseUserFilters.BandwidthLimits b' → BandwidthLimit.Sources l ≠ [] ∧
    (∀ x, x ∈ BandwidthLimit.Sources l → ParseCIDR x ≠ None) ∧
    0 <= BandwidthLimit.UploadBandwidth l ∧ 0 <= BandwidthLimit.DownloadBandwidth l.
Proof.
  unfold validateBandwidthLimitsFilter. intros H. inv_checks H. injection H as <-. cbn. split_and!; [done|done|].
  intros l (bl & -> & Hin)%list_elem_of_fmap. rewrite Forall_forall in E. specialize (E bl Hin).
  unfold validateBandwidthLimit in E. inv_checks E. apply bool_decide_eq_false in E0. rewrite all_cidr in E. cbn.
  split_and!; [done|done|apply not_negative_pos|apply not_negative_pos].
Qed.

Lemma start_directory_ok (d : string) : let d' := if d =s "" then d else let d := CleanPath d in if d =s "/" then "" else d in
  d' = "" ∨ canonical d' ∧ d' ≠ "/".
Proof.
  destruct (String.eqb_spec d "") as [->|_]; [by left|]. cbv zeta.
  destruct (String.eqb_spec (CleanPath d) "/") as [|Hne]; [by left|right]. split; [auto with gopath|done].
Qed.

Lemma ValidLoginMethods_NoDup : NoDup ValidLoginMethods.
Proof. by apply (bool_decide_unpack _). Qed.
Lemma ValidProtocols_NoDup : NoDup ValidProtocols.
Proof. by apply (bool_decide_unpack _). Qed.

Section with_settings.
Context {K : Kms} {S : Settings}.

Lemma validateBaseFilters_ok b b' : validateBaseFilters b = Ok b' → filters_ok b'.
Proof.
  unfold validateBaseFilters. intros H. inv_checks H.
  apply validateIPFilters_ok in E as [Ha Hd]. apply validateBandwidthLimitsFilter_ok in E0 as (Ha' & Hd' & Hl).
  rewrite <-Ha' in Ha. rewrite <-Hd' in Hd. clear Ha' Hd' a. rename a0 into c.
  apply patterns_filter_loop_ok in E8 as [Hp1 Hp2]; [|done|constructor|constructor]. injection H as <-.
  unfold validateFilterProtocols in E3. inv_checks E3. rewrite all_contained in E2, E0, E3, E6.
  split; cbn; [done|done|done| | |done| |by apply (certs_parse _ tt), for_each_Ok|done|lia|apply start_directory_ok|done].
  - split; [done|]. apply one_left; [apply ValidLoginMethods_NoDup|done].
  - split; [done|]. apply one_left; [apply ValidProtocols_NoDup|done].
  - destruct (String.eqb_spec (BaseUserFilters.TLSUsername c) "") as [|]; [by left|right].
    apply negb_false_iff in E4. by apply contains_spec.
Qed.
End with_settings.

(** ** Users *)

Lemma buildUserHomeDir_abs `{Settings} user : is_abs (User.HomeDir (buildUserHomeDir user)) = true →
  canonical (User.HomeDir (buildUserHomeDir user)).
Proof.
  assert (∀ a, a ≠ "" → is_abs (path_Join2 a (User.Username user)) = true → canonical (path_Join2 a (User.Username user)))
    as Hj.
  { intros a Ha. destruct (path_Join2_Clean a (User.Username user)) as [p ->]; [by left|]. apply Clean_abs_canonical. }
  unfold buildUserHomeDir. destruct (String.eqb_spec (User.HomeDir user) "") as [He|]; [|apply Clean_abs_canonical].
  destruct (String.eqb_spec UsersBaseDir ""); [|by apply Hj]. destruct (_ || _); [|cbn; rewrite He; done].
  destruct (String.eqb_spec tempPath ""); [|by apply Hj]. cbn. unfold path_Join2.
  destruct (String.eqb_spec os_TempDir ""); [|apply Clean_abs_canonical].
  destruct (_ =s _); [done|apply Clean_abs_canonical].
Qed.

Section users.
Context {K : Kms} {S : Settings}.
Variable url_Parse : string → option (string * string).
Variable now : Z.
Variable range : gmap string (list string) → list (string * list string).

Lemma encrypt_plain_sealed username msg o o' : encrypt_plain username msg o = Ok o' → not_plain o'.
Proof.
  unfold encrypt_plain, not_plain. destruct (secret_IsPlain (deref o)) eqn:Hp; [|by intros [= <-]].
  unfold invalid. destruct (secret_Encrypt _) as [s|] eqn:He; [|done]. intros [= <-]. by apply encrypt_not_plain in He.
Qed.

Lemma validateUserTOTPConfig_ok c username c' : validateUserTOTPConfig c username = Ok c' →
  not_plain (UserTOTPConfig.Secret c') ∧
  (UserTOTPConfig.Enabled c' = true → UserTOTPConfig.ConfigName c' ∈ totp_configs ∧
     UserTOTPConfig.Protocols c' ≠ [] ∧ UserTOTPConfig.Protocols c' ⊆ MFAProtocols).
Proof.
  unfold validateUserTOTPConfig. destruct (UserTOTPConfig.Enabled c) eqn:He; cbn [negb]; [|intros [= <-]; cbn; by rewrite He].
  intros H. inv_checks H. injection H as <-. cbn. split; [by eapply encrypt_plain_sealed|]. intros _.
  rewrite all_contained in E4. apply bool_decide_eq_false in E3. apply negb_false_iff, contains_spec in E0. done.
Qed.

Lemma recovery_codes_sealed username l : ∀ codes, mapM (validate_recovery_code username) l = Ok codes →
  ∀ c, c ∈ codes → not_plain (RecoveryCode.Secret c).
Proof.
  induction l as [|c l IH]; intros a E; simpl in E.
  - injection E as <-. by intros ? ?%elem_of_nil.
  - inv_res E. inv_res E. injection E as <-. intros d [->|Hd]%elem_of_cons; [|by apply (IH a1)].
    unfold validate_recovery_code in E0. inv_checks E0. injection E0 as <-. by eapply encrypt_plain_sealed.
Qed.

Lemma validateUserRecoveryCodes_ok u u' : validateUserRecoveryCodes u = Ok u' →
  ∃ codes, u' = u <| User.Filters ::= fun f => f <| UserFilters.RecoveryCodes := codes |> |> ∧
    ∀ c, c ∈ codes → not_plain (RecoveryCode.Secret c).
Proof.
  unfold validateUserRecoveryCodes. intros H. inv_res H. injection H as <-. exists a. split; [done|]. by eapply recovery_codes_sealed.
Qed.

Context {HP : HashPrefixes}.

Lemma hashPlainPassword_hashed p h : hashPlainPassword p = Ok h → IsStringPrefixInSlice h internalHashPwdPrefixes = true.
Proof.
  unfold hashPlainPassword, internalHashPwdPrefixes. cbn [IsStringPrefixInSlice]. destruct (_ =s _).
  - destruct (bcrypt_Generate _ _) as [h'|] eqn:Hb; [|done]. intros [= <-]. rewrite (bcrypt_prefix _ _ _ Hb).
    by destruct (has_prefix _ _).
  - destruct (argon2id_CreateHash _) as [h'|] eqn:Hb; [|done]. intros [= <-]. by rewrite (argon2id_prefix _ _ Hb).
Qed.

Lemma internal_hash_is_hash h : IsStringPrefixInSlice h internalHashPwdPrefixes = true →
  IsStringPrefixInSlice h hashPwdPrefixes = true.
Proof.
  unfold internalHashPwdPrefixes, hashPwdPrefixes. cbn [IsStringPrefixInSlice].
  destruct (has_prefix h argonPwdPrefix); [done|]. by destruct (has_prefix h bcryptPwdPrefix).
Qed.

Lemma createUserPasswordHash_ok u u' : createUserPasswordHash now u = Ok u' →
  ∃ pwd t, u' = u <| User.Password := pwd |> <| User.LastPasswordChange := t |> ∧
    (pwd = "" ∨ IsStringPrefixInSlice pwd hashPwdPrefixes = true).
Proof.
  unfold createUserPasswordHash, IsPasswordHashed. destruct (String.eqb_spec (User.Password u) "") as [He|_]; cbn [negb andb].
  - intros [= <-]. exists (User.Password u), (User.LastPasswordChange u). by destruct u; cbn; auto.
  - destruct (IsStringPrefixInSlice _ _) eqn:Hp; cbn [negb].
    + intros [= <-]. exists (User.Password u), (User.LastPasswordChange u). by destruct u; cbn; auto.
    + intros H. inv_checks H. injection H as <-. exists a0, now. split; [done|right].
      by eapply internal_hash_is_hash, hashPlainPassword_hashed.
Qed.

Lemma validatePublicKeys_ok u u' : validatePublicKeys u = Ok u' → ∃ keys, u' = u <| User.PublicKeys := keys |>.
Proof. unfold validatePublicKeys. intros H. inv_checks H. injection H as <-. eauto. Qed.

Lemma adjust_params_ok v : let w := adjust_params v in
  User.Username w = User.Username v ∧ User.HomeDir w = User.HomeDir v ∧
  0 <= User.UploadBandwidth w ∧ 0 <= User.DownloadBandwidth w ∧
  (0 < User.TotalDataTransfer w → User.UploadDataTransfer w = 0 ∧ User.DownloadDataTransfer w = 0).
Proof.
  unfold adjust_params. set (w := v <| User.DownloadBandwidth ::= not_negative |> <| User.UploadBandwidth ::= not_negative |>).
  assert (0 <= User.UploadBandwidth w ∧ 0 <= User.DownloadBandwidth w) as [Hup Hdown] by (split; apply not_negative_pos).
  assert (User.Username w = User.Username v ∧ User.HomeDir w = User.HomeDir v) as [H1 H2] by done. clearbody w.
  cbv zeta. destruct (Z.ltb_spec 0 (User.TotalDataTransfer w)); destruct (BaseUserFilters.IsAnonymous _); cbn;
    split_and!; done || lia.
Qed.

Lemma validateCombinedUserFilters_ok u x : validateCombinedUserFilters u = Ok x →
  UserTOTPConfig.Enabled (UserFilters.TOTPConfig (User.Filters u)) = true →
  WebClientMFADisabled ∉ BaseUserFilters.WebClient (base_filters u).
Proof.
  unfold validateCombinedUserFilters. intros H He. inv_checks H. rewrite He in E. by apply contains_false in E.
Qed.

(** The part of a valid user that the later steps do not touch. *)
Record base_ok (u : User.t) : Prop := {
  bo_username : User.Username u ≠ "" ∧ User.Username u ∉ reservedUsers ∧ bad_name (User.Username u) = false;
  bo_home : canonical (User.HomeDir u);
  bo_fs : User.FsConfig u = only_provider (User.FsConfig u) ∧ ∀ o, o ∈ fs_secrets (User.FsConfig u) → not_plain o;
  bo_limits : 0 <= User.UploadBandwidth u ∧ 0 <= User.DownloadBandwidth u ∧
    (0 < User.TotalDataTransfer u → User.UploadDataTransfer u = 0 ∧ User.DownloadDataTransfer u = 0);
}.

Lemma validateBaseParams_ok u u' : validateBaseParams url_Parse (buildUserHomeDir u) = Ok u' → base_ok u'.
Proof.
  unfold validateBaseParams. intros H. inv_checks H. injection H as <-.
  apply String.eqb_neq in E. apply contains_false in E0. apply negb_false_iff, buildUserHomeDir_abs in E5.
  apply fs_Validate_ok in E6 as (Hf & _ & _ & Hs).
  destruct (adjust_params_ok (buildUserHomeDir u)) as (H1 & H2 & H3 & H4 & H5).
  remember (adjust_params _) as w eqn:Hw. clear Hw. rewrite <-H1 in E, E0, E2. rewrite <-H2 in E5. by split.
Qed.

(** C23: A user that ValidateUser accepts is well formed: the name is set, not
    reserved and allowed by the naming rules, the home directory, the virtual
    paths and the directories with permissions are canonical absolute paths, the
    permissions are known ones and the root has some, no virtual folder or group
    appears twice, at most one group is primary, the networks, the file patterns
    and the TLS certificates of the filters parse (a pattern is kept in lower
    case, [path.Match] accepts it as it was given), some login method and some
    protocol are left, and neither the password nor any secret
    is kept in plain text. *)
Theorem ValidateUser_sound u u' : (∀ m, range m ≡ₚ map_to_list m) →
  ValidateUser url_Parse now range u = Ok u' → user_ok u'.
Proof.
  intros Hrange. unfold ValidateUser. cbv zeta. intros H. inv_checks H. injection H as <-.
  apply validateBaseParams_ok in E. apply validateUserGroups_Ok in E0.
  apply validatePermissions_ok in E1 as (perms & -> & Hp & Hroot); [|done].
  apply validateUserTOTPConfig_ok in E2 as [Ht1 Ht2]. apply validateUserRecoveryCodes_ok in E3 as (codes & -> & Hcodes).
  unfold validateAssociatedVirtualFolders in E4. apply folders_loop_Ok in E4 as (-> & Hf1 & Hf2 & _ & Hf3 & _).
  apply createUserPasswordHash_ok in E6 as (pwd & t & -> & Hpwd). apply validatePublicKeys_ok in E7 as [keys ->].
  apply validateBaseFilters_ok in E8. pose proof (validateCombinedUserFilters_ok _ _ E9) as Hmfa. clear E9. destruct E as [B1 B2 B3 B4].
  match goal with |- user_ok ?x => set (w := x) in * end.
  assert (User.Username w = User.Username a ∧ User.HomeDir w = User.HomeDir a ∧ User.FsConfig w = User.FsConfig a ∧
    User.UploadBandwidth w = User.UploadBandwidth a ∧ User.DownloadBandwidth w = User.DownloadBandwidth a ∧
    User.TotalDataTransfer w = User.TotalDataTransfer a ∧ User.UploadDataTransfer w = User.UploadDataTransfer a ∧
    User.DownloadDataTransfer w = User.DownloadDataTransfer a) as (W1 & W2 & W3 & W4 & W5 & W6 & W7 & W8)
    by (unfold w; destruct (negb _); split_and!; reflexivity).
  assert (User.Password w = pwd ∧ User.Permissions w = perms ∧ User.Groups w = User.Groups a ∧
    User.VirtualFolders w = trim_folder <$> User.VirtualFolders a ∧ User.Status w = User.Status a ∧
    UserFilters.TOTPConfig (User.Filters w) = a2 ∧ UserFilters.RecoveryCodes (User.Filters w) = codes)
    as (W9 & W10 & W11 & W12 & W13 & W14 & W15) by (unfold w; destruct (negb _); split_and!; reflexivity).
  assert (filters_ok (base_filters w)) as Hfil by (unfold w; destruct (negb _); [by destruct E8; split|exact E8]).
  assert (UserTOTPConfig.Enabled (UserFilters.TOTPConfig (User.Filters w)) = true →
    WebClientMFADisabled ∉ BaseUserFilters.WebClient (base_filters w)) as Hm by exact Hmfa.
  change (User.Status _) with (User.Status a) in E5. clear Hmfa E8. clearbody w.
  split; rewrite ?W1, ?W2, ?W3, ?W4, ?W5, ?W6, ?W7, ?W8, ?W10, ?W11, ?W12, ?W14, ?W15; try done.
  - unfold IsPasswordHashed. by rewrite W9.
  - by apply folders_ok_trimmed.
  - rewrite W13. lia.
  - split; [done|]. intros He. destruct (Ht2 He) as (? & ? & ?). rewrite W14 in Hm. auto.
Qed.
End users.

(** The virtual folders of a user or a group are accepted exactly when each
    has a mount path, a name and consistent quota limits, no name appears twice
    and no two mount paths clean to the same path; what is stored is the name,
    the clean path and the limits of each. *)
Theorem validateAssociatedVirtualFolders_iff vs r :
  validateAssociatedVirtualFolders vs = Ok r ↔
  Forall acceptable vs ∧ NoDup (vfolder_Name <$> vs) ∧ NoDup (mount_path <$> vs) ∧ r = trim_folder <$> vs.
Proof.
  unfold validateAssociatedVirtualFolders. rewrite folders_loop_Ok. simpl.
  split; [by intros (? & ? & ? & _ & ? & _)|]. intros (? & ? & ? & ?).
  split_and!; try done; intros v _; set_solver.
Qed.

(** When the directories with permissions clean to different paths, the
    order of the range over the map does not matter: validation succeeds exactly
    when every entry is valid and stores each list under its clean path. *)
Theorem validateUserPermissions_iff range m m' (Hrange : ∀ m, range m ≡ₚ map_to_list m)
    (Hdistinct : NoDup (clean_dir <$> (map_to_list m).*1)) :
  validateUserPermissions range m = Ok m' ↔
  (∀ dir perms, m !! dir = Some perms → entry_ok dir perms) ∧
  m' = list_to_map (stored_entry <$> map_to_list m).
Proof.
  unfold validateUserPermissions. rewrite permissions_loop_Ok, range_entries by done. fold (@store (list string)).
  assert (∀ l, (stored_entry <$> l).*1 = clean_dir <$> l.*1) as Hfst by (intros l; by rewrite <-!list_fmap_compose).
  rewrite store_distinct, map_union_empty; [|by rewrite Hfst, (Hrange m)].
  assert (list_to_map (stored_entry <$> range m) = list_to_map (stored_entry <$> map_to_list m) :> gmap string (list string))
    as ->; [|done].
  apply list_to_map_proper; [by rewrite Hfst, (Hrange m)|by rewrite (Hrange m)].
Qed.

(** The result of validateUserPermissions may depend on the order in which
    the map is visited: of two entries for the same directory the last one
    visited wins, so a user saved twice with the same settings may get only
    list on /a or every permission. *)
Theorem validateUserPermissions_order :
  let m : gmap string (list string) := {["/" := [PermListItems]; "/a" := [PermListItems]; "/a/" := [PermAny]]} in
  ∃ range1 range2 m1 m2, range1 m ≡ₚ map_to_list m ∧ range2 m ≡ₚ map_to_list m ∧
    validateUserPermissions range1 m = Ok m1 ∧ validateUserPermissions range2 m = Ok m2 ∧
    m1 !! "/a" = Some [PermListItems] ∧ m2 !! "/a" = Some [PermAny].
Proof.
  intros m.
  exists (fun _ => [("/a/", [PermAny]); ("/a", [PermListItems]); ("/", [PermListItems])]),
    (fun _ => [("/a", [PermListItems]); ("/a/", [PermAny]); ("/", [PermListItems])]).
  eexists _, _. split_and!; [| |by vm_compute|by vm_compute|by vm_compute|by vm_compute];
    apply (bool_decide_unpack _); by vm_compute.
Qed.

Section folders.
Context {K : Kms} {S : Settings}.
Variable url_Parse : string → option (string * string).

(** A folder that ValidateFolder accepts has an allowed name, a mapped path
    that is canonical when the given provider is local or encrypted or the path
    is set, the configuration of one provider and no secret in plain text. *)
Theorem ValidateFolder_sound f f' : ValidateFolder url_Parse f = Ok f' →
  BaseVirtualFolder.Name f' = BaseVirtualFolder.Name f ∧ BaseVirtualFolder.Name f' ≠ "" ∧
  bad_name (BaseVirtualFolder.Name f') = false ∧
  (Filesystem.Provider (BaseVirtualFolder.FsConfig f) ∈ [LocalFilesystemProvider; CryptedFilesystemProvider] ∨
     BaseVirtualFolder.MappedPath f ≠ "" → canonical (BaseVirtualFolder.MappedPath f')) ∧
  BaseVirtualFolder.FsConfig f' = only_provider (BaseVirtualFolder.FsConfig f') ∧
  ∀ o, o ∈ fs_secrets (BaseVirtualFolder.FsConfig f') → not_plain o.
Proof.
  unfold ValidateFolder. cbv zeta. intros Hv. inv_checks Hv.
  apply fs_Validate_ok in E3 as (Hone & _ & _ & Hs). apply String.eqb_neq in E.
  set (g := f <| BaseVirtualFolder.FsConfig ::= fs_SetEmptySecretsIfNil |>) in *.
  assert (BaseVirtualFolder.Name a1 = BaseVirtualFolder.Name f ∧
    (Filesystem.Provider (BaseVirtualFolder.FsConfig f) ∈ [LocalFilesystemProvider; CryptedFilesystemProvider] ∨
     BaseVirtualFolder.MappedPath f ≠ "" → canonical (BaseVirtualFolder.MappedPath a1))) as [Hn Hm].
  { change (Filesystem.Provider (BaseVirtualFolder.FsConfig g)) with (Filesystem.Provider (BaseVirtualFolder.FsConfig f)) in E1.
    change (BaseVirtualFolder.MappedPath g) with (BaseVirtualFolder.MappedPath f) in E1.
    destruct (_ || _) eqn:Hc in E1.
    - inv_checks E1. injection E1 as <-. split; [done|]. intros _. by apply Clean_abs_canonical, negb_false_iff.
    - injection E1 as <-. split; [done|]. rewrite !orb_false_iff, !Z.eqb_neq, negb_false_iff, String.eqb_eq in Hc.
      rewrite !elem_of_cons, elem_of_nil. tauto. }
  injection Hv as <-. split_and!; try done.
  - change (BaseVirtualFolder.Name a1 ≠ ""). by rewrite Hn.
  - change (bad_name (BaseVirtualFolder.Name a1) = false). by rewrite Hn.
Qed.
End folders.

(** * Examples *)

(** Settings for the examples: hashes are the reversed password after the
    prefix of the algorithm, passwords shorter than eight bytes are weak. *)
Definition sample_settings : Settings := {|
  NamingRules := 0; UsersBaseDir := "/srv/sftpgo/data"; tempPath := ""; os_TempDir := "/tmp";
  users_MinEntropy := 50; admins_MinEntropy := 0; hashing_Algo := "bcrypt"; bcrypt_Cost := 10; ExternalAuthHook := "";
  HasAuthenticators := false; totp_configs := ["Default"]; WebClientOptions := [WebClientMFADisabled; WebClientWriteDisabled];
  IsEmailValid := fun s => negb (bool_decide (index_of "@" s = None));
  bcrypt_Generate := fun p _ => Ok ("$2a$" +:+ string_rev p); argon2id_CreateHash := fun p => Ok ("$argon2id$" +:+ string_rev p);
  weak_password := fun p _ => (String.length p <? 8)%nat; ssh_ParseAuthorizedKey := fun k => has_prefix k "ssh-";
  pem_Decode := fun s => if has_prefix s "-----BEGIN" then Some s else None; x509_ParseCertificate := fun _ => true |}.

#[export] Instance sample_prefixes : @HashPrefixes sample_settings.
Proof. split; [intros p c h Hh|intros p h Hh]; injection Hh as <-; apply has_prefix_app. Qed.

Definition sample_folder (name path : string) : VirtualFolder.t :=
  VirtualFolder.zero <| VirtualFolder.Base := BaseVirtualFolder.zero <| BaseVirtualFolder.Name := name |> |>
    <| VirtualFolder.VirtualPath := path |>.
Definition raw_user : User.t :=
  User.zero <| User.Username := "alice" |> <| User.Status := 1 |> <| User.Password := "correct horse" |>
    <| User.Permissions := {["/" := [PermListItems; PermListItems]; "/docs/../a/" := [PermUpload; PermAny]]} |>
    <| User.Groups := [GroupMapping.mk "staff" 1; GroupMapping.mk "all" 2] |>
    <| User.VirtualFolders := [sample_folder "music" "music/"; sample_folder "films" "/x/../films"] |>
    <| User.PublicKeys := ["ssh-ed25519 AAAA"; ""; "ssh-ed25519 AAAA"] |>
    <| User.UploadBandwidth := -5 |> <| User.TotalDataTransfer := 10 |> <| User.UploadDataTransfer := 3 |>
    <| User.Filters ::= fun f => f <| UserFilters.Base ::= fun b => b
         <| BaseUserFilters.DeniedIP := ["10.0.0.0/8"; "10.0.0.0/8"] |>
         <| BaseUserFilters.DeniedProtocols := ["FTP"] |> <| BaseUserFilters.StartDirectory := "a//b" |>
         <| BaseUserFilters.FilePatterns := [PatternsFilter.mk "/a/./" ["*.JPG"; "*.jpg"] [] 1] |> |> |>.
Definition no_url (s : string) : option (string * string) := None.
Definition raw_range (m : gmap string (list string)) : list (string * list string) := map_to_list m.
Definition valid_user : User.t :=
  match @ValidateUser sample_kms sample_settings no_url 1000 raw_range raw_user with Ok u => u | Err _ => User.zero end.

Lemma ValidateUser_sound_witness :
  @ValidateUser sample_kms sample_settings no_url 1000 raw_range raw_user = Ok valid_user ∧ @user_ok sample_settings valid_user ∧
  User.HomeDir valid_user = "/srv/sftpgo/data/alice" ∧ User.Password valid_user = "$2a$esroh tcerroc" ∧
  User.Permissions valid_user = {["/" := [PermListItems]; "/a" := [PermAny]]}.
Proof.
  assert (@ValidateUser sample_kms sample_settings no_url 1000 raw_range raw_user = Ok valid_user) as H by (by vm_compute).
  assert (User.HomeDir valid_user = "/srv/sftpgo/data/alice") as H1 by (vm_compute; reflexivity).
  assert (User.Password valid_user = "$2a$esroh tcerroc") as H2 by (vm_compute; reflexivity).
  assert (User.Permissions valid_user = {["/" := [PermListItems]; "/a" := [PermAny]]}) as H3 by (vm_compute; reflexivity).
  refine (conj H (conj _ (conj H1 (conj H2 H3)))).
  refine (@ValidateUser_sound sample_kms sample_settings no_url 1000 raw_range sample_prefixes raw_user valid_user _ H).
  intros m. reflexivity.
Defined.

(** A folder whose storage provider is none of the known ones skips the
    test of the mapped path and is then stored as a local folder, so ValidateFolder
    accepts a local folder without a mapped path. *)
Theorem ValidateFolder_unknown_provider :
  let f := BaseVirtualFolder.zero <| BaseVirtualFolder.Name := "shared" |>
             <| BaseVirtualFolder.FsConfig := Filesystem.zero <| Filesystem.Provider := 99 |> |> in
  ∃ f', @ValidateFolder sample_kms sample_settings no_url f = Ok f' ∧
    Filesystem.Provider (BaseVirtualFolder.FsConfig f') = LocalFilesystemProvider ∧ BaseVirtualFolder.MappedPath f' = "" ∧
    is_ok (@ValidateFolder sample_kms sample_settings no_url f') = false.
Proof. eexists. split; [by vm_compute|]. by vm_compute. Qed.

Lemma validateUserPermissions_iff_witness :
  let m : gmap string (list string) := {["/" := [PermListItems]; "/a/" := [PermUpload; PermAny]]} in
  NoDup (clean_dir <$> (map_to_list m).*1) ∧ validateUserPermissions raw_range m = Ok {["/" := [PermListItems]; "/a" := [PermAny]]} ∧
  ∀ dir perms, m !! dir = Some perms → entry_ok dir perms.
Proof.
  intros m. assert (NoDup (clean_dir <$> (map_to_list m).*1)) as Hd by (apply (bool_decide_unpack _); by vm_compute).
  assert (validateUserPermissions raw_range m = Ok {["/" := [PermListItems]; "/a" := [PermAny]]}) as Hv by (by vm_compute).
  split; [exact Hd|]. split; [exact Hv|].
  exact (proj1 (proj1 (validateUserPermissions_iff raw_range m _ (fun m => reflexivity (map_to_list m)) Hd) Hv)).
Defined.
