(* ===== verification/Links.v ===== *)
(** Two-way references between the tables of a store.

    The in-memory data provider keeps, in every object, the names of the
    objects it refers to and, in the objects referred to, the names of those
    that refer to them.  This file is the theory of such mappings: the graph of
    a table (key to list of names), the edges of a graph, what it takes for two
    graphs to be the converse of each other ([linked]), and the state actions
    on a table that add and remove a back-reference, with their loops. *)
From S2P Require Import Prelude.

Notation refs := (gmap string (list string)).

Definition edge (g : refs) (a b : string) : Prop := ∃ l, g !! a = Some l ∧ b ∈ l.

Definition linked (g g' : refs) : Prop := ∀ a b, edge g a b ↔ edge g' b a.

#[export] Instance linked_sym : Symmetric linked.
Proof. intros g g' H a b. by rewrite (H b a). Qed.

Lemma linked_exists g g' a l b : linked g g' → g !! a = Some l → b ∈ l → is_Some (g' !! b).
Proof. intros H Ha Hb. destruct (proj1 (H a b)) as (l' & Hl' & _); [by exists l|eauto]. Qed.

(** ** Edges of updated graphs *)

Lemma edge_insert g k l a b :
  edge (<[k:=l]> g) a b ↔ (a = k ∧ b ∈ l) ∨ (a ≠ k ∧ edge g a b).
Proof.
  unfold edge. destruct (decide (a = k)) as [->|Hne].
  - setoid_rewrite lookup_insert_eq. naive_solver.
  - setoid_rewrite lookup_insert_ne; [|done]. naive_solver.
Qed.

Lemma edge_delete g k a b : edge (delete k g) a b ↔ a ≠ k ∧ edge g a b.
Proof.
  unfold edge. destruct (decide (a = k)) as [->|Hne].
  - setoid_rewrite lookup_delete_eq. naive_solver.
  - setoid_rewrite lookup_delete_ne; [|done]. naive_solver.
Qed.

Lemma edge_empty a b : edge ∅ a b ↔ False.
Proof. unfold edge. setoid_rewrite lookup_empty. naive_solver. Qed.

Lemma edge_alter f g k a b :
  edge (alter f k g) a b ↔ (a = k ∧ ∃ l, g !! k = Some l ∧ b ∈ f l) ∨ (a ≠ k ∧ edge g a b).
Proof.
  unfold edge. destruct (decide (a = k)) as [->|Hne].
  - split.
    + intros (l & Hl & Hb). rewrite lookup_alter_eq in Hl. apply fmap_Some in Hl as (l' & Hl' & ->).
      left. split; [done|]. by exists l'.
    + intros [(_ & l & Hl & Hb)|[? _]]; [|done]. exists (f l). split; [|done].
      by rewrite lookup_alter_eq, Hl.
  - setoid_rewrite lookup_alter_ne; [|done]. naive_solver.
Qed.

(** [if !Contains(l, x) { l = append(l, x) }] and the loop without [x] *)
Definition push (x : string) (l : list string) : list string := if contains l x then l else l ++ [x].
Definition add_edge (x k : string) (g : refs) : refs := alter (push x) k g.
Definition remove_edge (x k : string) (g : refs) : refs := alter (without x) k g.

Lemma elem_of_push x l y : y ∈ push x l ↔ y ∈ l ∨ y = x.
Proof.
  unfold push. destruct (contains l x) eqn:H; [apply contains_spec in H|]; set_solver.
Qed.

Lemma NoDup_push x l : NoDup l → NoDup (push x l).
Proof.
  intros Hl. unfold push. destruct (contains l x) eqn:H; [done|].
  apply contains_false in H. apply NoDup_app. split_and!; [done|set_solver|apply NoDup_singleton].
Qed.

Lemma without_push x l : x ∉ l → without x (push x l) = l.
Proof.
  intros H. unfold push. rewrite (proj2 (contains_false l x) H). unfold without.
  rewrite List.filter_app. simpl. rewrite String.eqb_refl. simpl. rewrite app_nil_r. by apply without_notin.
Qed.

Lemma edge_add x k g a b : k ∈ dom g →
  edge (add_edge x k g) a b ↔ edge g a b ∨ (a = k ∧ b = x).
Proof.
  intros [l Hl]%elem_of_dom. unfold add_edge. rewrite edge_alter.
  setoid_rewrite elem_of_push. unfold edge.
  destruct (decide (a = k)) as [->|]; [|naive_solver]. rewrite Hl. naive_solver.
Qed.

Lemma edge_remove x k g a b :
  edge (remove_edge x k g) a b ↔ edge g a b ∧ ¬ (a = k ∧ b = x).
Proof.
  unfold remove_edge. rewrite edge_alter. setoid_rewrite elem_of_without. unfold edge.
  destruct (decide (a = k)) as [->|]; naive_solver.
Qed.

Lemma dom_add_edge x k g : dom (add_edge x k g) = dom g.
Proof. apply dom_alter_L. Qed.
Lemma dom_remove_edge x k g : dom (remove_edge x k g) = dom g.
Proof. apply dom_alter_L. Qed.

(** ** The same edge added or removed at several keys *)

Definition add_edges (x : string) (ks : list string) (g : refs) : refs :=
  foldl (fun g k => add_edge x k g) g ks.
Definition remove_edges (x : string) (ks : list string) (g : refs) : refs :=
  foldl (fun g k => remove_edge x k g) g ks.

Lemma remove_edges_nil x g : remove_edges x [] g = g.
Proof. done. Qed.

Lemma dom_add_edges x ks g : dom (add_edges x ks g) = dom g.
Proof. revert g; induction ks as [|k ks IH]; intros g; simpl; [done|]. by rewrite IH, dom_add_edge. Qed.
Lemma dom_remove_edges x ks g : dom (remove_edges x ks g) = dom g.
Proof. revert g; induction ks as [|k ks IH]; intros g; simpl; [done|]. by rewrite IH, dom_remove_edge. Qed.

Lemma edge_add_edges x ks g a b : (∀ k, k ∈ ks → k ∈ dom g) →
  edge (add_edges x ks g) a b ↔ edge g a b ∨ (a ∈ ks ∧ b = x).
Proof.
  revert g; induction ks as [|k ks IH]; intros g Hks; simpl; [set_solver|].
  rewrite IH by (intros; rewrite dom_add_edge; set_solver).
  rewrite edge_add by set_solver. set_solver.
Qed.

Lemma edge_remove_edges x ks g a b :
  edge (remove_edges x ks g) a b ↔ edge g a b ∧ ¬ (a ∈ ks ∧ b = x).
Proof.
  revert g; induction ks as [|k ks IH]; intros g; simpl; [set_solver|].
  rewrite IH, edge_remove. set_solver.
Qed.

(** ** Keeping two graphs linked *)

(** Object [k] of the first table gets the references [l]; the second table has
    the back-references of [k] replaced by those. *)
Lemma linked_set g g' k l h' : linked g g' →
  (∀ b a, edge h' b a ↔ (a ≠ k ∧ edge g' b a) ∨ (a = k ∧ b ∈ l)) →
  linked (<[k:=l]> g) h'.
Proof. intros H Hh a b. rewrite edge_insert, Hh, <-(H a b). tauto. Qed.

Lemma linked_unset g g' k h' : linked g g' →
  (∀ b a, edge h' b a ↔ a ≠ k ∧ edge g' b a) → linked (delete k g) h'.
Proof. intros H Hh a b. by rewrite edge_delete, Hh, <-(H a b). Qed.

(** A new object: its back-references are added. *)
Lemma linked_add g g' k l : linked g g' → k ∉ dom g → (∀ b, b ∈ l → b ∈ dom g') →
  linked (<[k:=l]> g) (add_edges k l g').
Proof.
  intros H Hk Hl. eapply linked_set; [done|]. intros b a. rewrite edge_add_edges by done.
  split; [|tauto]. intros [He|]; [|tauto]. left. split; [|done].
  intros ->. apply Hk. destruct (proj2 (H k b) He) as (l' & Hl' & _). by apply elem_of_dom.
Qed.

(** An object changes its references: the old back-references go first. *)
Lemma linked_replace g g' k l0 l : linked g g' → g !! k = Some l0 → (∀ b, b ∈ l → b ∈ dom g') →
  linked (<[k:=l]> g) (add_edges k l (remove_edges k l0 g')).
Proof.
  intros H Hk Hl. eapply linked_set; [done|]. intros b a.
  rewrite edge_add_edges by (intros; rewrite dom_remove_edges; auto). rewrite edge_remove_edges.
  destruct (decide (a = k)) as [->|]; [|naive_solver].
  assert (edge g' b k → b ∈ l0) by (intros He; apply H in He as (l' & Hl' & ?); congruence). naive_solver.
Qed.

(** An object goes away with its back-references. *)
Lemma linked_drop g g' k l0 : linked g g' → g !! k = Some l0 →
  linked (delete k g) (remove_edges k l0 g').
Proof.
  intros H Hk. eapply linked_unset; [done|]. intros b a. rewrite edge_remove_edges.
  destruct (decide (a = k)) as [->|]; [|naive_solver].
  assert (edge g' b k → b ∈ l0) by (intros He; apply H in He as (l' & Hl' & ?); congruence). naive_solver.
Qed.

(** An object changes, its references do not. *)
Lemma linked_same g g' k l : linked g g' → g !! k = Some l → linked (<[k:=l]> g) g'.
Proof. intros H Hk. by rewrite insert_id. Qed.

Lemma linked_empty : linked ∅ ∅.
Proof. intros a b. by rewrite !edge_empty. Qed.

Lemma linked_fresh g g' k : linked g g' → k ∉ dom g → linked (<[k:=[]]> g) g'.
Proof. intros H Hk. change g' with (add_edges k [] g'). apply linked_add; set_solver. Qed.

(** If an action failed half way and its rollback removed what it had added. *)
Lemma linked_undo g g' k ks ks' : linked g g' → k ∉ dom g → (∀ b, b ∈ ks → b ∈ dom g') → ks' = ks →
  linked g (remove_edges k ks' (add_edges k ks g')).
Proof.
  intros H Hk Hl -> a b. rewrite edge_remove_edges, edge_add_edges by done. rewrite (H a b).
  split; [|tauto]. intros He. split; [by left|]. intros [_ ->]. apply Hk.
  destruct (proj2 (H k b) He) as (l' & Hl' & _). by apply elem_of_dom.
Qed.

(** If the rollback put back what had been removed. *)
Lemma linked_restore g g' k l0 ks : linked g g' → g !! k = Some l0 →
  (∀ b, b ∈ l0 → b ∈ dom g') → (∀ b, b ∈ ks → b ∈ l0) →
  linked g (add_edges k l0 (add_edges k ks (remove_edges k l0 g'))).
Proof.
  intros H Hk Hd Hks.
  assert (add_edges k l0 (add_edges k ks (remove_edges k l0 g')) =
          add_edges k (ks ++ l0) (remove_edges k l0 g')) as -> by (unfold add_edges; by rewrite foldl_app).
  rewrite <-(insert_id g k l0) by done. eapply linked_set; [done|]. intros b a.
  rewrite edge_add_edges by (intros ? [?|?]%elem_of_app; rewrite dom_remove_edges; auto).
  rewrite edge_remove_edges, elem_of_app.
  destruct (decide (a = k)) as [->|]; [|naive_solver].
  assert (edge g' b k → b ∈ l0) by (intros He; apply H in He as (l' & Hl' & ?); congruence). naive_solver.
Qed.

(** * Loops *)

(** [for _, k := range ks { f(k) }] *)
Fixpoint for_each {S A} (f : A → M S unit) (l : list A) : M S unit :=
  match l with [] => mret tt | k :: l' => f k ≫= fun _ => for_each f l' end.

(** [for k in todo: if err := add(k); err != nil { for k in mapped: undo(k);
    return err }; mapped = append(mapped, k)] *)
Fixpoint map_or_undo {S A} (add undo : A → M S unit) (mapped todo : list A) : M S unit :=
  match todo with
  | [] => mret tt
  | k :: todo' =>
      try_catch (add k) (fun _ => map_or_undo add undo (mapped ++ [k]) todo')
        (fun err => for_each undo mapped ≫= fun _ => fail err)
  end.

(** [for k in todo: if err := add(k); err != nil { for k in old: add(k),
    logging its error; return err }] *)
Fixpoint map_or_restore {S A} (add : A → M S unit) (old todo : list A) : M S unit :=
  match todo with
  | [] => mret tt
  | k :: todo' =>
      try_catch (add k) (fun _ => map_or_restore add old todo')
        (fun err => for_each (fun k => ignore (add k)) old ≫= fun _ => fail err)
  end.

(** * Back-references of a table *)

Section backref.
(** [copy] is the [getACopy] of the table's objects, [getl] and [setl] the list
    of back-references. *)
Context {B : Type} (copy : B → B) (getl : B → list string) (setl : list string → B → B).

(** [r, err := exists(key); if err != nil { return err }; if !Contains(r.L, x)
    { r.L = append(r.L, x); table[key] = r }] *)
Definition add_ref (err : string → error) (x key : string) : M (gmap string B) unit := fun m =>
  match m !! key with
  | None => (Err (err key), m)
  | Some r0 =>
      let r := copy r0 in
      if negb (contains (getl r) x) then (Ok tt, <[key := setl (getl r ++ [x]) r]> m) else (Ok tt, m)
  end.

(** [r, err := exists(key); if err != nil { return }; r.L = <r.L without x>;
    table[key] = r] *)
Definition remove_ref (x key : string) : M (gmap string B) unit := fun m =>
  match m !! key with
  | None => (Ok tt, m)
  | Some r0 => let r := copy r0 in (Ok tt, <[key := setl (without x (getl r)) r]> m)
  end.

(** The variant that writes only when there is something to remove. *)
Definition remove_ref_if (x key : string) : M (gmap string B) unit := fun m =>
  match m !! key with
  | None => (Ok tt, m)
  | Some r0 =>
      let r := copy r0 in
      if contains (getl r) x then (Ok tt, <[key := setl (without x (getl r)) r]> m) else (Ok tt, m)
  end.

Hypothesis getl_copy : ∀ r, getl (copy r) = getl r.
Hypothesis getl_setl : ∀ l r, getl (setl l r) = l.

Implicit Types m : gmap string B.

Lemma add_ref_graph err x key m : getl <$> (add_ref err x key m).2 = add_edge x key (getl <$> m).
Proof.
  unfold add_ref, add_edge. apply map_eq. intros i. destruct (m !! key) as [r|] eqn:Hk; simpl.
  - destruct (decide (i = key)) as [->|Hne].
    + rewrite lookup_alter_eq, !lookup_fmap, Hk. simpl. unfold push. rewrite getl_copy.
      destruct (contains (getl r) x); simpl; [by rewrite Hk|]. rewrite lookup_insert_eq. simpl. by rewrite getl_setl.
    + rewrite lookup_alter_ne by done. rewrite !lookup_fmap.
      destruct (negb _); simpl; [by rewrite lookup_insert_ne|done].
  - destruct (decide (i = key)) as [->|Hne]; [|by rewrite lookup_alter_ne].
    by rewrite lookup_alter_eq, !lookup_fmap, Hk.
Qed.

Lemma remove_ref_graph x key m : getl <$> (remove_ref x key m).2 = remove_edge x key (getl <$> m).
Proof.
  unfold remove_ref, remove_edge. apply map_eq. intros i. destruct (m !! key) as [r|] eqn:Hk; simpl.
  - destruct (decide (i = key)) as [->|Hne].
    + rewrite lookup_alter_eq, !lookup_fmap, Hk, lookup_insert_eq. simpl. by rewrite getl_setl, getl_copy.
    + rewrite lookup_alter_ne by done. by rewrite !lookup_fmap, lookup_insert_ne.
  - destruct (decide (i = key)) as [->|Hne]; [|by rewrite lookup_alter_ne].
    by rewrite lookup_alter_eq, !lookup_fmap, Hk.
Qed.

Lemma remove_ref_ok x key m : (remove_ref x key m).1 = Ok tt.
Proof. unfold remove_ref. by destruct (m !! key). Qed.

Lemma add_ref_ok err x key m : key ∈ dom m → (add_ref err x key m).1 = Ok tt.
Proof. intros [r Hr]%elem_of_dom. unfold add_ref. rewrite Hr. by destruct (negb _). Qed.

Lemma add_ref_err err x key m : key ∉ dom m → add_ref err x key m = (Err (err key), m).
Proof. intros Hk%not_elem_of_dom. unfold add_ref. by rewrite Hk. Qed.

Lemma dom_graph m : dom (getl <$> m) = dom m.
Proof. apply dom_fmap_L. Qed.

Lemma dom_add_ref err x key m : dom (add_ref err x key m).2 = dom m.
Proof. rewrite <-!dom_graph, add_ref_graph. apply dom_add_edge. Qed.

(** Any other attribute of the objects is untouched. *)
Definition same_but (m m' : gmap string B) : Prop :=
  ∀ C (g : B → C), (∀ r, g (copy r) = g r) → (∀ l r, g (setl l r) = g r) → g <$> m' = g <$> m.

Lemma same_but_refl m : same_but m m.
Proof. by intros C g. Qed.

Lemma same_but_trans m m' m'' : same_but m m' → same_but m' m'' → same_but m m''.
Proof. intros H1 H2 C g Hc Hs. by rewrite (H2 C g Hc Hs), (H1 C g Hc Hs). Qed.

Lemma same_but_dom m m' : same_but m m' → dom m' = dom m.
Proof.
  intros H. specialize (H unit (fun _ => tt) (fun _ => eq_refl) (fun _ _ => eq_refl)).
  apply (f_equal dom) in H. by rewrite !dom_fmap_L in H.
Qed.

Lemma same_but_insert m key r l : m !! key = Some r → same_but m (<[key := setl l (copy r)]> m).
Proof.
  intros Hk C g Hc Hs. rewrite fmap_insert, Hs, Hc. apply insert_id. by rewrite lookup_fmap, Hk.
Qed.

Lemma add_ref_same err x key m : same_but m (add_ref err x key m).2.
Proof.
  unfold add_ref. destruct (m !! key) as [r|] eqn:Hk; simpl; [|apply same_but_refl].
  destruct (negb _); simpl; [by apply same_but_insert|apply same_but_refl].
Qed.

(** What an action that removes [x] from the list of an object must do; [P] is
    an invariant of the table it may rely on. *)
Definition removes (P : gmap string B → Prop) (x : string) (rem : string → M (gmap string B) unit) : Prop :=
  ∀ key m, P m → (rem key m).1 = Ok tt ∧ same_but m (rem key m).2 ∧
    getl <$> (rem key m).2 = remove_edge x key (getl <$> m).

Lemma remove_ref_removes P x : removes P x (remove_ref x).
Proof.
  intros key m _. split_and!; [apply remove_ref_ok| |apply remove_ref_graph].
  unfold remove_ref. destruct (m !! key) as [r|] eqn:Hk; [by apply same_but_insert|apply same_but_refl].
Qed.

Lemma remove_ref_if_removes P x : removes P x (remove_ref_if x).
Proof.
  intros key m _. destruct (remove_ref_removes (fun _ => True) x key m I) as (H1 & H2 & H3).
  unfold remove_ref_if, remove_ref in *. destruct (m !! key) as [r|] eqn:Hk; [|done].
  destruct (contains (getl (copy r)) x) eqn:Hc; [done|]. simpl in *.
  split_and!; [done|apply same_but_refl|]. rewrite <-H3. rewrite fmap_insert, getl_setl.
  symmetry. apply insert_id. rewrite lookup_fmap, Hk. simpl. f_equal.
  apply contains_false in Hc. by rewrite without_notin, getl_copy.
Qed.

Section loops.
Variables (P : gmap string B → Prop) (x : string) (rem : string → M (gmap string B) unit).
Hypothesis P_same : ∀ m m', same_but m m' → P m → P m'.
Hypothesis rem_spec : removes P x rem.

(** The table after the references of [x] at the keys [ks] were removed, and
    after they were all added. *)
Definition removed (ks : list string) (m m' : gmap string B) : Prop :=
  same_but m m' ∧ getl <$> m' = remove_edges x ks (getl <$> m).
Definition added (ks : list string) (m m' : gmap string B) : Prop :=
  same_but m m' ∧ (∀ k, k ∈ ks → k ∈ dom m) ∧ getl <$> m' = add_edges x ks (getl <$> m).

Lemma for_each_remove ks : ∀ m, P m →
  (for_each rem ks m).1 = Ok tt ∧ removed ks m (for_each rem ks m).2.
Proof.
  induction ks as [|k ks IH]; intros m Hm; [split; [done|by split]|]. simpl. unfold mbind, M_bind.
  destruct (rem_spec k m Hm) as (H1 & H2 & H3). destruct (rem k m) as [r m'].
  simpl in *. subst r. destruct (IH m') as (H4 & H5 & H6); [by eapply P_same|].
  split; [done|]. split; [by eapply same_but_trans|]. by rewrite H6, H3.
Qed.

Lemma for_each_add err ks : ∀ m,
  (for_each (fun k => ignore (add_ref err x k)) ks m).1 = Ok tt ∧
  same_but m (for_each (fun k => ignore (add_ref err x k)) ks m).2 ∧
  getl <$> (for_each (fun k => ignore (add_ref err x k)) ks m).2 = add_edges x ks (getl <$> m).
Proof.
  unfold ignore. induction ks as [|k ks IH]; intros m; [by split_and!|]. simpl. unfold mbind, M_bind.
  destruct (IH (add_ref err x k m).2) as (H1 & H2 & H3).
  pose proof (add_ref_same err x k m) as Hs. pose proof (add_ref_graph err x k m) as Hg.
  destruct (add_ref err x k m) as [r m']. simpl in *. split_and!; [done|by eapply same_but_trans|].
  by rewrite H3, Hg.
Qed.

(** The keys of a prefix of the list were found, the next one was not. *)
Definition stops_at (m : gmap string B) (todo pre : list string) : Prop :=
  ∃ k post, todo = pre ++ k :: post ∧ (∀ b, b ∈ pre → b ∈ dom m) ∧ k ∉ dom m.

Lemma stops_at_found m todo pre : stops_at m todo pre → ∀ b, b ∈ pre → b ∈ dom m.
Proof. intros (k & post & _ & H & _). exact H. Qed.

Lemma map_or_undo_spec err todo : ∀ mapped m, P m →
  let p := map_or_undo (add_ref err x) rem mapped todo m in
  (p.1 = Ok tt ∧ added todo m p.2) ∨
  (∃ e pre, p.1 = Err e ∧ stops_at m todo pre ∧ same_but m p.2 ∧
     getl <$> p.2 = remove_edges x (mapped ++ pre) (add_edges x pre (getl <$> m))).
Proof.
  induction todo as [|k todo IH]; intros mapped m Hm; simpl.
  { left. split; [done|]. split_and!; [apply same_but_refl|set_solver|done]. }
  unfold try_catch. destruct (decide (k ∈ dom m)) as [Hk|Hk].
  - pose proof (add_ref_ok err x k m Hk) as Hok. pose proof (add_ref_graph err x k m) as Hg.
    pose proof (dom_add_ref err x k m) as Hd. pose proof (add_ref_same err x k m) as Hs.
    destruct (add_ref err x k m) as [r m']. simpl in *. subst r.
    destruct (IH (mapped ++ [k]) m') as [(Hp & Hsb & Ht & Hg')|(e & pre & Hp & Hst & Hsb & Hg')].
    { by eapply P_same. }
    + left. split; [done|]. split_and!; [by eapply same_but_trans| |by rewrite Hg', Hg].
      rewrite Hd in Ht. set_solver.
    + right. exists e, (k :: pre). split_and!; [done| |by eapply same_but_trans|].
      * destruct Hst as (k' & post & -> & Hpre & Hk'). rewrite Hd in *. exists k', post. split_and!; set_solver.
      * rewrite Hg', <-app_assoc, Hg. done.
  - rewrite add_ref_err by done. right. exists (err k), [].
    unfold mbind, M_bind, fail. destruct (for_each_remove mapped m Hm) as (Hok & Hsb & Hg).
    destruct (for_each rem mapped m) as [r m']. simpl in *. subst r. split_and!; [done| |done|].
    + exists k, todo. split_and!; [done|set_solver|done].
    + by rewrite app_nil_r.
Qed.

Lemma map_or_restore_spec err old todo : ∀ m,
  let p := map_or_restore (add_ref err x) old todo m in
  (p.1 = Ok tt ∧ added todo m p.2) ∨
  (∃ e pre, p.1 = Err e ∧ stops_at m todo pre ∧ same_but m p.2 ∧
     getl <$> p.2 = add_edges x old (add_edges x pre (getl <$> m))).
Proof using getl_copy getl_setl.
  clear rem_spec P_same rem P.
  induction todo as [|k todo IH]; intros m; simpl.
  { left. split; [done|]. split_and!; [apply same_but_refl|set_solver|done]. }
  unfold try_catch. destruct (decide (k ∈ dom m)) as [Hk|Hk].
  - pose proof (add_ref_ok err x k m Hk) as Hok. pose proof (add_ref_graph err x k m) as Hg.
    pose proof (dom_add_ref err x k m) as Hd. pose proof (add_ref_same err x k m) as Hs.
    destruct (add_ref err x k m) as [r m']. simpl in *. subst r.
    destruct (IH m') as [(Hp & Hsb & Ht & Hg')|(e & pre & Hp & Hst & Hsb & Hg')].
    + left. split; [done|]. split_and!; [by eapply same_but_trans| |by rewrite Hg', Hg].
      rewrite Hd in Ht. set_solver.
    + right. exists e, (k :: pre). split_and!; [done| |by eapply same_but_trans|].
      * destruct Hst as (k' & post & -> & Hpre & Hk'). rewrite Hd in *. exists k', post. split_and!; set_solver.
      * by rewrite Hg', Hg.
  - rewrite add_ref_err by done. right. exists (err k), [].
    unfold mbind, M_bind, fail. destruct (for_each_add err old m) as (Hok & Hsb & Hg).
    destruct (for_each _ old m) as [r m']. simpl in *. subst r. split_and!; [done| |done|done].
    exists k, todo. split_and!; [done|set_solver|done].
Qed.
End loops.

(** A loop whose steps keep everything but what [setl] sets. *)
Lemma for_each_same (P : gmap string B → Prop) (st : string → M (gmap string B) unit) ks :
  (∀ m m', same_but m m' → P m → P m') →
  (∀ key m, P m → (st key m).1 = Ok tt ∧ same_but m (st key m).2) →
  ∀ m, P m → (for_each st ks m).1 = Ok tt ∧ same_but m (for_each st ks m).2.
Proof.
  intros HP Hst. induction ks as [|k ks IH]; intros m Hm; [by split; [|apply same_but_refl]|].
  simpl. unfold mbind, M_bind. destruct (Hst k m Hm) as (H1 & H2). destruct (st k m) as [r m'].
  simpl in *. subst r. destruct (IH m') as (H3 & H4); [by eapply HP|].
  split; [done|]. by eapply same_but_trans.
Qed.

End backref.
