(* ===== verification/Tables.v ===== *)
(** A table of the in-memory store: a map from key to object and the sorted
    list of its keys, kept side by side.

    The name list of a table, its identifiers, and the paging loop that the
    list handlers share.  A [range] over a Go map visits the keys in an
    unspecified order; where the model ranges over [map_to_list] the lemmas
    show that the result does not depend on it. *)
From S2P Require Import Prelude.

(** * The list of names *)

(** [for k := range m { names = append(names, k) }; sort.Strings(names)] *)
Definition keys_of {B} (m : gmap string B) : list string := (map_to_list m).*1.
Definition rebuild_names {B} (m : gmap string B) : list string := sort_strings (keys_of m).
(** [names = append(names, k); sort.Strings(names)] *)
Definition append_name (k : string) (names : list string) : list string := sort_strings (names ++ [k]).

Definition names_ok {B} (names : list string) (m : gmap string B) : Prop :=
  names = sort_strings (elements (dom m)).

Lemma keys_of_dom {B} (m : gmap string B) : keys_of m ≡ₚ elements (dom m).
Proof.
  apply NoDup_Permutation.
  - apply NoDup_fst_map_to_list.
  - apply NoDup_elements.
  - intros k. rewrite elem_of_elements, elem_of_dom. unfold keys_of. rewrite list_elem_of_fmap. split.
    + intros ([k' v] & -> & Hin). apply elem_of_map_to_list in Hin. by exists v.
    + intros [v Hv]. exists (k, v). by rewrite elem_of_map_to_list.
Qed.

(** Whatever the order of the [range], the sorted list is the same. *)
Lemma rebuild_names_any_order {B} (m : gmap string B) order :
  order ≡ₚ keys_of m → sort_strings order = rebuild_names m.
Proof. apply sort_strings_perm_eq. Qed.

Lemma names_ok_rebuild {B} (m : gmap string B) : names_ok (rebuild_names m) m.
Proof. apply sort_strings_perm_eq, keys_of_dom. Qed.

Lemma names_ok_empty {B} : names_ok [] (∅ : gmap string B).
Proof. unfold names_ok. by rewrite dom_empty_L, elements_empty. Qed.

Lemma names_ok_append {B} names (m : gmap string B) k v : names_ok names m → k ∉ dom m →
  names_ok (append_name k names) (<[k:=v]> m).
Proof.
  unfold names_ok, append_name. intros -> Hk. apply sort_strings_perm_eq.
  rewrite sort_strings_perm, dom_insert_L, elements_disj_union by set_solver.
  rewrite elements_singleton. by rewrite Permutation_app_comm.
Qed.

Lemma names_ok_dom {B C} names (m : gmap string B) (m' : gmap string C) :
  dom m' = dom m → names_ok names m → names_ok names m'.
Proof. unfold names_ok. by intros ->. Qed.

Lemma names_ok_insert_same {B} names (m : gmap string B) k v :
  k ∈ dom m → names_ok names m → names_ok names (<[k:=v]> m).
Proof. intros Hk. apply names_ok_dom. rewrite dom_insert_L. set_solver. Qed.

Lemma names_ok_elem {B} names (m : gmap string B) k : names_ok names m → k ∈ names ↔ k ∈ dom m.
Proof. intros ->. by rewrite elem_of_sort_strings, elem_of_elements. Qed.

Lemma names_ok_sorted {B} names (m : gmap string B) : names_ok names m →
  StronglySorted String.le names ∧ NoDup names.
Proof.
  intros ->. split; [apply sort_strings_sorted|]. rewrite sort_strings_perm. apply NoDup_elements.
Qed.

Lemma names_ok_length {B} names (m : gmap string B) : names_ok names m → length names = size m.
Proof.
  intros ->. rewrite (Permutation_length (sort_strings_perm _)).
  by rewrite <-size_dom.
Qed.

(** * The key of an object *)

(** [names] is the table with every object replaced by its name field. *)
Definition keyed (names : gmap string string) : Prop := ∀ k n, names !! k = Some n → n = k.

Lemma keyed_insert names k : keyed names → keyed (<[k:=k]> names).
Proof. intros H k' n. destruct (decide (k' = k)) as [->|]; [rewrite lookup_insert_eq|rewrite lookup_insert_ne by done]; naive_solver. Qed.
Lemma keyed_delete names k : keyed names → keyed (delete k names).
Proof. intros H k' n [_ Hn]%lookup_delete_Some. by apply H. Qed.
Lemma keyed_empty : keyed ∅.
Proof. intros k n. by rewrite lookup_empty. Qed.

(** * Identifiers *)

(** [nextID := int64(1); for _, v := range m { if v.ID >= nextID { nextID =
    v.ID + 1 } }], on the identifiers in the order of the [range]. *)
Definition next_id (ids : list Z) : Z :=
  foldl (fun nextID id => if (nextID <=? id)%Z then add64 id 1 else nextID) 1%Z ids.

Lemma next_id_fold ids : Forall (fun id => id < MaxInt64)%Z ids → ∀ n, (1 <= n)%Z →
  let r := foldl (fun nextID id => if (nextID <=? id)%Z then add64 id 1 else nextID) n ids in
  (n <= r)%Z ∧ Forall (fun id => id < r)%Z ids ∧ (r = n ∨ (r - 1)%Z ∈ ids).
Proof.
  induction 1 as [|id ids Hid _ IH]; intros n Hn; simpl.
  { split_and!; [lia|done|by left]. }
  unfold MaxInt64 in Hid.
  destruct (Z.leb_spec n id).
  - assert (add64 id 1 = id + 1)%Z as -> by (apply wrap64_id; unfold in_int64, MinInt64, MaxInt64; lia).
    destruct (IH (id + 1)%Z) as (H1 & H2 & H3); [lia|]. split_and!.
    + lia.
    + constructor; [lia|done].
    + right. rewrite elem_of_cons. destruct H3 as [->|]; [left; lia|by right].
  - destruct (IH n Hn) as (H1 & H2 & H3). split_and!; [lia|constructor; [lia|done]|].
    rewrite elem_of_cons. tauto.
Qed.

(** The next identifier is positive, larger than all, and the least such; so it
    does not depend on the order of the [range]. *)
Lemma next_id_spec ids : Forall (fun id => id < MaxInt64)%Z ids →
  (1 <= next_id ids)%Z ∧ next_id ids ∉ ids ∧ Forall (fun id => id < next_id ids)%Z ids.
Proof.
  intros H. destruct (next_id_fold ids H 1%Z) as (H1 & H2 & _); [lia|]. fold (next_id ids) in *.
  split_and!; [done| |done]. intros Hin. rewrite Forall_forall in H2. specialize (H2 _ Hin). lia.
Qed.

Lemma next_id_perm ids ids' : Forall (fun id => id < MaxInt64)%Z ids → ids ≡ₚ ids' → next_id ids = next_id ids'.
Proof.
  intros H Hp. assert (Forall (fun id => id < MaxInt64)%Z ids') as H' by (by rewrite <-Hp).
  destruct (next_id_fold ids H 1%Z) as (A1 & A2 & A3); [lia|].
  destruct (next_id_fold ids' H' 1%Z) as (B1 & B2 & B3); [lia|].
  fold (next_id ids) in *. fold (next_id ids') in *.
  rewrite Forall_forall in A2, B2.
  assert (∀ id, id ∈ ids → (id < next_id ids')%Z) as B2' by (intros id; rewrite Hp; apply B2).
  assert (∀ id, id ∈ ids' → (id < next_id ids)%Z) as A2' by (intros id; rewrite <-Hp; apply A2).
  destruct A3 as [A3|A3]; [destruct B3 as [B3|B3]; [congruence|]|destruct B3 as [B3|B3]].
  - specialize (A2' _ B3). lia.
  - specialize (B2' _ A3). lia.
  - specialize (A2' _ B3). specialize (B2' _ A3). lia.
Qed.

(** * Paging *)

Section paging.
Context {A : Type}.
(** [skip]: left out before it is counted; [load]: read, copied and rendered,
    [None] when a later test drops it. *)
Variables (skip : string → bool) (load : string → option A).

(** [for name in names { if skip(name) { continue }; itNum++; if itNum <=
    offset { continue }; x := load(name); if !ok { continue }; l = append(l, x);
    if len(l) >= limit { break } }] *)
Fixpoint page_loop (limit offset itNum : Z) (acc : list A) (names : list string) : list A :=
  match names with
  | [] => acc
  | name :: names' =>
      if skip name then page_loop limit offset itNum acc names'
      else
        let itNum := (itNum + 1)%Z in
        if (itNum <=? offset)%Z then page_loop limit offset itNum acc names'
        else match load name with
             | None => page_loop limit offset itNum acc names'
             | Some x =>
                 let acc := acc ++ [x] in
                 if (limit <=? Z.of_nat (length acc))%Z then acc
                 else page_loop limit offset itNum acc names'
             end
  end.

(** the two loops: ascending over the names, or descending from the last *)
Definition page (asc : bool) (limit offset : Z) (names : list string) : list A :=
  page_loop limit offset 0 [] (if asc then names else reverse names).

Definition kept (names : list string) : list string := List.filter (fun n => negb (skip n)) names.

Lemma page_loop_spec limit offset names : ∀ itNum acc,
  (0 <= itNum)%Z → (Z.of_nat (length acc) < limit)%Z →
  page_loop limit offset itNum acc names =
  acc ++ take (Z.to_nat limit - length acc) (omap load (drop (Z.to_nat (offset - itNum)) (kept names))).
Proof.
  induction names as [|n names IH]; intros itNum acc Hit Hacc; simpl.
  { rewrite drop_nil. simpl. by rewrite take_nil, app_nil_r. }
  unfold kept. simpl. fold (kept names). destruct (skip n); simpl; [by apply IH|].
  destruct (Z.leb_spec (itNum + 1) offset).
  - rewrite IH by lia. replace (Z.to_nat (offset - itNum)) with (S (Z.to_nat (offset - (itNum + 1)))) by lia. done.
  - replace (Z.to_nat (offset - itNum)) with 0 by lia.
    assert (Z.to_nat (offset - (itNum + 1)) = 0) as Hz by lia. simpl.
    destruct (load n) as [x|]; [|by rewrite IH, Hz by lia].
    rewrite length_app. simpl length.
    replace (Z.to_nat limit - length acc) with (S (Z.to_nat limit - (length acc + 1))) by lia. simpl.
    destruct (Z.leb_spec limit (Z.of_nat (length acc + 1))).
    + replace (Z.to_nat limit - (length acc + 1)) with 0 by lia. by rewrite take_0.
    + rewrite IH, Hz by (rewrite ?length_app; simpl; lia). rewrite length_app, <-app_assoc. done.
Qed.

(** A page is the requested slice of what is left, in the requested order. *)
Lemma page_spec asc limit offset names : (0 < limit)%Z →
  page asc limit offset names =
  take (Z.to_nat limit) (omap load (drop (Z.to_nat offset) (kept (if asc then names else reverse names)))).
Proof.
  intros H. unfold page. rewrite page_loop_spec by (simpl; lia). simpl.
  by rewrite Nat.sub_0_r, Z.sub_0_r.
Qed.

End paging.

Lemma kept_all names : kept (fun _ => false) names = names.
Proof. unfold kept. induction names as [|n names IH]; [done|]. simpl in *. by f_equal. Qed.
