(* ===== verification/MemoryCore.v ===== *)
(** The state of the in-memory data provider (internal/dataprovider/memory.go):
    the handle, its lookups and the helpers that maintain the mappings between
    its tables.

    The mutex is held for the whole of every method, so a method is a state
    transformer on the handle; the update time stamps of scheduler.go, which the
    methods set, are two more fields.  Methods that take a pointer return the
    object they leave behind it.  [util.GetTimeAsMsSinceEpoch(time.Now())] is an
    argument [now], the [i]-th reading of the clock in the call. *)
From S2P Require Import Prelude FsConfig Entities Links Tables.
Open Scope Z_scope.

Module DB.
(* source: internal/dataprovider/memory.go memoryProviderHandle *)
Record t := mk {
  isClosed : bool;
  usernames : list string;
  users : gmap string User.t;
  groupnames : list string;
  groups : gmap string Group.t;
  vfolders : gmap string BaseVirtualFolder.t;
  vfoldersNames : list string;
  admins : gmap string Admin.t;
  adminsUsernames : list string;
  apiKeys : gmap string APIKey.t;
  apiKeysIDs : list string;
  shares : gmap string Share.t;
  sharesIDs : list string;
  actions : gmap string BaseEventAction.t;
  actionsNames : list string;
  rules : gmap string EventRule.t;
  rulesNames : list string;
  roles : gmap string Role.t;
  roleNames : list string;
  ipListEntries : gmap string IPListEntry.t;
  ipListEntriesKeys : list string;
  configs : Configs.t;
  lastUserUpdate : Z;
  lastRuleUpdate : Z;
}.
#[global] Instance eta : Settable t := {| settable := fun x =>
  mk (isClosed x) (usernames x) (users x) (groupnames x) (groups x) (vfolders x) (vfoldersNames x)
     (admins x) (adminsUsernames x) (apiKeys x) (apiKeysIDs x) (shares x) (sharesIDs x) (actions x)
     (actionsNames x) (rules x) (rulesNames x) (roles x) (roleNames x) (ipListEntries x)
     (ipListEntriesKeys x) (configs x) (lastUserUpdate x) (lastRuleUpdate x) |}.
(* source: internal/dataprovider/memory.go initializeMemoryProvider *)
Definition init : t :=
  mk false [] ∅ [] ∅ ∅ [] ∅ [] ∅ [] ∅ [] ∅ [] ∅ [] ∅ [] ∅ [] Configs.zero 0 0.
End DB.

Notation prov := (M DB.t).

(** A lookup or a validation: it reads the handle. *)
Definition ask {A} (r : DB.t → res A) : prov A := fun h => (r h, h).

(** [if p.dbHandle.isClosed { return errMemoryProviderClosed }] *)
Definition locked {A} (m : prov A) : prov A := fun h =>
  if DB.isClosed h then (Err ErrMemoryProviderClosed, h) else m h.

(** An action on one table. *)
Definition on {T A} (f : DB.t → T) `{!Setter f} (m : M T A) : prov A := fun h =>
  let '(r, v) := m (f h) in (r, setter f (fun _ => v) h).

(** [p.dbHandle.f = g(p.dbHandle.f)] *)
Definition upd {T} (f : DB.t → T) `{!Setter f} (g : T → T) : prov unit := modify (setter f g).

(** * Lookups *)

Definition existsIn {B} (what : string) (copy : B → B) (m : gmap string B) (key : string) : res B :=
  match m !! key with Some val => Ok (copy val) | None => Err (RecordNotFoundError what key) end.

(* source: internal/dataprovider/memory.go userExistsInternal *)
Definition userExistsInternal (username : string) (h : DB.t) : res User.t :=
  existsIn "username" user_getACopy (DB.users h) username.

(* source: internal/dataprovider/memory.go groupExistsInternal *)
Definition groupExistsInternal (name : string) (h : DB.t) : res Group.t :=
  existsIn "group" group_getACopy (DB.groups h) name.

(* source: internal/dataprovider/memory.go actionExistsInternal *)
Definition actionExistsInternal (name : string) (h : DB.t) : res BaseEventAction.t :=
  existsIn "event action" action_getACopy (DB.actions h) name.

(* source: internal/dataprovider/memory.go ruleExistsInternal *)
Definition ruleExistsInternal (name : string) (h : DB.t) : res EventRule.t :=
  existsIn "event rule" rule_getACopy (DB.rules h) name.

(* source: internal/dataprovider/memory.go roleExistsInternal *)
Definition roleExistsInternal (name : string) (h : DB.t) : res Role.t :=
  existsIn "role" role_getACopy (DB.roles h) name.

(* source: internal/dataprovider/memory.go adminExistsInternal *)
Definition adminExistsInternal (username : string) (h : DB.t) : res Admin.t :=
  existsIn "admin" admin_getACopy (DB.admins h) username.

(** A folder is returned as it is stored. *)
(* source: internal/dataprovider/memory.go folderExistsInternal *)
Definition folderExistsInternal (name : string) (h : DB.t) : res BaseVirtualFolder.t :=
  existsIn "folder" (fun f => f) (DB.vfolders h) name.

(* source: internal/dataprovider/memory.go apiKeyExistsInternal *)
Definition apiKeyExistsInternal (keyID : string) (h : DB.t) : res APIKey.t :=
  existsIn "API key" apikey_getACopy (DB.apiKeys h) keyID.

(* source: internal/dataprovider/memory.go shareExistsInternal *)
Definition shareExistsInternal (shareID username : string) (h : DB.t) : res Share.t :=
  match DB.shares h !! shareID with
  | Some val =>
      if negb (username =s "") && negb (Share.Username val =s username)
      then Err (RecordNotFoundError "Share" shareID)
      else Ok (share_getACopy val)
  | None => Err (RecordNotFoundError "Share" shareID)
  end.

(* source: internal/dataprovider/memory.go ipListEntryExistsInternal *)
Definition ipListEntryExistsInternal (entry : IPListEntry.t) (h : DB.t) : res IPListEntry.t :=
  match DB.ipListEntries h !! ipentry_getKey entry with
  | Some val => Ok (ipentry_getACopy val)
  | None => Err (RecordNotFoundError "IP list entry" (ipentry_getName entry))
  end.

(** * Identifiers *)

(** The identifiers of a table, in the order of the [range]. *)
Definition ids_of {B} (id : B → Z) (m : gmap string B) : list Z := (fun kv => id kv.2) <$> map_to_list m.

(* source: internal/dataprovider/memory.go getNextID *)
Definition getNextID (h : DB.t) : Z := next_id (ids_of User.ID (DB.users h)).
(* source: internal/dataprovider/memory.go getNextFolderID *)
Definition getNextFolderID (h : DB.t) : Z := next_id (ids_of BaseVirtualFolder.ID (DB.vfolders h)).
(* source: internal/dataprovider/memory.go getNextAdminID *)
Definition getNextAdminID (h : DB.t) : Z := next_id (ids_of Admin.ID (DB.admins h)).
(* source: internal/dataprovider/memory.go getNextGroupID *)
Definition getNextGroupID (h : DB.t) : Z := next_id (ids_of Group.ID (DB.groups h)).
(* source: internal/dataprovider/memory.go getNextActionID *)
Definition getNextActionID (h : DB.t) : Z := next_id (ids_of BaseEventAction.ID (DB.actions h)).
(* source: internal/dataprovider/memory.go getNextRuleID *)
Definition getNextRuleID (h : DB.t) : Z := next_id (ids_of EventRule.ID (DB.rules h)).
(* source: internal/dataprovider/memory.go getNextRoleID *)
Definition getNextRoleID (h : DB.t) : Z := next_id (ids_of Role.ID (DB.roles h)).

(** * Mappings *)

Definition set_role_users (l : list string) (r : Role.t) : Role.t := r <| Role.Users := l |>.
Definition set_role_admins (l : list string) (r : Role.t) : Role.t := r <| Role.Admins := l |>.
Definition set_group_users (l : list string) (g : Group.t) : Group.t := g <| Group.Users := l |>.
Definition set_group_admins (l : list string) (g : Group.t) : Group.t := g <| Group.Admins := l |>.
Definition set_folder_users (l : list string) (f : BaseVirtualFolder.t) : BaseVirtualFolder.t :=
  f <| BaseVirtualFolder.Users := l |>.
Definition set_folder_groups (l : list string) (f : BaseVirtualFolder.t) : BaseVirtualFolder.t :=
  f <| BaseVirtualFolder.Groups := l |>.
Definition set_action_rules (l : list string) (a : BaseEventAction.t) : BaseEventAction.t :=
  a <| BaseEventAction.Rules := l |>.

(* source: internal/dataprovider/memory.go addUserToRole *)
Definition addUserToRole (username role : string) : prov unit :=
  if role =s "" then mret tt
  else on DB.roles (add_ref role_getACopy Role.Users set_role_users (ErrForeignKeyViolated "role") username role).

(* source: internal/dataprovider/memory.go removeUserFromRole *)
Definition removeUserFromRole (username role : string) : prov unit :=
  if role =s "" then mret tt
  else on DB.roles (remove_ref role_getACopy Role.Users set_role_users username role).

(* source: internal/dataprovider/memory.go addAdminToRole *)
Definition addAdminToRole (username role : string) : prov unit :=
  if role =s "" then mret tt
  else on DB.roles (add_ref role_getACopy Role.Admins set_role_admins (ErrForeignKeyViolated "role") username role).

(* source: internal/dataprovider/memory.go removeAdminFromRole *)
Definition removeAdminFromRole (username role : string) : prov unit :=
  if role =s "" then mret tt
  else on DB.roles (remove_ref role_getACopy Role.Admins set_role_admins username role).

(* source: internal/dataprovider/memory.go addUserToGroupMapping *)
Definition addUserToGroupMapping (username groupname : string) : prov unit :=
  on DB.groups (add_ref group_getACopy Group.Users set_group_users (RecordNotFoundError "group") username groupname).

(* source: internal/dataprovider/memory.go removeUserFromGroupMapping *)
Definition removeUserFromGroupMapping (username groupname : string) : prov unit :=
  on DB.groups (remove_ref group_getACopy Group.Users set_group_users username groupname).

(* source: internal/dataprovider/memory.go addAdminToGroupMapping *)
Definition addAdminToGroupMapping (username groupname : string) : prov unit :=
  on DB.groups (add_ref group_getACopy Group.Admins set_group_admins (RecordNotFoundError "group") username groupname).

(* source: internal/dataprovider/memory.go removeAdminFromGroupMapping *)
Definition removeAdminFromGroupMapping (username groupname : string) : prov unit :=
  on DB.groups (remove_ref group_getACopy Group.Admins set_group_admins username groupname).

(* source: internal/dataprovider/memory.go removeGroupFromAdminMapping *)
Definition removeGroupFromAdminMapping (groupname username : string) : prov unit := fun h =>
  match adminExistsInternal username h with
  | Err _ => (Ok tt, h)
  | Ok admin =>
      let newGroups := List.filter (fun g => negb (AdminGroupMapping.Name g =s groupname)) (Admin.Groups admin) in
      let admin := admin <| Admin.Groups := newGroups |> in
      (Ok tt, h <| DB.admins ::= <[Admin.Username admin := admin]> |>)
  end.

(* source: internal/dataprovider/memory.go addUserToFolderMapping *)
Definition addUserToFolderMapping (username foldername : string) : prov unit :=
  on DB.vfolders (add_ref (fun f => f) BaseVirtualFolder.Users set_folder_users
                    (fun _ => GenericError "unable to get folder") username foldername).

(* source: internal/dataprovider/memory.go addGroupToFolderMapping *)
Definition addGroupToFolderMapping (name foldername : string) : prov unit :=
  on DB.vfolders (add_ref (fun f => f) BaseVirtualFolder.Groups set_folder_groups
                    (fun _ => GenericError "unable to get folder") name foldername).

(* source: internal/dataprovider/memory.go removeRelationFromFolderMapping *)
Definition remove_relation (username groupname folderName : string) : M (gmap string BaseVirtualFolder.t) unit := fun m =>
  match existsIn "folder" (fun f => f) m folderName with
  | Err _ => (Ok tt, m)
  | Ok folder =>
      let folder :=
        if negb (username =s "") then set_folder_users (without username (BaseVirtualFolder.Users folder)) folder
        else folder in
      let folder :=
        if negb (groupname =s "") then set_folder_groups (without groupname (BaseVirtualFolder.Groups folder)) folder
        else folder in
      (Ok tt, <[BaseVirtualFolder.Name folder := folder]> m)
  end.
Definition removeRelationFromFolderMapping (folderName username groupname : string) : prov unit :=
  on DB.vfolders (remove_relation username groupname folderName).

(* source: internal/dataprovider/memory.go addRuleToActionMapping *)
Definition addRuleToActionMapping (ruleName actionName : string) : prov unit :=
  on DB.actions (add_ref action_getACopy BaseEventAction.Rules set_action_rules
                   (fun _ => GenericError "action does not exist") ruleName actionName).

(* source: internal/dataprovider/memory.go removeRuleFromActionMapping *)
Definition removeRuleFromActionMapping (ruleName actionName : string) : prov unit :=
  on DB.actions (remove_ref_if action_getACopy BaseEventAction.Rules set_action_rules ruleName actionName).

(** * Joins made when an object is read *)

(* source: internal/dataprovider/memory.go addVirtualFoldersToUser *)
Definition joinVirtualFolders (h : DB.t) (folders : list VirtualFolder.t) : list VirtualFolder.t :=
  omap (fun folder =>
    match folderExistsInternal (vfolder_Name folder) h with
    | Err _ => None
    | Ok baseFolder => Some (folder <| VirtualFolder.Base := folder_GetACopy baseFolder |>)
    end) folders.

(** With no folder the loop has nothing to keep, so the guard on the length
    makes no difference. *)
Definition addVirtualFoldersToUser (h : DB.t) (user : User.t) : User.t :=
  user <| User.VirtualFolders ::= joinVirtualFolders h |>.

(* source: internal/dataprovider/memory.go addVirtualFoldersToGroup *)
Definition addVirtualFoldersToGroup (h : DB.t) (group : Group.t) : Group.t :=
  group <| Group.VirtualFolders ::= joinVirtualFolders h |>.

(* source: internal/dataprovider/memory.go addActionsToRule *)
Definition addActionsToRule (h : DB.t) (rule : EventRule.t) : EventRule.t :=
  rule <| EventRule.Actions ::= omap (fun action =>
    match actionExistsInternal (BaseEventAction.Name (EventAction.Base action)) h with
    | Err _ => None
    | Ok baseAction =>
        let baseAction := baseAction <| BaseEventAction.Options ::= options_SetEmptySecretsIfNil |> in
        Some (action <| EventAction.Base := baseAction |>)
    end) |>.

(** * Cascades *)

(* source: internal/dataprovider/memory.go updateAPIKeysOrdering *)
Definition updateAPIKeysOrdering (h : DB.t) : DB.t := h <| DB.apiKeysIDs := rebuild_names (DB.apiKeys h) |>.

(* source: internal/dataprovider/memory.go updateSharesOrdering *)
Definition updateSharesOrdering (h : DB.t) : DB.t := h <| DB.sharesIDs := rebuild_names (DB.shares h) |>.

(** [found := false; for k, v := range m { if p(v) { delete(m, k); found = true } }] *)
Definition delete_where {B} (p : B → bool) (m : gmap string B) : bool * gmap string B :=
  (existsb (fun kv => p kv.2) (map_to_list m), filter (fun kv => p kv.2 = false) m).

(* source: internal/dataprovider/memory.go deleteAPIKeysWithUser *)
Definition deleteAPIKeysWithUser (username : string) (h : DB.t) : DB.t :=
  let '(found, m) := delete_where (fun v => APIKey.User v =s username) (DB.apiKeys h) in
  let h := h <| DB.apiKeys := m |> in
  if found then updateAPIKeysOrdering h else h.

(* source: internal/dataprovider/memory.go deleteAPIKeysWithAdmin *)
Definition deleteAPIKeysWithAdmin (username : string) (h : DB.t) : DB.t :=
  let '(found, m) := delete_where (fun v => APIKey.Admin v =s username) (DB.apiKeys h) in
  let h := h <| DB.apiKeys := m |> in
  if found then updateAPIKeysOrdering h else h.

(* source: internal/dataprovider/memory.go deleteSharesWithUser *)
Definition deleteSharesWithUser (username : string) (h : DB.t) : DB.t :=
  let '(found, m) := delete_where (fun v => Share.Username v =s username) (DB.shares h) in
  let h := h <| DB.shares := m |> in
  if found then updateSharesOrdering h else h.

(* source: internal/dataprovider/scheduler.go setLastUserUpdate *)
Definition setLastUserUpdate (t : Z) : prov unit := upd DB.lastUserUpdate (fun _ => t).
(* source: internal/dataprovider/scheduler.go setLastRuleUpdate *)
Definition setLastRuleUpdate (t : Z) : prov unit := upd DB.lastRuleUpdate (fun _ => t).
