(* ===== verification/MemoryOps.v ===== *)
(** The methods of the in-memory data provider that change its state
    (internal/dataprovider/memory.go).

    The validators are an interface ([Validate]): a method validates the object
    before it takes the lock, and goes on with the object the validator leaves. *)
From S2P Require Import Prelude FsConfig Entities Links Tables MemoryCore.
Open Scope Z_scope.

(** [validate] of an object: it may read the provider (API keys and shares look
    up their owner) but does not change it. *)
Class Validate (A : Type) := validate : A → DB.t → res A.

(** What the provider needs of the validators: no empty names. *)
Class ValidNames `{!Validate User.t, !Validate Group.t} : Prop := {
  valid_username : ∀ u h u', validate u h = Ok u' → User.Username u' ≠ "";
  valid_groupname : ∀ g h g', validate g h = Ok g' → Group.Name g' ≠ "";
}.
Arguments ValidNames {_ _}.

Definition user_groupnames (u : User.t) : list string := GroupMapping.Name <$> User.Groups u.
Definition user_foldernames (u : User.t) : list string := vfolder_Name <$> User.VirtualFolders u.
Definition group_foldernames (g : Group.t) : list string := vfolder_Name <$> Group.VirtualFolders g.
Definition admin_groupnames (a : Admin.t) : list string := AdminGroupMapping.Name <$> Admin.Groups a.
Definition rule_actionnames (r : EventRule.t) : list string :=
  (fun a => BaseEventAction.Name (EventAction.Base a)) <$> EventRule.Actions r.

(** [sort.Slice] by an int: the keys are distinct in a validated rule. *)
Definition order_le (x y : EventAction.t) : Prop := EventAction.Order x <= EventAction.Order y.
#[export] Instance order_le_dec : RelDecision order_le.
Proof. intros x y. unfold order_le. apply _. Defined.
Definition sort_by_order (l : list EventAction.t) : list EventAction.t := merge_sort order_le l.

Section ops.
Context `{!Validate User.t, !Validate Group.t, !Validate Admin.t, !Validate Role.t,
  !Validate BaseVirtualFolder.t, !Validate APIKey.t, !Validate Share.t, !Validate BaseEventAction.t,
  !Validate EventRule.t, !Validate IPListEntry.t, !Validate Configs.t}.
Variable now : nat → Z.

(** [_, err := exists(key); if err == nil { return duplicated }] *)
Definition check_absent {A} (found : DB.t → res A) (e : error) : prov unit := fun h =>
  if is_ok (found h) then (Err e, h) else (Ok tt, h).

(** * Provider life cycle *)

(* source: internal/dataprovider/memory.go checkAvailability *)
Definition checkAvailability : prov unit := locked (mret tt).

(* source: internal/dataprovider/memory.go MemoryProvider.close *)
Definition close : prov unit := locked (modify (fun h => h <| DB.isClosed := true |>)).

(* source: internal/dataprovider/memory.go MemoryProvider.clear *)
Definition clear : prov unit := modify (fun h =>
  h <| DB.usernames := [] |> <| DB.users := ∅ |>
    <| DB.groupnames := [] |> <| DB.groups := ∅ |>
    <| DB.vfoldersNames := [] |> <| DB.vfolders := ∅ |>
    <| DB.admins := ∅ |> <| DB.adminsUsernames := [] |>
    <| DB.apiKeys := ∅ |> <| DB.apiKeysIDs := [] |>
    <| DB.shares := ∅ |> <| DB.sharesIDs := [] |>
    <| DB.actions := ∅ |> <| DB.actionsNames := [] |>
    <| DB.rules := ∅ |> <| DB.rulesNames := [] |>
    <| DB.roles := ∅ |> <| DB.roleNames := [] |>
    <| DB.ipListEntries := ∅ |> <| DB.ipListEntriesKeys := [] |>
    <| DB.configs := Configs.zero |>).

(** * Users *)

(** [user, err := exists(username); if err != nil { return err }; <update>;
    users[user.Username] = user] *)
Definition update_user (username : string) (f : User.t → User.t) : prov unit :=
  user ← ask (userExistsInternal username);
  let user := f user in
  upd DB.users <[User.Username user := user]>.

(* source: internal/dataprovider/memory.go setUpdatedAt *)
Definition setUpdatedAt (username : string) : prov unit :=
  ignore (locked (
    _ ← update_user username (fun user => user <| User.UpdatedAt := now 0 |>);
    setLastUserUpdate (now 1))).

(* source: internal/dataprovider/memory.go updateLastLogin *)
Definition updateLastLogin (username : string) : prov unit :=
  locked (update_user username (fun user => user <| User.LastLogin := now 0 |>)).

Definition user_add_transfer (uploadSize downloadSize : Z) (reset : bool) (user : User.t) : User.t :=
  let user :=
    if reset then
      user <| User.UsedUploadDataTransfer := uploadSize |> <| User.UsedDownloadDataTransfer := downloadSize |>
    else
      user <| User.UsedUploadDataTransfer ::= fun v => add64 v uploadSize |>
           <| User.UsedDownloadDataTransfer ::= fun v => add64 v downloadSize |> in
  user <| User.LastQuotaUpdate := now 0 |>.
Definition user_add_quota (filesAdd sizeAdd : Z) (reset : bool) (user : User.t) : User.t :=
  let user :=
    if reset then user <| User.UsedQuotaSize := sizeAdd |> <| User.UsedQuotaFiles := filesAdd |>
    else user <| User.UsedQuotaSize ::= fun v => add64 v sizeAdd |>
              <| User.UsedQuotaFiles ::= fun v => add64 v filesAdd |> in
  user <| User.LastQuotaUpdate := now 0 |>.

(* source: internal/dataprovider/memory.go updateTransferQuota *)
Definition updateTransferQuota (username : string) (uploadSize downloadSize : Z) (reset : bool) : prov unit :=
  locked (update_user username (user_add_transfer uploadSize downloadSize reset)).

(* source: internal/dataprovider/memory.go updateQuota *)
Definition updateQuota (username : string) (filesAdd sizeAdd : Z) (reset : bool) : prov unit :=
  locked (update_user username (user_add_quota filesAdd sizeAdd reset)).

(* source: internal/dataprovider/memory.go setFirstDownloadTimestamp *)
Definition setFirstDownloadTimestamp (username : string) : prov unit :=
  locked (
    user ← ask (userExistsInternal username);
    if 0 <? User.FirstDownload user then fail (GenericError "first download already set")
    else let user := user <| User.FirstDownload := now 0 |> in
         upd DB.users <[User.Username user := user]>).

(* source: internal/dataprovider/memory.go setFirstUploadTimestamp *)
Definition setFirstUploadTimestamp (username : string) : prov unit :=
  locked (
    user ← ask (userExistsInternal username);
    if 0 <? User.FirstUpload user then fail (GenericError "first upload already set")
    else let user := user <| User.FirstUpload := now 0 |> in
         upd DB.users <[User.Username user := user]>).

(* source: internal/dataprovider/memory.go updateUserPassword *)
Definition updateUserPassword (username password : string) : prov unit :=
  locked (
    user ← ask (userExistsInternal username);
    let user := user <| User.Password := password |> <| User.UpdatedAt := now 0 |> in
    upd DB.users <[username := user]>).

(** The fields [addUser] sets, and the ones [updateUser] takes from the stored
    user [u]. *)
Definition user_created (id : Z) (user : User.t) : User.t :=
  user <| User.ID := id |> <| User.LastQuotaUpdate := 0 |> <| User.UsedQuotaSize := 0 |>
    <| User.UsedQuotaFiles := 0 |> <| User.UsedUploadDataTransfer := 0 |> <| User.UsedDownloadDataTransfer := 0 |>
    <| User.LastLogin := 0 |> <| User.FirstUpload := 0 |> <| User.FirstDownload := 0 |>
    <| User.CreatedAt := now 0 |> <| User.UpdatedAt := now 1 |>.
Definition user_carry_over (u user : User.t) : User.t :=
  user <| User.LastQuotaUpdate := User.LastQuotaUpdate u |>
    <| User.UsedQuotaSize := User.UsedQuotaSize u |> <| User.UsedQuotaFiles := User.UsedQuotaFiles u |>
    <| User.UsedUploadDataTransfer := User.UsedUploadDataTransfer u |>
    <| User.UsedDownloadDataTransfer := User.UsedDownloadDataTransfer u |>
    <| User.LastLogin := User.LastLogin u |> <| User.FirstDownload := User.FirstDownload u |>
    <| User.FirstUpload := User.FirstUpload u |> <| User.CreatedAt := User.CreatedAt u |>
    <| User.UpdatedAt := now 0 |> <| User.ID := User.ID u |>.
Definition user_sort_groups (user : User.t) : User.t := user <| User.Groups ::= sort_by GroupMapping.Name |>.
Definition user_sort_folders (user : User.t) : User.t := user <| User.VirtualFolders ::= sort_by vfolder_Name |>.

(* source: internal/dataprovider/memory.go addUser *)
Definition addUser (user : User.t) : prov User.t :=
  user ← ask (validate user);
  locked (
    _ ← check_absent (userExistsInternal (User.Username user)) (ErrDuplicatedKey "username" (User.Username user));
    id ← gets getNextID;
    let user := user_created id user in
    _ ← addUserToRole (User.Username user) (User.Role user);
    let user := user_sort_groups user in
    _ ← map_or_undo (addUserToGroupMapping (User.Username user))
          (removeUserFromGroupMapping (User.Username user)) [] (user_groupnames user);
    let user := user_sort_folders user in
    _ ← map_or_undo (addUserToFolderMapping (User.Username user))
          (fun f => removeRelationFromFolderMapping f (User.Username user) "") [] (user_foldernames user);
    _ ← upd DB.users <[User.Username user := user_getACopy user]>;
    _ ← upd DB.usernames (append_name (User.Username user));
    mret user).

(** [if err := add(new); err != nil { try to add old, logging its error; return err }] *)
Definition add_or_restore (add restore : prov unit) : prov unit :=
  try_catch add mret (fun err => _ ← ignore restore; fail err).

(* source: internal/dataprovider/memory.go updateUser *)
Definition updateUser (user : User.t) : prov User.t :=
  user ← ask (validate user);
  locked (
    u ← ask (userExistsInternal (User.Username user));
    _ ← removeUserFromRole (User.Username u) (User.Role u);
    _ ← add_or_restore (addUserToRole (User.Username user) (User.Role user))
                       (addUserToRole (User.Username u) (User.Role u));
    _ ← for_each (removeUserFromGroupMapping (User.Username u)) (user_groupnames u);
    let user := user_sort_groups user in
    _ ← map_or_restore (addUserToGroupMapping (User.Username user)) (user_groupnames u) (user_groupnames user);
    _ ← for_each (fun f => removeRelationFromFolderMapping f (User.Username u) "") (user_foldernames u);
    let user := user_sort_folders user in
    _ ← map_or_restore (addUserToFolderMapping (User.Username user)) (user_foldernames u) (user_foldernames user);
    let user := user_carry_over u user in
    _ ← upd DB.users <[User.Username user := user_getACopy user]>;
    _ ← setLastUserUpdate (now 1);
    mret user).

(* source: internal/dataprovider/memory.go deleteUser *)
Definition deleteUser (user : User.t) : prov unit :=
  locked (
    u ← ask (userExistsInternal (User.Username user));
    _ ← removeUserFromRole (User.Username u) (User.Role u);
    _ ← for_each (fun f => removeRelationFromFolderMapping f (User.Username u) "") (user_foldernames u);
    _ ← for_each (removeUserFromGroupMapping (User.Username u)) (user_groupnames u);
    _ ← upd DB.users (delete (User.Username user));
    _ ← modify (fun h => h <| DB.usernames := rebuild_names (DB.users h) |>);
    _ ← modify (deleteAPIKeysWithUser (User.Username user));
    modify (deleteSharesWithUser (User.Username user))).

(** * Admins *)

(* source: internal/dataprovider/memory.go updateAdminLastLogin *)
Definition updateAdminLastLogin (username : string) : prov unit :=
  locked (
    admin ← ask (adminExistsInternal username);
    let admin := admin <| Admin.LastLogin := now 0 |> in
    upd DB.admins <[Admin.Username admin := admin]>).

Definition admin_created (id : Z) (admin : Admin.t) : Admin.t :=
  admin <| Admin.ID := id |> <| Admin.CreatedAt := now 0 |> <| Admin.UpdatedAt := now 1 |> <| Admin.LastLogin := 0 |>.
Definition admin_carry_over (a admin : Admin.t) : Admin.t :=
  admin <| Admin.ID := Admin.ID a |> <| Admin.CreatedAt := Admin.CreatedAt a |>
    <| Admin.LastLogin := Admin.LastLogin a |> <| Admin.UpdatedAt := now 0 |>.
Definition admin_sort_groups (admin : Admin.t) : Admin.t := admin <| Admin.Groups ::= sort_by AdminGroupMapping.Name |>.

(* source: internal/dataprovider/memory.go addAdmin *)
Definition addAdmin (admin : Admin.t) : prov Admin.t :=
  locked (
    admin ← ask (validate admin);
    _ ← check_absent (adminExistsInternal (Admin.Username admin)) (ErrDuplicatedKey "admin" (Admin.Username admin));
    id ← gets getNextAdminID;
    let admin := admin_created id admin in
    _ ← addAdminToRole (Admin.Username admin) (Admin.Role admin);
    let admin := admin_sort_groups admin in
    _ ← map_or_undo (addAdminToGroupMapping (Admin.Username admin))
          (removeAdminFromGroupMapping (Admin.Username admin)) [] (admin_groupnames admin);
    _ ← upd DB.admins <[Admin.Username admin := admin_getACopy admin]>;
    _ ← upd DB.adminsUsernames (append_name (Admin.Username admin));
    mret admin).

(* source: internal/dataprovider/memory.go updateAdmin *)
Definition updateAdmin (admin : Admin.t) : prov Admin.t :=
  locked (
    admin ← ask (validate admin);
    a ← ask (adminExistsInternal (Admin.Username admin));
    _ ← removeAdminFromRole (Admin.Username a) (Admin.Role a);
    _ ← add_or_restore (addAdminToRole (Admin.Username admin) (Admin.Role admin))
                       (addAdminToRole (Admin.Username a) (Admin.Role a));
    _ ← for_each (removeAdminFromGroupMapping (Admin.Username a)) (admin_groupnames a);
    let admin := admin_sort_groups admin in
    _ ← map_or_restore (addAdminToGroupMapping (Admin.Username admin)) (admin_groupnames a) (admin_groupnames admin);
    let admin := admin_carry_over a admin in
    _ ← upd DB.admins <[Admin.Username admin := admin_getACopy admin]>;
    mret admin).

(* source: internal/dataprovider/memory.go deleteAdmin *)
Definition deleteAdmin (admin : Admin.t) : prov unit :=
  locked (
    a ← ask (adminExistsInternal (Admin.Username admin));
    _ ← removeAdminFromRole (Admin.Username a) (Admin.Role a);
    _ ← for_each (removeAdminFromGroupMapping (Admin.Username a)) (admin_groupnames a);
    _ ← upd DB.admins (delete (Admin.Username admin));
    _ ← modify (fun h => h <| DB.adminsUsernames := rebuild_names (DB.admins h) |>);
    modify (deleteAPIKeysWithAdmin (Admin.Username admin))).

(** * Groups *)

Definition group_created (id : Z) (group : Group.t) : Group.t :=
  group <| Group.ID := id |> <| Group.CreatedAt := now 0 |> <| Group.UpdatedAt := now 1 |>
    <| Group.Users := [] |> <| Group.Admins := [] |>.
Definition group_carry_over (g group : Group.t) : Group.t :=
  group <| Group.CreatedAt := Group.CreatedAt g |> <| Group.UpdatedAt := now 0 |>
    <| Group.ID := Group.ID g |> <| Group.Users := Group.Users g |> <| Group.Admins := Group.Admins g |>.
Definition group_sort_folders (group : Group.t) : Group.t := group <| Group.VirtualFolders ::= sort_by vfolder_Name |>.

(* source: internal/dataprovider/memory.go addGroup *)
Definition addGroup (group : Group.t) : prov Group.t :=
  group ← ask (validate group);
  locked (
    _ ← check_absent (groupExistsInternal (Group.Name group)) (ErrDuplicatedKey "group" (Group.Name group));
    id ← gets getNextGroupID;
    let group := group_sort_folders (group_created id group) in
    _ ← map_or_undo (addGroupToFolderMapping (Group.Name group))
          (fun f => removeRelationFromFolderMapping f "" (Group.Name group)) [] (group_foldernames group);
    _ ← upd DB.groups <[Group.Name group := group_getACopy group]>;
    _ ← upd DB.groupnames (append_name (Group.Name group));
    mret group).

(* source: internal/dataprovider/memory.go updateGroup *)
Definition updateGroup (group : Group.t) : prov Group.t :=
  group ← ask (validate group);
  locked (
    g ← ask (groupExistsInternal (Group.Name group));
    _ ← for_each (fun f => removeRelationFromFolderMapping f "" (Group.Name g)) (group_foldernames g);
    let group := group_sort_folders group in
    _ ← map_or_restore (addGroupToFolderMapping (Group.Name group)) (group_foldernames g) (group_foldernames group);
    let group := group_carry_over g group in
    _ ← upd DB.groups <[Group.Name group := group_getACopy group]>;
    mret group).

(* source: internal/dataprovider/memory.go deleteGroup *)
Definition deleteGroup (group : Group.t) : prov unit :=
  locked (
    g ← ask (groupExistsInternal (Group.Name group));
    if bool_decide (0 < length (Group.Users g))%nat
    then fail (ValidationError "the group is referenced, it cannot be removed") else
    _ ← for_each (fun f => removeRelationFromFolderMapping f "" (Group.Name g)) (group_foldernames g);
    _ ← for_each (removeGroupFromAdminMapping (Group.Name g)) (Group.Admins g);
    _ ← upd DB.groups (delete (Group.Name group));
    modify (fun h => h <| DB.groupnames := rebuild_names (DB.groups h) |>)).

(** * Folders *)

Definition folder_add_quota (filesAdd sizeAdd : Z) (reset : bool) (folder : BaseVirtualFolder.t) : BaseVirtualFolder.t :=
  let folder :=
    if reset then
      folder <| BaseVirtualFolder.UsedQuotaSize := sizeAdd |> <| BaseVirtualFolder.UsedQuotaFiles := filesAdd |>
    else
      folder <| BaseVirtualFolder.UsedQuotaSize ::= fun v => add64 v sizeAdd |>
             <| BaseVirtualFolder.UsedQuotaFiles ::= fun v => add64 v filesAdd |> in
  folder <| BaseVirtualFolder.LastQuotaUpdate := now 0 |>.
Definition folder_created (id : Z) (folder : BaseVirtualFolder.t) : BaseVirtualFolder.t :=
  folder <| BaseVirtualFolder.ID := id |> <| BaseVirtualFolder.Users := [] |> <| BaseVirtualFolder.Groups := [] |>.
Definition folder_carry_over (f folder : BaseVirtualFolder.t) : BaseVirtualFolder.t :=
  folder <| BaseVirtualFolder.ID := BaseVirtualFolder.ID f |>
    <| BaseVirtualFolder.LastQuotaUpdate := BaseVirtualFolder.LastQuotaUpdate f |>
    <| BaseVirtualFolder.UsedQuotaFiles := BaseVirtualFolder.UsedQuotaFiles f |>
    <| BaseVirtualFolder.UsedQuotaSize := BaseVirtualFolder.UsedQuotaSize f |>
    <| BaseVirtualFolder.Users := BaseVirtualFolder.Users f |>
    <| BaseVirtualFolder.Groups := BaseVirtualFolder.Groups f |>.

(* source: internal/dataprovider/memory.go updateFolderQuota *)
Definition updateFolderQuota (name : string) (filesAdd sizeAdd : Z) (reset : bool) : prov unit :=
  locked (
    folder ← ask (folderExistsInternal name);
    let folder := folder_add_quota filesAdd sizeAdd reset folder in
    upd DB.vfolders <[name := folder]>).

(* source: internal/dataprovider/memory.go addFolder *)
Definition addFolder (folder : BaseVirtualFolder.t) : prov BaseVirtualFolder.t :=
  folder ← ask (validate folder);
  locked (
    _ ← check_absent (folderExistsInternal (BaseVirtualFolder.Name folder))
          (ErrDuplicatedKey "folder" (BaseVirtualFolder.Name folder));
    id ← gets getNextFolderID;
    let folder := folder_created id folder in
    _ ← upd DB.vfolders <[BaseVirtualFolder.Name folder := folder_GetACopy folder]>;
    _ ← upd DB.vfoldersNames (append_name (BaseVirtualFolder.Name folder));
    mret folder).

(** The folders of a user with the given base where the name matches. *)
Definition refresh_folder (folder : BaseVirtualFolder.t) (userFolder : VirtualFolder.t) : VirtualFolder.t :=
  if BaseVirtualFolder.Name folder =s vfolder_Name userFolder
  then userFolder <| VirtualFolder.Base := folder_GetACopy folder |> else userFolder.

(* source: internal/dataprovider/memory.go updateFolder *)
Definition updateFolder (folder : BaseVirtualFolder.t) : prov BaseVirtualFolder.t :=
  folder ← ask (validate folder);
  locked (
    f ← ask (folderExistsInternal (BaseVirtualFolder.Name folder));
    let folder := folder_carry_over f folder in
    _ ← upd DB.vfolders <[BaseVirtualFolder.Name folder := folder_GetACopy folder]>;
    _ ← for_each (fun username =>
          try_catch (ask (userExistsInternal username))
            (fun user =>
               let user := user <| User.VirtualFolders ::= fmap (refresh_folder folder) |> in
               upd DB.users <[User.Username user := user]>)
            (fun _ => mret tt)) (BaseVirtualFolder.Users folder);
    mret folder).

(** The folders other than the one with the given name. *)
Definition drop_folder (name : string) : list VirtualFolder.t → list VirtualFolder.t :=
  List.filter (fun f => negb (name =s vfolder_Name f)).

(* source: internal/dataprovider/memory.go deleteFolder *)
Definition deleteFolder (f : BaseVirtualFolder.t) : prov unit :=
  locked (
    folder ← ask (folderExistsInternal (BaseVirtualFolder.Name f));
    let name := BaseVirtualFolder.Name folder in
    _ ← for_each (fun username =>
          try_catch (ask (userExistsInternal username))
            (fun user =>
               let user := user <| User.VirtualFolders ::= drop_folder name |> in
               upd DB.users <[User.Username user := user]>)
            (fun _ => mret tt)) (BaseVirtualFolder.Users folder);
    _ ← for_each (fun groupname =>
          try_catch (ask (groupExistsInternal groupname))
            (fun group =>
               let group := group <| Group.VirtualFolders ::= drop_folder name |> in
               upd DB.groups <[Group.Name group := group]>)
            (fun _ => mret tt)) (BaseVirtualFolder.Groups folder);
    _ ← upd DB.vfolders (delete name);
    modify (fun h => h <| DB.vfoldersNames := rebuild_names (DB.vfolders h) |>)).

(** * API keys *)

(* source: internal/dataprovider/memory.go updateAPIKeyLastUse *)
Definition updateAPIKeyLastUse (keyID : string) : prov unit :=
  locked (
    apiKey ← ask (apiKeyExistsInternal keyID);
    let apiKey := apiKey <| APIKey.LastUseAt := now 0 |> in
    upd DB.apiKeys <[APIKey.KeyID apiKey := apiKey]>).

(** [if name != "" { if _, err := exists(name); err != nil { return fk } }] *)
Definition check_owner {A} (name what : string) (found : string → DB.t → res A) : prov unit := fun h =>
  if negb (name =s "") && negb (is_ok (found name h)) then (Err (ErrForeignKeyViolated what name), h)
  else (Ok tt, h).

Definition apikey_created (apiKey : APIKey.t) : APIKey.t :=
  apiKey <| APIKey.CreatedAt := now 0 |> <| APIKey.UpdatedAt := now 1 |> <| APIKey.LastUseAt := 0 |>.
Definition apikey_carry_over (k apiKey : APIKey.t) : APIKey.t :=
  apiKey <| APIKey.ID := APIKey.ID k |> <| APIKey.KeyID := APIKey.KeyID k |>
    <| APIKey.Key := APIKey.Key k |> <| APIKey.CreatedAt := APIKey.CreatedAt k |>
    <| APIKey.LastUseAt := APIKey.LastUseAt k |> <| APIKey.UpdatedAt := now 0 |>.

(* source: internal/dataprovider/memory.go addAPIKey *)
Definition addAPIKey (apiKey : APIKey.t) : prov APIKey.t :=
  apiKey ← ask (validate apiKey);
  locked (
    _ ← check_absent (apiKeyExistsInternal (APIKey.KeyID apiKey)) (PlainError "API key already exists");
    _ ← check_owner (APIKey.User apiKey) "user" userExistsInternal;
    _ ← check_owner (APIKey.Admin apiKey) "admin" adminExistsInternal;
    let apiKey := apikey_created apiKey in
    _ ← upd DB.apiKeys <[APIKey.KeyID apiKey := apikey_getACopy apiKey]>;
    _ ← upd DB.apiKeysIDs (append_name (APIKey.KeyID apiKey));
    mret apiKey).

(* source: internal/dataprovider/memory.go updateAPIKey *)
Definition updateAPIKey (apiKey : APIKey.t) : prov APIKey.t :=
  apiKey ← ask (validate apiKey);
  locked (
    k ← ask (apiKeyExistsInternal (APIKey.KeyID apiKey));
    _ ← check_owner (APIKey.User apiKey) "user" userExistsInternal;
    _ ← check_owner (APIKey.Admin apiKey) "admin" adminExistsInternal;
    let apiKey := apikey_carry_over k apiKey in
    _ ← upd DB.apiKeys <[APIKey.KeyID apiKey := apikey_getACopy apiKey]>;
    mret apiKey).

(* source: internal/dataprovider/memory.go deleteAPIKey *)
Definition deleteAPIKey (apiKey : APIKey.t) : prov unit :=
  locked (
    _ ← ask (apiKeyExistsInternal (APIKey.KeyID apiKey));
    _ ← upd DB.apiKeys (delete (APIKey.KeyID apiKey));
    modify updateAPIKeysOrdering).

(** * Shares *)

(** the defaults for a share created now or restored *)
Definition share_times (i : nat) (share : Share.t) : Share.t :=
  let share := if Share.CreatedAt share =? 0 then share <| Share.CreatedAt := now i |> else share in
  if Share.UpdatedAt share =? 0 then share <| Share.UpdatedAt := Share.CreatedAt share |> else share.

Definition share_created (share : Share.t) : Share.t :=
  if negb (Share.IsRestore share) then
    share <| Share.CreatedAt := now 0 |> <| Share.UpdatedAt := now 0 |>
          <| Share.LastUseAt := 0 |> <| Share.UsedTokens := 0 |>
  else share.
Definition share_carry_over (s share : Share.t) : Share.t :=
  let share := share <| Share.ID := Share.ID s |> <| Share.ShareID := Share.ShareID s |> in
  if negb (Share.IsRestore share) then
    share <| Share.UsedTokens := Share.UsedTokens s |> <| Share.CreatedAt := Share.CreatedAt s |>
          <| Share.LastUseAt := Share.LastUseAt s |> <| Share.UpdatedAt := now 0 |>
  else share.

Definition check_share_user (username : string) : prov unit := fun h =>
  if is_ok (userExistsInternal username h) then (Ok tt, h)
  else (Err (ValidationError "related user does not exist"), h).

(* source: internal/dataprovider/memory.go addShare *)
Definition addShare (share : Share.t) : prov Share.t :=
  share ← ask (validate share);
  locked (
    _ ← check_absent (shareExistsInternal (Share.ShareID share) (Share.Username share))
          (PlainError "share already exists");
    _ ← check_share_user (Share.Username share);
    let share := share_times 1 (share_created share) in
    _ ← upd DB.shares <[Share.ShareID share := share_getACopy share]>;
    _ ← upd DB.sharesIDs (append_name (Share.ShareID share));
    mret share).

(* source: internal/dataprovider/memory.go updateShare *)
Definition updateShare (share : Share.t) : prov Share.t :=
  share ← ask (validate share);
  locked (
    s ← ask (shareExistsInternal (Share.ShareID share) (Share.Username share));
    _ ← check_share_user (Share.Username share);
    let share := share_times 1 (share_carry_over s share) in
    _ ← upd DB.shares <[Share.ShareID share := share_getACopy share]>;
    mret share).

(* source: internal/dataprovider/memory.go deleteShare *)
Definition deleteShare (share : Share.t) : prov unit :=
  locked (
    _ ← ask (shareExistsInternal (Share.ShareID share) (Share.Username share));
    _ ← upd DB.shares (delete (Share.ShareID share));
    modify updateSharesOrdering).

(* source: internal/dataprovider/memory.go updateShareLastUse *)
Definition updateShareLastUse (shareID : string) (numTokens : Z) : prov unit :=
  locked (
    share ← ask (shareExistsInternal shareID "");
    let share := share <| Share.LastUseAt := now 0 |> <| Share.UsedTokens ::= fun v => add64 v numTokens |> in
    upd DB.shares <[Share.ShareID share := share]>).

(** * Event actions and rules *)

Definition action_created (id : Z) (action : BaseEventAction.t) : BaseEventAction.t :=
  action <| BaseEventAction.ID := id |> <| BaseEventAction.Rules := [] |>.
Definition action_carry_over (oldAction : BaseEventAction.t) (relatedRules : list string) (action : BaseEventAction.t) :=
  action <| BaseEventAction.ID := BaseEventAction.ID oldAction |>
    <| BaseEventAction.Name := BaseEventAction.Name oldAction |> <| BaseEventAction.Rules := relatedRules |>.

(* source: internal/dataprovider/memory.go addEventAction *)
Definition addEventAction (action : BaseEventAction.t) : prov BaseEventAction.t :=
  action ← ask (validate action);
  locked (
    _ ← check_absent (actionExistsInternal (BaseEventAction.Name action))
          (ErrDuplicatedKey "event action" (BaseEventAction.Name action));
    id ← gets getNextActionID;
    let action := action_created id action in
    _ ← upd DB.actions <[BaseEventAction.Name action := action_getACopy action]>;
    _ ← upd DB.actionsNames (append_name (BaseEventAction.Name action));
    mret action).

(** The loop over the rules of the old action: the ones that exist, which get a
    new update time ([now i], [now (i + 1)], ...). *)
Fixpoint touch_rules (i : nat) (ruleNames : list string) : prov (list string) :=
  match ruleNames with
  | [] => mret []
  | ruleName :: ruleNames' =>
      try_catch (ask (ruleExistsInternal ruleName))
        (fun rule =>
           let rule := rule <| EventRule.UpdatedAt := now i |> in
           _ ← upd DB.rules <[ruleName := rule]>;
           _ ← setLastRuleUpdate (now (i + 1)%nat);
           rest ← touch_rules (i + 2)%nat ruleNames';
           mret (ruleName :: rest))
        (fun _ => touch_rules i ruleNames')
  end.

(* source: internal/dataprovider/memory.go updateEventAction *)
Definition updateEventAction (action : BaseEventAction.t) : prov BaseEventAction.t :=
  action ← ask (validate action);
  locked (
    oldAction ← try_catch (ask (actionExistsInternal (BaseEventAction.Name action)))
                  mret (fun _ => fail (PlainError "event action does not exist"));
    relatedRules ← touch_rules 0 (BaseEventAction.Rules oldAction);
    let action := action_carry_over oldAction relatedRules action in
    _ ← upd DB.actions <[BaseEventAction.Name action := action_getACopy action]>;
    mret action).

(* source: internal/dataprovider/memory.go deleteEventAction *)
Definition deleteEventAction (action : BaseEventAction.t) : prov unit :=
  locked (
    oldAction ← try_catch (ask (actionExistsInternal (BaseEventAction.Name action)))
                  mret (fun _ => fail (PlainError "event action does not exist"));
    if bool_decide (0 < length (BaseEventAction.Rules oldAction))%nat
    then fail (ValidationError "action is referenced, it cannot be removed") else
    _ ← upd DB.actions (delete (BaseEventAction.Name action));
    modify (fun h => h <| DB.actionsNames := rebuild_names (DB.actions h) |>)).

Definition rule_created (id : Z) (rule : EventRule.t) : EventRule.t :=
  rule <| EventRule.ID := id |> <| EventRule.CreatedAt := now 0 |> <| EventRule.UpdatedAt := now 0 |>.
Definition rule_carry_over (oldRule rule : EventRule.t) : EventRule.t :=
  rule <| EventRule.ID := EventRule.ID oldRule |> <| EventRule.CreatedAt := EventRule.CreatedAt oldRule |>
    <| EventRule.UpdatedAt := now 0 |>.
Definition rule_sort_actions (rule : EventRule.t) : EventRule.t := rule <| EventRule.Actions ::= sort_by_order |>.

(* source: internal/dataprovider/memory.go addEventRule *)
Definition addEventRule (rule : EventRule.t) : prov EventRule.t :=
  rule ← ask (validate rule);
  locked (
    _ ← check_absent (ruleExistsInternal (EventRule.Name rule)) (ErrDuplicatedKey "event rule" (EventRule.Name rule));
    id ← gets getNextRuleID;
    let rule := rule_created id rule in
    _ ← map_or_undo (addRuleToActionMapping (EventRule.Name rule))
          (removeRuleFromActionMapping (EventRule.Name rule)) [] (rule_actionnames rule);
    let rule := rule_sort_actions rule in
    _ ← upd DB.rules <[EventRule.Name rule := rule_getACopy rule]>;
    _ ← upd DB.rulesNames (append_name (EventRule.Name rule));
    _ ← setLastRuleUpdate (now 1);
    mret rule).

(* source: internal/dataprovider/memory.go updateEventRule *)
Definition updateEventRule (rule : EventRule.t) : prov EventRule.t :=
  rule ← ask (validate rule);
  locked (
    oldRule ← ask (ruleExistsInternal (EventRule.Name rule));
    _ ← for_each (removeRuleFromActionMapping (EventRule.Name rule)) (rule_actionnames oldRule);
    _ ← map_or_restore (addRuleToActionMapping (EventRule.Name rule)) (rule_actionnames oldRule) (rule_actionnames rule);
    let rule := rule_sort_actions (rule_carry_over oldRule rule) in
    _ ← upd DB.rules <[EventRule.Name rule := rule_getACopy rule]>;
    _ ← setLastRuleUpdate (now 1);
    mret rule).

(* source: internal/dataprovider/memory.go deleteEventRule *)
Definition deleteEventRule (rule : EventRule.t) : prov unit :=
  locked (
    oldRule ← ask (ruleExistsInternal (EventRule.Name rule));
    _ ← for_each (removeRuleFromActionMapping (EventRule.Name rule)) (rule_actionnames oldRule);
    _ ← upd DB.rules (delete (EventRule.Name rule));
    _ ← modify (fun h => h <| DB.rulesNames := rebuild_names (DB.rules h) |>);
    setLastRuleUpdate (now 0)).

(** * Roles *)

Definition role_created (id : Z) (role : Role.t) : Role.t :=
  role <| Role.ID := id |> <| Role.CreatedAt := now 0 |> <| Role.UpdatedAt := now 1 |>
    <| Role.Users := [] |> <| Role.Admins := [] |>.
Definition role_carry_over (oldRole role : Role.t) : Role.t :=
  role <| Role.ID := Role.ID oldRole |> <| Role.CreatedAt := Role.CreatedAt oldRole |>
    <| Role.UpdatedAt := now 0 |> <| Role.Users := Role.Users oldRole |> <| Role.Admins := Role.Admins oldRole |>.

(* source: internal/dataprovider/memory.go addRole *)
Definition addRole (role : Role.t) : prov Role.t :=
  role ← ask (validate role);
  locked (
    _ ← check_absent (roleExistsInternal (Role.Name role)) (ErrDuplicatedKey "role" (Role.Name role));
    id ← gets getNextRoleID;
    let role := role_created id role in
    _ ← upd DB.roles <[Role.Name role := role_getACopy role]>;
    _ ← upd DB.roleNames (append_name (Role.Name role));
    mret role).

(* source: internal/dataprovider/memory.go updateRole *)
Definition updateRole (role : Role.t) : prov Role.t :=
  role ← ask (validate role);
  locked (
    oldRole ← ask (roleExistsInternal (Role.Name role));
    let role := role_carry_over oldRole role in
    _ ← upd DB.roles <[Role.Name role := role_getACopy role]>;
    mret role).

(* source: internal/dataprovider/memory.go deleteRole *)
Definition deleteRole (role : Role.t) : prov unit :=
  locked (
    oldRole ← ask (roleExistsInternal (Role.Name role));
    if bool_decide (0 < length (Role.Admins oldRole))%nat
    then fail (ValidationError "the role is referenced, it cannot be removed") else
    _ ← for_each (fun username =>
          try_catch (ask (userExistsInternal username))
            (fun user =>
               if User.Role user =s Role.Name role
               then upd DB.users <[username := user <| User.Role := "" |>]>
               else mret tt)
            (fun _ => mret tt)) (Role.Users oldRole);
    _ ← upd DB.roles (delete (Role.Name role));
    modify (fun h => h <| DB.roleNames := rebuild_names (DB.roles h) |>)).

(** * IP lists and configurations *)

(* source: internal/dataprovider/memory.go addIPListEntry *)
Definition addIPListEntry (entry : IPListEntry.t) : prov IPListEntry.t :=
  entry ← ask (validate entry);
  locked (
    _ ← check_absent (ipListEntryExistsInternal entry) (ErrDuplicatedKey "entry" (IPListEntry.IPOrNet entry));
    let entry := entry <| IPListEntry.CreatedAt := now 0 |> <| IPListEntry.UpdatedAt := now 1 |> in
    _ ← upd DB.ipListEntries <[ipentry_getKey entry := ipentry_getACopy entry]>;
    _ ← upd DB.ipListEntriesKeys (append_name (ipentry_getKey entry));
    mret entry).

(* source: internal/dataprovider/memory.go updateIPListEntry *)
Definition updateIPListEntry (entry : IPListEntry.t) : prov IPListEntry.t :=
  entry ← ask (validate entry);
  locked (
    oldEntry ← ask (ipListEntryExistsInternal entry);
    let entry := entry <| IPListEntry.CreatedAt := IPListEntry.CreatedAt oldEntry |>
      <| IPListEntry.UpdatedAt := now 0 |> in
    _ ← upd DB.ipListEntries <[ipentry_getKey entry := ipentry_getACopy entry]>;
    mret entry).

(* source: internal/dataprovider/memory.go deleteIPListEntry *)
Definition deleteIPListEntry (entry : IPListEntry.t) : prov unit :=
  entry ← ask (validate entry);
  locked (
    _ ← ask (ipListEntryExistsInternal entry);
    _ ← upd DB.ipListEntries (delete (ipentry_getKey entry));
    modify (fun h => h <| DB.ipListEntriesKeys := rebuild_names (DB.ipListEntries h) |>)).

(* source: internal/dataprovider/memory.go setConfigs *)
Definition setConfigs (configs : Configs.t) : prov unit :=
  configs ← ask (validate configs);
  locked (upd DB.configs (fun _ => configs_getACopy configs)).

End ops.
