(* ===== verification/MemoryInv.v ===== *)
(** The invariant of the in-memory data provider and its preservation.

    [wf] says that every table has its sorted name list and is keyed by the
    name of its objects, that the seven two-way mappings are the converse of
    each other, and that API keys and shares belong to existing accounts.
    Every method that succeeds preserves it, and so do the methods that fail,
    but for the four whose rollback is not complete ([exec_wf]). *)
From S2P Require Import Prelude FsConfig Entities Links Tables MemoryCore MemoryOps.
Open Scope Z_scope.

(** * The invariant *)

Definition role_list (role : string) : list string := if role =s "" then [] else [role].
Definition user_roles (u : User.t) : list string := role_list (User.Role u).
Definition admin_roles (a : Admin.t) : list string := role_list (Admin.Role a).

Definition table_ok (names : list string) (km : gmap string string) : Prop := names_ok names km ∧ keyed km.

(** every owner named in a table exists; an empty name is no owner *)
Definition owners_ok (owner : gmap string string) (accounts : gset string) : Prop :=
  ∀ k o, owner !! k = Some o → o = "" ∨ o ∈ accounts.

Record wf (h : DB.t) : Prop := mk_wf {
  wf_users : table_ok (DB.usernames h) (User.Username <$> DB.users h);
  wf_groups : table_ok (DB.groupnames h) (Group.Name <$> DB.groups h);
  wf_vfolders : table_ok (DB.vfoldersNames h) (BaseVirtualFolder.Name <$> DB.vfolders h);
  wf_admins : table_ok (DB.adminsUsernames h) (Admin.Username <$> DB.admins h);
  wf_apiKeys : table_ok (DB.apiKeysIDs h) (APIKey.KeyID <$> DB.apiKeys h);
  wf_shares : table_ok (DB.sharesIDs h) (Share.ShareID <$> DB.shares h);
  wf_actions : table_ok (DB.actionsNames h) (BaseEventAction.Name <$> DB.actions h);
  wf_rules : table_ok (DB.rulesNames h) (EventRule.Name <$> DB.rules h);
  wf_roles : table_ok (DB.roleNames h) (Role.Name <$> DB.roles h);
  wf_ipListEntries : table_ok (DB.ipListEntriesKeys h) (ipentry_getKey <$> DB.ipListEntries h);
  wf_user_role : linked (user_roles <$> DB.users h) (Role.Users <$> DB.roles h);
  wf_admin_role : linked (admin_roles <$> DB.admins h) (Role.Admins <$> DB.roles h);
  wf_user_group : linked (user_groupnames <$> DB.users h) (Group.Users <$> DB.groups h);
  wf_admin_group : linked (admin_groupnames <$> DB.admins h) (Group.Admins <$> DB.groups h);
  wf_user_folder : linked (user_foldernames <$> DB.users h) (BaseVirtualFolder.Users <$> DB.vfolders h);
  wf_group_folder : linked (group_foldernames <$> DB.groups h) (BaseVirtualFolder.Groups <$> DB.vfolders h);
  wf_rule_action : linked (rule_actionnames <$> DB.rules h) (BaseEventAction.Rules <$> DB.actions h);
  wf_key_user : owners_ok (APIKey.User <$> DB.apiKeys h) (dom (DB.users h));
  wf_key_admin : owners_ok (APIKey.Admin <$> DB.apiKeys h) (dom (DB.admins h));
  wf_share_user : owners_ok (Share.Username <$> DB.shares h) (dom (DB.users h));
  wf_no_empty_user : "" ∉ dom (DB.users h);
  wf_no_empty_group : "" ∉ dom (DB.groups h);
}.

(** * Copies keep the attributes the invariant reads *)

Lemma user_roles_copy u : user_roles (user_getACopy u) = user_roles u.
Proof. done. Qed.
Lemma user_groupnames_copy u : user_groupnames (user_getACopy u) = user_groupnames u.
Proof. unfold user_groupnames, user_getACopy. simpl. by rewrite <-list_fmap_compose. Qed.
Lemma user_foldernames_copy u : user_foldernames (user_getACopy u) = user_foldernames u.
Proof. unfold user_foldernames, user_getACopy. simpl. by rewrite <-!list_fmap_compose. Qed.
Lemma group_foldernames_copy g : group_foldernames (group_getACopy g) = group_foldernames g.
Proof. unfold group_foldernames, group_getACopy. simpl. by rewrite <-list_fmap_compose. Qed.
Lemma admin_groupnames_copy a : admin_groupnames (admin_getACopy a) = admin_groupnames a.
Proof. unfold admin_groupnames, admin_getACopy. simpl. by rewrite <-list_fmap_compose. Qed.
Lemma rule_actionnames_copy r : rule_actionnames (rule_getACopy r) = rule_actionnames r.
Proof. unfold rule_actionnames, rule_getACopy. simpl. by rewrite <-list_fmap_compose. Qed.

Create HintDb copies.
#[export] Hint Rewrite user_roles_copy user_groupnames_copy user_foldernames_copy group_foldernames_copy
  admin_groupnames_copy rule_actionnames_copy : copies.

(** Setting the dates, counters and identifiers, and sorting, keep them too. *)
Section attrs.
Implicit Types (now : nat → Z) (u v : User.t) (a b : Admin.t) (g : Group.t) (f : BaseVirtualFolder.t).
Lemma username_created now id u : User.Username (user_created now id u) = User.Username u. Proof. done. Qed.
Lemma username_carry now v u : User.Username (user_carry_over now v u) = User.Username u. Proof. done. Qed.
Lemma username_sort_groups u : User.Username (user_sort_groups u) = User.Username u. Proof. done. Qed.
Lemma username_sort_folders u : User.Username (user_sort_folders u) = User.Username u. Proof. done. Qed.
Lemma username_copy u : User.Username (user_getACopy u) = User.Username u. Proof. done. Qed.
Lemma role_created now id u : User.Role (user_created now id u) = User.Role u. Proof. done. Qed.
Lemma role_carry now v u : User.Role (user_carry_over now v u) = User.Role u. Proof. done. Qed.
Lemma role_sort_groups u : User.Role (user_sort_groups u) = User.Role u. Proof. done. Qed.
Lemma role_sort_folders u : User.Role (user_sort_folders u) = User.Role u. Proof. done. Qed.
Lemma role_copy u : User.Role (user_getACopy u) = User.Role u. Proof. done. Qed.
Lemma groupnames_carry now v u : user_groupnames (user_carry_over now v u) = user_groupnames u. Proof. done. Qed.
Lemma groupnames_sort_folders u : user_groupnames (user_sort_folders u) = user_groupnames u. Proof. done. Qed.
Lemma foldernames_carry now v u : user_foldernames (user_carry_over now v u) = user_foldernames u. Proof. done. Qed.
Lemma user_roles_created now id u : user_roles (user_created now id u) = role_list (User.Role u). Proof. done. Qed.
Lemma user_roles_carry now v u : user_roles (user_carry_over now v u) = user_roles u. Proof. done. Qed.
Lemma user_roles_sort_groups u : user_roles (user_sort_groups u) = user_roles u. Proof. done. Qed.
Lemma user_roles_sort_folders u : user_roles (user_sort_folders u) = user_roles u. Proof. done. Qed.
Lemma adminname_created now id a : Admin.Username (admin_created now id a) = Admin.Username a. Proof. done. Qed.
Lemma adminname_carry now b a : Admin.Username (admin_carry_over now b a) = Admin.Username a. Proof. done. Qed.
Lemma adminname_sort a : Admin.Username (admin_sort_groups a) = Admin.Username a. Proof. done. Qed.
Lemma adminname_copy a : Admin.Username (admin_getACopy a) = Admin.Username a. Proof. done. Qed.
Lemma adminrole_created now id a : Admin.Role (admin_created now id a) = Admin.Role a. Proof. done. Qed.
Lemma adminrole_copy a : Admin.Role (admin_getACopy a) = Admin.Role a. Proof. done. Qed.
Lemma admin_roles_copy a : admin_roles (admin_getACopy a) = admin_roles a. Proof. done. Qed.
Lemma admin_roles_created now id a : admin_roles (admin_created now id a) = role_list (Admin.Role a). Proof. done. Qed.
Lemma admin_roles_carry now b a : admin_roles (admin_carry_over now b a) = admin_roles a. Proof. done. Qed.
Lemma admin_roles_sort a : admin_roles (admin_sort_groups a) = admin_roles a. Proof. done. Qed.
Lemma admingroups_carry now b a : admin_groupnames (admin_carry_over now b a) = admin_groupnames a. Proof. done. Qed.
Lemma groupname_created now id g : Group.Name (group_created now id g) = Group.Name g. Proof. done. Qed.
Lemma groupname_sort g : Group.Name (group_sort_folders g) = Group.Name g. Proof. done. Qed.
Lemma groupname_copy g : Group.Name (group_getACopy g) = Group.Name g. Proof. done. Qed.
Lemma groupname_carry now g g' : Group.Name (group_carry_over now g g') = Group.Name g'. Proof. done. Qed.
Lemma groupfolders_carry now g g' : group_foldernames (group_carry_over now g g') = group_foldernames g'. Proof. done. Qed.
End attrs.

Create HintDb attrs.
#[export] Hint Rewrite username_created username_carry username_sort_groups username_sort_folders username_copy
  role_created role_carry role_sort_groups role_sort_folders role_copy groupnames_carry groupnames_sort_folders
  foldernames_carry user_roles_created user_roles_carry user_roles_sort_groups user_roles_sort_folders
  adminname_created adminname_carry adminname_sort adminname_copy adminrole_created adminrole_copy admin_roles_copy
  admin_roles_created admin_roles_carry admin_roles_sort admingroups_carry groupname_created groupname_sort
  groupname_copy groupname_carry groupfolders_carry : attrs.

(** * Steps *)

Lemma bind_Ok {S A B} (m : M S A) (k : A → M S B) s b s' :
  (m ≫= k) s = (Ok b, s') → ∃ a s1, m s = (Ok a, s1) ∧ k a s1 = (Ok b, s').
Proof. unfold mbind, M_bind. destruct (m s) as [[a|e] s1]; intros H; [eauto|done]. Qed.

Lemma bind_Err {S A B} (m : M S A) (k : A → M S B) s e s' :
  (m ≫= k) s = (Err e, s') →
  m s = (Err e, s') ∨ ∃ a s1, m s = (Ok a, s1) ∧ k a s1 = (Err e, s').
Proof. unfold mbind, M_bind. destruct (m s) as [[a|e1] s1]; intros H; [right; eauto|left; by simplify_eq]. Qed.

(** An action on a field is a lens: the fields are independent. *)
Class Lens {T} (f : DB.t → T) `{!Setter f} : Prop := {
  lens_get : ∀ h v, f (setter f (fun _ => v) h) = v;
  lens_set : ∀ h v v', setter f (fun _ => v') (setter f (fun _ => v) h) = setter f (fun _ => v') h;
  lens_id : ∀ h, setter f (fun _ => f h) h = h;
  lens_mod : ∀ h g, setter f g h = setter f (fun _ => g (f h)) h;
}.
Ltac solve_lens := split; [by intros|by intros|by intros []|by intros].
#[export] Instance lens_users : Lens DB.users. Proof. solve_lens. Qed.
#[export] Instance lens_groups : Lens DB.groups. Proof. solve_lens. Qed.
#[export] Instance lens_vfolders : Lens DB.vfolders. Proof. solve_lens. Qed.
#[export] Instance lens_admins : Lens DB.admins. Proof. solve_lens. Qed.
#[export] Instance lens_actions : Lens DB.actions. Proof. solve_lens. Qed.
#[export] Instance lens_rules : Lens DB.rules. Proof. solve_lens. Qed.
#[export] Instance lens_roles : Lens DB.roles. Proof. solve_lens. Qed.

Section on.
Context {T} (f : DB.t → T) `{!Setter f} `{!Lens f}.

Lemma on_ret {A} (a : A) h : on f (mret a : M T A) h = (mret a : prov A) h.
Proof. unfold on, mret, M_ret. by rewrite lens_id. Qed.

Lemma on_bind {A B} (m : M T A) (k : A → M T B) h :
  on f (m ≫= k) h = (on f m ≫= fun a => on f (k a)) h.
Proof.
  unfold on, mbind, M_bind. destruct (m (f h)) as [[a|e] v]; [|done].
  rewrite lens_get. destruct (k a v) as [r v']. by rewrite lens_set.
Qed.

Lemma on_for_each {A} (g : A → M T unit) l h : for_each (fun a => on f (g a)) l h = on f (for_each g l) h.
Proof.
  revert h; induction l as [|a l IH]; intros h; simpl; [by rewrite on_ret|].
  rewrite on_bind. unfold mbind, M_bind. destruct (on f (g a) h) as [[b|e] h1]; [apply IH|done].
Qed.

Lemma on_try {A B} (m : M T A) (k1 : A → M T B) k2 h :
  on f (try_catch m k1 k2) h = try_catch (on f m) (fun a => on f (k1 a)) (fun e => on f (k2 e)) h.
Proof.
  unfold on, try_catch. destruct (m (f h)) as [[a|e] v]; rewrite lens_get.
  - destruct (k1 a v) as [r v']. by rewrite lens_set.
  - destruct (k2 e v) as [r v']. by rewrite lens_set.
Qed.

Lemma on_fail {A} e h : on f (fail e : M T A) h = (fail e : prov A) h.
Proof. unfold on, fail. by rewrite lens_id. Qed.

Lemma on_map_or_undo {A} (g u : A → M T unit) todo : ∀ mapped h,
  map_or_undo (fun a => on f (g a)) (fun a => on f (u a)) mapped todo h = on f (map_or_undo g u mapped todo) h.
Proof.
  induction todo as [|a todo IH]; intros mapped h; simpl; [by rewrite on_ret|].
  rewrite on_try. unfold try_catch. destruct (on f (g a) h) as [[b|e] h1]; [apply IH|].
  rewrite on_bind. unfold mbind, M_bind. rewrite on_for_each.
  destruct (on f (for_each u mapped) h1) as [[b|e'] h2]; [|done]. by rewrite on_fail.
Qed.

Lemma on_ignore {A} (m : M T A) h : ignore (on f m) h = on f (ignore m) h.
Proof. unfold ignore, on. by destruct (m (f h)). Qed.

Lemma for_each_ext {S A} (g g' : A → M S unit) l s : (∀ a s, g a s = g' a s) → for_each g l s = for_each g' l s.
Proof.
  intros H. revert s; induction l as [|a l IH]; intros s; simpl; [done|].
  unfold mbind, M_bind. rewrite H. destruct (g' a s) as [[b|e] s']; [apply IH|done].
Qed.

Lemma on_map_or_restore {A} (g : A → M T unit) old todo : ∀ h,
  map_or_restore (fun a => on f (g a)) old todo h = on f (map_or_restore g old todo) h.
Proof.
  induction todo as [|a todo IH]; intros h; simpl; [by rewrite on_ret|].
  rewrite on_try. unfold try_catch. destruct (on f (g a) h) as [[b|e] h1]; [apply IH|].
  rewrite on_bind. unfold mbind, M_bind.
  rewrite (for_each_ext _ (fun k => on f (ignore (g k)))) by (intros; apply on_ignore).
  rewrite on_for_each. destruct (on f (for_each _ old) h1) as [[b|e'] h2]; [|done]. by rewrite on_fail.
Qed.

Lemma on_eq {A} (m : M T A) h : on f m h = ((m (f h)).1, setter f (fun _ => (m (f h)).2) h).
Proof. unfold on. by destruct (m (f h)). Qed.
End on.

(** * What the mapping helpers do *)

Section step.
Context {B : Type} (f : DB.t → gmap string B) `{!Setter f} `{!Lens f}.
Context (copy : B → B) (getl : B → list string) (setl : list string → B → B).
Hypothesis getl_copy : ∀ r, getl (copy r) = getl r.
Hypothesis getl_setl : ∀ l r, getl (setl l r) = l.
Variables (P : gmap string B → Prop) (x : string) (rem : string → M (gmap string B) unit).
Hypothesis P_same : ∀ m m', same_but copy setl m m' → P m → P m'.
Hypothesis rem_spec : removes copy getl setl P x rem.
Variable err : string → error.

(** The outcome of a method that adds the references at the keys [ks], or
    fails and leaves the table as it was ([unchanged]). *)
Definition add_outcome (ks : list string) (h : DB.t) (r : res unit) (h1 : DB.t) : Prop :=
  (r = Ok tt ∧ ∃ m, h1 = setter f (fun _ => m) h ∧ added copy getl setl x ks (f h) m) ∨
  (∃ e, r = Err e ∧ h1 = h ∧ ∃ k, k ∈ ks ∧ k ∉ dom (f h)).

(** The outcome of a method that removes them. *)
Definition remove_outcome (ks : list string) (h : DB.t) (r : res unit) (h1 : DB.t) : Prop :=
  r = Ok tt ∧ ∃ m, h1 = setter f (fun _ => m) h ∧ removed copy getl setl x ks (f h) m.

(** The outcome of a loop that adds the references at [ks], and on failure
    removes those it added, or adds those of [old]. *)
Definition undo_outcome (ks : list string) (h : DB.t) (r : res unit) (h1 : DB.t) : Prop :=
  (r = Ok tt ∧ ∃ m, h1 = setter f (fun _ => m) h ∧ added copy getl setl x ks (f h) m) ∨
  (∃ e pre m, r = Err e ∧ h1 = setter f (fun _ => m) h ∧ stops_at (f h) ks pre ∧ same_but copy setl (f h) m ∧
     getl <$> m = remove_edges x pre (add_edges x pre (getl <$> f h))).
Definition restore_outcome (old ks : list string) (h : DB.t) (r : res unit) (h1 : DB.t) : Prop :=
  (r = Ok tt ∧ ∃ m, h1 = setter f (fun _ => m) h ∧ added copy getl setl x ks (f h) m) ∨
  (∃ e pre m, r = Err e ∧ h1 = setter f (fun _ => m) h ∧ stops_at (f h) ks pre ∧ same_but copy setl (f h) m ∧
     getl <$> m = add_edges x old (add_edges x pre (getl <$> f h))).

Lemma step_add key h : add_outcome [key] h (on f (add_ref copy getl setl err x key) h).1
  (on f (add_ref copy getl setl err x key) h).2.
Proof.
  rewrite on_eq. cbn [fst snd]. unfold add_outcome. destruct (decide (key ∈ dom (f h))) as [Hk|Hk].
  - left. rewrite add_ref_ok by done. split; [done|]. eexists. split; [done|]. split_and!.
    + by apply add_ref_same.
    + intros k. by rewrite list_elem_of_singleton; intros ->.
    + by apply add_ref_graph.
  - right. rewrite add_ref_err by done. exists (err key). cbn [fst snd]. rewrite lens_id. split_and!; [done..|].
    exists key. by rewrite list_elem_of_singleton.
Qed.

Lemma step_remove key h : P (f h) → remove_outcome [key] h (on f (rem key) h).1 (on f (rem key) h).2.
Proof.
  intros HP. rewrite on_eq. cbn [fst snd]. destruct (rem_spec key (f h) HP) as (H1 & H2 & H3).
  split; [done|]. eexists. split; [done|]. by split.
Qed.

Lemma step_for_each_remove ks h : P (f h) →
  remove_outcome ks h (for_each (fun k => on f (rem k)) ks h).1 (for_each (fun k => on f (rem k)) ks h).2.
Proof.
  intros HP. rewrite (on_for_each f), on_eq. cbn [fst snd].
  destruct (for_each_remove copy getl setl P x rem P_same rem_spec ks (f h) HP) as [H1 H2].
  split; [done|]. by eexists.
Qed.

Lemma step_map_or_undo ks h : P (f h) →
  undo_outcome ks h
    (map_or_undo (fun k => on f (add_ref copy getl setl err x k)) (fun k => on f (rem k)) [] ks h).1
    (map_or_undo (fun k => on f (add_ref copy getl setl err x k)) (fun k => on f (rem k)) [] ks h).2.
Proof.
  intros HP. rewrite (on_map_or_undo f), on_eq. cbn [fst snd]. unfold undo_outcome.
  destruct (map_or_undo_spec copy getl setl getl_copy getl_setl P x rem P_same rem_spec err ks [] (f h) HP)
    as [(H1 & H2)|(e & pre & H1 & H2 & H3 & H4)]; rewrite H1.
  - left. split; [done|]. by eexists.
  - right. exists e, pre. eexists. by split_and!.
Qed.

Lemma step_map_or_restore old ks h :
  restore_outcome old ks h
    (map_or_restore (fun k => on f (add_ref copy getl setl err x k)) old ks h).1
    (map_or_restore (fun k => on f (add_ref copy getl setl err x k)) old ks h).2.
Proof.
  rewrite (on_map_or_restore f), on_eq. cbn [fst snd]. unfold restore_outcome.
  destruct (map_or_restore_spec copy getl setl getl_copy getl_setl x err old ks (f h))
    as [(H1 & H2)|(e & pre & H1 & H2 & H3 & H4)]; rewrite H1.
  - left. split; [done|]. by eexists.
  - right. exists e, pre. eexists. by split_and!.
Qed.
(** The outcome of a loop that rewrites objects, leaving what [copy] keeps. *)
Definition same_outcome (h : DB.t) (r : res unit) (h1 : DB.t) : Prop :=
  r = Ok tt ∧ ∃ m, h1 = setter f (fun _ => m) h ∧ same_but copy setl (f h) m.

Lemma step_for_each_same (st : string → M (gmap string B) unit) ks h :
  (∀ key m, P m → (st key m).1 = Ok tt ∧ same_but copy setl m (st key m).2) → P (f h) →
  same_outcome h (for_each (fun k => on f (st k)) ks h).1 (for_each (fun k => on f (st k)) ks h).2.
Proof.
  intros Hst HP. rewrite (on_for_each f), on_eq. cbn [fst snd].
  destruct (for_each_same copy setl P st ks P_same Hst (f h) HP) as [H1 H2].
  split; [done|]. by eexists.
Qed.
End step.

(** The outcomes, table by table. *)
Notation role_user := (add_outcome DB.roles role_getACopy Role.Users set_role_users).
Notation role_user_gone := (remove_outcome DB.roles role_getACopy Role.Users set_role_users).
Notation role_admin := (add_outcome DB.roles role_getACopy Role.Admins set_role_admins).
Notation role_admin_gone := (remove_outcome DB.roles role_getACopy Role.Admins set_role_admins).

Definition keyed_folders (m : gmap string BaseVirtualFolder.t) : Prop := keyed (BaseVirtualFolder.Name <$> m).
Definition anything {B} (_ : gmap string B) : Prop := True.

Lemma role_list_nonempty role : role ≠ "" → role_list role = [role].
Proof. intros H. unfold role_list. by rewrite (proj2 (String.eqb_neq _ _) H). Qed.

Lemma nothing_added {B} (f : DB.t → gmap string B) `{!Setter f} `{!Lens f} copy getl setl x h :
  add_outcome f copy getl setl x [] h (Ok tt) h.
Proof.
  left. split; [done|]. exists (f h). rewrite lens_id. split; [done|]. split_and!; [apply same_but_refl|set_solver|done].
Qed.
Lemma nothing_removed {B} (f : DB.t → gmap string B) `{!Setter f} `{!Lens f} copy getl setl x h :
  remove_outcome f copy getl setl x [] h (Ok tt) h.
Proof.
  split; [done|]. exists (f h). rewrite lens_id. split; [done|]. split; [apply same_but_refl|done].
Qed.

Lemma addUserToRole_spec u role h :
  role_user u (role_list role) h (addUserToRole u role h).1 (addUserToRole u role h).2.
Proof.
  unfold addUserToRole, role_list. destruct (role =s ""); [apply nothing_added, _|]. by apply step_add; [apply _|..].
Qed.
Lemma removeUserFromRole_spec u role h :
  role_user_gone u (role_list role) h (removeUserFromRole u role h).1 (removeUserFromRole u role h).2.
Proof.
  unfold removeUserFromRole, role_list. destruct (role =s ""); [apply nothing_removed, _|].
  by eapply (step_remove _ _ _ _ anything); [apply remove_ref_removes|].
Qed.
Lemma addAdminToRole_spec u role h :
  role_admin u (role_list role) h (addAdminToRole u role h).1 (addAdminToRole u role h).2.
Proof.
  unfold addAdminToRole, role_list. destruct (role =s ""); [apply nothing_added, _|]. by apply step_add; [apply _|..].
Qed.
Lemma removeAdminFromRole_spec u role h :
  role_admin_gone u (role_list role) h (removeAdminFromRole u role h).1 (removeAdminFromRole u role h).2.
Proof.
  unfold removeAdminFromRole, role_list. destruct (role =s ""); [apply nothing_removed, _|].
  by eapply (step_remove _ _ _ _ anything); [apply remove_ref_removes|].
Qed.

Lemma keyed_same m m' : same_but (fun f => f) set_folder_users m m' → keyed_folders m → keyed_folders m'.
Proof. intros H Hk. unfold keyed_folders. by rewrite (H _ BaseVirtualFolder.Name). Qed.
Lemma keyed_same_g m m' : same_but (fun f => f) set_folder_groups m m' → keyed_folders m → keyed_folders m'.
Proof. intros H Hk. unfold keyed_folders. by rewrite (H _ BaseVirtualFolder.Name). Qed.

(** On a keyed table the folder is stored back where it was found. *)
Lemma remove_relation_user u : u ≠ "" →
  removes (fun f => f) BaseVirtualFolder.Users set_folder_users keyed_folders u (remove_relation u "").
Proof.
  intros Hu key m Hk. apply String.eqb_neq in Hu.
  pose proof (remove_ref_removes (fun f => f) BaseVirtualFolder.Users set_folder_users
    (fun _ => eq_refl) (fun _ _ => eq_refl) keyed_folders u key m Hk) as H.
  enough (remove_relation u "" key m =
    remove_ref (fun f => f) BaseVirtualFolder.Users set_folder_users u key m) as -> by done.
  unfold remove_relation, remove_ref, existsIn. rewrite Hu. destruct (m !! key) as [r|] eqn:Hr; [|done]. simpl.
  by rewrite (Hk key (BaseVirtualFolder.Name r)) by (by rewrite lookup_fmap, Hr).
Qed.
Lemma remove_relation_group g : g ≠ "" →
  removes (fun f => f) BaseVirtualFolder.Groups set_folder_groups keyed_folders g (remove_relation "" g).
Proof.
  intros Hu key m Hk. apply String.eqb_neq in Hu.
  pose proof (remove_ref_removes (fun f => f) BaseVirtualFolder.Groups set_folder_groups
    (fun _ => eq_refl) (fun _ _ => eq_refl) keyed_folders g key m Hk) as H.
  enough (remove_relation "" g key m =
    remove_ref (fun f => f) BaseVirtualFolder.Groups set_folder_groups g key m) as -> by done.
  unfold remove_relation, remove_ref, existsIn. rewrite Hu. destruct (m !! key) as [r|] eqn:Hr; [|done]. simpl.
  by rewrite (Hk key (BaseVirtualFolder.Name r)) by (by rewrite lookup_fmap, Hr).
Qed.

(** Loops over the mappings of a user, an admin, a group and a rule. *)
Ltac by_step lem P same rem := intros; unshelve eapply (lem _ _ _ _ _ _ _ _ P); try done; [apply same|apply rem; done].
Lemma any_same {B} (copy : B → B) setl m m' : same_but copy setl m m' → anything m → anything m'.
Proof. done. Qed.

Lemma user_groups_undo u ks h :
  undo_outcome DB.groups group_getACopy Group.Users set_group_users u ks h
    (map_or_undo (addUserToGroupMapping u) (removeUserFromGroupMapping u) [] ks h).1
    (map_or_undo (addUserToGroupMapping u) (removeUserFromGroupMapping u) [] ks h).2.
Proof.
  apply (step_map_or_undo DB.groups group_getACopy Group.Users set_group_users
    (fun _ => eq_refl) (fun _ _ => eq_refl) anything u (remove_ref _ _ _ u)); [apply any_same|by apply remove_ref_removes|done].
Qed.
Lemma user_groups_restore u old ks h :
  restore_outcome DB.groups group_getACopy Group.Users set_group_users u old ks h
    (map_or_restore (addUserToGroupMapping u) old ks h).1 (map_or_restore (addUserToGroupMapping u) old ks h).2.
Proof. by apply step_map_or_restore; [apply _|..]. Qed.
Lemma user_groups_remove u ks h :
  remove_outcome DB.groups group_getACopy Group.Users set_group_users u ks h
    (for_each (removeUserFromGroupMapping u) ks h).1 (for_each (removeUserFromGroupMapping u) ks h).2.
Proof. by apply (step_for_each_remove DB.groups _ _ _ anything u (remove_ref _ _ _ u)); [apply any_same|apply remove_ref_removes|]. Qed.

Lemma admin_groups_undo u ks h :
  undo_outcome DB.groups group_getACopy Group.Admins set_group_admins u ks h
    (map_or_undo (addAdminToGroupMapping u) (removeAdminFromGroupMapping u) [] ks h).1
    (map_or_undo (addAdminToGroupMapping u) (removeAdminFromGroupMapping u) [] ks h).2.
Proof.
  apply (step_map_or_undo DB.groups group_getACopy Group.Admins set_group_admins
    (fun _ => eq_refl) (fun _ _ => eq_refl) anything u (remove_ref _ _ _ u)); [apply any_same|by apply remove_ref_removes|done].
Qed.
Lemma admin_groups_restore u old ks h :
  restore_outcome DB.groups group_getACopy Group.Admins set_group_admins u old ks h
    (map_or_restore (addAdminToGroupMapping u) old ks h).1 (map_or_restore (addAdminToGroupMapping u) old ks h).2.
Proof. by apply step_map_or_restore; [apply _|..]. Qed.
Lemma admin_groups_remove u ks h :
  remove_outcome DB.groups group_getACopy Group.Admins set_group_admins u ks h
    (for_each (removeAdminFromGroupMapping u) ks h).1 (for_each (removeAdminFromGroupMapping u) ks h).2.
Proof. by apply (step_for_each_remove DB.groups _ _ _ anything u (remove_ref _ _ _ u)); [apply any_same|apply remove_ref_removes|]. Qed.

Lemma user_folders_undo u ks h : u ≠ "" → keyed_folders (DB.vfolders h) →
  undo_outcome DB.vfolders (fun f => f) BaseVirtualFolder.Users set_folder_users u ks h
    (map_or_undo (addUserToFolderMapping u) (fun f => removeRelationFromFolderMapping f u "") [] ks h).1
    (map_or_undo (addUserToFolderMapping u) (fun f => removeRelationFromFolderMapping f u "") [] ks h).2.
Proof.
  intros Hu Hk. apply (step_map_or_undo DB.vfolders (fun f => f) BaseVirtualFolder.Users set_folder_users
    (fun _ => eq_refl) (fun _ _ => eq_refl) keyed_folders u (remove_relation u ""));
    [apply keyed_same|by apply remove_relation_user|done].
Qed.
Lemma user_folders_restore u old ks h :
  restore_outcome DB.vfolders (fun f => f) BaseVirtualFolder.Users set_folder_users u old ks h
    (map_or_restore (addUserToFolderMapping u) old ks h).1 (map_or_restore (addUserToFolderMapping u) old ks h).2.
Proof. by apply step_map_or_restore; [apply _|..]. Qed.
Lemma user_folders_remove u ks h : u ≠ "" → keyed_folders (DB.vfolders h) →
  remove_outcome DB.vfolders (fun f => f) BaseVirtualFolder.Users set_folder_users u ks h
    (for_each (fun f => removeRelationFromFolderMapping f u "") ks h).1
    (for_each (fun f => removeRelationFromFolderMapping f u "") ks h).2.
Proof.
  intros Hu Hk. by apply (step_for_each_remove DB.vfolders _ _ _ keyed_folders u (remove_relation u ""));
    [apply keyed_same|apply remove_relation_user|].
Qed.

Lemma group_folders_undo g ks h : g ≠ "" → keyed_folders (DB.vfolders h) →
  undo_outcome DB.vfolders (fun f => f) BaseVirtualFolder.Groups set_folder_groups g ks h
    (map_or_undo (addGroupToFolderMapping g) (fun f => removeRelationFromFolderMapping f "" g) [] ks h).1
    (map_or_undo (addGroupToFolderMapping g) (fun f => removeRelationFromFolderMapping f "" g) [] ks h).2.
Proof.
  intros Hu Hk. apply (step_map_or_undo DB.vfolders (fun f => f) BaseVirtualFolder.Groups set_folder_groups
    (fun _ => eq_refl) (fun _ _ => eq_refl) keyed_folders g (remove_relation "" g));
    [apply keyed_same_g|by apply remove_relation_group|done].
Qed.
Lemma group_folders_restore g old ks h :
  restore_outcome DB.vfolders (fun f => f) BaseVirtualFolder.Groups set_folder_groups g old ks h
    (map_or_restore (addGroupToFolderMapping g) old ks h).1 (map_or_restore (addGroupToFolderMapping g) old ks h).2.
Proof. by apply step_map_or_restore; [apply _|..]. Qed.
Lemma group_folders_remove g ks h : g ≠ "" → keyed_folders (DB.vfolders h) →
  remove_outcome DB.vfolders (fun f => f) BaseVirtualFolder.Groups set_folder_groups g ks h
    (for_each (fun f => removeRelationFromFolderMapping f "" g) ks h).1
    (for_each (fun f => removeRelationFromFolderMapping f "" g) ks h).2.
Proof.
  intros Hu Hk. by apply (step_for_each_remove DB.vfolders _ _ _ keyed_folders g (remove_relation "" g));
    [apply keyed_same_g|apply remove_relation_group|].
Qed.

Lemma rule_actions_undo u ks h :
  undo_outcome DB.actions action_getACopy BaseEventAction.Rules set_action_rules u ks h
    (map_or_undo (addRuleToActionMapping u) (removeRuleFromActionMapping u) [] ks h).1
    (map_or_undo (addRuleToActionMapping u) (removeRuleFromActionMapping u) [] ks h).2.
Proof.
  apply (step_map_or_undo DB.actions action_getACopy BaseEventAction.Rules set_action_rules
    (fun _ => eq_refl) (fun _ _ => eq_refl) anything u (remove_ref_if _ _ _ u)); [apply any_same|by apply remove_ref_if_removes|done].
Qed.
Lemma rule_actions_restore u old ks h :
  restore_outcome DB.actions action_getACopy BaseEventAction.Rules set_action_rules u old ks h
    (map_or_restore (addRuleToActionMapping u) old ks h).1 (map_or_restore (addRuleToActionMapping u) old ks h).2.
Proof. by apply step_map_or_restore; [apply _|..]. Qed.
Lemma rule_actions_remove u ks h :
  remove_outcome DB.actions action_getACopy BaseEventAction.Rules set_action_rules u ks h
    (for_each (removeRuleFromActionMapping u) ks h).1 (for_each (removeRuleFromActionMapping u) ks h).2.
Proof. by apply (step_for_each_remove DB.actions _ _ _ anything u (remove_ref_if _ _ _ u)); [apply any_same|apply remove_ref_if_removes|]. Qed.

(** * Inverting a method *)

Lemma locked_Ok {A} (m : prov A) h a h' : locked m h = (Ok a, h') → DB.isClosed h = false ∧ m h = (Ok a, h').
Proof. unfold locked. by destruct (DB.isClosed h). Qed.

Lemma ask_Ok {A} (r : DB.t → res A) h a h' : ask r h = (Ok a, h') → r h = Ok a ∧ h' = h.
Proof. unfold ask. by intros [= -> ->]. Qed.

Lemma check_absent_Ok {A} (found : DB.t → res A) e h a h' :
  check_absent found e h = (Ok a, h') → is_ok (found h) = false ∧ h' = h.
Proof. unfold check_absent. destruct (is_ok (found h)); intros [= <- <-]; done. Qed.

Lemma upd_Ok {T} (f : DB.t → T) `{!Setter f} g h a h' : upd f g h = (Ok a, h') → h' = setter f g h.
Proof. by intros [= _ <-]. Qed.

Lemma existsIn_Ok {B} what copy (m : gmap string B) key b :
  existsIn what copy m key = Ok b → ∃ b0, m !! key = Some b0 ∧ b = copy b0.
Proof. unfold existsIn. destruct (m !! key); intros [= <-]; eauto. Qed.

Lemma existsIn_absent {B} what copy (m : gmap string B) key :
  is_ok (existsIn what copy m key) = false → key ∉ dom m.
Proof. unfold existsIn. rewrite not_elem_of_dom. by destruct (m !! key). Qed.

(** One bind at a time, the first action resolved by its specification. *)
Ltac inv_bind H :=
  let a := fresh "a" in let s := fresh "h" in let E := fresh "E" in let H' := fresh "H'" in
  apply bind_Ok in H; destruct H as (a & s & E & H'); rename H' into H.
Ltac spec_ok E L :=
  let Hs := fresh "Hs" in
  pose proof L as Hs;
  lazymatch type of E with
  | ?p = _ => lazymatch type of Hs with context [fst ?q] => change q with p in Hs end
  end;
  rewrite E in Hs; cbn [fst snd] in Hs; clear E.

(** * Loops over the objects that refer to a deleted one

    Each step reads an object, rewrites it with [g] and stores it back under its
    name; on a keyed table that is where it was. *)
Definition rewrite_at {B} (g : B → B) (key : string) : M (gmap string B) unit := fun m =>
  match m !! key with Some r => (Ok tt, <[key := g r]> m) | None => (Ok tt, m) end.

Definition no_list {B} (_ : list string) (r : B) : B := r.

Lemma rewrite_at_same {B} (g : B → B) key (m : gmap string B) :
  (rewrite_at g key m).1 = Ok tt ∧ same_but g no_list m (rewrite_at g key m).2.
Proof.
  unfold rewrite_at. destruct (m !! key) as [r|] eqn:Hk; simpl; (split; [done|]); [|apply same_but_refl].
  by apply (same_but_insert g no_list _ _ _ []).
Qed.

Lemma rewrite_at_removes {B} (g : B → B) (getl : B → list string) P x :
  (∀ r, getl (g r) = without x (getl r)) → removes g getl no_list P x (rewrite_at g).
Proof.
  intros Hg key m _. destruct (rewrite_at_same g key m) as [H1 H2]. split_and!; [done..|].
  unfold rewrite_at, remove_edge. apply map_eq. intros i. destruct (decide (i = key)) as [->|Hne].
  - rewrite lookup_alter_eq, !lookup_fmap. destruct (m !! key) as [r|] eqn:Hk; simpl.
    + rewrite lookup_insert_eq. simpl. by rewrite Hg.
    + by rewrite Hk.
  - rewrite lookup_alter_ne by done. rewrite !lookup_fmap. destruct (m !! key); simpl; [|done].
    by rewrite lookup_insert_ne.
Qed.

(** * Tables with an object put or deleted *)

Ltac names_tac :=
  repeat match goal with
  | H : same_but _ _ _ ?m |- context [?g <$> ?m] => rewrite (H _ g) by (intros; autorewrite with copies; done)
  | H : same_but _ _ _ ?m |- context [dom ?m] => rewrite (same_but_dom _ _ _ _ H)
  end.

Lemma owners_mono o s s' : owners_ok o s → s ⊆ s' → owners_ok o s'.
Proof. intros H Hs k x Hk. destruct (H k x Hk); [by left|right; set_solver]. Qed.

Lemma no_empty_put {B} (m : gmap string B) k v : "" ∉ dom m → k ∈ dom m → "" ∉ dom (<[k:=v]> m).
Proof. intros H Hk. rewrite dom_insert_L. intros [Hx|Hx]%elem_of_union; [|done]. apply H. by apply elem_of_singleton in Hx as ->. Qed.
Lemma no_empty_new {B} (m : gmap string B) k v : "" ∉ dom m → k ≠ "" → "" ∉ dom (<[k:=v]> m).
Proof. intros H Hk. rewrite dom_insert_L. intros [Hx|Hx]%elem_of_union; [|done]. by apply elem_of_singleton in Hx. Qed.
Lemma no_empty_delete {B} (m : gmap string B) k : "" ∉ dom m → "" ∉ dom (delete k m).
Proof. rewrite dom_delete_L. set_solver. Qed.

(** Splits the invariant of the new state and closes what did not change. *)
Ltac wf_tac W :=
  destruct W; constructor; simpl; names_tac; rewrite ?fmap_insert, ?fmap_delete; autorewrite with copies attrs;
  try assumption;
  try (eapply owners_mono; [eassumption|set_solver]);
  try (solve [by apply no_empty_put | by apply no_empty_new | by apply no_empty_delete]).

Lemma table_insert_new {B} names (key : B → string) (m : gmap string B) k v :
  table_ok names (key <$> m) → k ∉ dom m → key v = k →
  table_ok (append_name k names) (<[k:=key v]> (key <$> m)).
Proof.
  intros [Hn Hk] Hnew ->. split; [|by apply keyed_insert].
  apply names_ok_append; [done|]. by rewrite dom_fmap_L.
Qed.

(** An object replaced by one with the same links. *)
Lemma table_insert_same {B} names (key : B → string) (m : gmap string B) k v0 :
  table_ok names (key <$> m) → m !! k = Some v0 → table_ok names (<[k:=k]> (key <$> m)).
Proof.
  intros [Hn Hk] Hm. split; [|by apply keyed_insert]. apply names_ok_insert_same; [|done].
  rewrite dom_fmap_L. by apply elem_of_dom.
Qed.

Lemma keyed_key {B} names (key : B → string) (m : gmap string B) k v :
  table_ok names (key <$> m) → m !! k = Some v → key v = k.
Proof. intros [_ Hk] Hm. apply Hk. by rewrite lookup_fmap, Hm. Qed.

Lemma lookup_attr {B C} (f : B → C) (m : gmap string B) k v : m !! k = Some v → (f <$> m) !! k = Some (f v).
Proof. intros H. by rewrite lookup_fmap, H. Qed.

Lemma linked_put {B} (f : B → list string) (m : gmap string B) g k v0 v :
  linked (f <$> m) g → m !! k = Some v0 → f v = f v0 → linked (<[k:=f v]> (f <$> m)) g.
Proof. intros H Hm ->. apply linked_same; [done|]. by apply lookup_attr. Qed.

Lemma add_or_restore_Ok add restore h a h' : add_or_restore add restore h = (Ok a, h') → add h = (Ok a, h').
Proof. unfold add_or_restore, try_catch. destruct (add h) as [[b|e] s]; [done|]. by intros H. Qed.

Lemma delete_where_lookup {B} (p : B → bool) (m : gmap string B) k v :
  (delete_where p m).2 !! k = Some v ↔ m !! k = Some v ∧ p v = false.
Proof. simpl. by rewrite map_lookup_filter_Some. Qed.

Lemma delete_where_none {B} (p : B → bool) (m : gmap string B) :
  (delete_where p m).1 = false → (delete_where p m).2 = m.
Proof.
  simpl. intros H. apply map_filter_id. intros k v Hk. simpl. destruct (p v) eqn:Hp; [|done].
  exfalso. apply Bool.not_true_iff_false in H. apply H. apply existsb_exists. exists (k, v).
  split; [|done]. by apply list_elem_of_In, elem_of_map_to_list.
Qed.

Lemma linked_put_r {B} (f : B → list string) (m : gmap string B) g k v0 v :
  linked g (f <$> m) → m !! k = Some v0 → f v = f v0 → linked g (<[k:=f v]> (f <$> m)).
Proof. intros H Hm Hv. symmetry. eapply linked_put; [by symmetry|done..]. Qed.

Lemma linked_fresh_r {B} (f : B → list string) (m : gmap string B) g k :
  linked g (f <$> m) → k ∉ dom m → linked g (<[k:=[]]> (f <$> m)).
Proof. intros H Hk. symmetry. apply linked_fresh; [by symmetry|by rewrite dom_fmap_L]. Qed.

Lemma linked_drop_r {B} (f : B → list string) (m : gmap string B) g k v0 :
  linked g (f <$> m) → m !! k = Some v0 → linked (remove_edges k (f v0) g) (delete k (f <$> m)).
Proof. intros H Hk. symmetry. apply linked_drop; [by symmetry|by apply lookup_attr]. Qed.

Lemma table_purged {B} names (key : B → string) (p : B → bool) (m : gmap string B) :
  table_ok names (key <$> m) →
  table_ok (if (delete_where p m).1 then rebuild_names (delete_where p m).2 else names)
    (key <$> (delete_where p m).2).
Proof.
  intros [Hn Hk]. destruct (delete_where p m).1 eqn:Hf; [|by rewrite delete_where_none].
  split.
  - eapply names_ok_dom; [|apply names_ok_rebuild]. apply dom_fmap_L.
  - intros k n Hkn. rewrite lookup_fmap in Hkn. apply fmap_Some in Hkn as (v & Hv & ->).
    apply delete_where_lookup in Hv as [Hv _]. apply Hk. by apply lookup_attr.
Qed.

Lemma owners_purged {B} (owner : B → string) (p : B → bool) (m : gmap string B) s s' :
  owners_ok (owner <$> m) s → (∀ v, p v = false → owner v ∈ s → owner v ∈ s') →
  owners_ok (owner <$> (delete_where p m).2) s'.
Proof.
  intros H Hs k o Hk. rewrite lookup_fmap in Hk. apply fmap_Some in Hk as (v & Hv & ->).
  apply delete_where_lookup in Hv as [Hv Hp].
  destruct (H k (owner v)) as [?|?]; [by apply lookup_attr|by left|right; auto].
Qed.

Lemma table_delete {B} names (key : B → string) (m : gmap string B) k :
  table_ok names (key <$> m) → table_ok (rebuild_names (delete k m)) (delete k (key <$> m)).
Proof.
  intros [_ Hk]. split; [|by apply keyed_delete].
  eapply names_ok_dom; [|apply names_ok_rebuild]. by rewrite !dom_delete_L, dom_fmap_L.
Qed.

Lemma purge_keeps (x u : string) (s : gset string) : (x =s u) = false → x ∈ s → x ∈ s ∖ {[u]}.
Proof. intros H%String.eqb_neq. set_solver. Qed.

