(* ===== verification/MemoryAccounts.v ===== *)
(** Users and admins: their methods preserve the invariant. *)
From S2P Require Import Prelude FsConfig Entities Links Tables MemoryCore MemoryOps MemoryInv.
Open Scope Z_scope.

(** * Preservation: users *)

Section preserve.
Context `{!Validate User.t, !Validate Group.t, !Validate Admin.t, !Validate Role.t,
  !Validate BaseVirtualFolder.t, !Validate APIKey.t, !Validate Share.t, !Validate BaseEventAction.t,
  !Validate EventRule.t, !Validate IPListEntry.t, !Validate Configs.t}.
Context {VN : ValidNames}.
Implicit Types now : nat → Z.

Lemma addUser_wf now u h u' h' : wf h → addUser now u h = (Ok u', h') → wf h'.
Proof.
  intros W H. unfold addUser in H.
  inv_bind H. apply ask_Ok in E as [Hval ->]. rename a into v. pose proof (valid_username _ _ _ Hval) as Hname.
  apply locked_Ok in H as [_ H].
  inv_bind H. apply check_absent_Ok in E as [Hnew ->]. apply existsIn_absent in Hnew.
  inv_bind H. unfold gets in E. injection E as <- <-. cbv zeta in H.
  inv_bind H.
  autorewrite with attrs in *. pose proof (proj2 (wf_vfolders _ W)) as Hkf.
  spec_ok E (addUserToRole_spec (User.Username v) (User.Role v) h).
  destruct Hs as [(_ & mr & -> & Hr1 & Hr2 & Hr3)|(e & ? & _)]; [|done].
  inv_bind H. spec_ok E (user_groups_undo (User.Username v)
    (user_groupnames (user_sort_groups (user_created now (getNextID h) v))) (h <| DB.roles := mr |>)).
  destruct Hs as [(_ & mg & -> & Hg1 & Hg2 & Hg3)|(e & ? & ? & ? & _)]; [|done].
  remember (user_sort_folders (user_sort_groups (user_created now (getNextID h) v))) as X eqn:HX.
  assert (User.Username X = User.Username v) as HXn by (subst X; by autorewrite with attrs).
  assert (user_roles X = role_list (User.Role v)) as HXr by (subst X; by autorewrite with attrs).
  assert (user_groupnames X = user_groupnames (user_sort_groups (user_created now (getNextID h) v))) as HXg
    by (subst X; by autorewrite with attrs).
  rewrite <-HXg in *. clear HX HXg.
  inv_bind H. spec_ok E (user_folders_undo (User.Username v) (user_foldernames X)
    (h <| DB.roles := mr |> <| DB.groups := mg |>) Hname Hkf).
  destruct Hs as [(_ & mf & -> & Hf1 & Hf2 & Hf3)|(e & ? & ? & ? & _)]; [|done].
  unfold upd, modify, mbind, M_bind, mret, M_ret in H. injection H as <- <-.
  simpl in Hg1, Hg2, Hg3, Hf1, Hf2, Hf3. rewrite <-HXr in *.
  wf_tac W.
  - rewrite <-HXn in *. by apply table_insert_new.
  - rewrite Hr3. apply linked_add; rewrite ?dom_fmap_L; done.
  - rewrite Hg3. apply linked_add; rewrite ?dom_fmap_L; done.
  - rewrite Hf3. apply linked_add; rewrite ?dom_fmap_L; done.
Qed.

Lemma put_user_wf h k u0 u : wf h → DB.users h !! k = Some u0 →
  User.Username u = k → user_roles u = user_roles u0 → user_groupnames u = user_groupnames u0 →
  user_foldernames u = user_foldernames u0 → wf (h <| DB.users ::= <[k:=u]> |>).
Proof.
  intros W Hk Hn Hr Hg Hf. pose proof (elem_of_dom_2 _ _ _ Hk) as Hd.
  wf_tac W; try (by eapply linked_put).
  rewrite Hn. by eapply table_insert_same.
Qed.

Lemma userExists_Ok username h u : userExistsInternal username h = Ok u →
  ∃ u0, DB.users h !! username = Some u0 ∧ u = user_getACopy u0.
Proof. apply existsIn_Ok. Qed.

Lemma update_user_wf username f h a h' : wf h →
  (∀ u, User.Username (f u) = User.Username u ∧ user_roles (f u) = user_roles u ∧
        user_groupnames (f u) = user_groupnames u ∧ user_foldernames (f u) = user_foldernames u) →
  update_user username f h = (Ok a, h') → wf h'.
Proof.
  intros W Hf H. unfold update_user in H. inv_bind H. apply ask_Ok in E as [E ->].
  apply userExists_Ok in E as (u0 & Hu0 & ->). injection H as <- <-.
  destruct (Hf (user_getACopy u0)) as (H1 & H2 & H3 & H4). pose proof (keyed_key _ _ _ _ _ (wf_users _ W) Hu0) as Hk.
  rewrite H1, username_copy, Hk. autorewrite with copies in *. eapply put_user_wf; [done..| | | |]; try congruence.
  by rewrite H1, username_copy.
Qed.

Lemma locked_update_user_wf username f h a h' : wf h →
  (∀ u, User.Username (f u) = User.Username u ∧ user_roles (f u) = user_roles u ∧
        user_groupnames (f u) = user_groupnames u ∧ user_foldernames (f u) = user_foldernames u) →
  locked (update_user username f) h = (Ok a, h') → wf h'.
Proof. intros W Hf [_ H]%locked_Ok. by eapply update_user_wf. Qed.

Lemma updateLastLogin_wf now username h a h' : wf h → updateLastLogin now username h = (Ok a, h') → wf h'.
Proof. intros W. by apply locked_update_user_wf. Qed.
Lemma updateTransferQuota_wf now username ul dl reset h a h' : wf h →
  updateTransferQuota now username ul dl reset h = (Ok a, h') → wf h'.
Proof. intros W. apply locked_update_user_wf; [done|]. by intros u; destruct reset. Qed.
Lemma updateQuota_wf now username fs sz reset h a h' : wf h → updateQuota now username fs sz reset h = (Ok a, h') → wf h'.
Proof. intros W. apply locked_update_user_wf; [done|]. by intros u; destruct reset. Qed.

Lemma setLastUserUpdate_wf t h a h' : wf h → setLastUserUpdate t h = (Ok a, h') → wf h'.
Proof. intros W H. injection H as <- <-. wf_tac W. Qed.
Lemma setLastRuleUpdate_wf t h a h' : wf h → setLastRuleUpdate t h = (Ok a, h') → wf h'.
Proof. intros W H. injection H as <- <-. wf_tac W. Qed.

Lemma setUpdatedAt_wf now username h a h' : wf h → setUpdatedAt now username h = (Ok a, h') → wf h'.
Proof.
  intros W H. injection H as <- <-. unfold locked. destruct (DB.isClosed h); [done|].
  unfold mbind, M_bind. destruct (update_user _ _ h) as [[b|e] h1] eqn:E.
  - eapply setLastUserUpdate_wf; [|done]. by eapply update_user_wf; [..|done].
  - unfold update_user in E. apply bind_Err in E as [E|(u & s & E & H)]; [|done].
    by injection E as _ <-.
Qed.

Lemma update_found_user_wf username h u a h' f : wf h → userExistsInternal username h = Ok u →
  User.Username (f u) = User.Username u → user_roles (f u) = user_roles u →
  user_groupnames (f u) = user_groupnames u → user_foldernames (f u) = user_foldernames u →
  upd DB.users <[User.Username (f u) := f u]> h = (Ok a, h') → wf h'.
Proof.
  intros W Hu H1 H2 H3 H4 H. apply userExists_Ok in Hu as (u0 & Hu0 & ->). injection H as <- <-.
  autorewrite with copies attrs in *. rewrite (keyed_key _ _ _ _ _ (wf_users _ W) Hu0) in H1. rewrite H1.
  by eapply put_user_wf.
Qed.

Lemma setFirstDownloadTimestamp_wf now username h a h' : wf h →
  setFirstDownloadTimestamp now username h = (Ok a, h') → wf h'.
Proof.
  intros W [_ H]%locked_Ok. inv_bind H. apply ask_Ok in E as [E ->].
  destruct (0 <? _); [done|]. by eapply (update_found_user_wf _ _ _ _ _ (fun u => u <| User.FirstDownload := now 0%nat |>)).
Qed.
Lemma setFirstUploadTimestamp_wf now username h a h' : wf h →
  setFirstUploadTimestamp now username h = (Ok a, h') → wf h'.
Proof.
  intros W [_ H]%locked_Ok. inv_bind H. apply ask_Ok in E as [E ->].
  destruct (0 <? _); [done|]. by eapply (update_found_user_wf _ _ _ _ _ (fun u => u <| User.FirstUpload := now 0%nat |>)).
Qed.
Lemma updateUserPassword_wf now username password h a h' : wf h →
  updateUserPassword now username password h = (Ok a, h') → wf h'.
Proof.
  intros W [_ H]%locked_Ok. inv_bind H. apply ask_Ok in E as [E ->].
  pose proof E as E'. apply userExists_Ok in E' as (u0 & Hu0 & Hu).
  assert (User.Username a0 = username) as Hn.
  { subst a0. rewrite username_copy. by apply (keyed_key _ _ _ _ _ (wf_users _ W)). }
  cbv zeta in H. rewrite <-Hn in H.
  by eapply (update_found_user_wf _ _ _ _ _
    (fun u => u <| User.Password := password |> <| User.UpdatedAt := now 0%nat |>)).
Qed.

Lemma updateUser_wf now u h u' h' : wf h → updateUser now u h = (Ok u', h') → wf h'.
Proof.
  intros W H. unfold updateUser in H.
  inv_bind H. apply ask_Ok in E as [Hval ->]. rename a into v. pose proof (valid_username _ _ _ Hval) as Hname.
  apply locked_Ok in H as [_ H]. inv_bind H. apply ask_Ok in E as [E ->].
  apply userExists_Ok in E as (u0 & Hu0 & ->). cbv zeta in H. autorewrite with copies attrs in H.
  pose proof (keyed_key _ _ _ _ _ (wf_users _ W) Hu0) as Hk. rewrite Hk in H.
  pose proof (proj2 (wf_vfolders _ W)) as Hkf. set (k := User.Username v) in *.
  inv_bind H. spec_ok E (removeUserFromRole_spec k (User.Role u0) h).
  destruct Hs as (_ & mr0 & -> & Hr01 & Hr02).
  inv_bind H. apply add_or_restore_Ok in E. spec_ok E (addUserToRole_spec k (User.Role v) (h <| DB.roles := mr0 |>)).
  destruct Hs as [(_ & mr & -> & Hr1 & Hr2 & Hr3)|(e & ? & _)]; [|done].
  inv_bind H. spec_ok E (user_groups_remove k (user_groupnames u0) (h <| DB.roles := mr0 |> <| DB.roles := mr |>)).
  destruct Hs as (_ & mg0 & -> & Hg01 & Hg02).
  inv_bind H. spec_ok E (user_groups_restore k (user_groupnames u0) (user_groupnames (user_sort_groups v))
    (h <| DB.roles := mr0 |> <| DB.roles := mr |> <| DB.groups := mg0 |>)).
  destruct Hs as [(_ & mg & -> & Hg1 & Hg2 & Hg3)|(e & ? & ? & ? & _)]; [|done].
  remember (user_sort_folders (user_sort_groups v)) as X eqn:HX.
  assert (user_roles X = role_list (User.Role v)) as HXr by (subst X; by autorewrite with attrs).
  assert (user_groupnames X = user_groupnames (user_sort_groups v)) as HXg by (subst X; by autorewrite with attrs).
  assert (User.Username X = k) as HXn by (subst X; by autorewrite with attrs).
  rewrite <-HXg in *. clear HX HXg.
  inv_bind H. spec_ok E (user_folders_remove k (user_foldernames u0)
    (h <| DB.roles := mr0 |> <| DB.roles := mr |> <| DB.groups := mg0 |> <| DB.groups := mg |>) Hname Hkf).
  destruct Hs as (_ & mf0 & -> & Hf01 & Hf02).
  inv_bind H. spec_ok E (user_folders_restore k (user_foldernames u0) (user_foldernames X)
    (h <| DB.roles := mr0 |> <| DB.roles := mr |> <| DB.groups := mg0 |> <| DB.groups := mg |> <| DB.vfolders := mf0 |>)).
  destruct Hs as [(_ & mf & -> & Hf1 & Hf2 & Hf3)|(e & ? & ? & ? & _)]; [|done].
  unfold setLastUserUpdate, upd, modify, mbind, M_bind, mret, M_ret in H. injection H as <- <-.
  simpl in Hr01, Hr02, Hg1, Hg2, Hg3, Hf1, Hf2, Hf3, Hg01, Hg02, Hf01, Hf02, Hr1, Hr2, Hr3. rewrite <-HXr in *.
  rewrite Hr02 in Hr3. rewrite Hg02 in Hg3. rewrite Hf02 in Hf3.
  change (role_list (User.Role u0)) with (user_roles u0) in Hr3.
  rewrite (same_but_dom _ _ _ _ Hr01) in Hr2. rewrite (same_but_dom _ _ _ _ Hg01) in Hg2.
  rewrite (same_but_dom _ _ _ _ Hf01) in Hf2. pose proof (elem_of_dom_2 _ _ _ Hu0) as Hd.
  wf_tac W.
  - rewrite HXn. by eapply table_insert_same.
  - rewrite Hr3. eapply linked_replace; rewrite ?dom_fmap_L; [done|by apply lookup_attr|done].
  - rewrite Hg3. eapply linked_replace; rewrite ?dom_fmap_L; [done|by apply lookup_attr|done].
  - rewrite Hf3. eapply linked_replace; rewrite ?dom_fmap_L; [done|by apply lookup_attr|done].
Qed.

(** ** Deleting a user *)

Lemma deleteAPIKeysWithUser_eq u h : ∃ m ids,
  deleteAPIKeysWithUser u h = h <| DB.apiKeys := m |> <| DB.apiKeysIDs := ids |> ∧
  m = (delete_where (fun v => APIKey.User v =s u) (DB.apiKeys h)).2 ∧
  ids = if (delete_where (fun v => APIKey.User v =s u) (DB.apiKeys h)).1 then rebuild_names m else DB.apiKeysIDs h.
Proof.
  unfold deleteAPIKeysWithUser. destruct (delete_where _ _) as [found m]. exists m.
  destruct found; eexists; by split_and!; [destruct h|..].
Qed.
Lemma deleteAPIKeysWithAdmin_eq u h : ∃ m ids,
  deleteAPIKeysWithAdmin u h = h <| DB.apiKeys := m |> <| DB.apiKeysIDs := ids |> ∧
  m = (delete_where (fun v => APIKey.Admin v =s u) (DB.apiKeys h)).2 ∧
  ids = if (delete_where (fun v => APIKey.Admin v =s u) (DB.apiKeys h)).1 then rebuild_names m else DB.apiKeysIDs h.
Proof.
  unfold deleteAPIKeysWithAdmin. destruct (delete_where _ _) as [found m]. exists m.
  destruct found; eexists; by split_and!; [destruct h|..].
Qed.
Lemma deleteSharesWithUser_eq u h : ∃ m ids,
  deleteSharesWithUser u h = h <| DB.shares := m |> <| DB.sharesIDs := ids |> ∧
  m = (delete_where (fun v => Share.Username v =s u) (DB.shares h)).2 ∧
  ids = if (delete_where (fun v => Share.Username v =s u) (DB.shares h)).1 then rebuild_names m else DB.sharesIDs h.
Proof.
  unfold deleteSharesWithUser. destruct (delete_where _ _) as [found m]. exists m.
  destruct found; eexists; by split_and!; [destruct h|..].
Qed.

Lemma deleteUser_wf u h a h' : wf h → deleteUser u h = (Ok a, h') → wf h'.
Proof.
  intros W [_ H]%locked_Ok. inv_bind H. apply ask_Ok in E as [E ->].
  apply userExists_Ok in E as (u0 & Hu0 & ->). autorewrite with copies attrs in H.
  pose proof (keyed_key _ _ _ _ _ (wf_users _ W) Hu0) as Hk. rewrite Hk in H.
  pose proof (proj2 (wf_vfolders _ W)) as Hkf. set (k := User.Username u) in *.
  assert (k ≠ "") as Hname.
  { intros Hk0. apply (wf_no_empty_user _ W). rewrite <-Hk0. by apply elem_of_dom_2 in Hu0. }
  inv_bind H. spec_ok E (removeUserFromRole_spec k (User.Role u0) h).
  destruct Hs as (_ & mr & -> & Hr1 & Hr2).
  inv_bind H. spec_ok E (user_folders_remove k (user_foldernames u0) (h <| DB.roles := mr |>) Hname Hkf).
  destruct Hs as (_ & mf & -> & Hf1 & Hf2).
  inv_bind H. spec_ok E (user_groups_remove k (user_groupnames u0) (h <| DB.roles := mr |> <| DB.vfolders := mf |>)).
  destruct Hs as (_ & mg & -> & Hg1 & Hg2).
  unfold upd, modify, mbind, M_bind, mret, M_ret in H. injection H as <- <-.
  match goal with |- context [deleteAPIKeysWithUser k ?s] => destruct (deleteAPIKeysWithUser_eq k s) as (mk & ik & -> & Hmk & Hik) end.
  match goal with |- context [deleteSharesWithUser k ?s] => destruct (deleteSharesWithUser_eq k s) as (ms & jk & -> & Hms & Hjk) end.
  simpl in Hmk, Hik, Hms, Hjk, Hr1, Hr2, Hf1, Hf2, Hg1, Hg2.
  change (role_list (User.Role u0)) with (user_roles u0) in Hr2.
  wf_tac W.
  - by eapply table_delete.
  - rewrite Hik, Hmk. by apply (table_purged _ _ (fun v => APIKey.User v =s k)).
  - rewrite Hjk, Hms. by apply (table_purged _ _ (fun v => Share.Username v =s k)).
  - rewrite Hr2. eapply linked_drop; [done|by apply lookup_attr].
  - rewrite Hg2. eapply linked_drop; [done|by apply lookup_attr].
  - rewrite Hf2. eapply linked_drop; [done|by apply lookup_attr].
  - rewrite Hmk, dom_delete_L. eapply (owners_purged _ (fun v => APIKey.User v =s k)); [done|].
    intros v Hv. by apply purge_keeps.
  - rewrite Hmk. by eapply (owners_purged _ (fun v => APIKey.User v =s k)).
  - rewrite Hms, dom_delete_L. eapply (owners_purged _ (fun v => Share.Username v =s k)); [done|].
    intros v Hv. by apply purge_keeps.
Qed.

(** * Admins *)

Lemma adminExists_Ok username h a : adminExistsInternal username h = Ok a →
  ∃ a0, DB.admins h !! username = Some a0 ∧ a = admin_getACopy a0.
Proof. apply existsIn_Ok. Qed.

Lemma put_admin_wf h k a0 a : wf h → DB.admins h !! k = Some a0 →
  Admin.Username a = k → admin_roles a = admin_roles a0 → admin_groupnames a = admin_groupnames a0 →
  wf (h <| DB.admins ::= <[k:=a]> |>).
Proof.
  intros W Hk Hn Hr Hg. pose proof (elem_of_dom_2 _ _ _ Hk) as Hd.
  wf_tac W; try (by eapply linked_put). rewrite Hn. by eapply table_insert_same.
Qed.

Lemma updateAdminLastLogin_wf now username h a h' : wf h → updateAdminLastLogin now username h = (Ok a, h') → wf h'.
Proof.
  intros W [_ H]%locked_Ok. inv_bind H. apply ask_Ok in E as [E ->].
  apply adminExists_Ok in E as (a0' & Ha0 & ->). injection H as <- <-.
  pose proof (keyed_key _ _ _ _ _ (wf_admins _ W) Ha0) as Hk.
  change (wf (h <| DB.admins ::= <[Admin.Username a0' := admin_getACopy a0' <| Admin.LastLogin := now 0%nat |>]> |>)).
  rewrite Hk. eapply put_admin_wf; [done..|]. exact (admin_groupnames_copy a0').
Qed.

Lemma addAdmin_wf now a h a' h' : wf h → addAdmin now a h = (Ok a', h') → wf h'.
Proof.
  intros W [_ H]%locked_Ok.
  inv_bind H. apply ask_Ok in E as [_ ->]. rename a0 into v.
  inv_bind H. apply check_absent_Ok in E as [Hnew ->]. apply existsIn_absent in Hnew.
  inv_bind H. unfold gets in E. injection E as <- <-. cbv zeta in H.
  inv_bind H. autorewrite with attrs in *.
  spec_ok E (addAdminToRole_spec (Admin.Username v) (Admin.Role v) h).
  destruct Hs as [(_ & mr & -> & Hr1 & Hr2 & Hr3)|(e & ? & _)]; [|done].
  remember (admin_sort_groups (admin_created now (getNextAdminID h) v)) as X eqn:HX.
  assert (Admin.Username X = Admin.Username v) as HXn by (subst X; by autorewrite with attrs).
  assert (admin_roles X = role_list (Admin.Role v)) as HXr by (subst X; by autorewrite with attrs).
  clear HX. inv_bind H.
  spec_ok E (admin_groups_undo (Admin.Username v) (admin_groupnames X) (h <| DB.roles := mr |>)).
  destruct Hs as [(_ & mg & -> & Hg1 & Hg2 & Hg3)|(e & ? & ? & ? & _)]; [|done].
  unfold upd, modify, mbind, M_bind, mret, M_ret in H. injection H as <- <-.
  simpl in Hg1, Hg2, Hg3. rewrite <-HXr in *.
  wf_tac W.
  - rewrite <-HXn in *. by apply table_insert_new.
  - rewrite Hr3. apply linked_add; rewrite ?dom_fmap_L; done.
  - rewrite Hg3. apply linked_add; rewrite ?dom_fmap_L; done.
Qed.

Lemma updateAdmin_wf now a h a' h' : wf h → updateAdmin now a h = (Ok a', h') → wf h'.
Proof.
  intros W [_ H]%locked_Ok.
  inv_bind H. apply ask_Ok in E as [_ ->]. rename a0 into v.
  inv_bind H. apply ask_Ok in E as [E ->].
  apply adminExists_Ok in E as (u0 & Hu0 & ->). cbv zeta in H. autorewrite with copies attrs in H.
  pose proof (keyed_key _ _ _ _ _ (wf_admins _ W) Hu0) as Hk. rewrite Hk in H. set (k := Admin.Username v) in *.
  inv_bind H. spec_ok E (removeAdminFromRole_spec k (Admin.Role u0) h).
  destruct Hs as (_ & mr0 & -> & Hr01 & Hr02).
  inv_bind H. apply add_or_restore_Ok in E. spec_ok E (addAdminToRole_spec k (Admin.Role v) (h <| DB.roles := mr0 |>)).
  destruct Hs as [(_ & mr & -> & Hr1 & Hr2 & Hr3)|(e & ? & _)]; [|done].
  inv_bind H. spec_ok E (admin_groups_remove k (admin_groupnames u0) (h <| DB.roles := mr0 |> <| DB.roles := mr |>)).
  destruct Hs as (_ & mg0 & -> & Hg01 & Hg02).
  remember (admin_sort_groups v) as X eqn:HX.
  assert (admin_roles X = role_list (Admin.Role v)) as HXr by (subst X; by autorewrite with attrs).
  assert (Admin.Username X = k) as HXn by (subst X; by autorewrite with attrs).
  clear HX. inv_bind H. spec_ok E (admin_groups_restore k (admin_groupnames u0) (admin_groupnames X)
    (h <| DB.roles := mr0 |> <| DB.roles := mr |> <| DB.groups := mg0 |>)).
  destruct Hs as [(_ & mg & -> & Hg1 & Hg2 & Hg3)|(e & ? & ? & ? & _)]; [|done].
  unfold upd, modify, mbind, M_bind, mret, M_ret in H. injection H as <- <-.
  simpl in Hr01, Hr02, Hg1, Hg2, Hg3, Hg01, Hg02, Hr1, Hr2, Hr3. rewrite <-HXr in *.
  rewrite Hr02 in Hr3. rewrite Hg02 in Hg3. change (role_list (Admin.Role u0)) with (admin_roles u0) in Hr3.
  rewrite (same_but_dom _ _ _ _ Hr01) in Hr2. rewrite (same_but_dom _ _ _ _ Hg01) in Hg2.
  pose proof (elem_of_dom_2 _ _ _ Hu0) as Hd.
  wf_tac W.
  - rewrite HXn. by eapply table_insert_same.
  - rewrite Hr3. eapply linked_replace; rewrite ?dom_fmap_L; [done|by apply lookup_attr|done].
  - rewrite Hg3. eapply linked_replace; rewrite ?dom_fmap_L; [done|by apply lookup_attr|done].
Qed.

Lemma deleteAdmin_wf a h x h' : wf h → deleteAdmin a h = (Ok x, h') → wf h'.
Proof.
  intros W [_ H]%locked_Ok. inv_bind H. apply ask_Ok in E as [E ->].
  apply adminExists_Ok in E as (u0 & Hu0 & ->). autorewrite with copies attrs in H.
  pose proof (keyed_key _ _ _ _ _ (wf_admins _ W) Hu0) as Hk. rewrite Hk in H. set (k := Admin.Username a) in *.
  inv_bind H. spec_ok E (removeAdminFromRole_spec k (Admin.Role u0) h).
  destruct Hs as (_ & mr & -> & Hr1 & Hr2).
  inv_bind H. spec_ok E (admin_groups_remove k (admin_groupnames u0) (h <| DB.roles := mr |>)).
  destruct Hs as (_ & mg & -> & Hg1 & Hg2).
  unfold upd, modify, mbind, M_bind, mret, M_ret in H. injection H as <- <-.
  match goal with |- context [deleteAPIKeysWithAdmin k ?s] => destruct (deleteAPIKeysWithAdmin_eq k s) as (mk & ik & -> & Hmk & Hik) end.
  simpl in Hmk, Hik, Hr1, Hr2, Hg1, Hg2.
  change (role_list (Admin.Role u0)) with (admin_roles u0) in Hr2.
  wf_tac W.
  - by eapply table_delete.
  - rewrite Hik, Hmk. by apply (table_purged _ _ (fun v => APIKey.Admin v =s k)).
  - rewrite Hr2. eapply linked_drop; [done|by apply lookup_attr].
  - rewrite Hg2. eapply linked_drop; [done|by apply lookup_attr].
  - rewrite Hmk. by eapply (owners_purged _ (fun v => APIKey.Admin v =s k)).
  - rewrite Hmk, dom_delete_L. eapply (owners_purged _ (fun v => APIKey.Admin v =s k)); [done|].
    intros v Hv. by apply purge_keeps.
Qed.

End preserve.
