(* ===== verification/MemoryObjects.v ===== *)
(** Groups, folders, roles, API keys, shares, event actions and rules, IP list
    entries and configurations: their methods preserve the invariant. *)
From S2P Require Import Prelude FsConfig Entities Links Tables MemoryCore MemoryOps MemoryInv.
Open Scope Z_scope.

Section preserve.
Context `{!Validate User.t, !Validate Group.t, !Validate Admin.t, !Validate Role.t,
  !Validate BaseVirtualFolder.t, !Validate APIKey.t, !Validate Share.t, !Validate BaseEventAction.t,
  !Validate EventRule.t, !Validate IPListEntry.t, !Validate Configs.t}.
Context {VN : ValidNames}.
Implicit Types now : nat → Z.

Ltac finish H := unfold setLastRuleUpdate, upd, modify, mbind, M_bind, mret, M_ret in H; injection H as <- <-.

(** * Groups *)

Lemma groupExists_Ok name h g : groupExistsInternal name h = Ok g →
  ∃ g0, DB.groups h !! name = Some g0 ∧ g = group_getACopy g0.
Proof. apply existsIn_Ok. Qed.

Lemma addGroup_wf now g h g' h' : wf h → addGroup now g h = (Ok g', h') → wf h'.
Proof.
  intros W H. unfold addGroup in H.
  inv_bind H. apply ask_Ok in E as [Hval ->]. rename a into v. pose proof (valid_groupname _ _ _ Hval) as Hname.
  apply locked_Ok in H as [_ H].
  inv_bind H. apply check_absent_Ok in E as [Hnew ->]. apply existsIn_absent in Hnew.
  inv_bind H. unfold gets in E. injection E as <- <-. cbv zeta in H.
  remember (group_sort_folders (group_created now (getNextGroupID h) v)) as X eqn:HX.
  assert (Group.Name X = Group.Name v) as HXn by (subst X; by autorewrite with attrs).
  assert (Group.Users (group_getACopy X) = []) as HXu by by subst X.
  assert (Group.Admins (group_getACopy X) = []) as HXa by by subst X.
  clear HX. rewrite <-HXn in *.
  inv_bind H. spec_ok E (group_folders_undo (Group.Name X) (group_foldernames X) h Hname (proj2 (wf_vfolders _ W))).
  destruct Hs as [(_ & mf & -> & Hf1 & Hf2 & Hf3)|(e & ? & ? & ? & _)]; [|done].
  finish H. wf_tac W; rewrite ?HXu, ?HXa.
  - by apply table_insert_new.
  - by apply linked_fresh_r.
  - by apply linked_fresh_r.
  - rewrite Hf3. apply linked_add; rewrite ?dom_fmap_L; done.
Qed.

Lemma updateGroup_wf now g h g' h' : wf h → updateGroup now g h = (Ok g', h') → wf h'.
Proof.
  intros W H. unfold updateGroup in H.
  inv_bind H. apply ask_Ok in E as [Hval ->]. rename a into v. pose proof (valid_groupname _ _ _ Hval) as Hname.
  apply locked_Ok in H as [_ H]. inv_bind H. apply ask_Ok in E as [E ->].
  apply groupExists_Ok in E as (g0 & Hg0 & ->). cbv zeta in H. autorewrite with copies attrs in H.
  pose proof (keyed_key _ _ _ _ _ (wf_groups _ W) Hg0) as Hk. rewrite Hk in H.
  pose proof (proj2 (wf_vfolders _ W)) as Hkf. set (k := Group.Name v) in *.
  inv_bind H. spec_ok E (group_folders_remove k (group_foldernames g0) h Hname Hkf).
  destruct Hs as (_ & mf0 & -> & Hf01 & Hf02).
  inv_bind H. spec_ok E (group_folders_restore k (group_foldernames g0) (group_foldernames (group_sort_folders v))
    (h <| DB.vfolders := mf0 |>)).
  destruct Hs as [(_ & mf & -> & Hf1 & Hf2 & Hf3)|(e & ? & ? & ? & _)]; [|done].
  simpl in Hf1, Hf2, Hf3. rewrite Hf02 in Hf3. rewrite (same_but_dom _ _ _ _ Hf01) in Hf2.
  remember (group_carry_over now (group_getACopy g0) (group_sort_folders v)) as X eqn:HX.
  assert (Group.Name X = k) as HXn by (subst X; by autorewrite with attrs).
  assert (Group.Users (group_getACopy X) = Group.Users g0) as HXu by by subst X.
  assert (Group.Admins (group_getACopy X) = Group.Admins g0) as HXa by by subst X.
  assert (group_foldernames X = group_foldernames (group_sort_folders v)) as HXf by (subst X; by autorewrite with attrs).
  rewrite <-HXf in *. clear HX HXf.
  pose proof (elem_of_dom_2 _ _ _ Hg0) as Hd.
  finish H. wf_tac W; try (by eapply linked_put_r).
  - rewrite HXn. by eapply table_insert_same.
  - rewrite Hf3. eapply linked_replace; rewrite ?dom_fmap_L; [done|by apply lookup_attr|done].
Qed.

(** * Loops that read an object, change it and store it under its name *)

Definition store_at {B} (name : B → string) (g : B → B) (key : string) : M (gmap string B) unit := fun m =>
  match m !! key with Some r => (Ok tt, <[name r := g r]> m) | None => (Ok tt, m) end.

Lemma store_at_keyed {B} (name : B → string) g key m :
  keyed (name <$> m) → store_at name g key m = rewrite_at g key m.
Proof.
  intros Hk. unfold store_at, rewrite_at. destruct (m !! key) as [r|] eqn:Hr; [|done].
  by rewrite (Hk key (name r)) by (by apply lookup_attr).
Qed.

Section store_loop.
Context {B : Type} (f : DB.t → gmap string B) `{!Setter f} `{!Lens f} (name : B → string) (g : B → B).
Hypothesis g_name : ∀ r, name (g r) = name r.

Lemma store_keyed_same m m' : same_but g no_list m m' → keyed (name <$> m) → keyed (name <$> m').
Proof. intros H Hk. by rewrite (H _ name). Qed.

Lemma store_loop_removes getl x ks h : (∀ r, getl (g r) = without x (getl r)) → keyed (name <$> f h) →
  remove_outcome f g getl no_list x ks h (for_each (fun k => on f (store_at name g k)) ks h).1
    (for_each (fun k => on f (store_at name g k)) ks h).2.
Proof.
  intros Hg. apply (step_for_each_remove f g getl no_list (fun m => keyed (name <$> m)) x).
  - apply store_keyed_same.
  - intros key m Hm. rewrite store_at_keyed by done.
    by apply (rewrite_at_removes g getl (fun m => keyed (name <$> m)) x).
Qed.

Lemma store_loop_same ks h : keyed (name <$> f h) →
  same_outcome f g no_list h (for_each (fun k => on f (store_at name g k)) ks h).1
    (for_each (fun k => on f (store_at name g k)) ks h).2.
Proof.
  apply (step_for_each_same f g no_list (fun m => keyed (name <$> m)) store_keyed_same).
  intros key m Hm. rewrite store_at_keyed by done. apply rewrite_at_same.
Qed.

(** the loops as the methods write them *)
Lemma store_loop_eq what copy (g0 : B → B) ks h :
  (∀ r, g r = g0 (copy r)) →
  for_each (fun key => try_catch (ask (fun h => existsIn what copy (f h) key))
    (fun r => upd f <[name (g0 r) := g0 r]>) (fun _ => mret tt)) ks h =
  for_each (fun k => on f (store_at name g k)) ks h.
Proof.
  intros Hg. apply for_each_ext. intros k s. unfold try_catch, ask, existsIn, on, store_at.
  destruct (f s !! k) as [r|] eqn:Hr.
  - unfold upd, modify. by rewrite <-Hg, g_name, lens_mod.
  - by rewrite lens_id.
Qed.
End store_loop.

(** The loop of [deleteGroup] over the admins of the group. *)
Definition leave_group (groupname : string) (a0 : Admin.t) : Admin.t :=
  let admin := admin_getACopy a0 in
  admin <| Admin.Groups := List.filter (fun g => negb (AdminGroupMapping.Name g =s groupname)) (Admin.Groups admin) |>.

Lemma leave_group_names groupname a0 :
  admin_groupnames (leave_group groupname a0) = without groupname (admin_groupnames a0).
Proof.
  rewrite <-(admin_groupnames_copy a0). unfold admin_groupnames, leave_group.
  change (Admin.Groups (admin_getACopy a0 <| Admin.Groups := ?x |>)) with x.
  induction (Admin.Groups (admin_getACopy a0)) as [|g l IH]; [done|]. simpl.
  unfold without in *. simpl. destruct (AdminGroupMapping.Name g =s groupname); simpl; [done|by f_equal].
Qed.

Lemma admins_leave_group g ks h : keyed (Admin.Username <$> DB.admins h) →
  remove_outcome DB.admins (leave_group g) admin_groupnames no_list g ks h
    (for_each (removeGroupFromAdminMapping g) ks h).1 (for_each (removeGroupFromAdminMapping g) ks h).2.
Proof.
  intros Hk. rewrite (for_each_ext _ (fun k => on DB.admins (store_at Admin.Username (leave_group g) k))).
  2:{ intros k s. unfold removeGroupFromAdminMapping, adminExistsInternal, existsIn, on, store_at.
      destruct (DB.admins s !! k); [done|]. by destruct s. }
  apply store_loop_removes; [apply _|done|apply leave_group_names|done].
Qed.

Lemma deleteGroup_wf g h x h' : wf h → deleteGroup g h = (Ok x, h') → wf h'.
Proof.
  intros W [_ H]%locked_Ok. inv_bind H. apply ask_Ok in E as [E ->].
  apply groupExists_Ok in E as (g0 & Hg0 & ->).
  pose proof (keyed_key _ _ _ _ _ (wf_groups _ W) Hg0) as Hk.
  case_bool_decide as Hu; [done|]. change (Group.Users (group_getACopy g0)) with (Group.Users g0) in Hu.
  change (Group.Admins (group_getACopy g0)) with (Group.Admins g0) in H.
  autorewrite with copies attrs in H. rewrite Hk in H. set (k := Group.Name g) in *.
  assert (Group.Users g0 = []) as Hnil by (destruct (Group.Users g0); [done|simpl in Hu; lia]).
  assert (k ≠ "") as Hname.
  { intros Hk0. apply (wf_no_empty_group _ W). rewrite <-Hk0. by apply elem_of_dom_2 in Hg0. }
  inv_bind H. spec_ok E (group_folders_remove k (group_foldernames g0) h Hname (proj2 (wf_vfolders _ W))).
  destruct Hs as (_ & mf & -> & Hf1 & Hf2).
  inv_bind H. spec_ok E (admins_leave_group k (Group.Admins g0) (h <| DB.vfolders := mf |>) (proj2 (wf_admins _ W))).
  destruct Hs as (_ & ma & -> & Ha1 & Ha2). simpl in Ha1, Ha2.
  finish H. wf_tac W.
  - by eapply table_delete.
  - rewrite <-(remove_edges_nil k (user_groupnames <$> DB.users h)). rewrite <-Hnil. by apply linked_drop_r.
  - rewrite Ha2. by apply linked_drop_r.
  - rewrite Hf2. eapply linked_drop; [done|by apply lookup_attr].
Qed.

(** * Folders *)

Lemma folderExists_Ok name h f : folderExistsInternal name h = Ok f → DB.vfolders h !! name = Some f.
Proof. intros H. by apply existsIn_Ok in H as (f0 & Hf & ->). Qed.

Lemma put_folder_wf h k f0 f : wf h → DB.vfolders h !! k = Some f0 → BaseVirtualFolder.Name f = k →
  BaseVirtualFolder.Users f = BaseVirtualFolder.Users f0 → BaseVirtualFolder.Groups f = BaseVirtualFolder.Groups f0 →
  wf (h <| DB.vfolders ::= <[k:=f]> |>).
Proof.
  intros W Hk Hn Hu Hg. wf_tac W; try (by eapply linked_put_r). rewrite Hn. by eapply table_insert_same.
Qed.

Lemma folder_quota_attrs now n sz reset f :
  let f' := folder_add_quota now n sz reset f in
  BaseVirtualFolder.Name f' = BaseVirtualFolder.Name f ∧ BaseVirtualFolder.Users f' = BaseVirtualFolder.Users f ∧
  BaseVirtualFolder.Groups f' = BaseVirtualFolder.Groups f.
Proof. by destruct reset. Qed.

Lemma updateFolderQuota_wf now name n sz reset h x h' : wf h →
  updateFolderQuota now name n sz reset h = (Ok x, h') → wf h'.
Proof.
  intros W [_ H]%locked_Ok. inv_bind H. apply ask_Ok in E as [E ->]. apply folderExists_Ok in E.
  destruct (folder_quota_attrs now n sz reset a) as (H1 & H2 & H3). injection H as <- <-.
  eapply put_folder_wf; [done|done| |done|done]. rewrite H1. by apply (keyed_key _ _ _ _ _ (wf_vfolders _ W)).
Qed.

Lemma folder_GetACopy_attrs f : BaseVirtualFolder.Name (folder_GetACopy f) = BaseVirtualFolder.Name f ∧
  BaseVirtualFolder.Users (folder_GetACopy f) = BaseVirtualFolder.Users f ∧
  BaseVirtualFolder.Groups (folder_GetACopy f) = BaseVirtualFolder.Groups f.
Proof. done. Qed.

Lemma addFolder_wf f h f' h' : wf h → addFolder f h = (Ok f', h') → wf h'.
Proof.
  intros W H. unfold addFolder in H.
  inv_bind H. apply ask_Ok in E as [_ ->]. rename a into v. apply locked_Ok in H as [_ H].
  inv_bind H. apply check_absent_Ok in E as [Hnew ->]. apply existsIn_absent in Hnew.
  inv_bind H. unfold gets in E. injection E as <- <-. cbv zeta in H.
  remember (folder_created (getNextFolderID h) v) as X eqn:HX.
  assert (BaseVirtualFolder.Name X = BaseVirtualFolder.Name v) as HXn by by subst X.
  assert (BaseVirtualFolder.Users X = []) as HXu by by subst X.
  assert (BaseVirtualFolder.Groups X = []) as HXg by by subst X.
  clear HX. rewrite <-HXn in *. finish H.
  destruct (folder_GetACopy_attrs X) as (Hc1 & Hc2 & Hc3). remember (folder_GetACopy X) as Y. clear HeqY.
  rewrite <-Hc1 in *. wf_tac W; rewrite ?Hc2, ?Hc3, ?HXu, ?HXg; try (by apply linked_fresh_r).
  by apply table_insert_new.
Qed.

(** The loop of [updateFolder] over the users of the folder. *)
Definition refresh_user (folder : BaseVirtualFolder.t) (user : User.t) : User.t :=
  user <| User.VirtualFolders ::= fmap (refresh_folder folder) |>.

Lemma refresh_user_folders folder u : user_foldernames (refresh_user folder u) = user_foldernames u.
Proof.
  unfold user_foldernames, refresh_user. simpl. rewrite <-list_fmap_compose. apply list_fmap_ext.
  intros i vf _. unfold compose, refresh_folder. destruct (_ =s _) eqn:Hn; [|done].
  by apply String.eqb_eq in Hn as <-.
Qed.
Lemma refresh_user_groups folder u : user_groupnames (refresh_user folder u) = user_groupnames u.
Proof. done. Qed.
Lemma refresh_user_roles folder u : user_roles (refresh_user folder u) = user_roles u.
Proof. done. Qed.

#[local] Hint Rewrite refresh_user_folders refresh_user_groups refresh_user_roles : copies.

Lemma updateFolder_wf f h f' h' : wf h → updateFolder f h = (Ok f', h') → wf h'.
Proof.
  intros W H. unfold updateFolder in H.
  inv_bind H. apply ask_Ok in E as [_ ->]. rename a into v. apply locked_Ok in H as [_ H].
  inv_bind H. apply ask_Ok in E as [E ->]. apply folderExists_Ok in E. rename a into f0. cbv zeta in H.
  remember (folder_carry_over f0 v) as X eqn:HX.
  assert (BaseVirtualFolder.Name X = BaseVirtualFolder.Name v) as HXn by by subst X.
  assert (BaseVirtualFolder.Users X = BaseVirtualFolder.Users f0) as HXu by by subst X.
  assert (BaseVirtualFolder.Groups X = BaseVirtualFolder.Groups f0) as HXg by by subst X.
  clear HX. inv_bind H. apply upd_Ok in E0 as ->.
  destruct (folder_GetACopy_attrs X) as (Hc1 & Hc2 & Hc3).
  assert (wf (h <| DB.vfolders ::= <[BaseVirtualFolder.Name v := folder_GetACopy X]> |>)) as W1.
  { eapply put_folder_wf; [done..| | |]; congruence. }
  rewrite <-HXn in W1. remember (h <| DB.vfolders ::= _ |>) as h1. clear Heqh1 W E.
  inv_bind H. rewrite (store_loop_eq DB.users User.Username (fun r => refresh_user X (user_getACopy r))
    (fun _ => eq_refl) "username" user_getACopy (refresh_user X)) in E by done.
  spec_ok E (store_loop_same DB.users User.Username (fun r => refresh_user X (user_getACopy r)) (fun _ => eq_refl)
    (BaseVirtualFolder.Users X) h1 (proj2 (wf_users _ W1))).
  destruct Hs as (_ & mu & -> & Hu). injection H as <- <-. wf_tac W1.
Qed.

(** The loops of [deleteFolder] over the users and groups of the folder. *)
Definition user_drop_folder (name : string) (user : User.t) : User.t :=
  user <| User.VirtualFolders ::= drop_folder name |>.
Definition group_drop_folder (name : string) (group : Group.t) : Group.t :=
  group <| Group.VirtualFolders ::= drop_folder name |>.

Lemma drop_folder_names name l : vfolder_Name <$> drop_folder name l = without name (vfolder_Name <$> l).
Proof.
  induction l as [|f l IH]; [done|]. unfold drop_folder, without in *. simpl.
  rewrite String.eqb_sym. destruct (name =s vfolder_Name f) eqn:Hn; simpl.
  - by rewrite String.eqb_sym, Hn.
  - rewrite String.eqb_sym, Hn. simpl. by f_equal.
Qed.
Lemma user_drop_names name u : user_foldernames (user_drop_folder name (user_getACopy u)) = without name (user_foldernames u).
Proof. rewrite <-(user_foldernames_copy u). apply drop_folder_names. Qed.
Lemma group_drop_names name g : group_foldernames (group_drop_folder name (group_getACopy g)) = without name (group_foldernames g).
Proof. rewrite <-(group_foldernames_copy g). apply drop_folder_names. Qed.

Lemma user_drop_groups name u : user_groupnames (user_drop_folder name u) = user_groupnames u.
Proof. done. Qed.
Lemma user_drop_roles name u : user_roles (user_drop_folder name u) = user_roles u.
Proof. done. Qed.
#[local] Hint Rewrite user_drop_groups user_drop_roles : copies.

Lemma deleteFolder_wf f h x h' : wf h → deleteFolder f h = (Ok x, h') → wf h'.
Proof.
  intros W [_ H]%locked_Ok. inv_bind H. apply ask_Ok in E as [E ->]. apply folderExists_Ok in E. rename a into f0.
  pose proof (keyed_key _ _ _ _ _ (wf_vfolders _ W) E) as Hk. cbv zeta in H. rewrite Hk in H.
  set (k := BaseVirtualFolder.Name f) in *. inv_bind H.
  rewrite (store_loop_eq DB.users User.Username (fun r => user_drop_folder k (user_getACopy r))
    (fun _ => eq_refl) "username" user_getACopy (user_drop_folder k)) in E0 by done.
  spec_ok E0 (store_loop_removes DB.users User.Username (fun r => user_drop_folder k (user_getACopy r)) (fun _ => eq_refl)
    user_foldernames k (BaseVirtualFolder.Users f0) h (user_drop_names k) (proj2 (wf_users _ W))).
  destruct Hs as (_ & mu & -> & Hu1 & Hu2). inv_bind H.
  rewrite (store_loop_eq DB.groups Group.Name (fun r => group_drop_folder k (group_getACopy r))
    (fun _ => eq_refl) "group" group_getACopy (group_drop_folder k)) in E0 by done.
  spec_ok E0 (store_loop_removes DB.groups Group.Name (fun r => group_drop_folder k (group_getACopy r)) (fun _ => eq_refl)
    group_foldernames k (BaseVirtualFolder.Groups f0) (h <| DB.users := mu |>) (group_drop_names k) (proj2 (wf_groups _ W))).
  destruct Hs as (_ & mg & -> & Hg1 & Hg2). simpl in Hg1, Hg2.
  finish H. wf_tac W.
  - by eapply table_delete.
  - rewrite Hu2. by apply linked_drop_r.
  - rewrite Hg2. by apply linked_drop_r.
Qed.

(** * Roles *)

Lemma roleExists_Ok name h r : roleExistsInternal name h = Ok r →
  ∃ r0, DB.roles h !! name = Some r0 ∧ r = role_getACopy r0.
Proof. apply existsIn_Ok. Qed.

Lemma addRole_wf now r h r' h' : wf h → addRole now r h = (Ok r', h') → wf h'.
Proof.
  intros W H. unfold addRole in H.
  inv_bind H. apply ask_Ok in E as [_ ->]. rename a into v. apply locked_Ok in H as [_ H].
  inv_bind H. apply check_absent_Ok in E as [Hnew ->]. apply existsIn_absent in Hnew.
  inv_bind H. unfold gets in E. injection E as <- <-. cbv zeta in H. finish H.
  wf_tac W; try (by apply linked_fresh_r). by apply table_insert_new.
Qed.

Lemma updateRole_wf now r h r' h' : wf h → updateRole now r h = (Ok r', h') → wf h'.
Proof.
  intros W H. unfold updateRole in H.
  inv_bind H. apply ask_Ok in E as [_ ->]. rename a into v. apply locked_Ok in H as [_ H].
  inv_bind H. apply ask_Ok in E as [E ->]. apply roleExists_Ok in E as (r0 & Hr & ->). finish H.
  wf_tac W; try (by eapply linked_put_r). by eapply table_insert_same.
Qed.

(** The loop of [deleteRole] over the users of the role. *)
Definition leave_role (name : string) (u0 : User.t) : User.t :=
  let user := user_getACopy u0 in
  if User.Role user =s name then user <| User.Role := "" |> else u0.

Lemma leave_role_roles name u : user_roles (leave_role name u) = without name (user_roles u).
Proof.
  unfold leave_role, user_roles, role_list. simpl. destruct (User.Role u =s name) eqn:Hn; simpl.
  - apply String.eqb_eq in Hn as ->. destruct (name =s ""); [done|]. unfold without. simpl. by rewrite String.eqb_refl.
  - destruct (User.Role u =s ""); [done|]. unfold without. simpl. by rewrite Hn.
Qed.
Lemma leave_role_name name u : User.Username (leave_role name u) = User.Username u.
Proof. unfold leave_role. by destruct (_ =s _). Qed.
Lemma leave_role_groups name u : user_groupnames (leave_role name u) = user_groupnames u.
Proof. unfold leave_role. destruct (_ =s _); [|done]. apply (user_groupnames_copy u). Qed.
Lemma leave_role_folders name u : user_foldernames (leave_role name u) = user_foldernames u.
Proof. unfold leave_role. destruct (_ =s _); [|done]. apply (user_foldernames_copy u). Qed.
#[local] Hint Rewrite leave_role_name leave_role_groups leave_role_folders : copies.

Lemma users_leave_role name (loop : prov unit) ks h :
  loop = for_each (fun username =>
    try_catch (ask (userExistsInternal username))
      (fun user => if User.Role user =s name then upd DB.users <[username := user <| User.Role := "" |>]> else mret tt)
      (fun _ => mret tt)) ks →
  remove_outcome DB.users (leave_role name) user_roles no_list name ks h (loop h).1 (loop h).2.
Proof.
  intros ->. rewrite (for_each_ext _ (fun k => on DB.users (rewrite_at (leave_role name) k))).
  - apply (step_for_each_remove DB.users _ _ _ anything); [apply any_same| |done].
    apply rewrite_at_removes, leave_role_roles.
  - intros k s. unfold try_catch, ask, userExistsInternal, existsIn, on, rewrite_at, leave_role.
    destruct (DB.users s !! k) as [r|] eqn:Hr; [|by destruct s]. destruct (_ =s _); [by destruct s|].
    rewrite insert_id by done. by destruct s.
Qed.

Lemma deleteRole_wf r h x h' : wf h → deleteRole r h = (Ok x, h') → wf h'.
Proof.
  intros W [_ H]%locked_Ok. inv_bind H. apply ask_Ok in E as [E ->]. apply roleExists_Ok in E as (r0 & Hr & ->).
  case_bool_decide as Hu; [done|]. set (k := Role.Name r) in *.
  change (Role.Users (role_getACopy r0)) with (Role.Users r0) in H.
  assert (Role.Admins r0 = []) as Hnil by (change (Role.Admins (role_getACopy r0)) with (Role.Admins r0) in Hu;
    destruct (Role.Admins r0); [done|simpl in Hu; lia]).
  inv_bind H. spec_ok E (users_leave_role k _ (Role.Users r0) h eq_refl).
  destruct Hs as (_ & mu & -> & Hu1 & Hu2). finish H. wf_tac W.
  - by eapply table_delete.
  - rewrite Hu2. by apply linked_drop_r.
  - rewrite <-(remove_edges_nil k (admin_roles <$> DB.admins h)), <-Hnil. by apply linked_drop_r.
Qed.

End preserve.
