(* ===== verification/MemoryShares.v ===== *)
(** API keys, shares, IP list entries, configurations and the life cycle of the
    provider, then event actions and event rules: their methods preserve the
    invariant. *)
From S2P Require Import Prelude FsConfig Entities Links Tables MemoryCore MemoryOps MemoryInv.
Open Scope Z_scope.

Section preserve.
Context `{!Validate User.t, !Validate Group.t, !Validate Admin.t, !Validate Role.t,
  !Validate BaseVirtualFolder.t, !Validate APIKey.t, !Validate Share.t, !Validate BaseEventAction.t,
  !Validate EventRule.t, !Validate IPListEntry.t, !Validate Configs.t}.
Implicit Types now : nat → Z.

Ltac finish H := unfold setLastRuleUpdate, upd, modify, mbind, M_bind, mret, M_ret in H; injection H as <- <-.

(** * Owners *)

Lemma owners_put (o : gmap string string) s k v : owners_ok o s → v = "" ∨ v ∈ s → owners_ok (<[k:=v]> o) s.
Proof.
  intros H Hv i x. destruct (decide (i = k)) as [->|]; [rewrite lookup_insert_eq|rewrite lookup_insert_ne by done].
  - by intros [= <-].
  - apply H.
Qed.
Lemma owners_delete (o : gmap string string) s k : owners_ok o s → owners_ok (delete k o) s.
Proof. intros H i x [_ Hi]%lookup_delete_Some. by apply (H i). Qed.

Lemma existsIn_dom {B} what copy (m : gmap string B) key : is_ok (existsIn what copy m key) = true → key ∈ dom m.
Proof. unfold existsIn. rewrite elem_of_dom. by destruct (m !! key). Qed.

Lemma check_owner_Ok {A} name what (found : string → DB.t → res A) h a h' :
  check_owner name what found h = (Ok a, h') → h' = h ∧ (name = "" ∨ is_ok (found name h) = true).
Proof.
  unfold check_owner. destruct (name =s "") eqn:Hn; simpl.
  - apply String.eqb_eq in Hn. intros [= <- <-]. split; [done|by left].
  - destruct (is_ok (found name h)); simpl; intros H; [|done]. injection H as <- <-. split; [done|by right].
Qed.

Lemma check_share_user_Ok u h a h' : check_share_user u h = (Ok a, h') → h' = h ∧ u ∈ dom (DB.users h).
Proof.
  unfold check_share_user. destruct (is_ok _) eqn:Hu; [|done]. intros [= <- <-]. split; [done|].
  by apply existsIn_dom in Hu.
Qed.

(** * API keys *)

Lemma apiKeyExists_Ok k h v : apiKeyExistsInternal k h = Ok v →
  ∃ v0, DB.apiKeys h !! k = Some v0 ∧ v = apikey_getACopy v0.
Proof. apply existsIn_Ok. Qed.

Lemma owner_found (o : string) {B} (m : gmap string B) what copy :
  o = "" ∨ is_ok (existsIn what copy m o) = true → o = "" ∨ o ∈ dom m.
Proof. intros [?|H]; [by left|right]. by apply existsIn_dom in H. Qed.

Lemma put_apikey_wf h k v0 v : wf h → DB.apiKeys h !! k = Some v0 → APIKey.KeyID v = k →
  APIKey.User v = APIKey.User v0 → APIKey.Admin v = APIKey.Admin v0 →
  wf (h <| DB.apiKeys ::= <[APIKey.KeyID v:=v]> |>).
Proof.
  intros W Hv Hk Hu Ha. rewrite Hk. wf_tac W; rewrite ?Hk, ?Hu, ?Ha.
  - by eapply table_insert_same.
  - apply owners_put; [done|]. eapply wf_key_user. by apply (lookup_attr APIKey.User).
  - apply owners_put; [done|]. eapply wf_key_admin. by apply (lookup_attr APIKey.Admin).
Qed.

Lemma updateAPIKeyLastUse_wf now k h a h' : wf h → updateAPIKeyLastUse now k h = (Ok a, h') → wf h'.
Proof.
  intros W [_ H]%locked_Ok. inv_bind H. apply ask_Ok in E as [E ->]. apply apiKeyExists_Ok in E as (v & Hv & ->).
  pose proof (keyed_key _ _ _ _ _ (wf_apiKeys _ W) Hv) as Hk. cbv zeta in H. apply upd_Ok in H as ->.
  by eapply put_apikey_wf.
Qed.

Lemma addAPIKey_wf now k h k' h' : wf h → addAPIKey now k h = (Ok k', h') → wf h'.
Proof.
  intros W H. unfold addAPIKey in H.
  inv_bind H. apply ask_Ok in E as [_ ->]. rename a into v. apply locked_Ok in H as [_ H].
  inv_bind H. apply check_absent_Ok in E as [Hnew ->]. apply existsIn_absent in Hnew.
  inv_bind H. apply check_owner_Ok in E as [-> Hu]. inv_bind H. apply check_owner_Ok in E as [-> Ha].
  apply owner_found in Hu. apply owner_found in Ha. finish H. wf_tac W; simpl; [|by apply owners_put..].
  by apply table_insert_new.
Qed.

Lemma updateAPIKey_wf now k h k' h' : wf h → updateAPIKey now k h = (Ok k', h') → wf h'.
Proof.
  intros W H. unfold updateAPIKey in H.
  inv_bind H. apply ask_Ok in E as [_ ->]. rename a into v. apply locked_Ok in H as [_ H].
  inv_bind H. apply ask_Ok in E as [E ->]. apply apiKeyExists_Ok in E as (v0 & Hv & ->).
  pose proof (keyed_key _ _ _ _ _ (wf_apiKeys _ W) Hv) as Hk.
  inv_bind H. apply check_owner_Ok in E as [-> Hu]. inv_bind H. apply check_owner_Ok in E as [-> Ha].
  apply owner_found in Hu. apply owner_found in Ha. finish H.
  set (X := apikey_carry_over now (apikey_getACopy v0) v).
  change (APIKey.KeyID X) with (APIKey.KeyID v0). wf_tac W; simpl; rewrite ?Hk; [|by apply owners_put..].
  by eapply table_insert_same.
Qed.

Lemma deleteAPIKey_wf k h x h' : wf h → deleteAPIKey k h = (Ok x, h') → wf h'.
Proof.
  intros W [_ H]%locked_Ok. inv_bind H. apply ask_Ok in E as [E ->]. finish H.
  wf_tac W; simpl; [by eapply table_delete|by apply owners_delete..].
Qed.

(** * Shares *)

Lemma shareExists_Ok id u h v : shareExistsInternal id u h = Ok v →
  ∃ v0, DB.shares h !! id = Some v0 ∧ v = share_getACopy v0.
Proof.
  unfold shareExistsInternal. destruct (DB.shares h !! id) as [v0|]; [|done].
  destruct (_ && _); intros [= <-]; eauto.
Qed.

Lemma share_times_attrs now i s : Share.ShareID (share_times now i s) = Share.ShareID s ∧
  Share.Username (share_times now i s) = Share.Username s.
Proof. unfold share_times. destruct (Share.CreatedAt s =? 0); simpl; by destruct (Share.UpdatedAt _ =? 0). Qed.
Lemma share_created_attrs now s : Share.ShareID (share_created now s) = Share.ShareID s ∧
  Share.Username (share_created now s) = Share.Username s.
Proof. unfold share_created. by destruct (negb _). Qed.
Lemma share_carry_attrs now s0 s : Share.ShareID (share_carry_over now s0 s) = Share.ShareID s0 ∧
  Share.Username (share_carry_over now s0 s) = Share.Username s.
Proof. unfold share_carry_over. simpl. by destruct (negb _). Qed.
Lemma share_copy_attrs s : Share.ShareID (share_getACopy s) = Share.ShareID s ∧
  Share.Username (share_getACopy s) = Share.Username s.
Proof. done. Qed.

(** The identifier of a new share must be free: [addShare] checks it among the
    shares of the same user only. *)
Lemma addShare_wf now s h s' h' : wf h → (∀ v, validate s h = Ok v → Share.ShareID v ∉ dom (DB.shares h)) →
  addShare now s h = (Ok s', h') → wf h'.
Proof.
  intros W Hfree H. unfold addShare in H.
  inv_bind H. apply ask_Ok in E as [Hv ->]. rename a into v. specialize (Hfree v Hv). apply locked_Ok in H as [_ H].
  inv_bind H. apply check_absent_Ok in E as [_ ->]. inv_bind H. apply check_share_user_Ok in E as [-> Hu].
  cbv zeta in H. destruct (share_times_attrs now 1 (share_created now v)) as [H1 H2].
  destruct (share_created_attrs now v) as [H3 H4]. rewrite H3 in H1. rewrite H4 in H2. clear H3 H4.
  remember (share_times now 1 (share_created now v)) as X. clear HeqX. finish H.
  destruct (share_copy_attrs X) as [H3 H4]. remember (share_getACopy X) as Y. clear HeqY.
  rewrite <-H1 in Hfree. wf_tac W; rewrite ?H4, ?H2; [|by apply owners_put; [|right]]. by apply table_insert_new.
Qed.

Lemma updateShare_wf now s h s' h' : wf h → updateShare now s h = (Ok s', h') → wf h'.
Proof.
  intros W H. unfold updateShare in H.
  inv_bind H. apply ask_Ok in E as [_ ->]. rename a into v. apply locked_Ok in H as [_ H].
  inv_bind H. apply ask_Ok in E as [E ->]. apply shareExists_Ok in E as (v0 & Hv & ->).
  pose proof (keyed_key _ _ _ _ _ (wf_shares _ W) Hv) as Hk.
  inv_bind H. apply check_share_user_Ok in E as [-> Hu]. cbv zeta in H.
  destruct (share_times_attrs now 1 (share_carry_over now (share_getACopy v0) v)) as [H1 H2].
  destruct (share_carry_attrs now (share_getACopy v0) v) as [H3 H4]. rewrite H3 in H1. rewrite H4 in H2. clear H3 H4.
  remember (share_times now 1 _) as X. clear HeqX. destruct (share_copy_attrs v0) as [H3 _].
  rewrite H3, Hk in H1. clear H3. finish H.
  destruct (share_copy_attrs X) as [H3 H4]. remember (share_getACopy X) as Y. clear HeqY.
  wf_tac W; rewrite ?H4, ?H2, ?H3, ?H1; [|by apply owners_put; [|right]]. by eapply table_insert_same.
Qed.

Lemma deleteShare_wf s h x h' : wf h → deleteShare s h = (Ok x, h') → wf h'.
Proof.
  intros W [_ H]%locked_Ok. inv_bind H. apply ask_Ok in E as [E ->]. finish H.
  wf_tac W; simpl; [by eapply table_delete|by apply owners_delete].
Qed.

Lemma put_share_wf h k v0 v : wf h → DB.shares h !! k = Some v0 → Share.ShareID v = k →
  Share.Username v = Share.Username v0 → wf (h <| DB.shares ::= <[Share.ShareID v:=v]> |>).
Proof.
  intros W Hv Hk Hu. rewrite Hk. wf_tac W; rewrite ?Hk, ?Hu.
  - by eapply table_insert_same.
  - apply owners_put; [done|]. eapply wf_share_user. by apply (lookup_attr Share.Username).
Qed.

Lemma updateShareLastUse_wf now id n h x h' : wf h → updateShareLastUse now id n h = (Ok x, h') → wf h'.
Proof.
  intros W [_ H]%locked_Ok. inv_bind H. apply ask_Ok in E as [E ->]. apply shareExists_Ok in E as (v & Hv & ->).
  pose proof (keyed_key _ _ _ _ _ (wf_shares _ W) Hv) as Hk. cbv zeta in H. apply upd_Ok in H as ->.
  by eapply put_share_wf.
Qed.

(** * IP lists and configurations *)

Lemma ipentryExists_Ok e h v : ipListEntryExistsInternal e h = Ok v →
  ∃ v0, DB.ipListEntries h !! ipentry_getKey e = Some v0 ∧ v = ipentry_getACopy v0.
Proof. unfold ipListEntryExistsInternal. destruct (_ !! _); intros [= <-]; eauto. Qed.

Lemma addIPListEntry_wf now e h e' h' : wf h → addIPListEntry now e h = (Ok e', h') → wf h'.
Proof.
  intros W H. unfold addIPListEntry in H.
  inv_bind H. apply ask_Ok in E as [_ ->]. rename a into v. apply locked_Ok in H as [_ H].
  inv_bind H. apply check_absent_Ok in E as [Hnew ->].
  assert (ipentry_getKey v ∉ dom (DB.ipListEntries h)) as Hn.
  { unfold ipListEntryExistsInternal in Hnew. rewrite not_elem_of_dom. by destruct (_ !! _). }
  finish H. wf_tac W. by apply table_insert_new.
Qed.

Lemma updateIPListEntry_wf now e h e' h' : wf h → updateIPListEntry now e h = (Ok e', h') → wf h'.
Proof.
  intros W H. unfold updateIPListEntry in H.
  inv_bind H. apply ask_Ok in E as [_ ->]. rename a into v. apply locked_Ok in H as [_ H].
  inv_bind H. apply ask_Ok in E as [E ->]. apply ipentryExists_Ok in E as (v0 & Hv & ->).
  finish H. wf_tac W. by eapply table_insert_same.
Qed.

Lemma deleteIPListEntry_wf e h x h' : wf h → deleteIPListEntry e h = (Ok x, h') → wf h'.
Proof.
  intros W H. unfold deleteIPListEntry in H.
  inv_bind H. apply ask_Ok in E as [_ ->]. rename a into v. apply locked_Ok in H as [_ H].
  inv_bind H. apply ask_Ok in E as [E ->]. apply ipentryExists_Ok in E as (v0 & Hv & ->).
  finish H. wf_tac W. by eapply table_delete.
Qed.

Lemma setConfigs_wf c h x h' : wf h → setConfigs c h = (Ok x, h') → wf h'.
Proof.
  intros W H. unfold setConfigs in H. inv_bind H. apply ask_Ok in E as [_ ->]. apply locked_Ok in H as [_ H].
  finish H. wf_tac W.
Qed.

(** * Life cycle *)

Lemma close_wf h x h' : wf h → close h = (Ok x, h') → wf h'.
Proof. intros W [_ H]%locked_Ok. finish H. wf_tac W. Qed.

Lemma table_empty {B} (key : B → string) : table_ok [] (key <$> ∅).
Proof. rewrite fmap_empty. split; [apply names_ok_empty|apply keyed_empty]. Qed.
Lemma graph_empty {B C} (f : B → list string) (g : C → list string) : linked (f <$> ∅) (g <$> ∅).
Proof. rewrite !fmap_empty. apply linked_empty. Qed.
Lemma owners_empty {B} (f : B → string) s : owners_ok (f <$> ∅) s.
Proof. intros k o. by rewrite fmap_empty, lookup_empty. Qed.

Lemma init_wf : wf DB.init.
Proof.
  constructor; first [apply table_empty|apply graph_empty|apply owners_empty|set_solver].
Qed.

Lemma clear_wf h x h' : clear h = (Ok x, h') → wf h'.
Proof.
  intros H. finish H. constructor; first [apply table_empty|apply graph_empty|apply owners_empty|set_solver].
Qed.

(** * Event actions and rules *)

Lemma try_ask_Ok {A} (r : DB.t → res A) e h a h' :
  try_catch (ask r) mret (fun _ => fail e) h = (Ok a, h') → r h = Ok a ∧ h' = h.
Proof. unfold try_catch, ask. destruct (r h); [|done]. intros [= -> ->]. done. Qed.

Lemma actionExists_Ok name h a : actionExistsInternal name h = Ok a →
  ∃ a0, DB.actions h !! name = Some a0 ∧ a = action_getACopy a0.
Proof. apply existsIn_Ok. Qed.
Lemma ruleExists_Ok name h r : ruleExistsInternal name h = Ok r →
  ∃ r0, DB.rules h !! name = Some r0 ∧ r = rule_getACopy r0.
Proof. apply existsIn_Ok. Qed.

(** * Actions *)

Lemma addEventAction_wf a h a' h' : wf h → addEventAction a h = (Ok a', h') → wf h'.
Proof.
  intros W H. unfold addEventAction in H.
  inv_bind H. apply ask_Ok in E as [_ ->]. rename a0 into v. apply locked_Ok in H as [_ H].
  inv_bind H. apply check_absent_Ok in E as [Hnew ->]. apply existsIn_absent in Hnew.
  inv_bind H. unfold gets in E. injection E as <- <-. cbv zeta in H. finish H.
  wf_tac W; [by apply table_insert_new|by apply linked_fresh_r].
Qed.

(** The loop of [updateEventAction]: on rules that all exist it leaves their
    names as they are and changes nothing of a rule but its update time. *)
Definition rule_touched (m m' : gmap string EventRule.t) : Prop :=
  EventRule.Name <$> m' = EventRule.Name <$> m ∧ rule_actionnames <$> m' = rule_actionnames <$> m.

Lemma rule_touched_insert m k r t : m !! k = Some r →
  rule_touched m (<[k := rule_getACopy r <| EventRule.UpdatedAt := t |>]> m).
Proof.
  intros Hr. split; rewrite fmap_insert; apply insert_id.
  - exact (lookup_attr EventRule.Name _ _ _ Hr).
  - rewrite (lookup_attr rule_actionnames _ _ _ Hr). f_equal. symmetry. exact (rule_actionnames_copy r).
Qed.

Lemma rule_touched_trans m m' m'' : rule_touched m m' → rule_touched m' m'' → rule_touched m m''.
Proof. intros [H1 H2] [H3 H4]. split; congruence. Qed.

Lemma rule_touched_dom m m' : rule_touched m m' → dom m' = dom m.
Proof. intros [H _]. apply (f_equal dom) in H. by rewrite !dom_fmap_L in H. Qed.

Lemma touch_rules_Ok now ks : ∀ i h, (∀ k, k ∈ ks → k ∈ dom (DB.rules h)) →
  ∃ m t, rule_touched (DB.rules h) m ∧
    touch_rules now i ks h = (Ok ks, h <| DB.rules := m |> <| DB.lastRuleUpdate := t |>).
Proof.
  induction ks as [|k ks IH]; intros i h Hks.
  - exists (DB.rules h), (DB.lastRuleUpdate h). split; [by split|]. by destruct h.
  - destruct (proj1 (elem_of_dom (DB.rules h) k)) as [r Hr]; [by apply Hks; left|].
    cbn [touch_rules]. unfold try_catch, ask, ruleExistsInternal, existsIn. rewrite Hr.
    unfold mbind, M_bind, upd, modify, setLastRuleUpdate. cbv zeta.
    pose (m1 := <[k := rule_getACopy r <| EventRule.UpdatedAt := now i |>]> (DB.rules h)).
    destruct (IH (i + 2)%nat (h <| DB.rules := m1 |> <| DB.lastRuleUpdate := now (i + 1)%nat |>))
      as (m & t & Hm & Heq).
    { intros k' Hk'. cbn. unfold m1. rewrite dom_insert_L. apply elem_of_union_r, Hks. by right. }
    exists m, t. split; [eapply rule_touched_trans; [by apply rule_touched_insert|exact Hm]|].
    unfold upd, modify. etrans; [|exact (f_equal (fun x => match x with (Ok l, s) => (Ok (k :: l), s) | (Err e, s) => (Err e, s) end) Heq)].
    cbn. by destruct (touch_rules _ _ _ _) as [[?|?] ?].
Qed.

Lemma updateEventAction_wf now a h a' h' : wf h → updateEventAction now a h = (Ok a', h') → wf h'.
Proof.
  intros W H. unfold updateEventAction in H.
  inv_bind H. apply ask_Ok in E as [_ ->]. rename a0 into v. apply locked_Ok in H as [_ H].
  inv_bind H. apply try_ask_Ok in E as [E ->]. apply actionExists_Ok in E as (a0' & Ha & ->).
  pose proof (keyed_key _ _ _ _ _ (wf_actions _ W) Ha) as Hk.
  change (BaseEventAction.Rules (action_getACopy a0')) with (BaseEventAction.Rules a0') in H.
  destruct (touch_rules_Ok now (BaseEventAction.Rules a0') 0 h) as (m & t & Hm & Heq).
  { intros k Hin. rewrite <-(dom_fmap_L rule_actionnames). apply elem_of_dom.
    eapply (linked_exists (BaseEventAction.Rules <$> DB.actions h)); [symmetry; apply W| |done].
    by apply (lookup_attr BaseEventAction.Rules). }
  inv_bind H. rewrite Heq in E. injection E as <- <-. clear Heq. cbv zeta in H.
  remember (action_carry_over (action_getACopy a0') (BaseEventAction.Rules a0') v) as X eqn:HX.
  assert (BaseEventAction.Name X = BaseEventAction.Name v) as HXn by (subst X; exact Hk).
  assert (BaseEventAction.Rules (action_getACopy X) = BaseEventAction.Rules a0') as HXr by by subst X.
  assert (BaseEventAction.Name (action_getACopy X) = BaseEventAction.Name v) as HXc by exact HXn.
  clear HX. destruct Hm as [Hm1 Hm2]. finish H. wf_tac W; rewrite ?Hm1, ?Hm2, ?HXr, ?HXn, ?HXc.
  - by eapply table_insert_same.
  - done.
  - by eapply linked_put_r.
Qed.

Lemma deleteEventAction_wf a h x h' : wf h → deleteEventAction a h = (Ok x, h') → wf h'.
Proof.
  intros W [_ H]%locked_Ok. inv_bind H. apply try_ask_Ok in E as [E ->]. apply actionExists_Ok in E as (a0' & Ha & ->).
  case_bool_decide as Hu; [done|]. change (BaseEventAction.Rules (action_getACopy a0')) with (BaseEventAction.Rules a0') in Hu.
  assert (BaseEventAction.Rules a0' = []) as Hnil by (destruct (BaseEventAction.Rules a0'); [done|simpl in Hu; lia]).
  finish H. wf_tac W; [by eapply table_delete|].
  rewrite <-(remove_edges_nil (BaseEventAction.Name a) (rule_actionnames <$> DB.rules h)), <-Hnil. by apply linked_drop_r.
Qed.

(** * Rules *)

Lemma linked_perm g g' k l l' : linked (<[k:=l]> g) g' → l ≡ₚ l' → linked (<[k:=l']> g) g'.
Proof. intros H Hp a b. rewrite <-(H a b), !edge_insert. by setoid_rewrite Hp. Qed.

Lemma rule_actions_sorted r : rule_actionnames r ≡ₚ rule_actionnames (rule_sort_actions r).
Proof.
  unfold rule_actionnames, rule_sort_actions. simpl. apply fmap_Permutation.
  symmetry. apply merge_sort_Permutation.
Qed.

Lemma rulename_sort r : EventRule.Name (rule_sort_actions r) = EventRule.Name r. Proof. done. Qed.

Lemma addEventRule_wf now r h r' h' : wf h → addEventRule now r h = (Ok r', h') → wf h'.
Proof.
  intros W H. unfold addEventRule in H.
  inv_bind H. apply ask_Ok in E as [_ ->]. rename a into v. apply locked_Ok in H as [_ H].
  inv_bind H. apply check_absent_Ok in E as [Hnew ->]. apply existsIn_absent in Hnew.
  inv_bind H. unfold gets in E. injection E as <- <-. cbv zeta in H.
  remember (rule_created now (getNextRuleID h) v) as X eqn:HX.
  assert (EventRule.Name X = EventRule.Name v) as HXn by by subst X. clear HX. rewrite <-HXn in *.
  inv_bind H. spec_ok E (rule_actions_undo (EventRule.Name X) (rule_actionnames X) h).
  destruct Hs as [(_ & m & -> & Ha1 & Ha2 & Ha3)|(e & ? & ? & ? & _)]; [|done].
  pose proof (rule_actions_sorted X) as Hp. pose proof (rulename_sort X) as Hn.
  remember (rule_sort_actions X) as Y eqn:HY. clear HY. finish H.
  assert (EventRule.Name (rule_getACopy Y) = EventRule.Name Y) as HYn by done.
  wf_tac W; rewrite ?HYn, ?Hn.
  - by apply table_insert_new.
  - rewrite Ha3. eapply linked_perm; [|exact Hp]. apply linked_add; rewrite ?dom_fmap_L; done.
Qed.

Lemma updateEventRule_wf now r h r' h' : wf h → updateEventRule now r h = (Ok r', h') → wf h'.
Proof.
  intros W H. unfold updateEventRule in H.
  inv_bind H. apply ask_Ok in E as [_ ->]. rename a into v. apply locked_Ok in H as [_ H].
  inv_bind H. apply ask_Ok in E as [E ->]. apply ruleExists_Ok in E as (r0 & Hr & ->).
  rewrite rule_actionnames_copy in H. set (k := EventRule.Name v) in *.
  inv_bind H. spec_ok E (rule_actions_remove k (rule_actionnames r0) h).
  destruct Hs as (_ & m0 & -> & Hm01 & Hm02).
  inv_bind H. spec_ok E (rule_actions_restore k (rule_actionnames r0) (rule_actionnames v) (h <| DB.actions := m0 |>)).
  destruct Hs as [(_ & m & -> & Ha1 & Ha2 & Ha3)|(e & ? & ? & ? & _)]; [|done].
  simpl in Ha1, Ha2, Ha3. rewrite Hm02 in Ha3. rewrite (same_but_dom _ _ _ _ Hm01) in Ha2. cbv zeta in H.
  remember (rule_carry_over now (rule_getACopy r0) v) as X eqn:HX.
  assert (EventRule.Name X = k) as HXn by by subst X.
  assert (rule_actionnames X = rule_actionnames v) as HXa by by subst X.
  pose proof (rule_actions_sorted X) as Hp. rewrite HXa in Hp. clear HX.
  pose proof (rulename_sort X) as Hn. rewrite HXn in Hn.
  remember (rule_sort_actions X) as Y eqn:HY. clear HY. finish H.
  assert (EventRule.Name (rule_getACopy Y) = k) as HYn by exact Hn. rewrite Hn.
  wf_tac W; rewrite ?HYn.
  - by eapply table_insert_same.
  - rewrite Ha3. eapply linked_perm; [|exact Hp].
    eapply linked_replace; rewrite ?dom_fmap_L; [done|by apply lookup_attr|done].
Qed.

Lemma deleteEventRule_wf now r h x h' : wf h → deleteEventRule now r h = (Ok x, h') → wf h'.
Proof.
  intros W [_ H]%locked_Ok. inv_bind H. apply ask_Ok in E as [E ->]. apply ruleExists_Ok in E as (r0 & Hr & ->).
  rewrite rule_actionnames_copy in H. set (k := EventRule.Name r) in *.
  inv_bind H. spec_ok E (rule_actions_remove k (rule_actionnames r0) h).
  destruct Hs as (_ & m & -> & Hm1 & Hm2). finish H. wf_tac W.
  - by eapply table_delete.
  - rewrite Hm2. eapply linked_drop; [done|by apply lookup_attr].
Qed.

End preserve.
