(* ===== verification/Atomic.v ===== *)
(** Methods that fail without an effect.

    Three classes of provider actions with the instances that follow the shape
    of the code: an action that only reads, one that cannot fail, and one that
    leaves the state as it was whenever it fails. *)
From S2P Require Import Prelude FsConfig Entities Links Tables MemoryCore MemoryOps MemoryInv.

Class ReadOnly {S A} (m : M S A) : Prop := read_only : ∀ s, (m s).2 = s.
Class Infallible {S A} (m : M S A) : Prop := infallible : ∀ s, is_ok (m s).1 = true.
Class Atomic {S A} (m : M S A) : Prop := atomic : ∀ s e s', m s = (Err e, s') → s' = s.

Section combinators.
Context {S : Type}.
Implicit Types A B : Type.

#[export] Instance infallible_ret {A} (a : A) : Infallible (mret a : M S A).
Proof. by intros s. Qed.
#[export] Instance infallible_bind {A B} (m : M S A) (k : A → M S B) :
  Infallible m → (∀ a, Infallible (k a)) → Infallible (m ≫= k).
Proof.
  intros Hm Hk s. specialize (Hm s). unfold mbind, M_bind.
  destruct (m s) as [[a|e] s1]; [apply Hk|done].
Qed.
#[export] Instance infallible_modify (g : S → S) : Infallible (modify g).
Proof. by intros s. Qed.
#[export] Instance infallible_gets {A} (g : S → A) : Infallible (gets g).
Proof. by intros s. Qed.
#[export] Instance infallible_for_each {A} (f : A → M S unit) l : (∀ a, Infallible (f a)) → Infallible (for_each f l).
Proof. intros Hf. induction l as [|a l IH]; simpl; apply _. Qed.
#[export] Instance infallible_if {A} (c : bool) (m m' : M S A) :
  Infallible m → Infallible m' → Infallible (if c then m else m').
Proof. by destruct c. Qed.
#[export] Instance infallible_try {A B} (m : M S A) (k1 : A → M S B) k2 :
  (∀ a, Infallible (k1 a)) → (∀ e, Infallible (k2 e)) → Infallible (try_catch m k1 k2).
Proof. intros H1 H2 s. unfold try_catch. destruct (m s) as [[a|e] s']; [apply H1|apply H2]. Qed.
#[export] Instance infallible_ignore {A} (m : M S A) : Infallible (ignore m).
Proof. intros s. unfold ignore. by destruct (m s). Qed.

#[export] Instance read_only_ret {A} (a : A) : ReadOnly (mret a : M S A).
Proof. by intros s. Qed.
#[export] Instance read_only_gets {A} (g : S → A) : ReadOnly (gets g).
Proof. by intros s. Qed.

#[export] Instance atomic_infallible {A} (m : M S A) : Infallible m → Atomic m | 10.
Proof. intros H s e s' E. specialize (H s). by rewrite E in H. Qed.
#[export] Instance atomic_read_only {A} (m : M S A) : ReadOnly m → Atomic m | 10.
Proof. intros H s e s' E. specialize (H s). by rewrite E in H. Qed.
#[export] Instance atomic_fail {A} e : Atomic (fail e : M S A).
Proof. intros s e' s' E. by injection E as _ <-. Qed.
#[export] Instance atomic_if {A} (c : bool) (m m' : M S A) : Atomic m → Atomic m' → Atomic (if c then m else m').
Proof. by destruct c. Qed.

(** first a read that may fail, then an atomic rest *)
#[export] Instance atomic_bind_read {A B} (m : M S A) (k : A → M S B) :
  ReadOnly m → (∀ a, Atomic (k a)) → Atomic (m ≫= k) | 1.
Proof.
  intros Hm Hk s e s' E. specialize (Hm s). unfold mbind, M_bind in E.
  destruct (m s) as [[a|e1] s1]; simpl in Hm; subst s1; [by eapply Hk|by injection E as _ <-].
Qed.
(** or an atomic action and a rest that cannot fail *)
#[export] Instance atomic_bind_last {A B} (m : M S A) (k : A → M S B) :
  Atomic m → (∀ a, Infallible (k a)) → Atomic (m ≫= k) | 2.
Proof.
  intros Hm Hk s e s' E. unfold mbind, M_bind in E.
  destruct (m s) as [[a|e1] s1] eqn:E1; [|injection E as -> ->; by eapply Hm].
  specialize (Hk a s1). by rewrite E in Hk.
Qed.
End combinators.

#[export] Instance read_only_ask {A} (r : DB.t → res A) : ReadOnly (ask r).
Proof. by intros s. Qed.
#[export] Instance read_only_absent {A} (found : DB.t → res A) e : ReadOnly (check_absent found e).
Proof. intros s. unfold check_absent. by destruct (is_ok _). Qed.
#[export] Instance read_only_owner {A} name what (found : string → DB.t → res A) : ReadOnly (check_owner name what found).
Proof. intros s. unfold check_owner. by destruct (_ && _). Qed.
#[export] Instance read_only_share_user u : ReadOnly (check_share_user u).
Proof. intros s. unfold check_share_user. by destruct (is_ok _). Qed.
#[export] Instance read_only_try_ask {A} (r : DB.t → res A) e : ReadOnly (try_catch (ask r) mret (fun _ => fail e)).
Proof. intros s. unfold try_catch, ask. by destruct (r s). Qed.
#[export] Instance infallible_upd {T} (f : DB.t → T) `{!Setter f} g : Infallible (upd f g).
Proof. by intros s. Qed.
#[export] Instance infallible_on {T A} (f : DB.t → T) `{!Setter f} (m : M T A) : Infallible m → Infallible (on f m).
Proof. intros H s. unfold on. specialize (H (f s)). by destruct (m (f s)). Qed.
#[export] Instance atomic_locked {A} (m : prov A) : Atomic m → Atomic (locked m).
Proof. intros H s e s' E. unfold locked in E. destruct (DB.isClosed s); [by injection E as _ <-|by eapply H]. Qed.
#[export] Instance infallible_remove_ref {B} copy getl setl x key : Infallible (@remove_ref B copy getl setl x key).
Proof. intros s. unfold remove_ref. by destruct (s !! key). Qed.
#[export] Instance infallible_remove_ref_if {B} copy getl setl x key : Infallible (@remove_ref_if B copy getl setl x key).
Proof. intros s. unfold remove_ref_if. destruct (s !! key); [|done]. by destruct (contains _ _). Qed.

#[export] Instance infallible_remove_relation u g f : Infallible (remove_relation u g f).
Proof. intros s. unfold remove_relation, existsIn. by destruct (s !! f). Qed.
#[export] Instance infallible_leave_group g u : Infallible (removeGroupFromAdminMapping g u).
Proof. intros s. unfold removeGroupFromAdminMapping. by destruct (adminExistsInternal u s). Qed.

(** The mapping helpers that remove, and the marks of the last updates. *)
Section helpers.
#[export] Instance infallible_user_role u r : Infallible (removeUserFromRole u r).
Proof. unfold removeUserFromRole. apply _. Qed.
#[export] Instance infallible_admin_role u r : Infallible (removeAdminFromRole u r).
Proof. unfold removeAdminFromRole. apply _. Qed.
#[export] Instance infallible_user_group u g : Infallible (removeUserFromGroupMapping u g).
Proof. unfold removeUserFromGroupMapping. apply _. Qed.
#[export] Instance infallible_admin_group u g : Infallible (removeAdminFromGroupMapping u g).
Proof. unfold removeAdminFromGroupMapping. apply _. Qed.
#[export] Instance infallible_folder f u g : Infallible (removeRelationFromFolderMapping f u g).
Proof. unfold removeRelationFromFolderMapping. apply _. Qed.
#[export] Instance infallible_rule_action r a : Infallible (removeRuleFromActionMapping r a).
Proof. unfold removeRuleFromActionMapping. apply _. Qed.
#[export] Instance infallible_user_update t : Infallible (setLastUserUpdate t).
Proof. unfold setLastUserUpdate. apply _. Qed.
#[export] Instance infallible_rule_update t : Infallible (setLastRuleUpdate t).
Proof. unfold setLastRuleUpdate. apply _. Qed.
#[export] Instance infallible_touch_rules now ks i : Infallible (touch_rules now i ks).
Proof. revert i; induction ks as [|k ks IH]; intros i; simpl; apply _. Qed.
End helpers.

#[export] Instance atomic_update_user username f : Atomic (update_user username f).
Proof. unfold update_user. apply _. Qed.

(** * Failures that only touch back-references

    [keeps h h']: the two states have the same users, admins, API keys, shares,
    rules, IP entries, configurations and name lists, and the same roles, groups,
    folders and actions by name. *)
Record keeps (h h' : DB.t) : Prop := {
  keeps_rest : h' = h <| DB.roles := DB.roles h' |> <| DB.groups := DB.groups h' |>
    <| DB.vfolders := DB.vfolders h' |> <| DB.actions := DB.actions h' |>;
  keeps_roles : dom (DB.roles h') = dom (DB.roles h);
  keeps_groups : dom (DB.groups h') = dom (DB.groups h);
  keeps_vfolders : dom (DB.vfolders h') = dom (DB.vfolders h);
  keeps_actions : dom (DB.actions h') = dom (DB.actions h);
}.

Lemma keeps_refl h : keeps h h.
Proof. split; [by destruct h|done..]. Qed.
Lemma keeps_trans h h1 h2 : keeps h h1 → keeps h1 h2 → keeps h h2.
Proof. intros [H1 ????] [H2 ????]. split; [|congruence..]. rewrite H2, H1. by destruct h, h2. Qed.

Definition folders_keyed (h : DB.t) : Prop := keyed (BaseVirtualFolder.Name <$> DB.vfolders h).

Class Keeps {A} (m : prov A) : Prop := keeping : ∀ s, folders_keyed s → keeps s (m s).2 ∧ folders_keyed (m s).2.
Class FailKeeps {A} (m : prov A) : Prop := fail_keeping : ∀ s e s', folders_keyed s → m s = (Err e, s') → keeps s s'.

#[export] Instance keeps_read_only {A} (m : prov A) : ReadOnly m → Keeps m | 1.
Proof. intros H s Hs. rewrite H. split; [apply keeps_refl|done]. Qed.
#[export] Instance keeps_bind {A B} (m : prov A) (k : A → prov B) : Keeps m → (∀ a, Keeps (k a)) → Keeps (m ≫= k) | 2.
Proof.
  intros Hm Hk s Hs. destruct (Hm s Hs) as [H1 H2]. unfold mbind, M_bind.
  destruct (m s) as [[a|e] s1]; [|done]. destruct (Hk a s1 H2) as [H3 H4]. split; [by eapply keeps_trans|done].
Qed.
#[export] Instance keeps_if {A} (c : bool) (m m' : prov A) : Keeps m → Keeps m' → Keeps (if c then m else m').
Proof. by destruct c. Qed.
#[export] Instance keeps_ignore {A} (m : prov A) : Keeps m → Keeps (ignore m).
Proof. intros H s. apply H. Qed.
#[export] Instance keeps_fail {A} e : Keeps (fail e : prov A).
Proof. intros s Hs. split; [apply keeps_refl|done]. Qed.
#[export] Instance keeps_try {A B} (m : prov A) (k1 : A → prov B) k2 :
  Keeps m → (∀ a, Keeps (k1 a)) → (∀ e, Keeps (k2 e)) → Keeps (try_catch m k1 k2).
Proof.
  intros Hm H1 H2 s Hs. destruct (Hm s Hs) as [H3 H4]. unfold try_catch.
  destruct (m s) as [[a|e] s1]; [destruct (H1 a s1 H4)|destruct (H2 e s1 H4)]; (split; [by eapply keeps_trans|done]).
Qed.
#[export] Instance keeps_for_each {A} (f : A → prov unit) l : (∀ a, Keeps (f a)) → Keeps (for_each f l).
Proof. intros Hf. induction l as [|a l IH]; simpl; apply _. Qed.
#[export] Instance keeps_map_or_undo {A} (f u : A → prov unit) mapped todo :
  (∀ a, Keeps (f a)) → (∀ a, Keeps (u a)) → Keeps (map_or_undo f u mapped todo).
Proof. intros Hf Hu. revert mapped. induction todo as [|a todo IH]; intros mapped; simpl; apply _. Qed.
#[export] Instance keeps_map_or_restore {A} (f : A → prov unit) old todo :
  (∀ a, Keeps (f a)) → Keeps (map_or_restore f old todo).
Proof. intros Hf. induction todo as [|a todo IH]; simpl; apply _. Qed.

#[export] Instance fail_keeps_atomic {A} (m : prov A) : Atomic m → FailKeeps m | 10.
Proof. intros H s e s' _ E. apply H in E as ->. apply keeps_refl. Qed.
#[export] Instance fail_keeps_keeps {A} (m : prov A) : Keeps m → FailKeeps m | 11.
Proof. intros H s e s' Hs E. specialize (H s Hs). rewrite E in H. apply H. Qed.
#[export] Instance fail_keeps_bind {A B} (m : prov A) (k : A → prov B) :
  Keeps m → (∀ a, FailKeeps (k a)) → FailKeeps (m ≫= k) | 1.
Proof.
  intros Hm Hk s e s' Hs E. destruct (Hm s Hs) as [H1 H2]. unfold mbind, M_bind in E.
  destruct (m s) as [[a|e1] s1]; [|by injection E as _ <-]. eapply keeps_trans; [done|]. by eapply Hk.
Qed.
#[export] Instance fail_keeps_locked {A} (m : prov A) : FailKeeps m → FailKeeps (locked m).
Proof.
  intros H s e s' Hs E. unfold locked in E. destruct (DB.isClosed s); [injection E as _ <-; apply keeps_refl|by eapply H].
Qed.

Lemma dom_put {B} (m : gmap string B) k v : k ∈ dom m → dom (<[k:=v]> m) = dom m.
Proof. rewrite dom_insert_L. set_solver. Qed.

Lemma dom_remove_ref {B} copy getl setl x k (m : gmap string B) : dom (remove_ref copy getl setl x k m).2 = dom m.
Proof. unfold remove_ref. destruct (m !! k) eqn:Hk; [|done]. apply dom_put. by eapply elem_of_dom_2. Qed.
Lemma dom_remove_ref_if {B} copy getl setl x k (m : gmap string B) : dom (remove_ref_if copy getl setl x k m).2 = dom m.
Proof.
  unfold remove_ref_if. destruct (m !! k) eqn:Hk; [|done]. destruct (contains _ _); [|done].
  apply dom_put. by eapply elem_of_dom_2.
Qed.

(** A back-reference added or removed, table by table. *)
Ltac keeps_on :=
  let s := fresh "s" in let Hs := fresh "Hs" in
  intros s Hs; rewrite on_eq; cbn [snd];
  (split; [split; [by destruct s|..]|]); simpl; rewrite ?dom_add_ref, ?dom_remove_ref, ?dom_remove_ref_if; try done.

#[export] Instance keeps_user_role u r : Keeps (addUserToRole u r).
Proof. unfold addUserToRole. destruct (r =s ""); [apply _|]. keeps_on. Qed.
#[export] Instance keeps_admin_role u r : Keeps (addAdminToRole u r).
Proof. unfold addAdminToRole. destruct (r =s ""); [apply _|]. keeps_on. Qed.
#[export] Instance keeps_user_role_gone u r : Keeps (removeUserFromRole u r).
Proof. unfold removeUserFromRole. destruct (r =s ""); [apply _|]. keeps_on. Qed.
#[export] Instance keeps_admin_role_gone u r : Keeps (removeAdminFromRole u r).
Proof. unfold removeAdminFromRole. destruct (r =s ""); [apply _|]. keeps_on. Qed.
#[export] Instance keeps_user_group u g : Keeps (addUserToGroupMapping u g).
Proof. unfold addUserToGroupMapping. keeps_on. Qed.
#[export] Instance keeps_user_group_gone u g : Keeps (removeUserFromGroupMapping u g).
Proof. unfold removeUserFromGroupMapping. keeps_on. Qed.
#[export] Instance keeps_admin_group u g : Keeps (addAdminToGroupMapping u g).
Proof. unfold addAdminToGroupMapping. keeps_on. Qed.
#[export] Instance keeps_admin_group_gone u g : Keeps (removeAdminFromGroupMapping u g).
Proof. unfold removeAdminFromGroupMapping. keeps_on. Qed.
#[export] Instance keeps_rule_action r a : Keeps (addRuleToActionMapping r a).
Proof. unfold addRuleToActionMapping. keeps_on. Qed.
#[export] Instance keeps_rule_action_gone r a : Keeps (removeRuleFromActionMapping r a).
Proof. unfold removeRuleFromActionMapping. keeps_on. Qed.

(** On the folders the name in the object matters too. *)
Lemma keyed_add_ref err setl getl x k m : (∀ l f, BaseVirtualFolder.Name (setl l f) = BaseVirtualFolder.Name f) →
  keyed (BaseVirtualFolder.Name <$> m) →
  keyed (BaseVirtualFolder.Name <$> (add_ref (fun f => f) getl setl err x k m).2).
Proof. intros H Hk. by rewrite (add_ref_same (fun f => f) getl setl err x k m _ BaseVirtualFolder.Name). Qed.

#[export] Instance keeps_user_folder u f : Keeps (addUserToFolderMapping u f).
Proof. unfold addUserToFolderMapping. keeps_on. by apply keyed_add_ref. Qed.
#[export] Instance keeps_group_folder g f : Keeps (addGroupToFolderMapping g f).
Proof. unfold addGroupToFolderMapping. keeps_on. by apply keyed_add_ref. Qed.

Lemma remove_relation_keyed u g k m : keyed (BaseVirtualFolder.Name <$> m) →
  dom (remove_relation u g k m).2 = dom m ∧ keyed (BaseVirtualFolder.Name <$> (remove_relation u g k m).2).
Proof.
  intros Hk. unfold remove_relation, existsIn. destruct (m !! k) as [f|] eqn:Hf; [|done]. cbv zeta. simpl.
  set (f1 := if negb (u =s "") then _ else _). set (f2 := if negb (g =s "") then _ else _).
  assert (BaseVirtualFolder.Name f2 = k) as Hn.
  { transitivity (BaseVirtualFolder.Name f); [|by apply Hk, (lookup_attr BaseVirtualFolder.Name)].
    subst f2 f1. by destruct (negb (u =s "")), (negb (g =s "")). }
  rewrite fmap_insert, Hn. split; [|by apply keyed_insert]. apply dom_put. by eapply elem_of_dom_2.
Qed.
#[export] Instance keeps_folder_gone f u g : Keeps (removeRelationFromFolderMapping f u g).
Proof. unfold removeRelationFromFolderMapping. keeps_on; by apply remove_relation_keyed. Qed.
