(* ===== verification/MemorySpec.v ===== *)
(** The provider as a transition system: its methods as one type of operations,
    what holds in every state it can reach, and what a method that fails does. *)
From S2P Require Import Prelude FsConfig Entities Links Tables MemoryCore MemoryOps MemoryInv.
From S2P Require Import MemoryAccounts MemoryObjects MemoryShares Atomic.
Open Scope Z_scope.

(** * Operations *)

(** The calls that change the state. *)
Inductive op :=
  | SetUpdatedAt (username : string) | UpdateLastLogin (username : string)
  | UpdateTransferQuota (username : string) (ul dl : Z) (reset : bool)
  | UpdateQuota (username : string) (files size : Z) (reset : bool)
  | SetFirstDownload (username : string) | SetFirstUpload (username : string)
  | UpdateUserPassword (username password : string)
  | AddUser (u : User.t) | UpdateUser (u : User.t) | DeleteUser (u : User.t)
  | UpdateAdminLastLogin (username : string)
  | AddAdmin (a : Admin.t) | UpdateAdmin (a : Admin.t) | DeleteAdmin (a : Admin.t)
  | AddGroup (g : Group.t) | UpdateGroup (g : Group.t) | DeleteGroup (g : Group.t)
  | UpdateFolderQuota (name : string) (files size : Z) (reset : bool)
  | AddFolder (f : BaseVirtualFolder.t) | UpdateFolder (f : BaseVirtualFolder.t) | DeleteFolder (f : BaseVirtualFolder.t)
  | UpdateAPIKeyLastUse (id : string)
  | AddAPIKey (k : APIKey.t) | UpdateAPIKey (k : APIKey.t) | DeleteAPIKey (k : APIKey.t)
  | UpdateShareLastUse (id : string) (n : Z)
  | AddShare (s : Share.t) | UpdateShare (s : Share.t) | DeleteShare (s : Share.t)
  | AddEventAction (a : BaseEventAction.t) | UpdateEventAction (a : BaseEventAction.t) | DeleteEventAction (a : BaseEventAction.t)
  | AddEventRule (r : EventRule.t) | UpdateEventRule (r : EventRule.t) | DeleteEventRule (r : EventRule.t)
  | AddRole (r : Role.t) | UpdateRole (r : Role.t) | DeleteRole (r : Role.t)
  | AddIPListEntry (e : IPListEntry.t) | UpdateIPListEntry (e : IPListEntry.t) | DeleteIPListEntry (e : IPListEntry.t)
  | SetConfigs (c : Configs.t) | Close.

(** The methods whose rollback is not complete. *)
Definition rollback_incomplete (o : op) : bool :=
  match o with
  | AddUser _ | UpdateUser _ | AddAdmin _ | UpdateAdmin _ | UpdateGroup _ | UpdateEventRule _ => true
  | _ => false
  end.

(** The methods that undo what they did, step by step. *)
Definition undoes (o : op) : bool := match o with AddGroup _ | AddEventRule _ => true | _ => false end.

Section exec.
Context `{!Validate User.t, !Validate Group.t, !Validate Admin.t, !Validate Role.t,
  !Validate BaseVirtualFolder.t, !Validate APIKey.t, !Validate Share.t, !Validate BaseEventAction.t,
  !Validate EventRule.t, !Validate IPListEntry.t, !Validate Configs.t}.

(** [err := p.method(...)]: the object a pointer refers to is dropped. *)
Definition discard {A} (m : prov A) : prov unit := _ ← m; mret tt.

Definition exec (now : nat → Z) (o : op) : prov unit :=
  match o with
  | SetUpdatedAt u => discard (setUpdatedAt now u)
  | UpdateLastLogin u => discard (updateLastLogin now u)
  | UpdateTransferQuota u ul dl r => discard (updateTransferQuota now u ul dl r)
  | UpdateQuota u f s r => discard (updateQuota now u f s r)
  | SetFirstDownload u => discard (setFirstDownloadTimestamp now u)
  | SetFirstUpload u => discard (setFirstUploadTimestamp now u)
  | UpdateUserPassword u p => discard (updateUserPassword now u p)
  | AddUser u => discard (addUser now u) | UpdateUser u => discard (updateUser now u) | DeleteUser u => discard (deleteUser u)
  | UpdateAdminLastLogin u => discard (updateAdminLastLogin now u)
  | AddAdmin a => discard (addAdmin now a) | UpdateAdmin a => discard (updateAdmin now a) | DeleteAdmin a => discard (deleteAdmin a)
  | AddGroup g => discard (addGroup now g) | UpdateGroup g => discard (updateGroup now g) | DeleteGroup g => discard (deleteGroup g)
  | UpdateFolderQuota n f s r => discard (updateFolderQuota now n f s r)
  | AddFolder f => discard (addFolder f) | UpdateFolder f => discard (updateFolder f) | DeleteFolder f => discard (deleteFolder f)
  | UpdateAPIKeyLastUse id => discard (updateAPIKeyLastUse now id)
  | AddAPIKey k => discard (addAPIKey now k) | UpdateAPIKey k => discard (updateAPIKey now k) | DeleteAPIKey k => discard (deleteAPIKey k)
  | UpdateShareLastUse id n => discard (updateShareLastUse now id n)
  | AddShare s => discard (addShare now s) | UpdateShare s => discard (updateShare now s) | DeleteShare s => discard (deleteShare s)
  | AddEventAction a => discard (addEventAction a) | UpdateEventAction a => discard (updateEventAction now a)
  | DeleteEventAction a => discard (deleteEventAction a)
  | AddEventRule r => discard (addEventRule now r) | UpdateEventRule r => discard (updateEventRule now r)
  | DeleteEventRule r => discard (deleteEventRule now r)
  | AddRole r => discard (addRole now r) | UpdateRole r => discard (updateRole now r) | DeleteRole r => discard (deleteRole r)
  | AddIPListEntry e => discard (addIPListEntry now e) | UpdateIPListEntry e => discard (updateIPListEntry now e)
  | DeleteIPListEntry e => discard (deleteIPListEntry e)
  | SetConfigs c => discard (setConfigs c)
  | Close => discard close
  end.

Lemma discard_Ok {A} (m : prov A) h x h' : discard m h = (Ok x, h') → ∃ a, m h = (Ok a, h').
Proof. unfold discard. intros (a & s & E & H)%bind_Ok. injection H as <- <-. eauto. Qed.
Lemma discard_Err {A} (m : prov A) h e h' : discard m h = (Err e, h') → m h = (Err e, h').
Proof. unfold discard. intros [H|(a & s & E & H)]%bind_Err; done. Qed.
#[local] Instance atomic_discard {A} (m : prov A) : Atomic m → Atomic (discard m).
Proof. intros H s e s' E%discard_Err. by eapply H. Qed.

(** * Failures *)

Lemma exec_atomic now o : rollback_incomplete o = false → undoes o = false → Atomic (exec now o).
Proof.
  intros H1 H2. destruct o; try done; cbn [exec]; apply atomic_discard;
    unfold setUpdatedAt, updateLastLogin, updateTransferQuota, updateQuota, setFirstDownloadTimestamp,
      setFirstUploadTimestamp, updateUserPassword, deleteUser, updateAdminLastLogin, deleteAdmin, deleteGroup,
      updateFolderQuota, addFolder, updateFolder, deleteFolder, updateAPIKeyLastUse, addAPIKey, updateAPIKey,
      deleteAPIKey, updateShareLastUse, addShare, updateShare, deleteShare, addEventAction, updateEventAction,
      deleteEventAction, deleteEventRule, addRole, updateRole, deleteRole, addIPListEntry, updateIPListEntry,
      deleteIPListEntry, setConfigs, close; apply _.
Qed.

(** The two methods that undo what they did leave the mappings as they were. *)
Lemma addGroup_failed {VN : ValidNames} now g h e h' : wf h → addGroup now g h = (Err e, h') → wf h'.
Proof.
  intros W H. unfold addGroup in H. apply bind_Err in H as [H|(v & s & E & H)]; [by injection H as _ <-|].
  apply ask_Ok in E as [Hval ->]. pose proof (valid_groupname _ _ _ Hval) as Hname.
  unfold locked in H. destruct (DB.isClosed h); [by injection H as _ <-|].
  apply bind_Err in H as [H|(? & s & E & H)]; [by apply atomic in H as ->|].
  apply check_absent_Ok in E as [Hnew ->]. apply existsIn_absent in Hnew.
  apply bind_Err in H as [H|(id & s & E & H)]; [done|]. injection E as <- <-. cbv zeta in H.
  remember (group_sort_folders _) as X eqn:HX.
  assert (Group.Name X = Group.Name v) as HXn by (subst X; by autorewrite with attrs). clear HX. rewrite <-HXn in *.
  apply bind_Err in H as [H|(? & s & E & H)]; [|done].
  spec_ok H (group_folders_undo (Group.Name X) (group_foldernames X) h Hname (proj2 (wf_vfolders _ W))).
  destruct Hs as [(? & _)|(e1 & pre & m & _ & -> & Hpre & Hm1 & Hm2)]; [done|].
  wf_tac W. rewrite Hm2. apply linked_undo; rewrite ?dom_fmap_L; [done..| |done].
  by eapply stops_at_found.
Qed.

Lemma addEventRule_failed now r h e h' : wf h → addEventRule now r h = (Err e, h') → wf h'.
Proof.
  intros W H. unfold addEventRule in H. apply bind_Err in H as [H|(v & s & E & H)]; [by injection H as _ <-|].
  apply ask_Ok in E as [_ ->]. unfold locked in H. destruct (DB.isClosed h); [by injection H as _ <-|].
  apply bind_Err in H as [H|(? & s & E & H)]; [by apply atomic in H as ->|].
  apply check_absent_Ok in E as [Hnew ->]. apply existsIn_absent in Hnew.
  apply bind_Err in H as [H|(id & s & E & H)]; [done|]. injection E as <- <-. cbv zeta in H.
  remember (rule_created now _ v) as X eqn:HX.
  assert (EventRule.Name X = EventRule.Name v) as HXn by by subst X. clear HX. rewrite <-HXn in *.
  apply bind_Err in H as [H|(? & s & E & H)]; [|done].
  spec_ok H (rule_actions_undo (EventRule.Name X) (rule_actionnames X) h).
  destruct Hs as [(? & _)|(e1 & pre & m & _ & -> & Hpre & Hm1 & Hm2)]; [done|].
  wf_tac W. rewrite Hm2. apply linked_undo; rewrite ?dom_fmap_L; [done..| |done].
  by eapply stops_at_found.
Qed.

(** The identifier of a share that is added is not in use. *)
Definition fresh_share (o : op) (h : DB.t) : Prop :=
  match o with AddShare s => ∀ v, validate s h = Ok v → Share.ShareID v ∉ dom (DB.shares h) | _ => True end.

Lemma exec_Ok_wf {VN : ValidNames} now o h x h' : wf h → fresh_share o h → exec now o h = (Ok x, h') → wf h'.
Proof.
  intros W Hf H. destruct o; cbn [exec] in H; apply discard_Ok in H as [y H];
    [ by eapply setUpdatedAt_wf | by eapply updateLastLogin_wf | by eapply updateTransferQuota_wf
    | by eapply updateQuota_wf | by eapply setFirstDownloadTimestamp_wf
    | by eapply setFirstUploadTimestamp_wf | by eapply updateUserPassword_wf | by eapply addUser_wf
    | by eapply updateUser_wf | by eapply deleteUser_wf | by eapply updateAdminLastLogin_wf
    | by eapply addAdmin_wf | by eapply updateAdmin_wf | by eapply deleteAdmin_wf
    | by eapply addGroup_wf | by eapply updateGroup_wf | by eapply deleteGroup_wf
    | by eapply updateFolderQuota_wf | by eapply addFolder_wf | by eapply updateFolder_wf
    | by eapply deleteFolder_wf | by eapply updateAPIKeyLastUse_wf | by eapply addAPIKey_wf
    | by eapply updateAPIKey_wf | by eapply deleteAPIKey_wf | by eapply updateShareLastUse_wf
    | by eapply addShare_wf | by eapply updateShare_wf | by eapply deleteShare_wf
    | by eapply addEventAction_wf | by eapply updateEventAction_wf | by eapply deleteEventAction_wf
    | by eapply addEventRule_wf | by eapply updateEventRule_wf | by eapply deleteEventRule_wf
    | by eapply addRole_wf | by eapply updateRole_wf | by eapply deleteRole_wf
    | by eapply addIPListEntry_wf | by eapply updateIPListEntry_wf | by eapply deleteIPListEntry_wf
    | by eapply setConfigs_wf | by eapply close_wf ].
Qed.

Lemma exec_wf {VN : ValidNames} now o h r h' : wf h → fresh_share o h → exec now o h = (r, h') →
  is_ok r = true ∨ rollback_incomplete o = false → wf h'.
Proof.
  intros W Hf H Hr. destruct r as [[]|e]; [by eapply exec_Ok_wf|]. destruct Hr as [?|Hr]; [done|].
  destruct (undoes o) eqn:Hu; [|by rewrite (exec_atomic now o Hr Hu h e h' H)].
  destruct o; try done; apply discard_Err in H; [by eapply addGroup_failed|by eapply addEventRule_failed].
Qed.

(** A failed call changes nothing but back-references. *)
#[local] Instance fail_keeps_discard {A} (m : prov A) : FailKeeps m → FailKeeps (discard m).
Proof. intros H s e s' Hs E%discard_Err. by eapply H. Qed.

Lemma exec_fail_keeps now o : FailKeeps (exec now o).
Proof.
  destruct (rollback_incomplete o || undoes o) eqn:H.
  - destruct o; try done; cbn [exec]; apply fail_keeps_discard;
      unfold addUser, updateUser, addAdmin, updateAdmin, addGroup, updateGroup, addEventRule, updateEventRule,
        add_or_restore; apply _.
  - apply orb_false_iff in H as [H1 H2]. apply fail_keeps_atomic. by apply exec_atomic.
Qed.

(** * A closed provider *)

Lemma exec_closed now o h : DB.isClosed h = true →
  (exec now o h).2 = h ∧ (is_ok (exec now o h).1 = true → ∃ u, o = SetUpdatedAt u).
Proof.
  intros Hc.
  assert (∀ A (m : prov A), locked m h = (Err ErrMemoryProviderClosed, h)) as Hl by (intros; unfold locked; by rewrite Hc).
  destruct o; cbn [exec]; unfold discard;
    unfold setUpdatedAt, updateLastLogin, updateTransferQuota, updateQuota, setFirstDownloadTimestamp,
      setFirstUploadTimestamp, updateUserPassword, deleteUser, updateAdminLastLogin, deleteAdmin, deleteGroup,
      updateFolderQuota, addFolder, updateFolder, deleteFolder, updateAPIKeyLastUse, addAPIKey, updateAPIKey,
      deleteAPIKey, updateShareLastUse, addShare, updateShare, deleteShare, addEventAction, updateEventAction,
      deleteEventAction, deleteEventRule, addRole, updateRole, deleteRole, addIPListEntry, updateIPListEntry,
      deleteIPListEntry, setConfigs, close, addUser, updateUser, addAdmin, updateAdmin, addGroup, updateGroup,
      addEventRule, updateEventRule, ignore, ask, mbind, M_bind;
    try (destruct (validate _ h)); rewrite ?Hl; simpl; (split; [done|]); try done; eauto.
Qed.

(** * Reachable states *)

(** The states the provider reaches from the empty one when the identifiers of
    new shares are fresh and the methods with an incomplete rollback succeed. *)
Inductive reachable : DB.t → Prop :=
  | reach_init : reachable DB.init
  | reach_clear h : reachable h → reachable (clear h).2
  | reach_exec now o h : reachable h → fresh_share o h →
      is_ok (exec now o h).1 = true ∨ rollback_incomplete o = false → reachable (exec now o h).2.

Lemma reachable_wf {VN : ValidNames} h : reachable h → wf h.
Proof.
  induction 1 as [|h _ _|now o h _ W Hf Hr]; [apply init_wf|by eapply (clear_wf h)|].
  eapply exec_wf; [done..| |exact Hr]. apply surjective_pairing.
Qed.

End exec.
