(* ===== verification/ObjectSpec.v ===== *)
(** What the methods do, case by case.  On user accounts: when [addUser] succeeds
    and what it stores, what a failure leaves behind, what is gone after
    [deleteUser], how the counters move.  On the other objects: what an update
    keeps of the stored user, which deletions are refused and which remove the
    references, what [addShare] does with an identifier in use, which
    identifiers are new. *)
From S2P Require Import Prelude FsConfig Entities Links Tables MemoryCore MemoryOps MemoryInv.
From S2P Require Import MemoryAccounts MemoryObjects MemoryShares Atomic.
Open Scope Z_scope.

Section users.
Context `{!Validate User.t, !Validate Group.t, !Validate Admin.t, !Validate Role.t,
  !Validate BaseVirtualFolder.t, !Validate APIKey.t, !Validate Share.t, !Validate BaseEventAction.t,
  !Validate EventRule.t, !Validate IPListEntry.t, !Validate Configs.t}.
Context {VN : ValidNames}.
Implicit Types now : nat → Z.

(** * Adding a user *)

(** The conditions on a validated user under which it can be added. *)
Record addable (v : User.t) (h : DB.t) : Prop := {
  ad_open : DB.isClosed h = false;
  ad_new : User.Username v ∉ dom (DB.users h);
  ad_role : ∀ r, r ∈ role_list (User.Role v) → r ∈ dom (DB.roles h);
  ad_groups : ∀ g, g ∈ user_groupnames v → g ∈ dom (DB.groups h);
  ad_folders : ∀ f, f ∈ user_foldernames v → f ∈ dom (DB.vfolders h);
}.

(** What [addUser] stores: the validated user with a new identifier, no usage
    and its groups and folders sorted by name. *)
Definition new_user now (h : DB.t) (v : User.t) : User.t :=
  user_sort_folders (user_sort_groups (user_created now (getNextID h) v)).

Lemma in_sorted_groups now id v g :
  g ∈ user_groupnames (user_sort_groups (user_created now id v)) ↔ g ∈ user_groupnames v.
Proof.
  unfold user_groupnames, user_sort_groups. cbn. rewrite !list_elem_of_fmap. by setoid_rewrite elem_of_sort_by.
Qed.
Lemma in_sorted_folders now id v f :
  f ∈ user_foldernames (user_sort_folders (user_sort_groups (user_created now id v))) ↔ f ∈ user_foldernames v.
Proof.
  unfold user_foldernames, user_sort_folders. cbn. rewrite !list_elem_of_fmap. by setoid_rewrite elem_of_sort_by.
Qed.

Lemma stops_at_missing {B} (m : gmap string B) ks pre : stops_at m ks pre → ∃ k, k ∈ ks ∧ k ∉ dom m.
Proof. intros (k & post & -> & _ & Hk). exists k. split; [set_solver|done]. Qed.

(** The result of [addUser] on a validated user, whatever the reason it fails. *)
Definition added_user now (h : DB.t) (v : User.t) (r : res User.t) (h' : DB.t) : Prop :=
  (addable v h ∧ r = Ok (new_user now h v) ∧ DB.users h' = <[User.Username v := user_getACopy (new_user now h v)]> (DB.users h))
  ∨ (¬ addable v h ∧ ∃ e, r = Err e).

Lemma addUser_result now u h v : wf h → validate u h = Ok v →
  added_user now h v (addUser now u h).1 (addUser now u h).2.
Proof.
  intros W Hval. pose proof (valid_username _ _ _ Hval) as Hname. unfold added_user, new_user.
  destruct (addUser now u h) as [r h'] eqn:H. cbn [fst snd]. unfold addUser, mbind at 1, M_bind at 1, ask in H.
  rewrite Hval in H. unfold locked in H. destruct (DB.isClosed h) eqn:Hc.
  { right. split; [|injection H as <- _; eauto]. intros []. congruence. }
  unfold mbind at 1, M_bind at 1, check_absent in H.
  destruct (is_ok (userExistsInternal (User.Username v) h)) eqn:Hex.
  { right. split; [|injection H as <- _; eauto]. intros []. by apply existsIn_dom in Hex. }
  apply existsIn_absent in Hex. unfold mbind at 1, M_bind at 1, gets in H. cbv zeta in H.
  pose proof (in_sorted_groups now (getNextID h) v) as Hig. pose proof (in_sorted_folders now (getNextID h) v) as Hif.
  autorewrite with attrs in *.
  remember (user_sort_groups (user_created now (getNextID h) v)) as Y eqn:HY.
  assert (User.Username Y = User.Username v) as HYn by (subst Y; by autorewrite with attrs). clear HY.
  remember (user_sort_folders Y) as X eqn:HX.
  assert (User.Username X = User.Username v) as HXn by (subst X; by autorewrite with attrs). clear HX.
  unfold mbind at 1, M_bind at 1 in H. destruct (addUserToRole _ _ h) as [r1 h1] eqn:E.
  spec_ok E (addUserToRole_spec (User.Username v) (User.Role v) h).
  destruct Hs as [(-> & mr & -> & _ & Hr & _)|(e & -> & -> & k & Hk & Hd)].
  2:{ right. split; [|injection H as <- _; eauto]. intros []. by eapply Hd, ad_role0. }
  unfold mbind at 1, M_bind at 1 in H. destruct (map_or_undo _ _ [] (user_groupnames Y) _) as [r2 h2] eqn:E.
  spec_ok E (user_groups_undo (User.Username v) (user_groupnames Y) (h <| DB.roles := mr |>)).
  destruct Hs as [(-> & mg & -> & _ & Hg & _)|(e & pre & mg & -> & -> & Hst & _)].
  2:{ right. split; [|injection H as <- _; eauto]. intros [].
      destruct (stops_at_missing _ _ _ Hst) as (g & Hg & Hd). by eapply Hd, ad_groups0, Hig. }
  unfold mbind at 1, M_bind at 1 in H. destruct (map_or_undo _ _ [] (user_foldernames X) _) as [r3 h3] eqn:E.
  spec_ok E (user_folders_undo (User.Username v) (user_foldernames X) (h <| DB.roles := mr |> <| DB.groups := mg |>)
    Hname (proj2 (wf_vfolders _ W))).
  destruct Hs as [(-> & mf & -> & _ & Hf & _)|(e & pre & mf & -> & -> & Hst & _)].
  2:{ right. split; [|injection H as <- _; eauto]. intros [].
      destruct (stops_at_missing _ _ _ Hst) as (g & Hg' & Hd). by eapply Hd, ad_folders0, Hif. }
  left. injection H as <- <-. split; [|done].
  simpl in Hg, Hf. split; [done..| |]; intros k Hk; [by apply Hg, Hig|by apply Hf, Hif].
Qed.
(** When a group is missing, the role keeps the name of the user that was not
    added. *)
Lemma addUser_leaves_role now u h v g : validate u h = Ok v → DB.isClosed h = false →
  User.Username v ∉ dom (DB.users h) → User.Role v ∈ dom (DB.roles h) → User.Role v ≠ "" →
  g ∈ user_groupnames v → g ∉ dom (DB.groups h) →
  ∃ e h' r, addUser now u h = (Err e, h') ∧ DB.users h' = DB.users h ∧
    DB.roles h' !! User.Role v = Some r ∧ User.Username v ∈ Role.Users r.
Proof.
  intros Hval Hc Hnew Hrole Hne Hg Hmiss. destruct (addUser now u h) as [r h'] eqn:H.
  unfold addUser, mbind at 1, M_bind at 1, ask in H. rewrite Hval in H. unfold locked in H. rewrite Hc in H.
  unfold mbind at 1, M_bind at 1, check_absent in H.
  assert (is_ok (userExistsInternal (User.Username v) h) = false) as Hex.
  { unfold userExistsInternal, existsIn. by rewrite (proj1 (not_elem_of_dom _ _) Hnew). }
  rewrite Hex in H. unfold mbind at 1, M_bind at 1, gets in H. cbv zeta in H.
  pose proof (proj2 (in_sorted_groups now (getNextID h) v g) Hg) as Hg'. autorewrite with attrs in *.
  remember (user_sort_groups (user_created now (getNextID h) v)) as Y eqn:HY.
  assert (User.Username Y = User.Username v) as HYn by (subst Y; by autorewrite with attrs). rewrite ?HYn in *. clear HY.
  unfold mbind at 1, M_bind at 1 in H. destruct (addUserToRole _ _ h) as [r1 h1] eqn:E.
  spec_ok E (addUserToRole_spec (User.Username v) (User.Role v) h). rewrite role_list_nonempty in Hs by done.
  destruct Hs as [(-> & mr & -> & _ & _ & Hr)|(e & -> & -> & k & Hk & Hd)].
  2:{ by apply list_elem_of_singleton in Hk as ->. }
  unfold mbind at 1, M_bind at 1 in H. destruct (map_or_undo _ _ [] (user_groupnames Y) _) as [r2 h2] eqn:E.
  spec_ok E (user_groups_undo (User.Username v) (user_groupnames Y) (h <| DB.roles := mr |>)).
  destruct Hs as [(-> & mg & -> & _ & Hgs & _)|(e & pre & mg & -> & -> & Hst & _)].
  { simpl in Hgs. by apply Hgs in Hg'. }
  assert (edge (Role.Users <$> mr) (User.Role v) (User.Username v)) as (l & Hl & Hin).
  { rewrite Hr. apply edge_add_edges; [|right; set_solver].
    intros k ->%list_elem_of_singleton. by rewrite dom_fmap_L. }
  rewrite lookup_fmap in Hl. apply fmap_Some in Hl as (r0 & Hr0 & ->).
  injection H as <- <-. exists e. eexists. exists r0. split_and!; done.
Qed.

(** * Deleting a user *)

Lemma linked_absent g g' x k l : linked g g' → x ∉ dom g → g' !! k = Some l → x ∉ l.
Proof.
  intros H Hx Hk Hin. apply Hx, elem_of_dom. by apply (linked_exists g' g k l x (symmetry H)).
Qed.

Lemma keeps_users {A} (m : prov A) h a h' : Keeps m → folders_keyed h → m h = (Ok a, h') →
  DB.users h' = DB.users h ∧ folders_keyed h'.
Proof.
  intros Hm Hh E. destruct (Hm h Hh) as [[H _ _ _ _] Hk]. rewrite E in H, Hk. cbn [snd] in H, Hk.
  split; [|done]. by rewrite H.
Qed.

Lemma deleteUser_users u h x h' : wf h → deleteUser u h = (Ok x, h') →
  User.Username u ∈ dom (DB.users h) ∧ DB.users h' = delete (User.Username u) (DB.users h).
Proof.
  intros W [_ H]%locked_Ok. inv_bind H. apply ask_Ok in E as [E ->].
  apply userExists_Ok in E as (u0 & Hu0 & ->). split; [by eapply elem_of_dom_2|].
  inv_bind H. apply keeps_users in E as [H1 K1]; [|apply _|apply W].
  inv_bind H. apply keeps_users in E as [H2 K2]; [|apply _|done].
  inv_bind H. apply keeps_users in E as [H3 K3]; [|apply _|done].
  unfold upd, modify, mbind, M_bind in H. injection H as _ <-.
  rewrite <-H1, <-H2, <-H3. unfold deleteSharesWithUser, deleteAPIKeysWithUser.
  destruct (delete_where _ _) as [[] ?]; destruct (delete_where _ _) as [[] ?]; done.
Qed.

(** Nothing refers to an account that has been deleted. *)
Lemma deleteUser_gone u h x h' : wf h → deleteUser u h = (Ok x, h') →
  User.Username u ∉ DB.usernames h' ∧
  (∀ k r, DB.roles h' !! k = Some r → User.Username u ∉ Role.Users r) ∧
  (∀ k g, DB.groups h' !! k = Some g → User.Username u ∉ Group.Users g) ∧
  (∀ k f, DB.vfolders h' !! k = Some f → User.Username u ∉ BaseVirtualFolder.Users f) ∧
  (∀ k v, DB.apiKeys h' !! k = Some v → APIKey.User v ≠ User.Username u) ∧
  (∀ k v, DB.shares h' !! k = Some v → Share.Username v ≠ User.Username u).
Proof.
  intros W H. destruct (deleteUser_users _ _ _ _ W H) as [Hin Hdel].
  assert (User.Username u ≠ "") as Hne by (intros Hu; rewrite Hu in Hin; by apply (wf_no_empty_user _ W)).
  apply deleteUser_wf in H; [|done]. rename H into W'.
  assert (User.Username u ∉ dom (DB.users h')) as Hout by (rewrite Hdel, dom_delete_L; set_solver).
  assert (∀ f : User.t → list string, User.Username u ∉ dom (f <$> DB.users h')) as Hf by (intros f; by rewrite dom_fmap_L).
  split_and!.
  - rewrite (names_ok_elem _ _ _ (proj1 (wf_users _ W'))). by rewrite dom_fmap_L.
  - intros k r Hr. eapply (linked_absent _ _ _ k _ (wf_user_role _ W')); [apply Hf|by apply (lookup_attr Role.Users)].
  - intros k r Hr. eapply (linked_absent _ _ _ k _ (wf_user_group _ W')); [apply Hf|by apply (lookup_attr Group.Users)].
  - intros k r Hr. eapply (linked_absent _ _ _ k _ (wf_user_folder _ W')); [apply Hf|by apply (lookup_attr BaseVirtualFolder.Users)].
  - intros k v Hv Hu. apply (lookup_attr APIKey.User) in Hv. destruct (wf_key_user _ W' _ _ Hv); congruence.
  - intros k v Hv Hu. apply (lookup_attr Share.Username) in Hv. destruct (wf_share_user _ W' _ _ Hv); congruence.
Qed.

(** * Counters *)

(** [getUsedQuota], as far as the counters of the files are concerned. *)
Definition used_files (username : string) (h : DB.t) : option Z := User.UsedQuotaFiles <$> DB.users h !! username.
Definition used_size (username : string) (h : DB.t) : option Z := User.UsedQuotaSize <$> DB.users h !! username.

Lemma updateQuota_counters now username files size reset h u : wf h → DB.isClosed h = false →
  DB.users h !! username = Some u →
  let h' := (updateQuota now username files size reset h).2 in
  (updateQuota now username files size reset h).1 = Ok tt ∧
  used_files username h' = Some (if reset then files else add64 (User.UsedQuotaFiles u) files) ∧
  used_size username h' = Some (if reset then size else add64 (User.UsedQuotaSize u) size).
Proof.
  intros W Hc Hu. unfold updateQuota, locked. rewrite Hc. unfold update_user, mbind, M_bind, ask, userExistsInternal, existsIn.
  rewrite Hu. cbv zeta. remember (user_add_quota now files size reset (user_getACopy u)) as Y eqn:HY.
  assert (User.Username Y = username) as HYn by
    (subst Y; destruct reset; exact (keyed_key _ _ _ _ _ (wf_users _ W) Hu)).
  unfold upd, modify. cbn [fst snd]. split; [done|].
  unfold used_files, used_size. cbn. rewrite HYn, lookup_insert_eq. subst Y. by destruct reset.
Qed.

End users.

Section objects.
Context `{!Validate User.t, !Validate Group.t, !Validate Admin.t, !Validate Role.t,
  !Validate BaseVirtualFolder.t, !Validate APIKey.t, !Validate Share.t, !Validate BaseEventAction.t,
  !Validate EventRule.t, !Validate IPListEntry.t, !Validate Configs.t}.
Context {VN : ValidNames}.
Implicit Types now : nat → Z.

(** * Updating a user *)

(** What [updateUser] stores: the validated user with its groups and folders
    sorted and the identifier, dates and counters of the stored one. *)
Definition updated_user now (u v : User.t) : User.t := user_carry_over now u (user_sort_folders (user_sort_groups v)).

Lemma wf_folders_keyed h : wf h → folders_keyed h.
Proof. intros W. apply W. Qed.

Lemma updateUser_users now u h v x h' : wf h → validate u h = Ok v → updateUser now u h = (Ok x, h') →
  ∃ u0, DB.users h !! User.Username v = Some u0 ∧ x = updated_user now (user_getACopy u0) v ∧
    DB.users h' = <[User.Username v := user_getACopy x]> (DB.users h) ∧ DB.lastUserUpdate h' = now 1%nat.
Proof.
  intros W Hv H. unfold updateUser in H. inv_bind H. apply ask_Ok in E as [Hv' ->].
  assert (a = v) as -> by congruence. apply locked_Ok in H as [_ H]. inv_bind H. apply ask_Ok in E as [E ->].
  apply userExists_Ok in E as (u0 & Hu0 & ->). exists u0. split; [done|]. cbv zeta in H.
  pose proof (wf_folders_keyed _ W) as K0.
  inv_bind H. apply keeps_users in E as [H1 K1]; [|apply _|done].
  inv_bind H. apply keeps_users in E as [H2 K2]; [|unfold add_or_restore; apply _|done].
  inv_bind H. apply keeps_users in E as [H3 K3]; [|apply _|done].
  inv_bind H. apply keeps_users in E as [H4 K4]; [|apply _|done].
  inv_bind H. apply keeps_users in E as [H5 K5]; [|apply _|done].
  inv_bind H. apply keeps_users in E as [H6 K6]; [|apply _|done].
  unfold setLastUserUpdate, upd, modify, mbind, M_bind, mret, M_ret in H. injection H as <- <-.
  unfold updated_user. split; [done|]. cbn. by rewrite H6, H5, H4, H3, H2, H1.
Qed.

Lemma keeps_closed {A} (m : prov A) h a h' : Keeps m → folders_keyed h → m h = (Ok a, h') →
  DB.isClosed h' = DB.isClosed h ∧ folders_keyed h'.
Proof.
  intros Hm Hh E. destruct (Hm h Hh) as [[H _ _ _ _] Hk]. rewrite E in H, Hk. cbn [snd] in H, Hk.
  split; [|done]. by rewrite H.
Qed.
Lemma updateUser_open now u h x h' : wf h → updateUser now u h = (Ok x, h') → DB.isClosed h' = false.
Proof.
  intros W H. unfold updateUser in H. inv_bind H. apply ask_Ok in E as [_ ->].
  apply locked_Ok in H as [Hc H]. inv_bind H. apply ask_Ok in E as [_ ->]. cbv zeta in H. rewrite <-Hc.
  pose proof (wf_folders_keyed _ W) as K0. clear W.
  do 2 (inv_bind H; apply keeps_closed in E as [<- K]; [|unfold add_or_restore; apply _|done]; clear K0; rename K into K0).
  do 4 (inv_bind H; apply keeps_closed in E as [<- K]; [|apply _|done]; clear K0; rename K into K0).
  unfold setLastUserUpdate, upd, modify, mbind, M_bind, mret, M_ret in H. by injection H as _ <-.
Qed.

(** When a group is missing, the role the user was to have keeps its name,
    though the stored user still has its old role. *)
Lemma updateUser_leaves_role now u h v u0 g : validate u h = Ok v → DB.isClosed h = false →
  DB.users h !! User.Username v = Some u0 → User.Role v ∈ dom (DB.roles h) → User.Role v ≠ "" →
  g ∈ user_groupnames v → g ∉ dom (DB.groups h) → folders_keyed h →
  ∃ e h' r, updateUser now u h = (Err e, h') ∧ DB.users h' = DB.users h ∧
    DB.roles h' !! User.Role v = Some r ∧ User.Username v ∈ Role.Users r.
Proof.
  intros Hval Hc Hu0 Hrole Hne Hg Hmiss Hkf. destruct (updateUser now u h) as [r h'] eqn:H.
  unfold updateUser, mbind at 1, M_bind at 1, ask in H. rewrite Hval in H. unfold locked in H. rewrite Hc in H.
  unfold mbind at 1, M_bind at 1 in H. unfold userExistsInternal, existsIn in H. rewrite Hu0 in H. cbv zeta in H.
  assert (g ∈ user_groupnames (user_sort_groups v)) as Hg'.
  { unfold user_groupnames, user_sort_groups in *. cbn. apply list_elem_of_fmap.
    apply list_elem_of_fmap in Hg as (y & -> & Hy). exists y. by rewrite elem_of_sort_by. }
  autorewrite with attrs in H.
  unfold mbind at 1, M_bind at 1 in H. destruct (removeUserFromRole _ _ h) as [r0 h0] eqn:E.
  spec_ok E (removeUserFromRole_spec (User.Username u0) (User.Role u0) h). destruct Hs as (-> & m0 & -> & Hm0 & _).
  unfold mbind at 1, M_bind at 1, add_or_restore, try_catch in H.
  destruct (addUserToRole _ (User.Role v) _) as [r1 h1] eqn:E.
  spec_ok E (addUserToRole_spec (User.Username v) (User.Role v) (h <| DB.roles := m0 |>)).
  rewrite role_list_nonempty in Hs by done. destruct Hs as [(-> & mr & -> & _ & Hin & Hr)|(e & -> & -> & k & Hk & Hd)].
  2:{ apply list_elem_of_singleton in Hk as ->. simpl in Hd. by rewrite (same_but_dom _ _ _ _ Hm0) in Hd. }
  unfold mbind at 1, M_bind at 1 in H. simpl in H.
  destruct (for_each _ _ _) as [r2 h2] eqn:E.
  spec_ok E (user_groups_remove (User.Username u0) (user_groupnames (user_getACopy u0)) (h <| DB.roles := m0 |> <| DB.roles := mr |>)).
  destruct Hs as (-> & mg0 & -> & Hmg0 & _).
  unfold mbind at 1, M_bind at 1 in H. simpl in H.
  destruct (map_or_restore _ _ _ _) as [r3 h3] eqn:E.
  spec_ok E (user_groups_restore (User.Username v) (user_groupnames (user_getACopy u0)) (user_groupnames (user_sort_groups v))
    (h <| DB.roles := m0 |> <| DB.roles := mr |> <| DB.groups := mg0 |>)).
  destruct Hs as [(-> & mg & -> & _ & Hgs & _)|(e & pre & mg & -> & -> & _)].
  { apply Hgs in Hg'. simpl in Hg', Hmg0. by rewrite (same_but_dom _ _ _ _ Hmg0) in Hg'. }
  assert (edge (Role.Users <$> mr) (User.Role v) (User.Username v)) as (l & Hl & Hx).
  { rewrite Hr. apply edge_add_edges; [|right; set_solver].
    intros k Hk. rewrite dom_fmap_L. by apply Hin. }
  rewrite lookup_fmap in Hl. apply fmap_Some in Hl as (rr & Hrr & ->).
  injection H as <- <-. exists e. eexists. exists rr. split_and!; done.
Qed.

(** * Deletions *)

Lemma linked_holder {A B} (m : gmap string A) (out : A → list string) (m' : gmap string B) (back : B → list string) k a k' :
  linked (out <$> m) (back <$> m') → m !! k = Some a → k' ∈ out a → ∃ b, m' !! k' = Some b ∧ k ∈ back b.
Proof.
  intros H Hk Hin. destruct (proj1 (H k k')) as (l & Hl & Hx).
  { exists (out a). by rewrite lookup_fmap, Hk. }
  rewrite lookup_fmap in Hl. apply fmap_Some in Hl as (b & Hb & ->). by exists b.
Qed.

Lemma nonempty_elem {A} (x : A) l : x ∈ l → (0 < length l)%nat.
Proof. destruct l; [set_solver|simpl; lia]. Qed.

(** An object that is still referred to is not deleted. *)
Lemma deleteGroup_refused g h u0 u : wf h → DB.isClosed h = false → DB.users h !! u0 = Some u →
  Group.Name g ∈ user_groupnames u →
  deleteGroup g h = (Err (ValidationError "the group is referenced, it cannot be removed"), h).
Proof.
  intros W Hc Hu Hin. destruct (linked_holder _ _ _ _ _ _ _ (wf_user_group _ W) Hu Hin) as (g0 & Hg0 & Hx).
  unfold deleteGroup, locked. rewrite Hc. unfold mbind, M_bind, ask, groupExistsInternal, existsIn. rewrite Hg0.
  by rewrite bool_decide_eq_true_2 by (by eapply nonempty_elem).
Qed.

Lemma deleteRole_refused r h a0 a : wf h → DB.isClosed h = false → DB.admins h !! a0 = Some a →
  Role.Name r ∈ admin_roles a →
  deleteRole r h = (Err (ValidationError "the role is referenced, it cannot be removed"), h).
Proof.
  intros W Hc Hu Hin. destruct (linked_holder _ _ _ _ _ _ _ (wf_admin_role _ W) Hu Hin) as (g0 & Hg0 & Hx).
  unfold deleteRole, locked. rewrite Hc. unfold mbind, M_bind, ask, roleExistsInternal, existsIn. rewrite Hg0.
  by rewrite bool_decide_eq_true_2 by (by eapply nonempty_elem).
Qed.

Lemma deleteEventAction_refused a h r0 r : wf h → DB.isClosed h = false → DB.rules h !! r0 = Some r →
  BaseEventAction.Name a ∈ rule_actionnames r →
  deleteEventAction a h = (Err (ValidationError "action is referenced, it cannot be removed"), h).
Proof.
  intros W Hc Hu Hin. destruct (linked_holder _ _ _ _ _ _ _ (wf_rule_action _ W) Hu Hin) as (g0 & Hg0 & Hx).
  unfold deleteEventAction, locked. rewrite Hc.
  unfold mbind, M_bind, try_catch, ask, actionExistsInternal, existsIn. rewrite Hg0.
  unfold mret, M_ret. cbv match beta.
  by rewrite bool_decide_eq_true_2 by (by eapply nonempty_elem).
Qed.

(** A deletion that succeeds removes the object, whatever its loops did. *)
Lemma deleteRole_roles r h x h' : deleteRole r h = (Ok x, h') → Role.Name r ∉ dom (DB.roles h').
Proof.
  intros [_ H]%locked_Ok. inv_bind H. case_bool_decide; [done|]. inv_bind H. inv_bind H.
  injection E1 as _ <-. injection H as _ <-. cbn. rewrite dom_delete_L. set_solver.
Qed.
Lemma deleteFolder_folders f h x h' : wf h → deleteFolder f h = (Ok x, h') →
  BaseVirtualFolder.Name f ∉ dom (DB.vfolders h').
Proof.
  intros W [_ H]%locked_Ok. inv_bind H. apply ask_Ok in E as [E ->].
  unfold folderExistsInternal, existsIn in E. destruct (DB.vfolders h !! _) as [f0|] eqn:Hf; [|done]. injection E as <-.
  pose proof (keyed_key _ _ _ _ _ (wf_vfolders _ W) Hf) as Hk. cbv zeta in H.
  inv_bind H. inv_bind H. inv_bind H. injection E1 as _ <-. injection H as _ <-. cbn.
  rewrite Hk, dom_delete_L. set_solver.
Qed.
Lemma deleteGroup_groups g h x h' : deleteGroup g h = (Ok x, h') → Group.Name g ∉ dom (DB.groups h').
Proof.
  intros [_ H]%locked_Ok. inv_bind H. case_bool_decide; [done|]. inv_bind H. inv_bind H. inv_bind H.
  injection E2 as _ <-. injection H as _ <-. cbn. rewrite dom_delete_L. set_solver.
Qed.

Lemma linked_unused {A B} (m : gmap string A) (out : A → list string) (m' : gmap string B) (back : B → list string) k' :
  linked (out <$> m) (back <$> m') → k' ∉ dom m' → ∀ k a, m !! k = Some a → k' ∉ out a.
Proof. intros H Hd k a Hk Hin. destruct (linked_holder _ _ _ _ _ _ _ H Hk Hin) as (b & Hb & _). by apply Hd, elem_of_dom. Qed.

(** * Identifiers *)

(** [new] is larger than the identifiers of the table, and whatever the order
    in which the map is visited the code computes it. *)
Definition is_new_id {B} (id : B → Z) (m : gmap string B) (new : Z) : Prop :=
  1 <= new ∧ (∀ k v, m !! k = Some v → id v < new) ∧ ∀ order, order ≡ₚ ids_of id m → next_id order = new.

Definition ids_below {B} (id : B → Z) (m : gmap string B) : Prop := ∀ k v, m !! k = Some v → id v < MaxInt64.

Lemma next_id_new {B} (id : B → Z) (m : gmap string B) : ids_below id m → is_new_id id m (next_id (ids_of id m)).
Proof.
  intros H. assert (Forall (fun i => i < MaxInt64) (ids_of id m)) as HF.
  { unfold ids_of. apply Forall_fmap, Forall_forall. intros [k v] Hin%elem_of_map_to_list. by eapply H. }
  destruct (next_id_spec _ HF) as (H1 & _ & H3). split_and!; [done| |].
  - intros k v Hk. rewrite Forall_forall in H3. apply H3. unfold ids_of. apply list_elem_of_fmap.
    exists (k, v). by rewrite elem_of_map_to_list.
  - intros order Hp. apply next_id_perm; [by rewrite Hp|done].
Qed.

(** * Shares *)

(** [addShare] with the identifier of a share of another user. *)
Lemma addShare_takes_over now s h v s0 : validate s h = Ok v → DB.isClosed h = false →
  DB.shares h !! Share.ShareID v = Some s0 → Share.Username v ≠ Share.Username s0 → Share.Username v ≠ "" →
  Share.Username v ∈ dom (DB.users h) → Share.ShareID v ∈ DB.sharesIDs h →
  ∃ x h', addShare now s h = (Ok x, h') ∧
    (∃ s1, DB.shares h' !! Share.ShareID v = Some s1 ∧ Share.Username s1 = Share.Username v) ∧
    ¬ NoDup (DB.sharesIDs h').
Proof.
  intros Hv Hc Hs Hne Hnn Hu Hin. unfold addShare, mbind at 1, M_bind at 1, ask. rewrite Hv.
  unfold locked. rewrite Hc. unfold mbind at 1, M_bind at 1, check_absent, shareExistsInternal. rewrite Hs.
  rewrite (proj2 (String.eqb_neq (Share.Username v) "")) by done.
  rewrite (proj2 (String.eqb_neq (Share.Username s0) (Share.Username v))) by congruence. simpl negb. cbn [andb is_ok]. cbv match beta.
  unfold mbind at 1, M_bind at 1, check_share_user.
  assert (is_ok (userExistsInternal (Share.Username v) h) = true) as ->.
  { unfold userExistsInternal, existsIn. by apply elem_of_dom in Hu as [? ->]. }
  remember (share_times now 1 (share_created now v)) as X eqn:HX.
  assert (Share.ShareID X = Share.ShareID v ∧ Share.Username X = Share.Username v) as [H1 H2].
  { subst X. unfold share_times, share_created. split; repeat case_match; done. }
  unfold upd, modify, mbind, M_bind, mret, M_ret. do 2 eexists. split; [done|]. rewrite H1. split.
  - exists (share_getACopy X). cbn. by rewrite lookup_insert_eq.
  - cbn. unfold append_name. rewrite sort_strings_perm, NoDup_app. intros (_ & Hd & _).
    apply (Hd _ Hin). set_solver.
Qed.
End objects.
