(* ===== verification/MemoryQueries.v ===== *)
(** The methods of the in-memory data provider that only read its state
    (internal/dataprovider/memory.go).

    A map without the key yields the zero value; in a well-formed state every
    name of a list is a key.  A [range] over a map is in the order of
    [map_to_list]; only the dumps of folders, admins, API keys and shares use
    one. *)
From S2P Require Import Prelude Util Net FsConfig Entities Links Tables MemoryCore UserPerms GroupMerge.
Open Scope Z_scope.

(** [if p.dbHandle.isClosed { return ..., errMemoryProviderClosed }] *)
Definition when_open {A} (h : DB.t) (r : res A) : res A :=
  if DB.isClosed h then Err ErrMemoryProviderClosed else r.

(** [make([]T, 0, limit)] *)
Definition with_capacity {A} (limit : Z) (r : res A) : res A :=
  if limit <? 0 then Err (RuntimePanic "makeslice: cap out of range") else r.

(** [m[name]], the zero value when there is none *)
Definition entry {B} (zero : B) (m : gmap string B) (name : string) : B := default zero (m !! name).

(** no name is passed over before it is counted *)
Definition no_skip (_ : string) : bool := false.

Section queries.
(** The order of a [range] over a map of permissions, see GroupMerge. *)
Variable range : gmap string (list string) → list (string * list string).

(** * Users *)

(* source: internal/dataprovider/memory.go getUsedQuota *)
Definition getUsedQuota (username : string) (h : DB.t) : res (Z * Z * Z * Z) :=
  when_open h (
    user ← userExistsInternal username h;
    Ok (User.UsedQuotaFiles user, User.UsedQuotaSize user, User.UsedUploadDataTransfer user,
        User.UsedDownloadDataTransfer user)).

(* source: internal/dataprovider/memory.go userExists *)
Definition userExists (username role : string) (h : DB.t) : res User.t :=
  when_open h (
    user ← userExistsInternal username h;
    if negb (user_hasRole user role) then Err (RecordNotFoundError "username" username)
    else Ok (addVirtualFoldersToUser h user)).

(* source: internal/dataprovider/memory.go dumpUsers *)
Definition dumpUsers (h : DB.t) : res (list User.t) :=
  when_open h (Ok ((fun username =>
    addVirtualFoldersToUser h (user_getACopy (entry User.zero (DB.users h) username))) <$> DB.usernames h)).

(** [groupMapping[group.Name] = group] for the groups of the user that exist *)
Definition user_group_mapping (h : DB.t) (user : User.t) : gmap string Group.t :=
  foldl (fun (groupMapping : gmap string Group.t) g =>
    match groupExistsInternal (GroupMapping.Name g) h with
    | Err _ => groupMapping
    | Ok group => <[Group.Name group := group]> groupMapping
    end) (∅ : gmap string Group.t) (User.Groups user).

Definition with_group_settings (h : DB.t) (user : User.t) : User.t :=
  if bool_decide (0 < length (User.Groups user))%nat
  then applyGroupSettings range user (user_group_mapping h user) else user.

(* source: internal/dataprovider/memory.go getRecentlyUpdatedUsers *)
Definition getRecentlyUpdatedUsers (after : Z) (h : DB.t) : res (list User.t) :=
  if DB.lastUserUpdate h <? after then Ok []
  else when_open h (Ok (omap (fun username =>
    let u := entry User.zero (DB.users h) username in
    if User.UpdatedAt u <? after then None
    else
      let user := addVirtualFoldersToUser h (user_getACopy u) in
      Some (user_SetEmptySecretsIfNil (with_group_settings h user))) (DB.usernames h))).

(** [toFetch] maps the users to check to whether their folders are needed. *)
(* source: internal/dataprovider/memory.go getUsersForQuotaCheck *)
Definition getUsersForQuotaCheck (toFetch : gmap string bool) (h : DB.t) : res (list User.t) :=
  when_open h (Ok (omap (fun username =>
    match (toFetch !! username : option bool) with
    | None => None
    | Some needFolders =>
        let user := user_getACopy (entry User.zero (DB.users h) username) in
        let user := if needFolders then addVirtualFoldersToUser h user else user in
        Some (user_PrepareForRendering (user_SetEmptySecretsIfNil (with_group_settings h user)))
    end) (DB.usernames h))).

(** A user of a page: the role is tested after the user was counted. *)
Definition load_user (role : string) (h : DB.t) (username : string) : option User.t :=
  let user := user_getACopy (entry User.zero (DB.users h) username) in
  if negb (user_hasRole user role) then None
  else Some (user_PrepareForRendering (addVirtualFoldersToUser h user)).

(* source: internal/dataprovider/memory.go getUsers *)
Definition getUsers (limit offset : Z) (order role : string) (h : DB.t) : res (list User.t) :=
  with_capacity limit (when_open h (
    if limit <=? 0 then Ok []
    else Ok (page no_skip (load_user role h) (order =s OrderASC) limit offset (DB.usernames h)))).

(** * Admins *)

(* source: internal/dataprovider/memory.go adminExists *)
Definition adminExists (username : string) (h : DB.t) : res Admin.t := when_open h (adminExistsInternal username h).

(* source: internal/dataprovider/memory.go dumpAdmins *)
Definition dumpAdmins (h : DB.t) : res (list Admin.t) := when_open h (Ok (snd <$> map_to_list (DB.admins h))).

Definition load_admin (h : DB.t) (username : string) : option Admin.t :=
  Some (admin_HideConfidentialData (admin_getACopy (entry Admin.zero (DB.admins h) username))).

(* source: internal/dataprovider/memory.go getAdmins *)
Definition getAdmins (limit offset : Z) (order : string) (h : DB.t) : res (list Admin.t) :=
  with_capacity limit (when_open h (
    if limit <=? 0 then Ok []
    else Ok (page no_skip (load_admin h) (order =s OrderASC) limit offset (DB.adminsUsernames h)))).

(** * Groups *)

Definition load_group (h : DB.t) (name : string) : option Group.t :=
  Some (group_PrepareForRendering (addVirtualFoldersToGroup h (group_getACopy (entry Group.zero (DB.groups h) name)))).

(* source: internal/dataprovider/memory.go getGroups *)
Definition getGroups (limit offset : Z) (order : string) (h : DB.t) : res (list Group.t) :=
  when_open h (
    if limit <=? 0 then Ok []
    else Ok (page no_skip (load_group h) (order =s OrderASC) limit offset (DB.groupnames h))).

(* source: internal/dataprovider/memory.go getGroupsWithNames *)
Definition getGroupsWithNames (names : list string) (h : DB.t) : res (list Group.t) :=
  when_open h (Ok (omap (fun name =>
    match DB.groups h !! name with
    | Some val => Some (addVirtualFoldersToGroup h (group_getACopy val))
    | None => None
    end) names)).

(* source: internal/dataprovider/memory.go getUsersInGroups *)
Definition getUsersInGroups (names : list string) (h : DB.t) : res (list string) :=
  when_open h (Ok (mjoin ((fun name =>
    match DB.groups h !! name with
    | Some val => Group.Users (group_getACopy val)
    | None => []
    end) <$> names))).

(* source: internal/dataprovider/memory.go groupExists *)
Definition groupExists (name : string) (h : DB.t) : res Group.t :=
  when_open h (group ← groupExistsInternal name h; Ok (addVirtualFoldersToGroup h group)).

(* source: internal/dataprovider/memory.go dumpGroups *)
Definition dumpGroups (h : DB.t) : res (list Group.t) :=
  when_open h (Ok ((fun name =>
    addVirtualFoldersToGroup h (group_getACopy (entry Group.zero (DB.groups h) name))) <$> DB.groupnames h)).

(** * Folders *)

(* source: internal/dataprovider/memory.go getUsedFolderQuota *)
Definition getUsedFolderQuota (name : string) (h : DB.t) : res (Z * Z) :=
  when_open h (
    folder ← folderExistsInternal name h;
    Ok (BaseVirtualFolder.UsedQuotaFiles folder, BaseVirtualFolder.UsedQuotaSize folder)).

(* source: internal/dataprovider/memory.go getFolderByName *)
Definition getFolderByName (name : string) (h : DB.t) : res BaseVirtualFolder.t :=
  when_open h (folder ← folderExistsInternal name h; Ok (folder_GetACopy folder)).

(* source: internal/dataprovider/memory.go dumpFolders *)
Definition dumpFolders (h : DB.t) : res (list BaseVirtualFolder.t) :=
  when_open h (Ok (snd <$> map_to_list (DB.vfolders h))).

Definition load_folder (h : DB.t) (name : string) : option BaseVirtualFolder.t :=
  Some (folder_PrepareForRendering (folder_GetACopy (entry BaseVirtualFolder.zero (DB.vfolders h) name))).

(* source: internal/dataprovider/memory.go getFolders *)
Definition getFolders (limit offset : Z) (order : string) (h : DB.t) : res (list BaseVirtualFolder.t) :=
  with_capacity limit (when_open h (
    if limit <=? 0 then Ok []
    else Ok (page no_skip (load_folder h) (order =s OrderASC) limit offset (DB.vfoldersNames h)))).

(** * API keys and shares: any order but [OrderDESC] is ascending *)

(* source: internal/dataprovider/memory.go apiKeyExists *)
Definition apiKeyExists (keyID : string) (h : DB.t) : res APIKey.t := when_open h (apiKeyExistsInternal keyID h).

Definition load_apikey (h : DB.t) (keyID : string) : option APIKey.t :=
  Some (apikey_HideConfidentialData (apikey_getACopy (entry APIKey.zero (DB.apiKeys h) keyID))).

(* source: internal/dataprovider/memory.go getAPIKeys *)
Definition getAPIKeys (limit offset : Z) (order : string) (h : DB.t) : res (list APIKey.t) :=
  with_capacity limit (when_open h (
    if limit <=? 0 then Ok []
    else Ok (page no_skip (load_apikey h) (negb (order =s OrderDESC)) limit offset (DB.apiKeysIDs h)))).

(* source: internal/dataprovider/memory.go dumpAPIKeys *)
Definition dumpAPIKeys (h : DB.t) : res (list APIKey.t) := when_open h (Ok (snd <$> map_to_list (DB.apiKeys h))).

(* source: internal/dataprovider/memory.go shareExists *)
Definition shareExists (shareID username : string) (h : DB.t) : res Share.t :=
  when_open h (shareExistsInternal shareID username h).

(** A share of another user is passed over before it is counted. *)
Definition other_share (username : string) (h : DB.t) (shareID : string) : bool :=
  negb (Share.Username (entry Share.zero (DB.shares h) shareID) =s username).
Definition load_share (h : DB.t) (shareID : string) : option Share.t :=
  Some (share_HideConfidentialData (share_getACopy (entry Share.zero (DB.shares h) shareID))).

(* source: internal/dataprovider/memory.go getShares *)
Definition getShares (limit offset : Z) (order username : string) (h : DB.t) : res (list Share.t) :=
  when_open h (
    if limit <=? 0 then Ok []
    else Ok (page (other_share username h) (load_share h) (negb (order =s OrderDESC)) limit offset (DB.sharesIDs h))).

(* source: internal/dataprovider/memory.go dumpShares *)
Definition dumpShares (h : DB.t) : res (list Share.t) := when_open h (Ok (snd <$> map_to_list (DB.shares h))).

(** * Event actions and rules *)

Definition load_action (h : DB.t) (name : string) : option BaseEventAction.t :=
  Some (action_PrepareForRendering (action_getACopy (entry BaseEventAction.zero (DB.actions h) name))).

(* source: internal/dataprovider/memory.go getEventActions *)
Definition getEventActions (limit offset : Z) (order : string) (h : DB.t) : res (list BaseEventAction.t) :=
  when_open h (
    if limit <=? 0 then Ok []
    else Ok (page no_skip (load_action h) (order =s OrderASC) limit offset (DB.actionsNames h))).

(* source: internal/dataprovider/memory.go dumpEventActions *)
Definition dumpEventActions (h : DB.t) : res (list BaseEventAction.t) :=
  when_open h (Ok ((fun name => action_getACopy (entry BaseEventAction.zero (DB.actions h) name)) <$> DB.actionsNames h)).

(* source: internal/dataprovider/memory.go eventActionExists *)
Definition eventActionExists (name : string) (h : DB.t) : res BaseEventAction.t :=
  when_open h (actionExistsInternal name h).

Definition load_rule (h : DB.t) (name : string) : option EventRule.t :=
  Some (rule_PrepareForRendering (addActionsToRule h (rule_getACopy (entry EventRule.zero (DB.rules h) name)))).

(* source: internal/dataprovider/memory.go getEventRules *)
Definition getEventRules (limit offset : Z) (order : string) (h : DB.t) : res (list EventRule.t) :=
  when_open h (
    if limit <=? 0 then Ok []
    else Ok (page no_skip (load_rule h) (order =s OrderASC) limit offset (DB.rulesNames h))).

(* source: internal/dataprovider/memory.go dumpEventRules *)
Definition dumpEventRules (h : DB.t) : res (list EventRule.t) :=
  when_open h (Ok ((fun name =>
    addActionsToRule h (rule_getACopy (entry EventRule.zero (DB.rules h) name))) <$> DB.rulesNames h)).

(* source: internal/dataprovider/memory.go getRecentlyUpdatedRules *)
Definition getRecentlyUpdatedRules (after : Z) (h : DB.t) : res (list EventRule.t) :=
  if DB.lastRuleUpdate h <? after then Ok []
  else when_open h (Ok (omap (fun name =>
    let r := entry EventRule.zero (DB.rules h) name in
    if EventRule.UpdatedAt r <? after then None
    else Some (addActionsToRule h (rule_getACopy r))) (DB.rulesNames h))).

(* source: internal/dataprovider/memory.go eventRuleExists *)
Definition eventRuleExists (name : string) (h : DB.t) : res EventRule.t :=
  when_open h (rule ← ruleExistsInternal name h; Ok (addActionsToRule h rule)).

(** * Roles *)

(* source: internal/dataprovider/memory.go roleExists *)
Definition roleExists (name : string) (h : DB.t) : res Role.t := when_open h (roleExistsInternal name h).

Definition load_role (h : DB.t) (name : string) : option Role.t :=
  Some (role_getACopy (entry Role.zero (DB.roles h) name)).

(* source: internal/dataprovider/memory.go getRoles *)
Definition getRoles (limit offset : Z) (order : string) (h : DB.t) : res (list Role.t) :=
  when_open h (
    if limit <=? 0 then Ok []
    else Ok (page no_skip (load_role h) (order =s OrderASC) limit offset (DB.roleNames h))).

(* source: internal/dataprovider/memory.go dumpRoles *)
Definition dumpRoles (h : DB.t) : res (list Role.t) :=
  when_open h (Ok ((fun name => role_getACopy (entry Role.zero (DB.roles h) name)) <$> DB.roleNames h)).

(** * IP lists *)

(* source: internal/dataprovider/iplist.go#L36-L36 ipListMemoryLimit *)
Definition ipListMemoryLimit : nat := 15000.

(* source: internal/dataprovider/memory.go ipListEntryExists *)
Definition ipListEntryExists (ipOrNet : string) (listType : Z) (h : DB.t) : res IPListEntry.t :=
  when_open h (
    entry ← ipListEntryExistsInternal
      (IPListEntry.zero <| IPListEntry.IPOrNet := ipOrNet |> <| IPListEntry.Type_ := listType |>) h;
    Ok (ipentry_PrepareForRendering entry)).

Definition load_ipentry (h : DB.t) (k : string) : IPListEntry.t :=
  ipentry_PrepareForRendering (ipentry_getACopy (entry IPListEntry.zero (DB.ipListEntries h) k)).

(** The loop over the keys; a [limit] that is not positive is no limit. *)
Fixpoint entries_loop (sel : string → bool) (h : DB.t) (limit : Z) (acc : list IPListEntry.t) (keys : list string)
    : list IPListEntry.t :=
  match keys with
  | [] => acc
  | k :: keys' =>
      if sel k then
        let acc := acc ++ [load_ipentry h k] in
        if (0 <? limit) && (limit <=? Z.of_nat (length acc)) then acc else entries_loop sel h limit acc keys'
      else entries_loop sel h limit acc keys'
  end.

(* source: internal/dataprovider/memory.go getIPListEntries *)
Definition getIPListEntries (listType : Z) (filter from order : string) (limit : Z) (h : DB.t) : res (list IPListEntry.t) :=
  when_open h (
    let sel k :=
      let e := entry IPListEntry.zero (DB.ipListEntries h) k in
      (IPListEntry.Type_ e =? listType) && ipentry_satisfySearchConstraints e filter from order in
    Ok (entries_loop sel h limit []
          (if order =s OrderASC then DB.ipListEntriesKeys h else reverse (DB.ipListEntriesKeys h)))).

(* source: internal/dataprovider/memory.go dumpIPListEntries *)
Definition dumpIPListEntries (h : DB.t) : res (list IPListEntry.t) :=
  when_open h (
    if bool_decide (ipListMemoryLimit < length (DB.ipListEntriesKeys h))%nat then Ok []
    else Ok (load_ipentry h <$> DB.ipListEntriesKeys h)).

(* source: internal/dataprovider/memory.go countIPListEntries *)
Definition countIPListEntries (listType : Z) (h : DB.t) : res Z :=
  when_open h (
    if listType =? 0 then Ok (Z.of_nat (length (DB.ipListEntriesKeys h)))
    else Ok (foldl (fun count k =>
      if IPListEntry.Type_ (entry IPListEntry.zero (DB.ipListEntries h) k) =? listType then count + 1 else count)
      0 (DB.ipListEntriesKeys h))).

(** [bytes.Compare(a, b) <= 0] *)
Fixpoint bytes_le (a b : list Z) : bool :=
  match a, b with
  | [], _ => true
  | _ :: _, [] => false
  | x :: a', y :: b' => if x <? y then true else if y <? x then false else bytes_le a' b'
  end.

(** The addresses of [netip], their bytes and the type of entry they match. *)
Definition ip_key (a : addr) : Z * list Z :=
  match a with
  | V4 b => (ipTypeV4, b)
  | V6 b _ => if Is4In6 a then (ipTypeV4, drop 12 b) else (ipTypeV6, b)
  end.

(* source: internal/dataprovider/memory.go getListEntriesForIP *)
Definition getListEntriesForIP (ip : string) (listType : Z) (h : DB.t) : res (list IPListEntry.t) :=
  when_open h (
    match ParseAddr ip with
    | None => Err (PlainError "invalid ip address")
    | Some ipAddr =>
        let '(netType, ipBytes) := ip_key ipAddr in
        Ok (load_ipentry h <$> List.filter (fun k =>
          let e := entry IPListEntry.zero (DB.ipListEntries h) k in
          (IPListEntry.Type_ e =? listType) && (IPListEntry.IPType e =? netType) &&
          bytes_le (IPListEntry.First e) ipBytes && bytes_le ipBytes (IPListEntry.Last e)) (DB.ipListEntriesKeys h))
    end).

(* source: internal/dataprovider/memory.go getConfigs *)
Definition getConfigs (h : DB.t) : res Configs.t := when_open h (Ok (configs_getACopy (DB.configs h))).
End queries.
