(* ===== verification/ValidateObjects.v ===== *)
(** Validation and access rules of groups, roles, admins, API keys and shares
    (internal/dataprovider/group.go, role.go, admin.go, apikey.go, share.go).

    As for users, a validator returns the object it leaves behind.  [now] is the
    time of the call in milliseconds; the identifiers that an API key without one
    gets are parameters. *)
From Stdlib Require Import Ascii QArith.
From S2P Require Import Prelude GoPath Util Net FsConfig FsValidate Entities Links Tables MemoryCore UserPerms GroupMerge MemoryQueries ValidateUser.
Open Scope Z_scope.

(** * Constants *)

(* source: internal/dataprovider/admin.go#L61-L66 validAdminPerms *)
Definition validAdminPerms : list string :=
  ["*"; "add_users"; "edit_users"; "del_users"; "view_users"; "manage_folders"; "manage_groups"; "view_conns";
   "close_conns"; "view_status"; "manage_admins"; "manage_roles"; "manage_event_rules"; "manage_apikeys"; "quota_scans";
   "manage_system"; "manage_defender"; "view_defender"; "manage_ip_lists"; "retention_checks"; "metadata_checks";
   "view_events"].
Definition PermAdminAny : string := "*".
(* source: internal/dataprovider/admin.go#L67-L68 forbiddenPermsForRoleAdmins *)
Definition forbiddenPermsForRoleAdmins : list string :=
  [PermAdminAny; "manage_admins"; "manage_system"; "manage_event_rules"; "manage_ip_lists"; "manage_roles"].

Definition GroupAddToUsersAsMembership : Z := 0.
Definition GroupAddToUsersAsPrimary : Z := 1.
Definition GroupAddToUsersAsSecondary : Z := 2.
Definition APIKeyScopeAdmin : Z := 1.
Definition APIKeyScopeUser : Z := 2.
Definition ShareScopeRead : Z := 1.
Definition ShareScopeWrite : Z := 2.
Definition ShareScopeReadWrite : Z := 3.

(** [strings.Join] *)
Fixpoint strings_Join (l : list string) (sep : string) : string :=
  match l with [] => "" | [x] => x | x :: l' => x +:+ sep +:+ strings_Join l' sep end.

Section validate_objects.
Context {K : Kms} {S : Settings}.
Variable url_Parse : string → option (string * string).
Variable now : Z.
Variable range : gmap string (list string) → list (string * list string).

(* source: internal/dataprovider/dataprovider.go convertName *)
Definition convertName (name : string) : string :=
  if NamingRules <=? 1 then name
  else
    let name := if negb (Z.land NamingRules 2 =? 0) then ToLower name else name in
    if negb (Z.land NamingRules 4 =? 0) then TrimSpace name else name.

(** [if x != "" && !util.IsStringPrefixInSlice(x, internalHashPwdPrefixes)] *)
Definition must_hash (x : string) : bool := negb (x =s "") && negb (IsStringPrefixInSlice x internalHashPwdPrefixes).
(** the hash with the configured algorithm; its error is returned as it is *)
Definition hash_secret (x : string) : res string :=
  if hashing_Algo =s HashingAlgoBcrypt then bcrypt_Generate x bcrypt_Cost else argon2id_CreateHash x.

(** * Groups *)

(* source: internal/dataprovider/group.go HasExternalAuth *)
Definition group_HasExternalAuth (g : Group.t) : bool :=
  if BaseUserFilters.ExternalAuthDisabled (GroupUserSettings.Filters (Group.UserSettings g)) then false
  else if negb (ExternalAuthHook =s "") then true
  else HasAuthenticators.

(* source: internal/dataprovider/group.go GetEncryptionAdditionalData *)
Definition group_GetEncryptionAdditionalData (g : Group.t) : string := "group_" +:+ Group.Name g.

(** [g.UserSettings] after the checks, with the name of the group for the
    encryption of the secrets; [external] is [g.HasExternalAuth()]. *)
(* source: internal/dataprovider/group.go validateUserSettings *)
Definition validateUserSettings (additionalData : string) (external : bool) (s : GroupUserSettings.t) : res GroupUserSettings.t :=
  s ← (if negb (GroupUserSettings.HomeDir s =s "") then
         let s := s <| GroupUserSettings.HomeDir ::= path_Clean |> in
         _ ← refuse (negb (is_abs (GroupUserSettings.HomeDir s))) (ValidationError "home_dir must be an absolute path");
         Ok s
       else Ok s);
  fs ← fs_Validate url_Parse additionalData (GroupUserSettings.FsConfig s);
  let s := s <| GroupUserSettings.FsConfig := fs |> in
  let s := if 0 <? GroupUserSettings.TotalDataTransfer s
           then s <| GroupUserSettings.UploadDataTransfer := 0 |> <| GroupUserSettings.DownloadDataTransfer := 0 |> else s in
  s ← (if bool_decide (GroupUserSettings.Permissions s = ∅) then Ok s
       else permissions ← validateUserPermissions range (GroupUserSettings.Permissions s);
            Ok (s <| GroupUserSettings.Permissions := permissions |>));
  filters ← validateBaseFilters ((GroupUserSettings.Filters s) <| BaseUserFilters.TLSCerts := [] |>);
  let filters := if negb external then filters <| BaseUserFilters.ExternalAuthCacheTime := 0 |> else filters in
  Ok (s <| GroupUserSettings.Filters := filters <| BaseUserFilters.UserType := "" |> |>).

(* source: internal/dataprovider/group.go Group.validate *)
Definition group_validate (g : Group.t) : res Group.t :=
  let g := group_SetEmptySecretsIfNil g in
  _ ← refuse (Group.Name g =s "") (ValidationError "name is mandatory");
  _ ← refuse (bad_name (Group.Name g)) (ValidationError "name is not valid");
  _ ← refuse (group_hasRedactedSecret g) (ValidationError "cannot save a group with a redacted secret");
  vfolders ← validateAssociatedVirtualFolders (Group.VirtualFolders g);
  let g := g <| Group.VirtualFolders := vfolders |> in
  settings ← validateUserSettings (group_GetEncryptionAdditionalData g) (group_HasExternalAuth g) (Group.UserSettings g);
  Ok (g <| Group.UserSettings := settings |>).

(* source: internal/dataprovider/group.go GetAllowedIPAsString *)
Definition group_GetAllowedIPAsString (g : Group.t) : string :=
  strings_Join (BaseUserFilters.AllowedIP (GroupUserSettings.Filters (Group.UserSettings g))) ",".
(* source: internal/dataprovider/group.go GetDeniedIPAsString *)
Definition group_GetDeniedIPAsString (g : Group.t) : string :=
  strings_Join (BaseUserFilters.DeniedIP (GroupUserSettings.Filters (Group.UserSettings g))) ",".

(** * Roles *)

(* source: internal/dataprovider/role.go Role.validate *)
Definition role_validate (r : Role.t) : res Role.t :=
  _ ← refuse (Role.Name r =s "") (ValidationError "name is mandatory");
  _ ← refuse (255 <? String.length (Role.Name r))%nat (ValidationError "name is too long, 255 is the maximum length allowed");
  _ ← refuse (bad_name (Role.Name r)) (ValidationError "name is not valid");
  Ok r.

(** * Admins *)

(* source: internal/dataprovider/admin.go AdminTOTPConfig.validate *)
Definition admin_totp_validate (c : AdminTOTPConfig.t) (username : string) : res AdminTOTPConfig.t :=
  if negb (AdminTOTPConfig.Enabled c) then
    Ok (c <| AdminTOTPConfig.ConfigName := "" |> <| AdminTOTPConfig.Secret := Some NewEmptySecret |>)
  else
    _ ← refuse (AdminTOTPConfig.ConfigName c =s "") (ValidationError "totp: config name is mandatory");
    _ ← refuse (negb (contains totp_configs (AdminTOTPConfig.ConfigName c))) (ValidationError "totp: config name not found");
    _ ← refuse (secret_IsEmpty (deref (AdminTOTPConfig.Secret c))) (ValidationError "totp: secret is mandatory");
    secret ← encrypt_plain username "totp: unable to encrypt secret" (AdminTOTPConfig.Secret c);
    Ok (c <| AdminTOTPConfig.Secret := secret |>).

(** ** The sections of the user page *)

Definition hides (p : AdminPreferences.t) (bit : Z) : bool := negb (Z.land (AdminPreferences.HideUserPageSections p) bit =? 0).
(* source: internal/dataprovider/admin.go HideGroups *)
Definition HideGroups (p : AdminPreferences.t) : bool := hides p 1.
(* source: internal/dataprovider/admin.go HideFilesystem *)
Definition HideFilesystem (p : AdminPreferences.t) : bool := negb (UsersBaseDir =s "") && hides p 2.
(* source: internal/dataprovider/admin.go HideVirtualFolders *)
Definition HideVirtualFolders (p : AdminPreferences.t) : bool := hides p 4.
(* source: internal/dataprovider/admin.go HideProfile *)
Definition HideProfile (p : AdminPreferences.t) : bool := hides p 8.
(* source: internal/dataprovider/admin.go HideACLs *)
Definition HideACLs (p : AdminPreferences.t) : bool := hides p 16.
(* source: internal/dataprovider/admin.go HideDiskQuotaAndBandwidthLimits *)
Definition HideDiskQuotaAndBandwidthLimits (p : AdminPreferences.t) : bool := hides p 32.
(* source: internal/dataprovider/admin.go HideAdvancedSettings *)
Definition HideAdvancedSettings (p : AdminPreferences.t) : bool := hides p 64.
(* source: internal/dataprovider/admin.go VisibleUserPageSections *)
Definition VisibleUserPageSections (p : AdminPreferences.t) : Z :=
  let result := 0 in
  let result := if negb (HideProfile p) then result + 1 else result in
  let result := if negb (HideACLs p) then result + 1 else result in
  let result := if negb (HideDiskQuotaAndBandwidthLimits p) then result + 1 else result in
  if negb (HideAdvancedSettings p) then result + 1 else result.

(** ** Groups of an admin *)

(* source: internal/dataprovider/admin.go AdminGroupMappingOptions.validate *)
Definition group_options_validate (g : AdminGroupMapping.t) : res unit :=
  refuse ((AdminGroupMapping.AddToUsersAs g <? GroupAddToUsersAsMembership)
          || (GroupAddToUsersAsSecondary <? AdminGroupMapping.AddToUsersAs g))
    (ValidationError "Invalid mode to add groups to new users").

(* source: internal/dataprovider/admin.go GetUserGroupType *)
Definition GetUserGroupType (g : AdminGroupMapping.t) : Z :=
  if AdminGroupMapping.AddToUsersAs g =? GroupAddToUsersAsPrimary then GroupTypePrimary
  else if AdminGroupMapping.AddToUsersAs g =? GroupAddToUsersAsSecondary then GroupTypeSecondary
  else GroupTypeMembership.

Fixpoint admin_groups_loop (hasPrimary : bool) (groups : list AdminGroupMapping.t) : res unit :=
  match groups with
  | [] => Ok tt
  | g :: groups' =>
      _ ← refuse (AdminGroupMapping.Name g =s "") (ValidationError "group name is mandatory");
      _ ← group_options_validate g;
      let primary := AdminGroupMapping.AddToUsersAs g =? GroupAddToUsersAsPrimary in
      _ ← refuse (primary && hasPrimary) (ValidationError "only one primary group is allowed");
      admin_groups_loop (hasPrimary || primary) groups'
  end.
(* source: internal/dataprovider/admin.go validateGroups *)
Definition admin_validateGroups (a : Admin.t) : res unit := admin_groups_loop false (Admin.Groups a).

(** ** Validation of an admin *)

(* source: internal/dataprovider/admin.go CountUnusedRecoveryCodes *)
Definition CountUnusedRecoveryCodes (a : Admin.t) : nat :=
  length (List.filter (fun code => negb (RecoveryCode.Used code)) (AdminFilters.RecoveryCodes (Admin.Filters a))).

(* source: internal/dataprovider/admin.go hashPassword *)
Definition admin_hashPassword (a : Admin.t) : res Admin.t :=
  if must_hash (Admin.Password a) then
    _ ← check_entropy (Admin.Password a) admins_MinEntropy;
    pwd ← hash_secret (Admin.Password a);
    Ok (a <| Admin.Password := pwd |>)
  else Ok a.

(* source: internal/dataprovider/admin.go hasRedactedSecret *)
Definition admin_hasRedactedSecret (a : Admin.t) : bool :=
  secret_IsRedacted (deref (AdminTOTPConfig.Secret (AdminFilters.TOTPConfig (Admin.Filters a)))).

(* source: internal/dataprovider/admin.go validateRecoveryCodes *)
Definition validateRecoveryCodes (a : Admin.t) : res Admin.t :=
  codes ← mapM (validate_recovery_code (Admin.Username a)) (AdminFilters.RecoveryCodes (Admin.Filters a));
  Ok (a <| Admin.Filters ::= fun f => f <| AdminFilters.RecoveryCodes := codes |> |>).

Definition check_admin_perm (role perm : string) : res unit :=
  _ ← refuse (negb (contains validAdminPerms perm)) (ValidationError "invalid permission");
  refuse (negb (role =s "") && contains forbiddenPermsForRoleAdmins perm)
    (ValidationError "a role admin cannot have these permissions").
(* source: internal/dataprovider/admin.go validatePermissions *)
Definition admin_validatePermissions (a : Admin.t) : res Admin.t :=
  let permissions := RemoveDuplicates (Admin.Permissions a) false in
  _ ← refuse (bool_decide (permissions = [])) (ValidationError "please grant some permissions to this admin");
  let permissions := if contains permissions PermAdminAny then [PermAdminAny] else permissions in
  _ ← Prelude.for_each (check_admin_perm (Admin.Role a)) permissions;
  Ok (a <| Admin.Permissions := permissions |>).

(* source: internal/dataprovider/admin.go Admin.validate *)
Definition admin_validate (a : Admin.t) : res Admin.t :=
  let a := admin_SetEmptySecretsIfNil a in
  _ ← refuse (Admin.Username a =s "") (ValidationError "username is mandatory");
  _ ← checkReservedUsernames (Admin.Username a);
  _ ← refuse (Admin.Password a =s "") (ValidationError "please set a password");
  _ ← refuse (admin_hasRedactedSecret a) (ValidationError "cannot save an admin with a redacted secret");
  totp ← admin_totp_validate (AdminFilters.TOTPConfig (Admin.Filters a)) (Admin.Username a);
  a ← validateRecoveryCodes (a <| Admin.Filters ::= fun f => f <| AdminFilters.TOTPConfig := totp |> |>);
  _ ← refuse (bad_name (Admin.Username a)) (ValidationError "username is not valid");
  a ← admin_hashPassword a;
  a ← admin_validatePermissions a;
  _ ← refuse (negb (Admin.Email a =s "") && negb (IsEmailValid (Admin.Email a))) (ValidationError "email is not valid");
  let allow := RemoveDuplicates (AdminFilters.AllowList (Admin.Filters a)) false in
  let a := a <| Admin.Filters ::= fun f => f <| AdminFilters.AllowList := allow |> |> in
  _ ← Prelude.for_each (check_cidr "could not parse allow list entry") allow;
  _ ← admin_validateGroups a;
  Ok a.

(** ** Access *)

(* source: internal/dataprovider/admin.go GetGroupsAsString *)
Definition admin_GetGroupsAsString (a : Admin.t) : string :=
  strings_Join (sort_strings (AdminGroupMapping.Name <$> Admin.Groups a)) ",".

(** [for _, ipMask := range masks { ...; if network.Contains(ip) { return true } }]:
    masks that do not parse are passed over *)
Fixpoint some_network (ip : list Z) (masks : list string) : bool :=
  match masks with
  | [] => false
  | m :: masks' =>
      match ParseCIDR m with
      | Some (_, network) => if IPNet_Contains network ip then true else some_network ip masks'
      | None => some_network ip masks'
      end
  end.

(* source: internal/dataprovider/admin.go CanLoginFromIP *)
Definition admin_CanLoginFromIP (a : Admin.t) (ip : string) : bool :=
  let allow := AdminFilters.AllowList (Admin.Filters a) in
  if bool_decide (allow = []) then true
  else match ParseIP ip with
       | None => bool_decide (allow = [])
       | Some parsedIP => some_network parsedIP allow
       end.

(* source: internal/dataprovider/admin.go CanLogin *)
Definition admin_CanLogin (a : Admin.t) (ip : string) : res unit :=
  if negb (Admin.Status a =? 1) then Err (PlainError "admin is disabled")
  else refuse (negb (admin_CanLoginFromIP a ip)) (PlainError "login from IP not allowed").

(* source: internal/dataprovider/admin.go HasPermission *)
Definition admin_HasPermission (a : Admin.t) (perm : string) : bool :=
  if contains (Admin.Permissions a) PermAdminAny then true else contains (Admin.Permissions a) perm.
(* source: internal/dataprovider/admin.go GetPermissionsAsString *)
Definition admin_GetPermissionsAsString (a : Admin.t) : string := strings_Join (Admin.Permissions a) ", ".
(* source: internal/dataprovider/admin.go GetAllowedIPAsString *)
Definition admin_GetAllowedIPAsString (a : Admin.t) : string := strings_Join (AdminFilters.AllowList (Admin.Filters a)) ",".
(* source: internal/dataprovider/admin.go GetValidPerms *)
Definition admin_GetValidPerms (a : Admin.t) : list string := validAdminPerms.
(* source: internal/dataprovider/admin.go CanManageMFA *)
Definition admin_CanManageMFA (a : Admin.t) : bool := (0 <? length totp_configs)%nat.

(** * API keys *)

(* source: internal/dataprovider/apikey.go hashKey *)
Definition hashKey (k : APIKey.t) : res APIKey.t :=
  if must_hash (APIKey.Key k) then hashed ← hash_secret (APIKey.Key k); Ok (k <| APIKey.Key := hashed |>) else Ok k.

(** the two results of [util.GenerateUniqueID] *)
Variable keyID key : string.
(* source: internal/dataprovider/apikey.go generateKey *)
Definition generateKey (k : APIKey.t) : APIKey.t :=
  if negb (APIKey.KeyID k =s "") || negb (APIKey.Key k =s "") then k
  else k <| APIKey.KeyID := keyID |> <| APIKey.Key := key |> <| APIKey.plainKey := key |>.

(* source: internal/dataprovider/apikey.go DisplayKey *)
Definition DisplayKey (k : APIKey.t) : string := APIKey.KeyID k +:+ "." +:+ APIKey.plainKey k.

(* source: internal/dataprovider/apikey.go APIKey.validate *)
Definition apikey_validate (k : APIKey.t) (h : DB.t) : res APIKey.t :=
  _ ← refuse (APIKey.Name k =s "") (ValidationError "name is mandatory");
  _ ← refuse (negb (APIKey.Scope k =? APIKeyScopeAdmin) && negb (APIKey.Scope k =? APIKeyScopeUser))
        (ValidationError "invalid scope");
  k ← hashKey (generateKey k);
  _ ← refuse (negb (APIKey.User k =s "") && negb (APIKey.Admin k =s ""))
        (ValidationError "an API key can be related to a user or an admin, not both");
  let k := if APIKey.Scope k =? APIKeyScopeAdmin then k <| APIKey.User := "" |> else k in
  let k := if APIKey.Scope k =? APIKeyScopeUser then k <| APIKey.Admin := "" |> else k in
  _ ← refuse (negb (APIKey.User k =s "") && negb (is_ok (userExists (APIKey.User k) "" h)))
        (ValidationError "unable to check API key user");
  _ ← refuse (negb (APIKey.Admin k =s "") && negb (is_ok (adminExists (APIKey.Admin k) h)))
        (ValidationError "unable to check API key admin");
  Ok k.

(** * Shares *)

(* source: internal/dataprovider/share.go IsExpired *)
Definition share_IsExpired (s : Share.t) : bool := if 0 <? Share.ExpiresAt s then Share.ExpiresAt s <? now else false.

(* source: internal/dataprovider/share.go GetAllowedFromAsString *)
Definition share_GetAllowedFromAsString (s : Share.t) : string := strings_Join (Share.AllowFrom s) ",".

(* source: internal/dataprovider/share.go hashPassword *)
Definition share_hashPassword (s : Share.t) (h : DB.t) : res Share.t :=
  if must_hash (Share.Password s) then
    match userExists (convertName (Share.Username s)) "" h with
    | Err _ => Err (GenericError "unable to validate user")
    | Ok user =>
        _ ← check_entropy (Share.Password s) (getMinPasswordEntropy user);
        hashed ← hash_secret (Share.Password s);
        Ok (s <| Share.Password := hashed |>)
    end
  else Ok s.

(** The pair of loops over the paths; equal indexes are passed over. *)
Definition nested (a b : string) : bool := (a =s "/") || (b =s "/") || IsDirOverlapped a b true "/".
Definition nested_paths (paths : list string) : bool :=
  existsb (fun i => existsb (fun j => negb (i =? j)%nat &&
    match paths !! i, paths !! j with Some a, Some b => nested a b | _, _ => false end) (seq 0 (length paths)))
    (seq 0 (length paths)).
(* source: internal/dataprovider/share.go validatePaths *)
Definition share_validatePaths (s : Share.t) : res Share.t :=
  let paths := List.filter (fun p => negb (TrimSpace p =s "")) (Share.Paths s) in
  _ ← refuse (bool_decide (paths = [])) (ValidationError "at least a shared path is required");
  let paths := RemoveDuplicates (CleanPath <$> paths) false in
  _ ← refuse ((ShareScopeWrite <=? Share.Scope s) && negb (length paths =? 1)%nat)
        (ValidationError "the write share scope requires exactly one path");
  _ ← refuse ((1 <? length paths)%nat && nested_paths paths) (GenericError "shared paths cannot be nested");
  Ok (s <| Share.Paths := paths |>).

(* source: internal/dataprovider/share.go Share.validate *)
Definition share_validate (s : Share.t) (h : DB.t) : res Share.t :=
  _ ← refuse (Share.ShareID s =s "") (ValidationError "share_id is mandatory");
  _ ← refuse (Share.Name s =s "") (ValidationError "name is mandatory");
  _ ← refuse ((Share.Scope s <? ShareScopeRead) || (ShareScopeReadWrite <? Share.Scope s)) (ValidationError "invalid scope");
  s ← share_validatePaths s;
  s ← (if 0 <? Share.ExpiresAt s then
         _ ← refuse (negb (Share.IsRestore s) && (Share.ExpiresAt s <? now)) (ValidationError "expiration must be in the future");
         Ok s
       else Ok (s <| Share.ExpiresAt := 0 |>));
  _ ← refuse (Share.MaxTokens s <? 0) (ValidationError "invalid max tokens");
  _ ← refuse (Share.Username s =s "") (ValidationError "username is mandatory");
  _ ← refuse (share_HasRedactedPassword s) (ValidationError "cannot save a share with a redacted password");
  s ← share_hashPassword s h;
  let allow := RemoveDuplicates (Share.AllowFrom s) false in
  _ ← Prelude.for_each (check_cidr "could not parse allow from entry") allow;
  Ok (s <| Share.AllowFrom := allow |>).

(* source: internal/dataprovider/share.go GetRelativePath *)
Definition share_GetRelativePath (s : Share.t) (name : string) : string :=
  match Share.Paths s with [] => "" | p :: _ => CleanPath (TrimPrefix name p) end.

(** The path below the shared directory that a request asks for. *)
(* source: internal/httpd/api_shares.go getBrowsableSharedPath *)
Definition getBrowsableSharedPath (shareBasePath path : string) : res string :=
  let name := CleanPath (path_Join2 shareBasePath path) in
  if shareBasePath =s "/" then Ok name
  else if negb (name =s shareBasePath) && negb (has_prefix name (shareBasePath +:+ "/"))
       then Err (ValidationError "Invalid path") else Ok name.

(* source: internal/dataprovider/share.go IsUsable *)
Definition share_IsUsable (s : Share.t) (ip : string) : res bool :=
  _ ← refuse ((0 <? Share.MaxTokens s) && (Share.MaxTokens s <=? Share.UsedTokens s))
        (RecordNotFoundError "max share usage exceeded" "");
  _ ← refuse ((0 <? Share.ExpiresAt s) && (Share.ExpiresAt s <? now)) (RecordNotFoundError "share expired" "");
  if bool_decide (Share.AllowFrom s = []) then Ok true
  else match ParseIP ip with
       | None => Err (PlainError "login is not allowed from this address")
       | Some parsedIP => if some_network parsedIP (Share.AllowFrom s) then Ok true
                          else Err (PlainError "login is not allowed from this address")
       end.
End validate_objects.
