(* ===== verification/ValidateObjectsProps.v ===== *)
(** What the validators of groups, admins, API keys and shares establish, and the
    confinement of shared paths. *)
From Stdlib Require Import Ascii QArith.
From S2P Require Import Prelude GoPath Util Net FsConfig FsValidate Entities Links Tables MemoryCore UserPerms GroupMerge MemoryQueries ValidateUser ValidateUserProps ValidateObjects.
Open Scope Z_scope.

(** * Valid objects *)

Definition role_name_ok `{Settings} (name : string) : Prop := name ≠ "" ∧ (String.length name <= 255)%nat ∧ bad_name name = false.

(** The permissions of an admin: known, each once, and with [*] nothing else; an
    admin with a role has none of the forbidden ones. *)
Definition admin_perms_ok (role : string) (perms : list string) : Prop :=
  perms ≠ [] ∧ NoDup perms ∧ perms ⊆ validAdminPerms ∧ (PermAdminAny ∈ perms → perms = [PermAdminAny]) ∧
  (role ≠ "" → ∀ p, p ∈ forbiddenPermsForRoleAdmins → p ∉ perms).

Definition admin_primary (g : AdminGroupMapping.t) : bool := AdminGroupMapping.AddToUsersAs g =? GroupAddToUsersAsPrimary.
Definition admin_groups_ok (l : list AdminGroupMapping.t) : Prop :=
  (∀ g, g ∈ l → AdminGroupMapping.Name g ≠ "" ∧ 0 <= AdminGroupMapping.AddToUsersAs g <= 2) ∧
  (length (List.filter admin_primary l) <= 1)%nat.

Record admin_ok `{Settings} (a : Admin.t) : Prop := {
  ao_username : Admin.Username a ≠ "" ∧ Admin.Username a ∉ reservedUsers ∧ bad_name (Admin.Username a) = false;
  ao_password : IsStringPrefixInSlice (Admin.Password a) internalHashPwdPrefixes = true;
  ao_permissions : admin_perms_ok (Admin.Role a) (Admin.Permissions a);
  ao_allow : cidr_list (AdminFilters.AllowList (Admin.Filters a));
  ao_groups : admin_groups_ok (Admin.Groups a);
  ao_totp : let t := AdminFilters.TOTPConfig (Admin.Filters a) in not_plain (AdminTOTPConfig.Secret t) ∧
    (AdminTOTPConfig.Enabled t = true → AdminTOTPConfig.ConfigName t ∈ totp_configs);
  ao_codes : ∀ c, c ∈ AdminFilters.RecoveryCodes (Admin.Filters a) → not_plain (RecoveryCode.Secret c);
}.

Record group_ok `{Settings} (g : Group.t) : Prop := {
  go_name : Group.Name g ≠ "" ∧ bad_name (Group.Name g) = false;
  go_folders : folders_ok (Group.VirtualFolders g);
  go_home : let home := GroupUserSettings.HomeDir (Group.UserSettings g) in home = "" ∨ canonical home;
  go_fs : let fs := GroupUserSettings.FsConfig (Group.UserSettings g) in
    fs = only_provider fs ∧ ∀ o, o ∈ fs_secrets fs → not_plain o;
  go_permissions : permissions_ok (GroupUserSettings.Permissions (Group.UserSettings g));
  go_transfer : let s := Group.UserSettings g in 0 < GroupUserSettings.TotalDataTransfer s →
    GroupUserSettings.UploadDataTransfer s = 0 ∧ GroupUserSettings.DownloadDataTransfer s = 0;
  go_filters : filters_ok (GroupUserSettings.Filters (Group.UserSettings g));
}.

(** Two shared paths, neither of them the other or inside the other. *)
Definition apart (p q : string) : Prop := ∃ cs ds, Forall normal cs ∧ Forall normal ds ∧
  p = abs_path cs ∧ q = abs_path ds ∧ ¬ cs `prefix_of` ds ∧ ¬ ds `prefix_of` cs.

Record share_ok (s : Share.t) : Prop := {
  so_id : Share.ShareID s ≠ "" ∧ Share.Name s ≠ "" ∧ Share.Username s ≠ "";
  so_scope : 1 <= Share.Scope s <= 3;
  so_paths : Share.Paths s ≠ [] ∧ NoDup (Share.Paths s) ∧ Forall canonical (Share.Paths s) ∧
    (ShareScopeWrite <= Share.Scope s → length (Share.Paths s) = 1%nat) ∧
    ∀ i j p q, Share.Paths s !! i = Some p → Share.Paths s !! j = Some q → i ≠ j → apart p q;
  so_limits : 0 <= Share.ExpiresAt s ∧ 0 <= Share.MaxTokens s;
  so_password : Share.Password s = "" ∨ IsStringPrefixInSlice (Share.Password s) internalHashPwdPrefixes = true;
  so_allow : cidr_list (Share.AllowFrom s);
}.

Section objects.
Context {K : Kms} {S : Settings} {HP : HashPrefixes}.
Variable url_Parse : string → option (string * string).
Variable now : Z.
Variable range : gmap string (list string) → list (string * list string).

Lemma role_validate_Ok r r' : role_validate r = Ok r' ↔ r' = r ∧ role_name_ok (Role.Name r).
Proof.
  unfold role_validate, role_name_ok. split.
  - intros H. inv_checks H. injection H as <-. apply String.eqb_neq in E. apply Nat.ltb_ge in E0. done.
  - intros (-> & H1%String.eqb_neq & H2%Nat.ltb_ge & H3). by rewrite H1, H2, H3.
Qed.

Lemma hash_secret_hashed x h : hash_secret x = Ok h → IsStringPrefixInSlice h internalHashPwdPrefixes = true.
Proof.
  unfold hash_secret, internalHashPwdPrefixes. cbn [IsStringPrefixInSlice]. destruct (_ =s _).
  - intros Hb. rewrite (bcrypt_prefix _ _ _ Hb). by destruct (has_prefix _ _).
  - intros Hb. by rewrite (argon2id_prefix _ _ Hb).
Qed.

Lemma must_hash_false x : must_hash x = false ↔ x = "" ∨ IsStringPrefixInSlice x internalHashPwdPrefixes = true.
Proof.
  unfold must_hash. rewrite andb_false_iff, !negb_false_iff. by rewrite String.eqb_eq.
Qed.

(** ** Admins *)

Lemma admin_groups_loop_Ok l : ∀ (has : bool) u, admin_groups_loop has l = Ok u →
  (∀ g, g ∈ l → AdminGroupMapping.Name g ≠ "" ∧ 0 <= AdminGroupMapping.AddToUsersAs g <= 2) ∧
  (length (List.filter admin_primary l) <= if has then 0 else 1)%nat.
Proof.
  induction l as [|g l IH]; intros has u H; simpl in H.
  { split; [by intros ? ?%elem_of_nil|]. destruct has; simpl; lia. }
  unfold group_options_validate, GroupAddToUsersAsMembership, GroupAddToUsersAsSecondary in H.
  inv_checks H. apply IH in H as [H1 H2]. apply String.eqb_neq in E. split.
  - intros g' [->|Hg]%elem_of_cons; [|by apply H1]. split; [done|lia].
  - simpl. change (AdminGroupMapping.AddToUsersAs g =? GroupAddToUsersAsPrimary) with (admin_primary g) in *.
    destruct (admin_primary g), has; simpl in *; lia || done.
Qed.

Lemma check_admin_perms_Ok role perms : Forall (fun p => check_admin_perm role p = Ok tt) perms ↔
  perms ⊆ validAdminPerms ∧ (role ≠ "" → ∀ p, p ∈ forbiddenPermsForRoleAdmins → p ∉ perms).
Proof.
  rewrite Forall_forall. unfold check_admin_perm. split.
  - intros H. split.
    + intros p Hp. specialize (H p Hp). inv_checks H. by apply negb_false_iff, contains_spec in E.
    + intros Hrole p Hf Hp. specialize (H p Hp). inv_checks H. apply String.eqb_neq in Hrole.
      rewrite Hrole in H. cbn [negb andb] in H. by apply contains_false in H.
  - intros [H1 H2] p Hp. rewrite (proj2 (contains_spec _ _) (H1 p Hp)). cbn [negb refuse mbind res_bind].
    destruct (String.eqb_spec role "") as [|Hr]; [done|]. cbn [negb andb].
    rewrite (proj2 (contains_false _ _)); [done|]. intros Hf. by apply (H2 Hr p Hf).
Qed.

Lemma admin_validatePermissions_Ok a a' : admin_validatePermissions a = Ok a' →
  ∃ perms, a' = a <| Admin.Permissions := perms |> ∧ admin_perms_ok (Admin.Role a) perms.
Proof.
  unfold admin_validatePermissions. intros H. inv_checks H. injection H as <-. eexists. split; [done|].
  apply bool_decide_eq_false in E. apply check_admin_perms_Ok in E0 as [H1 H2].
  unfold admin_perms_ok. destruct (contains _ PermAdminAny) eqn:Hany.
  - split_and!; try done. apply NoDup_singleton.
  - split_and!; try done; [apply NoDup_RemoveDuplicates|]. apply contains_false in Hany. done.
Qed.

Lemma admin_hashPassword_Ok a a' : admin_hashPassword a = Ok a' → Admin.Password a ≠ "" →
  ∃ pwd, a' = a <| Admin.Password := pwd |> ∧ IsStringPrefixInSlice pwd internalHashPwdPrefixes = true.
Proof.
  unfold admin_hashPassword. intros H Hne. destruct (must_hash _) eqn:Hm.
  - inv_checks H. injection H as <-. eexists. split; [done|]. by eapply hash_secret_hashed.
  - injection H as <-. exists (Admin.Password a). split; [by destruct a|]. by apply must_hash_false in Hm as [?|?].
Qed.

Lemma admin_totp_validate_Ok c username c' : admin_totp_validate c username = Ok c' →
  not_plain (AdminTOTPConfig.Secret c') ∧
  (AdminTOTPConfig.Enabled c' = true → AdminTOTPConfig.ConfigName c' ∈ totp_configs).
Proof.
  unfold admin_totp_validate. destruct (AdminTOTPConfig.Enabled c) eqn:He; cbn [negb]; [|intros [= <-]; cbn; by rewrite He].
  intros H. inv_checks H. injection H as <-. cbn. split; [by eapply encrypt_plain_sealed|]. intros _.
  by apply negb_false_iff, contains_spec in E0.
Qed.

Lemma validateRecoveryCodes_Ok a a' : validateRecoveryCodes a = Ok a' →
  ∃ codes, a' = a <| Admin.Filters ::= fun f => f <| AdminFilters.RecoveryCodes := codes |> |> ∧
    ∀ c, c ∈ codes → not_plain (RecoveryCode.Secret c).
Proof.
  unfold validateRecoveryCodes. intros H. inv_res H. injection H as <-. exists a0. split; [done|]. by eapply recovery_codes_sealed.
Qed.

Lemma admin_validate_ok a a' : admin_validate a = Ok a' → admin_ok a'.
Proof.
  unfold admin_validate. cbv zeta. intros H. inv_checks H. injection H as <-.
  set (w0 := admin_SetEmptySecretsIfNil a) in *. clearbody w0.
  apply String.eqb_neq in E, E1. apply contains_false in E0. apply admin_totp_validate_Ok in E3 as [T1 T2].
  apply validateRecoveryCodes_Ok in E4 as (codes & -> & Hcodes).
  apply admin_hashPassword_Ok in E6 as (pwd & -> & Hpwd); [|done].
  apply admin_validatePermissions_Ok in E7 as (perms & -> & Hperms).
  apply cidr_list_RemoveDuplicates in E9. unfold admin_validateGroups in E10. apply admin_groups_loop_Ok in E10.
  split; done.
Qed.

(** An admin that validate accepts is well formed: the name is set, not
    reserved and allowed by the naming rules, the password is a hash, the
    permissions are known ones without repetition, [*] stands alone, an admin
    with a role has none of the permissions forbidden to role admins, every
    allowed network parses, at most one group is the primary one for new users,
    and no secret is in plain text. *)
Theorem admin_validate_sound a a' : admin_validate a = Ok a' → admin_ok a'.
Proof. apply admin_validate_ok. Qed.

(** An admin with a role never has, through any of its permissions, one of
    those forbidden to role admins: the wildcard does not survive validation. *)
Theorem role_admins_are_limited a a' perm : admin_validate a = Ok a' → Admin.Role a' ≠ "" →
  perm ∈ forbiddenPermsForRoleAdmins → admin_HasPermission a' perm = false.
Proof.
  intros H Hrole Hf. apply admin_validate_ok, ao_permissions in H as (_ & _ & _ & _ & H).
  specialize (H Hrole). unfold admin_HasPermission.
  rewrite (proj2 (contains_false _ PermAdminAny)) by (apply H; left). apply contains_false, H, Hf.
Qed.

(** ** Groups *)

Record settings_ok (s : GroupUserSettings.t) : Prop := {
  sto_home : GroupUserSettings.HomeDir s = "" ∨ canonical (GroupUserSettings.HomeDir s);
  sto_fs : let fs := GroupUserSettings.FsConfig s in fs = only_provider fs ∧ ∀ o, o ∈ fs_secrets fs → not_plain o;
  sto_permissions : permissions_ok (GroupUserSettings.Permissions s);
  sto_transfer : 0 < GroupUserSettings.TotalDataTransfer s →
    GroupUserSettings.UploadDataTransfer s = 0 ∧ GroupUserSettings.DownloadDataTransfer s = 0;
  sto_filters : filters_ok (GroupUserSettings.Filters s);
}.

Lemma validateUserSettings_ok data external s s' : (∀ m, range m ≡ₚ map_to_list m) →
  validateUserSettings url_Parse range data external s = Ok s' → settings_ok s'.
Proof.
  intros Hrange. unfold validateUserSettings. cbv zeta. intros H. inv_checks H. rename a into s1, a0 into fs, a1 into s3, a2 into b.
  apply fs_Validate_ok in E0 as (Hfs & _ & _ & Hsec).
  assert (GroupUserSettings.HomeDir s1 = "" ∨ canonical (GroupUserSettings.HomeDir s1)) as Hhome.
  { destruct (String.eqb_spec (GroupUserSettings.HomeDir s) "") as [He|]; cbn [negb] in E; [injection E as <-; by left|right].
    inv_checks E. injection E as <-. by apply Clean_abs_canonical, negb_false_iff. }
  set (s2 := if 0 <? _ then _ else _) in *.
  assert (GroupUserSettings.HomeDir s2 = GroupUserSettings.HomeDir s1 ∧ GroupUserSettings.FsConfig s2 = fs ∧
    (0 < GroupUserSettings.TotalDataTransfer s2 → GroupUserSettings.UploadDataTransfer s2 = 0 ∧ GroupUserSettings.DownloadDataTransfer s2 = 0))
    as (S1 & S2 & S3).
  { unfold s2. destruct (Z.ltb_spec 0 (GroupUserSettings.TotalDataTransfer (s1 <| GroupUserSettings.FsConfig := fs |>))) as [Ht|Ht];
      split_and!; try done. cbn in Ht |- *. lia. }
  clearbody s2.
  assert (∃ perms, s3 = s2 <| GroupUserSettings.Permissions := perms |> ∧ permissions_ok perms) as (perms & -> & Hperms).
  { case_bool_decide as Hp.
    - injection E1 as <-. exists (GroupUserSettings.Permissions s2). split; [by destruct s2|]. rewrite Hp. by intros ???.
    - inv_checks E1. injection E1 as <-. apply validateUserPermissions_ok in E0 as [Hok _]; [|done]. eauto. }
  apply validateBaseFilters_ok in E2. injection H as <-. split; cbn; try done.
  - by rewrite S1.
  - by rewrite S2.
  - destruct external; destruct E2; split; done.
Qed.

Lemma group_validate_ok g g' : (∀ m, range m ≡ₚ map_to_list m) → group_validate url_Parse range g = Ok g' → group_ok g'.
Proof.
  intros Hrange. unfold group_validate. cbv zeta. set (w := group_SetEmptySecretsIfNil g). clearbody w.
  intros H. inv_checks H. injection H as <-. apply String.eqb_neq in E.
  unfold validateAssociatedVirtualFolders in E2. apply folders_loop_Ok in E2 as (-> & F1 & F2 & _ & F3 & _).
  apply validateUserSettings_ok in E3 as []; [|done]. split; try done. by apply folders_ok_trimmed.
Qed.

(** A group that validate accepts is well formed: the name is allowed, the
    home directory is empty or canonical, no folder is mounted twice, the
    permissions are known ones on canonical directories, every filter parses and
    leaves some login method and some protocol, a total data transfer limit
    replaces the separate ones, and no secret is in plain text. *)
Theorem group_validate_sound g g' : (∀ m, range m ≡ₚ map_to_list m) → group_validate url_Parse range g = Ok g' → group_ok g'.
Proof. apply group_validate_ok. Qed.

(** ** Shares *)

Lemma nested_false p q : canonical p → canonical q → nested p q = false → apart p q.
Proof.
  intros (cs & Hcs & ->) (ds & Hds & ->). unfold nested. rewrite !orb_false_iff, !String.eqb_neq. intros [[H1 H2] H3].
  exists cs, ds. split_and!; try done; intros H;
    apply not_true_iff_false in H3; apply H3, IsDirOverlapped_spec; auto; by (intros ->).
Qed.

Lemma nested_paths_false paths : nested_paths paths = false →
  ∀ i j p q, paths !! i = Some p → paths !! j = Some q → i ≠ j → nested p q = false.
Proof.
  unfold nested_paths. intros H i j p q Hi Hj Hij. apply not_true_iff_false. intros Hn.
  apply not_true_iff_false in H. apply H. apply existsb_exists. exists i.
  split; [apply in_seq; apply lookup_lt_Some in Hi; lia|]. apply existsb_exists. exists j.
  split; [apply in_seq; apply lookup_lt_Some in Hj; lia|]. rewrite Hi, Hj, Hn, andb_true_r, negb_true_iff.
  by apply Nat.eqb_neq.
Qed.

Definition share_paths_ok (scope : Z) (paths : list string) : Prop :=
  paths ≠ [] ∧ NoDup paths ∧ Forall canonical paths ∧ (ShareScopeWrite <= scope → length paths = 1%nat) ∧
  ∀ i j p q, paths !! i = Some p → paths !! j = Some q → i ≠ j → apart p q.

Lemma share_validatePaths_Ok s s' : share_validatePaths s = Ok s' →
  ∃ paths, s' = s <| Share.Paths := paths |> ∧ share_paths_ok (Share.Scope s) paths.
Proof.
  unfold share_validatePaths. cbv zeta. set (kept := List.filter _ _). clearbody kept. intros H. inv_checks H. injection H as <-.
  eexists. split; [done|]. set (paths := RemoveDuplicates _ _) in *. apply bool_decide_eq_false in E.
  assert (Forall canonical paths) as Hcan.
  { apply Forall_forall. intros p Hp. apply elem_of_RemoveDuplicates, list_elem_of_fmap in Hp as (x & -> & _). auto with gopath. }
  unfold share_paths_ok. split_and!; [|apply NoDup_RemoveDuplicates|done| |].
  - intros Hnil. apply RemoveDuplicates_nil, fmap_nil_inv in Hnil. done.
  - intros Hw. apply Z.leb_le in Hw. rewrite Hw in E0. cbn [andb] in E0. by apply negb_false_iff, Nat.eqb_eq in E0.
  - intros i j p q Hi Hj Hij. pose proof (lookup_lt_Some _ _ _ Hi). pose proof (lookup_lt_Some _ _ _ Hj).
    assert ((1 <? length paths)%nat = true) as Hlen by (apply Nat.ltb_lt; lia). rewrite Hlen in E1. cbn [andb] in E1.
    rewrite Forall_forall in Hcan. apply nested_false; [by eapply Hcan, list_elem_of_lookup_2|by eapply Hcan, list_elem_of_lookup_2|].
    by eapply nested_paths_false.
Qed.

Lemma share_hashPassword_Ok s h s' : share_hashPassword s h = Ok s' →
  ∃ pwd, s' = s <| Share.Password := pwd |> ∧ (pwd = "" ∨ IsStringPrefixInSlice pwd internalHashPwdPrefixes = true).
Proof.
  unfold share_hashPassword. destruct (must_hash _) eqn:Hm.
  - destruct (userExists _ _ _); [|done]. intros H. inv_checks H. injection H as <-. eexists. split; [done|right].
    by eapply hash_secret_hashed.
  - intros [= <-]. exists (Share.Password s). split; [by destruct s|]. by apply must_hash_false.
Qed.

Lemma share_validate_ok s h s' : share_validate now s h = Ok s' → share_ok s'.
Proof.
  unfold share_validate. cbv zeta. intros H. inv_checks H. injection H as <-.
  apply String.eqb_neq in E, E0, E5. apply share_validatePaths_Ok in E2 as (paths & -> & Hp).
  assert (∃ t, a3 = s <| Share.Paths := paths |> <| Share.ExpiresAt := t |> ∧ 0 <= t) as (t & -> & Ht).
  { destruct (Z.ltb_spec 0 (Share.ExpiresAt (s <| Share.Paths := paths |>))) as [Hpos|_].
    - inv_checks E3. injection E3 as <-. exists (Share.ExpiresAt s). split; [by destruct s|]. cbn in Hpos. lia.
    - injection E3 as <-. by exists 0. }
  apply share_hashPassword_Ok in E7 as (pwd & -> & Hpwd). apply cidr_list_RemoveDuplicates in E8.
  split; try done.
  - change (1 <= Share.Scope s <= 3). unfold ShareScopeRead, ShareScopeReadWrite in E1. lia.
  - change (0 <= t ∧ 0 <= Share.MaxTokens s). split; [done|].
    change (Share.MaxTokens _) with (Share.MaxTokens s) in E4. lia.
Qed.

(** A share that validate accepts is well formed: the shared paths are
    canonical, pairwise different and none of them is inside another, whatever
    was given (trailing slashes, dots, repetitions); a share that can be written
    has exactly one path; limits and expiration are not negative, the password
    is a hash, and every allowed network parses. *)
Theorem share_validate_sound s h s' : share_validate now s h = Ok s' → share_ok s'.
Proof. apply share_validate_ok. Qed.

(** ** API keys *)

(** An API key that validate accepts has a name and one of the two scopes,
    belongs at most to a user if its scope is for users and at most to an admin
    otherwise, and to one that exists in the provider, and its key is empty or
    a hash; a new key is shown to the caller in plain text and only its hash is
    kept. *)
Theorem apikey_validate_sound keyID key k h k' : apikey_validate keyID key k h = Ok k' →
  APIKey.Name k' ≠ "" ∧
  (APIKey.Scope k' = APIKeyScopeAdmin ∧ APIKey.User k' = "" ∧ (APIKey.Admin k' = "" ∨ is_ok (adminExists (APIKey.Admin k') h) = true) ∨
   APIKey.Scope k' = APIKeyScopeUser ∧ APIKey.Admin k' = "" ∧ (APIKey.User k' = "" ∨ is_ok (userExists (APIKey.User k') "" h) = true)) ∧
  (APIKey.Key k' = "" ∨ IsStringPrefixInSlice (APIKey.Key k') internalHashPwdPrefixes = true) ∧
  (APIKey.KeyID k = "" → APIKey.Key k = "" → APIKey.KeyID k' = keyID ∧ DisplayKey k' = keyID +:+ "." +:+ key).
Proof.
  unfold apikey_validate. cbv zeta. intros H. inv_checks H. apply String.eqb_neq in E.
  assert (∃ hash, a1 = (generateKey keyID key k) <| APIKey.Key := hash |> ∧ (hash = "" ∨ IsStringPrefixInSlice hash internalHashPwdPrefixes = true))
    as (hash & -> & Hhash).
  { unfold hashKey in E1. destruct (must_hash _) eqn:Hm.
    - inv_checks E1. injection E1 as <-. eexists. split; [done|right]. by eapply hash_secret_hashed.
    - injection E1 as <-. exists (APIKey.Key (generateKey keyID key k)). split; [by destruct (generateKey keyID key k)|]. by apply must_hash_false. }
  assert (APIKey.Name (generateKey keyID key k) = APIKey.Name k ∧ APIKey.Scope (generateKey keyID key k) = APIKey.Scope k ∧
    (APIKey.KeyID k = "" → APIKey.Key k = "" → APIKey.KeyID (generateKey keyID key k) = keyID ∧
       APIKey.plainKey (generateKey keyID key k) = key)) as (G1 & G2 & G3).
  { unfold generateKey. destruct (String.eqb_spec (APIKey.KeyID k) ""), (String.eqb_spec (APIKey.Key k) ""); cbn;
      split_and!; try done; by intros ? ?. }
  set (g := generateKey keyID key k) in *. clearbody g. injection H as <-.
  unfold APIKeyScopeAdmin, APIKeyScopeUser in *. destruct g; cbn in *. subst. unfold DisplayKey.
  assert (APIKey.Scope k = 1 ∨ APIKey.Scope k = 2) as [Hs|Hs] by lia; rewrite Hs in *; cbn in *; split_and!; try done.
  2, 4: intros H1 H2; destruct (G3 H1 H2) as [-> ->]; done.
  - left. split_and!; [done..|]. destruct (String.eqb_spec Admin ""); [by left|right; by apply negb_false_iff].
  - right. split_and!; [done..|]. destruct (String.eqb_spec User ""); [by left|right; by apply negb_false_iff].
Qed.
End objects.

(** * Shared paths *)

Lemma below cs ds : Forall normal cs → Forall normal ds →
  (abs_path cs =s "/") || (abs_path ds =s abs_path cs) || has_prefix (abs_path ds) (abs_path cs +:+ "/") = true →
  ∃ k, ds = cs ++ k.
Proof.
  intros Hcs Hds. rewrite !orb_true_iff, !String.eqb_eq. intros [[H|H]|H].
  - apply abs_path_root in H as ->; [|done]. by exists ds.
  - apply abs_path_inj in H as ->; [|done..]. exists []. by rewrite app_nil_r.
  - destruct cs as [|c cs]; [by exists ds|]. apply has_prefix_sep in H as (k & _ & ->); [|done..]. by exists k.
Qed.

(** The part of a path below a directory. *)
Lemma relative_path cs ds : Forall normal (cs ++ ds) → CleanPath (TrimPrefix (abs_path (cs ++ ds)) (abs_path cs)) = abs_path ds.
Proof.
  intros H. apply Forall_app in H as [Hcs Hds]. destruct cs as [|c cs].
  - change ([] ++ ds) with ds. change (abs_path ds) with ("/" +:+ join_slash ds) at 1. change (abs_path []) with ("/" +:+ "").
    rewrite append_nil_r, TrimPrefix_app. destruct ds as [|d ds]; [done|].
    unfold CleanPath, CleanPathWithBase. assert (is_abs (join_slash (d :: ds)) = false) as ->.
    { apply Forall_cons in Hds as [(Hd & _ & _ & Hs) _]. destruct ds as [|e ds].
      - cbn [join_slash]. rewrite <-(append_nil_r d). by apply no_slash_not_abs.
      - change (join_slash (d :: e :: ds)) with (d +:+ String slash (join_slash (e :: ds))). by apply no_slash_not_abs. }
    cbn [negb]. unfold path_Join2. cbn [String.eqb]. change ("/" +:+ String slash (join_slash (d :: ds))) with (String slash (abs_path (d :: ds))).
    assert (path_Clean (String slash (abs_path (d :: ds))) = abs_path (d :: ds)) as ->; [|by apply path_Clean_abs_path].
    pose proof (path_Join2_abs_path [] (d :: ds) (Forall_nil_2 _) Hds) as Hj. exact Hj.
  - destruct ds as [|d ds].
    + rewrite app_nil_r. rewrite <-(append_nil_r (abs_path (c :: cs))) at 1. rewrite TrimPrefix_app. done.
    + assert (abs_path ((c :: cs) ++ d :: ds) = abs_path (c :: cs) +:+ abs_path (d :: ds)) as ->.
      { unfold abs_path. rewrite join_slash_app by done. by rewrite append_cons. }
      rewrite TrimPrefix_app. by apply CleanPath_of_abs_path.
Qed.

(** Whatever path a request adds to a shared directory, with dots or
    slashes, the path that is browsed is the shared directory or below it; the
    relative path shown for it is the rest, and asking for that relative path
    leads back to the same path. *)
Theorem shared_path_roundtrip s base rest query p : Share.Paths s = base :: rest → canonical base →
  getBrowsableSharedPath base query = Ok p →
  ∃ cs ds, Forall normal (cs ++ ds) ∧ base = abs_path cs ∧ p = abs_path (cs ++ ds) ∧
    share_GetRelativePath s p = abs_path ds ∧ getBrowsableSharedPath base (share_GetRelativePath s p) = Ok p.
Proof.
  intros Hs (cs & Hcs & ->) H. unfold getBrowsableSharedPath in H. cbv zeta in H.
  destruct (CleanPath_canonical (path_Join2 (abs_path cs) query)) as (ds & Hds & Hp). rewrite Hp in H.
  assert (p = abs_path ds) as ->.
  { destruct (abs_path cs =s "/"); [by injection H|]. destruct (_ && _); [done|by injection H]. }
  destruct (below cs ds Hcs Hds) as [k ->].
  { destruct (abs_path cs =s "/"); [done|]. destruct (abs_path ds =s abs_path cs); [done|]. cbn in *.
    destruct (has_prefix _ _); [done|discriminate]. }
  exists cs, k. unfold share_GetRelativePath. rewrite Hs, relative_path by done. split_and!; try done.
  apply Forall_app in Hds as [_ Hk]. unfold getBrowsableSharedPath. rewrite path_Join2_abs_path by done.
  rewrite CleanPath_of_abs_path by (by apply Forall_app). cbv zeta.
  destruct (abs_path cs =s "/") eqn:Hroot; [done|].
  assert ((abs_path (cs ++ k) =s abs_path cs) || has_prefix (abs_path (cs ++ k)) (abs_path cs +:+ "/") = true) as Hb.
  { destruct k as [|k0 k]; [by rewrite app_nil_r, String.eqb_refl|]. apply orb_true_iff. right. apply has_prefix_sep; [|done|by apply Forall_app|by exists (k0 :: k)].
    intros ->. by rewrite String.eqb_neq in Hroot. }
  apply orb_true_iff in Hb as [->| ->]; [done|]. by rewrite andb_false_r.
Qed.

(** * Examples *)

Definition raw_admin : Admin.t :=
  Admin.zero <| Admin.Username := "bob" |> <| Admin.Password := "secret" |> <| Admin.Role := "staff" |>
    <| Admin.Permissions := ["add_users"; "view_users"; "add_users"] |>
    <| Admin.Groups := [AdminGroupMapping.mk "dev" 1; AdminGroupMapping.mk "all" 2] |>
    <| Admin.Filters := AdminFilters.zero <| AdminFilters.AllowList := ["10.0.0.0/8"; "10.0.0.0/8"] |> |>.
Definition valid_admin : Admin.t :=
  match @admin_validate sample_kms sample_settings raw_admin with Ok a => a | Err _ => Admin.zero end.

Lemma admin_validate_sound_witness : @admin_validate sample_kms sample_settings raw_admin = Ok valid_admin ∧
  @admin_ok sample_settings valid_admin ∧ Admin.Password valid_admin = "$2a$terces" ∧
  Admin.Permissions valid_admin = ["add_users"; "view_users"].
Proof.
  assert (@admin_validate sample_kms sample_settings raw_admin = Ok valid_admin) as H by (by vm_compute).
  refine (conj H (conj (@admin_validate_sound sample_kms sample_settings sample_prefixes raw_admin valid_admin H) _)).
  by vm_compute.
Defined.

Lemma role_admins_are_limited_witness : admin_HasPermission valid_admin "manage_system" = false ∧
  is_ok (@admin_validate sample_kms sample_settings (raw_admin <| Admin.Permissions := ["*"] |>)) = false.
Proof.
  split; [|by vm_compute].
  apply (@role_admins_are_limited sample_kms sample_settings sample_prefixes raw_admin valid_admin);
    [by vm_compute|by vm_compute|]. apply contains_spec. by vm_compute.
Defined.

Definition raw_share : Share.t :=
  Share.zero <| Share.ShareID := "id" |> <| Share.Name := "photos" |> <| Share.Username := "alice" |>
    <| Share.Scope := ShareScopeRead |> <| Share.Paths := ["/a/../photos/"; " "; "photos"; "/films"] |> <| Share.ExpiresAt := -4 |>.
Definition valid_share : Share.t := raw_share <| Share.Paths := ["/photos"; "/films"] |> <| Share.ExpiresAt := 0 |>.

Lemma share_validate_sound_witness : @share_validate sample_settings 1000 raw_share DB.init = Ok valid_share ∧ share_ok valid_share.
Proof.
  assert (@share_validate sample_settings 1000 raw_share DB.init = Ok valid_share) as H by (by vm_compute).
  exact (conj H (@share_validate_sound sample_settings sample_prefixes 1000 raw_share DB.init valid_share H)).
Defined.

Lemma shared_path_roundtrip_witness :
  let s := raw_share <| Share.Paths := ["/a/b"] |> in
  getBrowsableSharedPath "/a/b" "c/../d/" = Ok "/a/b/d" ∧ share_GetRelativePath s "/a/b/d" = "/d" ∧
  getBrowsableSharedPath "/a/b" (share_GetRelativePath s "/a/b/d") = Ok "/a/b/d" ∧
  is_ok (getBrowsableSharedPath "/a/b" "../bc") = false.
Proof.
  intros s. assert (getBrowsableSharedPath "/a/b" "c/../d/" = Ok "/a/b/d") as H by (by vm_compute).
  assert (share_GetRelativePath s "/a/b/d" = "/d") as H1 by (by vm_compute).
  assert (canonical "/a/b") as Hc by (exists ["a"; "b"]; split; [by repeat constructor|reflexivity]).
  destruct (shared_path_roundtrip s "/a/b" [] "c/../d/" "/a/b/d" eq_refl Hc H) as (cs & ds & _ & _ & _ & _ & Hr).
  refine (conj H (conj H1 (conj Hr _))). by vm_compute.
Defined.
