(* ===== verification/EventRules.v ===== *)
(** Event actions and rules: their validation and the consistency of their
    actions (internal/dataprovider/eventrule.go).

    A validator returns the object it leaves behind.  The parser of cron
    schedules and the encryption of secrets are parameters; the errors keep
    their messages without the values they show. *)
From Stdlib Require Import Ascii.
From S2P Require Import Prelude GoPath Util Net FsConfig FsValidate Entities Links Tables MemoryCore UserPerms GroupMerge MemoryQueries ValidateUser ValidateObjects.
Open Scope Z_scope.

(** * Kinds *)

Definition ActionTypeHTTP : Z := 1.
Definition ActionTypeCommand : Z := 2.
Definition ActionTypeEmail : Z := 3.
Definition ActionTypeBackup : Z := 4.
Definition ActionTypeUserQuotaReset : Z := 5.
Definition ActionTypeFolderQuotaReset : Z := 6.
Definition ActionTypeTransferQuotaReset : Z := 7.
Definition ActionTypeDataRetentionCheck : Z := 8.
Definition ActionTypeFilesystem : Z := 9.
Definition ActionTypeMetadataCheck : Z := 10.
Definition ActionTypePasswordExpirationCheck : Z := 11.
Definition ActionTypeUserExpirationCheck : Z := 12.
Definition ActionTypeIDPAccountCheck : Z := 13.
Definition EventTriggerFsEvent : Z := 1.
Definition EventTriggerProviderEvent : Z := 2.
Definition EventTriggerSchedule : Z := 3.
Definition EventTriggerIPBlocked : Z := 4.
Definition EventTriggerCertificate : Z := 5.
Definition EventTriggerOnDemand : Z := 6.
Definition EventTriggerIDPLogin : Z := 7.
Definition FilesystemActionRename : Z := 1.
Definition FilesystemActionDelete : Z := 2.
Definition FilesystemActionMkdirs : Z := 3.
Definition FilesystemActionExist : Z := 4.
Definition FilesystemActionCompress : Z := 5.
Definition FilesystemActionCopy : Z := 6.
Definition RetentionReportPlaceHolder : string := "{{RetentionReports}}".

Definition z_contains (l : list Z) (x : Z) : bool := existsb (Z.eqb x) l.
(* source: internal/dataprovider/eventrule.go isActionTypeValid *)
Definition isActionTypeValid (action : Z) : bool := z_contains [1; 2; 3; 9; 4; 5; 6; 7; 8; 10; 11; 12; 13] action.
(* source: internal/dataprovider/eventrule.go isEventTriggerValid *)
Definition isEventTriggerValid (trigger : Z) : bool := z_contains [1; 2; 3; 4; 5; 7; 6] trigger.
(* source: internal/dataprovider/eventrule.go isFilesystemActionValid *)
Definition isFilesystemActionValid (value : Z) : bool := z_contains [1; 2; 3; 6; 5; 4] value.

Definition SupportedFsEvents : list string :=
  ["upload"; "pre-upload"; "first-upload"; "download"; "pre-download"; "first-download"; "delete"; "pre-delete"; "rename";
   "mkdir"; "rmdir"; "copy"; "ssh_cmd"].
Definition SupportedProviderEvents : list string := ["add"; "update"; "delete"].
Definition SupportedRuleConditionProtocols : list string := ["SFTP"; "SCP"; "SSH"; "FTP"; "DAV"; "HTTP"; "HTTPShare"; "OIDC"].
Definition SupporteRuleConditionProviderObjects : list string :=
  ["user"; "folder"; "group"; "admin"; "api_key"; "share"; "event_rule"; "event_action"].
Definition SupportedHTTPActionMethods : list string := ["POST"; "GET"; "PUT"; "DELETE"].
Definition allowedSyncFsEvents : list string := ["upload"; "pre-upload"; "pre-download"; "pre-delete"].
Definition mandatorySyncFsEvents : list string := ["pre-upload"; "pre-download"; "pre-delete"].

Definition invalid_value (msg : string) : error := ValidationError msg.
(** [c.X[idx] = f(c.X[idx])] for every element, up to the first error *)
Definition each {A B} (f : A → res B) (l : list A) : res (list B) := mapM f l.

(** a list of paths: trimmed, not empty, cleaned, without duplicates *)
Definition clean_paths (none empty : string) (l : list string) : res (list string) :=
  _ ← refuse (bool_decide (l = [])) (ValidationError none);
  l ← each (fun val => let val := TrimSpace val in _ ← refuse (val =s "") (ValidationError empty); Ok (CleanPath val)) l;
  Ok (RemoveDuplicates l false).

Section rules.
Context {K : Kms}.
Variable cron_ParseStandard : string → bool.
(** [config.IsShared] *)
Variable IsShared : Z.

(** * Actions *)

(* source: internal/dataprovider/eventrule.go KeyValue.isNotValid *)
Definition isNotValid (k : KeyValue.t) : bool := (KeyValue.Key k =s "") || (KeyValue.Value k =s "").
Definition valid_pairs (msg : string) (l : list KeyValue.t) : res unit :=
  Prelude.for_each (fun kv => refuse (isNotValid kv) (ValidationError msg)) l.

(* source: internal/dataprovider/eventrule.go HTTPPart.validate *)
Definition part_validate (p : HTTPPart.t) : res HTTPPart.t :=
  _ ← refuse (HTTPPart.Name p =s "") (ValidationError "HTTP part name is required");
  _ ← valid_pairs "invalid HTTP part headers" (HTTPPart.Headers p);
  if HTTPPart.Filepath p =s "" then
    _ ← refuse (HTTPPart.Body p =s "") (ValidationError "HTTP part body is required if no file path is provided");
    Ok p
  else
    let p := p <| HTTPPart.Body := "" |> in
    Ok (if HTTPPart.Filepath p =s RetentionReportPlaceHolder then p else p <| HTTPPart.Filepath ::= CleanPath |>).

(* source: internal/dataprovider/eventrule.go HasMultipartFiles *)
Definition HasMultipartFiles (c : EventActionHTTPConfig.t) : bool :=
  existsb (fun p => negb (HTTPPart.Filepath p =s "") && negb (HTTPPart.Filepath p =s RetentionReportPlaceHolder)) (EventActionHTTPConfig.Parts c).
(* source: internal/dataprovider/eventrule.go HasObjectData *)
Definition HasObjectData (c : EventActionHTTPConfig.t) : bool :=
  has_substring (EventActionHTTPConfig.Body c) "{{ObjectData}}" ||
  existsb (fun p => has_substring (HTTPPart.Body p) "{{ObjectData}}") (EventActionHTTPConfig.Parts c).
(** with [http.CanonicalHeaderKey], which is not part of the program *)
(* source: internal/dataprovider/eventrule.go HasJSONBody *)
Definition HasJSONBody (CanonicalHeaderKey : string → string) (c : EventActionHTTPConfig.t) : bool :=
  match List.find (fun h => CanonicalHeaderKey (KeyValue.Key h) =s "Content-Type") (EventActionHTTPConfig.Headers c) with
  | Some h => has_substring (ToLower (KeyValue.Value h)) "application/json"
  | None => false
  end.
(* source: internal/dataprovider/eventrule.go isTimeoutNotValid *)
Definition isTimeoutNotValid (c : EventActionHTTPConfig.t) : bool :=
  if HasMultipartFiles c then false else (EventActionHTTPConfig.Timeout c <? 1) || (180 <? EventActionHTTPConfig.Timeout c).

(** the parts after validation; [seen] are the paths of those before *)
Fixpoint validate_parts (seen : gset string) (parts : list HTTPPart.t) : res (list HTTPPart.t) :=
  match parts with
  | [] => Ok []
  | p :: parts =>
      p ← part_validate p;
      let filePath := HTTPPart.Filepath p in
      _ ← refuse (negb (filePath =s "") && bool_decide (filePath ∈ seen)) (PlainError "filepath is duplicated");
      parts ← validate_parts (if filePath =s "" then seen else {[filePath]} ∪ seen) parts;
      Ok (p :: parts)
  end.
(* source: internal/dataprovider/eventrule.go validateMultiparts *)
Definition validateMultiparts (c : EventActionHTTPConfig.t) : res EventActionHTTPConfig.t :=
  parts ← validate_parts ∅ (EventActionHTTPConfig.Parts c);
  let c := c <| EventActionHTTPConfig.Parts := parts |> in
  if bool_decide (parts = []) then Ok c
  else
    _ ← refuse (negb (EventActionHTTPConfig.Body c =s ""))
          (ValidationError "multipart requests require no body. The request body is build from the specified parts");
    _ ← Prelude.for_each (fun k => refuse (ToLower (KeyValue.Key k) =s "content-type")
                                  (ValidationError "content type is automatically set for multipart requests"))
          (EventActionHTTPConfig.Headers c);
    Ok c.
(** a nil password is a pointer whose methods cannot be called; the options
    never hold one here *)
(* source: internal/dataprovider/eventrule.go EventActionHTTPConfig.validate *)
Definition http_validate (additionalData : string) (c : EventActionHTTPConfig.t) : res EventActionHTTPConfig.t :=
  _ ← refuse (EventActionHTTPConfig.Endpoint c =s "") (ValidationError "HTTP endpoint is required");
  _ ← refuse (negb (IsStringPrefixInSlice (EventActionHTTPConfig.Endpoint c) ["http://"; "https://"]))
        (ValidationError "invalid HTTP endpoint schema: http and https are supported");
  _ ← refuse (isTimeoutNotValid c) (ValidationError "invalid HTTP timeout");
  _ ← valid_pairs "invalid HTTP headers" (EventActionHTTPConfig.Headers c);
  c ← validateMultiparts c;
  _ ← refuse (secret_IsRedacted (deref (EventActionHTTPConfig.Password c)))
        (ValidationError "cannot save HTTP configuration with a redacted secret");
  password ← encrypt_plain additionalData "could not encrypt HTTP password" (EventActionHTTPConfig.Password c);
  let c := c <| EventActionHTTPConfig.Password := password |> in
  _ ← refuse (negb (contains SupportedHTTPActionMethods (EventActionHTTPConfig.Method c))) (ValidationError "unsupported HTTP method");
  _ ← valid_pairs "invalid HTTP query parameters" (EventActionHTTPConfig.QueryParameters c);
  Ok c.

(* source: internal/dataprovider/eventrule.go EventActionCommandConfig.validate *)
Definition command_validate (c : EventActionCommandConfig.t) : res EventActionCommandConfig.t :=
  _ ← refuse (EventActionCommandConfig.Cmd c =s "") (ValidationError "command is required");
  _ ← refuse (negb (is_abs (EventActionCommandConfig.Cmd c))) (ValidationError "invalid command, it must be an absolute path");
  _ ← refuse ((EventActionCommandConfig.Timeout c <? 1) || (120 <? EventActionCommandConfig.Timeout c))
        (ValidationError "invalid command action timeout");
  _ ← valid_pairs "invalid command env vars" (EventActionCommandConfig.EnvVars c);
  let c := c <| EventActionCommandConfig.Args ::= fun l => RemoveDuplicates l true |> in
  _ ← Prelude.for_each (fun arg => refuse (arg =s "") (ValidationError "invalid command args")) (EventActionCommandConfig.Args c);
  Ok c.

(* source: internal/dataprovider/eventrule.go hasFilesAttachments *)
Definition hasFilesAttachments (c : EventActionEmailConfig.t) : bool :=
  existsb (fun a => negb (a =s RetentionReportPlaceHolder)) (EventActionEmailConfig.Attachments c).
(* source: internal/dataprovider/eventrule.go EventActionEmailConfig.validate *)
Definition email_validate (c : EventActionEmailConfig.t) : res EventActionEmailConfig.t :=
  _ ← refuse (bool_decide (EventActionEmailConfig.Recipients c = [])) (ValidationError "at least one email recipient is required");
  let c := c <| EventActionEmailConfig.Recipients ::= fun l => RemoveDuplicates l false |> in
  _ ← Prelude.for_each (fun r => refuse (r =s "") (ValidationError "invalid email recipients")) (EventActionEmailConfig.Recipients c);
  let c := c <| EventActionEmailConfig.Bcc ::= fun l => RemoveDuplicates l false |> in
  _ ← Prelude.for_each (fun r => refuse (r =s "") (ValidationError "invalid email bcc")) (EventActionEmailConfig.Bcc c);
  _ ← refuse (EventActionEmailConfig.Subject c =s "") (ValidationError "email subject is required");
  _ ← refuse (EventActionEmailConfig.Body c =s "") (ValidationError "email body is required");
  _ ← refuse ((EventActionEmailConfig.ContentType c <? 0) || (1 <? EventActionEmailConfig.ContentType c))
        (ValidationError "invalid email content type");
  attachments ← each (fun val => let val := TrimSpace val in
                        _ ← refuse (val =s "") (ValidationError "invalid path to attach");
                        Ok (if val =s RetentionReportPlaceHolder then val else CleanPath val))
                  (EventActionEmailConfig.Attachments c);
  Ok (c <| EventActionEmailConfig.Attachments := RemoveDuplicates attachments false |>).

(* source: internal/dataprovider/eventrule.go FolderRetention.Validate *)
Definition retention_Validate (f : FolderRetention.t) : res FolderRetention.t :=
  let f := f <| FolderRetention.Path ::= CleanPath |> in
  _ ← refuse (FolderRetention.Retention f <? 0) (ValidationError "invalid folder retention, it must be greater or equal to zero");
  Ok f.
Fixpoint validate_folders (seen : gset string) (folders : list FolderRetention.t) : res (list FolderRetention.t) :=
  match folders with
  | [] => Ok []
  | f :: folders =>
      f ← retention_Validate f;
      _ ← refuse (bool_decide (FolderRetention.Path f ∈ seen)) (ValidationError "duplicated folder path");
      folders ← validate_folders ({[FolderRetention.Path f]} ∪ seen) folders;
      Ok (f :: folders)
  end.
(* source: internal/dataprovider/eventrule.go EventActionDataRetentionConfig.validate *)
Definition retention_config_validate (folders : list FolderRetention.t) : res (list FolderRetention.t) :=
  folders ← validate_folders ∅ folders;
  _ ← refuse (negb (existsb (fun f => 0 <? FolderRetention.Retention f) folders)) (ValidationError "nothing to delete!");
  Ok folders.

(* source: internal/dataprovider/eventrule.go EventActionFsCompress.validate *)
Definition compress_validate (c : EventActionFsCompress.t) : res EventActionFsCompress.t :=
  _ ← refuse (EventActionFsCompress.Name c =s "") (ValidationError "archive name is mandatory");
  let c := c <| EventActionFsCompress.Name ::= fun n => CleanPath (TrimSpace n) |> in
  _ ← refuse (EventActionFsCompress.Name c =s "/") (ValidationError "invalid archive name");
  paths ← clean_paths "no path to compress specified" "invalid path to compress" (EventActionFsCompress.Paths c);
  Ok (c <| EventActionFsCompress.Paths := paths |>).

(* source: internal/dataprovider/eventrule.go validateRenames *)
Definition validateRenames (l : list KeyValue.t) : res (list KeyValue.t) :=
  _ ← refuse (bool_decide (l = [])) (ValidationError "no path to rename specified");
  each (fun kv =>
    let key := TrimSpace (KeyValue.Key kv) in
    let value := TrimSpace (KeyValue.Value kv) in
    _ ← refuse ((key =s "") || (value =s "")) (ValidationError "invalid paths to rename");
    let key := CleanPath key in
    let value := CleanPath value in
    _ ← refuse (key =s value) (ValidationError "rename source and target cannot be equal");
    _ ← refuse ((key =s "/") || (value =s "/")) (ValidationError "renaming the root directory is not allowed");
    Ok (KeyValue.mk key value)) l.
(* source: internal/dataprovider/eventrule.go validateCopy *)
Definition validateCopy (l : list KeyValue.t) : res (list KeyValue.t) :=
  _ ← refuse (bool_decide (l = [])) (ValidationError "no path to copy specified");
  each (fun kv =>
    let key := TrimSpace (KeyValue.Key kv) in
    let value := TrimSpace (KeyValue.Value kv) in
    _ ← refuse ((key =s "") || (value =s "")) (ValidationError "invalid paths to copy");
    let key := CleanPath key in
    let value := CleanPath value in
    _ ← refuse (key =s value) (ValidationError "copy source and target cannot be equal");
    _ ← refuse ((key =s "/") || (value =s "/")) (ValidationError "copying the root directory is not allowed");
    Ok (KeyValue.mk (if has_suffix (KeyValue.Key kv) "/" then key +:+ "/" else key)
                    (if has_suffix (KeyValue.Value kv) "/" then value +:+ "/" else value))) l.
(* source: internal/dataprovider/eventrule.go validateDeletes *)
Definition validateDeletes : list string → res (list string) := clean_paths "no path to delete specified" "invalid path to delete".
(* source: internal/dataprovider/eventrule.go validateMkdirs *)
Definition validateMkdirs : list string → res (list string) := clean_paths "no directory to create specified" "invalid directory to create".
(* source: internal/dataprovider/eventrule.go validateExist *)
Definition validateExist : list string → res (list string) :=
  clean_paths "no path to check for existence specified" "invalid path to check for existence".

(** only the options of the kind of the action are kept *)
(* source: internal/dataprovider/eventrule.go EventActionFilesystemConfig.validate *)
Definition fsaction_validate (c : EventActionFilesystemConfig.t) : res EventActionFilesystemConfig.t :=
  let type := EventActionFilesystemConfig.Type_ c in
  let zero := EventActionFilesystemConfig.zero <| EventActionFilesystemConfig.Type_ := type |> in
  _ ← refuse (negb (isFilesystemActionValid type)) (ValidationError "invalid filesystem action type");
  if type =? FilesystemActionRename then
    l ← validateRenames (EventActionFilesystemConfig.Renames c); Ok (zero <| EventActionFilesystemConfig.Renames := l |>)
  else if type =? FilesystemActionDelete then
    l ← validateDeletes (EventActionFilesystemConfig.Deletes c); Ok (zero <| EventActionFilesystemConfig.Deletes := l |>)
  else if type =? FilesystemActionMkdirs then
    l ← validateMkdirs (EventActionFilesystemConfig.MkDirs c); Ok (zero <| EventActionFilesystemConfig.MkDirs := l |>)
  else if type =? FilesystemActionExist then
    l ← validateExist (EventActionFilesystemConfig.Exist c); Ok (zero <| EventActionFilesystemConfig.Exist := l |>)
  else if type =? FilesystemActionCompress then
    l ← compress_validate (EventActionFilesystemConfig.Compress c); Ok (zero <| EventActionFilesystemConfig.Compress := l |>)
  else if type =? FilesystemActionCopy then
    l ← validateCopy (EventActionFilesystemConfig.Copy c); Ok (zero <| EventActionFilesystemConfig.Copy := l |>)
  else Ok c.

(* source: internal/dataprovider/eventrule.go EventActionPasswordExpiration.validate *)
Definition pwd_expiration_validate (threshold : Z) : res Z :=
  _ ← refuse (threshold <=? 0) (ValidationError "threshold must be greater than 0"); Ok threshold.
(* source: internal/dataprovider/eventrule.go EventActionIDPAccountCheck.validate *)
Definition idp_validate (c : EventActionIDPAccountCheck.t) : res EventActionIDPAccountCheck.t :=
  _ ← refuse ((EventActionIDPAccountCheck.TemplateAdmin c =s "") && (EventActionIDPAccountCheck.TemplateUser c =s ""))
        (ValidationError "at least a template must be set");
  _ ← refuse ((EventActionIDPAccountCheck.Mode c <? 0) || (1 <? EventActionIDPAccountCheck.Mode c)) (ValidationError "invalid account check mode");
  Ok c.

(** the options of other kinds are reset, those of the kind are validated *)
(* source: internal/dataprovider/eventrule.go BaseEventActionOptions.validate *)
Definition options_validate (action : Z) (name : string) (o : BaseEventActionOptions.t) : res BaseEventActionOptions.t :=
  let o := options_SetEmptySecretsIfNil o in
  let zero := BaseEventActionOptions.zero in
  if action =? ActionTypeHTTP then
    c ← http_validate name (BaseEventActionOptions.HTTPConfig o); Ok (zero <| BaseEventActionOptions.HTTPConfig := c |>)
  else if action =? ActionTypeCommand then
    c ← command_validate (BaseEventActionOptions.CmdConfig o); Ok (zero <| BaseEventActionOptions.CmdConfig := c |>)
  else if action =? ActionTypeEmail then
    c ← email_validate (BaseEventActionOptions.EmailConfig o); Ok (zero <| BaseEventActionOptions.EmailConfig := c |>)
  else if action =? ActionTypeDataRetentionCheck then
    c ← retention_config_validate (BaseEventActionOptions.RetentionFolders o); Ok (zero <| BaseEventActionOptions.RetentionFolders := c |>)
  else if action =? ActionTypeFilesystem then
    c ← fsaction_validate (BaseEventActionOptions.FsConfig o); Ok (zero <| BaseEventActionOptions.FsConfig := c |>)
  else if action =? ActionTypePasswordExpirationCheck then
    c ← pwd_expiration_validate (BaseEventActionOptions.PwdExpirationThreshold o); Ok (zero <| BaseEventActionOptions.PwdExpirationThreshold := c |>)
  else if action =? ActionTypeIDPAccountCheck then
    c ← idp_validate (BaseEventActionOptions.IDPConfig o); Ok (zero <| BaseEventActionOptions.IDPConfig := c |>)
  else Ok zero.

(* source: internal/dataprovider/eventrule.go BaseEventAction.validate *)
Definition action_validate (a : BaseEventAction.t) : res BaseEventAction.t :=
  _ ← refuse (BaseEventAction.Name a =s "") (ValidationError "name is mandatory");
  _ ← refuse (negb (isActionTypeValid (BaseEventAction.Type_ a))) (ValidationError "invalid action type");
  o ← options_validate (BaseEventAction.Type_ a) (BaseEventAction.Name a) (BaseEventAction.Options a);
  Ok (a <| BaseEventAction.Options := o |>).

(** * Rules *)

(* source: internal/dataprovider/eventrule.go validateAssociation *)
Definition validateAssociation (trigger : Z) (fsEvents : list string) (a : EventAction.t) : res unit :=
  _ ← refuse (EventAction.IsFailureAction a && EventAction.ExecuteSync a)
        (ValidationError "sync execution is not supported for failure actions");
  if EventAction.ExecuteSync a then
    _ ← refuse (negb (trigger =? EventTriggerFsEvent) && negb (trigger =? EventTriggerIDPLogin))
          (ValidationError "sync execution is only supported for some filesystem events and Identity Provider logins");
    if trigger =? EventTriggerFsEvent then
      Prelude.for_each (fun ev => refuse (negb (contains allowedSyncFsEvents ev))
                            (ValidationError "sync execution is only supported for upload and pre-* events")) fsEvents
    else Ok tt
  else Ok tt.

(* source: internal/dataprovider/eventrule.go ConditionPattern.validate *)
Definition pattern_validate (p : ConditionPattern.t) : res unit :=
  _ ← refuse (ConditionPattern.Pattern p =s "") (ValidationError "empty condition pattern not allowed");
  refuse (bool_decide (path_Match (ConditionPattern.Pattern p) "abc" = None)) (ValidationError "invalid condition pattern").
(* source: internal/dataprovider/eventrule.go validateConditionPatterns *)
Definition validateConditionPatterns (patterns : list ConditionPattern.t) : res unit := Prelude.for_each pattern_validate patterns.

(* source: internal/dataprovider/eventrule.go ConditionOptions.validate *)
Definition condition_options_validate (f : ConditionOptions.t) : res ConditionOptions.t :=
  _ ← validateConditionPatterns (ConditionOptions.Names f);
  _ ← validateConditionPatterns (ConditionOptions.GroupNames f);
  _ ← validateConditionPatterns (ConditionOptions.RoleNames f);
  _ ← validateConditionPatterns (ConditionOptions.FsPaths f);
  _ ← Prelude.for_each (fun p => refuse (negb (contains SupportedRuleConditionProtocols p)) (ValidationError "unsupported rule condition protocol"))
        (ConditionOptions.Protocols f);
  _ ← Prelude.for_each (fun p => refuse (negb (contains SupporteRuleConditionProviderObjects p)) (ValidationError "unsupported provider object"))
        (ConditionOptions.ProviderObjects f);
  _ ← refuse ((0 <? ConditionOptions.MinFileSize f) && (0 <? ConditionOptions.MaxFileSize f) &&
              (ConditionOptions.MaxFileSize f <=? ConditionOptions.MinFileSize f))
        (ValidationError "invalid max file size, it is lesser or equal than min file size");
  Ok (if IsShared =? 0 then f <| ConditionOptions.ConcurrentExecution := false |> else f).

(* source: internal/dataprovider/eventrule.go GetCronSpec *)
Definition GetCronSpec (s : Schedule.t) : string :=
  "0 " +:+ Schedule.Hours s +:+ " " +:+ Schedule.DayOfMonth s +:+ " " +:+ Schedule.Month s +:+ " " +:+ Schedule.DayOfWeek s.
(* source: internal/dataprovider/eventrule.go Schedule.validate *)
Definition schedule_validate (s : Schedule.t) : res unit :=
  refuse (negb (cron_ParseStandard (GetCronSpec s))) (ValidationError "invalid schedule").
(* source: internal/dataprovider/eventrule.go validateSchedules *)
Definition validateSchedules (l : list Schedule.t) : res unit :=
  _ ← refuse (bool_decide (l = [])) (ValidationError "at least one schedule is required");
  Prelude.for_each schedule_validate l.

(** the conditions a trigger does not use are reset *)
Definition only_options (c : EventConditions.t) : EventConditions.t :=
  c <| EventConditions.FsEvents := [] |> <| EventConditions.ProviderEvents := [] |> <| EventConditions.Schedules := [] |>
    <| EventConditions.IDPLoginEvent := 0 |>.
Definition no_file_conditions (f : ConditionOptions.t) : ConditionOptions.t :=
  f <| ConditionOptions.FsPaths := [] |> <| ConditionOptions.Protocols := [] |> <| ConditionOptions.MinFileSize := 0 |>
    <| ConditionOptions.MaxFileSize := 0 |>.
(* source: internal/dataprovider/eventrule.go EventConditions.validate *)
Definition conditions_validate (trigger : Z) (c : EventConditions.t) : res EventConditions.t :=
  c ← (if trigger =? EventTriggerFsEvent then
         let fsEvents := EventConditions.FsEvents c in
         _ ← refuse (bool_decide (fsEvents = [])) (ValidationError "at least one filesystem event is required");
         _ ← Prelude.for_each (fun ev => refuse (negb (contains SupportedFsEvents ev)) (ValidationError "unsupported fs event")) fsEvents;
         Ok ((only_options c) <| EventConditions.FsEvents := fsEvents |>
               <| EventConditions.Options ::= fun f => f <| ConditionOptions.ProviderObjects := [] |> |>)
       else if trigger =? EventTriggerProviderEvent then
         let providerEvents := EventConditions.ProviderEvents c in
         _ ← refuse (bool_decide (providerEvents = [])) (ValidationError "at least one provider event is required");
         _ ← Prelude.for_each (fun ev => refuse (negb (contains SupportedProviderEvents ev)) (ValidationError "unsupported provider event")) providerEvents;
         Ok ((only_options c) <| EventConditions.ProviderEvents := providerEvents |>
               <| EventConditions.Options ::= fun f => (no_file_conditions f) <| ConditionOptions.GroupNames := [] |> |>)
       else if trigger =? EventTriggerSchedule then
         _ ← validateSchedules (EventConditions.Schedules c);
         Ok ((only_options c) <| EventConditions.Schedules := EventConditions.Schedules c |>
               <| EventConditions.Options ::= fun f => (no_file_conditions f) <| ConditionOptions.ProviderObjects := [] |> |>)
       else if (trigger =? EventTriggerIPBlocked) || (trigger =? EventTriggerCertificate) then
         Ok ((only_options c) <| EventConditions.Options ::= fun f =>
               (no_file_conditions f) <| ConditionOptions.Names := [] |> <| ConditionOptions.GroupNames := [] |> <| ConditionOptions.RoleNames := [] |> |>)
       else if trigger =? EventTriggerOnDemand then
         Ok ((only_options c) <| EventConditions.Options ::= fun f =>
               (no_file_conditions f) <| ConditionOptions.ProviderObjects := [] |> <| ConditionOptions.ConcurrentExecution := false |> |>)
       else if trigger =? EventTriggerIDPLogin then
         _ ← refuse (negb (z_contains [0; 1; 2] (EventConditions.IDPLoginEvent c))) (ValidationError "invalid Identity Provider login event");
         Ok ((only_options c) <| EventConditions.IDPLoginEvent := EventConditions.IDPLoginEvent c |>
               <| EventConditions.Options ::= fun f =>
                    (no_file_conditions f) <| ConditionOptions.GroupNames := [] |> <| ConditionOptions.RoleNames := [] |> |>)
       else
         Ok ((only_options c) <| EventConditions.Options ::= fun f =>
               (no_file_conditions f) <| ConditionOptions.GroupNames := [] |> <| ConditionOptions.RoleNames := [] |> |>));
  f ← condition_options_validate (EventConditions.Options c);
  Ok (c <| EventConditions.Options := f |>).

(* source: internal/dataprovider/eventrule.go GuardFromConcurrentExecution *)
Definition GuardFromConcurrentExecution (r : EventRule.t) : bool :=
  if IsShared =? 0 then false else negb (ConditionOptions.ConcurrentExecution (EventConditions.Options (EventRule.Conditions r))).

Definition ea_name (a : EventAction.t) : string := BaseEventAction.Name (EventAction.Base a).
Definition ea_type (a : EventAction.t) : Z := BaseEventAction.Type_ (EventAction.Base a).
(** the actions of a rule one by one, with the names and the orders before *)
Fixpoint validate_actions (trigger : Z) (fsEvents : list string) (names : gset string) (orders : gset Z) (l : list EventAction.t) : res unit :=
  match l with
  | [] => Ok tt
  | a :: l =>
      _ ← refuse (ea_name a =s "") (ValidationError "invalid action, name not specified");
      _ ← refuse (bool_decide (ea_name a ∈ names)) (ValidationError "duplicated action");
      _ ← refuse (bool_decide (EventAction.Order a ∈ orders)) (ValidationError "duplicated order");
      _ ← validateAssociation trigger fsEvents a;
      validate_actions trigger fsEvents ({[ea_name a]} ∪ names) ({[EventAction.Order a]} ∪ orders) l
  end.
(* source: internal/dataprovider/eventrule.go validateMandatorySyncActions *)
Definition validateMandatorySyncActions (trigger : Z) (fsEvents : list string) : res unit :=
  if negb (trigger =? EventTriggerFsEvent) then Ok tt
  else Prelude.for_each (fun ev => refuse (contains mandatorySyncFsEvents ev) (ValidationError "event requires at least a sync action")) fsEvents.
(* source: internal/dataprovider/eventrule.go EventRule.validate *)
Definition rule_validate (r : EventRule.t) : res EventRule.t :=
  _ ← refuse (EventRule.Name r =s "") (ValidationError "name is mandatory");
  _ ← refuse (negb ((0 <=? EventRule.Status r) && (EventRule.Status r <=? 1))) (ValidationError "invalid event rule status");
  _ ← refuse (negb (isEventTriggerValid (EventRule.Trigger r))) (ValidationError "invalid event rule trigger");
  c ← conditions_validate (EventRule.Trigger r) (EventRule.Conditions r);
  let r := r <| EventRule.Conditions := c |> in
  let actions := EventRule.Actions r in
  _ ← refuse (bool_decide (actions = [])) (ValidationError "at least one action is required");
  _ ← validate_actions (EventRule.Trigger r) (EventConditions.FsEvents c) ∅ ∅ actions;
  _ ← refuse (forallb EventAction.IsFailureAction actions) (ValidationError "at least a non-failure action is required");
  _ ← (if existsb EventAction.ExecuteSync actions then Ok tt else validateMandatorySyncActions (EventRule.Trigger r) (EventConditions.FsEvents c));
  Ok r.

(** * Which actions a rule can execute *)

Definition unsupported (types : list Z) (msg : string) (l : list EventAction.t) : res unit :=
  Prelude.for_each (fun a => refuse (z_contains types (ea_type a)) (PlainError msg)) l.
(* source: internal/dataprovider/eventrule.go checkIPBlockedAndCertificateActions *)
Definition checkIPBlockedAndCertificateActions (r : EventRule.t) : res unit :=
  unsupported [ActionTypeUserQuotaReset; ActionTypeFolderQuotaReset; ActionTypeTransferQuotaReset; ActionTypeDataRetentionCheck;
               ActionTypeMetadataCheck; ActionTypeFilesystem; ActionTypePasswordExpirationCheck; ActionTypeUserExpirationCheck]
    "action not supported for event trigger" (EventRule.Actions r).
Definition userSpecificActions : list Z :=
  [ActionTypeUserQuotaReset; ActionTypeTransferQuotaReset; ActionTypeDataRetentionCheck; ActionTypeMetadataCheck; ActionTypeFilesystem;
   ActionTypePasswordExpirationCheck; ActionTypeUserExpirationCheck].
(* source: internal/dataprovider/eventrule.go checkProviderEventActions *)
Definition checkProviderEventActions (r : EventRule.t) (providerObjectType : string) : res unit :=
  Prelude.for_each (fun a =>
    _ ← refuse (z_contains userSpecificActions (ea_type a) && negb (providerObjectType =s "user"))
          (PlainError "action only supported for provider user events");
    refuse ((ea_type a =? ActionTypeFolderQuotaReset) && negb (providerObjectType =s "folder"))
      (PlainError "action only supported for provider folder events")) (EventRule.Actions r).
(* source: internal/dataprovider/eventrule.go hasUserAssociated *)
Definition hasUserAssociated (r : EventRule.t) (providerObjectType : string) : bool :=
  if EventRule.Trigger r =? EventTriggerProviderEvent then providerObjectType =s "user"
  else if EventRule.Trigger r =? EventTriggerFsEvent then true
  else match EventRule.Actions r with a :: _ => ea_type a =? ActionTypeBackup | [] => false end.
Definition ea_options (a : EventAction.t) : BaseEventActionOptions.t := BaseEventAction.Options (EventAction.Base a).
(* source: internal/dataprovider/eventrule.go checkActions *)
Definition checkActions (r : EventRule.t) (providerObjectType : string) : res unit :=
  let actions := EventRule.Actions r in
  _ ← Prelude.for_each (fun a =>
        _ ← refuse ((ea_type a =? ActionTypeEmail) && hasFilesAttachments (BaseEventActionOptions.EmailConfig (ea_options a)) &&
                    negb (hasUserAssociated r providerObjectType))
              (PlainError "cannot send an email with attachments for a rule with no user associated");
        _ ← refuse ((ea_type a =? ActionTypeHTTP) && HasMultipartFiles (BaseEventActionOptions.HTTPConfig (ea_options a)) &&
                    negb (hasUserAssociated r providerObjectType))
              (PlainError "cannot upload file/s for a rule with no user associated");
        if ea_type a =? ActionTypeIDPAccountCheck then
          _ ← refuse (negb (EventRule.Trigger r =? EventTriggerIDPLogin)) (PlainError "IDP account check action is only supported for IDP login trigger");
          refuse (negb (EventAction.ExecuteSync a)) (PlainError "IDP account check must be a sync action")
        else Ok tt) actions;
  let numSyncAction := length (List.filter EventAction.ExecuteSync actions) in
  refuse (existsb (fun a => ea_type a =? ActionTypeIDPAccountCheck) actions && negb (numSyncAction =? 1)%nat)
    (PlainError "IDP account check must be the only sync action").
(* source: internal/dataprovider/eventrule.go CheckActionsConsistency *)
Definition CheckActionsConsistency (r : EventRule.t) (providerObjectType : string) : res unit :=
  _ ← (if EventRule.Trigger r =? EventTriggerProviderEvent then checkProviderEventActions r providerObjectType
       else if EventRule.Trigger r =? EventTriggerFsEvent then
         unsupported [ActionTypeFolderQuotaReset] "action not supported for filesystem events" (EventRule.Actions r)
       else if (EventRule.Trigger r =? EventTriggerIPBlocked) || (EventRule.Trigger r =? EventTriggerCertificate) then
         checkIPBlockedAndCertificateActions r
       else Ok tt);
  checkActions r providerObjectType.
End rules.
