(* ===== verification/EventContainer.v ===== *)
(** The active rules of the event manager and the jobs of those that run on a
    schedule (internal/common/eventmanager.go eventRulesContainer).

    The scheduler is a third-party package: the class [Scheduler] is what the
    code calls, [SchedulerLaws] its documented behaviour.  What the container
    promises is a map from names to rules: [container_refines] and
    [jobs_match_rules]. *)
From S2P Require Import Prelude Entities MemoryCore ValidateUser EventRules MemoryQueries.
Open Scope Z_scope.

Class Scheduler := {
  cron : Type;
  AddJob : string → string → cron → res Z * cron;   (* the schedule, the name of the rule the job runs *)
  RemoveJob : Z → cron → cron;
}.
Class SchedulerLaws `{Scheduler} := {
  cron_parse : string → bool;
  entries : cron → gmap Z string;
  AddJob_law spec name c : match AddJob spec name c with
    | (Ok id, c') => cron_parse spec = true ∧ entries c !! id = None ∧ entries c' = <[id := name]> (entries c)
    | (Err _, c') => cron_parse spec = false ∧ c' = c
    end;
  RemoveJob_law id c : entries (RemoveJob id c) = delete id (entries c);
}.

Module Container.
(* source: internal/common/eventmanager.go eventRulesContainer *)
Record t := mk {
  lastLoad : Z;
  FsEvents : list EventRule.t;
  ProviderEvents : list EventRule.t;
  Schedules : list EventRule.t;
  IPBlockedEvents : list EventRule.t;
  CertificateEvents : list EventRule.t;
  IPDLoginEvents : list EventRule.t;
  schedulesMapping : gmap string (list Z);
}.
#[global] Instance eta : Settable t := {| settable := fun x =>
  mk (lastLoad x) (FsEvents x) (ProviderEvents x) (Schedules x) (IPBlockedEvents x) (CertificateEvents x) (IPDLoginEvents x) (schedulesMapping x) |}.
Definition empty : t := mk 0 [] [] [] [] [] [] ∅.
End Container.
Notation container := Container.t.
Import Container.

(** the rule is replaced by the last one of the slice *)
Definition remove_named (name : string) (l : list EventRule.t) : option (list EventRule.t) :=
  match list_find (fun r => EventRule.Name r = name) l with
  | Some (idx, _) => Some (swap_remove idx l)
  | None => None
  end.

Section container.
Context {Sch : Scheduler}.
(** [dataprovider.ConvertName] *)
Variable ConvertName : string → string.

(* source: internal/common/eventmanager.go removeRuleInternal *)
Definition removeRuleInternal (name : string) '((c, sched) : container * cron) : container * cron :=
  match remove_named name (FsEvents c) with
  | Some l => (c <| FsEvents := l |>, sched)
  | None =>
  match remove_named name (ProviderEvents c) with
  | Some l => (c <| ProviderEvents := l |>, sched)
  | None =>
  match remove_named name (IPBlockedEvents c) with
  | Some l => (c <| IPBlockedEvents := l |>, sched)
  | None =>
  match remove_named name (CertificateEvents c) with
  | Some l => (c <| CertificateEvents := l |>, sched)
  | None =>
  match remove_named name (IPDLoginEvents c) with
  | Some l => (c <| IPDLoginEvents := l |>, sched)
  | None =>
  match remove_named name (Schedules c) with
  | Some l =>
      let ids := default [] (schedulesMapping c !! name) in
      (c <| schedulesMapping ::= delete name |> <| Schedules := l |>, foldl (fun s id => RemoveJob id s) sched ids)
  | None => (c, sched)
  end end end end end end.
(* source: internal/common/eventmanager.go RemoveRule *)
Definition RemoveRule (name : string) (s : container * cron) : container * cron := removeRuleInternal name s.

(** the jobs of a rule, up to the first schedule that cannot be added *)
Fixpoint add_jobs (name : string) (schedules : list Schedule.t) (s : gmap string (list Z) * cron)
    : bool * (gmap string (list Z) * cron) :=
  match schedules with
  | [] => (true, s)
  | schedule :: schedules =>
      let '(m, sched) := s in
      match AddJob (GetCronSpec schedule) (ConvertName name) sched with
      | (Err _, sched) => (false, (m, sched))
      | (Ok id, sched) => add_jobs name schedules (<[name := default [] (m !! name) ++ [id]]> m, sched)
      end
  end.
(** [now] in milliseconds.  The rule is returned when it has to be removed from
    the provider, which another goroutine does. *)
(* source: internal/common/eventmanager.go addUpdateRuleInternal *)
Definition addUpdateRuleInternal (now : Z) (rule : EventRule.t) (s : container * cron) : list EventRule.t * (container * cron) :=
  let name := EventRule.Name rule in
  let '(c, sched) := removeRuleInternal name s in
  if 0 <? EventRule.DeletedAt rule then
    (if EventRule.DeletedAt rule + 30 * 60000 <? now then [rule] else [], (c, sched))
  else if negb (EventRule.Status rule =? 1) || (EventRule.Trigger rule =? EventTriggerOnDemand) then ([], (c, sched))
  else
    let trigger := EventRule.Trigger rule in
    ([], if trigger =? EventTriggerFsEvent then (c <| FsEvents ::= fun l => l ++ [rule] |>, sched)
         else if trigger =? EventTriggerProviderEvent then (c <| ProviderEvents ::= fun l => l ++ [rule] |>, sched)
         else if trigger =? EventTriggerIPBlocked then (c <| IPBlockedEvents ::= fun l => l ++ [rule] |>, sched)
         else if trigger =? EventTriggerCertificate then (c <| CertificateEvents ::= fun l => l ++ [rule] |>, sched)
         else if trigger =? EventTriggerIDPLogin then (c <| IPDLoginEvents ::= fun l => l ++ [rule] |>, sched)
         else if trigger =? EventTriggerSchedule then
           match add_jobs name (EventConditions.Schedules (EventRule.Conditions rule)) (schedulesMapping c, sched) with
           | (true, (m, sched)) => (c <| schedulesMapping := m |> <| Schedules ::= fun l => l ++ [rule] |>, sched)
           | (false, (m, sched)) => (c <| schedulesMapping := m |>, sched)
           end
         else (c, sched)).

Fixpoint add_rules (now : Z) (rules : list EventRule.t) (s : container * cron) : list EventRule.t * (container * cron) :=
  match rules with
  | [] => ([], s)
  | rule :: rules =>
      let '(purged, s) := addUpdateRuleInternal now rule s in
      let '(rest, s) := add_rules now rules s in (purged ++ rest, s)
  end.
(** [modTime] is the clock when the load starts, [now] that when the rules are
    added, [recent] the answer of the provider. *)
(* source: internal/common/eventmanager.go loadRules *)
Definition loadRules (modTime now : Z) (recent : Z → res (list EventRule.t)) (s : container * cron) : list EventRule.t * (container * cron) :=
  match recent (lastLoad s.1) with
  | Err _ => ([], s)
  | Ok rules => let '(purged, (c, sched)) := add_rules now rules s in (purged, (c <| lastLoad := modTime |>, sched))
  end.
(* source: internal/common/eventmanager.go hasFsRules *)
Definition hasFsRules (c : container) : bool := (0 <? length (FsEvents c))%nat.
End container.

(** * The container as a map *)

(** the rules of a trigger, and all of them *)
Definition rules_of (trigger : Z) (c : container) : list EventRule.t :=
  if trigger =? EventTriggerFsEvent then FsEvents c
  else if trigger =? EventTriggerProviderEvent then ProviderEvents c
  else if trigger =? EventTriggerIPBlocked then IPBlockedEvents c
  else if trigger =? EventTriggerCertificate then CertificateEvents c
  else if trigger =? EventTriggerIDPLogin then IPDLoginEvents c
  else if trigger =? EventTriggerSchedule then Schedules c
  else [].
Definition all_rules (c : container) : list EventRule.t :=
  FsEvents c ++ ProviderEvents c ++ IPBlockedEvents c ++ CertificateEvents c ++ IPDLoginEvents c ++ Schedules c.
Definition names (l : list EventRule.t) : list string := EventRule.Name <$> l.

Lemma others_filter name l : name ∉ names l → filter (fun r => EventRule.Name r ≠ name) l = l.
Proof.
  induction l as [|r l IH]; [done|]. intros [Hr Hl]%not_elem_of_cons. rewrite filter_cons_True by done. by rewrite IH.
Qed.
Lemma remove_named_spec name l : NoDup (names l) →
  match remove_named name l with
  | Some l' => name ∈ names l ∧ l' ≡ₚ filter (fun r => EventRule.Name r ≠ name) l
  | None => name ∉ names l
  end.
Proof.
  intros Hnd. unfold remove_named. destruct (list_find _ l) as [[idx r]|] eqn:Hf.
  - apply list_find_Some in Hf as (Hi & Hr & _). pose proof (swap_remove_perm _ _ _ Hi) as Hp. unfold names in *.
    generalize dependent (swap_remove idx l). intros l' Hp.
    split; [rewrite <-Hr; apply list_elem_of_fmap_2; by eapply list_elem_of_lookup_2|].
    rewrite Hp. rewrite filter_cons_False by (intros Hne; by apply Hne). rewrite others_filter; [done|].
    rewrite Hp in Hnd. cbn in Hnd. apply NoDup_cons in Hnd as [Hout _]. by rewrite <-Hr.
  - apply list_find_None in Hf. intros (r & -> & Hr)%list_elem_of_fmap. rewrite Forall_forall in Hf. by apply (Hf r).
Qed.

Section laws.
Context {Sch : Scheduler} {Laws : SchedulerLaws}.
Variable ConvertName : string → string.

(** What a container stands for: [placed] is the trigger whose list holds an
    active rule, [holds] that the lists hold the active rules of a map. *)
Definition placed (r : EventRule.t) : option Z :=
  let trigger := EventRule.Trigger r in
  if (0 <? EventRule.DeletedAt r) || negb (EventRule.Status r =? 1) then None
  else if z_contains [EventTriggerFsEvent; EventTriggerProviderEvent; EventTriggerIPBlocked; EventTriggerCertificate; EventTriggerIDPLogin] trigger
  then Some trigger
  else if (trigger =? EventTriggerSchedule) && forallb (fun s => cron_parse (GetCronSpec s)) (EventConditions.Schedules (EventRule.Conditions r))
  then Some trigger else None.
Definition holds (c : container) (m : gmap string EventRule.t) : Prop :=
  NoDup (names (all_rules c)) ∧ ∀ trigger r, r ∈ rules_of trigger c ↔ m !! EventRule.Name r = Some r ∧ placed r = Some trigger.

Lemma rules_of_all c r : r ∈ all_rules c ↔ ∃ trigger, r ∈ rules_of trigger c.
Proof.
  unfold all_rules. rewrite !elem_of_app. split.
  - intros [H|[H|[H|[H|[H|H]]]]];
      [exists EventTriggerFsEvent|exists EventTriggerProviderEvent|exists EventTriggerIPBlocked|exists EventTriggerCertificate
      |exists EventTriggerIDPLogin|exists EventTriggerSchedule]; done.
  - intros [trigger H]. unfold rules_of in H. repeat case_match; [tauto..|by apply not_elem_of_nil in H].
Qed.

(** the lists after a removal, up to the order of their elements *)
Lemma removeRuleInternal_lists name s : NoDup (names (all_rules s.1)) →
  let c' := (removeRuleInternal name s).1 in
  let others := filter (fun r => EventRule.Name r ≠ name) in
  FsEvents c' ≡ₚ others (FsEvents s.1) ∧ ProviderEvents c' ≡ₚ others (ProviderEvents s.1) ∧
  IPBlockedEvents c' ≡ₚ others (IPBlockedEvents s.1) ∧ CertificateEvents c' ≡ₚ others (CertificateEvents s.1) ∧
  IPDLoginEvents c' ≡ₚ others (IPDLoginEvents s.1) ∧ Schedules c' ≡ₚ others (Schedules s.1).
Proof.
  destruct s as [c sched]. unfold all_rules, names. cbn [fst]. rewrite !fmap_app, !NoDup_app. fold (names (FsEvents c)) (names (ProviderEvents c))
    (names (IPBlockedEvents c)) (names (CertificateEvents c)) (names (IPDLoginEvents c)) (names (Schedules c)).
  intros (N1 & D1 & N2 & D2 & N3 & D3 & N4 & D4 & N5 & D5 & N6). repeat setoid_rewrite elem_of_app in D1.
  repeat setoid_rewrite elem_of_app in D2. repeat setoid_rewrite elem_of_app in D3. repeat setoid_rewrite elem_of_app in D4.
  pose proof (remove_named_spec name _ N1) as S1. pose proof (remove_named_spec name _ N2) as S2.
  pose proof (remove_named_spec name _ N3) as S3. pose proof (remove_named_spec name _ N4) as S4.
  pose proof (remove_named_spec name _ N5) as S5. pose proof (remove_named_spec name _ N6) as S6.
  cbn [removeRuleInternal].
  destruct (remove_named name (FsEvents c)); [|destruct (remove_named name (ProviderEvents c)); [|destruct (remove_named name (IPBlockedEvents c));
    [|destruct (remove_named name (CertificateEvents c)); [|destruct (remove_named name (IPDLoginEvents c));
    [|destruct (remove_named name (Schedules c))]]]]]; cbn;
    repeat match goal with H : _ ∧ _ |- _ => destruct H end;
    split_and!; try done.
  all: by rewrite others_filter by naive_solver.
Qed.

Lemma removeRuleInternal_rules name s : NoDup (names (all_rules s.1)) → ∀ trigger,
  rules_of trigger (removeRuleInternal name s).1 ≡ₚ filter (fun r => EventRule.Name r ≠ name) (rules_of trigger s.1).
Proof.
  intros Hn trigger. destruct (removeRuleInternal_lists name s Hn) as (? & ? & ? & ? & ? & ?). unfold rules_of. by repeat case_match.
Qed.
Lemma removeRuleInternal_all name s : NoDup (names (all_rules s.1)) →
  all_rules (removeRuleInternal name s).1 ≡ₚ filter (fun r => EventRule.Name r ≠ name) (all_rules s.1).
Proof.
  intros Hn. destruct (removeRuleInternal_lists name s Hn) as (H1 & H2 & H3 & H4 & H5 & H6). unfold all_rules.
  by rewrite H1, H2, H3, H4, H5, H6, !filter_app.
Qed.
Lemma names_filter name l : NoDup (names l) → NoDup (names (filter (fun r => EventRule.Name r ≠ name) l)) ∧
  name ∉ names (filter (fun r => EventRule.Name r ≠ name) l).
Proof.
  intros H. split.
  - unfold names. induction l as [|r l IH]; [done|]. cbn in H. apply NoDup_cons in H as [Hr H]. destruct (decide (EventRule.Name r ≠ name)) as [Hd|Hd].
    + rewrite filter_cons_True by done. cbn. apply NoDup_cons. split; [|by apply IH]. intros (x & Hx & Hin)%list_elem_of_fmap.
      apply Hr. rewrite Hx. apply list_elem_of_fmap_2. by apply list_elem_of_filter in Hin as [_ ?].
    + rewrite filter_cons_False by done. by apply IH.
  - intros (x & Hx & Hin)%list_elem_of_fmap. by apply list_elem_of_filter in Hin as [? _].
Qed.

Lemma RemoveRule_holds name s m : holds s.1 m → holds (removeRuleInternal name s).1 (delete name m).
Proof.
  intros [Hn Hm]. split; [unfold names; rewrite (removeRuleInternal_all name s Hn); by apply names_filter|].
  intros trigger r. rewrite (removeRuleInternal_rules name s Hn), list_elem_of_filter, Hm, lookup_delete_Some. naive_solver.
Qed.

Lemma holds_skip c m n r : holds c (delete n m) → EventRule.Name r = n → placed r = None → holds c (<[n := r]> m).
Proof.
  intros [Hn Hm] <- Hp. split; [done|]. intros trigger x. rewrite Hm, lookup_delete_Some, lookup_insert_Some. naive_solver.
Qed.
Lemma holds_add c c' m n r trigger : holds c (delete n m) → EventRule.Name r = n → placed r = Some trigger →
  all_rules c' ≡ₚ r :: all_rules c → (∀ t, rules_of t c' ≡ₚ (if t =? trigger then [r] else []) ++ rules_of t c) → holds c' (<[n := r]> m).
Proof.
  intros [Hn Hm] <- Hp Hall Hof. split.
  - unfold names. rewrite Hall. cbn. apply NoDup_cons. split; [|done]. intros (x & Hx & [t Ht]%rules_of_all)%list_elem_of_fmap.
    apply Hm in Ht as [Ht _]. rewrite lookup_delete_Some in Ht. by destruct Ht.
  - intros t x. rewrite Hof, elem_of_app, Hm, lookup_delete_Some, lookup_insert_Some.
    destruct (Z.eqb_spec t trigger) as [->|]; rewrite ?list_elem_of_singleton, ?elem_of_nil; naive_solver.
Qed.

Lemma rules_of_added c rule t :
  rules_of t (c <| FsEvents ::= fun l => l ++ [rule] |>) ≡ₚ (if t =? EventTriggerFsEvent then [rule] else []) ++ rules_of t c ∧
  rules_of t (c <| ProviderEvents ::= fun l => l ++ [rule] |>) ≡ₚ (if t =? EventTriggerProviderEvent then [rule] else []) ++ rules_of t c ∧
  rules_of t (c <| IPBlockedEvents ::= fun l => l ++ [rule] |>) ≡ₚ (if t =? EventTriggerIPBlocked then [rule] else []) ++ rules_of t c ∧
  rules_of t (c <| CertificateEvents ::= fun l => l ++ [rule] |>) ≡ₚ (if t =? EventTriggerCertificate then [rule] else []) ++ rules_of t c ∧
  rules_of t (c <| IPDLoginEvents ::= fun l => l ++ [rule] |>) ≡ₚ (if t =? EventTriggerIDPLogin then [rule] else []) ++ rules_of t c ∧
  rules_of t (c <| Schedules ::= fun l => l ++ [rule] |>) ≡ₚ (if t =? EventTriggerSchedule then [rule] else []) ++ rules_of t c.
Proof.
  unfold rules_of.
  repeat match goal with |- context [if t =? ?k then _ else _] => destruct (Z.eqb_spec t k) as [->|] end;
    split_and!; cbn; solve_Permutation.
Qed.

Lemma add_jobs_parse name schedules s : (add_jobs ConvertName name schedules s).1 = forallb (fun x => cron_parse (GetCronSpec x)) schedules.
Proof.
  revert s. induction schedules as [|x schedules IH]; intros [m sched]; [done|]. cbn.
  pose proof (AddJob_law (GetCronSpec x) (ConvertName name) sched) as Hl. destruct (AddJob _ _ _) as [[id|e] sched'].
  - destruct Hl as (-> & _). by rewrite IH.
  - by destruct Hl as (-> & _).
Qed.

Lemma addUpdateRuleInternal_holds now rule s m : holds s.1 m →
  holds (addUpdateRuleInternal ConvertName now rule s).2.1 (<[EventRule.Name rule := rule]> m).
Proof.
  intros Hm. apply (RemoveRule_holds (EventRule.Name rule)) in Hm. unfold addUpdateRuleInternal.
  destruct (removeRuleInternal (EventRule.Name rule) s) as [c sched]. cbn [fst snd] in *.
  assert (placed rule = None → holds c (<[EventRule.Name rule := rule]> m)) as Hskip by (intros; by eapply holds_skip).
  assert (∀ c' trigger, placed rule = Some trigger → all_rules c' ≡ₚ rule :: all_rules c →
    (∀ t, rules_of t c' ≡ₚ (if t =? trigger then [rule] else []) ++ rules_of t c) → holds c' (<[EventRule.Name rule := rule]> m)) as Hadd
    by (intros c' trigger Ht Ha Ho; by eapply holds_add).
  unfold placed in Hskip, Hadd. destruct (0 <? EventRule.DeletedAt rule); cbn [orb] in *; [by apply Hskip|].
  destruct (EventRule.Status rule =? 1); cbn [negb orb] in *; [|by apply Hskip].
  destruct (Z.eqb_spec (EventRule.Trigger rule) EventTriggerOnDemand) as [Ht|_]; [apply Hskip; by rewrite Ht|].
  assert (∀ t, z_contains [EventTriggerFsEvent; EventTriggerProviderEvent; EventTriggerIPBlocked; EventTriggerCertificate; EventTriggerIDPLogin] t =
    (t =? EventTriggerFsEvent) || ((t =? EventTriggerProviderEvent) || ((t =? EventTriggerIPBlocked) || ((t =? EventTriggerCertificate) ||
    ((t =? EventTriggerIDPLogin) || false))))) as Hz by done.
  rewrite Hz in Hskip, Hadd. clear Hz.
  repeat match goal with |- context [if EventRule.Trigger rule =? ?k then _ else _] =>
    destruct (Z.eqb_spec (EventRule.Trigger rule) k) as [Ht|_]; cbn [orb andb] in Hskip, Hadd;
    [first [eapply Hadd; [rewrite Ht; reflexivity| |] | idtac]|] end.
  all: cbn [fst snd]; try (by unfold all_rules; cbn; solve_Permutation); try (by intros t; apply rules_of_added).
  - pose proof (add_jobs_parse (EventRule.Name rule) (EventConditions.Schedules (EventRule.Conditions rule)) (schedulesMapping c, sched)) as Hp.
    rewrite Ht in Hskip, Hadd. destruct (add_jobs _ _ _ _) as [[] [m' sched']]; cbn in Hp |- *; rewrite <-Hp in Hskip, Hadd; cbn in Hskip, Hadd.
    + eapply Hadd; [done|unfold all_rules; cbn; solve_Permutation|by intros t; apply rules_of_added].
    + by apply Hskip.
  - by apply Hskip.
Qed.

(** * A sequence of calls *)

(** what the provider calls: a load with the rules it reports, a removal *)
Inductive call := Load (modTime now : Z) (rules : list EventRule.t) | Delete (name : string).
Definition run_call (s : container * cron) (c : call) : container * cron :=
  match c with
  | Load modTime now rules => (loadRules ConvertName modTime now (fun _ => Ok rules) s).2
  | Delete name => RemoveRule name s
  end.
Definition note_call (m : gmap string EventRule.t) (c : call) : gmap string EventRule.t :=
  match c with
  | Load _ _ rules => foldl (fun m r => <[EventRule.Name r := r]> m) m rules
  | Delete name => delete name m
  end.
Definition run_calls (calls : list call) (s : container * cron) : container * cron := foldl run_call s calls.

Lemma add_rules_ind (Q : container * cron → gmap string EventRule.t → Prop) now rules :
  (∀ r s m, r ∈ rules → Q s m → Q (addUpdateRuleInternal ConvertName now r s).2 (<[EventRule.Name r := r]> m)) →
  ∀ s m, Q s m → Q (add_rules ConvertName now rules s).2 (foldl (fun m r => <[EventRule.Name r := r]> m) m rules).
Proof.
  induction rules as [|r rules IH]; intros Hstep s m Hs; [done|]. cbn [add_rules foldl].
  pose proof (Hstep r s m ltac:(by left) Hs) as H1. destruct (addUpdateRuleInternal ConvertName now r s) as [p s1]. cbn in H1.
  pose proof (IH (fun r' s' m' Hr' => Hstep r' s' m' (list_elem_of_further _ _ _ Hr')) s1 _ H1) as H2.
  by destruct (add_rules ConvertName now rules s1) as [p2 s2].
Qed.
Lemma loadRules_add modTime now rules s :
  (loadRules ConvertName modTime now (fun _ => Ok rules) s).2 =
  ((add_rules ConvertName now rules s).2.1 <| lastLoad := modTime |>, (add_rules ConvertName now rules s).2.2).
Proof. unfold loadRules. by destruct (add_rules ConvertName now rules s) as [p [c sched]]. Qed.

Lemma run_call_holds s m c : holds s.1 m → holds (run_call s c).1 (note_call m c).
Proof.
  destruct c as [modTime now rules|name]; [|apply RemoveRule_holds]. intros Hs. cbn [run_call note_call]. rewrite loadRules_add.
  assert (∀ c, holds c (foldl (fun m r => <[EventRule.Name r := r]> m) m rules) →
    holds (c <| lastLoad := modTime |>) (foldl (fun m r => <[EventRule.Name r := r]> m) m rules)) as Hload by done.
  apply Hload. apply (add_rules_ind (fun s m => holds s.1 m)); [|done]. intros r s1 m1 _. apply addUpdateRuleInternal_holds.
Qed.

(** C9: Whatever the provider loads and removes, the container holds exactly the
    active rules of the last version of every rule that has not been removed,
    each in the list of its trigger and no name twice. *)
Theorem container_refines calls sched :
  holds (run_calls calls (Container.empty, sched)).1 (foldl note_call ∅ calls).
Proof.
  unfold run_calls. assert (holds (Container.empty, sched).1 ∅) as H.
  { split; [constructor|]. intros trigger r. rewrite lookup_empty. cbn. split; [|by intros []]. unfold rules_of.
    repeat case_match; by intros ?%not_elem_of_nil. }
  revert H. generalize (Container.empty, sched) (∅ : gmap string EventRule.t).
  induction calls as [|c calls IH]; intros s m H; [done|]. cbn. by apply IH, run_call_holds.
Qed.

(** * The jobs *)

Definition job_of (c : container) (id : Z) (name : string) : Prop := ∃ ids, schedulesMapping c !! name = Some ids ∧ id ∈ ids.
(** the entries of the scheduler are those it had and the jobs of the mapping *)
Definition jobs_ok (base : gmap Z string) (m : gmap string (list Z)) (sched : cron) : Prop :=
  (∀ name ids, m !! name = Some ids → NoDup ids) ∧
  (∀ n1 n2 l1 l2 id, m !! n1 = Some l1 → m !! n2 = Some l2 → id ∈ l1 → id ∈ l2 → n1 = n2) ∧
  (∀ name ids id, m !! name = Some ids → id ∈ ids → base !! id = None) ∧
  (∀ id n', entries sched !! id = Some n' ↔ base !! id = Some n' ∨ ∃ name ids, m !! name = Some ids ∧ id ∈ ids ∧ n' = ConvertName name).

Lemma RemoveJobs_entries ids sched id : entries (foldl (fun s id => RemoveJob id s) sched ids) !! id =
  if decide (id ∈ ids) then None else entries sched !! id.
Proof.
  revert sched. induction ids as [|i ids IH]; intros sched; cbn; [done|]. rewrite IH, RemoveJob_law.
  destruct (decide (id = i)) as [->|Hne].
  - rewrite lookup_delete_eq. by repeat case_decide; try set_solver.
  - rewrite lookup_delete_ne by done. repeat case_decide; set_solver.
Qed.
Lemma remove_jobs_ok base m sched name : jobs_ok base m sched →
  jobs_ok base (delete name m) (foldl (fun s id => RemoveJob id s) sched (default [] (m !! name))).
Proof.
  intros (Hn & Hd & Hb & He). split_and!.
  - intros n ids [_ H]%lookup_delete_Some. by eapply Hn.
  - intros n1 n2 l1 l2 id [_ H1]%lookup_delete_Some [_ H2]%lookup_delete_Some. by apply (Hd n1 n2 l1 l2).
  - intros n ids id [_ H]%lookup_delete_Some. by apply (Hb n).
  - intros id n'. rewrite RemoveJobs_entries. case_decide as Hid.
    + destruct (m !! name) as [ids|] eqn:Hm; [|by apply not_elem_of_nil in Hid]. cbn in Hid. split; [done|].
      intros [Hbase|(n & l & [Hne Hl]%lookup_delete_Some & Hin & _)]; [by rewrite (Hb _ _ _ Hm Hid) in Hbase|].
      destruct Hne. by apply (Hd name n ids l id).
    + rewrite He. split; (intros [?|(n & l & Hl & Hin & Hc)]; [by left|right; exists n, l]).
      * rewrite lookup_delete_ne; [done|]. intros ->. by rewrite Hl in Hid.
      * by apply lookup_delete_Some in Hl as [_ Hl].
Qed.
Lemma add_job_ok base m sched name spec id sched' : jobs_ok base m sched → AddJob spec (ConvertName name) sched = (Ok id, sched') →
  jobs_ok base (<[name := default [] (m !! name) ++ [id]]> m) sched'.
Proof.
  intros (Hn & Hd & Hb & He) Ha. pose proof (AddJob_law spec (ConvertName name) sched) as Hl. rewrite Ha in Hl. destruct Hl as (_ & Hfresh & Hent).
  assert (base !! id = None ∧ ∀ n l, m !! n = Some l → id ∉ l) as [Hbid Hmid].
  { split.
    - destruct (base !! id) as [x|] eqn:Hx; [|done]. assert (entries sched !! id = Some x) as Hy by (apply He; by left). by rewrite Hfresh in Hy.
    - intros n l Hnl Hin. assert (entries sched !! id = Some (ConvertName n)) as Hy by (apply He; right; by exists n, l). by rewrite Hfresh in Hy. }
  assert (∀ n l x, <[name := default [] (m !! name) ++ [id]]> m !! n = Some l → x ∈ l →
    (n = name ∧ x = id) ∨ ∃ l', m !! n = Some l' ∧ x ∈ l') as Hinv.
  { intros n l x [[<- <-]|[Hne Hl]]%lookup_insert_Some Hx; [|right; by exists l].
    apply elem_of_app in Hx as [Hx| ->%list_elem_of_singleton]; [|by left]. right.
    destruct (m !! name) as [l'|]; [by exists l'|by apply not_elem_of_nil in Hx]. }
  split_and!.
  - intros n ids [[<- <-]|[Hne Hl]]%lookup_insert_Some; [|by eapply Hn].
    destruct (m !! name) as [l'|] eqn:Hl; cbn; [|apply NoDup_singleton]. apply NoDup_app. split_and!; [by eapply Hn| |apply NoDup_singleton].
    intros x Hx ->%list_elem_of_singleton. by eapply Hmid.
  - intros n1 n2 l1 l2 x H1 H2 Hx1 Hx2.
    destruct (Hinv _ _ _ H1 Hx1) as [[-> ->]|(l1' & Hl1 & Hi1)], (Hinv _ _ _ H2 Hx2) as [[-> ?]|(l2' & Hl2 & Hi2)];
      [done|by destruct (Hmid _ _ Hl2)|subst; by destruct (Hmid _ _ Hl1)|by apply (Hd n1 n2 l1' l2' x)].
  - intros n l x Hl Hx. destruct (Hinv _ _ _ Hl Hx) as [[-> ->]|(l' & Hl' & Hi')]; [done|by apply (Hb n l')].
  - intros x n'. rewrite Hent, lookup_insert_Some, He. split.
    + intros [[<- <-]|[Hne [?|(n & l & Hl & Hin & ->)]]]; [|by left|].
      * right. exists name, (default [] (m !! name) ++ [id]). rewrite lookup_insert_eq. split_and!; [done|set_solver|done].
      * right. destruct (decide (n = name)) as [->|Hnn].
        -- exists name, (default [] (m !! name) ++ [id]). rewrite lookup_insert_eq, Hl. split_and!; [done|set_solver|done].
        -- exists n, l. by rewrite lookup_insert_ne.
    + destruct (decide (id = x)) as [<-|Hne].
      * intros [Hx|(n & l & Hl & Hin & ->)]; [by rewrite Hbid in Hx|].
        destruct (Hinv _ _ _ Hl Hin) as [[-> _]|(l' & Hl' & Hi')]; [by left|by destruct (Hmid _ _ Hl')].
      * intros [Hx|(n & l & Hl & Hin & ->)]; [by right; split; [|left]|].
        destruct (Hinv _ _ _ Hl Hin) as [[-> ->]|(l' & Hl' & Hi')]; [done|]. right. split; [done|]. right. by exists n, l'.
Qed.

Definition schedules_of (r : EventRule.t) : list Schedule.t := EventConditions.Schedules (EventRule.Conditions r).
Lemma add_jobs_ok base name l : ∀ m sched m' sched', jobs_ok base m sched → add_jobs ConvertName name l (m, sched) = (true, (m', sched')) →
  jobs_ok base m' sched' ∧ (∀ n, n ≠ name → m' !! n = m !! n) ∧
  ((l = [] ∧ m' = m) ∨ ∃ new, m' !! name = Some (default [] (m !! name) ++ new) ∧ length new = length l ∧ l ≠ []).
Proof.
  induction l as [|x l IH]; intros m sched m' sched' Hok Ha; cbn in Ha.
  - injection Ha as <- <-. split_and!; [done|done|by left].
  - destruct (AddJob _ _ _) as [[id|e] sched1] eqn:Hj; [|done]. pose proof (add_job_ok _ _ _ _ _ _ _ Hok Hj) as Hok1.
    destruct (IH _ _ _ _ Hok1 Ha) as (Hok' & Hne & Hnew). split_and!; [done| |].
    + intros n Hn. by rewrite Hne, lookup_insert_ne.
    + right. destruct Hnew as [[-> ->]|(new & Hnew & Hlen & _)].
      * exists [id]. by rewrite lookup_insert_eq.
      * exists (id :: new). rewrite Hnew, lookup_insert_eq. cbn. by rewrite <-(assoc_L (++)), Hlen.
Qed.

(** the mapping has the jobs of the rules on a schedule, and of no other *)
Definition mapped (c : container) : Prop := ∀ name,
  match schedulesMapping c !! name with
  | Some ids => ∃ r, r ∈ Schedules c ∧ EventRule.Name r = name ∧ length ids = length (schedules_of r)
  | None => ∀ r, r ∈ Schedules c → EventRule.Name r = name → schedules_of r = []
  end.
Definition jobs_inv (base : gmap Z string) (s : container * cron) (m : gmap string EventRule.t) : Prop :=
  holds s.1 m ∧ jobs_ok base (schedulesMapping s.1) s.2 ∧ mapped s.1.

Lemma removeRuleInternal_jobs name s : NoDup (names (all_rules s.1)) → mapped s.1 →
  schedulesMapping (removeRuleInternal name s).1 = delete name (schedulesMapping s.1) ∧
  (removeRuleInternal name s).2 = foldl (fun s id => RemoveJob id s) s.2 (default [] (schedulesMapping s.1 !! name)).
Proof.
  destruct s as [c sched]. cbn [fst snd]. intros Hn Hm.
  assert ((name ∉ names (Schedules c)) → schedulesMapping c !! name = None) as Hnone.
  { intros Hout. specialize (Hm name). destruct (schedulesMapping c !! name); [|done]. destruct Hm as (r & Hr & <- & _). destruct Hout.
    by apply list_elem_of_fmap_2. }
  assert (schedulesMapping c !! name = None → schedulesMapping c = delete name (schedulesMapping c) ∧
    sched = foldl (fun s id => RemoveJob id s) sched (default [] (schedulesMapping c !! name))) as Hsame.
  { intros Hx. rewrite Hx. split; [by rewrite delete_id|done]. }
  unfold all_rules, names in Hn. rewrite !fmap_app, !NoDup_app in Hn. fold (names (FsEvents c)) (names (ProviderEvents c))
    (names (IPBlockedEvents c)) (names (CertificateEvents c)) (names (IPDLoginEvents c)) (names (Schedules c)) in Hn.
  destruct Hn as (N1 & D1 & N2 & D2 & N3 & D3 & N4 & D4 & N5 & D5 & N6). repeat setoid_rewrite elem_of_app in D1.
  repeat setoid_rewrite elem_of_app in D2. repeat setoid_rewrite elem_of_app in D3. repeat setoid_rewrite elem_of_app in D4.
  pose proof (remove_named_spec name _ N1) as S1. pose proof (remove_named_spec name _ N2) as S2.
  pose proof (remove_named_spec name _ N3) as S3. pose proof (remove_named_spec name _ N4) as S4.
  pose proof (remove_named_spec name _ N5) as S5. pose proof (remove_named_spec name _ N6) as S6.
  cbn [removeRuleInternal].
  destruct (remove_named name (FsEvents c)); [apply Hsame, Hnone; naive_solver|].
  destruct (remove_named name (ProviderEvents c)); [apply Hsame, Hnone; naive_solver|].
  destruct (remove_named name (IPBlockedEvents c)); [apply Hsame, Hnone; naive_solver|].
  destruct (remove_named name (CertificateEvents c)); [apply Hsame, Hnone; naive_solver|].
  destruct (remove_named name (IPDLoginEvents c)); [apply Hsame, Hnone; naive_solver|].
  destruct (remove_named name (Schedules c)); [done|apply Hsame, Hnone; naive_solver].
Qed.

Lemma remove_jobs_inv base name s m : jobs_inv base s m → jobs_inv base (removeRuleInternal name s) (delete name m).
Proof.
  intros (Hh & Hj & Hm). pose proof (proj1 Hh) as Hn. destruct (removeRuleInternal_jobs name s Hn Hm) as [H1 H2].
  split_and!; [by apply RemoveRule_holds|rewrite H1, H2; by apply remove_jobs_ok|].
  intros n. rewrite H1. destruct (removeRuleInternal_lists name s Hn) as (_ & _ & _ & _ & _ & Hs). specialize (Hm n).
  destruct (decide (n = name)) as [->|Hne].
  - rewrite lookup_delete_eq. intros r Hr. rewrite Hs, list_elem_of_filter in Hr. by destruct Hr.
  - rewrite lookup_delete_ne by done. destruct (schedulesMapping s.1 !! n) as [ids|].
    + destruct Hm as (r & Hr & Hnr & Hl). exists r. rewrite Hs, list_elem_of_filter. by rewrite Hnr.
    + intros r Hr. rewrite Hs, list_elem_of_filter in Hr. apply Hm, Hr.
Qed.

(** the schedules of an active rule can be parsed, as [Schedule.validate] checks *)
Definition parses (r : EventRule.t) : Prop :=
  EventRule.Trigger r = EventTriggerSchedule → forallb (fun s => cron_parse (GetCronSpec s)) (schedules_of r) = true.
Definition call_parses (c : call) : Prop := match c with Load _ _ rules => Forall parses rules | Delete _ => True end.

Lemma update_jobs_inv base now rule s m : parses rule → jobs_inv base s m →
  jobs_inv base (addUpdateRuleInternal ConvertName now rule s).2 (<[EventRule.Name rule := rule]> m).
Proof.
  intros Hp Hinv. split; [apply addUpdateRuleInternal_holds, Hinv|].
  apply (remove_jobs_inv base (EventRule.Name rule)) in Hinv as (Hh & Hj & Hm). unfold addUpdateRuleInternal.
  destruct (removeRuleInternal (EventRule.Name rule) s) as [c sched]. cbn [fst snd] in *.
  do 2 (case_match; [by split|]).
  repeat match goal with |- context [if EventRule.Trigger rule =? ?k then _ else _] =>
    destruct (Z.eqb_spec (EventRule.Trigger rule) k) as [Ht|_]; [|] end; try by split.
  pose proof (add_jobs_parse (EventRule.Name rule) (schedules_of rule) (schedulesMapping c, sched)) as Ha. unfold schedules_of in Ha at 1.
  destruct (add_jobs ConvertName _ _ _) as [ok [m' sched']] eqn:Hadd. cbn [fst] in Ha. rewrite (Hp Ht) in Ha. subst ok. cbn [fst snd].
  destruct (add_jobs_ok _ _ _ _ _ _ _ Hj Hadd) as (Hok & Hne & Hnew). split; [done|].
  assert (∀ r, r ∈ Schedules c → EventRule.Name r ≠ EventRule.Name rule) as Hfresh.
  { intros r Hr Heq. destruct Hh as [_ Hh]. destruct (proj1 (Hh EventTriggerSchedule r) Hr) as [Hl _]. by rewrite Heq, lookup_delete_eq in Hl. }
  intros n. cbn. specialize (Hm n). destruct (decide (n = EventRule.Name rule)) as [->|Hnn].
  - assert (schedulesMapping c !! EventRule.Name rule = None) as Hnone.
    { destruct (schedulesMapping c !! _); [|done]. destruct Hm as (r & Hr & Hnr & _). by destruct (Hfresh r Hr). }
    destruct Hnew as [[Hnil ->]|(new & Hnew & Hlen & _)].
    + rewrite Hnone. intros r [Hr| ->%list_elem_of_singleton]%elem_of_app Hnr; [by destruct (Hfresh r Hr)|done].
    + rewrite Hnew, Hnone. exists rule. split_and!; [apply elem_of_app; right; by left|done|done].
  - rewrite (Hne n Hnn). destruct (schedulesMapping c !! n).
    + destruct Hm as (r & Hr & Hnr & Hl). exists r. split_and!; [apply elem_of_app; by left|done|done].
    + intros r [Hr| ->%list_elem_of_singleton]%elem_of_app Hnr; [by apply Hm|done].
Qed.

Lemma run_call_jobs base s m c : call_parses c → jobs_inv base s m → jobs_inv base (run_call s c) (note_call m c).
Proof.
  destruct c as [modTime now rules|name]; [|intros _; apply remove_jobs_inv]. intros Hc Hs. cbn [run_call note_call]. rewrite loadRules_add.
  assert (∀ s m, jobs_inv base s m → jobs_inv base (s.1 <| lastLoad := modTime |>, s.2) m) as Hload by (by intros s' m' (? & ? & ?)).
  apply Hload. apply (add_rules_ind (jobs_inv base)); [|done]. intros r s1 m1 Hr. apply update_jobs_inv.
  cbn in Hc. rewrite Forall_forall in Hc. by apply Hc.
Qed.

(** When the schedules of the rules can be parsed, as those of stored rules
    can, the scheduler runs one job for every schedule of every active rule
    and nothing else it did not have before: the jobs of a rule that is removed
    or changed are gone. *)
Theorem jobs_match_rules calls sched s : Forall call_parses calls → run_calls calls (Container.empty, sched) = s →
  (∀ id n', entries s.2 !! id = Some n' → entries sched !! id = Some n' ∨ ∃ r, r ∈ Schedules s.1 ∧ n' = ConvertName (EventRule.Name r)) ∧
  (∀ r, r ∈ Schedules s.1 → ∃ ids, NoDup ids ∧ length ids = length (schedules_of r) ∧
     ∀ id, id ∈ ids → entries s.2 !! id = Some (ConvertName (EventRule.Name r)) ∧ entries sched !! id = None).
Proof.
  intros Hp <-. unfold run_calls.
  assert (jobs_inv (entries sched) (Container.empty, sched) ∅) as H.
  { split_and!.
    - split; [constructor|]. intros trigger r. rewrite lookup_empty. cbn. split; [|by intros []]. unfold rules_of.
      repeat case_match; by intros ?%not_elem_of_nil.
    - split_and!; cbn; intros *; rewrite ?lookup_empty; try done. split; [by left|by intros [?|(n & l & ? & _)]].
    - intros name. cbn. rewrite lookup_empty. by intros r ?%not_elem_of_nil. }
  revert H. generalize (Container.empty, sched) (∅ : gmap string EventRule.t). induction Hp as [|c calls Hc _ IH]; intros s m H.
  - cbn. destruct H as ((_ & Hh) & (Hn & Hd & Hb & He) & Hm). split.
    + intros id n' [?|(n & l & Hl & Hin & ->)]%He; [by left|right]. specialize (Hm n). rewrite Hl in Hm. destruct Hm as (r & Hr & <- & _). by exists r.
    + intros r Hr. specialize (Hm (EventRule.Name r)). destruct (schedulesMapping s.1 !! EventRule.Name r) as [ids|] eqn:Hl.
      * destruct Hm as (r' & Hr' & Hnr & Hlen). exists ids. assert (r' = r) as ->.
        { apply (Hh EventTriggerSchedule) in Hr as [Hr _], Hr' as [Hr' _]. rewrite Hnr, Hr in Hr'. by injection Hr'. }
        split_and!; [by eapply Hn|done|].
        intros id Hid. split; [|by eapply Hb]. apply He. right. by exists (EventRule.Name r), ids.
      * exists []. rewrite (Hm r) by done. split_and!; [constructor|done|]. by intros id ?%not_elem_of_nil.
  - cbn. by apply (IH _ (note_call m c)), run_call_jobs.
Qed.
End laws.

(** * A scheduler *)

(** The entries in a map with the next identifier; a schedule whose hours are
    [x] cannot be parsed. *)
Definition toy_parse (spec : string) : bool := negb (has_prefix spec "0 x").
Definition toy_AddJob (spec name : string) (c : gmap Z string) : res Z * gmap Z string :=
  if toy_parse spec then let id := fresh (dom c) in (Ok id, <[id := name]> c) else (Err (PlainError "bad schedule"), c).
#[local] Instance toy_scheduler : Scheduler := {| cron := gmap Z string; AddJob := toy_AddJob; RemoveJob := delete |}.
#[local] Program Instance toy_laws : SchedulerLaws := {| cron_parse := toy_parse; entries := id |}.
Next Obligation.
  intros spec name c. cbn. unfold toy_AddJob. destruct (toy_parse spec); [|done]. split_and!; [done| |done].
  apply not_elem_of_dom, is_fresh.
Qed.
Next Obligation. done. Qed.

Definition no_jobs : @cron toy_scheduler := (∅ : gmap Z string).
Definition at_hours (name : string) (hours : list string) : EventRule.t :=
  EventRule.zero <| EventRule.Name := name |> <| EventRule.Status := 1 |> <| EventRule.Trigger := EventTriggerSchedule |>
    <| EventRule.Conditions := EventConditions.zero <| EventConditions.Schedules := (fun h => Schedule.mk h "*" "*" "*") <$> hours |> |>.

Lemma container_refines_witness :
  let calls := [Load 1 1 [at_hours "night" ["1"; "2"]; at_hours "day" ["12"]]; Delete "night"; Load 2 2 [at_hours "day" ["9"; "13"]]] in
  let s := run_calls id calls (Container.empty, no_jobs) in
  Schedules s.1 = [at_hours "day" ["9"; "13"]] ∧ @holds toy_scheduler toy_laws s.1 (foldl note_call ∅ calls).
Proof. intros calls s. split; [vm_compute; reflexivity|]. apply (container_refines id calls no_jobs). Defined.
Lemma jobs_match_rules_witness :
  let calls := [Load 1 1 [at_hours "night" ["1"; "2"]; at_hours "day" ["12"]]; Delete "night"] in
  let s := run_calls id calls (Container.empty, no_jobs) in
  (map_to_list (s.2 : gmap Z string)).*2 = ["day"] ∧
  ∀ id n', @entries toy_scheduler toy_laws s.2 !! id = Some n' →
    @entries toy_scheduler toy_laws no_jobs !! id = Some n' ∨ ∃ r, r ∈ Schedules s.1 ∧ n' = EventRule.Name r.
Proof.
  intros calls s. split; [vm_compute; reflexivity|].
  apply (jobs_match_rules id calls no_jobs s); [|reflexivity].
  repeat constructor; intros _; vm_compute; reflexivity.
Defined.

(** When a later schedule of a rule cannot be added, the jobs added for the
    rule before stay in the scheduler for good: removing the rule does not
    remove them. *)
Theorem failed_schedule_leaves_jobs :
  let s := run_calls id [Load 1 1 [at_hours "night" ["1"; "x"]]; Delete "night"] (Container.empty, no_jobs) in
  all_rules s.1 = [] ∧ @entries toy_scheduler toy_laws s.2 = {[ fresh (∅ : gset Z) := "night" ]}.
Proof. split; vm_compute; reflexivity. Qed.
