(* ===== verification/EventTasks.v ===== *)
(** Scheduled rules on several nodes: the tasks of the SQL providers and the
    protocol by which one node at a time runs a rule
    (internal/dataprovider/sqlcommon.go, internal/common/eventmanager.go
    eventCronJob).

    A node makes one call to the database in a step; [job_step] is the program
    of a node and [step] any interleaving of the nodes.  The theorem
    [starts_are_apart] is what the protocol is for. *)
From S2P Require Import Prelude Entities MemoryCore ValidateUser EventRules EventContainer.
Open Scope Z_scope.

Module Task.
(* source: internal/dataprovider/eventrule.go Task *)
Record t := mk { Name : string; UpdateAt : Z; Version : Z }.
End Task.

(** the rows of the table, by name: when it was updated, the version *)
Notation tasks := (gmap string (Z * Z)).

(* source: internal/dataprovider/sqlcommon.go sqlCommonGetTaskByName *)
Definition sqlCommonGetTaskByName (name : string) (rows : tasks) : res Task.t :=
  match rows !! name with
  | Some (updated_at, version) => Ok (Task.mk name updated_at version)
  | None => Err (RecordNotFoundError "task" name)
  end.
(** the name is a unique key *)
(* source: internal/dataprovider/sqlcommon.go sqlCommonAddTask *)
Definition sqlCommonAddTask (now : Z) (name : string) (rows : tasks) : res unit * tasks :=
  match rows !! name with
  | Some _ => (Err (ErrDuplicatedKey "task" name), rows)
  | None => (Ok tt, <[name := (now, 0)]> rows)
  end.
(* source: internal/dataprovider/sqlcommon.go sqlCommonUpdateTask *)
Definition sqlCommonUpdateTask (now : Z) (name : string) (version : Z) (rows : tasks) : res unit * tasks :=
  match rows !! name with
  | Some (_, v) => if v =? version then (Ok tt, <[name := (now, v + 1)]> rows) else (Err (RecordNotFoundError "" ""), rows)
  | None => (Err (RecordNotFoundError "" ""), rows)
  end.
(* source: internal/dataprovider/sqlcommon.go sqlCommonUpdateTaskTimestamp *)
Definition sqlCommonUpdateTaskTimestamp (now : Z) (name : string) (rows : tasks) : res unit * tasks :=
  match rows !! name with
  | Some (_, v) => (Ok tt, <[name := (now, v)]> rows)
  | None => (Err (RecordNotFoundError "" ""), rows)
  end.
(* source: internal/dataprovider/sqlcommon.go sqlCommonDeleteTask *)
Definition sqlCommonDeleteTask (name : string) (rows : tasks) : res unit * tasks := (Ok tt, delete name rows).

(** * A node *)

(** Times of the clock are nanoseconds, those of the rows milliseconds. *)
Definition ms (now : Z) : Z := now / 1000000.
Definition updateInterval : Z := 5 * 60 * 1000000000.
(** [updatedAt.Add(updateInterval*2 + 1).After(time.Now())] *)
Definition too_recent (task : Task.t) (now : Z) : bool := now <? Task.UpdateAt task * 1000000 + (updateInterval * 2 + 1).

(** Where a node is in [Run]: before it, with a rule to guard, between
    [GetTaskByName] and [AddTask], with a task, between the check of its age and
    [UpdateTask], executing the actions with the goroutine that updates the
    timestamp, and executing those of a rule that is not guarded. *)
Inductive job := Idle | Getting | Adding | Checking (task : Task.t) | Updating (version : Z) | Running | RunningUnguarded.

(** [getTask], for a rule that is guarded from concurrent execution, one call at
    a time *)
(* source: internal/common/eventmanager.go getTask *)
Definition getTask_step (now : Z) (name : string) (adding : bool) (rows : tasks) : job * tasks :=
  if negb adding then
    match sqlCommonGetTaskByName name rows with
    | Ok task => (Checking task, rows)
    | Err (RecordNotFoundError _ _) => (Adding, rows)
    | Err _ => (Idle, rows)
    end
  else match sqlCommonAddTask (ms now) name rows with
       | (Ok _, rows) => (Checking (Task.mk name 0 0), rows)
       | (Err _, rows) => (Idle, rows)
       end.
(** [tick]: the timer of a running node fires; it ends otherwise.  [loaded] is
    the answer of [EventRuleExists], whose rule has the name [name]; [IsShared] is
    the configuration's. *)
(* source: internal/common/eventmanager.go eventCronJob.Run *)
Definition job_step (IsShared : Z) (now : Z) (tick : bool) (loaded : res EventRule.t) (name : string) (j : job) (rows : tasks) : job * tasks :=
  match j with
  | Idle =>
      match loaded with
      | Err _ => (Idle, rows)
      | Ok rule =>
          match CheckActionsConsistency rule "" with
          | Err _ => (Idle, rows)
          | Ok _ => (if GuardFromConcurrentExecution IsShared rule then Getting else RunningUnguarded, rows)
          end
      end
  | Getting => getTask_step now name false rows
  | Adding => getTask_step now name true rows
  | Checking task => if too_recent task now then (Idle, rows) else (Updating (Task.Version task), rows)
  | Updating version =>
      match sqlCommonUpdateTask (ms now) name version rows with
      | (Ok _, rows) => (Running, rows)
      | (Err _, rows) => (Idle, rows)
      end
  | Running => if tick then (Running, (sqlCommonUpdateTaskTimestamp (ms now) name rows).2) else (Idle, rows)
  | RunningUnguarded => (Idle, rows)
  end.

(** * Several nodes *)

Module Cluster.
(** The table, what every node does, the clock and the times, in milliseconds,
    at which an execution of the rule started. *)
Record t := mk { rows : tasks; nodes : gmap nat job; clock : Z; starts : list Z }.
#[global] Instance eta : Settable t := {| settable := fun x => mk (rows x) (nodes x) (clock x) (starts x) |}.
End Cluster.
Import Cluster.

Section cluster.
Variables (IsShared : Z) (name : string).

Definition is_start (j j' : job) : bool :=
  match j, j' with Updating _, Running | Idle, RunningUnguarded => true | _, _ => false end.
(** A node loads the rule or not, and when it does the rule is guarded. *)
Definition guarded (loaded : res EventRule.t) : Prop := ∀ rule, loaded = Ok rule → GuardFromConcurrentExecution IsShared rule = true.
Inductive step : Cluster.t → Cluster.t → Prop :=
  | node_step c node now tick loaded j j' rows' : clock c <= now → guarded loaded → nodes c !! node = Some j →
      job_step IsShared now tick loaded name j (rows c) = (j', rows') →
      step c (mk rows' (<[node := j']> (nodes c)) now (if is_start j j' then starts c ++ [ms now] else starts c)).
(** all nodes idle, the rule has not been started yet *)
Definition initial (c : Cluster.t) : Prop :=
  starts c = [] ∧ (∀ node j, nodes c !! node = Some j → j = Idle).

(** the version of the row counts the starts; a node that could still update the
    row has seen one that is old enough *)
Definition node_ok (c : Cluster.t) (version : Z) (j : job) : Prop :=
  match j with
  | Checking task => Task.Version task <= version ∧ (Task.Version task = version → ∀ t, t ∈ starts c → t <= Task.UpdateAt task)
  | Updating v => v <= version ∧ (v = version → ∀ t, t ∈ starts c → t + 600000 <= ms (clock c))
  | RunningUnguarded => False
  | _ => True
  end.
Definition cluster_ok (c : Cluster.t) : Prop :=
  match rows c !! name with
  | Some (u, v) => (∀ t, t ∈ starts c → t <= u ∧ t <= ms (clock c)) ∧ ∀ node j, nodes c !! node = Some j → node_ok c v j
  | None => starts c = [] ∧ ∀ node j, nodes c !! node = Some j → j = Idle ∨ j = Getting ∨ j = Adding
  end.
Definition apart (l : list Z) : Prop := ∀ i j a b, (i < j)%nat → l !! i = Some a → l !! j = Some b → a + 600000 <= b.

Lemma apart_snoc l t : apart l → (∀ a, a ∈ l → a + 600000 <= t) → apart (l ++ [t]).
Proof.
  intros Hl Ht i j a b Hij Ha Hb. destruct (decide (j < length l)%nat) as [Hj|Hj].
  - rewrite lookup_app_l in Ha, Hb by lia. by apply (Hl i j).
  - rewrite lookup_app_r in Hb by lia. apply list_lookup_singleton_Some in Hb as [Hj0 <-].
    rewrite lookup_app_l in Ha by lia. apply Ht. by eapply list_elem_of_lookup_2.
Qed.
Lemma ms_mono a b : a <= b → ms a <= ms b.
Proof. intros H. unfold ms. apply Z.div_le_mono; lia. Qed.
Lemma too_recent_old task now : too_recent task now = false → Task.UpdateAt task + 600000 <= ms now.
Proof.
  unfold too_recent, updateInterval, ms. intros H%Z.ltb_ge. apply Z.div_le_lower_bound; lia.
Qed.

Lemma node_ok_later c c' v j : starts c' = starts c → clock c <= clock c' → node_ok c v j → node_ok c' v j.
Proof.
  intros Hs Hc. pose proof (ms_mono _ _ Hc). destruct j; cbn; rewrite ?Hs; try done. intros [Hv Ht]. split; [done|].
  intros Hv' t Hin. specialize (Ht Hv' t Hin). lia.
Qed.
(** the other nodes after a step that leaves the starts and the version *)
Lemma others_ok c c' v node j' : starts c' = starts c → clock c <= clock c' → nodes c' = <[node := j']> (nodes c) →
  (∀ n j, nodes c !! n = Some j → node_ok c v j) → node_ok c' v j' → ∀ n j, nodes c' !! n = Some j → node_ok c' v j.
Proof.
  intros Hs Hc Hn Hall Hj n j. rewrite Hn. intros [[<- <-]|[_ Hl]]%lookup_insert_Some; [done|]. eapply node_ok_later; eauto.
Qed.

(** a node that loads the rule *)
Lemma load_guarded now tick loaded rows j' rows' : guarded loaded → job_step IsShared now tick loaded name Idle rows = (j', rows') →
  rows' = rows ∧ (j' = Idle ∨ j' = Getting).
Proof.
  intros Hg. cbn. destruct loaded as [rule|]; [|intros [= <- <-]; auto]. rewrite (Hg rule eq_refl).
  destruct (CheckActionsConsistency rule ""); intros [= <- <-]; auto.
Qed.
Lemma step_ok c c' : cluster_ok c → apart (starts c) → step c c' → cluster_ok c' ∧ apart (starts c').
Proof.
  intros Hok Hapart Hst. destruct Hst as [c node now tick loaded j j' rows' Hc Hg Hj Hrun]. pose proof (ms_mono _ _ Hc) as Hms. unfold cluster_ok in Hok.
  destruct (rows c !! name) as [[u v]|] eqn:Hrow.
  - destruct Hok as [Hst Hall]. pose proof (Hall _ _ Hj) as Hme.
    assert (∀ j'', rows' = rows c → node_ok (mk rows' (<[node := j'']> (nodes c)) now (starts c)) v j'' →
      cluster_ok (mk rows' (<[node := j'']> (nodes c)) now (starts c)) ∧ apart (starts c)) as Hquiet.
    { intros j'' Hrows Hj''. split; [|done]. unfold cluster_ok. cbn. rewrite Hrows, Hrow. split.
      - intros t Ht. destruct (Hst t Ht). lia.
      - exact (others_ok c (mk rows' (<[node := j'']> (nodes c)) now (starts c)) v node j'' eq_refl Hc eq_refl Hall Hj''). }
    destruct j as [| | |task|version| |]; [apply load_guarded in Hrun as [-> [-> | ->]]; [by apply Hquiet..|done]|..];
      cbn [job_step] in Hrun; unfold getTask_step in Hrun; cbn [negb] in Hrun.
    + unfold sqlCommonGetTaskByName in Hrun. rewrite Hrow in Hrun. injection Hrun as <- <-. apply Hquiet; [done|]. cbn.
      split; [lia|]. intros _ t Ht. by destruct (Hst t Ht).
    + unfold sqlCommonAddTask in Hrun. rewrite Hrow in Hrun. injection Hrun as <- <-. by apply Hquiet.
    + destruct (too_recent task now) eqn:Hrec; injection Hrun as <- <-; [by apply Hquiet|]. apply Hquiet; [done|].
      apply too_recent_old in Hrec. destruct Hme as [Hv Ht]. cbn. split; [done|]. intros Heq t Hin. specialize (Ht Heq t Hin). lia.
    + unfold sqlCommonUpdateTask in Hrun. rewrite Hrow in Hrun. destruct (Z.eqb_spec v version) as [<-|Hne]; injection Hrun as <- <-.
      * destruct Hme as [_ Ht]. specialize (Ht eq_refl). cbn. split.
        -- unfold cluster_ok. cbn. rewrite lookup_insert_eq. split.
           ++ intros t [Hin| ->%list_elem_of_singleton]%elem_of_app; [|lia]. destruct (Hst t Hin). lia.
           ++ intros n j [[<- <-]|[_ Hl]]%lookup_insert_Some; [done|]. specialize (Hall _ _ Hl). destruct j; cbn in *; try done.
              ** split; [lia|]. intros Heq. lia.
              ** split; [lia|]. intros Heq. lia.
        -- apply apart_snoc; [done|]. intros a Ha. specialize (Ht a Ha). lia.
      * by apply Hquiet.
    + destruct tick; injection Hrun as <- <-; [|by apply Hquiet]. unfold sqlCommonUpdateTaskTimestamp. rewrite Hrow. cbn. split; [|done].
      unfold cluster_ok. cbn. rewrite lookup_insert_eq. split.
      * intros t Ht. destruct (Hst t Ht). lia.
      * exact (others_ok c (mk (<[name := (ms now, v)]> (rows c)) (<[node := Running]> (nodes c)) now (starts c)) v node Running eq_refl Hc eq_refl Hall I).
    + done.
  - destruct Hok as [Hst Hall].
    destruct (Hall _ _ Hj) as [->|[-> | ->]]; [apply load_guarded in Hrun as [-> Hj']; [|done]| |];
      try (cbn [job_step] in Hrun; unfold getTask_step in Hrun; cbn [negb] in Hrun).
    + cbn. split; [|destruct Hj' as [-> | ->]; by rewrite Hst].
      unfold cluster_ok. cbn. rewrite Hrow. split; [by destruct Hj' as [-> | ->]|].
      intros n j [[<- <-]|[_ Hl]]%lookup_insert_Some; [by destruct Hj' as [-> | ->]; auto|by eapply Hall].
    + unfold sqlCommonGetTaskByName in Hrun. rewrite Hrow in Hrun. injection Hrun as <- <-. cbn. split; [|by rewrite Hst].
      unfold cluster_ok. cbn. rewrite Hrow. split; [done|]. intros n j [[<- <-]|[_ Hl]]%lookup_insert_Some; [by right; right|by eapply Hall].
    + unfold sqlCommonAddTask in Hrun. rewrite Hrow in Hrun. injection Hrun as <- <-. cbn. split; [|by rewrite Hst].
      unfold cluster_ok. cbn. rewrite lookup_insert_eq, Hst. split; [by intros t ?%not_elem_of_nil|].
      intros n j [[<- <-]|[_ Hl]]%lookup_insert_Some; [cbn; split; [lia|by intros _ t ?%not_elem_of_nil]|].
      destruct (Hall _ _ Hl) as [->|[-> | ->]]; done.
Qed.

(** C8: However the nodes of a cluster interleave, two executions of a scheduled
    rule that is guarded from concurrent execution start at least ten minutes
    apart on the clock the nodes share: reading the task, adding it and updating
    its version let one node through.  It holds as long as the rule, and its
    task with it, is not deleted. *)
Theorem starts_are_apart c c' : initial c → rtc step c c' → apart (starts c').
Proof.
  intros [Hs Hidle] Hrun.
  assert (cluster_ok c ∧ apart (starts c)) as H.
  { split; [|rewrite Hs; intros i j a b _ Ha; done]. unfold cluster_ok. destruct (rows c !! name) as [[u v]|]; rewrite Hs.
    - split; [by intros t ?%not_elem_of_nil|]. intros n j Hj. by rewrite (Hidle n j Hj).
    - split; [done|]. intros n j Hj. left. by apply (Hidle n). }
  clear Hs Hidle. induction Hrun as [c|c c1 c2 Hst _ IH]; [apply H|]. apply IH. destruct H. by apply (step_ok c).
Qed.

(** a run given by the node that makes each step and the time, with the steps of
    running nodes that are ticks, of nodes that load a rule *)
Context (rule : EventRule.t) (Hguard : GuardFromConcurrentExecution IsShared rule = true).
Definition run_step (c : Cluster.t) (x : nat * Z * bool) : Cluster.t :=
  let '(node, now, tick) := x in
  match nodes c !! node with
  | Some j =>
      if now <? clock c then c
      else let '(j', rows') := job_step IsShared now tick (Ok rule) name j (rows c) in
           mk rows' (<[node := j']> (nodes c)) now (if is_start j j' then starts c ++ [ms now] else starts c)
  | None => c
  end.
Lemma run_steps_rtc l c : rtc step c (foldl run_step c l).
Proof.
  revert c. induction l as [|[[node now] tick] l IH]; intros c; [apply rtc_refl|]. cbn [foldl].
  etrans; [|apply IH]. cbn. destruct (nodes c !! node) as [j|] eqn:Hj; [|done]. destruct (Z.ltb_spec now (clock c)); [done|].
  destruct (job_step IsShared now tick (Ok rule) name j (rows c)) as [j' rows'] eqn:Hr. apply rtc_once. econstructor; [done| |done|done].
  by intros ? [= <-].
Qed.
End cluster.

(** Two nodes read the same task and one of them starts; a third start comes
    after the running node has stopped updating the task. *)
Definition two_nodes : Cluster.t := mk {["backup" := (0, 4)]} {[0%nat := Idle; 1%nat := Idle]} (10 ^ 15) [].
Definition sample_rule : EventRule.t := EventRule.zero <| EventRule.Name := "backup" |> <| EventRule.Trigger := EventTriggerSchedule |>.
Definition two_runs : list (nat * Z * bool) :=
  let at_ms (n : Z) := 10 ^ 15 + n * 1000000 in
  [(0%nat, at_ms 0, false); (1%nat, at_ms 0, false); (0%nat, at_ms 0, false); (1%nat, at_ms 1, false); (1%nat, at_ms 2, false);
   (0%nat, at_ms 3, false); (0%nat, at_ms 4, false); (1%nat, at_ms 5, false); (1%nat, at_ms 6, false); (1%nat, at_ms 6, false);
   (1%nat, at_ms 7, false); (0%nat, at_ms 300000, true); (0%nat, at_ms 300001, false);
   (1%nat, at_ms 900001, false); (1%nat, at_ms 900001, false); (1%nat, at_ms 900001, false); (1%nat, at_ms 900002, false)].
Lemma starts_are_apart_witness : let run := foldl (run_step 1 "backup" sample_rule) two_nodes two_runs in
  starts run = [10 ^ 9 + 4; 10 ^ 9 + 900002] ∧ apart (starts run).
Proof.
  split; [vm_compute; reflexivity|]. apply (starts_are_apart 1 "backup" two_nodes); [|by apply run_steps_rtc].
  split; [reflexivity|]. intros node j Hj. change (nodes two_nodes) with ({[0%nat := Idle; 1%nat := Idle]} : gmap nat job) in Hj.
  by apply lookup_insert_Some in Hj as [[_ <-]|[_ [_ <-]%lookup_singleton_Some]].
Defined.
