(* ===== verification/IPLists.v ===== *)
(** IP lists: validation of an entry, the lists kept in memory and the lookup
    of an address (internal/dataprovider/iplist.go).

    The ranger, a third-party prefix trie, is an interface: its operations and,
    in a second class, the laws of its documentation. *)
From stdpp Require Import pretty.
From Stdlib Require Import Ascii.
From S2P Require Import Prelude GoPath Util Net Prefix FsConfig Entities Links Tables MemoryCore MemoryInv UserPerms MemoryQueries ValidateUser.
Open Scope Z_scope.

(** * Validation *)

(* source: internal/dataprovider/iplist.go#L83-L84 supportedIPListType *)
Definition supportedIPListType : list Z := [IPListTypeAllowList; IPListTypeDefender; IPListTypeRateLimiterSafeList].
(* source: internal/dataprovider/iplist.go CheckIPListType *)
Definition CheckIPListType (t : Z) : res unit :=
  refuse (negb (bool_decide (t ∈ supportedIPListType))) (ValidationError "invalid list type").

(* source: internal/dataprovider/iplist.go checkProtocols *)
Definition checkProtocols (e : IPListEntry.t) : IPListEntry.t :=
  if forallb (ipentry_HasProtocol e) ValidProtocols then e <| IPListEntry.Protocols := 0 |> else e.

Definition has_slash (s : string) : bool := bool_decide (is_Some (index_of "/"%char s)).
(** the text of an address becomes that of a network with one address *)
Definition as_network (ipOrNet : string) : res string :=
  if has_slash ipOrNet then Ok ipOrNet
  else match ParseAddr ipOrNet with
       | None => Err (ValidationError "invalid IP")
       | Some (V4 _) => Ok (ipOrNet +:+ "/32")
       | Some (V6 b z) => if Is4In6 (V6 b z) then Ok (addr_String4 (drop 12 b) +:+ "/32") else Ok (ipOrNet +:+ "/128")
       end.
Definition is_v4 (a : addr) : bool := match a with V4 _ => true | V6 _ _ => Is4In6 a end.

(* source: internal/dataprovider/iplist.go IPListEntry.validate *)
Definition ipentry_validate (e : IPListEntry.t) : res IPListEntry.t :=
  _ ← CheckIPListType (IPListEntry.Type_ e);
  let e := checkProtocols e in
  let mode := IPListEntry.Mode e in
  _ ← refuse (if IPListEntry.Type_ e =? IPListTypeDefender then (mode <? ListModeAllow) || (ListModeDeny <? mode)
              else negb (mode =? ListModeAllow)) (ValidationError "invalid list mode");
  let e := ipentry_PrepareForRendering e in
  net ← as_network (IPListEntry.IPOrNet e);
  match ParsePrefix net with
  | None => Err (ValidationError "invalid network")
  | Some (a, bits) =>
      let m := Masked a bits in
      let net := if Is4In6 m then addr_String4 (As4 m) +:+ String "/"%char (pretty (bits - 96)) else net in
      _ ← refuse (bool_decide (ParseCIDR net = None)) (ValidationError "invalid network");
      let e := e <| IPListEntry.IPOrNet := net |> in
      if is_v4 m
      then Ok (e <| IPListEntry.IPType := ipTypeV4 |> <| IPListEntry.First := As4 m |>
                 <| IPListEntry.Last := As4 (GetLastIPForPrefix m bits) |>)
      else Ok (e <| IPListEntry.IPType := ipTypeV6 |> <| IPListEntry.First := As16 m |>
                 <| IPListEntry.Last := As16 (GetLastIPForPrefix m bits) |>)
  end.

(** * Lists in memory *)

(** github.com/yl2chen/cidranger: a set of networks with an entry each. *)
Class Ranger := {
  ranger : Type;
  NewPCTrieRanger : ranger;
  Ranger_Insert : IPNet → IPListEntry.t → ranger → res ranger;
  Ranger_Remove : IPNet → ranger → res ranger;
  Ranger_Len : ranger → Z;
  ContainingNetworks : list Z → ranger → res (list IPListEntry.t);
}.

Module IPList.
(* source: internal/dataprovider/iplist.go IPList *)
Record t `{Ranger} := mk {
  isInMemory : bool;
  listType : Z;
  Ranges : ranger;
}.
#[global] Instance eta `{Ranger} : Settable t := {| settable := fun x => mk _ (isInMemory x) (listType x) (Ranges x) |}.
End IPList.

Section iplist.
Context {R : Ranger}.

(** [getAsRangerEntry], the network of an entry *)
(* source: internal/dataprovider/iplist.go getAsRangerEntry *)
Definition getAsRangerEntry (e : IPListEntry.t) : res (IPNet * IPListEntry.t) :=
  match ParseCIDR (IPListEntry.IPOrNet e) with
  | None => Err (PlainError "invalid CIDR address")
  | Some (_, network) => Ok (network, ipentry_getACopy e)
  end.

Definition disable (l : IPList.t) : IPList.t := l <| IPList.isInMemory := false |>.
Definition check_limit (l : IPList.t) : IPList.t :=
  if Z.of_nat ipListMemoryLimit <=? Ranger_Len (IPList.Ranges l) then disable l else l.
(** [if l.listType != e.Type || !l.isInMemory.Load() { return }], then the
    network of the entry; an error disables the memory mode. *)
Definition with_network (l : IPList.t) (e : IPListEntry.t) (k : IPNet → IPListEntry.t → IPList.t) : IPList.t :=
  if negb (IPList.listType l =? IPListEntry.Type_ e) || negb (IPList.isInMemory l) then l
  else match getAsRangerEntry e with Err _ => disable l | Ok (network, entry) => k network entry end.

(* source: internal/dataprovider/iplist.go addEntry *)
Definition addEntry (l : IPList.t) (e : IPListEntry.t) : IPList.t := with_network l e (fun network entry =>
  match Ranger_Insert network entry (IPList.Ranges l) with
  | Err _ => disable l
  | Ok r => check_limit (l <| IPList.Ranges := r |>)
  end).

(* source: internal/dataprovider/iplist.go removeEntry *)
Definition removeEntry (l : IPList.t) (e : IPListEntry.t) : IPList.t := with_network l e (fun network _ =>
  match Ranger_Remove network (IPList.Ranges l) with
  | Err _ => disable l
  | Ok r => l <| IPList.Ranges := r |>
  end).

(* source: internal/dataprovider/iplist.go updateEntry *)
Definition updateEntry (l : IPList.t) (e : IPListEntry.t) : IPList.t := with_network l e (fun network entry =>
  match Ranger_Remove network (IPList.Ranges l) with
  | Err _ => disable l
  | Ok r => match Ranger_Insert network entry r with
            | Err _ => check_limit (disable l <| IPList.Ranges := r |>)
            | Ok r => check_limit (l <| IPList.Ranges := r |>)
            end
  end).

(** [for _, e := range entries { if e.Protocols == 0 || e.HasProtocol(protocol) { return true, e.Mode, nil } }] *)
Definition applies (protocol : string) (e : IPListEntry.t) : bool :=
  (IPListEntry.Protocols e =? 0) || ipentry_HasProtocol e protocol.
Definition first_listed (protocol : string) (entries : list IPListEntry.t) : bool * Z :=
  match first_some (fun e => if applies protocol e then Some (IPListEntry.Mode e) else None) entries with
  | Some mode => (true, mode)
  | None => (false, 0)
  end.

(* source: internal/dataprovider/iplist.go IsListed *)
Definition IsListed (h : DB.t) (l : IPList.t) (ip protocol : string) : res (bool * Z) :=
  if IPList.isInMemory l then
    match ParseIP ip with
    | None => Err (PlainError "invalid IP")
    | Some parsedIP =>
        match ContainingNetworks parsedIP (IPList.Ranges l) with
        | Err _ => Err (PlainError "unable to find containing networks")
        | Ok entries => Ok (first_listed protocol entries)
        end
    end
  else entries ← getListEntriesForIP ip (IPList.listType l) h; Ok (first_listed protocol entries).

Fixpoint insert_all (entries : list IPListEntry.t) (r : ranger) : res ranger :=
  match entries with
  | [] => Ok r
  | e :: entries' => '(network, entry) ← getAsRangerEntry e; r ← Ranger_Insert network entry r; insert_all entries' r
  end.
(** The list of the type is registered in [inMemoryLists] when it is kept in memory. *)
(* source: internal/dataprovider/iplist.go NewIPList *)
Definition NewIPList (h : DB.t) (listType : Z) : res IPList.t :=
  count ← countIPListEntries listType h;
  if count <? Z.of_nat ipListMemoryLimit then
    entries ← getIPListEntries listType "" "" OrderASC 0 h;
    r ← insert_all entries NewPCTrieRanger;
    Ok (IPList.mk _ true listType r)
  else Ok (IPList.mk _ false listType NewPCTrieRanger).
End iplist.

(** * What validation establishes *)

(** Bytes of the same length are compared as the numbers they stand for. *)
Lemma bytes_le_value a : ∀ b, Forall is_byte a → Forall is_byte b → length a = length b →
  bytes_le a b = (be_value a <=? be_value b).
Proof.
  induction a as [|x a IH]; intros [|y b] Ha Hb Hl; try done.
  apply Forall_cons in Ha as [_ Ha]. apply Forall_cons in Hb as [_ Hb]. injection Hl as Hl.
  cbn [bytes_le]. rewrite !be_cons, Hl. pose proof (be_range b Hb) as Hrb. pose proof (be_range a Ha) as Hra. rewrite Hl in Hra.
  set (P := 256 ^ Z.of_nat (length b)) in *.
  destruct (Z.ltb_spec x y); [symmetry; apply Z.leb_le; nia|].
  destruct (Z.ltb_spec y x); [symmetry; apply Z.leb_gt; nia|].
  assert (x = y) as -> by lia. rewrite (IH b Ha Hb Hl). clearbody P.
  destruct (Z.leb_spec (be_value a) (be_value b)); symmetry; [apply Z.leb_le|apply Z.leb_gt]; lia.
Qed.

(** The bounds of an entry are addresses of its family, as its validator
    computes them. *)
Definition entry_bounds_ok (e : IPListEntry.t) : Prop :=
  let n := if IPListEntry.IPType e =? ipTypeV4 then 4%nat else 16%nat in
  Forall is_byte (IPListEntry.First e) ∧ length (IPListEntry.First e) = n ∧
  Forall is_byte (IPListEntry.Last e) ∧ length (IPListEntry.Last e) = n.

Lemma ip_key_ok a : addr_ok a →
  Forall is_byte (ip_key a).2 ∧ length (ip_key a).2 = if (ip_key a).1 =? ipTypeV4 then 4%nat else 16%nat.
Proof.
  intros [H1 H2]. destruct a as [b|b z]; cbn [ip_key addr_bytes] in *; [done|].
  destruct (Is4In6 _); cbn [fst snd]; [|done]. split; [by apply Forall_drop|]. by rewrite length_drop, H2.
Qed.

(** the entry covers the address *)
Definition covers (e : IPListEntry.t) (a : addr) : Prop :=
  IPListEntry.IPType e = (ip_key a).1 ∧
  be_value (IPListEntry.First e) <= be_value (ip_key a).2 <= be_value (IPListEntry.Last e).


(** ** Networks as text *)

Lemma cut_at_app c s : ∀ x y, cut_at c s = Some (x, y) → s = x +:+ String c y.
Proof.
  induction s as [|d s IH]; intros x y; cbn [cut_at]; [done|].
  destruct (Ascii.eqb c d) eqn:Hd; [apply Ascii.eqb_eq in Hd as <-; by intros [= <- <-]|].
  destruct (cut_at c s) as [[a b]|]; [|done]. intros [= <- <-]. rewrite append_cons. f_equal. by apply IH.
Qed.

Lemma last_index_of_none c s : index_of c s = None → last_index_of c s = None.
Proof.
  induction s as [|d s IH]; cbn [index_of last_index_of]; [done|].
  destruct (Ascii.eqb c d); [done|]. destruct (index_of c s); [done|]. intros _. by rewrite IH.
Qed.
Lemma last_index_of_app c x y : index_of c y = None → last_index_of c (x +:+ String c y) = Some (String.length x).
Proof.
  intros Hy. induction x as [|d x IH].
  - change ("" +:+ ?s) with s. cbn [last_index_of]. by rewrite (last_index_of_none c y Hy), Ascii.eqb_refl.
  - rewrite append_cons. cbn [last_index_of String.length]. by rewrite IH.
Qed.

Lemma dtoi_from_no_slash s : ∀ acc n, dtoi_from s acc = Some n → index_of "/"%char s = None.
Proof.
  induction s as [|c s IH]; intros acc n; cbn [dtoi_from index_of]; [done|].
  destruct (digit c) as [d|] eqn:Hd; [|done]. destruct (_ <=? _); [done|]. intros H%IH.
  destruct (Ascii.eqb "/" c) eqn:Hc; [|by rewrite H]. apply Ascii.eqb_eq in Hc as <-. done.
Qed.
Lemma dtoi_from_pos s : ∀ acc n, 0 <= acc → dtoi_from s acc = Some n → 0 <= n.
Proof.
  induction s as [|c s IH]; intros acc n Ha; cbn [dtoi_from]; [congruence|].
  destruct (digit c) as [d|] eqn:Hd; [|done]. apply digit_range in Hd. destruct (_ <=? _); [done|]. apply IH. lia.
Qed.

(** A text that both parsers accept is the same address and number of bits. *)
Lemma ParsePrefix_ParseCIDR s a bits ip network : ParsePrefix s = Some (a, bits) → ParseCIDR s = Some (ip, network) →
  addr_ok a ∧ 0 <= bits <= BitLen a ∧ ip = As16 a ∧
  network = mk_ipnet (IP_Mask (As16 a) (CIDRMask bits (Z.to_nat (BitLen a / 8)))) (CIDRMask bits (Z.to_nat (BitLen a / 8))).
Proof.
  unfold ParseCIDR. destruct (cut_at "/"%char s) as [[x y]|] eqn:Hcut; [|done]. intros Hp.
  destruct (ParseAddr x) as [b|] eqn:Hb; [|done]. destruct (match b with V4 _ => _ | V6 _ _ => _ end); [done|].
  destruct (dtoi y) as [n|] eqn:Hn; [|done]. destruct (Z.ltb_spec (BitLen b) n) as [|Hle]; [done|]. intros [= <- <-].
  unfold dtoi in Hn. destruct (y =s ""); [done|]. pose proof (dtoi_from_no_slash _ _ _ Hn) as Hy.
  apply cut_at_app in Hcut as ->. unfold ParsePrefix in Hp. rewrite last_index_of_app in Hp by done.
  unfold str_take, str_drop in Hp. rewrite substring_app, Hb in Hp. destruct (match b with V4 _ => _ | V6 _ _ => _ end); [done|].
  assert (String.substring (String.length x + 1) (String.length (x +:+ String "/"%char y) - (String.length x + 1))
    (x +:+ String "/"%char y) = y) as Hd.
  { replace (x +:+ String "/"%char y) with ((x +:+ "/") +:+ y) by (by rewrite <-append_assoc).
    replace (String.length x + 1)%nat with (String.length (x +:+ "/")) by (by rewrite length_append).
    apply substring_drop. rewrite !length_append. cbn [String.length]. lia. }
  rewrite Hd in Hp. destruct (_ && _); [done|]. unfold dtoi in Hp. destruct (y =s ""); [done|]. rewrite Hn in Hp.
  destruct (_ <? _); [done|]. injection Hp as <- <-. apply ParseAddr_addr_ok in Hb.
  apply dtoi_from_pos in Hn; [|done]. done.
Qed.

Lemma ParsePrefix_ok s a bits : ParsePrefix s = Some (a, bits) → addr_ok a ∧ 0 <= bits <= BitLen a.
Proof.
  unfold ParsePrefix. destruct (last_index_of _ _) as [i|]; [|done]. destruct (ParseAddr _) as [b|] eqn:Hb; [|done].
  destruct (match b with V4 _ => _ | V6 _ _ => _ end); [done|]. destruct (_ && _); [done|].
  destruct (dtoi _) as [n|] eqn:Hn; [|done]. destruct (Z.ltb_spec (BitLen b) n) as [|Hle]; [done|]. intros [= <- <-].
  unfold dtoi in Hn. destruct (_ =s ""); [done|]. apply dtoi_from_pos in Hn; [|done].
  by apply ParseAddr_addr_ok in Hb.
Qed.

(** ** Membership *)

(** Two numbers agree on the bits of a prefix when one lies in the range of the
    other's prefix. *)
Lemma same_prefix f x k : 0 <= k → f mod 2 ^ k = 0 → f / 2 ^ k * 2 ^ k = x / 2 ^ k * 2 ^ k ↔ f <= x <= f + 2 ^ k - 1.
Proof.
  intros Hk Hm. pose proof (Z.pow_pos_nonneg 2 k ltac:(lia) Hk) as Hp.
  assert (f / 2 ^ k * 2 ^ k = f) as -> by (pose proof (Z.div_mod f (2 ^ k) ltac:(lia)); lia).
  pose proof (Z.div_mod x (2 ^ k) ltac:(lia)) as Hx. pose proof (Z.mod_pos_bound x (2 ^ k) Hp).
  split; [lia|]. intros Hr. apply Z.mod_divide in Hm as [q ->]; [|lia].
  rewrite <-(Z.div_unique x (2 ^ k) q (x - q * 2 ^ k)) by lia. lia.
Qed.

Lemma mask_eq_iff (f l x : list Z) p : Forall is_byte f → Forall is_byte x → length x = length f →
  0 <= p <= 8 * Z.of_nat (length f) → be_value f mod 2 ^ (8 * Z.of_nat (length f) - p) = 0 →
  be_value l = be_value f + 2 ^ (8 * Z.of_nat (length f) - p) - 1 →
  mask_bytes f (CIDRMask p (length f)) = mask_bytes x (CIDRMask p (length f)) ↔
  be_value f <= be_value x <= be_value l.
Proof.
  intros Hf Hx Hl Hp Hm ->. rewrite <-same_prefix by (done || lia).
  pose proof (mask_value f p Hf Hp) as Hvf. pose proof (mask_value x p Hx) as Hvx. rewrite Hl in Hvx. specialize (Hvx Hp).
  cbv zeta in *. rewrite <-Hvf, <-Hvx. split; [by intros ->|]. intros Hv.
  assert (∀ ip, Forall is_byte ip → length ip = length f → Forall is_byte (mask_bytes ip (CIDRMask p (length f))) ∧
    length (mask_bytes ip (CIDRMask p (length f))) = length f) as Hb.
  { intros ip Hip Hn. unfold mask_bytes. split; [by apply mask_is_byte|].
    by rewrite length_zip_with, CIDRMask_length, Hn, Nat.min_id. }
  destruct (Hb f Hf eq_refl) as [? Hlf], (Hb x Hx Hl) as [? Hlx]. apply be_inj; congruence || done.
Qed.

(** The bytes of an address as the networks compare them. *)
Lemma To4_As16 a : addr_ok a → default (As16 a) (To4 (As16 a)) = (ip_key a).2.
Proof.
  intros [_ Hl]. unfold To4. destruct a as [b|b z]; cbn [As16 addr_bytes ip_key] in *.
  - rewrite bool_decide_eq_false_2 by (rewrite length_app, Hl; done).
    rewrite bool_decide_eq_true_2; [done|]. rewrite length_app, Hl. split; [done|]. by rewrite take_app_length'.
  - rewrite bool_decide_eq_false_2 by (rewrite Hl; done). unfold Is4In6. rewrite Hl.
    destruct (decide (take 12 b = v4InV6Prefix)) as [Ht|Ht].
    + by rewrite !bool_decide_eq_true_2.
    + rewrite !bool_decide_eq_false_2; [done|done|]. by intros [_ ?].
Qed.

Lemma Contains_iff f l p a (n := length f) : Forall is_byte f → (n = 4%nat ∨ n = 16%nat ∧ take 12 f ≠ v4InV6Prefix) →
  0 <= p <= 8 * Z.of_nat n → be_value f mod 2 ^ (8 * Z.of_nat n - p) = 0 →
  be_value l = be_value f + 2 ^ (8 * Z.of_nat n - p) - 1 → addr_ok a →
  IPNet_Contains (mk_ipnet f (CIDRMask p n)) (As16 a) = true ↔
  length (ip_key a).2 = n ∧ be_value f <= be_value (ip_key a).2 <= be_value l.
Proof.
  intros Hf Hn Hp Hm Hl Ha. unfold IPNet_Contains. cbn [IPNet_IP IPNet_Mask].
  assert (default f (To4 f) = f) as ->.
  { unfold To4. destruct Hn as [Hn|[Hn Ht]]; fold n; rewrite Hn; [done|].
    rewrite !bool_decide_eq_false_2; [done|by intros [_ ?]|done]. }
  rewrite (bool_decide_eq_false_2 (length f = 4%nat ∧ _)) by (rewrite CIDRMask_length; fold n; lia).
  rewrite (To4_As16 a Ha), !andb_true_iff, !bool_decide_eq_true, CIDRMask_length.
  destruct (ip_key_ok a Ha) as [Hb _]. fold n. split.
  - intros [[Hlen _] He]. split; [done|]. by rewrite <-mask_eq_iff.
  - intros [Hlen He]. split_and!; [done|done|]. by apply (mask_eq_iff f l).
Qed.

(** ** Valid entries *)

(** The network of a masked prefix: its bounds and its members. *)
Lemma masked_facts a bits : addr_ok a → 0 <= bits <= BitLen a → let m := Masked a bits in let l := GetLastIPForPrefix m bits in
  BitLen m = BitLen a ∧ be_value (addr_bytes m) mod 2 ^ (BitLen a - bits) = 0 ∧
  be_value (addr_bytes l) = be_value (addr_bytes m) + 2 ^ (BitLen a - bits) - 1 ∧ addr_ok m ∧ addr_ok l ∧
  same_family a m ∧ same_family m l.
Proof.
  intros Ha Hb m l. destruct (Masked_value a bits Ha Hb) as (Hv & Hm & Hf). fold m in Hv, Hm, Hf.
  assert (BitLen m = BitLen a) as Hbl by (by destruct a, m).
  assert (be_value (addr_bytes m) mod 2 ^ (BitLen a - bits) = 0) as H0.
  { rewrite Hv. apply Z.mod_mul, Z.pow_nonzero; lia. }
  rewrite <-Hbl in Hb, H0 |- *. destruct (GetLastIPForPrefix_value m bits Hm Hb H0) as (H1 & H2 & H3). done.
Qed.

Lemma IP_Mask_V4 b m : length b = 4%nat → length m = 4%nat → IP_Mask (As16 (V4 b)) m = mask_bytes b m.
Proof.
  intros Hb Hm. unfold IP_Mask. cbn [As16]. rewrite bool_decide_eq_true_2; [by rewrite drop_app_length'|].
  split_and!; [done|by rewrite length_app, Hb|by rewrite take_app_length'].
Qed.
Lemma IP_Mask_V6 b m : length m = 16%nat → IP_Mask b m = mask_bytes b m.
Proof. intros Hm. unfold IP_Mask. rewrite bool_decide_eq_false_2; [done|]. rewrite Hm. by intros [? _]. Qed.

Lemma plain_index w s : plain_word w = true → cut_at "/"%char (w +:+ s) = (fun '(x, y) => (w +:+ x, y)) <$> cut_at "/"%char s.
Proof.
  induction w as [|c w IH]; cbn [plain_word].
  { intros _. change ("" +:+ s) with s. by destruct (cut_at _ s) as [[??]|]. }
  intros [Hc Hw]%andb_true_iff. rewrite append_cons. apply plain_head in Hc as (_ & _ & _ & Hc). cbn [cut_at].
  rewrite Ascii.eqb_sym in Hc. rewrite Hc, (IH Hw). by destruct (cut_at _ s) as [[??]|].
Qed.

(** A dotted address and a number of bits parse back. *)
Lemma ParseCIDR_print d n : addr_ok (V4 d) → 0 <= n <= 32 →
  ParseCIDR (addr_String4 d +:+ String "/"%char (pretty n)) =
  Some (As16 (V4 d), mk_ipnet (mask_bytes d (CIDRMask n 4)) (CIDRMask n 4)).
Proof.
  intros [Hb Hl] Hn. cbn [addr_bytes] in *.
  assert (dtoi (pretty n) = Some n) as Hd.
  { assert (n ∈ seqZ 0 33) as Hin by (apply elem_of_seqZ; lia). revert Hin. generalize n.
    apply Forall_forall. apply (bool_decide_unpack _). by vm_compute. }
  pose proof (ParseAddr_String4 d Hb Hl) as Hp. unfold ParseCIDR.
  assert (cut_at "/"%char (addr_String4 d +:+ String "/"%char (pretty n)) = Some (addr_String4 d, pretty n)) as ->.
  { clear Hp. destruct d as [|x1 [|x2 [|x3 [|x4 [|]]]]]; try done. rewrite !Forall_cons in Hb. destruct Hb as (B1 & B2 & B3 & B4 & _).
    apply byte_string_ok in B1 as [_ P1], B2 as [_ P2], B3 as [_ P3], B4 as [_ P4]. unfold addr_String4. cbn [fmap list_fmap].
    rewrite <-!append_assoc, plain_index by done. rewrite append_cons. cbn [cut_at].
    change (Ascii.eqb "/" ".") with false. cbn match. rewrite <-!append_assoc, plain_index by done. rewrite append_cons. cbn [cut_at].
    change (Ascii.eqb "/" ".") with false. cbn match. rewrite <-!append_assoc, plain_index by done. rewrite append_cons. cbn [cut_at].
    change (Ascii.eqb "/" ".") with false. cbn match. rewrite plain_index by done. cbn [cut_at].
    change (Ascii.eqb "/" "/") with true. cbn. by rewrite append_nil_r. }
  rewrite Hp, Hd. cbn [BitLen]. replace (32 <? n) with false by lia.
  rewrite IP_Mask_V4 by (done || apply CIDRMask_length). done.
Qed.

Definition describes (e : IPListEntry.t) (network : IPNet) : Prop :=
  ∀ a, addr_ok a → IPNet_Contains network (As16 a) = true ↔ covers e a.

(** The bounds [f] and [l] of a masked prefix make an entry of its network. *)
Lemma bounds_describe e f l p (n := length f) : Forall is_byte f → Forall is_byte l → length l = n →
  (n = 4%nat ∨ n = 16%nat ∧ take 12 f ≠ v4InV6Prefix) → 0 <= p <= 8 * Z.of_nat n →
  be_value f mod 2 ^ (8 * Z.of_nat n - p) = 0 → be_value l = be_value f + 2 ^ (8 * Z.of_nat n - p) - 1 →
  IPListEntry.IPType e = (if bool_decide (n = 4%nat) then ipTypeV4 else ipTypeV6) →
  IPListEntry.First e = f → IPListEntry.Last e = l →
  entry_bounds_ok e ∧ describes e (mk_ipnet f (CIDRMask p n)).
Proof.
  intros Hf Hl Hll Hn Hp Hm Hv Ht He1 He2. unfold entry_bounds_ok, describes, covers. rewrite Ht, He1, He2. split.
  - fold n. destruct Hn as [->|[-> _]]; done.
  - intros a Ha. etransitivity; [exact (Contains_iff f l p a Hf Hn Hp Hm Hv Ha)|]. destruct (ip_key_ok a Ha) as [_ Hk].
    apply and_iff_compat_r. rewrite Hk. fold n. destruct a as [b|b z]; cbn [ip_key fst] in *.
    + destruct Hn as [->|[-> _]]; done.
    + destruct (Is4In6 _); cbn [fst snd] in *; destruct Hn as [->|[-> _]]; done.
Qed.

(** A masked address is IPv4-mapped only if the prefix is that long. *)
Lemma Is4In6_bits m bits : addr_ok m → 0 <= bits <= 128 → be_value (addr_bytes m) mod 2 ^ (128 - bits) = 0 →
  Is4In6 m = true → 96 <= bits ∧ ∃ d, addr_bytes m = v4InV6Prefix ++ d ∧ Forall is_byte d ∧ length d = 4%nat.
Proof.
  intros [Hb Hl] Hbits Hm H. destruct m as [|b z]; [done|]. unfold Is4In6 in H. apply bool_decide_eq_true in H.
  cbn [addr_bytes] in *. rewrite <-(take_drop 12 b), H in Hb, Hm |- *. apply Forall_app in Hb as [_ Hd].
  assert (length (drop 12 b) = 4%nat) as Hld by (rewrite length_drop; lia).
  split; [|by exists (drop 12 b)]. destruct (Z.le_gt_cases 96 bits) as [|Hlt]; [done|exfalso].
  rewrite be_app, Hld in Hm. pose proof (be_range _ Hd) as Hr. rewrite Hld in Hr.
  change (256 ^ Z.of_nat 4) with (2 ^ 32) in *. change (be_value v4InV6Prefix) with 65535 in Hm.
  apply Z.mod_divide in Hm as [q Hq]; [|apply Z.pow_nonzero; lia].
  replace (128 - bits) with (95 - bits + 33) in Hq by lia. rewrite Z.pow_add_r in Hq by lia.
  set (d := be_value (drop 12 b)) in *. change (2 ^ 33) with (2 ^ 32 * 2) in Hq. lia.
Qed.

Lemma network_of s pa bits : ParsePrefix s = Some (pa, bits) → ParseCIDR s ≠ None →
  ∃ ip, ParseCIDR s = Some (ip, mk_ipnet (addr_bytes (Masked pa bits)) (CIDRMask bits (length (addr_bytes pa)))).
Proof.
  intros Hp Hc. destruct (ParseCIDR s) as [[ip network]|] eqn:Hs; [|done].
  destruct (ParsePrefix_ParseCIDR _ _ _ _ _ Hp Hs) as ([_ Ha] & _ & _ & ->). exists ip. do 2 f_equal.
  rewrite Ha. destruct pa as [b|b z]; cbn [addr_bytes BitLen Masked] in *.
  - rewrite IP_Mask_V4 by (done || apply CIDRMask_length). done.
  - rewrite IP_Mask_V6 by apply CIDRMask_length. done.
Qed.

Lemma mask_id d p : Forall is_byte d → length d = 4%nat → 0 <= p <= 32 → be_value d mod 2 ^ (32 - p) = 0 →
  mask_bytes d (CIDRMask p 4) = d.
Proof.
  intros Hd Hl Hp Hm. pose proof (mask_value d p Hd) as Hv. rewrite Hl in Hv. specialize (Hv Hp). cbv zeta in Hv.
  change (8 * Z.of_nat 4) with 32 in Hv. apply be_inj; [by apply mask_is_byte|done| |].
  - unfold mask_bytes. by rewrite length_zip_with, CIDRMask_length, Hl.
  - rewrite Hv. pose proof (Z.pow_pos_nonneg 2 (32 - p) ltac:(lia) ltac:(lia)). pose proof (Z.div_mod (be_value d) (2 ^ (32 - p)) ltac:(lia)). lia.
Qed.

Lemma mapped_describe e d l bits : Forall is_byte d → length d = 4%nat → Forall is_byte l → length l = 4%nat →
  0 <= bits - 96 <= 32 → be_value d mod 2 ^ (128 - bits) = 0 → be_value l = be_value d + 2 ^ (128 - bits) - 1 →
  IPListEntry.IPType e = ipTypeV4 → IPListEntry.First e = d → IPListEntry.Last e = l →
  entry_bounds_ok e ∧ describes e (mk_ipnet (mask_bytes d (CIDRMask (bits - 96) 4)) (CIDRMask (bits - 96) 4)).
Proof.
  intros Hd Hdl Hl Hll Hb Hm Hv H1 H2 H3. replace (128 - bits) with (32 - (bits - 96)) in * by lia. rewrite mask_id by done.
  pose proof (bounds_describe e d l (bits - 96)) as Hbd. rewrite Hdl in Hbd. apply Hbd; try done; by left.
Qed.

(** The last address of an IPv4-mapped prefix is mapped too. *)
Lemma mapped_last (fb lb : list Z) bits d : fb = v4InV6Prefix ++ d → Forall is_byte d → length d = 4%nat →
  96 <= bits <= 128 → Forall is_byte lb → length lb = 16%nat → be_value fb mod 2 ^ (128 - bits) = 0 →
  be_value lb = be_value fb + 2 ^ (128 - bits) - 1 →
  be_value d mod 2 ^ (128 - bits) = 0 ∧ be_value (drop 12 lb) = be_value d + 2 ^ (128 - bits) - 1 ∧
  (Forall is_byte (drop 12 lb) ∧ length (drop 12 lb) = 4%nat).
Proof.
  intros -> Hd Hl Hb Hlb Hll Hm Hv. rewrite be_app, Hl in Hm, Hv. change (256 ^ Z.of_nat 4) with (2 ^ 32) in *.
  pose proof (be_range d Hd) as Hr. rewrite Hl in Hr. change (256 ^ Z.of_nat 4) with (2 ^ 32) in Hr.
  set (k := 128 - bits) in *. pose proof (Z.pow_pos_nonneg 2 k ltac:(lia) ltac:(lia)) as Hk.
  assert (2 ^ 32 = 2 ^ (32 - k) * 2 ^ k) as H32 by (rewrite <-Z.pow_add_r by lia; f_equal; lia).
  assert (be_value d mod 2 ^ k = 0) as Hdm.
  { rewrite <-Hm, H32, Z.mul_assoc, Z.add_comm, Z.mod_add; [done|lia]. }
  assert (be_value d + 2 ^ k <= 2 ^ 32) as Hdk.
  { apply Z.mod_divide in Hdm as [q Hq]; [|lia]. rewrite Hq in *. rewrite H32 in *.
    assert (q < 2 ^ (32 - k)) by nia. nia. }
  assert (Forall is_byte (take 12 lb) ∧ Forall is_byte (drop 12 lb)) as [Ht Hdr].
  { apply Forall_app. by rewrite take_drop. }
  assert (length (drop 12 lb) = 4%nat) as Hdl by (rewrite length_drop; lia).
  rewrite <-(take_drop 12 lb), be_app, Hdl in Hv at 1. change (256 ^ Z.of_nat 4) with (2 ^ 32) in Hv.
  pose proof (be_range _ Hdr) as Hr'. rewrite Hdl in Hr'. change (256 ^ Z.of_nat 4) with (2 ^ 32) in Hr'.
  split_and!; [done| |done|done]. clear H32. change (2 ^ 32) with 4294967296 in *. lia.
Qed.

Lemma validated_network e e' : ipentry_validate e = Ok e' →
  entry_bounds_ok e' ∧ ∃ ip network, ParseCIDR (IPListEntry.IPOrNet e') = Some (ip, network) ∧ describes e' network.
Proof.
  unfold ipentry_validate. cbv zeta. intros H. inv_checks H.
  destruct (ParsePrefix a1) as [[pa bits]|] eqn:Hp; [|done]. destruct (ParsePrefix_ok _ _ _ Hp) as [Ha Hb].
  destruct (masked_facts pa bits Ha Hb) as (M1 & M2 & M3 & M4 & M5 & M6 & M7). inv_checks H. apply bool_decide_eq_false in E2.
  pose proof (addr_ok_length pa Ha) as Hlen. pose proof M4 as M4'. destruct M4 as [Mb Ml], M5 as [Lb Ll], Ha as [Ha Ha'].
  assert (length (addr_bytes (Masked pa bits)) = length (addr_bytes pa)) as Hml by (rewrite Ml, Ha'; by destruct pa).
  assert (length (addr_bytes (GetLastIPForPrefix (Masked pa bits) bits)) = length (addr_bytes pa)) as Hll.
  { rewrite Ll, <-Hml, Ml. by destruct (Masked pa bits), (GetLastIPForPrefix _ _). }
  destruct (Is4In6 (Masked pa bits)) eqn:H46.
  - destruct pa as [b|b z]; [done|]. cbn [BitLen] in *.
    destruct (Is4In6_bits _ bits M4' Hb M2 H46) as (H96 & d & Hd & Hdb & Hdl).
    destruct (mapped_last _ _ bits d Hd Hdb Hdl (conj H96 (proj2 Hb)) Lb (eq_trans Hll Ha') M2 M3) as (D1 & D2 & D3).
    assert (As4 (Masked (V6 b z) bits) = d) as HA by (cbn [Masked addr_bytes As4] in *; by rewrite Hd, drop_app_length').
    rewrite HA in *. cbn [is_v4 Masked] in H. cbn [Masked] in H46. rewrite H46 in H.
    destruct (mapped_describe e' d (drop 12 (addr_bytes (GetLastIPForPrefix (Masked (V6 b z) bits) bits))) bits) as [Hok Hdesc];
      [done|done|apply D3|apply D3|lia|done|done|by injection H as <-|by injection H as <-| |].
    + injection H as <-. change (As4 (GetLastIPForPrefix (Masked (V6 b z) bits) bits) =
        drop 12 (addr_bytes (GetLastIPForPrefix (Masked (V6 b z) bits) bits))).
      by destruct (GetLastIPForPrefix (Masked (V6 b z) bits) bits) in M7 |- *.
    + split; [done|]. eexists _, _. split; [|exact Hdesc]. injection H as <-. cbn [IPListEntry.IPOrNet].
      by rewrite ParseCIDR_print by (done || lia).
  - destruct (network_of a1 pa bits Hp E2) as [ip Hip].
    assert (is_v4 (Masked pa bits) = bool_decide (length (addr_bytes pa) = 4%nat)) as Hv4 by (rewrite Ha'; by destruct pa).
    rewrite Hv4 in H. rewrite Hlen in *. destruct (bounds_describe e' (addr_bytes (Masked pa bits))
      (addr_bytes (GetLastIPForPrefix (Masked pa bits) bits)) bits) as [Hok Hd]; rewrite ?Hml; try done.
    + rewrite Ha'. destruct pa as [b|b z]; [by left|right]. split; [done|]. by apply bool_decide_eq_false in H46.
    + rewrite Ha' in H |- *. destruct pa; by injection H as <-.
    + rewrite Ha' in H. destruct pa; by injection H as <-.
    + rewrite Ha' in H. destruct pa as [b|b z]; injection H as <-.
      * change (As4 (GetLastIPForPrefix (Masked (V4 b) bits) bits) = addr_bytes (GetLastIPForPrefix (Masked (V4 b) bits) bits)).
        by destruct (GetLastIPForPrefix (Masked (V4 b) bits) bits) in M7 |- *.
      * change (As16 (GetLastIPForPrefix (Masked (V6 b z) bits) bits) = addr_bytes (GetLastIPForPrefix (Masked (V6 b z) bits) bits)).
        by destruct (GetLastIPForPrefix (Masked (V6 b z) bits) bits) in M7 |- *.
    + split; [done|]. eexists _, _. split; [|exact Hd]. rewrite Hml. rewrite Ha' in H. destruct pa; by injection H as <-.
Qed.

(** A valid entry of an IP list has the bounds of its network: the address
    family and the bytes fit, and an address lies between First and Last exactly
    when the network of the entry contains it.  So the range query of the data
    provider and the lookup by network agree, IPv4-mapped addresses included. *)
Theorem ipentry_validate_network e e' : ipentry_validate e = Ok e' →
  entry_bounds_ok e' ∧ ∃ ip network, ParseCIDR (IPListEntry.IPOrNet e') = Some (ip, network) ∧ describes e' network.
Proof. apply validated_network. Qed.

(** * The entries for an address *)

Lemma getListEntriesForIP_spec h ip listType : wf h → DB.isClosed h = false →
  (∀ k e, DB.ipListEntries h !! k = Some e → entry_bounds_ok e) →
  match ParseAddr ip with
  | None => is_ok (getListEntriesForIP ip listType h) = false
  | Some a => ∃ l, getListEntriesForIP ip listType h = Ok l ∧ ∀ x, x ∈ l ↔
      ∃ k e, DB.ipListEntries h !! k = Some e ∧ IPListEntry.Type_ e = listType ∧ covers e a ∧
        x = ipentry_PrepareForRendering (ipentry_getACopy e)
  end.
Proof.
  intros W Hc Hb. unfold getListEntriesForIP, when_open. rewrite Hc. destruct (ParseAddr ip) as [a|] eqn:Ha; [|done].
  pose proof (ip_key_ok a (ParseAddr_addr_ok _ _ Ha)) as [Hk1 Hk2]. unfold covers.
  destruct (ip_key a) as [t b]. cbn [fst snd] in *. eexists. split; [done|]. intros x. rewrite list_elem_of_fmap.
  setoid_rewrite list_elem_of_In. setoid_rewrite filter_In. setoid_rewrite <-list_elem_of_In.
  setoid_rewrite (names_ok_elem _ _ _ (proj1 (wf_ipListEntries _ W))). setoid_rewrite dom_fmap_L.
  unfold load_ipentry. split.
  - intros (k & -> & [e He]%elem_of_dom & H). unfold entry in *. rewrite He in *. cbn [from_option id] in *.
    destruct (Hb k e He) as (B1 & B2 & B3 & B4). exists k, e. split; [done|].
    rewrite !andb_true_iff in H. destruct H as [[[H1%Z.eqb_eq H2%Z.eqb_eq] H3] H4]. rewrite H2 in *.
    rewrite bytes_le_value in H3, H4 by (done || congruence). apply Z.leb_le in H3, H4. split_and!; done.
  - intros (k & e & He & H1 & (H2 & H3 & H4) & ->). exists k. destruct (Hb k e He) as (B1 & B2 & B3 & B4).
    unfold entry. rewrite He. cbn [from_option id]. split; [done|]. split; [by eapply elem_of_dom_2|].
    rewrite H2 in *. rewrite !bytes_le_value by (done || congruence).
    rewrite !andb_true_iff. split_and!; [by apply Z.eqb_eq|by apply Z.eqb_eq|by apply Z.leb_le|by apply Z.leb_le].
Qed.

(** ** The contract of IsListed *)

(** An entry of the list covers the address. *)
Definition covering (h : DB.t) (listType : Z) (a : addr) (e : IPListEntry.t) : Prop :=
  (∃ k, DB.ipListEntries h !! k = Some e) ∧ IPListEntry.Type_ e = listType ∧ covers e a.

(** What IsListed promises: the address is found exactly when some entry that
    covers it applies to the protocol, and with the mode of such an entry. *)
Definition answers (h : DB.t) (listType : Z) (a : addr) (protocol : string) (r : bool * Z) : Prop :=
  match r with
  | (true, mode) => ∃ e, covering h listType a e ∧ applies protocol e = true ∧ IPListEntry.Mode e = mode
  | (false, mode) => mode = 0 ∧ ∀ e, covering h listType a e → applies protocol e = false
  end.

(** copies of the same entry, as far as IsListed looks at them *)
Definition same_answer (x e : IPListEntry.t) : Prop :=
  IPListEntry.Mode x = IPListEntry.Mode e ∧ IPListEntry.Protocols x = IPListEntry.Protocols e.

Lemma applies_same protocol x e : same_answer x e → applies protocol x = applies protocol e.
Proof. intros [_ H]. unfold applies, ipentry_HasProtocol. by rewrite H. Qed.

Lemma first_listed_answers h listType a protocol l :
  (∀ x, x ∈ l → ∃ e, covering h listType a e ∧ same_answer x e) →
  (∀ e, covering h listType a e → ∃ x, x ∈ l ∧ same_answer x e) →
  answers h listType a protocol (first_listed protocol l).
Proof.
  intros H1 H2. unfold first_listed. destruct (first_some _ l) as [mode|] eqn:Hf.
  - apply first_some_Some in Hf as (i & x & Hx%list_elem_of_lookup_2 & Hmode & _).
    destruct (applies protocol x) eqn:Ha; [|done]. injection Hmode as <-.
    destruct (H1 x Hx) as (e & He & Hs). exists e. split_and!; [done|by rewrite <-(applies_same _ _ _ Hs)|by destruct Hs].
  - split; [done|]. intros e He. destruct (H2 e He) as (x & Hx & Hs). rewrite first_some_None in Hf. specialize (Hf x Hx).
    rewrite <-(applies_same _ _ _ Hs). by destruct (applies protocol x).
Qed.

#[export] Instance ipnet_eq_dec : EqDecision IPNet.
Proof. solve_decision. Defined.

(** The laws of the ranger: a partial function from networks to entries. *)
Class RangerLaws `{Ranger} := {
  networks : ranger → IPNet → option IPListEntry.t;
  new_networks n : networks NewPCTrieRanger n = None;
  insert_networks n e r : ∃ r', Ranger_Insert n e r = Ok r' ∧
    ∀ n', networks r' n' = if decide (n' = n) then Some e else networks r n';
  remove_networks n r : ∃ r', Ranger_Remove n r = Ok r' ∧
    ∀ n', networks r' n' = if decide (n' = n) then None else networks r n';
  containing_networks ip r : length ip = 16%nat → ∃ l, ContainingNetworks ip r = Ok l ∧
    ∀ e, e ∈ l ↔ ∃ n, networks r n = Some e ∧ IPNet_Contains n ip = true;
}.

Definition entry_network (e : IPListEntry.t) : option IPNet := snd <$> ParseCIDR (IPListEntry.IPOrNet e).

(** What the validation of every entry gives, see [validated_network]. *)
Definition entries_valid (h : DB.t) : Prop := ∀ k e, DB.ipListEntries h !! k = Some e →
  entry_bounds_ok e ∧ ∃ n, entry_network e = Some n ∧ describes e n.

Definition distinct_networks (h : DB.t) (listType : Z) : Prop := ∀ k1 e1 k2 e2,
  DB.ipListEntries h !! k1 = Some e1 → DB.ipListEntries h !! k2 = Some e2 →
  IPListEntry.Type_ e1 = listType → IPListEntry.Type_ e2 = listType → entry_network e1 = entry_network e2 → k1 = k2.

Section contract.
Context {R : Ranger} {L : RangerLaws}.

(** The ranger holds the networks of the entries of the type, and no others. *)
Definition mirrors (h : DB.t) (l : IPList.t) : Prop :=
  (∀ n x, networks (IPList.Ranges l) n = Some x → ∃ k e, DB.ipListEntries h !! k = Some e ∧
     IPListEntry.Type_ e = IPList.listType l ∧ entry_network e = Some n ∧ same_answer x e) ∧
  (∀ k e, DB.ipListEntries h !! k = Some e → IPListEntry.Type_ e = IPList.listType l →
     ∃ n x, entry_network e = Some n ∧ networks (IPList.Ranges l) n = Some x ∧ same_answer x e).

Lemma ParseIP_addr ip b : ParseIP ip = Some b → ∃ a, ParseAddr ip = Some a ∧ addr_ok a ∧ b = As16 a ∧ length b = 16%nat.
Proof.
  unfold ParseIP. destruct (ParseAddr ip) as [a|] eqn:Ha; [|done]. pose proof (ParseAddr_addr_ok _ _ Ha) as Hok.
  intros H. exists a. destruct Hok as [Hb Hl]. destruct a as [c|c z]; cbn [addr_bytes As16] in *.
  - injection H as <-. split_and!; [done|done|done|]. simpl. by rewrite Hl.
  - destruct (z =s ""); [|done]. injection H as <-. done.
Qed.

(** C34: IsListed keeps its contract in both modes: whether the list is held in
    memory as networks or the data provider is queried by range, an address
    without a zone is found exactly when an entry of the list that covers it
    applies to the protocol, with the mode of such an entry. *)
Theorem IsListed_refines h l ip b protocol : wf h → DB.isClosed h = false → entries_valid h →
  (IPList.isInMemory l = true → mirrors h l) → ParseIP ip = Some b →
  ∃ a r, ParseAddr ip = Some a ∧ IsListed h l ip protocol = Ok r ∧ answers h (IPList.listType l) a protocol r.
Proof.
  intros W Hc Hv Hm Hip. destruct (ParseIP_addr ip b Hip) as (a & Ha & Hok & -> & Hlen). exists a. unfold IsListed.
  destruct (IPList.isInMemory l).
  - specialize (Hm eq_refl) as [Hm1 Hm2]. rewrite Hip. destruct (containing_networks (As16 a) (IPList.Ranges l) Hlen) as (xs & -> & Hxs).
    eexists. split_and!; [done|done|]. apply first_listed_answers.
    + intros x (n & Hn & Hcont)%Hxs. destruct (Hm1 n x Hn) as (k & e & Hk & Ht & Hnet & Hs). exists e. split; [|done].
      destruct (Hv k e Hk) as (_ & n' & Hn' & Hd). split_and!; [eauto|done|]. apply (Hd a Hok). congruence.
    + intros e ([k Hk] & Ht & Hcov). destruct (Hm2 k e Hk Ht) as (n & x & Hnet & Hn & Hs). exists x. split; [|done].
      apply Hxs. exists n. split; [done|]. destruct (Hv k e Hk) as (_ & n' & Hn' & Hd). rewrite Hnet in Hn'.
      injection Hn' as <-. by apply (Hd a Hok).
  - pose proof (getListEntriesForIP_spec h ip (IPList.listType l) W Hc (fun k e Hk => proj1 (Hv k e Hk))) as Hg.
    rewrite Ha in Hg. destruct Hg as (xs & -> & Hxs). cbn. eexists. split_and!; [done|done|]. apply first_listed_answers.
    + intros x (k & e & Hk & Ht & Hcov & ->)%Hxs. exists e. split; [|done]. split_and!; eauto.
    + intros e ([k Hk] & Ht & Hcov). eexists. split; [apply Hxs; exists k, e; split_and!; done|done].
Qed.

(** ** The list in memory follows the provider *)

Lemma getAsRangerEntry_Ok e n x : getAsRangerEntry e = Ok (n, x) ↔ entry_network e = Some n ∧ x = ipentry_getACopy e.
Proof.
  unfold getAsRangerEntry, entry_network. destruct (ParseCIDR _) as [[ip m]|]; cbn; [|split; [done|by intros []]].
  split; [intros [= -> <-]; done|intros [[= ->] ->]; done].
Qed.

Lemma entries_loop_all sel h keys : ∀ acc,
  entries_loop sel h 0 acc keys = acc ++ (load_ipentry h <$> List.filter sel keys).
Proof.
  induction keys as [|k keys IH]; intros acc; cbn [entries_loop List.filter]; [by rewrite app_nil_r|].
  destruct (sel k); [|by apply IH]. cbn. rewrite IH, <-app_assoc. done.
Qed.

Lemma insert_all_networks es : ∀ r r', insert_all es r = Ok r' →
  (∀ n x, networks r' n = Some x → networks r n = Some x ∨ ∃ e, e ∈ es ∧ entry_network e = Some n ∧ same_answer x e) ∧
  (∀ n x, networks r n = Some x → (∀ e, e ∈ es → entry_network e ≠ Some n) → networks r' n = Some x) ∧
  (∀ e, e ∈ es → NoDup (entry_network <$> es) → ∃ n x, entry_network e = Some n ∧ networks r' n = Some x ∧ same_answer x e).
Proof.
  induction es as [|e es IH]; intros r r' H; cbn [insert_all] in H.
  { injection H as <-. split_and!; [by left|done|by intros ? ?%elem_of_nil]. }
  inv_res H. destruct a as [n x]. apply getAsRangerEntry_Ok in E as [Hn ->].
  destruct (insert_networks n (ipentry_getACopy e) r) as (r1 & Hr1 & Hnet). rewrite Hr1 in H. cbn in H.
  destruct (IH r1 r' H) as (I1 & I2 & I3). split_and!.
  - intros n' x [Hx|(e' & He' & ?)]%I1; [|right; exists e'; split; [by right|done]].
    rewrite Hnet in Hx. destruct (decide (n' = n)) as [->|]; [|by left]. injection Hx as <-. right. exists e. split; [by left|done].
  - intros n' x Hx Hno. apply I2; [|intros e' He'; apply Hno; by right]. rewrite Hnet, decide_False; [done|].
    intros ->. apply (Hno e); [by left|done].
  - intros e' He' Hnd. cbn in Hnd. apply NoDup_cons in Hnd as [Hfresh Hnd].
    apply elem_of_cons in He' as [->|He']; [|by apply I3]. exists n, (ipentry_getACopy e). split_and!; [done| |done].
    apply I2; [by rewrite Hnet, decide_True|]. intros e' He' Heq. apply Hfresh. rewrite Hn, <-Heq. by apply list_elem_of_fmap_2.
Qed.

Lemma load_network h k e : DB.ipListEntries h !! k = Some e →
  entry_network (load_ipentry h k) = entry_network e ∧ same_answer (load_ipentry h k) e.
Proof. intros Hk. unfold load_ipentry, entry. rewrite Hk. done. Qed.

(** A new list in memory mirrors the entries of the provider, when no two
    entries of its type have the same network. *)
Lemma NewIPList_mirrors h listType l : wf h → distinct_networks h listType → NewIPList h listType = Ok l →
  IPList.listType l = listType ∧ (IPList.isInMemory l = true → mirrors h l).
Proof.
  intros W Hd. unfold NewIPList. intros H. inv_res H. destruct (_ <? _); [|by injection H as <-]. inv_res H. inv_res H.
  injection H as <-. cbn. split; [done|]. intros _. unfold getIPListEntries, when_open in E0. destruct (DB.isClosed h); [done|].
  rewrite String.eqb_refl in E0. rewrite entries_loop_all in E0. injection E0 as <-. simpl in E1.
  set (sel := fun k => _) in E1. apply insert_all_networks in E1 as (I1 & _ & I3).
  assert (∀ k, k ∈ List.filter sel (DB.ipListEntriesKeys h) ↔ ∃ e, DB.ipListEntries h !! k = Some e ∧ IPListEntry.Type_ e = listType) as Hsel.
  { intros k. rewrite list_elem_of_In, filter_In, <-list_elem_of_In, (names_ok_elem _ _ _ (proj1 (wf_ipListEntries _ W))), dom_fmap_L.
    subst sel. cbn beta. unfold ipentry_satisfySearchConstraints, entry. cbn. rewrite andb_true_r, elem_of_dom. split.
    - intros [[e He] Ht]. rewrite He in Ht. exists e. split; [done|]. by apply Z.eqb_eq.
    - intros (e & He & <-). rewrite He. split; [eauto|apply Z.eqb_refl]. }
  split.
  - intros n x Hx. apply I1 in Hx as [Hx|(e' & He' & Hn & Hs)]; [by rewrite new_networks in Hx|].
    apply list_elem_of_fmap in He' as (k & -> & Hk). apply Hsel in Hk as (e & He & Ht).
    destruct (load_network h k e He) as [Hln Hls]. exists k, e. split_and!; [done|done|congruence|].
    destruct Hs, Hls. split; congruence.
  - intros k e He Ht. destruct (I3 (load_ipentry h k)) as (n & x & Hn & Hx & Hs).
    + apply list_elem_of_fmap_2, Hsel. eauto.
    + rewrite <-list_fmap_compose. apply NoDup_fmap_2_strong; [|apply NoDup_ListNoDup, List.NoDup_filter, NoDup_ListNoDup].
      2:{ apply (names_ok_sorted _ _ (proj1 (wf_ipListEntries _ W))). }
      intros k1 k2 Hk1 Hk2 Heq. apply Hsel in Hk1 as (e1 & He1 & Ht1), Hk2 as (e2 & He2 & Ht2). unfold compose in Heq.
      rewrite (proj1 (load_network _ _ _ He1)), (proj1 (load_network _ _ _ He2)) in Heq. by eapply Hd.
    + destruct (load_network h k e He) as [Hln Hls]. exists n, x. split_and!; [congruence|done|]. destruct Hs, Hls. split; congruence.
Qed.
End contract.
