(* ===== verification/IPListSync.v ===== *)
(** The IP lists kept in memory follow the data provider: the exported calls that
    change an entry (internal/dataprovider/dataprovider.go) and the networks of
    internal/dataprovider/iplist.go. *)
From stdpp Require Import pretty.
From Stdlib Require Import Ascii.
From S2P Require Import Prelude GoPath Util Net Prefix FsConfig Entities Links Tables MemoryCore MemoryOps MemoryInv MemoryShares UserPerms MemoryQueries ValidateUser IPLists.
Open Scope Z_scope.

#[export] Instance ipentry_Validate : Validate IPListEntry.t := fun e _ => ipentry_validate e.

(** * Validation is a normal form *)

(** The part of the validator that handles the network. *)
Definition network_part (s : string) : res (string * Z * list Z * list Z) :=
  net ← as_network s;
  match ParsePrefix net with
  | None => Err (ValidationError "invalid network")
  | Some (a, bits) =>
      let m := Masked a bits in
      let net := if Is4In6 m then addr_String4 (As4 m) +:+ String "/"%char (pretty (bits - 96)) else net in
      _ ← refuse (bool_decide (ParseCIDR net = None)) (ValidationError "invalid network");
      if is_v4 m then Ok (net, ipTypeV4, As4 m, As4 (GetLastIPForPrefix m bits))
      else Ok (net, ipTypeV6, As16 m, As16 (GetLastIPForPrefix m bits))
  end.

Definition mode_ok (type mode : Z) : bool :=
  if type =? IPListTypeDefender then (ListModeAllow <=? mode) && (mode <=? ListModeDeny) else mode =? ListModeAllow.

Lemma ipentry_validate_iff e e' : ipentry_validate e = Ok e' ↔
  IPListEntry.Type_ e ∈ supportedIPListType ∧ mode_ok (IPListEntry.Type_ e) (IPListEntry.Mode e) = true ∧
  ∃ s t f l, network_part (IPListEntry.IPOrNet e) = Ok (s, t, f, l) ∧
    e' = (checkProtocols e) <| IPListEntry.IPOrNet := s |> <| IPListEntry.IPType := t |>
      <| IPListEntry.First := f |> <| IPListEntry.Last := l |>.
Proof.
  unfold ipentry_validate, CheckIPListType, network_part.
  set (c := checkProtocols e). assert (IPListEntry.Type_ c = IPListEntry.Type_ e) as Ht by (unfold c, checkProtocols; by destruct (forallb _ _)).
  assert (IPListEntry.Mode c = IPListEntry.Mode e) as Hm by (unfold c, checkProtocols; by destruct (forallb _ _)).
  assert (IPListEntry.IPOrNet c = IPListEntry.IPOrNet e) as Hn by (unfold c, checkProtocols; by destruct (forallb _ _)).
  clearbody c. cbv zeta. rewrite Ht, Hm.
  assert ((if IPListEntry.Type_ e =? IPListTypeDefender then (IPListEntry.Mode e <? ListModeAllow) || (ListModeDeny <? IPListEntry.Mode e)
           else negb (IPListEntry.Mode e =? ListModeAllow)) = negb (mode_ok (IPListEntry.Type_ e) (IPListEntry.Mode e))) as ->.
  { unfold mode_ok. destruct (_ =? IPListTypeDefender); [|done]. rewrite negb_andb, !Z.leb_antisym, !negb_involutive. done. }
  destruct (decide (IPListEntry.Type_ e ∈ supportedIPListType)) as [Hs|Hs].
  2:{ rewrite (bool_decide_eq_false_2 _ Hs). cbn. split; [done|]. by intros [? _]. }
  rewrite (bool_decide_eq_true_2 _ Hs). destruct (mode_ok _ _); cbn [negb refuse mbind res_bind]; [|split; [done|by intros (_ & ? & _)]].
  change (IPListEntry.IPOrNet (ipentry_PrepareForRendering c)) with (IPListEntry.IPOrNet c). rewrite Hn.
  destruct (as_network (IPListEntry.IPOrNet e)) as [net|x]; cbn [mbind res_bind].
  2:{ split; [done|]. by intros (_ & _ & ? & ? & ? & ? & ? & _). }
  destruct (ParsePrefix net) as [[a bits]|]; [|split; [done|]; by intros (_ & _ & ? & ? & ? & ? & ? & _)].
  destruct (bool_decide _); cbn [refuse mbind res_bind]; [split; [done|]; by intros (_ & _ & ? & ? & ? & ? & ? & _)|].
  destruct (is_v4 _).
  - split; [intros [= <-]; split_and!; [done|done|eexists _, _, _, _; split; [done|by destruct c]]|].
    intros (_ & _ & s & t & f & l & [= <- <- <- <-] & ->). by destruct c.
  - split; [intros [= <-]; split_and!; [done|done|eexists _, _, _, _; split; [done|by destruct c]]|].
    intros (_ & _ & s & t & f & l & [= <- <- <- <-] & ->). by destruct c.
Qed.

Lemma ParsePrefix_has_slash s p : ParsePrefix s = Some p → has_slash s = true.
Proof.
  unfold ParsePrefix, has_slash. destruct (last_index_of _ s) as [i|] eqn:Hi; [|done]. intros _.
  apply bool_decide_eq_true. destruct (index_of "/" s) eqn:Hs; [done|]. by rewrite last_index_of_none in Hi.
Qed.

Lemma small_bits n : 0 <= n <= 32 →
  dtoi (pretty n) = Some n ∧ index_of "/"%char (pretty n) = None ∧
  (1 <? String.length (pretty n))%nat && negb ((49 <=? code (char (pretty n))) && (code (char (pretty n)) <=? 57)) = false.
Proof.
  intros Hn. assert (n ∈ seqZ 0 33) as Hin by (apply elem_of_seqZ; lia). clear Hn. revert n Hin.
  apply Forall_forall. apply (bool_decide_unpack _). by vm_compute.
Qed.

(** A dotted address and a number of bits parse back as a prefix. *)
Lemma ParsePrefix_print d n : addr_ok (V4 d) → 0 <= n <= 32 →
  ParsePrefix (addr_String4 d +:+ String "/"%char (pretty n)) = Some (V4 d, n).
Proof.
  intros [Hb Hl] Hn. destruct (small_bits n Hn) as (Hd & Hi & Hz). pose proof (ParseAddr_String4 d Hb Hl) as Hp.
  cbn [addr_bytes] in *. unfold ParsePrefix. rewrite last_index_of_app by done. unfold str_take, str_drop.
  set (x := addr_String4 d) in *. clearbody x. rewrite substring_app, Hp.
  replace (x +:+ String "/"%char (pretty n)) with ((x +:+ "/") +:+ pretty n) by (by rewrite <-append_assoc).
  replace (String.length x + 1)%nat with (String.length (x +:+ "/")) by (by rewrite length_append).
  rewrite substring_drop by (rewrite !length_append; lia). rewrite Hz, Hd. cbn [BitLen].
  by replace (32 <? n) with false by lia.
Qed.

Lemma network_part_normal s s' t f l : network_part s = Ok (s', t, f, l) → network_part s' = Ok (s', t, f, l).
Proof.
  unfold network_part at 1. intros H. inv_res H. destruct (ParsePrefix a) as [[pa bits]|] eqn:Hp; [|done]. cbv zeta in H.
  pose proof (ParsePrefix_has_slash _ _ Hp) as Hs. destruct (ParsePrefix_ok _ _ _ Hp) as [Ha Hb].
  inv_checks H. apply bool_decide_eq_false in E0. destruct (Is4In6 (Masked pa bits)) eqn:H46.
  - destruct (masked_facts pa bits Ha Hb) as (M1 & M2 & M3 & M4 & M5 & M6 & M7). destruct pa as [b|b z]; [done|].
    destruct M5 as [Lb Ll]. cbn [BitLen] in *.
    destruct (Is4In6_bits _ bits M4 Hb M2 H46) as (H96 & d & Hd & Hdb & Hdl). destruct Ha as [_ Ha].
    assert (length (addr_bytes (GetLastIPForPrefix (Masked (V6 b z) bits) bits)) = 16%nat) as Hll.
    { rewrite Ll. by destruct (GetLastIPForPrefix (Masked (V6 b z) bits) bits). }
    destruct (mapped_last _ _ bits d Hd Hdb Hdl (conj H96 (proj2 Hb)) Lb Hll M2 M3) as (D1 & D2 & D3 & D4).
    assert (As4 (Masked (V6 b z) bits) = d) as HA by (cbn [Masked addr_bytes As4] in *; by rewrite Hd, drop_app_length').
    assert (As4 (GetLastIPForPrefix (Masked (V6 b z) bits) bits) = drop 12 (addr_bytes (GetLastIPForPrefix (Masked (V6 b z) bits) bits))) as HL.
    { by destruct (GetLastIPForPrefix (Masked (V6 b z) bits) bits). }
    rewrite HA, HL in *. set (lb := drop 12 _) in *. cbn [is_v4 Masked] in H. cbn [Masked] in H46. rewrite H46 in H.
    injection H as <- <- <- <-. unfold network_part.
    assert (addr_ok (V4 d)) as Hok by done. assert (0 <= bits - 96 <= 32) as Hbits by lia.
    pose proof (ParsePrefix_print d (bits - 96) Hok Hbits) as Hpp.
    unfold as_network. rewrite (ParsePrefix_has_slash _ _ Hpp). cbn [mbind res_bind]. rewrite Hpp. cbv zeta.
    replace (128 - bits) with (32 - (bits - 96)) in * by lia.
    assert (Masked (V4 d) (bits - 96) = V4 d) as Hm by (cbn [Masked]; by rewrite mask_id).
    rewrite Hm. cbn [is_v4 Is4In6]. change (Is4In6 (V4 d)) with false. cbv iota.
    rewrite bool_decide_eq_false_2 by done. cbn [refuse mbind res_bind As4]. do 2 f_equal.
    destruct (GetLastIPForPrefix_value (V4 d) (bits - 96) Hok Hbits D1) as (G1 & [G2 G3] & G4).
    destruct (GetLastIPForPrefix (V4 d) (bits - 96)) as [g|]; [|done]. cbn [As4 addr_bytes BitLen] in *.
    apply be_inj; [done|done|congruence|]. rewrite G1, D2. done.
  - assert (s' = a) as -> by (destruct (is_v4 _); by injection H as <- <- <- <-). unfold network_part, as_network. rewrite Hs.
    cbn [mbind res_bind]. rewrite Hp. cbv zeta. rewrite H46, bool_decide_eq_false_2 by done. exact H.
Qed.

Lemma checkProtocols_again e : checkProtocols (checkProtocols e) = checkProtocols e.
Proof.
  unfold checkProtocols. destruct (forallb (ipentry_HasProtocol e) ValidProtocols) eqn:He; [|by rewrite He].
  by destruct (forallb _ _).
Qed.

Lemma checkProtocols_fixed c s t f l : checkProtocols c = c →
  let c' := c <| IPListEntry.IPOrNet := s |> <| IPListEntry.IPType := t |> <| IPListEntry.First := f |> <| IPListEntry.Last := l |> in
  checkProtocols c' = c'.
Proof.
  intros Hc c'. unfold checkProtocols in Hc |- *.
  change (forallb (ipentry_HasProtocol c') ValidProtocols) with (forallb (ipentry_HasProtocol c) ValidProtocols).
  destruct (forallb _ _); [|done]. subst c'. destruct c. cbn in Hc |- *. by injection Hc as <-.
Qed.

(** Validation of an IP list entry gives a normal form: a valid entry, its
    network as text included, validates again to itself. *)
Theorem ipentry_validate_normal e e' : ipentry_validate e = Ok e' → ipentry_validate e' = Ok e'.
Proof.
  rewrite !ipentry_validate_iff. intros (Ht & Hm & s & t & f & l & Hn & ->).
  pose proof (checkProtocols_fixed _ s t f l (checkProtocols_again e)) as Hc. cbv zeta in Hc.
  assert (IPListEntry.Type_ (checkProtocols e) = IPListEntry.Type_ e ∧ IPListEntry.Mode (checkProtocols e) = IPListEntry.Mode e) as [H1 H2].
  { unfold checkProtocols. by destruct (forallb _ _). }
  set (c := checkProtocols e) in *. clearbody c. split_and!; [cbn; congruence|cbn; congruence|].
  exists s, t, f, l. split; [by eapply network_part_normal|]. rewrite Hc. by destruct c.
Qed.

(** * The entries of the provider *)

(** What the validator returned, up to the dates and the description. *)
Definition stored_ok (e : IPListEntry.t) : Prop := ∃ raw e0, ipentry_validate raw = Ok e0 ∧
  IPListEntry.Type_ e = IPListEntry.Type_ e0 ∧ IPListEntry.IPOrNet e = IPListEntry.IPOrNet e0 ∧
  IPListEntry.First e = IPListEntry.First e0 ∧ IPListEntry.Last e = IPListEntry.Last e0 ∧
  IPListEntry.IPType e = IPListEntry.IPType e0.
Definition all_stored_ok (h : DB.t) : Prop := map_Forall (fun _ => stored_ok) (DB.ipListEntries h).

Lemma stored_ok_network e : stored_ok e → entry_bounds_ok e ∧ ∃ n, entry_network e = Some n ∧ describes e n.
Proof.
  intros (raw & e0 & Hv & _ & H2 & H3 & H4 & H5). apply validated_network in Hv as [Hb (ip & n & Hn & Hd)].
  unfold entry_bounds_ok, entry_network, describes, covers. rewrite H2, H3, H4, H5. split; [done|]. exists n. by rewrite Hn.
Qed.

Lemma all_stored_valid h : all_stored_ok h → entries_valid h.
Proof. intros H k e Hk. by apply stored_ok_network, (H k e). Qed.

Lemma stored_ok_type e : stored_ok e → IPListEntry.Type_ e ∈ supportedIPListType.
Proof.
  intros (raw & e0 & Hv & -> & _). apply ipentry_validate_iff in Hv as (Ht & _ & s & t & f & l & _ & ->).
  unfold checkProtocols. by destruct (forallb _ _).
Qed.

Lemma supported_types t : t ∈ supportedIPListType → t = 1 ∨ t = 2 ∨ t = 3.
Proof. unfold supportedIPListType. rewrite !elem_of_cons, elem_of_nil. intros [->|[->|[->|[]]]]; auto. Qed.

(** The key of a stored entry determines its type and network. *)
Lemma ipentry_getKey_inj e1 e2 : IPListEntry.Type_ e1 ∈ supportedIPListType → IPListEntry.Type_ e2 ∈ supportedIPListType →
  ipentry_getKey e1 = ipentry_getKey e2 → IPListEntry.Type_ e1 = IPListEntry.Type_ e2 ∧ IPListEntry.IPOrNet e1 = IPListEntry.IPOrNet e2.
Proof.
  unfold ipentry_getKey. generalize (IPListEntry.Type_ e1), (IPListEntry.Type_ e2), (IPListEntry.IPOrNet e1), (IPListEntry.IPOrNet e2).
  intros t1 t2 n1 n2 H1 H2.
  assert (∀ t, t ∈ supportedIPListType → pretty t = match t with 1 => "1" | 2 => "2" | _ => "3" end) as Hp.
  { clear. intros t H. apply supported_types in H. by destruct H as [->|[->| ->]]. }
  rewrite (Hp t1 H1), (Hp t2 H2). apply supported_types in H1, H2.
  destruct H1 as [->|[->| ->]], H2 as [->|[->| ->]].
  all: intros H; vm_compute in H; first [by injection H as <-|discriminate H].
Qed.

(** Validating the rendered copy of a stored entry gives its network back. *)
Lemma stored_ok_again e e' : stored_ok e → ipentry_validate (ipentry_PrepareForRendering (ipentry_getACopy e)) = Ok e' →
  ipentry_getKey e' = ipentry_getKey e.
Proof.
  intros (raw & e0 & Hv & _ & H2 & _). rewrite ipentry_validate_iff. intros (_ & _ & s' & t' & f' & l' & Hn & ->).
  apply ipentry_validate_iff in Hv as (_ & _ & s & t & f & l & Hn0 & ->). cbn in H2, Hn. rewrite H2 in Hn.
  apply network_part_normal in Hn0. rewrite Hn0 in Hn. injection Hn as -> -> -> ->. unfold ipentry_getKey. cbn. rewrite H2.
  unfold checkProtocols. by destruct (forallb _ _).
Qed.

Lemma stored_ok_copy e e0 : ipentry_validate e = Ok e0 → ∀ c u, stored_ok (ipentry_getACopy (e0 <| IPListEntry.CreatedAt := c |> <| IPListEntry.UpdatedAt := u |>)).
Proof. intros Hv c u. exists e, e0. done. Qed.

(** * The exported calls *)

Section sync.
Context {R : Ranger} (now : nat → Z).

(** The provider and the map [inMemoryLists]; the calls also run the hooks of the
    provider, which see the entry and change neither. *)
Definition service : Type := DB.t * gmap Z IPList.t.

(** [if err == nil { for _, l := range inMemoryLists { f(l, entry) } }]; the lists
    are independent, so the order of the range does not matter. *)
Definition then_lists (r : res IPListEntry.t * DB.t) (f : IPList.t → IPListEntry.t → IPList.t) (ls : gmap Z IPList.t) : res unit * service :=
  match r with
  | (Ok e, h) => (Ok tt, (h, (fun l => f l e) <$> ls))
  | (Err x, h) => (Err x, (h, ls))
  end.

(* source: internal/dataprovider/dataprovider.go AddIPListEntry *)
Definition Api_AddIPListEntry (entry : IPListEntry.t) : M service unit := fun '(h, ls) =>
  then_lists (addIPListEntry now entry h) addEntry ls.

(* source: internal/dataprovider/dataprovider.go UpdateIPListEntry *)
Definition Api_UpdateIPListEntry (entry : IPListEntry.t) : M service unit := fun '(h, ls) =>
  then_lists (updateIPListEntry now entry h) updateEntry ls.

(* source: internal/dataprovider/dataprovider.go DeleteIPListEntry *)
Definition Api_DeleteIPListEntry (ipOrNet : string) (listType : Z) : M service unit := fun '(h, ls) =>
  match ipListEntryExists ipOrNet listType h with
  | Err x => (Err x, (h, ls))
  | Ok entry => then_lists ((_ ← deleteIPListEntry entry; mret entry) h) removeEntry ls
  end.
End sync.

(** * The lists stay in sync *)

Section in_sync.
Context {R : Ranger} {L : RangerLaws} (now : nat → Z).

Definition in_sync (s : service) : Prop :=
  wf s.1 ∧ all_stored_ok s.1 ∧
  ∀ t l, s.2 !! t = Some l → IPList.isInMemory l = true → mirrors s.1 l.

(** Entries of one type have networks of their own. *)
Definition own_networks (h : DB.t) : Prop := ∀ t, distinct_networks h t.

Lemma mirrors_other h h' l : mirrors h l →
  (∀ k e, IPListEntry.Type_ e = IPList.listType l → DB.ipListEntries h' !! k = Some e ↔ DB.ipListEntries h !! k = Some e) →
  mirrors h' l.
Proof.
  intros [H1 H2] Heq. split.
  - intros n x Hx. destruct (H1 n x Hx) as (k & e & Hk & Ht & ?). exists k, e. rewrite Heq by done. done.
  - intros k e Hk Ht. rewrite Heq in Hk by done. by apply (H2 k e).
Qed.

Lemma mirrors_put h h' l r' k e n x : mirrors h l → own_networks h' →
  DB.ipListEntries h' = <[k:=e]> (DB.ipListEntries h) → IPListEntry.Type_ e = IPList.listType l → entry_network e = Some n →
  same_answer x e → (∀ e0, DB.ipListEntries h !! k = Some e0 → entry_network e0 = Some n) →
  (∀ n', networks r' n' = if decide (n' = n) then Some x else networks (IPList.Ranges l) n') →
  mirrors h' (l <| IPList.Ranges := r' |>).
Proof.
  intros [H1 H2] Hown Hh' Ht Hn Hs Hold Hr. assert (DB.ipListEntries h' !! k = Some e) as Hk by (by rewrite Hh', lookup_insert, decide_True).
  split; cbn.
  - intros n' x' Hx'. rewrite Hr in Hx'. destruct (decide (n' = n)) as [->|Hne]; [injection Hx' as <-; by exists k, e|].
    destruct (H1 n' x' Hx') as (k' & e' & Hk' & Ht' & Hn' & Hs'). exists k', e'. rewrite Hh', lookup_insert_ne; [done|].
    intros <-. specialize (Hold e' Hk'). congruence.
  - intros k' e' Hk' Ht'. destruct (decide (k' = k)) as [->|Hne].
    + rewrite Hk in Hk'. injection Hk' as <-. exists n, x. by rewrite Hr, decide_True.
    + pose proof Hk' as Hk''. rewrite Hh', lookup_insert_ne in Hk'' by done. destruct (H2 k' e' Hk'' Ht') as (n' & x' & Hn' & Hx' & Hs').
      exists n', x'. rewrite Hr, decide_False; [done|]. intros ->. apply Hne, (Hown (IPList.listType l) k' e' k e); congruence.
Qed.

Lemma mirrors_remove h h' l r' k e n : mirrors h l → own_networks h → DB.ipListEntries h !! k = Some e →
  DB.ipListEntries h' = delete k (DB.ipListEntries h) → IPListEntry.Type_ e = IPList.listType l → entry_network e = Some n →
  (∀ n', networks r' n' = if decide (n' = n) then None else networks (IPList.Ranges l) n') →
  mirrors h' (l <| IPList.Ranges := r' |>).
Proof.
  intros [H1 H2] Hown Hk Hh' Ht Hn Hr. split; cbn.
  - intros n' x' Hx'. rewrite Hr in Hx'. destruct (decide (n' = n)) as [|Hne]; [done|].
    destruct (H1 n' x' Hx') as (k' & e' & Hk' & Ht' & Hn' & Hs'). exists k', e'. rewrite Hh', lookup_delete_ne; [done|].
    intros <-. congruence.
  - intros k' e' Hk' Ht'. rewrite Hh' in Hk'. apply lookup_delete_Some in Hk' as [Hne Hk'].
    destruct (H2 k' e' Hk' Ht') as (n' & x' & Hn' & Hx' & Hs'). exists n', x'. rewrite Hr, decide_False; [done|].
    intros ->. apply Hne, (Hown (IPList.listType l) k e k' e'); congruence.
Qed.

Lemma check_limit_in_memory l : IPList.isInMemory (check_limit l) = true → check_limit l = l.
Proof. unfold check_limit. by destruct (_ <=? _). Qed.

(** A list that handled an entry: it is the same if the entry is not for it, and
    otherwise its networks changed at the network of the entry only. *)
Definition handled (f : IPList.t → IPListEntry.t → IPList.t) (x : IPListEntry.t → option IPListEntry.t) : Prop := ∀ l e n,
  IPList.isInMemory (f l e) = true → entry_network e = Some n →
  IPList.isInMemory l = true ∧
  (IPList.listType l ≠ IPListEntry.Type_ e ∧ f l e = l ∨
   IPList.listType l = IPListEntry.Type_ e ∧ ∃ r', f l e = l <| IPList.Ranges := r' |> ∧
     ∀ n', networks r' n' = if decide (n' = n) then x e else networks (IPList.Ranges l) n').

Lemma with_network_in_memory l e k n : IPList.isInMemory (with_network l e k) = true → entry_network e = Some n →
  IPList.isInMemory l = true ∧ (IPList.listType l ≠ IPListEntry.Type_ e ∧ with_network l e k = l ∨
    IPList.listType l = IPListEntry.Type_ e ∧ with_network l e k = k n (ipentry_getACopy e)).
Proof.
  unfold with_network. intros H Hn. destruct (Z.eqb_spec (IPList.listType l) (IPListEntry.Type_ e)) as [Ht|Ht]; cbn in *; [|auto].
  destruct (IPList.isInMemory l) eqn:Hm; cbn in *; [|congruence]. split; [done|]. right. split; [done|].
  by rewrite (proj2 (getAsRangerEntry_Ok e n (ipentry_getACopy e)) (conj Hn eq_refl)).
Qed.

Lemma addEntry_handled : handled addEntry (fun e => Some (ipentry_getACopy e)).
Proof.
  intros l e n H Hn. unfold addEntry in *. destruct (with_network_in_memory _ _ _ _ H Hn) as [Hm [[Ht Hl]|[Ht Hl]]]; [auto|].
  rewrite Hl in *. destruct (insert_networks n (ipentry_getACopy e) (IPList.Ranges l)) as (r' & Hi & Hr). rewrite Hi in *.
  split; [done|]. right. split; [done|]. exists r'. by rewrite (check_limit_in_memory _ H).
Qed.

Lemma removeEntry_handled : handled removeEntry (fun _ => None).
Proof.
  intros l e n H Hn. unfold removeEntry in *. destruct (with_network_in_memory _ _ _ _ H Hn) as [Hm [[Ht Hl]|[Ht Hl]]]; [auto|].
  rewrite Hl in *. destruct (remove_networks n (IPList.Ranges l)) as (r' & Hi & Hr). rewrite Hi in *. eauto 6.
Qed.

Lemma updateEntry_handled : handled updateEntry (fun e => Some (ipentry_getACopy e)).
Proof.
  intros l e n H Hn. unfold updateEntry in *. destruct (with_network_in_memory _ _ _ _ H Hn) as [Hm [[Ht Hl]|[Ht Hl]]]; [auto|].
  rewrite Hl in *. destruct (remove_networks n (IPList.Ranges l)) as (r1 & Hi1 & Hr1). rewrite Hi1 in *.
  destruct (insert_networks n (ipentry_getACopy e) r1) as (r' & Hi & Hr). rewrite Hi in *.
  split; [done|]. right. split; [done|]. exists r'. rewrite (check_limit_in_memory _ H). split; [done|].
  intros n'. rewrite Hr, Hr1. by destruct (decide _).
Qed.

(** The calls on the entries. *)
Inductive ip_call := Call_Add (e : IPListEntry.t) | Call_Update (e : IPListEntry.t) | Call_Delete (ipOrNet : string) (listType : Z).
Definition ip_exec (c : ip_call) : M service unit :=
  match c with
  | Call_Add e => Api_AddIPListEntry now e
  | Call_Update e => Api_UpdateIPListEntry now e
  | Call_Delete s t => Api_DeleteIPListEntry s t
  end.

Lemma add_run e h e' h' : addIPListEntry now e h = (Ok e', h') → ∃ e0, ipentry_validate e = Ok e0 ∧
  DB.ipListEntries h !! ipentry_getKey e0 = None ∧ e' = e0 <| IPListEntry.CreatedAt := now 0%nat |> <| IPListEntry.UpdatedAt := now 1%nat |> ∧
  DB.ipListEntries h' = <[ipentry_getKey e0 := ipentry_getACopy e']> (DB.ipListEntries h).
Proof.
  intros H. unfold addIPListEntry in H. inv_bind H. apply ask_Ok in E as [E ->]. apply locked_Ok in H as [_ H].
  inv_bind H. apply check_absent_Ok in E0 as [Hnew ->]. injection H as <- <-. exists a. split_and!; [done| |done|done].
  unfold ipListEntryExistsInternal in Hnew. by destruct (_ !! _).
Qed.

Lemma update_run e h e' h' : updateIPListEntry now e h = (Ok e', h') → ∃ e0 old, ipentry_validate e = Ok e0 ∧
  DB.ipListEntries h !! ipentry_getKey e0 = Some old ∧
  e' = e0 <| IPListEntry.CreatedAt := IPListEntry.CreatedAt old |> <| IPListEntry.UpdatedAt := now 0%nat |> ∧
  DB.ipListEntries h' = <[ipentry_getKey e0 := ipentry_getACopy e']> (DB.ipListEntries h).
Proof.
  intros H. unfold updateIPListEntry in H. inv_bind H. apply ask_Ok in E as [E ->]. apply locked_Ok in H as [_ H].
  inv_bind H. apply ask_Ok in E0 as [E0 ->]. apply ipentryExists_Ok in E0 as (v0 & Hv & ->). injection H as <- <-. by exists a, v0.
Qed.

Lemma delete_run e h x h' : deleteIPListEntry e h = (Ok x, h') → ∃ e0, ipentry_validate e = Ok e0 ∧
  DB.ipListEntries h' = delete (ipentry_getKey e0) (DB.ipListEntries h).
Proof.
  intros H. unfold deleteIPListEntry in H. inv_bind H. apply ask_Ok in E as [E ->]. apply locked_Ok in H as [_ H].
  inv_bind H. apply ask_Ok in E0 as [E0 ->]. injection H as <- <-. by exists a.
Qed.

(** A call that fails changes nothing. *)
Lemma add_failed e h x h' : addIPListEntry now e h = (Err x, h') → h' = h.
Proof.
  unfold addIPListEntry, mbind, M_bind, ask, locked, check_absent. destruct (validate e h); [|by intros [= _ <-]].
  destruct (DB.isClosed h); [by intros [= _ <-]|]. destruct (is_ok _); [by intros [= _ <-]|done].
Qed.
Lemma update_failed e h x h' : updateIPListEntry now e h = (Err x, h') → h' = h.
Proof.
  unfold updateIPListEntry, mbind, M_bind, ask, locked. destruct (validate e h); [|by intros [= _ <-]].
  destruct (DB.isClosed h); [by intros [= _ <-]|]. destruct (ipListEntryExistsInternal _ _); [done|by intros [= _ <-]].
Qed.
Lemma delete_failed e h x h' : deleteIPListEntry e h = (Err x, h') → h' = h.
Proof.
  unfold deleteIPListEntry, mbind, M_bind, ask, locked. destruct (validate e h); [|by intros [= _ <-]].
  destruct (DB.isClosed h); [by intros [= _ <-]|]. destruct (ipListEntryExistsInternal _ _); [done|by intros [= _ <-]].
Qed.

Lemma same_key_network h e e0 : wf h → all_stored_ok h → stored_ok e → DB.ipListEntries h !! ipentry_getKey e = Some e0 →
  IPListEntry.Type_ e0 = IPListEntry.Type_ e ∧ entry_network e0 = entry_network e.
Proof.
  intros W Hall He H0. pose proof (keyed_key _ _ _ _ _ (wf_ipListEntries _ W) H0) as Hk.
  apply ipentry_getKey_inj in Hk as [Ht Hn]; [|by apply stored_ok_type, (Hall _ _ H0)|by apply stored_ok_type].
  unfold entry_network. by rewrite Ht, Hn.
Qed.

(** An entry was stored under its key and the lists told. *)
Lemma put_in_sync f e h h' ls : handled f (fun e => Some (ipentry_getACopy e)) → in_sync (h, ls) → wf h' → own_networks h' →
  stored_ok (ipentry_getACopy e) → DB.ipListEntries h' = <[ipentry_getKey e := ipentry_getACopy e]> (DB.ipListEntries h) →
  in_sync (h', (fun l => f l e) <$> ls).
Proof.
  intros Hf (W & Hall & Hls) W' Hown Hok Hh'. cbn [fst snd] in *. split_and!; [done| |].
  { unfold all_stored_ok. cbn [fst]. rewrite Hh'. by apply map_Forall_insert_2. }
  intros t l' Hl' Hmem. cbn [fst snd] in *. rewrite lookup_fmap in Hl'. apply fmap_Some in Hl' as (l & Hl & ->).
  destruct (stored_ok_network _ Hok) as [_ (n & Hn & _)].
  destruct (Hf l e n Hmem Hn) as [Hm [[Ht ->]|(Ht & r' & -> & Hr)]]; specialize (Hls t l Hl Hm).
  - eapply mirrors_other; [done|]. intros k e1 Ht1. rewrite Hh'. destruct (decide (k = ipentry_getKey e)) as [->|Hne].
    + rewrite lookup_insert, decide_True by done. split; [intros [= <-]; by rewrite <-Ht1 in Ht|].
      intros H1. destruct (same_key_network h (ipentry_getACopy e) e1 W Hall Hok H1) as [H _]. cbn in H. congruence.
    + by rewrite lookup_insert_ne.
  - apply (mirrors_put h h' l r' (ipentry_getKey e) (ipentry_getACopy e) n (ipentry_getACopy e)); try done.
    intros e0 H0. destruct (same_key_network h (ipentry_getACopy e) e0 W Hall Hok H0) as [_ ->]. done.
Qed.

Lemma service_eta (s : service) : s = (s.1, s.2).
Proof. by destruct s. Qed.

Lemma add_in_sync e s : in_sync s → own_networks (Api_AddIPListEntry now e s).2.1 → in_sync (Api_AddIPListEntry now e s).2.
Proof.
  destruct s as [h ls]. unfold Api_AddIPListEntry, then_lists. intros Hs.
  destruct (addIPListEntry now e h) as [[e'|x] h'] eqn:He; cbn [snd fst]; [|by apply add_failed in He as ->].
  intros Hown. pose proof (addIPListEntry_wf _ _ _ _ _ (proj1 Hs) He) as W'.
  apply add_run in He as (e0 & Hv & _ & Heq & Hh').
  assert (stored_ok (ipentry_getACopy e')) as Hok by (rewrite Heq; by eapply stored_ok_copy).
  assert (ipentry_getKey e0 = ipentry_getKey e') as Hk by (by rewrite Heq). rewrite Hk in Hh'.
  by apply (put_in_sync addEntry e' h); [apply addEntry_handled|..].
Qed.

Lemma update_in_sync e s : in_sync s → own_networks (Api_UpdateIPListEntry now e s).2.1 → in_sync (Api_UpdateIPListEntry now e s).2.
Proof.
  destruct s as [h ls]. unfold Api_UpdateIPListEntry, then_lists. intros Hs.
  destruct (updateIPListEntry now e h) as [[e'|x] h'] eqn:He; cbn [snd fst]; [|by apply update_failed in He as ->].
  intros Hown. pose proof (updateIPListEntry_wf _ _ _ _ _ (proj1 Hs) He) as W'.
  apply update_run in He as (e0 & old & Hv & _ & Heq & Hh').
  assert (stored_ok (ipentry_getACopy e')) as Hok by (rewrite Heq; by eapply stored_ok_copy).
  assert (ipentry_getKey e0 = ipentry_getKey e') as Hk by (by rewrite Heq). rewrite Hk in Hh'.
  by apply (put_in_sync updateEntry e' h); [apply updateEntry_handled|..].
Qed.

Lemma delete_in_sync ipOrNet listType s : in_sync s → own_networks s.1 → in_sync (Api_DeleteIPListEntry ipOrNet listType s).2.
Proof.
  destruct s as [h ls]. unfold Api_DeleteIPListEntry. intros Hs Hown. cbn [fst] in Hown.
  destruct (ipListEntryExists ipOrNet listType h) as [e|x] eqn:Hex; [|done].
  unfold then_lists, mbind at 1, M_bind. destruct (deleteIPListEntry e h) as [[[]|x] h'] eqn:He; cbn [mret M_ret snd];
    [|by apply delete_failed in He as ->].
  destruct Hs as (W & Hall & Hls). cbn [fst snd] in *. pose proof (deleteIPListEntry_wf _ _ _ _ W He) as W'.
  unfold ipListEntryExists, when_open in Hex. destruct (DB.isClosed h); [done|]. inv_res Hex. injection Hex as <-.
  apply ipentryExists_Ok in E as (e1 & H1 & ->). set (key := ipentry_getKey _) in H1.
  apply delete_run in He as (e0 & Hv & Hh'). pose proof (Hall _ _ H1) as Hok1. cbn beta in Hok1.
  apply stored_ok_again in Hv; [|done]. rewrite (keyed_key _ _ _ _ _ (wf_ipListEntries _ W) H1) in Hv. rewrite Hv in Hh'.
  split_and!; [done| |]; cbn [fst snd].
  { unfold all_stored_ok. rewrite Hh'. by apply map_Forall_delete. }
  intros t l' Hl' Hmem. rewrite lookup_fmap in Hl'. apply fmap_Some in Hl' as (l & Hl & ->).
  destruct (stored_ok_network _ Hok1) as [_ (n & Hn & _)].
  destruct (removeEntry_handled l _ n Hmem Hn) as [Hm [[Ht ->]|(Ht & r' & -> & Hr)]]; specialize (Hls t l Hl Hm).
  - eapply mirrors_other; [done|]. intros k e2 Ht2. rewrite Hh'. destruct (decide (k = key)) as [->|Hne].
    + rewrite lookup_delete, decide_True, H1 by done. split; [done|]. intros [= <-]. by rewrite <-Ht2 in Ht.
    + by rewrite lookup_delete_ne.
  - by apply (mirrors_remove h h' l r' key e1 n).
Qed.

(** C35: Adding, updating and deleting entries keeps the lists in memory in sync
    with the data provider, whatever the entries and whether the call succeeds,
    as long as no two entries of one type have the same network: a list still in
    memory mode holds the network of every stored entry of its type, and no
    other. *)
Theorem ip_calls_in_sync c s : in_sync s → own_networks s.1 → own_networks (ip_exec c s).2.1 → in_sync (ip_exec c s).2.
Proof.
  intros Hs H1 H2. destruct c; cbn [ip_exec] in *.
  - by apply add_in_sync.
  - by apply update_in_sync.
  - by apply delete_in_sync.
Qed.
End in_sync.

(** * A ranger that is a list *)

Module ListRanger.
Definition remove (n : IPNet) (r : list (IPNet * IPListEntry.t)) : list (IPNet * IPListEntry.t) :=
  List.filter (fun p => negb (bool_decide (p.1 = n))) r.
Definition insert (n : IPNet) (e : IPListEntry.t) (r : list (IPNet * IPListEntry.t)) : list (IPNet * IPListEntry.t) :=
  (n, e) :: remove n r.
Fixpoint find (n : IPNet) (r : list (IPNet * IPListEntry.t)) : option IPListEntry.t :=
  match r with [] => None | (m, e) :: r' => if decide (n = m) then Some e else find n r' end.
(** the networks without their shadowed copies *)
Definition containing (ip : list Z) (r : list (IPNet * IPListEntry.t)) : list IPListEntry.t :=
  omap (fun p => if IPNet_Contains p.1 ip then find p.1 r else None) r.

Lemma find_remove n n' r : find n' (remove n r) = if decide (n' = n) then None else find n' r.
Proof.
  unfold remove. induction r as [|[m e] r IH]; cbn; [by destruct (decide _)|]. case_bool_decide as Hm; cbn; rewrite IH.
  - subst m. by destruct (decide (n' = n)).
  - destruct (decide (n' = m)) as [->|]; [by rewrite decide_False|done].
Qed.
Lemma find_insert n e n' r : find n' (insert n e r) = if decide (n' = n) then Some e else find n' r.
Proof. unfold insert. cbn [find]. rewrite find_remove. by destruct (decide _). Qed.
Lemma find_elem n e r : find n r = Some e → (n, e) ∈ r.
Proof.
  induction r as [|[m x] r IH]; cbn; [done|]. destruct (decide (n = m)) as [->|]; [intros [= ->]; by left|right; auto].
Qed.

#[export] Instance list_ranger : Ranger := {|
  ranger := list (IPNet * IPListEntry.t); NewPCTrieRanger := [];
  Ranger_Insert n e r := Ok (insert n e r); Ranger_Remove n r := Ok (remove n r);
  Ranger_Len r := Z.of_nat (length r); ContainingNetworks ip r := Ok (containing ip r) |}.

#[export] Instance list_ranger_laws : RangerLaws.
Proof.
  refine {| networks := fun (r : @ranger list_ranger) n => find n r |}; [done|..].
  - intros n e r. exists (insert n e r). split; [done|]. intros n'.
    apply find_insert.
  - intros n r. exists (remove n r). split; [done|]. intros n'. apply find_remove.
  - intros ip r _. exists (containing ip r). split; [done|]. intros e. unfold containing. rewrite list_elem_of_omap. split.
    + intros ([n x] & _ & H). cbn in H. destruct (IPNet_Contains n ip) eqn:Hc; [|done]. by exists n.
    + intros (n & Hn & Hc). exists (n, e). split; [by apply find_elem|]. cbn. by rewrite Hc.
Defined.
End ListRanger.
Import ListRanger.

(** ** Entries with the same network *)

Definition ip_clock (i : nat) : Z := 1700000000000 + Z.of_nat i.
Definition defender_entry (net : string) (mode : Z) : IPListEntry.t :=
  IPListEntry.zero <| IPListEntry.IPOrNet := net |> <| IPListEntry.Type_ := IPListTypeDefender |> <| IPListEntry.Mode := mode |>.

(** An empty provider and the list of the defender in memory. *)
Definition ip_start : service := (DB.init, {[ IPListTypeDefender := IPList.mk _ true IPListTypeDefender NewPCTrieRanger ]}).
Definition ip_run (cs : list ip_call) : service := foldl (fun s c => (ip_exec ip_clock c s).2) ip_start cs.
Definition ask_both (s : service) (ip : string) : option (res (bool * Z) * res (bool * Z)) :=
  l ← s.2 !! IPListTypeDefender; Some (IsListed s.1 l ip "SSH", IsListed s.1 (disable l) ip "SSH").

(** The address of a network is stored as it was given, so one network can be
    two entries of the provider but is one network of the list in memory: when
    the second of two entries for 10.0.0.0/8 is deleted, the provider still
    denies the addresses of the network, but the list in memory has lost them. *)
Theorem same_network_lost :
  let s := ip_run [Call_Add (defender_entry "10.0.0.1/8" ListModeDeny); Call_Add (defender_entry "10.0.0.2/8" ListModeDeny);
                   Call_Delete "10.0.0.2/8" IPListTypeDefender] in
  (map_to_list (IPListEntry.IPOrNet <$> DB.ipListEntries s.1)).*2 = ["10.0.0.1/8"] ∧
  ask_both s "10.1.2.3" = Some (Ok (false, 0), Ok (true, ListModeDeny)).
Proof. by vm_compute. Qed.

(** * Witnesses *)

Lemma ipentry_validate_normal_witness :
  let e := (defender_entry "10.0.0.0/8" ListModeDeny) <| IPListEntry.IPType := ipTypeV4 |>
    <| IPListEntry.First := [10; 0; 0; 0] |> <| IPListEntry.Last := [10; 255; 255; 255] |> in
  ipentry_validate (defender_entry "::ffff:10.0.0.0/104" ListModeDeny) = Ok e ∧ ipentry_validate e = Ok e.
Proof.
  assert (ipentry_validate (defender_entry "::ffff:10.0.0.0/104" ListModeDeny) =
    Ok ((defender_entry "10.0.0.0/8" ListModeDeny) <| IPListEntry.IPType := ipTypeV4 |>
    <| IPListEntry.First := [10; 0; 0; 0] |> <| IPListEntry.Last := [10; 255; 255; 255] |>)) as H by (vm_compute; reflexivity).
  exact (conj H (ipentry_validate_normal _ _ H)).
Defined.

Lemma ip_start_in_sync : in_sync ip_start.
Proof.
  split_and!; [apply init_wf|by intros k e Hk|]. intros t l H _. unfold ip_start in H. cbn [snd] in H.
  apply lookup_singleton_Some in H as [_ <-]. split; by intros ???.
Qed.

Definition deny_ten : ip_call := Call_Add (defender_entry "10.0.0.0/8" ListModeDeny).
Definition one_entry : IPListEntry.t := Eval vm_compute in
  default IPListEntry.zero (DB.ipListEntries (ip_run [deny_ten]).1 !! "2_10.0.0.0/8").

Lemma own_networks_one h k e : DB.ipListEntries h = {[k := e]} → own_networks h.
Proof.
  intros H t k1 e1 k2 e2. rewrite H. intros [<- _]%lookup_singleton_Some [<- _]%lookup_singleton_Some. done.
Qed.
Lemma one_entry_own : own_networks (ip_run [deny_ten]).1.
Proof. apply (own_networks_one _ "2_10.0.0.0/8" one_entry). vm_compute. reflexivity. Qed.
Lemma none_own : own_networks ip_start.1.
Proof. by intros t k1 e1 k2 e2 Hk. Qed.

Lemma ip_calls_in_sync_witness : in_sync (ip_run [deny_ten]).
Proof. apply (ip_calls_in_sync ip_clock deny_ten ip_start ip_start_in_sync none_own one_entry_own). Defined.

Lemma IsListed_refines_witness : let s := ip_run [deny_ten] in ∃ l a, s.2 !! IPListTypeDefender = Some l ∧
  IPList.isInMemory l = true ∧ IsListed s.1 l "10.1.2.3" "SSH" = Ok (true, ListModeDeny) ∧
  answers s.1 IPListTypeDefender a "SSH" (true, ListModeDeny).
Proof.
  intros s.
  assert (∃ l, s.2 !! IPListTypeDefender = Some l ∧ IPList.isInMemory l = true ∧ IPList.listType l = IPListTypeDefender ∧
    IsListed s.1 l "10.1.2.3" "SSH" = Ok (true, ListModeDeny)) as (l & H1 & H2 & H3 & H4).
  { eexists. split; [vm_compute; reflexivity|]. split_and!; vm_compute; reflexivity. }
  assert (in_sync s) as (W & Hall & Hls) by exact (add_in_sync ip_clock _ ip_start ip_start_in_sync one_entry_own).
  assert (DB.isClosed s.1 = false) as Hc by (vm_compute; reflexivity).
  destruct (IsListed_refines s.1 l "10.1.2.3" (As16 (V4 [10; 1; 2; 3])) "SSH" W Hc (all_stored_valid _ Hall) (Hls _ _ H1)
    ltac:(vm_compute; reflexivity)) as (a & r & _ & Hr & Ha).
  exists l, a. rewrite H4 in Hr. injection Hr as <-. rewrite H3 in Ha. exact (conj H1 (conj H2 (conj H4 Ha))).
Defined.

Lemma ipentry_validate_network_witness : ∃ e', ipentry_validate (defender_entry "::ffff:10.0.0.0/104" ListModeDeny) = Ok e' ∧
  entry_bounds_ok e'.
Proof.
  eexists. split; [vm_compute; reflexivity|]. refine (proj1 (ipentry_validate_network (defender_entry "::ffff:10.0.0.0/104" ListModeDeny) _ _)).
  vm_compute. reflexivity.
Defined.
