(* ===== verification/Quota.v ===== *)
(** Delayed quota updates (internal/dataprovider/quotaupdater.go and the quota
    functions of dataprovider.go).

    The three kinds of counters, files and size of users and of folders and the
    transfers of users, are stored alike: what the updater needs of a store is
    the class [QuotaStore], what it relies on the class [QuotaLaws], which the
    in-memory provider discharges.  The updates still to be stored are a map
    from names to two numbers. *)
From S2P Require Import Prelude FsConfig Entities Links Tables MemoryCore MemoryOps MemoryInv MemoryAccounts MemoryObjects UserPerms MemoryQueries.
Open Scope Z_scope.

(** * Stores of counters *)

Class QuotaStore (D : Type) := {
  read_counters : string → D → res (Z * Z);
  update_counters : string → Z → Z → bool → D → res unit * D;
}.

Class QuotaLaws (D : Type) `{QuotaStore D} := {
  store_ok : D → Prop;
  update_found k x y reset d a b : store_ok d → read_counters k d = Ok (a, b) → ∃ d', update_counters k x y reset d = (Ok tt, d') ∧
    store_ok d' ∧ read_counters k d' = Ok (if reset then (x, y) else (add64 a x, add64 b y)) ∧
    ∀ k', k' ≠ k → read_counters k' d' = read_counters k' d;
  update_missing k x y reset d e : store_ok d → read_counters k d = Err e → update_counters k x y reset d = (Err e, d);
}.

(** * The updates still to be stored *)

Notation pending := (gmap string (Z * Z)).
Definition get_pending (k : string) (p : pending) : Z * Z := default (0, 0) (p !! k).
Definition add_pending (k : string) (x y : Z) (p : pending) : pending :=
  let '(a, b) := get_pending k p in
  let a := add64 a x in
  let b := add64 b y in
  if (a =? 0) && (b =? 0) then delete k p else <[k := (a, b)]> p.
(** a negated 64-bit integer *)
Definition neg64 (x : Z) : Z := wrap64 (- x).

Section updater.
Context {D : Type} `{QuotaStore D}.

(** The loop of [storeUsersQuota] and its siblings over the names. *)
Fixpoint store_loop (names : list string) (s : D * pending) : D * pending :=
  match names with
  | [] => s
  | k :: names' =>
      let '(d, p) := s in
      let '(x, y) := get_pending k p in
      if negb (y =? 0) || negb (x =? 0) then
        match update_counters k x y false d with
        | (Err _, d) => store_loop names' (d, p)
        | (Ok _, d) => store_loop names' (d, add_pending k (neg64 x) (neg64 y) p)
        end
      else store_loop names' (d, p)
  end.
Definition store_pending (order : pending → list string) (s : D * pending) : D * pending := store_loop (order s.2) s.

(** [UpdateUserQuota] and its siblings after their checks *)
Definition update_or_delay (delayed : bool) (k : string) (x y : Z) (reset : bool) : M (D * pending) unit := fun '(d, p) =>
  if negb delayed || reset then
    let p := if reset then delete k p else p in
    let '(r, d) := update_counters k x y reset d in (r, (d, p))
  else (Ok tt, (d, add_pending k x y p)).

(** [GetUsedQuota] and its sibling *)
Definition used_counters (k : string) (s : D * pending) : res (Z * Z) :=
  '(a, b) ← read_counters k s.1;
  let '(x, y) := get_pending k s.2 in Ok (add64 a x, add64 b y).
End updater.

(** * The counters of the provider *)

(** the state of the provider and of [delayedQuotaUpdater] *)
Module Quotas.
(* source: internal/dataprovider/quotaupdater.go quotaUpdater *)
Record t := mk {
  db : DB.t;
  pendingUserQuotaUpdates : pending;       (* files, size *)
  pendingFolderQuotaUpdates : pending;
  pendingTransferQuotaUpdates : pending;   (* upload, download *)
}.
#[global] Instance eta : Settable t := {| settable := fun x =>
  mk (db x) (pendingUserQuotaUpdates x) (pendingFolderQuotaUpdates x) (pendingTransferQuotaUpdates x) |}.
End Quotas.

Section provider.
Variable now : nat → Z.

Definition user_store : QuotaStore DB.t := {|
  read_counters k h := '(files, size, _, _) ← getUsedQuota k h; Ok (files, size);
  update_counters := updateQuota now |}.
Definition folder_store : QuotaStore DB.t := {|
  read_counters := getUsedFolderQuota; update_counters := updateFolderQuota now |}.
Definition transfer_store : QuotaStore DB.t := {|
  read_counters k h := '(_, _, ul, dl) ← getUsedQuota k h; Ok (ul, dl);
  update_counters := updateTransferQuota now |}.

(** A computation on the provider and one of the maps. *)
Definition on_pending (f : Quotas.t → pending) `{!Setter f} {A} (m : M (DB.t * pending) A) : M Quotas.t A := fun s =>
  let '(r, (d, p)) := m (Quotas.db s, f s) in (r, setter f (fun _ => p) (s <| Quotas.db := d |>)).
Definition on_users {A} : M (DB.t * pending) A → M Quotas.t A := on_pending Quotas.pendingUserQuotaUpdates.
Definition on_folders {A} : M (DB.t * pending) A → M Quotas.t A := on_pending Quotas.pendingFolderQuotaUpdates.
Definition on_transfers {A} : M (DB.t * pending) A → M Quotas.t A := on_pending Quotas.pendingTransferQuotaUpdates.

(* source: internal/dataprovider/quotaupdater.go resetUserQuota *)
Definition resetUserQuota (username : string) : M Quotas.t unit := modify (fun s => s <| Quotas.pendingUserQuotaUpdates ::= delete username |>).
(* source: internal/dataprovider/quotaupdater.go updateUserQuota *)
Definition updateUserQuota (username : string) (files size : Z) : M Quotas.t unit :=
  modify (fun s => s <| Quotas.pendingUserQuotaUpdates ::= add_pending username files size |>).
(* source: internal/dataprovider/quotaupdater.go getUserPendingQuota *)
Definition getUserPendingQuota (username : string) (s : Quotas.t) : Z * Z := get_pending username (Quotas.pendingUserQuotaUpdates s).
(* source: internal/dataprovider/quotaupdater.go resetFolderQuota *)
Definition resetFolderQuota (name : string) : M Quotas.t unit := modify (fun s => s <| Quotas.pendingFolderQuotaUpdates ::= delete name |>).
(* source: internal/dataprovider/quotaupdater.go updateFolderQuota *)
Definition delayed_updateFolderQuota (name : string) (files size : Z) : M Quotas.t unit :=
  modify (fun s => s <| Quotas.pendingFolderQuotaUpdates ::= add_pending name files size |>).
(* source: internal/dataprovider/quotaupdater.go getFolderPendingQuota *)
Definition getFolderPendingQuota (name : string) (s : Quotas.t) : Z * Z := get_pending name (Quotas.pendingFolderQuotaUpdates s).
(* source: internal/dataprovider/quotaupdater.go resetUserTransferQuota *)
Definition resetUserTransferQuota (username : string) : M Quotas.t unit :=
  modify (fun s => s <| Quotas.pendingTransferQuotaUpdates ::= delete username |>).
(* source: internal/dataprovider/quotaupdater.go updateUserTransferQuota *)
Definition updateUserTransferQuota (username : string) (ulSize dlSize : Z) : M Quotas.t unit :=
  modify (fun s => s <| Quotas.pendingTransferQuotaUpdates ::= add_pending username ulSize dlSize |>).
(* source: internal/dataprovider/quotaupdater.go getUserPendingTransferQuota *)
Definition getUserPendingTransferQuota (username : string) (s : Quotas.t) : Z * Z :=
  get_pending username (Quotas.pendingTransferQuotaUpdates s).

(** The names with pending updates, in the order of a range over the map. *)
Variable order : pending → list string.
Definition store_all (Q : QuotaStore DB.t) : M (DB.t * pending) unit := fun s => (Ok tt, store_pending order s).
(* source: internal/dataprovider/quotaupdater.go storeUsersQuota *)
Definition storeUsersQuota : M Quotas.t unit := on_users (store_all user_store).
(* source: internal/dataprovider/quotaupdater.go storeFoldersQuota *)
Definition storeFoldersQuota : M Quotas.t unit := on_folders (store_all folder_store).
(* source: internal/dataprovider/quotaupdater.go storeUsersTransferQuota *)
Definition storeUsersTransferQuota : M Quotas.t unit := on_transfers (store_all transfer_store).
(** one round of the loop *)
(* source: internal/dataprovider/quotaupdater.go loop *)
Definition quota_round : M Quotas.t unit := _ ← storeUsersQuota; _ ← storeFoldersQuota; storeUsersTransferQuota.

(** ** The exported functions *)

Variable TrackQuota DelayedQuotaUpdate : Z.
Definition MethodDisabled : error := PlainError "quota tracking is disabled".
Definition delayed : bool := negb (DelayedQuotaUpdate =? 0).

(* source: internal/dataprovider/dataprovider.go UpdateUserQuota *)
Definition UpdateUserQuota (user : User.t) (filesAdd sizeAdd : Z) (reset : bool) : M Quotas.t unit :=
  if TrackQuota =? 0 then fail MethodDisabled
  else if (TrackQuota =? 2) && negb reset && negb (HasQuotaRestrictions user) then mret tt
  else if (filesAdd =? 0) && (sizeAdd =? 0) && negb reset then mret tt
  else on_users (@update_or_delay _ user_store delayed (User.Username user) filesAdd sizeAdd reset).

(* source: internal/dataprovider/dataprovider.go UpdateVirtualFolderQuota *)
Definition UpdateVirtualFolderQuota (vfolder : BaseVirtualFolder.t) (filesAdd sizeAdd : Z) (reset : bool) : M Quotas.t unit :=
  if TrackQuota =? 0 then fail MethodDisabled
  else if (filesAdd =? 0) && (sizeAdd =? 0) && negb reset then mret tt
  else on_folders (@update_or_delay _ folder_store delayed (BaseVirtualFolder.Name vfolder) filesAdd sizeAdd reset).

(* source: internal/dataprovider/dataprovider.go UpdateUserTransferQuota *)
Definition UpdateUserTransferQuota (user : User.t) (uploadSize downloadSize : Z) (reset : bool) : M Quotas.t unit :=
  if TrackQuota =? 0 then fail MethodDisabled
  else if (TrackQuota =? 2) && negb reset && negb (HasTransferQuotaRestrictions user) then mret tt
  else if (downloadSize =? 0) && (uploadSize =? 0) && negb reset then mret tt
  else on_transfers (@update_or_delay _ transfer_store delayed (User.Username user) uploadSize downloadSize reset).

(** Its errors are logged and returned. *)
(* source: internal/dataprovider/dataprovider.go UpdateUserTransferTimestamps *)
Definition UpdateUserTransferTimestamps (username : string) (isUpload : bool) : prov unit :=
  if isUpload then setFirstUploadTimestamp now username else setFirstDownloadTimestamp now username.

(* source: internal/dataprovider/dataprovider.go GetUsedQuota *)
Definition Api_GetUsedQuota (username : string) (s : Quotas.t) : res (Z * Z * Z * Z) :=
  if TrackQuota =? 0 then Err MethodDisabled
  else
    '(files, size, ul, dl) ← getUsedQuota username (Quotas.db s);
    let '(delayedFiles, delayedSize) := getUserPendingQuota username s in
    let '(delayedUl, delayedDl) := getUserPendingTransferQuota username s in
    Ok (add64 files delayedFiles, add64 size delayedSize, add64 ul delayedUl, add64 dl delayedDl).

(* source: internal/dataprovider/dataprovider.go GetUsedVirtualFolderQuota *)
Definition GetUsedVirtualFolderQuota (name : string) (s : Quotas.t) : res (Z * Z) :=
  if TrackQuota =? 0 then Err MethodDisabled
  else @used_counters _ folder_store name (Quotas.db s, Quotas.pendingFolderQuotaUpdates s).
End provider.

(** ** The provider keeps the laws *)

Section laws.
Variable now : nat → Z.
Definition open_and_wf (h : DB.t) : Prop := wf h ∧ DB.isClosed h = false.

(** The counters are updated without a validator: any serves for the lemmas of the provider. *)
#[local] Instance no_users : Validate User.t := fun _ _ => Err (PlainError "no users").
#[local] Instance no_groups : Validate Group.t := fun _ _ => Err (PlainError "no groups").
#[local] Instance no_names : ValidNames.
Proof. by split. Qed.

Lemma update_user_run username f h u : wf h → DB.isClosed h = false → DB.users h !! username = Some u →
  (∀ v, User.Username (f v) = User.Username v) →
  locked (update_user username f) h = (Ok tt, h <| DB.users ::= <[username := f (user_getACopy u)]> |>).
Proof.
  intros W Hc Hu Hf. unfold locked. rewrite Hc. unfold update_user, mbind, M_bind, ask, userExistsInternal, existsIn. rewrite Hu.
  unfold upd, modify. by rewrite Hf, username_copy, (keyed_key _ _ _ _ _ (wf_users _ W) Hu).
Qed.

Lemma used_quota_users h k : DB.isClosed h = false → getUsedQuota k h =
  match DB.users h !! k with
  | Some u => Ok (User.UsedQuotaFiles u, User.UsedQuotaSize u, User.UsedUploadDataTransfer u, User.UsedDownloadDataTransfer u)
  | None => Err (RecordNotFoundError "username" k)
  end.
Proof.
  intros Hc. unfold getUsedQuota, when_open. rewrite Hc. unfold userExistsInternal, existsIn. by destruct (DB.users h !! k).
Qed.

Lemma update_user_missing username f h : DB.isClosed h = false → DB.users h !! username = None →
  locked (update_user username f) h = (Err (RecordNotFoundError "username" username), h).
Proof.
  intros Hc Hu. unfold locked. rewrite Hc. unfold update_user, mbind, M_bind, ask, userExistsInternal, existsIn. by rewrite Hu.
Qed.

#[export] Instance user_laws : @QuotaLaws DB.t (user_store now).
Proof.
  refine {| store_ok := open_and_wf |}.
  - intros k x y reset d a b [W Hc] Hr. cbn in Hr |- *. rewrite used_quota_users in Hr by done.
    destruct (DB.users d !! k) as [u|] eqn:Hu; [|done]. injection Hr as <- <-.
    pose proof (update_user_run k (user_add_quota now x y reset) d u W Hc Hu ltac:(by destruct reset)) as Hrun.
    eexists. split; [exact Hrun|]. split_and!; [split; [|done]|rewrite used_quota_users by done|].
    + by eapply (updateQuota_wf now k x y reset d tt).
    + cbn [DB.users setter]. change (DB.users (setter _ _ d)) with (<[k:=user_add_quota now x y reset (user_getACopy u)]> (DB.users d)).
      rewrite lookup_insert_eq. by destruct reset.
    + intros k' Hne. rewrite !used_quota_users by done.
      change (DB.users (setter _ _ d)) with (<[k:=user_add_quota now x y reset (user_getACopy u)]> (DB.users d)).
      by rewrite lookup_insert_ne.
  - intros k x y reset d e [W Hc] Hr. cbn in Hr |- *. rewrite used_quota_users in Hr by done.
    destruct (DB.users d !! k) as [u|] eqn:Hu; [done|]. injection Hr as <-. by apply update_user_missing.
Defined.

#[export] Instance transfer_laws : @QuotaLaws DB.t (transfer_store now).
Proof.
  refine {| store_ok := open_and_wf |}.
  - intros k x y reset d a b [W Hc] Hr. cbn in Hr |- *. rewrite used_quota_users in Hr by done.
    destruct (DB.users d !! k) as [u|] eqn:Hu; [|done]. injection Hr as <- <-.
    pose proof (update_user_run k (user_add_transfer now x y reset) d u W Hc Hu ltac:(by destruct reset)) as Hrun.
    eexists. split; [exact Hrun|]. split_and!; [split; [|done]|rewrite used_quota_users by done|].
    + by eapply (updateTransferQuota_wf now k x y reset d tt).
    + change (DB.users (setter _ _ d)) with (<[k:=user_add_transfer now x y reset (user_getACopy u)]> (DB.users d)).
      rewrite lookup_insert_eq. by destruct reset.
    + intros k' Hne. rewrite !used_quota_users by done.
      change (DB.users (setter _ _ d)) with (<[k:=user_add_transfer now x y reset (user_getACopy u)]> (DB.users d)).
      by rewrite lookup_insert_ne.
  - intros k x y reset d e [W Hc] Hr. cbn in Hr |- *. rewrite used_quota_users in Hr by done.
    destruct (DB.users d !! k) as [u|] eqn:Hu; [done|]. injection Hr as <-. by apply update_user_missing.
Defined.

Lemma used_folder_quota h k : DB.isClosed h = false → getUsedFolderQuota k h =
  match DB.vfolders h !! k with
  | Some f => Ok (BaseVirtualFolder.UsedQuotaFiles f, BaseVirtualFolder.UsedQuotaSize f)
  | None => Err (RecordNotFoundError "folder" k)
  end.
Proof.
  intros Hc. unfold getUsedFolderQuota, when_open. rewrite Hc. unfold folderExistsInternal, existsIn. by destruct (DB.vfolders h !! k).
Qed.

#[export] Instance folder_laws : @QuotaLaws DB.t (folder_store now).
Proof.
  refine {| store_ok := open_and_wf |}.
  - intros k x y reset d a b [W Hc] Hr. cbn in Hr |- *. rewrite used_folder_quota in Hr by done.
    destruct (DB.vfolders d !! k) as [f|] eqn:Hf; [|done]. injection Hr as <- <-.
    assert (updateFolderQuota now k x y reset d = (Ok tt, d <| DB.vfolders ::= <[k := folder_add_quota now x y reset f]> |>)) as Hrun.
    { unfold updateFolderQuota, locked. rewrite Hc. unfold mbind, M_bind, ask, folderExistsInternal, existsIn. by rewrite Hf. }
    eexists. split; [exact Hrun|]. split_and!; [split; [|done]|rewrite used_folder_quota by done|].
    + by eapply (updateFolderQuota_wf now k x y reset d tt).
    + change (DB.vfolders (setter _ _ d)) with (<[k:=folder_add_quota now x y reset f]> (DB.vfolders d)).
      rewrite lookup_insert_eq. by destruct reset.
    + intros k' Hne. rewrite !used_folder_quota by done.
      change (DB.vfolders (setter _ _ d)) with (<[k:=folder_add_quota now x y reset f]> (DB.vfolders d)).
      by rewrite lookup_insert_ne.
  - intros k x y reset d e [W Hc] Hr. cbn in Hr |- *. rewrite used_folder_quota in Hr by done.
    destruct (DB.vfolders d !! k) as [f|] eqn:Hf; [done|]. injection Hr as <-.
    unfold updateFolderQuota, locked. rewrite Hc. unfold mbind, M_bind, ask, folderExistsInternal, existsIn. by rewrite Hf.
Defined.
End laws.
