(* ===== verification/Mfa.v ===== *)
(** Time-based one-time passwords: the configurations, the check of a passcode
    and the record of the passcodes already used (internal/mfa).

    The validation of a passcode at a time is third-party code and a parameter;
    the last section states its documented behaviour, a code for each period of
    thirty seconds accepted one period early and one period late.  The look-up,
    the validation and the record of a passcode are three steps, which the steps
    of other logins and of the clean-up may separate ([exec_moves]).  Times are
    nanoseconds.  QR codes and the timer that runs the cleanup are not
    modelled. *)
From S2P Require Import Prelude.
Open Scope Z_scope.

Definition second : Z := 1000000000.
Definition minute : Z := 60 * second.

Inductive otp_algorithm := AlgorithmSHA1 | AlgorithmSHA256 | AlgorithmSHA512.
#[export] Instance otp_algorithm_eq_dec : EqDecision otp_algorithm.
Proof. solve_decision. Defined.

Module TOTPConfig.
(* source: internal/mfa/totp.go TOTPConfig *)
Record t := mk {
  Name : string;
  Issuer : string;
  Algo : string;
  algo : otp_algorithm;
}.
#[global] Instance eta : Settable t := {| settable := fun x => mk (Name x) (Issuer x) (Algo x) (algo x) |}.
End TOTPConfig.

(* source: internal/mfa/totp.go TOTPConfig.validate *)
Definition totp_validate (c : TOTPConfig.t) : res TOTPConfig.t :=
  _ ← refuse (TOTPConfig.Name c =s "") (PlainError "totp: name is mandatory");
  _ ← refuse (TOTPConfig.Issuer c =s "") (PlainError "totp: issuer is mandatory");
  if TOTPConfig.Algo c =s "sha1" then Ok (c <| TOTPConfig.algo := AlgorithmSHA1 |>)
  else if TOTPConfig.Algo c =s "sha256" then Ok (c <| TOTPConfig.algo := AlgorithmSHA256 |>)
  else if TOTPConfig.Algo c =s "sha512" then Ok (c <| TOTPConfig.algo := AlgorithmSHA512 |>)
  else Err (PlainError "unsupported totp algo").

(** The package's variables: [totpConfigs], [usedPasscodes] with the time each
    entry expires, and whether the service is active. *)
Module MFA.
Record t := mk {
  totpConfigs : list TOTPConfig.t;
  isActive : bool;
  usedPasscodes : gmap string Z;
}.
#[global] Instance eta : Settable t := {| settable := fun x => mk (totpConfigs x) (isActive x) (usedPasscodes x) |}.
End MFA.

Fixpoint init_loop (totp : gset string) (configs : list TOTPConfig.t) (l : list TOTPConfig.t) : res (list TOTPConfig.t) :=
  match l with
  | [] => Ok configs
  | c :: l' =>
      c ← totp_validate c;
      _ ← refuse (bool_decide (TOTPConfig.Name c ∈ totp)) (PlainError "totp: duplicate configuration name");
      init_loop ({[TOTPConfig.Name c]} ∪ totp) (configs ++ [c]) l'
  end.
(** An error leaves no configuration; [serviceStatus] keeps the ones seen before
    it, so the service counts as active then. *)
(* source: internal/mfa/mfa.go Config.Initialize *)
Definition mfa_Initialize (TOTP : list TOTPConfig.t) : M MFA.t unit := fun s =>
  match init_loop ∅ [] TOTP with
  | Ok configs => (Ok tt, s <| MFA.totpConfigs := configs |> <| MFA.isActive := negb (bool_decide (configs = [])) |>)
  | Err e => (Err e, s <| MFA.totpConfigs := [] |>
      <| MFA.isActive := match TOTP with c :: _ => is_ok (totp_validate c) | [] => false end |>)
  end.

(* source: internal/mfa/mfa.go GetAvailableTOTPConfigNames *)
Definition GetAvailableTOTPConfigNames (s : MFA.t) : list string := TOTPConfig.Name <$> MFA.totpConfigs s.

Definition errPasscodeUsed : error := PlainError "this passcode was already used".

(** github.com/pquerna/otp: [totp.ValidateCustom] with a period of 30 seconds, a
    skew of one period and six digits, at a time. *)
Class Otp := ValidateCustom : otp_algorithm → string → string → Z → res bool.

(** * The states *)

(** Where a call of [ValidateTOTPPasscode] is: before the Load, before the
    validation, before the Store, returned. *)
Inductive stage := Loading (configName : string) | Validating (c : TOTPConfig.t) | Storing | Returned (r : res bool).
Module Login.
Record t := mk { passcode : string; secret : string; at_ : stage }.
End Login.
(** The package, the logins, by number, and the key the goroutine that cleans up
    is about to delete. *)
Module Logins.
Record t := mk { mfa : MFA.t; logins : gmap nat Login.t; deleting : option string }.
End Logins.
Import Logins.

Section mfa.
Context {O : Otp}.

(** The three calls of [validatePasscode]: no lock spans them. *)
Definition passcode_key (secret passcode : string) : string := secret +:+ "_" +:+ passcode.
(* source: internal/mfa/totp.go#L66-L69 TOTPConfig.validatePasscode *)
Definition passcode_load (passcode secret : string) (s : MFA.t) : res unit :=
  match MFA.usedPasscodes s !! passcode_key secret passcode with Some _ => Err errPasscodeUsed | None => Ok tt end.
(* source: internal/mfa/totp.go#L70-L75 TOTPConfig.validatePasscode *)
Definition passcode_match (c : TOTPConfig.t) (passcode secret : string) (now : Z) : res bool :=
  ValidateCustom (TOTPConfig.algo c) passcode secret now.
(* source: internal/mfa/totp.go#L76-L78 TOTPConfig.validatePasscode *)
Definition passcode_store (passcode secret : string) (now : Z) (s : MFA.t) : MFA.t :=
  s <| MFA.usedPasscodes ::= <[passcode_key secret passcode := now + 1 * minute]> |>.

(** With nothing in between; [now] and [stored] are the two readings of the
    clock. *)
(* source: internal/mfa/totp.go TOTPConfig.validatePasscode *)
Definition validatePasscode (c : TOTPConfig.t) (passcode secret : string) (now stored : Z) : M MFA.t bool := fun s =>
  match passcode_load passcode secret s with
  | Err e => (Err e, s)
  | Ok _ => match passcode_match c passcode secret now with
            | Ok true => (Ok true, passcode_store passcode secret stored s)
            | r => (r, s)
            end
  end.

Definition find_config (configName : string) (s : MFA.t) : option TOTPConfig.t :=
  List.find (fun c => TOTPConfig.Name c =s configName) (MFA.totpConfigs s).
(* source: internal/mfa/mfa.go ValidateTOTPPasscode *)
Definition ValidateTOTPPasscode (configName passcode secret : string) (now : Z) : M MFA.t bool := fun s =>
  match find_config configName s with
  | Some config => validatePasscode config passcode secret now now s
  | None => (Err (PlainError "totp: no configuration"), s)
  end.

(** The visit of a key and the deletion of it, and the whole with nothing in
    between. *)
(* source: internal/mfa/totp.go#L114-L115 cleanupUsedPasscodes *)
Definition cleanup_visit (key : string) (now : Z) (s : MFA.t) : bool :=
  match MFA.usedPasscodes s !! key with Some exp => exp <? now | None => false end.
(* source: internal/mfa/totp.go#L116-L118 cleanupUsedPasscodes *)
Definition cleanup_delete (key : string) (s : MFA.t) : MFA.t := s <| MFA.usedPasscodes ::= delete key |>.
(* source: internal/mfa/totp.go cleanupUsedPasscodes *)
Definition cleanupUsedPasscodes (now : Z) (s : MFA.t) : MFA.t :=
  s <| MFA.usedPasscodes ::= filter (fun '(_, exp) => ¬ exp < now) |>.

(** * Concurrent logins *)

(* source: internal/mfa/totp.go TOTPConfig.validatePasscode *)
Definition login_step (now : Z) (l : Login.t) (s : MFA.t) : Login.t * MFA.t :=
  let '(Login.mk passcode secret st) := l in
  let at_stage := Login.mk passcode secret in
  match st with
  | Loading configName =>
      match find_config configName s with
      | Some config => (at_stage (match passcode_load passcode secret s with
                                  | Ok _ => Validating config
                                  | Err e => Returned (Err e)
                                  end), s)
      | None => (at_stage (Returned (Err (PlainError "totp: no configuration"))), s)
      end
  | Validating c => (at_stage (match passcode_match c passcode secret now with Ok true => Storing | r => Returned r end), s)
  | Storing => (at_stage (Returned (Ok true)), passcode_store passcode secret now s)
  | Returned _ => (l, s)
  end.

(** A login arrives, a login goes on, the clean-up visits a key or deletes the
    one it has found expired. *)
Inductive move := Arrive (i : nat) (configName passcode secret : string) | Advance (i : nat) | Visit (key : string) | Delete.
Definition exec_move (now : Z) (m : move) (c : Logins.t) : Logins.t :=
  match m with
  | Arrive i n p k =>
      match logins c !! i with
      | Some _ => c
      | None => mk (mfa c) (<[i := Login.mk p k (Loading n)]> (logins c)) (deleting c)
      end
  | Advance i =>
      match logins c !! i with
      | Some l => let '(l', s) := login_step now l (mfa c) in mk s (<[i := l']> (logins c)) (deleting c)
      | None => c
      end
  | Visit key =>
      match deleting c with
      | Some _ => c
      | None => mk (mfa c) (logins c) (if cleanup_visit key now (mfa c) then Some key else None)
      end
  | Delete =>
      match deleting c with
      | Some key => mk (cleanup_delete key (mfa c)) (logins c) None
      | None => c
      end
  end.
Fixpoint exec_moves (l : list (Z * move)) (c : Logins.t) : Logins.t :=
  match l with [] => c | (now, m) :: l' => exec_moves l' (exec_move now m c) end.

Definition accepted (i : nat) (passcode secret : string) (c : Logins.t) : Prop :=
  logins c !! i = Some (Login.mk passcode secret (Returned (Ok true))).
(** no login or one that has not looked the passcode up yet *)
Definition not_loaded (j : nat) (c : Logins.t) : Prop :=
  ∀ l, logins c !! j = Some l → ∃ n, Login.at_ l = Loading n.

(** * Passcodes are used once *)

(** the passcode is refused until [exp] and nothing is about to forget it *)
Definition blocked (secret passcode : string) (exp : Z) (c : Logins.t) : Prop :=
  (∃ e, MFA.usedPasscodes (mfa c) !! passcode_key secret passcode = Some e ∧ exp <= e) ∧
  deleting c ≠ Some (passcode_key secret passcode).
(** a login with the passcode that will not be accepted *)
Definition shut_out (secret passcode : string) (l : Login.t) : Prop :=
  Login.passcode l = passcode → Login.secret l = secret →
  match Login.at_ l with Loading _ => True | Returned r => r ≠ Ok true | _ => False end.

Lemma store_blocked secret passcode exp p k now s : exp <= now + minute →
  (∃ e, MFA.usedPasscodes s !! passcode_key secret passcode = Some e ∧ exp <= e) ∨ passcode_key k p = passcode_key secret passcode →
  ∃ e, MFA.usedPasscodes (passcode_store p k now s) !! passcode_key secret passcode = Some e ∧ exp <= e.
Proof.
  intros Hexp H. cbn. destruct (decide (passcode_key k p = passcode_key secret passcode)) as [->|Hne].
  - exists (now + 1 * minute). split; [apply lookup_insert_eq|lia].
  - destruct H as [(e & He & Hle)|H]; [|done]. exists e. split; [|done]. etrans; [by apply lookup_insert_ne|done].
Qed.

Lemma login_blocked secret passcode start now l s l' s' : start <= now →
  (∃ e, MFA.usedPasscodes s !! passcode_key secret passcode = Some e ∧ start + minute <= e) → login_step now l s = (l', s') →
  (∃ e, MFA.usedPasscodes s' !! passcode_key secret passcode = Some e ∧ start + minute <= e) ∧
  (shut_out secret passcode l → shut_out secret passcode l').
Proof.
  intros Hn Hb Hs. destruct l as [p k st]. destruct st as [n|c| |r]; cbn in Hs.
  - destruct (find_config n s) as [c|]; injection Hs as <- <-; (split; [done|]); unfold shut_out; cbn; [|done].
    intros _ <- <-. destruct Hb as (e & He & _). unfold passcode_load. by rewrite He.
  - injection Hs as <- <-. split; [done|]. unfold shut_out. cbn. intros H H1 H2. by destruct (H H1 H2).
  - injection Hs as <- <-. split; [apply store_blocked; [lia|by left]|]. unfold shut_out. cbn. intros H H1 H2. by destruct (H H1 H2).
  - injection Hs as <- <-. done.
Qed.

Lemma move_blocked secret passcode start j now m c : start <= now <= start + minute → blocked secret passcode (start + minute) c →
  (∀ l, logins c !! j = Some l → shut_out secret passcode l) →
  blocked secret passcode (start + minute) (exec_move now m c) ∧
  (∀ l, logins (exec_move now m c) !! j = Some l → shut_out secret passcode l).
Proof.
  intros Hn [Hb Hd] Hj. destruct m as [i n p k|i|key|]; cbn [exec_move].
  - destruct (logins c !! i) as [l|] eqn:Hi; [done|]. split; [done|]. cbn. intros l [[-> <-]|[_ Hl]]%lookup_insert_Some; [done|by apply Hj].
  - destruct (logins c !! i) as [l|] eqn:Hi; [|done]. destruct (login_step now l (mfa c)) as [l' s'] eqn:Hs.
    destruct (login_blocked _ _ _ _ _ _ _ _ (proj1 Hn) Hb Hs) as [Hb' Hl']. split; [done|]. cbn.
    intros x [[-> <-]|[_ Hx]]%lookup_insert_Some; [by apply Hl', Hj|by apply Hj].
  - destruct (deleting c) eqn:Hk; [by rewrite <-Hk in Hd|]. split; [|done]. split; [done|]. cbn. unfold cleanup_visit.
    destruct (decide (key = passcode_key secret passcode)) as [->|Hne]; [|by case_match; [case_match|]; congruence].
    destruct Hb as (e & -> & He). destruct (Z.ltb_spec e now); [lia|done].
  - destruct (deleting c) as [key|] eqn:Hk; [|by rewrite <-Hk in Hd]. split; [|done]. split; [|done].
    destruct Hb as (e & He & Hle). exists e. split; [|done]. cbn. rewrite lookup_delete_ne by congruence. done.
Qed.

(** C37: A passcode that was accepted is not accepted again for the same secret
    in the minute after: however the steps of concurrent logins and of the
    clean-up interleave, once the accepted passcode is recorded no login that
    looks it up later is accepted, unless the clean-up was already deleting an
    older record of it. *)
Theorem passcode_accepted_once i passcode secret now c moves : let c' := exec_move now (Advance i) c in
  ¬ accepted i passcode secret c → accepted i passcode secret c' → deleting c ≠ Some (passcode_key secret passcode) →
  Forall (fun m => now <= m.1 <= now + minute) moves →
  ∀ j, not_loaded j c → ¬ accepted j passcode secret (exec_moves moves c').
Proof.
  intros c' Hnew Hacc Hdel Hmoves j Hj.
  assert (blocked secret passcode (now + minute) c' ∧ ∀ l, logins c' !! j = Some l → shut_out secret passcode l) as H.
  { unfold accepted in Hnew, Hacc. subst c'. cbn [exec_move] in *. destruct (logins c !! i) as [[p k st]|] eqn:Hi; [|by rewrite Hi in Hacc].
    destruct (login_step now _ (mfa c)) as [l' s'] eqn:Hs. cbn in Hacc. rewrite lookup_insert_eq in Hacc. injection Hacc as ->.
    assert (st = Storing ∧ p = passcode ∧ k = secret) as (-> & -> & ->).
    { destruct st as [n|x| |r]; cbn in Hs.
      - destruct (find_config n (mfa c)); [|done]. by destruct (passcode_load _ _ _).
      - by destruct (passcode_match _ _ _ _) as [[]|].
      - injection Hs as -> -> _. done.
      - injection Hs as -> -> -> _. by destruct Hnew. }
    injection Hs as <-. split; [split; [apply store_blocked; [done|by right]|done]|]. cbn. intros l [[-> <-]|[_ Hl]]%lookup_insert_Some.
    - by destruct (Hj _ Hi) as [n ?].
    - intros _ _. by destruct (Hj _ Hl) as [n ->]. }
  clearbody c'. clear Hnew Hacc Hdel Hj. revert c' H. induction Hmoves as [|[t m] moves Ht _ IH]; intros c' [Hb Hj]; cbn [exec_moves fst] in *.
  - intros Ha. by apply (Hj _ Ha eq_refl eq_refl).
  - apply IH. by apply move_blocked.
Qed.
End mfa.

(** * The window of a passcode *)

Section window.
(** The code of a secret for a period. *)
Variable code : otp_algorithm → string → Z → string.

(** The documented behaviour of [totp.ValidateCustom]. *)
Definition windowed : Otp := fun alg passcode secret now =>
  if negb (String.length passcode =? 6)%nat then Err (PlainError "input length unexpected")
  else let period := now / (30 * second) in
       Ok (existsb (fun d => code alg secret (period + d) =s passcode) [0; 1; -1]).

Lemma windowed_ok alg secret n t d : String.length (code alg secret n) = 6%nat → d ∈ [0; 1; -1] →
  t / (30 * second) + d = n → windowed alg (code alg secret n) secret t = Ok true.
Proof.
  intros Hl Hd Hn. unfold windowed. rewrite Hl. cbn [Nat.eqb negb]. f_equal. apply existsb_exists. exists d.
  split; [by apply list_elem_of_In|]. rewrite Hn. apply String.eqb_refl.
Qed.

(** A used passcode is forgotten a minute after its use, while it stays
    valid for three periods, a minute and a half: when it is used as soon as it
    is valid and the used passcodes are cleaned up 61 seconds later, the same
    passcode is accepted a second time. *)
Theorem passcode_replayed c n s : find_config (TOTPConfig.Name c) s = Some c →
  let secret := "S" in let passcode := code (TOTPConfig.algo c) secret n in let start := (n - 1) * (30 * second) in
  let login now := ValidateTOTPPasscode (O := windowed) (TOTPConfig.Name c) passcode secret now in
  String.length passcode = 6%nat → MFA.usedPasscodes s = ∅ →
  let s1 := (login start s).2 in let s2 := cleanupUsedPasscodes (start + 61 * second) s1 in
  (login start s).1 = Ok true ∧ (login (start + 62 * second) s2).1 = Ok true.
Proof.
  intros Hc secret passcode start login Hl Hu.
  assert (start / (30 * second) = n - 1) as H0 by (unfold start; rewrite Z.div_mul; [done|unfold second; lia]).
  assert ((start + 62 * second) / (30 * second) = n + 1) as H62.
  { unfold start, second. symmetry. apply (Z.div_unique _ _ _ (2 * 1000000000)); lia. }
  assert (windowed (TOTPConfig.algo c) passcode secret start = Ok true) as Hw1 by (apply (windowed_ok _ _ _ _ 1); [done|by repeat constructor|lia]).
  assert (windowed (TOTPConfig.algo c) passcode secret (start + 62 * second) = Ok true) as Hw2
    by (apply (windowed_ok _ _ _ _ (-1)); [done|by repeat constructor|lia]).
  assert (login start s = (Ok true, passcode_store passcode secret start s)) as Hfirst.
  { unfold login, ValidateTOTPPasscode, validatePasscode, passcode_load. rewrite Hc, Hu, lookup_empty.
    unfold passcode_match, ValidateCustom. by rewrite Hw1. }
  intros s1 s2. subst s2 s1. rewrite Hfirst. split; [done|]. cbn [fst snd]. unfold login, ValidateTOTPPasscode, validatePasscode, passcode_load.
  change (find_config _ (cleanupUsedPasscodes _ _)) with (find_config (TOTPConfig.Name c) s). rewrite Hc.
  assert (MFA.usedPasscodes (cleanupUsedPasscodes (start + 61 * second) (passcode_store passcode secret start s))
    !! passcode_key secret passcode = None) as ->.
  { apply map_lookup_filter_None. right. intros x Hx Hn. apply Hn.
    assert (Some x = Some (start + 1 * minute)) as [= ->] by (rewrite <-Hx; apply lookup_insert_eq). unfold minute, second. lia. }
  unfold passcode_match, ValidateCustom. by rewrite Hw2.
Qed.
End window.

(** * Witnesses *)

Definition sample_totp : TOTPConfig.t := TOTPConfig.mk "Default" "SFTPGo" "sha1" AlgorithmSHA1.
Definition sample_mfa : MFA.t := MFA.mk [sample_totp] true ∅.
Definition sample_code (alg : otp_algorithm) (secret : string) (n : Z) : string := "123456".

Definition no_logins : Logins.t := mk sample_mfa ∅ None.
(** one login is accepted up to the record of its passcode, another has arrived *)
Definition before_store (O : Otp) : Logins.t :=
  exec_moves [(0, Arrive 0 "Default" "123456" "S"); (0, Arrive 1 "Default" "123456" "S"); (0, Advance 0); (1, Advance 0)] no_logins.

Lemma passcode_accepted_once_witness : let O := windowed sample_code in
  ¬ accepted 1 "123456" "S" (exec_moves [(3, Advance 1); (30 * second, Visit "S_123456"); (30 * second, Delete); (31 * second, Advance 1)]
    (exec_move 2 (Advance 0) (before_store O))).
Proof.
  intros O. refine (passcode_accepted_once 0 "123456" "S" 2 (before_store O) _ _ _ _ _ 1%nat _).
  - unfold accepted. vm_compute. discriminate.
  - vm_compute. reflexivity.
  - vm_compute. discriminate.
  - repeat constructor; vm_compute; discriminate.
  - intros l [= <-]. by exists "Default".
Defined.

(** Two logins that both look the passcode up before one of them records it are
    both accepted. *)
Lemma concurrent_logins_accepted : let O := windowed sample_code in
  let c := exec_moves [(3, Advance 1); (4, Advance 1); (5, Advance 0); (6, Advance 1)]
    (exec_moves [(0, Arrive 0 "Default" "123456" "S"); (0, Arrive 1 "Default" "123456" "S"); (0, Advance 0); (1, Advance 0)] no_logins) in
  accepted 0 "123456" "S" c ∧ accepted 1 "123456" "S" c.
Proof. split; vm_compute; reflexivity. Qed.

Lemma passcode_replayed_witness : let login now := ValidateTOTPPasscode (O := windowed sample_code) "Default" "123456" "S" now in
  let s1 := (login 0 sample_mfa).2 in (login 0 sample_mfa).1 = Ok true ∧ (login (62 * second) (cleanupUsedPasscodes (61 * second) s1)).1 = Ok true.
Proof. exact (passcode_replayed sample_code sample_totp 1 sample_mfa eq_refl eq_refl eq_refl). Defined.
