(* ===== verification/Credentials.v ===== *)
(** Passwords and keys: the cache of verified credentials, the hash formats and
    the checks of users, admins, API keys and shares
    (internal/dataprovider/cachedpassword.go, dataprovider.go isPasswordOK to
    comparePbkdf2PasswordAndHash, admin.go, apikey.go, share.go).

    The hash functions are third-party code or digests and come in the class
    [Hashes].  Times are milliseconds. *)
From Stdlib Require Import Ascii QArith.
From stdpp Require Import sorting.
From S2P Require Import Prelude GoPath Util Net FsConfig Entities Links Tables MemoryCore MemoryOps UserPerms GroupMerge MemoryQueries Mfa FsValidate Secrets ValidateUser ValidateUserProps ValidateObjects.
Open Scope Z_scope.

Definition ErrInvalidCredentials : error := PlainError "invalid credentials".

(** The verification functions; all get the stored hash first. *)
Class Hashes := {
  bcrypt_Compare : string → string → bool;
  argon2id_Compare : string → string → res bool;
  yescrypt_Compare : string → string → res bool;
  sha512_crypt_Verify : string → string → bool;
  sha256_crypt_Verify : string → string → bool;
  md5_crypt_Verify : string → string → bool;
  apr1_crypt_Verify : string → string → bool;
  md5_hex : string → string;
  sha256_hex : string → string;
  sha512_hex : string → string;
  pbkdf2_Key : string → string → Z → nat → string → string;   (* password, salt, iterations, length, digest *)
}.

(** * The cache of credentials *)

Module credentialObject.
(* source: internal/dataprovider/cachedpassword.go credentialObject *)
Record t := mk { key : string; hash : string; password : string; usedAt : Z }.
#[global] Instance eta : Settable t := {| settable := fun x => mk (key x) (hash x) (password x) (usedAt x) |}.
End credentialObject.

Module credentialsCache.
(* source: internal/dataprovider/cachedpassword.go credentialsCache *)
Record t := mk { sizeLimit : nat; cache : gmap string credentialObject.t }.
#[global] Instance eta : Settable t := {| settable := fun x => mk (sizeLimit x) (cache x) |}.
End credentialsCache.

(** [init] *)
(* source: internal/dataprovider/cachedpassword.go#L33-L49 init *)
Definition initial_caches : credentialsCache.t * credentialsCache.t * credentialsCache.t :=
  (credentialsCache.mk 500 ∅, credentialsCache.mk 100 ∅, credentialsCache.mk 500 ∅).

Section cache.
Variable PasswordCaching : bool.
Implicit Type c : credentialsCache.t.

(* source: internal/dataprovider/cachedpassword.go Add *)
Definition cache_Add (now : Z) (username password hash : string) c : credentialsCache.t :=
  if negb PasswordCaching || (username =s "") || (password =s "") || (hash =s "") then c
  else c <| credentialsCache.cache ::= <[username := credentialObject.mk username hash password now]> |>.

(* source: internal/dataprovider/cachedpassword.go Remove *)
Definition cache_Remove (username : string) c : credentialsCache.t :=
  if negb PasswordCaching then c else c <| credentialsCache.cache ::= delete username |>.

Definition set_usedAt (username : string) (t : Z) c : credentialsCache.t :=
  c <| credentialsCache.cache ::= alter (fun o => o <| credentialObject.usedAt := t |>) username |>.
(** found, match, and the cache with the time of the use *)
(* source: internal/dataprovider/cachedpassword.go Check *)
Definition cache_Check (now : Z) (username password hash : string) c : bool * bool * credentialsCache.t :=
  if (username =s "") || (password =s "") || (hash =s "") then (false, false, c)
  else match credentialsCache.cache c !! username with
       | None => (false, false, c)
       | Some creds =>
           if negb (credentialObject.hash creds =s hash) then (false, false, set_usedAt username 0 c)
           else let matches := credentialObject.password creds =s password in
                (true, matches, if matches then set_usedAt username now c else c)
       end.

(* source: internal/dataprovider/cachedpassword.go count *)
Definition cache_count c : nat := size (credentialsCache.cache c).

Definition used_le (a b : credentialObject.t) : Prop := credentialObject.usedAt a <= credentialObject.usedAt b.
#[export] Instance used_le_dec : RelDecision used_le.
Proof. intros a b. unfold used_le. apply _. Defined.

#[export] Instance used_le_trans : Transitive used_le.
Proof. intros a b c. unfold used_le. lia. Qed.
#[export] Instance used_le_total : Total used_le.
Proof. intros a b. unfold used_le. lia. Qed.

(** The unstable [sort.Slice]: the elements in some order, then sorted; [order]
    is that of the range over the map and of the ties. *)
(* source: internal/dataprovider/cachedpassword.go cleanup *)
Definition cache_cleanup (order : gmap string credentialObject.t → list credentialObject.t) (now : Z) c : credentialsCache.t :=
  if negb PasswordCaching then c
  else if (cache_count c <=? credentialsCache.sizeLimit c)%nat then c
  else
    let c := c <| credentialsCache.cache ::= filter (fun '(_, v) => ¬ credentialObject.usedAt v < now - 60 * 60 * 1000) |> in
    if (cache_count c <? credentialsCache.sizeLimit c * 5)%nat then c
    else
      let numToRemove := (cache_count c - credentialsCache.sizeLimit c)%nat in
      let credentials := merge_sort used_le (order (credentialsCache.cache c)) in
      c <| credentialsCache.cache ::= fun m => foldl (fun m v => delete (credentialObject.key v) m) m (take numToRemove credentials) |>.

End cache.

(** * Hash formats *)

Section formats.
Context {H : Hashes}.

Definition md5DigestPwdPrefix : string := "{MD5}".
Definition sha256DigestPwdPrefix : string := "{SHA256}".
Definition sha512DigestPwdPrefix : string := "{SHA512}".
(* source: internal/dataprovider/dataprovider.go compareDigestPasswordAndHash *)
Definition compareDigestPasswordAndHash (stored password : string) : bool :=
  if has_prefix stored md5DigestPwdPrefix then (md5DigestPwdPrefix +:+ md5_hex password) =s stored
  else if has_prefix stored sha256DigestPwdPrefix then (sha256DigestPwdPrefix +:+ sha256_hex password) =s stored
  else if has_prefix stored sha512DigestPwdPrefix then (sha512DigestPwdPrefix +:+ sha512_hex password) =s stored
  else false.

(** [if err := crypter.Verify(stored, password); err != nil { return false, err }; return true, nil] *)
Definition verify_or_err (ok : bool) : res bool := if ok then Ok true else Err (PlainError "hashed value is not the hash of the given password").
(* source: internal/dataprovider/dataprovider.go compareUnixPasswordAndHash *)
Definition compareUnixPasswordAndHash (stored password : string) : res bool :=
  if has_prefix stored "$y$" then yescrypt_Compare stored password
  else if has_prefix stored "$6$" then verify_or_err (sha512_crypt_Verify stored password)
  else if has_prefix stored "$5$" then verify_or_err (sha256_crypt_Verify stored password)
  else if has_prefix stored "$1$" then verify_or_err (md5_crypt_Verify stored password)
  else if has_prefix stored "$apr1$" then verify_or_err (apr1_crypt_Verify stored password)
  else Err (PlainError "unix crypt: invalid or unsupported hash format").

(** [strings.Split] at a byte *)
Fixpoint split_at (c : ascii) (s : string) : list string :=
  match s with
  | EmptyString => [EmptyString]
  | String d s' =>
      if Ascii.eqb d c then EmptyString :: split_at c s'
      else match split_at c s' with w :: ws => String d w :: ws | [] => [String d EmptyString] end
  end.

(** [strconv.Atoi] on 64 bits *)
Fixpoint digits_value (s : string) (acc : Z) : option Z :=
  match s with
  | EmptyString => Some acc
  | String c s' => match digit c with Some d => digits_value s' (acc * 10 + d) | None => None end
  end.
Definition Atoi (s : string) : option Z :=
  let '(neg, ds) := match s with
                    | String "-" s' => (true, s') | String "+" s' => (false, s') | _ => (false, s) end in
  if ds =s "" then None
  else n ← digits_value ds 0; let v := if neg then - n else n in
       if (MinInt64 <=? v) && (v <=? MaxInt64) then Some v else None.

(** [base64.StdEncoding.DecodeString]: line breaks are passed over, the padding
    is mandatory and ends the text. *)
Definition b64_value (c : ascii) : option Z :=
  let n := code c in
  if in_range "A" "Z" c then Some (n - 65) else if in_range "a" "z" c then Some (n - 71)
  else if in_range "0" "9" c then Some (n + 4) else if Ascii.eqb c "+" then Some 62
  else if Ascii.eqb c "/" then Some 63 else None.
Definition byte_char (z : Z) : ascii := ascii_of_N (Z.to_N (Z.land z 255)).
Fixpoint b64_decode (l : list ascii) : option string :=
  match l with
  | [] => Some ""
  | a :: b :: c :: d :: l' =>
      x ← b64_value a; y ← b64_value b;
      let first := byte_char (Z.shiftl x 2 + Z.shiftr y 4) in
      if Ascii.eqb c "=" then if Ascii.eqb d "=" && bool_decide (l' = []) then Some (String first "") else None
      else
        z ← b64_value c;
        let second := byte_char (Z.shiftl y 4 + Z.shiftr z 2) in
        if Ascii.eqb d "=" then if bool_decide (l' = []) then Some (String first (String second "")) else None
        else
          w ← b64_value d;
          rest ← b64_decode l';
          Some (String first (String second (String (byte_char (Z.shiftl z 6 + w)) rest)))
  | _ => None
  end.
Definition base64_DecodeString (s : string) : option string :=
  b64_decode (List.filter (fun c => negb (code c =? 10) && negb (code c =? 13)) (String.list_ascii_of_string s)).

Definition or_error {A} (o : option A) (msg : string) : res A := match o with Some a => Ok a | None => Err (PlainError msg) end.
Definition pbkdfPwdB64SaltPrefixes : list string := ["$pbkdf2-b64salt-sha256$"].
(* source: internal/dataprovider/dataprovider.go comparePbkdf2PasswordAndHash *)
Definition comparePbkdf2PasswordAndHash (password hashedPassword : string) : res bool :=
  match split_at "$" hashedPassword with
  | [_; alg; iter; salt64; hash64] =>
      iterations ← or_error (Atoi iter) "strconv.Atoi";
      expected ← or_error (base64_DecodeString hash64) "illegal base64 data";
      salt ← (if IsStringPrefixInSlice hashedPassword pbkdfPwdB64SaltPrefixes
              then or_error (base64_DecodeString salt64) "illegal base64 data" else Ok salt64);
      digest ← (if has_prefix hashedPassword "$pbkdf2-sha256$" || has_prefix hashedPassword "$pbkdf2-b64salt-sha256$" then Ok "sha256"
                else if has_prefix hashedPassword "$pbkdf2-sha512$" then Ok "sha512"
                else if has_prefix hashedPassword "$pbkdf2-sha1$" then Ok "sha1"
                else Err (PlainError "pbkdf2: invalid or unsupported hash format"));
      Ok (pbkdf2_Key password salt iterations (String.length expected) digest =s expected)
  | _ => Err (PlainError "pbkdf2: hash is not in the correct format")
  end.
End formats.

(** * Checks *)

(** The state of the checks: the provider, the three caches and the used
    passcodes. *)
Module Auth.
Record t := mk {
  db : DB.t;
  cachedUserPasswords : credentialsCache.t;
  cachedAdminPasswords : credentialsCache.t;
  cachedAPIKeys : credentialsCache.t;
  mfa : MFA.t;
}.
#[global] Instance eta : Settable t := {| settable := fun x =>
  mk (db x) (cachedUserPasswords x) (cachedAdminPasswords x) (cachedAPIKeys x) (mfa x) |}.
End Auth.

Section checks.
Context {K : Kms} {KO : KmsOpen} {S : Settings} {H : Hashes} {O : Otp}.
Variable PasswordCaching : bool.
(** the time of the call, in milliseconds *)
Variable now : Z.

(** ** Users *)

(** The branches of [isPasswordOK] after the cache: the result and [updatePwd]. *)
(* source: internal/dataprovider/dataprovider.go#L3289-L3317 isPasswordOK *)
Definition verify_password (stored password : string) : res bool * bool :=
  if has_prefix stored bcryptPwdPrefix then
    (if bcrypt_Compare stored password then Ok true else Err ErrInvalidCredentials, negb (hashing_Algo =s HashingAlgoBcrypt))
  else if has_prefix stored argonPwdPrefix then (argon2id_Compare stored password, negb (hashing_Algo =s "argon2id"))
  else if IsStringPrefixInSlice stored ["$1$"; "$apr1$"; "$5$"; "$6$"; "$y$"] then (compareUnixPasswordAndHash stored password, true)
  else if IsStringPrefixInSlice stored ["$pbkdf2-sha1$"; "$pbkdf2-sha256$"; "$pbkdf2-sha512$"; "$pbkdf2-b64salt-sha256$"]
       then (comparePbkdf2PasswordAndHash password stored, true)
  else if IsStringPrefixInSlice stored [md5DigestPwdPrefix; sha256DigestPwdPrefix; sha512DigestPwdPrefix]
       then (Ok (compareDigestPasswordAndHash stored password), true)
  else (Ok false, true).

(** A failure is logged and leaves the old hash. *)
(* source: internal/dataprovider/dataprovider.go convertUserPassword *)
Definition convertUserPassword (username plainPwd : string) (h : DB.t) : DB.t :=
  match hashPlainPassword plainPwd with
  | Ok hashedPwd => (updateUserPassword (fun _ => now) username hashedPwd h).2
  | Err _ => h
  end.

(* source: internal/dataprovider/dataprovider.go isPasswordOK *)
Definition isPasswordOK (user : User.t) (password : string) : M Auth.t bool := fun s =>
  let '(found, matches, c) :=
    if PasswordCaching then cache_Check now (User.Username user) password (User.Password user) (Auth.cachedUserPasswords s)
    else (false, false, Auth.cachedUserPasswords s) in
  let s := s <| Auth.cachedUserPasswords := c |> in
  if found then (Ok matches, s)
  else
    let '(r, updatePwd) := verify_password (User.Password user) password in
    match r with
    | Ok true =>
        let s := s <| Auth.cachedUserPasswords ::= cache_Add PasswordCaching now (User.Username user) password (User.Password user) |> in
        (Ok true, if updatePwd then s <| Auth.db ::= convertUserPassword (User.Username user) password |> else s)
    | r => (r, s)
    end.

(** a call on the passcodes; their times are nanoseconds *)
Definition on_mfa {A} (m : M MFA.t A) : M Auth.t A := fun s => let '(r, x) := m (Auth.mfa s) in (r, s <| Auth.mfa := x |>).

(** With a second factor for FTP the passcode is the end of the password. *)
(* source: internal/dataprovider/dataprovider.go checkUserPasscode *)
Definition checkUserPasscode (user : User.t) (password protocol : string) : M Auth.t string := fun s =>
  let c := UserFilters.TOTPConfig (User.Filters user) in
  if UserTOTPConfig.Enabled c && (protocol =s protocolFTP) && contains (UserTOTPConfig.Protocols c) protocol then
    let pwdLen := String.length password in
    if (pwdLen <? 7)%nat then (Err (ValidationError "password too short, cannot contain the passcode"), s)
    else match secret_TryDecrypt (deref (UserTOTPConfig.Secret c)) with
         | Err e => (Err e, s)
         | Ok secret =>
             let pwd := str_take (pwdLen - 6) password in
             let passcode := str_drop (pwdLen - 6) password in
             match on_mfa (ValidateTOTPPasscode (UserTOTPConfig.ConfigName c) passcode (Secret.Payload secret) (now * 1000000)) s with
             | (Ok true, s) => (Ok pwd, s)
             | (_, s) => (Err (ValidationError "invalid passcode"), s)
             end
         end
  else (Ok password, s).

(** The hook that may check the password, with the status and the password to
    verify of its answer; -1 when none is configured. *)
Variable executeCheckPasswordHook : string → string → res (Z * string).
(* source: internal/dataprovider/user.go MustChangePassword *)
Definition MustChangePassword (u : User.t) : bool :=
  if UserFilters.RequirePasswordChange (User.Filters u) then true
  else let days := BaseUserFilters.PasswordExpiration (base_filters u) in
       if days =? 0 then false else User.LastPasswordChange u + days * (24 * 3600 * 1000) <? now.

(** the order of the range over the permissions of a group *)
Variable range : gmap string (list string) → list (string * list string).
(** The checks every login goes through first. *)
Definition load_and_check (user : User.t) : M Auth.t User.t := fun s =>
  (user ← LoadAndApplyGroupSettings range (fun names => getGroupsWithNames names (Auth.db s)) user;
   _ ← CheckLoginConditions now user; Ok user, s).

(** [match, err := isPasswordOK(user, password); if !match { err = ErrInvalidCredentials }] *)
Definition password_or_invalid (user : User.t) (password : string) : M Auth.t User.t := fun s =>
  match isPasswordOK user password s with
  | (Ok true, s) => (Ok user, s)
  | (_, s) => (Err ErrInvalidCredentials, s)
  end.

(* source: internal/dataprovider/dataprovider.go checkUserAndPass *)
Definition checkUserAndPass (user : User.t) (password protocol : string) : M Auth.t User.t :=
  user ← load_and_check user;
  if negb (protocol =s protocolHTTP) && MustChangePassword user then fail (PlainError "login not allowed, password change required")
  else if BaseUserFilters.IsAnonymous (base_filters user) then mret (setAnonymousSettings user)
  else
    password ← (fun s => match checkUserPasscode user password protocol s with
                         | (Ok p, s) => (Ok p, s) | (Err _, s) => (Err ErrInvalidCredentials, s) end);
    if (User.Password user =s "") || (password =s "") then fail (PlainError "credentials cannot be null or empty")
    else if negb (BaseUserFilters.CheckPasswordDisabled (base_filters user)) then
      match executeCheckPasswordHook (User.Username user) password with
      | Err _ => fail (PlainError "unable to check credentials")
      | Ok (status, toVerify) =>
          if status =? -1 then password_or_invalid user password
          else if status =? 1 then mret user
          else if status =? 2 then password_or_invalid user toVerify
          else fail ErrInvalidCredentials
      end
    else password_or_invalid user password.

(** [ssh.ParseAuthorizedKey] and [Marshal]: the wire format and the comment of a
    stored key, and the fingerprint of a key. *)
Variable parse_key : string → res (string * string).
Variable fingerprint : string → string.
Fixpoint pubkeys_loop (user : User.t) (pubKey : string) (keys : list string) : res string :=
  match keys with
  | [] => Err ErrInvalidCredentials
  | k :: keys' =>
      '(wire, comment) ← parse_key k;
      if wire =s pubKey then Ok (fingerprint wire +:+ ":" +:+ comment) else pubkeys_loop user pubKey keys'
  end.
(* source: internal/dataprovider/dataprovider.go checkUserAndPubKey *)
Definition checkUserAndPubKey (user : User.t) (pubKey : string) (isSSHCert : bool) : M Auth.t (User.t * string) :=
  user ← load_and_check user;
  if isSSHCert then mret (user, "")
  else match User.PublicKeys user with
       | [] => fail ErrInvalidCredentials
       | keys => key ← lift (pubkeys_loop user pubKey keys); mret (user, key)
       end.

(** the bytes and the common name of the certificate of the client *)
(* source: internal/dataprovider/dataprovider.go checkUserAndTLSCertificate *)
Definition checkUserAndTLSCertificate (user : User.t) (protocol raw commonName : string) : M Auth.t User.t :=
  user ← load_and_check user;
  if (protocol =s protocolFTP) || (protocol =s protocolWebDAV) then
    if existsb (fun cert => match pem_Decode cert with Some der => der =s raw | None => false end)
         (BaseUserFilters.TLSCerts (base_filters user)) then mret user
    else if BaseUserFilters.TLSUsername (base_filters user) =s "CommonName" then
      if User.Username user =s commonName then mret user else fail (PlainError "CN does not match username")
    else fail (PlainError "TLS certificate is not valid")
  else fail (PlainError "certificate authentication is not supported for protocol").

(** ** Admins *)

(* source: internal/dataprovider/admin.go CheckPassword *)
Definition admin_CheckPassword (a : Admin.t) (password : string) : M Auth.t bool := fun s =>
  let '(found, matches, c) :=
    if PasswordCaching then cache_Check now (Admin.Username a) password (Admin.Password a) (Auth.cachedAdminPasswords s)
    else (false, false, Auth.cachedAdminPasswords s) in
  let s := s <| Auth.cachedAdminPasswords := c |> in
  let add (s : Auth.t) := s <| Auth.cachedAdminPasswords ::= cache_Add PasswordCaching now (Admin.Username a) password (Admin.Password a) |> in
  if found then (if matches then Ok true else Err ErrInvalidCredentials, s)
  else if has_prefix (Admin.Password a) bcryptPwdPrefix then
    if bcrypt_Compare (Admin.Password a) password then (Ok true, add s) else (Err ErrInvalidCredentials, s)
  else match argon2id_Compare (Admin.Password a) password with
       | Ok true => (Ok true, add s)
       | _ => (Err ErrInvalidCredentials, s)
       end.

(* source: internal/dataprovider/admin.go checkUserAndPass *)
Definition admin_checkUserAndPass (a : Admin.t) (password ip : string) : M Auth.t unit :=
  _ ← lift (admin_CanLogin a ip);
  if (Admin.Password a =s "") || (password =s "") then fail (PlainError "credentials cannot be null or empty")
  else ok ← admin_CheckPassword a password; if (ok : bool) then mret tt else fail ErrInvalidCredentials.

(** ** API keys and shares *)

(* source: internal/dataprovider/apikey.go Authenticate *)
Definition apikey_Authenticate (k : APIKey.t) (plainKey : string) : M Auth.t unit := fun s =>
  if (0 <? APIKey.ExpiresAt k) && (APIKey.ExpiresAt k <? now) then (Err (PlainError "API key is expired"), s)
  else
    let '(found, matches, c) :=
      if PasswordCaching then cache_Check now (APIKey.KeyID k) plainKey (APIKey.Key k) (Auth.cachedAPIKeys s)
      else (false, false, Auth.cachedAPIKeys s) in
    let s := s <| Auth.cachedAPIKeys := c |> in
    if found then (if matches then Ok tt else Err ErrInvalidCredentials, s)
    else
      let ok :=
        if has_prefix (APIKey.Key k) bcryptPwdPrefix then bcrypt_Compare (APIKey.Key k) plainKey
        else if has_prefix (APIKey.Key k) argonPwdPrefix then
          match argon2id_Compare (APIKey.Key k) plainKey with Ok true => true | _ => false end
        else true in
      if ok then (Ok tt, s <| Auth.cachedAPIKeys ::= cache_Add PasswordCaching now (APIKey.KeyID k) plainKey (APIKey.Key k) |>)
      else (Err ErrInvalidCredentials, s).

(* source: internal/dataprovider/share.go CheckCredentials *)
Definition share_CheckCredentials (sh : Share.t) (password : string) : res bool :=
  if Share.Password sh =s "" then Ok true
  else if password =s "" then Err ErrInvalidCredentials
  else if has_prefix (Share.Password sh) bcryptPwdPrefix then
    if bcrypt_Compare (Share.Password sh) password then Ok true else Err ErrInvalidCredentials
  else match argon2id_Compare (Share.Password sh) password with Ok true => Ok true | _ => Err ErrInvalidCredentials end.
End checks.

(** * The cache is sound *)

(** Every cached password was verified against the hash it is stored with. *)
Definition cache_sound (verified : string → string → Prop) (c : credentialsCache.t) : Prop :=
  ∀ u o, credentialsCache.cache c !! u = Some o →
    credentialObject.key o = u ∧ verified (credentialObject.hash o) (credentialObject.password o).

Section sound.
Context (verified : string → string → Prop).
Implicit Type c : credentialsCache.t.

Lemma cache_empty_sound n : cache_sound verified (credentialsCache.mk n ∅).
Proof. intros u o Ho. cbn in Ho. by apply lookup_empty_Some in Ho. Qed.

Lemma cache_Add_sound b now u p h c : cache_sound verified c → verified h p → cache_sound verified (cache_Add b now u p h c).
Proof.
  intros Hc Hv. unfold cache_Add. destruct (_ || _); [done|]. intros k o Ho. cbn in Ho.
  destruct (decide (u = k)) as [<-|Hne].
  - assert (Some (credentialObject.mk u h p now) = Some o) as [= <-] by (rewrite <-Ho; symmetry; apply lookup_insert_eq). done.
  - apply Hc. etrans; [symmetry; apply lookup_insert_ne; exact Hne|exact Ho].
Qed.

Lemma cache_Remove_sound b u c : cache_sound verified c → cache_sound verified (cache_Remove b u c).
Proof.
  intros Hc. unfold cache_Remove. destruct b; [|done]. intros k o Ho. apply Hc. cbn in Ho.
  by apply lookup_delete_Some in Ho as [_ ?].
Qed.

Lemma set_usedAt_sound u t c : cache_sound verified c → cache_sound verified (set_usedAt u t c).
Proof.
  intros Hc k o Ho. cbn in Ho. apply lookup_alter_Some in Ho as [(-> & o' & Ho & ->)|[_ Ho]]; [|by apply Hc].
  apply (Hc _ _ Ho).
Qed.

(** What a lookup says about the password. *)
Lemma cache_Check_spec now u p h c : cache_sound verified c → let '(found, matches, c') := cache_Check now u p h c in
  cache_sound verified c' ∧ (found = true → ∃ q, verified h q ∧ matches = (q =s p)).
Proof.
  intros Hc. unfold cache_Check. destruct (_ || _); [done|]. destruct (_ !! u) as [o|] eqn:Ho; [|done].
  destruct (String.eqb_spec (credentialObject.hash o) h) as [<-|]; cbn [negb]; [|split; [by apply set_usedAt_sound|done]].
  split; [destruct (_ =s p); [by apply set_usedAt_sound|done]|]. intros _. eexists. split; [apply (Hc _ _ Ho)|done].
Qed.
End sound.

(** The passwords that are right for a stored hash. *)
Definition user_verified `{Hashes} `{Settings} (stored password : string) : Prop := (verify_password stored password).1 = Ok true.
Definition admin_verified `{Hashes} (stored password : string) : Prop :=
  if has_prefix stored bcryptPwdPrefix then bcrypt_Compare stored password = true else argon2id_Compare stored password = Ok true.
Definition key_verified `{Hashes} (stored plainKey : string) : Prop :=
  if has_prefix stored bcryptPwdPrefix then bcrypt_Compare stored plainKey = true
  else has_prefix stored argonPwdPrefix = true → argon2id_Compare stored plainKey = Ok true.
(** A key with a hash; validate leaves none only where the key is empty. *)
Definition hashed (stored : string) : Prop := has_prefix stored bcryptPwdPrefix = true ∨ has_prefix stored argonPwdPrefix = true.
Definition expired (now : Z) (k : APIKey.t) : Prop := 0 < APIKey.ExpiresAt k < now.

Definition caches_sound `{Hashes} `{Settings} (s : Auth.t) : Prop :=
  cache_sound user_verified (Auth.cachedUserPasswords s) ∧ cache_sound admin_verified (Auth.cachedAdminPasswords s) ∧
  cache_sound key_verified (Auth.cachedAPIKeys s).

(** A result agrees with the verification of the password, and is that of the
    verification when no other password has the same hash. *)
Definition agrees (verified : string → string → Prop) (stored password : string) (accepted : bool) : Prop :=
  (accepted = true → verified stored password) ∧
  ((∀ q, verified stored q → q = password) → verified stored password → accepted = true).

Section sound_checks.
Context {S : Settings} {H : Hashes}.
Variable PasswordCaching : bool.
Variable now : Z.

Lemma found_agrees (verified : string → string → Prop) stored p matches :
  (∃ q, verified stored q ∧ matches = (q =s p)) → agrees verified stored p matches.
Proof.
  intros (q & Hq & ->). split; [by intros <-%String.eqb_eq|]. intros Hu _. rewrite (Hu q Hq). apply String.eqb_refl.
Qed.

Lemma verified_agrees (verified : string → string → Prop) {A} `{EqDecision A} stored p (x : A) :
  verified stored p → agrees verified stored p (bool_decide (x = x)).
Proof. intros Hv. by rewrite bool_decide_eq_true_2. Qed.
Lemma not_verified_agrees (verified : string → string → Prop) {A} `{EqDecision A} stored p (x y : A) :
  x ≠ y → ¬ verified stored p → agrees verified stored p (bool_decide (x = y)).
Proof. intros Hxy Hv. by rewrite bool_decide_eq_false_2. Qed.

Lemma isPasswordOK_agrees user p s : caches_sound s → let '(r, s') := isPasswordOK PasswordCaching now user p s in
  caches_sound s' ∧ agrees user_verified (User.Password user) p (bool_decide (r = Ok true)).
Proof.
  intros (H1 & H2 & H3). unfold isPasswordOK.
  pose proof (cache_Check_spec user_verified now (User.Username user) p (User.Password user) _ H1) as Hcheck.
  set (lookup := if PasswordCaching then _ else _). assert (let '(found, matches, c') := lookup in
    cache_sound user_verified c' ∧ (found = true → ∃ q, user_verified (User.Password user) q ∧ matches = (q =s p))) as Hl.
  { unfold lookup. by destruct PasswordCaching. }
  clearbody lookup. clear Hcheck. destruct lookup as [[found matches] c]. destruct Hl as [Hc Hf].
  destruct found.
  - split; [done|]. specialize (Hf eq_refl). apply found_agrees in Hf. destruct matches; [by rewrite bool_decide_eq_true_2|].
    by rewrite bool_decide_eq_false_2.
  - destruct (verify_password (User.Password user) p) as [r upd] eqn:Hv.
    assert (user_verified (User.Password user) p ↔ r = Ok true) as Hok by (unfold user_verified; by rewrite Hv).
    destruct r as [[]|]; [|by split; [done|]; apply not_verified_agrees; [|rewrite Hok]..].
    split; [|by apply verified_agrees, Hok]. destruct upd; split_and!; try done; (apply cache_Add_sound; [done|by apply Hok]).
Qed.

Lemma admin_CheckPassword_agrees a p s : caches_sound s → let '(r, s') := admin_CheckPassword PasswordCaching now a p s in
  caches_sound s' ∧ agrees admin_verified (Admin.Password a) p (bool_decide (r = Ok true)).
Proof.
  intros (H1 & H2 & H3). unfold admin_CheckPassword.
  pose proof (cache_Check_spec admin_verified now (Admin.Username a) p (Admin.Password a) _ H2) as Hcheck.
  set (lookup := if PasswordCaching then _ else _). assert (let '(found, matches, c') := lookup in
    cache_sound admin_verified c' ∧ (found = true → ∃ q, admin_verified (Admin.Password a) q ∧ matches = (q =s p))) as Hl.
  { unfold lookup. by destruct PasswordCaching. }
  clearbody lookup. clear Hcheck. destruct lookup as [[found matches] c]. destruct Hl as [Hc Hf].
  destruct found.
  - split; [done|]. specialize (Hf eq_refl). apply found_agrees in Hf. destruct matches; [by rewrite bool_decide_eq_true_2|].
    by rewrite bool_decide_eq_false_2.
  - assert (if has_prefix (Admin.Password a) bcryptPwdPrefix
            then admin_verified (Admin.Password a) p ↔ bcrypt_Compare (Admin.Password a) p = true
            else admin_verified (Admin.Password a) p ↔ argon2id_Compare (Admin.Password a) p = Ok true) as Hok.
    { unfold admin_verified. by destruct (has_prefix _ _). }
    destruct (has_prefix (Admin.Password a) bcryptPwdPrefix); [destruct (bcrypt_Compare _ p)|destruct (argon2id_Compare _ p) as [[]|]].
    all: try (by split; [done|]; apply not_verified_agrees; [|rewrite Hok]).
    all: split; [|by apply verified_agrees, Hok]; split_and!; try done; (apply cache_Add_sound; [done|by apply Hok]).
Qed.

Lemma apikey_Authenticate_agrees k p s : caches_sound s → ¬ expired now k →
  let '(r, s') := apikey_Authenticate PasswordCaching now k p s in
  caches_sound s' ∧ agrees key_verified (APIKey.Key k) p (bool_decide (r = Ok tt)).
Proof.
  intros (H1 & H2 & H3) Hexp. unfold apikey_Authenticate.
  assert ((0 <? APIKey.ExpiresAt k) && (APIKey.ExpiresAt k <? now) = false) as ->.
  { unfold expired in Hexp. destruct (Z.ltb_spec 0 (APIKey.ExpiresAt k)), (Z.ltb_spec (APIKey.ExpiresAt k) now); cbn; lia || done. }
  pose proof (cache_Check_spec key_verified now (APIKey.KeyID k) p (APIKey.Key k) _ H3) as Hcheck.
  set (lookup := if PasswordCaching then _ else _). assert (let '(found, matches, c') := lookup in
    cache_sound key_verified c' ∧ (found = true → ∃ q, key_verified (APIKey.Key k) q ∧ matches = (q =s p))) as Hl.
  { unfold lookup. by destruct PasswordCaching. }
  clearbody lookup. clear Hcheck. destruct lookup as [[found matches] c]. destruct Hl as [Hc Hf].
  destruct found.
  - split; [by destruct matches|]. specialize (Hf eq_refl). apply found_agrees in Hf. destruct matches; [by rewrite bool_decide_eq_true_2|].
    by rewrite bool_decide_eq_false_2.
  - cbv zeta. set (ok := if has_prefix _ bcryptPwdPrefix then _ else _).
    assert (ok = true ↔ key_verified (APIKey.Key k) p) as Hok.
    { unfold ok, key_verified. destruct (has_prefix _ bcryptPwdPrefix); [done|]. destruct (has_prefix _ argonPwdPrefix); [|done].
      destruct (argon2id_Compare _ p) as [[]|]; split; try done; intros Hx; by specialize (Hx eq_refl). }
    clearbody ok. destruct ok.
    + split; [|rewrite bool_decide_eq_true_2 by done; split; [intros _; by apply Hok|done]].
      split_and!; [done|done|apply cache_Add_sound; [done|by apply Hok]].
    + split; [done|]. rewrite bool_decide_eq_false_2 by done. split; [done|]. intros _ Hv. by apply Hok in Hv.
Qed.

(** A key with a hash, before and after it expires. *)
Lemma apikey_Authenticate_hashed k p s : caches_sound s →
  let '(r, s') := apikey_Authenticate PasswordCaching now k p s in
  caches_sound s' ∧ (hashed (APIKey.Key k) →
    agrees (fun h q => ¬ expired now k ∧ admin_verified h q) (APIKey.Key k) p (bool_decide (r = Ok tt))).
Proof.
  intros Hs. destruct (decide (0 < APIKey.ExpiresAt k ∧ APIKey.ExpiresAt k < now)) as [He|He].
  - unfold apikey_Authenticate. rewrite (proj2 (Z.ltb_lt _ _) (proj1 He)), (proj2 (Z.ltb_lt _ _) (proj2 He)). split; [done|].
    intros _. split; [done|]. by intros _ [Hn _].
  - pose proof (apikey_Authenticate_agrees k p s Hs He) as H1. destruct (apikey_Authenticate _ _ k p s) as [r s'].
    destruct H1 as [H1 [H2 H3]]. split; [done|]. intros Hh.
    assert (∀ q, key_verified (APIKey.Key k) q ↔ admin_verified (APIKey.Key k) q) as Hiff.
    { intros q. unfold key_verified, admin_verified. destruct Hh as [->| Hh]; [done|]. destruct (has_prefix _ bcryptPwdPrefix); [done|]. tauto. }
    split; [intros Hr; split; [done|by apply Hiff, H2]|]. intros Hu [_ Hv]. apply H3; [|by apply Hiff].
    intros q Hq. apply Hu. split; [done|by apply Hiff].
Qed.
End sound_checks.

(** C36: With the caches of verified credentials every check keeps its meaning:
    a password or the hashed key of an API key that has not expired is accepted
    only if it verifies against the stored hash, also when the hash was changed
    after the password was cached, and it is accepted whenever it verifies and
    no other text has the same hash; and the caches still hold only verified
    credentials afterwards.  An API key stored without a hash is not checked at
    all and not covered. *)
Theorem cached_credentials_agree {S : Settings} {H : Hashes} caching now s : caches_sound s →
  (∀ user p, let '(r, s') := isPasswordOK caching now user p s in
     caches_sound s' ∧ agrees user_verified (User.Password user) p (bool_decide (r = Ok true))) ∧
  (∀ a p, let '(r, s') := admin_CheckPassword caching now a p s in
     caches_sound s' ∧ agrees admin_verified (Admin.Password a) p (bool_decide (r = Ok true))) ∧
  (∀ k p, let '(r, s') := apikey_Authenticate caching now k p s in
     caches_sound s' ∧ (hashed (APIKey.Key k) →
       agrees (fun h q => ¬ expired now k ∧ admin_verified h q) (APIKey.Key k) p (bool_decide (r = Ok tt)))).
Proof.
  intros Hs. split_and!; [intros; by apply isPasswordOK_agrees|intros; by apply admin_CheckPassword_agrees|].
  intros. by apply apikey_Authenticate_hashed.
Qed.

(** An API key without a key, which validate accepts when an identifier is
    given, is not a password that nobody knows: whatever key a client sends
    with the identifier authenticates. *)
Theorem empty_api_key_authenticates {S : Settings} {H : Hashes} k keyID key h caching now plainKey s :
  APIKey.Name k ≠ "" → APIKey.Scope k = APIKeyScopeUser → APIKey.User k = "" → APIKey.Admin k = "" →
  APIKey.KeyID k ≠ "" → APIKey.Key k = "" → APIKey.ExpiresAt k = 0 →
  apikey_validate keyID key k h = Ok k ∧ (apikey_Authenticate caching now k plainKey s).1 = Ok tt.
Proof.
  intros Hn Hs Hu Ha Hid Hk He. split.
  - unfold apikey_validate, generateKey, hashKey, must_hash. destruct k; cbn in *; subst.
    destruct (String.eqb_spec Name ""), (String.eqb_spec KeyID ""); done.
  - unfold apikey_Authenticate. rewrite He, Hk. cbn [Z.ltb andb Z.compare]. unfold cache_Check. rewrite !orb_true_r.
    by destruct caching.
Qed.

(** * Cleanup *)

Lemma delete_all (keys : list string) : ∀ m : gmap string credentialObject.t, NoDup keys → (∀ k, k ∈ keys → is_Some (m !! k)) →
  let m' := foldl (fun m k => delete k m) m keys in
  size m' = (size m - length keys)%nat ∧ ∀ k o, m' !! k = Some o ↔ m !! k = Some o ∧ k ∉ keys.
Proof.
  induction keys as [|k keys IH]; intros m Hnd Hin; cbn.
  { split; [lia|]. intros k o. split; [intros ?; split; [done|apply not_elem_of_nil]|by intros [? _]]. }
  apply NoDup_cons in Hnd as [Hk Hnd]. destruct (IH (delete k m) Hnd) as [H1 H2].
  { intros j Hj. rewrite lookup_delete_ne by (by intros ->). apply Hin. by right. }
  split.
  - rewrite H1, map_size_delete_Some by (apply Hin; by left). lia.
  - intros j o. rewrite H2, lookup_delete_Some, not_elem_of_cons. naive_solver.
Qed.

Lemma keyed_values_keys (m : gmap string credentialObject.t) l : (∀ k o, m !! k = Some o → credentialObject.key o = k) →
  l ≡ₚ (map_to_list m).*2 → credentialObject.key <$> l ≡ₚ (map_to_list m).*1.
Proof.
  intros Hk ->. rewrite <-list_fmap_compose. assert (∀ A (a b : list A), a = b → a ≡ₚ b) as Heq by (by intros ??? ->). apply Heq, list_fmap_ext. intros i [k o] Hi. cbn.
  apply list_elem_of_lookup_2, elem_of_map_to_list in Hi. by apply Hk.
Qed.

(** Deleting the first [n] entries in the order of their last use. *)
Lemma drop_oldest (m : gmap string credentialObject.t) creds n : (∀ k o, m !! k = Some o → credentialObject.key o = k) →
  creds ≡ₚ (map_to_list m).*2 → StronglySorted used_le creds → (n <= size m)%nat →
  let m' := foldl (fun m v => delete (credentialObject.key v) m) m (take n creds) in
  m' ⊆ m ∧ size m' = (size m - n)%nat ∧
  ∀ k o j x, m' !! k = Some o → m !! j = Some x → m' !! j = None → credentialObject.usedAt x <= credentialObject.usedAt o.
Proof.
  intros Hkeyed Hperm Hsorted Hn. cbv zeta.
  assert (∀ l m0, foldl (fun m v => delete (credentialObject.key v) m) m0 l = foldl (fun m k => delete k m) m0 (credentialObject.key <$> l)) as ->.
  { induction l as [|v l IH]; intros m0; [done|]. apply IH. }
  pose proof (keyed_values_keys m creds Hkeyed Hperm) as Hkeys.
  assert (∀ v, v ∈ creds → m !! credentialObject.key v = Some v) as Hcreds.
  { intros v Hv. rewrite Hperm in Hv. apply list_elem_of_fmap in Hv as ([k o] & -> & Hko). apply elem_of_map_to_list in Hko.
    cbn. by rewrite (Hkeyed k o Hko). }
  assert (NoDup (credentialObject.key <$> creds)) as Hnd by (rewrite Hkeys; apply NoDup_fst_map_to_list).
  rewrite <-(take_drop n creds), fmap_app in Hnd. apply NoDup_app in Hnd as (Hnd & Hdisj & _).
  destruct (delete_all (credentialObject.key <$> take n creds) m Hnd) as [Hsize Hlook].
  { intros k (v & -> & Hv)%list_elem_of_fmap. rewrite Hcreds; [eauto|]. rewrite <-(take_drop n creds). set_solver. }
  assert (length creds = size m) as Hlen by (by rewrite Hperm, length_fmap, length_map_to_list).
  rewrite length_fmap, length_take, Hlen, Nat.min_l in Hsize by done.
  set (m' := foldl _ _ _) in *. clearbody m'. split_and!; [|done|].
  - apply map_subseteq_spec. intros k o Ho. by apply Hlook in Ho as [? _].
  - intros k o j x Ho Hx Hnone. apply Hlook in Ho as [Ho Hk].
    assert (∀ i y, m !! i = Some y → y ∈ creds) as Hall.
    { intros i y Hy. rewrite Hperm. apply list_elem_of_fmap. exists (i, y). split; [done|]. by apply elem_of_map_to_list. }
    pose proof (Hall k o Ho) as Hoin. pose proof (Hall j x Hx) as Hxin. rewrite <-(take_drop n creds) in Hoin, Hxin, Hsorted.
    apply elem_of_app in Hoin as [Hoin|Hoin], Hxin as [Hxin|Hxin].
    + exfalso. apply Hk. apply list_elem_of_fmap. exists o. by rewrite (Hkeyed k o Ho).
    + exfalso. apply Hk. apply list_elem_of_fmap. exists o. by rewrite (Hkeyed k o Ho).
    + by apply (StronglySorted_app_1_elem_of _ _ _ x o Hsorted).
    + exfalso. rewrite (proj2 (Hlook j x)) in Hnone; [done|]. split; [done|]. intros (v & Hv & Hvin)%list_elem_of_fmap.
      apply (Hdisj j); [rewrite Hv; by apply list_elem_of_fmap_2|]. apply list_elem_of_fmap. exists x. by rewrite (Hkeyed j x Hx).
Qed.


(** * Examples *)

(** A hash is the reversed password after the prefix of the algorithm. *)
Definition sample_hashes : Hashes := {|
  bcrypt_Compare h p := h =s ("$2a$" +:+ string_rev p); argon2id_Compare h p := Ok (h =s ("$argon2id$" +:+ string_rev p));
  yescrypt_Compare h p := Ok false; sha512_crypt_Verify h p := false; sha256_crypt_Verify h p := false;
  md5_crypt_Verify h p := false; apr1_crypt_Verify h p := false; md5_hex p := "0"; sha256_hex p := "0"; sha512_hex p := "0";
  pbkdf2_Key p salt n len d := "" |}.
Definition empty_caches : Auth.t := Auth.mk DB.init (initial_caches.1.1) (initial_caches.1.2) (initial_caches.2) (MFA.mk [] false ∅).

Section examples.
#[local] Existing Instance sample_hashes.

Lemma empty_caches_sound (S : Settings) : caches_sound empty_caches.
Proof. split_and!; apply cache_empty_sound. Qed.

Definition bob : Admin.t := Admin.zero <| Admin.Username := "bob" |> <| Admin.Password := "$2a$terces" |>.
(** The password is cached by the first check and answers the second one. *)
Lemma cached_credentials_agree_witness (S := ValidateUserProps.sample_settings) :
  let s' := (admin_CheckPassword true 0 bob "secret" empty_caches).2 in
  (admin_CheckPassword true 0 bob "secret" empty_caches).1 = Ok true ∧ caches_sound s' ∧
  cache_Check 0 "bob" "secret" "$2a$terces" (Auth.cachedAdminPasswords s') = (true, true, Auth.cachedAdminPasswords s').
Proof.
  intros s'. pose proof (proj1 (proj2 (cached_credentials_agree true 0 empty_caches (empty_caches_sound S))) bob "secret") as H.
  assert (admin_CheckPassword true 0 bob "secret" empty_caches = (Ok true, s')) as He by (vm_compute; reflexivity).
  rewrite He in H. refine (conj _ (conj (proj1 H) _)); vm_compute; reflexivity.
Defined.

Lemma empty_api_key_authenticates_witness (S := ValidateUserProps.sample_settings) :
  let k := APIKey.zero <| APIKey.Name := "backup" |> <| APIKey.Scope := APIKeyScopeUser |> <| APIKey.KeyID := "id" |> in
  apikey_validate "new" "new" k DB.init = Ok k ∧ (apikey_Authenticate true 0 k "anything" empty_caches).1 = Ok tt.
Proof. intros k. apply (empty_api_key_authenticates k); reflexivity || discriminate. Defined.

End examples.
