(* ===== verification/ProviderApi.v ===== *)
(** The functions of the data provider the other packages call
    (internal/dataprovider/dataprovider.go) and the cache of WebDAV users
    (cacheduser.go): names are converted, the in-memory provider does the work,
    the caches follow and the change is announced.

    What is announced to the plugins, the event manager and the hooks, and what
    the REST API asks of other packages, is recorded in [announced]. *)
From S2P Require Import Prelude Util Net FsConfig FsValidate Entities Links Tables MemoryCore MemoryOps UserPerms GroupMerge MemoryQueries ValidateUser ValidateObjects IPLists IPListSync Quota Credentials.
Open Scope Z_scope.

(** * The cache of WebDAV users *)

Module CachedUser.
(** No expiration is the zero time; the lock system is kept by its identity. *)
(* source: internal/dataprovider/cacheduser.go CachedUser *)
Record t := mk { User : Entities.User.t; Expiration : option Z; Password : string; LockSystem : Z }.
#[global] Instance eta : Settable t := {| settable := fun x => mk (User x) (Expiration x) (Password x) (LockSystem x) |}.
End CachedUser.
Module usersCache.
(* source: internal/dataprovider/cacheduser.go usersCache *)
Record t := mk { users : gmap string CachedUser.t; maxSize : Z }.
#[global] Instance eta : Settable t := {| settable := fun x => mk (users x) (maxSize x) |}.
End usersCache.

(* source: internal/dataprovider/cacheduser.go IsExpired *)
Definition cached_IsExpired (now : Z) (c : CachedUser.t) : bool :=
  match CachedUser.Expiration c with None => false | Some e => e <? now end.
(* source: internal/dataprovider/cacheduser.go usersCache.updateLastLogin *)
Definition cache_updateLastLogin (now : Z) (username : string) (c : usersCache.t) : usersCache.t :=
  c <| usersCache.users ::= alter (fun cu => cu <| CachedUser.User ::= fun u => u <| User.LastLogin := now |> |>) username |>.
(* source: internal/dataprovider/user.go isFsEqual *)
Definition isFsEqual (u other : User.t) : bool :=
  negb ((Filesystem.Provider (User.FsConfig u) =? LocalFilesystemProvider) && negb (User.HomeDir u =s User.HomeDir other)) &&
  fs_IsEqual (User.FsConfig u) (User.FsConfig other) &&
  (BaseUserFilters.StartDirectory (base_filters u) =s BaseUserFilters.StartDirectory (base_filters other)) &&
  (length (User.VirtualFolders u) =? length (User.VirtualFolders other))%nat &&
  forallb (fun f =>
    let same := List.filter (fun f1 => VirtualFolder.VirtualPath f =s VirtualFolder.VirtualPath f1) (User.VirtualFolders other) in
    negb (bool_decide (same = [])) &&
    forallb (fun f1 =>
      negb ((Filesystem.Provider (vfolder_FsConfig f) =? LocalFilesystemProvider) &&
            negb (BaseVirtualFolder.MappedPath (VirtualFolder.Base f) =s BaseVirtualFolder.MappedPath (VirtualFolder.Base f1))) &&
      fs_IsEqual (vfolder_FsConfig f) (vfolder_FsConfig f1)) same) (User.VirtualFolders u).
(** [loaded] is the copy of the user with the settings of its groups *)
(* source: internal/dataprovider/cacheduser.go swap *)
Definition cache_swap (username : string) (loaded : res User.t) (plainPassword : string) (c : usersCache.t) : usersCache.t :=
  match usersCache.users c !! username with
  | None => c
  | Some cachedUser =>
      let drop := c <| usersCache.users ::= delete username |> in
      match loaded with
      | Err _ => drop
      | Ok user =>
          if (plainPassword =s "") && negb (User.Password (CachedUser.User cachedUser) =s User.Password user) then drop
          else
            let cachedUser' := if plainPassword =s "" then cachedUser else cachedUser <| CachedUser.Password := plainPassword |> in
            if isFsEqual (CachedUser.User cachedUser) user
            then c <| usersCache.users ::= <[username := cachedUser' <| CachedUser.User := user |>]> |>
            else drop
      end
  end.
(** the loop that chooses the user to remove, over the users in the order of a
    range; the zero time is before no other *)
Definition cache_victim (users : list (string * CachedUser.t)) : string :=
  (foldl (fun '(victim, time) '(k, v) =>
     if victim =s "" then (k, CachedUser.Expiration v)
     else match CachedUser.Expiration v, time with
          | Some e, Some t => if e <? t then (k, Some e) else (victim, time)
          | _, _ => (victim, time)
          end) ("", None) users).1.
(* source: internal/dataprovider/cacheduser.go usersCache.add *)
Definition usersCache_add (range : gmap string CachedUser.t → list (string * CachedUser.t)) (cachedUser : CachedUser.t) (c : usersCache.t) : usersCache.t :=
  let c := if (0 <? usersCache.maxSize c) && (usersCache.maxSize c <=? Z.of_nat (size (usersCache.users c)))
           then c <| usersCache.users ::= delete (cache_victim (range (usersCache.users c))) |> else c in
  let username := User.Username (CachedUser.User cachedUser) in
  if username =s "" then c else c <| usersCache.users ::= <[username := cachedUser]> |>.
(* source: internal/dataprovider/cacheduser.go usersCache.remove *)
Definition usersCache_remove (username : string) (c : usersCache.t) : usersCache.t := c <| usersCache.users ::= delete username |>.
(* source: internal/dataprovider/cacheduser.go usersCache.get *)
Definition usersCache_get (username : string) (c : usersCache.t) : option CachedUser.t := usersCache.users c !! username.

(** * The state behind the functions *)

Definition operationAdd : string := "add".
Definition operationUpdate : string := "update".
Definition operationDelete : string := "delete".
Definition actionObjectUser : string := "user".
Definition actionObjectFolder : string := "folder".
Definition actionObjectGroup : string := "group".
Definition actionObjectAdmin : string := "admin".
Definition actionObjectAPIKey : string := "api_key".
Definition actionObjectShare : string := "share".
Definition actionObjectEventRule : string := "event_rule".
Definition actionObjectEventAction : string := "event_action".
Definition actionObjectRole : string := "role".
Definition actionObjectConfigs : string := "configs".
Definition actionObjectIPListEntry : string := "ip_list_entry".

Inductive announcement :=
  | Action (operation executor ip objectType objectName role : string)   (* [executeAction] *)
  | ReloadRules                                                          (* [fnReloadRules] *)
  | RemovedRule (name : string)                                          (* [fnRemoveRule] *)
  | Disconnect (username : string)                                       (* [disconnectUser] *)
  | ScanUser (username role : string)                                    (* [QuotaScans.AddUserQuotaScan] *)
  | ScanFolder (name : string).                                          (* [QuotaScans.AddVFolderQuotaScan] *)

Module Api.
Section state.
Context {R : Ranger}.
Record t := mk {
  quotas : Quotas.t;
  cachedUserPasswords : credentialsCache.t;
  cachedAdminPasswords : credentialsCache.t;
  cachedAPIKeys : credentialsCache.t;
  webDAVUsersCache : usersCache.t;
  isAdminCreated : bool;
  inMemoryLists : gmap Z IPList.t;
  announced : list announcement;
}.
#[global] Instance eta : Settable t := {| settable := fun x =>
  mk (quotas x) (cachedUserPasswords x) (cachedAdminPasswords x) (cachedAPIKeys x) (webDAVUsersCache x) (isAdminCreated x) (inMemoryLists x) (announced x) |}.
End state.
End Api.
Notation api := (M Api.t).

(** who asks for a change, from where *)
Module By.
Record t := mk { executor : string; ip : string; role : string }.
End By.

Section provider.
Context {K : Kms} {Cfg : Settings} {R : Ranger}.
Context `{!Validate User.t, !Validate Group.t, !Validate Admin.t, !Validate Role.t,
  !Validate BaseVirtualFolder.t, !Validate APIKey.t, !Validate Share.t, !Validate BaseEventAction.t,
  !Validate EventRule.t, !Validate IPListEntry.t, !Validate Configs.t}.
Variable now : nat → Z.
Variable range : gmap string (list string) → list (string * list string).
(** [config.PasswordCaching] *)
Variable PasswordCaching : bool.
Implicit Types who : By.t.

(** a method of the provider *)
Definition on_db {A} (m : prov A) : api A := fun s =>
  let '(r, h) := m (Quotas.db (Api.quotas s)) in (r, s <| Api.quotas ::= fun q => q <| Quotas.db := h |> |>).
Definition read_db {A} (f : DB.t → res A) : api A := fun s => (f (Quotas.db (Api.quotas s)), s).
Definition announce (a : announcement) : api unit := modify (fun s => s <| Api.announced ::= fun l => l ++ [a] |>).
(* source: internal/dataprovider/actions.go#L63-L77 executeAction *)
Definition executeAction (operation : string) who (objectType objectName : string) : api unit :=
  announce (Action operation (By.executor who) (By.ip who) objectType objectName (By.role who)).
Definition on_webdav (f : usersCache.t → usersCache.t) : api unit := modify (fun s => s <| Api.webDAVUsersCache ::= f |>).
(* source: internal/dataprovider/cacheduser.go RemoveCachedWebDAVUser *)
Definition RemoveCachedWebDAVUser (username : string) : api unit := on_webdav (usersCache_remove username).
(** [webDAVUsersCache.swap(&user, plainPassword)] *)
Definition swap_user (user : User.t) (plainPassword : string) : api unit := fun s =>
  let loaded := LoadAndApplyGroupSettings range (fun names => getGroupsWithNames names (Quotas.db (Api.quotas s))) user in
  on_webdav (cache_swap (User.Username user) loaded plainPassword) s.
Fixpoint each_user (f : string → api unit) (users : list string) : api unit :=
  match users with [] => mret tt | user :: users => _ ← f user; each_user f users end.
(** [provider.setUpdatedAt(user)], whose error is ignored, and the user if it exists *)
Definition touched (user : string) : api (option User.t) :=
  _ ← ignore (on_db (setUpdatedAt now user));
  try_catch (read_db (userExists user "")) (fun u => mret (Some u)) (fun _ => mret None).
Definition announce_user who (u : User.t) : api unit :=
  announce (Action operationUpdate (By.executor who) (By.ip who) actionObjectUser (User.Username u) (User.Role u)).

(** ** Shares, keys and configurations *)

(* source: internal/dataprovider/dataprovider.go UpdateConfigs *)
Definition Api_UpdateConfigs (configs : option Configs.t) who : api unit :=
  let configs := match configs with None => Configs.zero | Some c => c <| Configs.UpdatedAt := now 0%nat |> end in
  _ ← on_db (setConfigs configs);
  executeAction operationUpdate who actionObjectConfigs "configs".
(* source: internal/dataprovider/dataprovider.go AddShare *)
Definition Api_AddShare (share : Share.t) who : api unit :=
  share ← on_db (addShare now share); executeAction operationAdd who actionObjectShare (Share.ShareID share).
(* source: internal/dataprovider/dataprovider.go UpdateShare *)
Definition Api_UpdateShare (share : Share.t) who : api unit :=
  share ← on_db (updateShare now share); executeAction operationUpdate who actionObjectShare (Share.ShareID share).
(** the executor has to own the share *)
(* source: internal/dataprovider/dataprovider.go DeleteShare *)
Definition Api_DeleteShare (shareID : string) who : api unit :=
  share ← read_db (shareExists shareID (By.executor who));
  _ ← on_db (deleteShare share);
  executeAction operationDelete who actionObjectShare shareID.
(* source: internal/dataprovider/dataprovider.go ShareExists *)
Definition Api_ShareExists (shareID username : string) (h : DB.t) : res Share.t :=
  if shareID =s "" then Err (RecordNotFoundError "Share" shareID) else shareExists shareID username h.
(* source: internal/dataprovider/dataprovider.go AddAPIKey *)
Definition Api_AddAPIKey (apiKey : APIKey.t) who : api unit :=
  apiKey ← on_db (addAPIKey now apiKey); executeAction operationAdd who actionObjectAPIKey (APIKey.KeyID apiKey).
(* source: internal/dataprovider/dataprovider.go UpdateAPIKey *)
Definition Api_UpdateAPIKey (apiKey : APIKey.t) who : api unit :=
  apiKey ← on_db (updateAPIKey now apiKey); executeAction operationUpdate who actionObjectAPIKey (APIKey.KeyID apiKey).
(* source: internal/dataprovider/dataprovider.go DeleteAPIKey *)
Definition Api_DeleteAPIKey (keyID : string) who : api unit :=
  apiKey ← read_db (apiKeyExists keyID);
  _ ← on_db (deleteAPIKey apiKey);
  _ ← executeAction operationDelete who actionObjectAPIKey (APIKey.KeyID apiKey);
  modify (fun s => s <| Api.cachedAPIKeys ::= cache_Remove PasswordCaching keyID |>).
(* source: internal/dataprovider/dataprovider.go APIKeyExists *)
Definition Api_APIKeyExists (keyID : string) (h : DB.t) : res APIKey.t :=
  if keyID =s "" then Err (RecordNotFoundError "API key" keyID) else apiKeyExists keyID h.

(** ** Roles *)

Definition referenced (what name : string) : error := ValidationError (what +:+ " " +:+ name +:+ " is referenced, it cannot be removed").
(* source: internal/dataprovider/dataprovider.go AddRole *)
Definition Api_AddRole (role : Role.t) who : api unit :=
  role ← on_db (addRole now (role <| Role.Name ::= convertName |>)); executeAction operationAdd who actionObjectRole (Role.Name role).
(* source: internal/dataprovider/dataprovider.go UpdateRole *)
Definition Api_UpdateRole (role : Role.t) who : api unit :=
  role ← on_db (updateRole now role); executeAction operationUpdate who actionObjectRole (Role.Name role).
(* source: internal/dataprovider/dataprovider.go DeleteRole *)
Definition Api_DeleteRole (name : string) who : api unit :=
  role ← read_db (roleExists (convertName name));
  _ ← lift (refuse (negb (bool_decide (Role.Admins role = []))) (referenced "role" (Role.Name role)));
  _ ← on_db (deleteRole role);
  _ ← executeAction operationDelete who actionObjectRole (Role.Name role);
  each_user (fun user =>
    u ← touched user;
    match u with
    | Some u => _ ← swap_user u ""; announce_user who u
    | None => mret tt
    end) (Role.Users role).

(** ** Groups *)

(* source: internal/dataprovider/dataprovider.go AddGroup *)
Definition Api_AddGroup (group : Group.t) who : api unit :=
  group ← on_db (addGroup now (group <| Group.Name ::= convertName |>)); executeAction operationAdd who actionObjectGroup (Group.Name group).
(* source: internal/dataprovider/dataprovider.go UpdateGroup *)
Definition Api_UpdateGroup (group : Group.t) (users : list string) who : api unit :=
  group ← on_db (updateGroup now group);
  _ ← each_user (fun user =>
        u ← touched user;
        match u with Some u => swap_user u "" | None => RemoveCachedWebDAVUser user end) users;
  executeAction operationUpdate who actionObjectGroup (Group.Name group).
(* source: internal/dataprovider/dataprovider.go DeleteGroup *)
Definition Api_DeleteGroup (name : string) who : api unit :=
  group ← read_db (groupExists (convertName name));
  _ ← lift (refuse (negb (bool_decide (Group.Users group = []))) (referenced "group" (Group.Name group)));
  _ ← on_db (deleteGroup group);
  _ ← each_user (fun user =>
        u ← touched user;
        _ ← (match u with Some u => announce_user who u | None => mret tt end);
        RemoveCachedWebDAVUser user) (Group.Users group);
  executeAction operationDelete who actionObjectGroup (Group.Name group).

(** ** Event actions and rules *)

(* source: internal/dataprovider/dataprovider.go AddEventAction *)
Definition Api_AddEventAction (action : BaseEventAction.t) who : api unit :=
  action ← on_db (addEventAction (action <| BaseEventAction.Name ::= convertName |>));
  executeAction operationAdd who actionObjectEventAction (BaseEventAction.Name action).
(* source: internal/dataprovider/dataprovider.go UpdateEventAction *)
Definition Api_UpdateEventAction (action : BaseEventAction.t) who : api unit :=
  action ← on_db (updateEventAction now action);
  _ ← announce ReloadRules;
  executeAction operationUpdate who actionObjectEventAction (BaseEventAction.Name action).
(* source: internal/dataprovider/dataprovider.go DeleteEventAction *)
Definition Api_DeleteEventAction (name : string) who : api unit :=
  action ← read_db (eventActionExists (convertName name));
  _ ← lift (refuse (negb (bool_decide (BaseEventAction.Rules action = []))) (referenced "event action" (BaseEventAction.Name action)));
  _ ← on_db (deleteEventAction action);
  executeAction operationDelete who actionObjectEventAction (BaseEventAction.Name action).
(* source: internal/dataprovider/dataprovider.go AddEventRule *)
Definition Api_AddEventRule (rule : EventRule.t) who : api unit :=
  rule ← on_db (addEventRule now (rule <| EventRule.Name ::= convertName |>));
  _ ← announce ReloadRules;
  executeAction operationAdd who actionObjectEventRule (EventRule.Name rule).
(* source: internal/dataprovider/dataprovider.go UpdateEventRule *)
Definition Api_UpdateEventRule (rule : EventRule.t) who : api unit :=
  rule ← on_db (updateEventRule now rule);
  _ ← announce ReloadRules;
  executeAction operationUpdate who actionObjectEventRule (EventRule.Name rule).
(* source: internal/dataprovider/dataprovider.go DeleteEventRule *)
Definition Api_DeleteEventRule (name : string) who : api unit :=
  rule ← read_db (eventRuleExists (convertName name));
  _ ← on_db (deleteEventRule now rule);
  _ ← announce (RemovedRule (EventRule.Name rule));
  executeAction operationDelete who actionObjectEventRule (EventRule.Name rule).

(** ** Admins *)

(* source: internal/dataprovider/dataprovider.go AddAdmin *)
Definition Api_AddAdmin (admin : Admin.t) who : api Admin.t :=
  let admin := admin <| Admin.Filters ::= fun f =>
                 f <| AdminFilters.RecoveryCodes := [] |> <| AdminFilters.TOTPConfig := AdminTOTPConfig.zero |> |> in
  admin ← on_db (addAdmin now (admin <| Admin.Username ::= convertName |>));
  _ ← modify (fun s => s <| Api.isAdminCreated := true |>);
  _ ← executeAction operationAdd who actionObjectAdmin (Admin.Username admin);
  mret admin.
(* source: internal/dataprovider/dataprovider.go UpdateAdmin *)
Definition Api_UpdateAdmin (admin : Admin.t) who : api Admin.t :=
  admin ← on_db (updateAdmin now admin);
  _ ← executeAction operationUpdate who actionObjectAdmin (Admin.Username admin);
  mret admin.
(* source: internal/dataprovider/dataprovider.go DeleteAdmin *)
Definition Api_DeleteAdmin (username : string) who : api unit :=
  let username := convertName username in
  admin ← read_db (adminExists username);
  _ ← on_db (deleteAdmin admin);
  _ ← executeAction operationDelete who actionObjectAdmin (Admin.Username admin);
  modify (fun s => s <| Api.cachedAdminPasswords ::= cache_Remove PasswordCaching username |>).
(* source: internal/dataprovider/dataprovider.go AdminExists *)
Definition Api_AdminExists (username : string) (h : DB.t) : res Admin.t := adminExists (convertName username) h.
(* source: internal/dataprovider/dataprovider.go HasAdmin *)
Definition HasAdmin (s : Api.t) : bool := Api.isAdminCreated s.

(** ** Users *)

(* source: internal/dataprovider/dataprovider.go UserExists *)
Definition Api_UserExists (username role : string) (h : DB.t) : res User.t := userExists (convertName username) role h.
Definition load_settings (user : User.t) (h : DB.t) : res User.t :=
  LoadAndApplyGroupSettings range (fun names => getGroupsWithNames names h) user.
(* source: internal/dataprovider/dataprovider.go GetUserWithGroupSettings *)
Definition GetUserWithGroupSettings (username role : string) (h : DB.t) : res User.t :=
  user ← userExists (convertName username) role h; load_settings user h.
(* source: internal/dataprovider/dataprovider.go GetUserVariants *)
Definition GetUserVariants (username role : string) (h : DB.t) : res (User.t * User.t) :=
  user ← userExists (convertName username) role h;
  userWithGroupSettings ← load_settings (user_getACopy user) h;
  Ok (user, userWithGroupSettings).
(* source: internal/dataprovider/dataprovider.go AddUser *)
Definition Api_AddUser (user : User.t) who : api User.t :=
  user ← on_db (addUser now (user <| User.Username ::= convertName |>));
  _ ← executeAction operationAdd who actionObjectUser (User.Username user);
  mret user.
(** the name is not converted here *)
(* source: internal/dataprovider/dataprovider.go UpdateUserPassword *)
Definition UpdateUserPassword (username plainPwd : string) who : api unit :=
  user ← read_db (userExists username (By.role who));
  userCopy ← read_db (load_settings (user_getACopy user));
  userCopy ← lift (createUserPasswordHash (now 0%nat) (userCopy <| User.Password := plainPwd |>));
  let user := user <| User.LastPasswordChange := User.LastPasswordChange userCopy |>
                <| User.Password := User.Password userCopy |>
                <| User.Filters ::= fun f => f <| UserFilters.RequirePasswordChange := false |> |> in
  user ← on_db (updateUser now user);
  _ ← swap_user user plainPwd;
  executeAction operationUpdate who actionObjectUser username.
(* source: internal/dataprovider/dataprovider.go UpdateUser *)
Definition Api_UpdateUser (user : User.t) who : api User.t :=
  _ ← lift (refuse (User.groupSettingsApplied user) (PlainError "cannot save a user with group settings applied"));
  user ← on_db (updateUser now user);
  _ ← swap_user user "";
  _ ← executeAction operationUpdate who actionObjectUser (User.Username user);
  mret user.
Definition on_quotas {A} (m : M Quotas.t A) : api A := fun s =>
  let '(r, q) := m (Api.quotas s) in (r, s <| Api.quotas := q |>).
(* source: internal/dataprovider/dataprovider.go DeleteUser *)
Definition Api_DeleteUser (username : string) who : api unit :=
  let username := convertName username in
  user ← read_db (userExists username (By.role who));
  _ ← on_db (deleteUser user);
  _ ← RemoveCachedWebDAVUser (User.Username user);
  _ ← on_quotas (resetUserQuota (User.Username user));
  _ ← modify (fun s => s <| Api.cachedUserPasswords ::= cache_Remove PasswordCaching username |>);
  executeAction operationDelete who actionObjectUser (User.Username user).

(** ** Folders *)

(* source: internal/dataprovider/dataprovider.go AddFolder *)
Definition Api_AddFolder (folder : BaseVirtualFolder.t) who : api BaseVirtualFolder.t :=
  folder ← on_db (addFolder (folder <| BaseVirtualFolder.Name ::= convertName |>));
  _ ← executeAction operationAdd who actionObjectFolder (BaseVirtualFolder.Name folder);
  mret folder.
(** the users with the folder, directly or in one of the groups *)
Definition folder_users (users groups : list string) (h : DB.t) : list string :=
  match getUsersInGroups groups h with
  | Ok usersInGroups => RemoveDuplicates (users ++ usersInGroups) false
  | Err _ => users
  end.
(* source: internal/dataprovider/dataprovider.go UpdateFolder *)
Definition Api_UpdateFolder (folder : BaseVirtualFolder.t) (users groups : list string) who : api BaseVirtualFolder.t :=
  folder ← on_db (updateFolder folder);
  _ ← executeAction operationUpdate who actionObjectFolder (BaseVirtualFolder.Name folder);
  users ← gets (fun s => folder_users users groups (Quotas.db (Api.quotas s)));
  _ ← each_user (fun user =>
        u ← touched user;
        match u with
        | Some u => _ ← swap_user u ""; announce_user who u
        | None => RemoveCachedWebDAVUser user
        end) users;
  mret folder.
(* source: internal/dataprovider/dataprovider.go DeleteFolder *)
Definition Api_DeleteFolder (folderName : string) who : api unit :=
  let folderName := convertName folderName in
  folder ← read_db (getFolderByName folderName);
  _ ← on_db (deleteFolder folder);
  _ ← executeAction operationDelete who actionObjectFolder (BaseVirtualFolder.Name folder);
  users ← gets (fun s => folder_users (BaseVirtualFolder.Users folder) (BaseVirtualFolder.Groups folder) (Quotas.db (Api.quotas s)));
  _ ← each_user (fun user =>
        u ← touched user;
        _ ← (match u with Some u => announce_user who u | None => mret tt end);
        RemoveCachedWebDAVUser user) users;
  on_quotas (resetFolderQuota folderName).
(* source: internal/dataprovider/dataprovider.go GetFolderByName *)
Definition Api_GetFolderByName (name : string) (h : DB.t) : res BaseVirtualFolder.t := getFolderByName (convertName name) h.
(* source: internal/dataprovider/dataprovider.go RoleExists *)
Definition Api_RoleExists (name : string) (h : DB.t) : res Role.t := roleExists (convertName name) h.
(* source: internal/dataprovider/dataprovider.go GroupExists *)
Definition Api_GroupExists (name : string) (h : DB.t) : res Group.t := groupExists (convertName name) h.
(* source: internal/dataprovider/dataprovider.go EventActionExists *)
Definition Api_EventActionExists (name : string) (h : DB.t) : res BaseEventAction.t := eventActionExists (convertName name) h.
(* source: internal/dataprovider/dataprovider.go EventRuleExists *)
Definition Api_EventRuleExists (name : string) (h : DB.t) : res EventRule.t := eventRuleExists (convertName name) h.
(* source: internal/dataprovider/dataprovider.go GetIPListEntries *)
Definition Api_GetIPListEntries (listType : Z) (filter from order : string) (limit : Z) (h : DB.t) : res (list IPListEntry.t) :=
  if negb (bool_decide (listType ∈ supportedIPListType)) then Err (ValidationError "invalid list type")
  else getIPListEntries listType filter from order limit h.

(** the lists in memory follow, as in [IPListSync] *)
Definition each_list (f : IPList.t → IPList.t) : api unit := modify (fun s => s <| Api.inMemoryLists ::= fmap f |>).
(* source: internal/dataprovider/dataprovider.go AddIPListEntry *)
Definition AddIPListEntry_announced (entry : IPListEntry.t) who : api unit :=
  entry ← on_db (addIPListEntry now entry);
  _ ← executeAction operationAdd who actionObjectIPListEntry (ipentry_getName entry);
  each_list (fun l => addEntry l entry).
(* source: internal/dataprovider/dataprovider.go UpdateIPListEntry *)
Definition UpdateIPListEntry_announced (entry : IPListEntry.t) who : api unit :=
  entry ← on_db (updateIPListEntry now entry);
  _ ← executeAction operationUpdate who actionObjectIPListEntry (ipentry_getName entry);
  each_list (fun l => updateEntry l entry).
(* source: internal/dataprovider/dataprovider.go DeleteIPListEntry *)
Definition DeleteIPListEntry_announced (ipOrNet : string) (listType : Z) who : api unit :=
  entry ← read_db (ipListEntryExists ipOrNet listType);
  _ ← on_db (deleteIPListEntry entry);
  _ ← executeAction operationDelete who actionObjectIPListEntry (ipentry_getName entry);
  each_list (fun l => removeEntry l entry).

(** ** Recent activity *)

(** the time of the call, in nanoseconds *)
Variable clock : Z.
(* source: internal/dataprovider/dataprovider.go#L229 lastLoginMinDelay *)
Definition lastLoginMinDelay : Z := 10 * 60 * 1000000000.
(** [-time.Until(util.GetTimeFromMsecSinceEpoch(msec))]: the difference of two
    times is clamped to a 64-bit integer, the negation wraps *)
Definition elapsed (msec : Z) : Z :=
  wrap64 (- Z.max MinInt64 (Z.min MaxInt64 (mul64 msec 1000000 - clock))).
(* source: internal/dataprovider/dataprovider.go isLastActivityRecent *)
Definition isLastActivityRecent (lastActivity minDelay : Z) : bool :=
  let diff := elapsed lastActivity in
  if diff <? - (10 * 1000000000) then false else diff <? minDelay.
(* source: internal/dataprovider/dataprovider.go UpdateAPIKeyLastUse *)
Definition Api_UpdateAPIKeyLastUse (apiKey : APIKey.t) : api unit :=
  let diff := elapsed (APIKey.LastUseAt apiKey) in
  if (diff <? 0) || (lastLoginMinDelay <? diff) then on_db (updateAPIKeyLastUse now (APIKey.KeyID apiKey)) else mret tt.
(* source: internal/dataprovider/dataprovider.go UpdateLastLogin *)
Definition Api_UpdateLastLogin (user : User.t) : api unit :=
  let cacheTime := BaseUserFilters.ExternalAuthCacheTime (base_filters user) in
  let delay := if 0 <? cacheTime then mul64 cacheTime 1000000000 else lastLoginMinDelay in
  if (User.LastLogin user <=? User.UpdatedAt user) || negb (isLastActivityRecent (User.LastLogin user) delay) then
    try_catch (on_db (updateLastLogin now (User.Username user)))
      (fun _ => on_webdav (cache_updateLastLogin (now 1%nat) (User.Username user))) (fun _ => mret tt)
  else mret tt.
(* source: internal/dataprovider/dataprovider.go UpdateAdminLastLogin *)
Definition Api_UpdateAdminLastLogin (admin : Admin.t) : api unit :=
  if negb (isLastActivityRecent (Admin.LastLogin admin) lastLoginMinDelay)
  then ignore (on_db (updateAdminLastLogin now (Admin.Username admin))) else mret tt.
End provider.
