(* ===== verification/Backup.v ===== *)
(** Backups: what [DumpData] collects (internal/dataprovider/dataprovider.go), how
    the in-memory provider loads it at start and on reload (memory.go) and how
    the REST API restores it (internal/httpd/api_maintenance.go).

    The two restores go through the functions of [ProviderApi]. An error is
    returned as it is: the text the code puts before it is dropped. *)
From S2P Require Import Prelude Util Net FsConfig FsValidate Entities Links Tables MemoryCore MemoryOps UserPerms GroupMerge MemoryQueries ValidateUser ValidateObjects IPLists IPListSync Quota Credentials ProviderApi.
Open Scope Z_scope.

Module BackupData.
(* source: internal/dataprovider/dataprovider.go BackupData *)
Record t := mk {
  Users : list User.t;
  Groups : list Group.t;
  Folders : list BaseVirtualFolder.t;
  Admins : list Admin.t;
  APIKeys : list APIKey.t;
  Shares : list Share.t;
  EventActions : list BaseEventAction.t;
  EventRules : list EventRule.t;
  Roles : list Role.t;
  IPLists : list IPListEntry.t;
  Configs : option Configs.t;
  Version : Z;
}.
#[global] Instance eta : Settable t := {| settable := fun x =>
  mk (Users x) (Groups x) (Folders x) (Admins x) (APIKeys x) (Shares x) (EventActions x) (EventRules x) (Roles x) (IPLists x) (Configs x) (Version x) |}.
End BackupData.

(** * Dumping *)

(* source: internal/dataprovider/dataprovider.go#L91-L91 DumpVersion *)
Definition DumpVersion : Z := 16.
Definition DumpScopeUsers : string := "users".
Definition DumpScopeFolders : string := "folders".
Definition DumpScopeGroups : string := "groups".
Definition DumpScopeAdmins : string := "admins".
Definition DumpScopeAPIKeys : string := "api_keys".
Definition DumpScopeShares : string := "shares".
Definition DumpScopeActions : string := "actions".
Definition DumpScopeRules : string := "rules".
Definition DumpScopeRoles : string := "roles".
Definition DumpScopeIPLists : string := "ip_lists".
Definition DumpScopeConfigs : string := "configs".

(* source: internal/dataprovider/dataprovider.go HasFolder *)
Definition HasFolder (name : string) (d : BackupData.t) : bool :=
  existsb (fun folder => BaseVirtualFolder.Name folder =s name) (BackupData.Folders d).

Section dump.
Variable scopes : list string.
Definition in_scope (scope : string) : bool := bool_decide (scopes = []) || bool_decide (scope ∈ scopes).
(** one of the [dump…] functions *)
Definition dump_scope {A} (scope : string) (found : res A) (set : A → BackupData.t → BackupData.t) (data : BackupData.t) : res BackupData.t :=
  if in_scope scope then a ← found; Ok (set a data) else Ok data.
Variable h : DB.t.
(* source: internal/dataprovider/dataprovider.go dumpUsers *)
Definition data_dumpUsers := dump_scope DumpScopeUsers (dumpUsers h) (fun l d => d <| BackupData.Users := l |>).
(* source: internal/dataprovider/dataprovider.go dumpFolders *)
Definition data_dumpFolders := dump_scope DumpScopeFolders (dumpFolders h) (fun l d => d <| BackupData.Folders := l |>).
(* source: internal/dataprovider/dataprovider.go dumpGroups *)
Definition data_dumpGroups := dump_scope DumpScopeGroups (dumpGroups h) (fun l d => d <| BackupData.Groups := l |>).
(* source: internal/dataprovider/dataprovider.go dumpAdmins *)
Definition data_dumpAdmins := dump_scope DumpScopeAdmins (dumpAdmins h) (fun l d => d <| BackupData.Admins := l |>).
(* source: internal/dataprovider/dataprovider.go dumpAPIKeys *)
Definition data_dumpAPIKeys := dump_scope DumpScopeAPIKeys (dumpAPIKeys h) (fun l d => d <| BackupData.APIKeys := l |>).
(* source: internal/dataprovider/dataprovider.go dumpShares *)
Definition data_dumpShares := dump_scope DumpScopeShares (dumpShares h) (fun l d => d <| BackupData.Shares := l |>).
(* source: internal/dataprovider/dataprovider.go dumpActions *)
Definition data_dumpActions := dump_scope DumpScopeActions (dumpEventActions h) (fun l d => d <| BackupData.EventActions := l |>).
(* source: internal/dataprovider/dataprovider.go dumpRules *)
Definition data_dumpRules := dump_scope DumpScopeRules (dumpEventRules h) (fun l d => d <| BackupData.EventRules := l |>).
(* source: internal/dataprovider/dataprovider.go dumpRoles *)
Definition data_dumpRoles := dump_scope DumpScopeRoles (dumpRoles h) (fun l d => d <| BackupData.Roles := l |>).
(* source: internal/dataprovider/dataprovider.go dumpIPLists *)
Definition data_dumpIPLists := dump_scope DumpScopeIPLists (dumpIPListEntries h) (fun l d => d <| BackupData.IPLists := l |>).
(* source: internal/dataprovider/dataprovider.go dumpConfigs *)
Definition data_dumpConfigs := dump_scope DumpScopeConfigs (getConfigs h) (fun c d => d <| BackupData.Configs := Some c |>).
(* source: internal/dataprovider/dataprovider.go DumpData *)
Definition DumpData : res BackupData.t :=
  let data := BackupData.mk [] [] [] [] [] [] [] [] [] [] None DumpVersion in
  data ← data_dumpGroups data;
  data ← data_dumpUsers data;
  data ← data_dumpFolders data;
  data ← data_dumpAdmins data;
  data ← data_dumpAPIKeys data;
  data ← data_dumpShares data;
  data ← data_dumpActions data;
  data ← data_dumpRules data;
  data ← data_dumpRoles data;
  data ← data_dumpIPLists data;
  data_dumpConfigs data.
End dump.

Section restore.
Context {K : Kms} {Cfg : Settings} {R : Ranger}.
Context `{!Validate User.t, !Validate Group.t, !Validate Admin.t, !Validate Role.t,
  !Validate BaseVirtualFolder.t, !Validate APIKey.t, !Validate Share.t, !Validate BaseEventAction.t,
  !Validate EventRule.t, !Validate IPListEntry.t, !Validate Configs.t}.
Variable now : nat → Z.
Variable range : gmap string (list string) → list (string * list string).
Implicit Types who : By.t.

(** the stored object, if the lookup finds one *)
Definition stored {A} (f : DB.t → res A) : api (option A) := fun s =>
  (Ok (match f (Quotas.db (Api.quotas s)) with Ok a => Some a | Err _ => None end), s).
Fixpoint each {A} (f : A → api unit) (l : list A) : api unit :=
  match l with [] => mret tt | a :: l => _ ← f a; each f l end.
Definition discard_result {A} (m : api A) : api unit := _ ← m; mret tt.

(** * The dump file of the in-memory provider *)

Definition ActionExecutorSystem : string := "__system__".
Definition system : By.t := By.mk ActionExecutorSystem "" "".

(* source: internal/dataprovider/memory.go restoreConfigs *)
Definition restoreConfigs (dump : BackupData.t) : api unit :=
  match BackupData.Configs dump with
  | Some c => if 0 <? Configs.UpdatedAt c then Api_UpdateConfigs now (Some c) system else mret tt
  | None => mret tt
  end.
(* source: internal/dataprovider/memory.go restoreIPListEntries *)
Definition restoreIPListEntries (dump : BackupData.t) : api unit :=
  each (fun entry =>
    found ← stored (ipListEntryExists (IPListEntry.IPOrNet entry) (IPListEntry.Type_ entry));
    match found with
    | Some _ => UpdateIPListEntry_announced now entry system
    | None => AddIPListEntry_announced now entry system
    end) (BackupData.IPLists dump).
(* source: internal/dataprovider/memory.go restoreRoles *)
Definition restoreRoles (dump : BackupData.t) : api unit :=
  each (fun role =>
    let role := role <| Role.Name ::= convertName |> in
    found ← stored (roleExists (Role.Name role));
    match found with
    | Some r => Api_UpdateRole now (role <| Role.ID := Role.ID r |>) system
    | None => Api_AddRole now (role <| Role.Admins := [] |> <| Role.Users := [] |>) system
    end) (BackupData.Roles dump).
(* source: internal/dataprovider/memory.go restoreFolders *)
Definition restoreFolders (dump : BackupData.t) : api unit :=
  each (fun folder =>
    let folder := folder <| BaseVirtualFolder.Name ::= convertName |> in
    found ← stored (getFolderByName (BaseVirtualFolder.Name folder));
    discard_result (
      match found with
      | Some f => Api_UpdateFolder now range (folder <| BaseVirtualFolder.ID := BaseVirtualFolder.ID f |>)
                    (BaseVirtualFolder.Users f) (BaseVirtualFolder.Groups f) system
      | None => Api_AddFolder (folder <| BaseVirtualFolder.Users := [] |>) system
      end)) (BackupData.Folders dump).
(* source: internal/dataprovider/memory.go restoreGroups *)
Definition restoreGroups (dump : BackupData.t) : api unit :=
  each (fun group =>
    let group := group <| Group.Name ::= convertName |> in
    found ← stored (groupExists (Group.Name group));
    match found with
    | Some g => Api_UpdateGroup now range (group <| Group.ID := Group.ID g |>) (Group.Users g) system
    | None => Api_AddGroup now (group <| Group.Users := [] |>) system
    end) (BackupData.Groups dump).
(* source: internal/dataprovider/memory.go restoreUsers *)
Definition restoreUsers (dump : BackupData.t) : api unit :=
  each (fun user =>
    let user := user <| User.Username ::= convertName |> in
    found ← stored (userExists (User.Username user) "");
    discard_result (
      match found with
      | Some u => Api_UpdateUser now range (user <| User.ID := User.ID u |>) system
      | None => Api_AddUser now user system
      end)) (BackupData.Users dump).
(* source: internal/dataprovider/memory.go restoreAdmins *)
Definition restoreAdmins (dump : BackupData.t) : api unit :=
  each (fun admin =>
    let admin := admin <| Admin.Username ::= convertName |> in
    found ← stored (adminExists (Admin.Username admin));
    match found with
    | Some a => discard_result (Api_UpdateAdmin now (admin <| Admin.ID := Admin.ID a |>) system)
    | None => discard_result (Api_AddAdmin now admin system)
    end) (BackupData.Admins dump).
(* source: internal/dataprovider/memory.go restoreAPIKeys *)
Definition restoreAPIKeys (dump : BackupData.t) : api unit :=
  each (fun apiKey =>
    if APIKey.Key apiKey =s "" then fail (PlainError "cannot restore an empty API key") else
    found ← stored (apiKeyExists (APIKey.KeyID apiKey));
    match found with
    | Some k => Api_UpdateAPIKey now (apiKey <| APIKey.ID := APIKey.ID k |>) system
    | None => Api_AddAPIKey now apiKey system
    end) (BackupData.APIKeys dump).
(* source: internal/dataprovider/memory.go restoreShares *)
Definition restoreShares (dump : BackupData.t) : api unit :=
  each (fun share =>
    found ← stored (shareExists (Share.ShareID share) "");
    let share := share <| Share.IsRestore := true |> in
    match found with
    | Some s => Api_UpdateShare now (share <| Share.ID := Share.ID s |>) system
    | None => Api_AddShare now share system
    end) (BackupData.Shares dump).
(* source: internal/dataprovider/memory.go restoreEventActions *)
Definition restoreEventActions (dump : BackupData.t) : api unit :=
  each (fun action =>
    found ← stored (eventActionExists (BaseEventAction.Name action));
    match found with
    | Some a => Api_UpdateEventAction now (action <| BaseEventAction.ID := BaseEventAction.ID a |>) system
    | None => Api_AddEventAction action system
    end) (BackupData.EventActions dump).
(* source: internal/dataprovider/memory.go restoreEventRules *)
Definition restoreEventRules (dump : BackupData.t) : api unit :=
  each (fun rule =>
    found ← stored (eventRuleExists (EventRule.Name rule));
    let rule := if BackupData.Version dump <? 15 then rule <| EventRule.Status := 1 |> else rule in
    match found with
    | Some r => Api_UpdateEventRule now (rule <| EventRule.ID := EventRule.ID r |>) system
    | None => Api_AddEventRule now rule system
    end) (BackupData.EventRules dump).
(* source: internal/dataprovider/memory.go restoreDump *)
Definition restoreDump (dump : BackupData.t) : api unit :=
  _ ← on_db clear;
  _ ← restoreConfigs dump;
  _ ← restoreIPListEntries dump;
  _ ← restoreRoles dump;
  _ ← restoreFolders dump;
  _ ← restoreGroups dump;
  _ ← restoreUsers dump;
  _ ← restoreAdmins dump;
  _ ← restoreAPIKeys dump;
  _ ← restoreShares dump;
  _ ← restoreEventActions dump;
  restoreEventRules dump.
(** [None] when the file cannot be read *)
(* source: internal/dataprovider/memory.go reloadConfig *)
Definition reloadConfig (configFile : string) (file : option string) (ParseDumpData : string → res BackupData.t) : api unit :=
  if configFile =s "" then mret tt
  else match file with
       | None => fail (PlainError "error loading dump")
       | Some content =>
           let size := Z.of_nat (String.length content) in
           if size =? 0 then fail (PlainError "dump configuration file is invalid, its size must be > 0")
           else if 20971520 <? size then fail (PlainError "dump configuration file is invalid, its size must be <= 20971520 bytes")
           else dump ← lift (ParseDumpData content); restoreDump dump
       end.

(** * Restoring through the REST API

    [mode] 0 updates the objects that exist, 1 leaves them alone, 2 also
    disconnects the users it updates. [scanQuota] 1 scans the quota of every
    restored user and folder, 2 only that of the users with limits. *)

Section rest.
Variables mode scanQuota : Z.
Variable who : By.t.

(** the two cases of the loops; [None] stands for [continue] *)
(* source: internal/httpd/api_maintenance.go#L533-L549 RestoreUsers *)
Definition add_or_update {A B} (found : DB.t → res A) (update : A → api B) (add : api B) : api (option B) :=
  found ← stored found;
  match found with
  | Some a => if mode =? 1 then mret None else (b ← update a; mret (Some b))
  | None => b ← add; mret (Some b)
  end.

(* source: internal/httpd/api_maintenance.go RestoreFolders *)
Definition RestoreFolders (folders : list BaseVirtualFolder.t) : api unit :=
  each (fun folder =>
    restored ← add_or_update (Api_GetFolderByName (BaseVirtualFolder.Name folder))
      (fun f => Api_UpdateFolder now range
        (folder <| BaseVirtualFolder.ID := BaseVirtualFolder.ID f |> <| BaseVirtualFolder.Name := BaseVirtualFolder.Name f |>)
        (BaseVirtualFolder.Users f) (BaseVirtualFolder.Groups f) who)
      (Api_AddFolder (folder <| BaseVirtualFolder.Users := [] |>) who);
    match restored with
    | Some folder => if 1 <=? scanQuota then announce (ScanFolder (BaseVirtualFolder.Name folder)) else mret tt
    | None => mret tt
    end) folders.
(* source: internal/httpd/api_maintenance.go RestoreShares *)
Definition RestoreShares (shares : list Share.t) : api unit :=
  each (fun share =>
    let share := share <| Share.IsRestore := true |> in
    discard_result (add_or_update (Api_ShareExists (Share.ShareID share) "")
      (fun s => Api_UpdateShare now (share <| Share.ID := Share.ID s |>) who)
      (Api_AddShare now share who))) shares.
(* source: internal/httpd/api_maintenance.go RestoreEventActions *)
Definition RestoreEventActions (actions : list BaseEventAction.t) : api unit :=
  each (fun action =>
    discard_result (add_or_update (Api_EventActionExists (BaseEventAction.Name action))
      (fun a => Api_UpdateEventAction now (action <| BaseEventAction.ID := BaseEventAction.ID a |>) who)
      (Api_AddEventAction action who))) actions.
(* source: internal/httpd/api_maintenance.go RestoreEventRules *)
Definition RestoreEventRules (dumpVersion : Z) (rules : list EventRule.t) : api unit :=
  each (fun rule =>
    let rule := if dumpVersion <? 15 then rule <| EventRule.Status := 1 |> else rule in
    discard_result (add_or_update (Api_EventRuleExists (EventRule.Name rule))
      (fun r => Api_UpdateEventRule now (rule <| EventRule.ID := EventRule.ID r |>) who)
      (Api_AddEventRule now rule who))) rules.
(* source: internal/httpd/api_maintenance.go RestoreAPIKeys *)
Definition RestoreAPIKeys (apiKeys : list APIKey.t) : api unit :=
  each (fun apiKey =>
    if APIKey.Key apiKey =s "" then fail (PlainError "cannot restore an empty API key") else
    discard_result (add_or_update (Api_APIKeyExists (APIKey.KeyID apiKey))
      (fun k => Api_UpdateAPIKey now (apiKey <| APIKey.ID := APIKey.ID k |>) who)
      (Api_AddAPIKey now apiKey who))) apiKeys.
(* source: internal/httpd/api_maintenance.go RestoreAdmins *)
Definition RestoreAdmins (admins : list Admin.t) : api unit :=
  each (fun admin =>
    discard_result (add_or_update (Api_AdminExists (Admin.Username admin))
      (fun a => Api_UpdateAdmin now (admin <| Admin.ID := Admin.ID a |> <| Admin.Username := Admin.Username a |>) who)
      (Api_AddAdmin now admin who))) admins.
(* source: internal/httpd/api_maintenance.go RestoreConfigs *)
Definition RestoreConfigs (configs : option Configs.t) : api unit :=
  match configs with
  | None => mret tt
  | Some _ =>
      c ← read_db getConfigs;
      if (0 <? Configs.UpdatedAt c) && (mode =? 1) then mret tt else Api_UpdateConfigs now configs who
  end.
(* source: internal/httpd/api_maintenance.go RestoreIPListEntries *)
Definition RestoreIPListEntries (entries : list IPListEntry.t) : api unit :=
  each (fun entry =>
    discard_result (add_or_update (ipListEntryExists (IPListEntry.IPOrNet entry) (IPListEntry.Type_ entry))
      (fun _ => UpdateIPListEntry_announced now entry who)
      (AddIPListEntry_announced now entry who))) entries.
(* source: internal/httpd/api_maintenance.go RestoreRoles *)
Definition RestoreRoles (roles : list Role.t) : api unit :=
  each (fun role =>
    discard_result (add_or_update (Api_RoleExists (Role.Name role))
      (fun r => Api_UpdateRole now (role <| Role.ID := Role.ID r |>) who)
      (Api_AddRole now role who))) roles.
(* source: internal/httpd/api_maintenance.go RestoreGroups *)
Definition RestoreGroups (groups : list Group.t) : api unit :=
  each (fun group =>
    discard_result (add_or_update (Api_GroupExists (Group.Name group))
      (fun g => Api_UpdateGroup now range (group <| Group.ID := Group.ID g |> <| Group.Name := Group.Name g |>) (Group.Users g) who)
      (Api_AddGroup now group who))) groups.
(* source: internal/httpd/api_maintenance.go RestoreUsers *)
Definition RestoreUsers (users : list User.t) : api unit :=
  each (fun user =>
    restored ← add_or_update (Api_UserExists (User.Username user) "")
      (fun u =>
        user ← Api_UpdateUser now range (user <| User.ID := User.ID u |> <| User.Username := User.Username u |>) who;
        _ ← (if mode =? 2 then announce (Disconnect (User.Username user)) else mret tt);
        mret user)
      (Api_AddUser now user who);
    match restored with
    | Some user =>
        if (scanQuota =? 1) || ((scanQuota =? 2) && HasQuotaRestrictions user)
        then announce (ScanUser (User.Username user) (User.Role user)) else mret tt
    | None => mret tt
    end) users.
(* source: internal/httpd/api_maintenance.go restoreBackup *)
Definition restoreBackup (ParseDumpData : string → res BackupData.t) (content : string) : api unit :=
  dump ← (match ParseDumpData content with
          | Ok dump => mret dump
          | Err _ => fail (ValidationError "invalid input_file")
          end : api BackupData.t);
  _ ← RestoreConfigs (BackupData.Configs dump);
  _ ← RestoreIPListEntries (BackupData.IPLists dump);
  _ ← RestoreRoles (BackupData.Roles dump);
  _ ← RestoreFolders (BackupData.Folders dump);
  _ ← RestoreGroups (BackupData.Groups dump);
  _ ← RestoreUsers (BackupData.Users dump);
  _ ← RestoreAdmins (BackupData.Admins dump);
  _ ← RestoreAPIKeys (BackupData.APIKeys dump);
  _ ← RestoreShares (BackupData.Shares dump);
  _ ← RestoreEventActions (BackupData.EventActions dump);
  RestoreEventRules (BackupData.Version dump) (BackupData.EventRules dump).
End rest.
End restore.
