(* ===== verification/Evict.v ===== *)
(** Eviction of the oldest entries of a map
    (the [kvList] of internal/common/defendermem.go).

    The defender and the rate limiters bound their maps alike: they list the
    entries with a time each, sort them by it and delete the first ones. *)
From stdpp Require Import sorting.
From S2P Require Import Prelude.
Open Scope Z_scope.

(* source: internal/common/defendermem.go kv *)
Definition kv : Type := string * Z.
(* source: internal/common/defendermem.go#L348-L352 kvList *)
Definition kv_le (a b : kv) : Prop := a.2 <= b.2.
#[export] Instance kv_le_dec : RelDecision kv_le.
Proof. intros a b. unfold kv_le. apply _. Defined.
#[export] Instance kv_le_trans : Transitive kv_le.
Proof. intros a b c. unfold kv_le. lia. Qed.
#[export] Instance kv_le_total : Total kv_le.
Proof. intros a b. unfold kv_le. lia. Qed.

(** [sort.Sort] is unstable: the order of entries with the same time is that of
    the list, which comes from a range over a map and is arbitrary. *)
Definition sort_kvs : list kv → list kv := merge_sort kv_le.

(** [for idx, kv := range kvList { if idx >= numToRemove { break }; delete(m, kv.Key) }] *)
Definition evict {A} (numToRemove : Z) (kvs : list kv) (m : gmap string A) : gmap string A :=
  foldl (fun m e => delete e.1 m) m (take (Z.to_nat numToRemove) (sort_kvs kvs)).

Section evict.
Context {A : Type}.
Implicit Types (m : gmap string A) (kvs : list kv).

Lemma delete_keys kvs : ∀ m, NoDup kvs.*1 → (∀ k, k ∈ kvs.*1 → is_Some (m !! k)) →
  let m' := foldl (fun m e => delete e.1 m) m kvs in
  size m' = (size m - length kvs)%nat ∧ ∀ k o, m' !! k = Some o ↔ m !! k = Some o ∧ k ∉ kvs.*1.
Proof.
  induction kvs as [|[k v] kvs IH]; intros m Hnd Hin; cbn.
  { split; [lia|]. intros k o. split; [intros ?; split; [done|apply not_elem_of_nil]|by intros [? _]]. }
  apply NoDup_cons in Hnd as [Hk Hnd]. destruct (IH (delete k m) Hnd) as [H1 H2].
  { intros j Hj. rewrite lookup_delete_ne by (by intros ->). apply Hin. by right. }
  split.
  - rewrite H1, map_size_delete_Some by (apply Hin; by left). lia.
  - intros j o. rewrite H2, lookup_delete_Some, not_elem_of_cons. naive_solver.
Qed.

(** Deleting keys only shrinks a map, whether the keys are there or not. *)
Lemma delete_keys_sub kvs : ∀ m, foldl (fun m e => delete e.1 m) m kvs ⊆ m.
Proof.
  induction kvs as [|[k v] kvs IH]; intros m; [done|]. cbn. etrans; [apply IH|apply delete_subseteq].
Qed.
Lemma evict_sub n kvs m : evict n kvs m ⊆ m.
Proof. apply delete_keys_sub. Qed.

Section oldest.
Variables (time : A → Z) (n : Z) (kvs : list kv) (m0 : gmap string A).
Hypothesis Hperm : kvs ≡ₚ prod_map id time <$> map_to_list m0.

Lemma sorted_kvs_in k v : (k, v) ∈ sort_kvs kvs ↔ ∃ x, m0 !! k = Some x ∧ v = time x.
Proof.
  unfold sort_kvs. rewrite merge_sort_Permutation, Hperm. split.
  - intros ([k' x] & [= -> ->] & Hx)%list_elem_of_fmap. apply elem_of_map_to_list in Hx. eauto.
  - intros (x & Hx & ->). apply list_elem_of_fmap. exists (k, x). split; [done|]. by apply elem_of_map_to_list.
Qed.
Lemma sorted_kvs_nodup : NoDup (sort_kvs kvs).*1.
Proof.
  assert ((sort_kvs kvs).*1 ≡ₚ (map_to_list m0).*1) as ->; [|apply NoDup_fst_map_to_list].
  unfold sort_kvs. rewrite merge_sort_Permutation, Hperm, <- list_fmap_compose.
  assert (∀ B (a b : list B), a = b → a ≡ₚ b) as Heq by (by intros ??? ->). apply Heq, list_fmap_ext. by intros i [k x] _.
Qed.
Lemma sorted_kvs_length : length (sort_kvs kvs) = size m0.
Proof. unfold sort_kvs. by rewrite merge_sort_Permutation, Hperm, length_fmap, length_map_to_list. Qed.

Lemma foldl_delete_lookup (l : list kv) k o : ∀ m : gmap string A,
  foldl (fun m e => delete e.1 m) m l !! k = Some o ↔ m !! k = Some o ∧ k ∉ l.*1.
Proof.
  induction l as [|[j v] l IH]; intros m; cbn.
  - split; [intros ?; split; [done|apply not_elem_of_nil]|by intros [? _]].
  - rewrite IH, lookup_delete_Some, not_elem_of_cons. naive_solver.
Qed.

(** Whatever else was deleted meanwhile, the entries evicted are not newer than those kept. *)
Lemma evict_order m k o j x : m ⊆ m0 → evict n kvs m !! k = Some o → m !! j = Some x → evict n kvs m !! j = None → time x <= time o.
Proof.
  intros Hm Ho Hx Hnone. unfold evict in *. apply foldl_delete_lookup in Ho as [Ho Hk].
  assert (j ∈ (take (Z.to_nat n) (sort_kvs kvs)).*1) as Hj.
  { destruct (decide (j ∈ (take (Z.to_nat n) (sort_kvs kvs)).*1)) as [|Hj]; [done|].
    rewrite (proj2 (foldl_delete_lookup _ j x m)) in Hnone; done. }
  assert ((k, time o) ∈ sort_kvs kvs) as Hko by (apply sorted_kvs_in; exists o; split; [by eapply lookup_weaken|done]).
  assert (StronglySorted kv_le (sort_kvs kvs)) as Hsorted by (apply StronglySorted_merge_sort; apply _).
  rewrite <- (take_drop (Z.to_nat n) (sort_kvs kvs)) in Hko, Hsorted.
  apply elem_of_app in Hko as [Hko|Hko]; [by destruct Hk; apply (list_elem_of_fmap_2 fst) in Hko|].
  apply list_elem_of_fmap in Hj as ([j' v] & -> & Hj). cbn in Hx.
  assert (v = time x) as ->.
  { assert ((j', v) ∈ sort_kvs kvs) as (x' & Hx' & ->)%sorted_kvs_in.
    { rewrite <- (take_drop (Z.to_nat n) (sort_kvs kvs)). apply elem_of_app. by left. }
    eapply lookup_weaken in Hx; [|done]. congruence. }
  by apply (StronglySorted_app_1_elem_of _ _ _ (j', time x) (k, time o) Hsorted).
Qed.

(** Exactly the number asked for is removed when nothing else was. *)
Lemma evict_size : 0 <= n <= Z.of_nat (size m0) → Z.of_nat (size (evict n kvs m0)) = Z.of_nat (size m0) - n.
Proof.
  intros Hn. unfold evict. pose proof sorted_kvs_nodup as Hnd. rewrite <- (take_drop (Z.to_nat n) (sort_kvs kvs)), fmap_app in Hnd.
  apply NoDup_app in Hnd as (Hnd & _ & _). destruct (delete_keys (take (Z.to_nat n) (sort_kvs kvs)) m0 Hnd) as [Hsize _].
  { intros k ([k' v] & -> & Hk)%list_elem_of_fmap. cbn.
    assert ((k', v) ∈ sort_kvs kvs) as (x & Hx & _)%sorted_kvs_in; [|eauto].
    rewrite <- (take_drop (Z.to_nat n) (sort_kvs kvs)). apply elem_of_app. by left. }
  rewrite Hsize, length_take, sorted_kvs_length. lia.
Qed.
End oldest.
End evict.
