(* ===== verification/Defender.v ===== *)
(** The defender in memory (internal/common/defender.go, defendermem.go).

    Hosts collect a score for each failed login; a host whose score within the
    observation time reaches the threshold is banned.  Times are nanoseconds.
    Every reading of the clock in a call has its own instant [now i], the
    bodies of loops one for each round. *)
From S2P Require Import Prelude GoPath Util Net Prefix FsConfig Entities Links Tables MemoryCore UserPerms IPLists Evict.
Open Scope Z_scope.

(* source: internal/common/defender.go#L26-L34 HostEvent *)
Inductive HostEvent := HostEventLoginFailed | HostEventUserNotFound | HostEventNoLoginTried | HostEventLimitExceeded.

Module DefenderConfig.
(* source: internal/common/defender.go DefenderConfig *)
Record t := mk {
  Enabled : bool;
  Driver : string;
  BanTime : Z;
  BanTimeIncrement : Z;
  Threshold : Z;
  ScoreInvalid : Z;
  ScoreValid : Z;
  ScoreLimitExceeded : Z;
  ScoreNoAuth : Z;
  ObservationTime : Z;
  EntriesSoftLimit : Z;
  EntriesHardLimit : Z;
}.
#[global] Instance eta : Settable t := {| settable := fun x =>
  mk (Enabled x) (Driver x) (BanTime x) (BanTimeIncrement x) (Threshold x) (ScoreInvalid x) (ScoreValid x)
     (ScoreLimitExceeded x) (ScoreNoAuth x) (ObservationTime x) (EntriesSoftLimit x) (EntriesHardLimit x) |}.
End DefenderConfig.
Notation cfg := DefenderConfig.t.

Definition not_negative (z : Z) : Z := if z <? 0 then 0 else z.
(* source: internal/common/defender.go checkScores *)
Definition checkScores (c : cfg) : res cfg :=
  let c := c <| DefenderConfig.ScoreInvalid ::= not_negative |> in
  let c := c <| DefenderConfig.ScoreValid ::= not_negative |> in
  let c := c <| DefenderConfig.ScoreLimitExceeded ::= not_negative |> in
  let c := c <| DefenderConfig.ScoreNoAuth ::= not_negative |> in
  if (DefenderConfig.ScoreInvalid c =? 0) && (DefenderConfig.ScoreValid c =? 0) &&
     (DefenderConfig.ScoreLimitExceeded c =? 0) && (DefenderConfig.ScoreNoAuth c =? 0)
  then Err (PlainError "invalid defender configuration: all scores are disabled") else Ok c.

(* source: internal/common/defender.go DefenderConfig.validate *)
Definition defender_validate (c : cfg) : res cfg :=
  if negb (DefenderConfig.Enabled c) then Ok c
  else
    c ← checkScores c;
    _ ← refuse (DefenderConfig.Threshold c <=? DefenderConfig.ScoreInvalid c) (PlainError "score_invalid");
    _ ← refuse (DefenderConfig.Threshold c <=? DefenderConfig.ScoreValid c) (PlainError "score_valid");
    _ ← refuse (DefenderConfig.Threshold c <=? DefenderConfig.ScoreLimitExceeded c) (PlainError "score_limit_exceeded");
    _ ← refuse (DefenderConfig.Threshold c <=? DefenderConfig.ScoreNoAuth c) (PlainError "score_no_auth");
    _ ← refuse (DefenderConfig.BanTime c <=? 0) (PlainError "invalid ban_time");
    _ ← refuse (DefenderConfig.BanTimeIncrement c <=? 0) (PlainError "invalid ban_time_increment");
    _ ← refuse (DefenderConfig.ObservationTime c <=? 0) (PlainError "invalid observation_time");
    _ ← refuse (DefenderConfig.EntriesSoftLimit c <=? 0) (PlainError "invalid entries_soft_limit");
    _ ← refuse (DefenderConfig.EntriesHardLimit c <=? DefenderConfig.EntriesSoftLimit c) (PlainError "invalid entries_hard_limit");
    Ok c.

Module hostEvent.
(* source: internal/common/defender.go hostEvent *)
Record t := mk { dateTime : Z; score : Z }.
End hostEvent.

Module hostScore.
(* source: internal/common/defender.go hostScore *)
Record t := mk { TotalScore : Z; Events : list hostEvent.t }.
#[global] Instance eta : Settable t := {| settable := fun x => mk (TotalScore x) (Events x) |}.
End hostScore.

Module DefenderEntry.
(* source: internal/dataprovider/dataprovider.go DefenderEntry *)
Record t := mk { ID : Z; IP : string; Score : Z; BanTime : option Z }.
End DefenderEntry.

Module memoryDefender.
(* source: internal/common/defendermem.go memoryDefender *)
Record t := mk { hosts : gmap string hostScore.t; banned : gmap string Z }.
#[global] Instance eta : Settable t := {| settable := fun x => mk (hosts x) (banned x) |}.
End memoryDefender.

(** The ranges over the maps come in an arbitrary order. *)
Class MapOrder := map_order : ∀ {A}, gmap string A → list (string * A).
Class MapOrderLaws `{MapOrder} : Prop := map_order_perm : ∀ {A} (m : gmap string A), map_order m ≡ₚ map_to_list m.

Definition minute_ns : Z := 60000000000.
(** [time.Duration(n) * time.Minute] *)
Definition minutes (n : Z) : Z := mul64 n minute_ns.

Section defender.
Context {R : Ranger} {O : MapOrder}.
Variables (config : cfg) (db : DB.t) (ipList : IPList.t).
Implicit Types (d : memoryDefender.t) (now : nat → Z).

(** [baseDefender.isBanned] *)
(* source: internal/common/defender.go isBanned *)
Definition isBanned (ip protocol : string) : bool :=
  match IsListed db ipList ip protocol with
  | Ok (isListed, mode) => isListed && (mode =? ListModeDeny)
  | Err _ => false
  end.
(* source: internal/common/defender.go IsSafe *)
Definition IsSafe (ip protocol : string) : bool :=
  match IsListed db ipList ip protocol with
  | Ok (isListed, mode) => isListed && (mode =? ListModeAllow)
  | Err _ => false
  end.
(* source: internal/common/defender.go getScore *)
Definition getScore (event : HostEvent) : Z :=
  match event with
  | HostEventLoginFailed => DefenderConfig.ScoreValid config
  | HostEventLimitExceeded => DefenderConfig.ScoreLimitExceeded config
  | HostEventUserNotFound => DefenderConfig.ScoreInvalid config
  | HostEventNoLoginTried => DefenderConfig.ScoreNoAuth config
  end.

(** [event.dateTime.Add(time.Duration(d.config.ObservationTime) * time.Minute).After(time.Now())] *)
Definition observed (t : Z) (e : hostEvent.t) : bool :=
  t <? hostEvent.dateTime e + minutes (DefenderConfig.ObservationTime config).
(** The events still observed, each at the instant it is looked at, from [now i] on. *)
Fixpoint keep_observed now (i : nat) (events : list hostEvent.t) : list hostEvent.t :=
  match events with
  | [] => []
  | e :: events' => let rest := keep_observed now (S i) events' in if observed (now i) e then e :: rest else rest
  end.
Definition sum_scores (events : list hostEvent.t) : Z := foldl (fun s e => add64 s (hostEvent.score e)) 0 events.

Definition kvs_of {A} (time : A → Z) (m : gmap string A) : list kv := prod_map id time <$> map_order m.

(** An expired entry is deleted but stays in the list that is sorted. *)
(* source: internal/common/defendermem.go cleanupBanned *)
Definition cleanupBanned now (banned : gmap string Z) : gmap string Z :=
  if DefenderConfig.EntriesHardLimit config <? Z.of_nat (size banned) then
    let kvList := kvs_of id banned in
    let banned := foldl (fun m '(i, (k, v)) => if v <? now i then delete k m else m) banned (imap pair (map_order banned)) in
    let numToRemove := Z.of_nat (size banned) - DefenderConfig.EntriesSoftLimit config in
    if numToRemove <=? 0 then banned else evict numToRemove kvList banned
  else banned.

Definition last_event (hs : hostScore.t) : Z := from_option hostEvent.dateTime 0 (last (hostScore.Events hs)).
(* source: internal/common/defendermem.go memoryDefender.cleanupHosts *)
Definition cleanupHosts (hosts : gmap string hostScore.t) : gmap string hostScore.t :=
  if DefenderConfig.EntriesHardLimit config <? Z.of_nat (size hosts) then
    evict (Z.of_nat (size hosts) - DefenderConfig.EntriesSoftLimit config) (kvs_of last_event hosts) hosts
  else hosts.

(** the ban of a host that has not expired *)
Definition active_ban now (ip : string) d : option Z :=
  match memoryDefender.banned d !! ip with
  | Some banTime => if now 0%nat <? banTime then Some banTime else None
  | None => None
  end.

(** The new state, and whether the "IP blocked" event is sent to the event manager. *)
(* source: internal/common/defendermem.go AddEvent *)
Definition AddEvent now (ip protocol : string) (event : HostEvent) d : memoryDefender.t * bool :=
  if IsSafe ip protocol then (d, false)
  else
    if active_ban now ip d is Some _ then (d, false)
    else
      let d := d <| memoryDefender.banned ::= delete ip |> in
      let score := getScore event in
      let ev := hostEvent.mk (now 1%nat) score in
      match memoryDefender.hosts d !! ip with
      | Some hs =>
          let all := hostScore.Events hs ++ [ev] in
          let kept := keep_observed now 2 all in
          let i := (2 + length all)%nat in
          if DefenderConfig.Threshold config <=? sum_scores kept then
            (d <| memoryDefender.banned ::= fun m =>
                 cleanupBanned (fun j => now (S i + j)%nat) (<[ip := now i + minutes (DefenderConfig.BanTime config)]> m) |>
               <| memoryDefender.hosts ::= delete ip |>, true)
          else (d <| memoryDefender.hosts ::= <[ip := hostScore.mk (sum_scores kept) kept]> |>, false)
      | None => (d <| memoryDefender.hosts ::= fun m => cleanupHosts (<[ip := hostScore.mk score [ev]]> m) |>, false)
      end.

(** [IsBanned] reads the ban under the read lock and stores the increased one
    under the lock, two steps. *)
Definition ban_increment : Z :=
  let increment := Z.quot (mul64 (DefenderConfig.BanTime config) (DefenderConfig.BanTimeIncrement config)) 100 in
  if increment =? 0 then 1 else increment.
Definition IsBanned_read now (ip : string) d : option Z :=
  (fun banTime => banTime + minutes ban_increment) <$> active_ban now ip d.
Definition IsBanned_write (ip : string) (banTime : Z) d : memoryDefender.t := d <| memoryDefender.banned ::= <[ip := banTime]> |>.
(* source: internal/common/defendermem.go IsBanned *)
Definition IsBanned now (ip protocol : string) d : bool * memoryDefender.t :=
  match IsBanned_read now ip d with
  | Some banTime => (true, IsBanned_write ip banTime d)
  | None => (isBanned ip protocol, d)
  end.

(* source: internal/common/defendermem.go DeleteHost *)
Definition DeleteHost (ip : string) d : bool * memoryDefender.t :=
  match memoryDefender.banned d !! ip with
  | Some _ => (true, d <| memoryDefender.banned ::= delete ip |>)
  | None => match memoryDefender.hosts d !! ip with
            | Some _ => (true, d <| memoryDefender.hosts ::= delete ip |>)
            | None => (false, d)
            end
  end.

(* source: internal/common/defendermem.go countBanned *)
Definition countBanned d : nat := size (memoryDefender.banned d).
(* source: internal/common/defendermem.go countHosts *)
Definition countHosts d : nat := size (memoryDefender.hosts d).
(* source: internal/common/defendermem.go GetBanTime *)
Definition GetBanTime (ip : string) d : option Z := memoryDefender.banned d !! ip.
(* source: internal/common/defendermem.go GetScore *)
Definition GetScore now (ip : string) d : Z :=
  match memoryDefender.hosts d !! ip with
  | Some hs => sum_scores (keep_observed now 0 (hostScore.Events hs))
  | None => 0
  end.

Definition banned_entry (ip : string) (t : Z) : DefenderEntry.t := DefenderEntry.mk 0 ip 0 (Some t).
Definition host_entry (ip : string) (score : Z) : DefenderEntry.t := DefenderEntry.mk 0 ip score None.
(* source: internal/common/defendermem.go GetHost *)
Definition GetHost now (ip : string) d : res DefenderEntry.t :=
  match active_ban now ip d with
  | Some banTime => Ok (banned_entry ip banTime)
  | None =>
      let score := GetScore (fun i => now (S i)) ip d in
      if 0 <? score then Ok (host_entry ip score) else Err (RecordNotFoundError "host" ip)
  end.

Fixpoint host_entries now (i : nat) (hosts : list (string * hostScore.t)) : list DefenderEntry.t :=
  match hosts with
  | [] => []
  | (k, v) :: hosts' =>
      let score := sum_scores (keep_observed now i (hostScore.Events v)) in
      let rest := host_entries now (i + length (hostScore.Events v))%nat hosts' in
      if 0 <? score then host_entry k score :: rest else rest
  end.
(* source: internal/common/defendermem.go GetHosts *)
Definition GetHosts now d : list DefenderEntry.t :=
  omap (fun '(i, (k, v)) => if now i <? v then Some (banned_entry k v) else None) (imap pair (map_order (memoryDefender.banned d))) ++
  host_entries now (size (memoryDefender.banned d)) (map_order (memoryDefender.hosts d)).
End defender.

Section new.
Context {R : Ranger}.
(* source: internal/common/defendermem.go newInMemoryDefender *)
Definition newInMemoryDefender (config : cfg) (db : DB.t) : res (cfg * IPList.t * memoryDefender.t) :=
  config ← defender_validate config;
  ipList ← NewIPList db IPListTypeDefender;
  Ok (config, ipList, memoryDefender.mk ∅ ∅).
End new.
