(* ===== verification/DefenderProps.v ===== *)
(** What the defender guarantees: its maps stay within the configured limit,
    and as long as nothing has to be evicted it refines a specification that
    remembers every event ([defender_refines]).  An unban, though, can be
    undone by a check of the same host ([unban_is_undone]). *)
From S2P Require Import Prelude GoPath Util Net Prefix FsConfig Entities Links Tables MemoryCore UserPerms IPLists IPListSync Evict Defender.
Open Scope Z_scope.

Lemma defender_validate_ok c c' : defender_validate c = Ok c' → DefenderConfig.Enabled c = true →
  (∀ e, 0 <= getScore c' e < DefenderConfig.Threshold c') ∧ (∃ e, 0 < getScore c' e) ∧ 0 < DefenderConfig.BanTime c' ∧
  0 < DefenderConfig.BanTimeIncrement c' ∧ 0 < DefenderConfig.ObservationTime c' ∧
  0 < DefenderConfig.EntriesSoftLimit c' < DefenderConfig.EntriesHardLimit c'.
Proof.
  unfold defender_validate. intros H He. rewrite He in H. cbn [negb] in H.
  destruct (checkScores c) as [c1|e] eqn:Hs; [|done]. unfold mbind, res_bind, refuse in H.
  repeat match type of H with context [if ?b then _ else _] => destruct b eqn:?; [discriminate|] end.
  injection H as <-. rewrite ?Z.leb_gt in *.
  assert ((∀ e, 0 <= getScore c1 e) ∧ ∃ e, 0 < getScore c1 e) as [Hnn Hpos].
  { unfold checkScores in Hs. destruct (_ && _) eqn:Hz; [discriminate|]. injection Hs as <-.
    assert (∀ z, 0 <= not_negative z) as Hnn by (intros z; unfold not_negative; destruct (Z.ltb_spec z 0); lia).
    cbn in Hz |- *. split; [by intros []; cbn|].
    repeat (apply andb_false_iff in Hz as [Hz|Hz]); apply Z.eqb_neq in Hz.
    - exists HostEventUserNotFound. cbn. pose proof (Hnn (DefenderConfig.ScoreInvalid c)). lia.
    - exists HostEventLoginFailed. cbn. pose proof (Hnn (DefenderConfig.ScoreValid c)). lia.
    - exists HostEventLimitExceeded. cbn. pose proof (Hnn (DefenderConfig.ScoreLimitExceeded c)). lia.
    - exists HostEventNoLoginTried. cbn. pose proof (Hnn (DefenderConfig.ScoreNoAuth c)). lia. }
  split_and!; try done. intros e. split; [done|]. by destruct e.
Qed.

Section limits.
Context {R : Ranger} {O : MapOrder} {L : MapOrderLaws}.
Variables (config : cfg) (db : DB.t) (ipList : IPList.t).
Hypothesis Hlimits : 0 < DefenderConfig.EntriesSoftLimit config < DefenderConfig.EntriesHardLimit config.
Implicit Types (d : memoryDefender.t) (now : nat → Z).

(** no key but those of [ex] is in both maps *)
Definition separate {A B} (ex : list string) (m : gmap string A) (m' : gmap string B) : Prop := ∀ k, k ∈ ex ∨ m !! k = None ∨ m' !! k = None.
Lemma separate_weaken {A B} ex (m1 m2 : gmap string A) (m1' m2' : gmap string B) :
  separate ex m1 m1' → m2 ⊆ m1 → m2' ⊆ m1' → separate ex m2 m2'.
Proof.
  intros H H1 H2 k. destruct (H k) as [?|[Hk|Hk]]; [by left|right; left|right; right];
    [destruct (m2 !! k) eqn:E|destruct (m2' !! k) eqn:E]; try done; (eapply lookup_weaken in E; [|done]); congruence.
Qed.
Lemma separate_insert_r {A B} ex k (m : gmap string A) (y : B) m' : separate ex m m' → separate ex (delete k m) (<[k := y]> m').
Proof.
  intros H j. destruct (decide (j = k)) as [->|Hne]; [right; left; apply lookup_delete_eq|].
  rewrite lookup_insert_ne, lookup_delete_ne by done. apply H.
Qed.
Lemma separate_insert_l {A B} ex k (m : gmap string A) (x : A) (m' : gmap string B) : separate ex m m' → separate ex (<[k := x]> m) (delete k m').
Proof.
  intros H j. destruct (decide (j = k)) as [->|Hne]; [right; right; apply lookup_delete_eq|].
  rewrite lookup_insert_ne, lookup_delete_ne by done. apply H.
Qed.

(** The bounds and the separation of the two maps, but for the bans that were
    brought back. *)
Definition within_limits (revived : list string) d : Prop :=
  Z.of_nat (countHosts d) <= DefenderConfig.EntriesHardLimit config ∧
  Z.of_nat (countBanned d) <= DefenderConfig.EntriesHardLimit config + Z.of_nat (length revived) ∧
  separate revived (memoryDefender.hosts d) (memoryDefender.banned d).

Lemma kvs_of_perm {A} (time : A → Z) (m : gmap string A) : kvs_of time m ≡ₚ prod_map id time <$> map_to_list m.
Proof. unfold kvs_of. by rewrite map_order_perm. Qed.

Lemma size_insert_le {A} k (x : A) (m : gmap string A) : (size (<[k := x]> m) <= S (size m))%nat.
Proof. rewrite map_size_insert. destruct (m !! k); cbn; lia. Qed.

Lemma cleanupHosts_sub hosts : cleanupHosts config hosts ⊆ hosts.
Proof. unfold cleanupHosts. destruct (_ <? _); [apply evict_sub|done]. Qed.

Lemma cleanupHosts_size hosts : Z.of_nat (size hosts) <= DefenderConfig.EntriesHardLimit config + 1 →
  Z.of_nat (size (cleanupHosts config hosts)) <= DefenderConfig.EntriesHardLimit config.
Proof.
  intros Hs. unfold cleanupHosts. destruct (Z.ltb_spec (DefenderConfig.EntriesHardLimit config) (Z.of_nat (size hosts))) as [Hlt|]; [|done].
  rewrite (evict_size last_event _ _ hosts (kvs_of_perm _ _)); lia.
Qed.

(** What is left once the expired bans are deleted. *)
Lemma delete_expired now (l : list (string * Z)) : ∀ i (m : gmap string Z),
  let m' := foldl (fun m '(i, (k, v)) => if v <? now i then delete k m else m) m (imap (fun j x => (i + j, x)%nat) l) in
  m' ⊆ m ∧ (m' = m ∨ (∃ k, k ∈ l.*1 ∧ m' !! k = None)).
Proof.
  induction l as [|[k v] l IH]; intros i m; [by split; [|left]|].
  cbn. rewrite Nat.add_0_r.
  assert (∀ m0 : gmap string Z, foldl (fun m '(i, (k, v)) => if v <? now i then delete k m else m) m0 (imap ((fun j x => (i + j, x)%nat) ∘ S) l) =
          foldl (fun m '(i, (k, v)) => if v <? now i then delete k m else m) m0 (imap (fun j x => (S i + j, x)%nat) l)) as ->.
  { intros m0. f_equal. apply imap_ext. intros j x _. cbn. f_equal. lia. }
  destruct (v <? now i) eqn:Hv.
  - destruct (IH (S i) (delete k m)) as [H1 H2]. split; [etrans; [exact H1|apply delete_subseteq]|]. right. exists k.
    split; [by left|]. set (m' := foldl _ _ _) in *. clearbody m'.
    destruct (m' !! k) as [y|] eqn:Hy; [|done]. eapply lookup_weaken in Hy; [|exact H1]. by rewrite lookup_delete_eq in Hy.
  - destruct (IH (S i) m) as [H1 [H2|(j & Hj & Hn)]]; (split; [done|]); [by left|right]. exists j. split; [by right|done].
Qed.

Lemma imap_pair_0 {A} (l : list A) : imap pair l = imap (fun j x => (0 + j, x)%nat) l.
Proof. by apply imap_ext. Qed.

Lemma cleanupBanned_sub now banned : cleanupBanned config now banned ⊆ banned.
Proof.
  unfold cleanupBanned. destruct (_ <? _); [|done]. rewrite imap_pair_0.
  destruct (delete_expired now (map_order banned) 0 banned) as [H _]. destruct (_ <=? 0); [done|]. etrans; [apply evict_sub|done].
Qed.

Lemma cleanupBanned_size n now banned : DefenderConfig.EntriesHardLimit config <= n → Z.of_nat (size banned) <= n + 1 →
  Z.of_nat (size (cleanupBanned config now banned)) <= n.
Proof.
  intros Hn0 Hs. unfold cleanupBanned. destruct (Z.ltb_spec (DefenderConfig.EntriesHardLimit config) (Z.of_nat (size banned))) as [Hlt|]; [|lia].
  rewrite imap_pair_0. destruct (delete_expired now (map_order banned) 0 banned) as [Hsub Hkeep].
  set (m := foldl _ banned _) in *. clearbody m.
  destruct (Z.leb_spec (Z.of_nat (size m) - DefenderConfig.EntriesSoftLimit config) 0) as [|Hn]; [lia|].
  destruct Hkeep as [->|(k & Hk & Hnone)].
  - rewrite (evict_size id _ _ banned (kvs_of_perm _ _)); lia.
  - assert (size m < size banned)%nat.
    { apply map_subset_size. split; [done|]. intros Hsub'.
      apply list_elem_of_fmap in Hk as ([k' v] & -> & Hkv). rewrite map_order_perm in Hkv. apply elem_of_map_to_list in Hkv.
      eapply lookup_weaken in Hkv; [|exact Hsub']. cbn in Hnone. by rewrite Hnone in Hkv. }
    pose proof (map_subseteq_size _ _ (evict_sub (Z.of_nat (size m) - DefenderConfig.EntriesSoftLimit config) (kvs_of id banned) m)). lia.
Qed.

Lemma AddEvent_within ex now ip protocol event d : within_limits ex d → within_limits ex (AddEvent config db ipList now ip protocol event d).1.
Proof.
  intros (Hh & Hb & Hd). unfold AddEvent. destruct (IsSafe _ _ _ _); [done|]. destruct (active_ban _ _ _); [done|].
  assert (∀ A (m : gmap string A), size (delete ip m) <= size m)%nat as Hle by (intros; apply map_subseteq_size, delete_subseteq).
  unfold within_limits, countHosts, countBanned in *. destruct d as [hosts banned]. cbn [memoryDefender.hosts memoryDefender.banned setter fst] in *.
  pose proof (Hle _ hosts). pose proof (Hle _ banned). destruct (hosts !! ip) as [hs|] eqn:Hip.
  - set (i := (2 + length _)%nat). set (kept := keep_observed _ _ _ _).
    destruct (_ <=? _); cbn [memoryDefender.hosts memoryDefender.banned setter fst]; split_and!.
    + lia.
    + apply cleanupBanned_size; [lia|]. pose proof (size_insert_le ip (now i + minutes (DefenderConfig.BanTime config)) (delete ip banned)). lia.
    + eapply separate_weaken; [|done|apply cleanupBanned_sub]. apply separate_insert_r.
      eapply separate_weaken; [exact Hd|done|apply delete_subseteq].
    + by rewrite map_size_insert_Some.
    + lia.
    + by apply separate_insert_l.
  - set (hs := hostScore.mk _ _). cbn [memoryDefender.hosts memoryDefender.banned setter fst]; split_and!.
    + apply cleanupHosts_size. pose proof (size_insert_le ip hs hosts). lia.
    + lia.
    + eapply separate_weaken; [|apply cleanupHosts_sub|done]. by apply separate_insert_l.
Qed.

(** a ban that is there is extended, another one comes back *)
Definition revival (ip : string) d : list string := if memoryDefender.banned d !! ip is Some _ then [] else [ip].
Lemma IsBanned_write_within ex ip t d : within_limits ex d → within_limits (revival ip d ++ ex) (IsBanned_write ip t d).
Proof.
  intros (Hh & Hb & Hd). unfold revival, within_limits, countHosts, countBanned in *. destruct d as [hosts banned]. cbn in *.
  destruct (banned !! ip) as [v|] eqn:Hv; cbn [app length]; split_and!; [done|by rewrite map_size_insert_Some| |done| |].
  - intros k. destruct (decide (k = ip)) as [->|Hne]; [|by rewrite lookup_insert_ne].
    destruct (Hd ip) as [?|[?|?]]; [by left|by right; left|congruence].
  - pose proof (size_insert_le ip t banned). lia.
  - intros k. destruct (decide (k = ip)) as [->|Hne]; [left; by left|]. rewrite lookup_insert_ne by done.
    destruct (Hd k) as [?|?]; [left; by right|by right].
Qed.

Lemma DeleteHost_within ex ip d : within_limits ex d → within_limits ex (DeleteHost ip d).2.
Proof.
  intros (Hh & Hb & Hd). unfold DeleteHost. destruct d as [hosts banned]. unfold within_limits, countHosts, countBanned in *. cbn in *.
  assert (∀ A (m : gmap string A), size (delete ip m) <= size m)%nat as Hle by (intros; apply map_subseteq_size, delete_subseteq).
  pose proof (Hle _ hosts). pose proof (Hle _ banned).
  destruct (banned !! ip); [|destruct (hosts !! ip)]; cbn; split_and!; try lia; try done;
    (eapply separate_weaken; [exact Hd|first [done|apply delete_subseteq]..]).
Qed.
End limits.

(** * Runs *)

Inductive defender_call :=
  | Call_AddEvent (ip protocol : string) (event : HostEvent)
  | Call_IsBanned (ip protocol : string)
  | Call_DeleteHost (ip : string).

Section runs.
Context {R : Ranger} {O : MapOrder} {L : MapOrderLaws}.
Variables (config : cfg) (db : DB.t) (ipList : IPList.t).
Implicit Types (d : memoryDefender.t).

(** The result of a call: whether the event blocked the host, whether the host
    is banned, whether it was found. *)
Definition defender_step (now : nat → Z) (c : defender_call) d : bool * memoryDefender.t :=
  match c with
  | Call_AddEvent ip protocol event => let '(d, blocked) := AddEvent config db ipList now ip protocol event d in (blocked, d)
  | Call_IsBanned ip protocol => IsBanned config db ipList now ip protocol d
  | Call_DeleteHost ip => DeleteHost ip d
  end.
Fixpoint defender_run (calls : list ((nat → Z) * defender_call)) d : list bool * memoryDefender.t :=
  match calls with
  | [] => ([], d)
  | (now, c) :: calls' =>
      let '(b, d) := defender_step now c d in
      let '(bs, d) := defender_run calls' d in (b :: bs, d)
  end.

(** ** Concurrent calls *)

(** A check of a host reads its ban and stores the extended one later: the bans
    that are read and not yet stored, and the hosts whose ban was deleted in
    between and came back. *)
Record running := Running { defender : memoryDefender.t; reads : list (string * Z); revived : list string }.
Inductive defender_event :=
  | Event_AddEvent (ip protocol : string) (event : HostEvent)
  | Event_DeleteHost (ip : string)
  | Event_Read (ip : string)      (* the first part of IsBanned *)
  | Event_Write (n : nat).        (* the second part, of the check at this position *)
Definition event_step (now : nat → Z) (e : defender_event) (x : running) : running :=
  let d := defender x in
  match e with
  | Event_AddEvent ip protocol event => Running (AddEvent config db ipList now ip protocol event d).1 (reads x) (revived x)
  | Event_DeleteHost ip => Running (DeleteHost ip d).2 (reads x) (revived x)
  | Event_Read ip =>
      match IsBanned_read config now ip d with
      | Some banTime => Running d (reads x ++ [(ip, banTime)]) (revived x)
      | None => x
      end
  | Event_Write n =>
      match reads x !! n with
      | Some (ip, banTime) => Running (IsBanned_write ip banTime d) (delete n (reads x)) (revival ip d ++ revived x)
      | None => x
      end
  end.
Definition concurrent_run (events : list ((nat → Z) * defender_event)) (x : running) : running :=
  foldl (fun x '(now, e) => event_step now e x) x events.
Definition idle (d : memoryDefender.t) : running := Running d [] [].

(** A check that is not interrupted is the call. *)
Lemma uninterrupted_check now ip protocol d :
  defender (concurrent_run [(now, Event_Read ip); (now, Event_Write 0)] (idle d)) = (IsBanned config db ipList now ip protocol d).2.
Proof. unfold concurrent_run, IsBanned. cbn. by destruct (IsBanned_read _ _ _ _). Qed.

(** C31: The maps of the defender stay bounded: whatever calls are made by
    concurrent connections, in whatever order the two parts of their checks run
    and at whatever times, a defender with a valid configuration never holds
    more than the hard limit of hosts; it exceeds the hard limit of bans by at
    most one for each ban that a check stored after it had been deleted, and no
    other host is both counted and banned.  So without such a check the limits
    hold and no host is both (with one they may not:
    [revived_ban_breaks_limits]). *)
Theorem defender_stays_within_limits c events : defender_validate c = Ok config → DefenderConfig.Enabled c = true →
  let x := concurrent_run events (idle (memoryDefender.mk ∅ ∅)) in within_limits config (revived x) (defender x).
Proof.
  intros Hv He. destruct (defender_validate_ok c config Hv He) as (_ & _ & _ & _ & _ & Hlim). cbn zeta.
  assert (within_limits config (revived (idle (memoryDefender.mk ∅ ∅))) (defender (idle (memoryDefender.mk ∅ ∅)))) as H0.
  { unfold within_limits, countHosts, countBanned. cbn. rewrite !map_size_empty. split_and!; [lia|lia|by right; left]. }
  revert H0. generalize (idle (memoryDefender.mk ∅ ∅)). unfold concurrent_run.
  induction events as [|[now e] events IH]; intros x Hx; [done|]. cbn [foldl]. apply IH.
  destruct e as [ip p ev|ip|ip|n]; cbn [event_step].
  - by apply AddEvent_within.
  - by apply DeleteHost_within.
  - by destruct (IsBanned_read _ _ _ _).
  - destruct (reads x !! n) as [[ip t]|]; [|done]. by apply IsBanned_write_within.
Qed.

(** * The specification: every event is remembered *)

Record history := History { events : gmap string (list hostEvent.t); bans : gmap string Z }.

Definition observed_at (t : Z) : list hostEvent.t → list hostEvent.t := keep_observed config (fun _ => t) 0.
Definition score_at (t : Z) (ip : string) (a : history) : Z := from_option (sum_scores ∘ observed_at t) 0 (events a !! ip).
Definition banned_at (t : Z) (ip : string) (a : history) : bool := from_option (fun b => t <? b) false (bans a !! ip).

(** A call at the instant [t]. *)
Definition spec_step (t : Z) (c : defender_call) (a : history) : bool * history :=
  match c with
  | Call_AddEvent ip protocol event =>
      if IsSafe db ipList ip protocol || banned_at t ip a then (false, a)
      else
        let all := default [] (events a !! ip) ++ [hostEvent.mk t (getScore config event)] in
        if bool_decide (is_Some (events a !! ip)) && (DefenderConfig.Threshold config <=? sum_scores (observed_at t all))
        then (true, History (delete ip (events a)) (<[ip := t + minutes (DefenderConfig.BanTime config)]> (bans a)))
        else (false, History (<[ip := all]> (events a)) (delete ip (bans a)))
  | Call_IsBanned ip protocol =>
      if banned_at t ip a
      then (true, History (events a) (alter (fun b => b + minutes (ban_increment config)) ip (bans a)))
      else (isBanned db ipList ip protocol, a)
  | Call_DeleteHost ip =>
      (bool_decide (is_Some (bans a !! ip)) || bool_decide (is_Some (events a !! ip)),
       if decide (is_Some (bans a !! ip)) then History (events a) (delete ip (bans a)) else History (delete ip (events a)) (bans a))
  end.
Fixpoint spec_run (calls : list (Z * defender_call)) (a : history) : list bool * history :=
  match calls with
  | [] => ([], a)
  | (t, c) :: calls' =>
      let '(b, a) := spec_step t c a in
      let '(bs, a) := spec_run calls' a in (b :: bs, a)
  end.

(** Nothing is evicted: before each call there is room for one more entry. *)
Definition has_room d : Prop :=
  Z.of_nat (countHosts d) < DefenderConfig.EntriesHardLimit config ∧ Z.of_nat (countBanned d) < DefenderConfig.EntriesHardLimit config.
Fixpoint room (calls : list (Z * defender_call)) d : Prop :=
  match calls with
  | [] => True
  | (t, c) :: calls' => has_room d ∧ room calls' (defender_step (fun _ => t) c d).2
  end.

(** The defender at [T] or later stands for a history: the bans are the same,
    and the events it dropped are no longer observed. *)
Definition stands_for (T : Z) (a : history) d : Prop :=
  bans a = memoryDefender.banned d ∧
  ∀ ip, match events a !! ip, memoryDefender.hosts d !! ip with
        | Some es, Some hs => ∀ t, T <= t → observed_at t es = observed_at t (hostScore.Events hs)
        | None, None => True
        | _, _ => False
        end.

Lemma keep_const t es : ∀ i j, keep_observed config (fun _ => t) i es = keep_observed config (fun _ => t) j es.
Proof. induction es as [|e es IH]; intros i j; [done|]. cbn. by rewrite (IH (S i) (S j)). Qed.
Lemma observed_at_app t es es' : observed_at t (es ++ es') = observed_at t es ++ observed_at t es'.
Proof.
  unfold observed_at. induction es as [|e es IH]; [done|]. cbn. rewrite !(keep_const t _ 1 0), IH. by destruct (observed _ _ _).
Qed.
(** What is observed later was observed before. *)
Lemma observed_at_twice t t' es : t <= t' → observed_at t' (observed_at t es) = observed_at t' es.
Proof.
  intros Ht. unfold observed_at. induction es as [|e es IH]; [done|]. cbn. rewrite !(keep_const _ es 1 0).
  unfold observed. destruct (Z.ltb_spec t (hostEvent.dateTime e + minutes (DefenderConfig.ObservationTime config))); cbn.
  - rewrite (keep_const t' _ 1 0), IH. done.
  - rewrite IH. destruct (Z.ltb_spec t' (hostEvent.dateTime e + minutes (DefenderConfig.ObservationTime config))); [lia|done].
Qed.

Lemma active_ban_banned_at T t ip a d : stands_for T a d →
  active_ban (fun _ => t) ip d = if banned_at t ip a then bans a !! ip else None.
Proof.
  intros [Hb _]. unfold active_ban, banned_at. rewrite Hb. destruct (memoryDefender.banned d !! ip) as [v|]; [|done]. cbn. by destruct (t <? v).
Qed.

Lemma stands_for_hosts T a d ip : stands_for T a d → events a !! ip = None ↔ memoryDefender.hosts d !! ip = None.
Proof. intros [_ H]. specialize (H ip). by destruct (events a !! ip), (memoryDefender.hosts d !! ip). Qed.

Lemma cleanup_has_room {A} (m : gmap string A) k x : Z.of_nat (size m) < DefenderConfig.EntriesHardLimit config →
  (DefenderConfig.EntriesHardLimit config <? Z.of_nat (size (<[k := x]> m))) = false.
Proof. intros H. apply Z.ltb_ge. pose proof (size_insert_le k x m). lia. Qed.

Lemma stands_for_later T T' a d : T <= T' → stands_for T a d → stands_for T' a d.
Proof.
  intros HT [Hb He]. split; [done|]. intros ip. specialize (He ip).
  destruct (events a !! ip), (memoryDefender.hosts d !! ip); try done. intros u Hu. apply He. lia.
Qed.

Lemma spec_AddEvent T t ip protocol event a d : stands_for T a d → T <= t → has_room d →
  let s := spec_step t (Call_AddEvent ip protocol event) a in
  let r := defender_step (fun _ => t) (Call_AddEvent ip protocol event) d in
  r.1 = s.1 ∧ stands_for t s.2 r.2.
Proof.
  intros Hs HT [Hh Hb]. cbn [spec_step defender_step]. unfold AddEvent.
  destruct (IsSafe db ipList ip protocol); cbn [orb]; [by split; [|eapply stands_for_later]|].
  rewrite (active_ban_banned_at T t ip a d Hs). destruct (banned_at t ip a) eqn:Hban.
  { unfold banned_at in Hban. destruct (bans a !! ip); [|done]. by split; [|eapply stands_for_later]. }
  destruct Hs as [Hbans He]. destruct d as [hosts banned]. unfold countHosts, countBanned in *.
  cbn [memoryDefender.hosts memoryDefender.banned setter] in *. pose proof (He ip) as Hip.
  set (ev := hostEvent.mk t (getScore config event)).
  destruct (hosts !! ip) as [hs|] eqn:Hho, (events a !! ip) as [es|] eqn:Hes; try done.
  - rewrite bool_decide_true by eauto. cbn [andb default].
    assert (keep_observed config (fun _ => t) 2 (hostScore.Events hs ++ [ev]) = observed_at t (es ++ [ev])) as Hkeep.
    { rewrite (keep_const _ _ 2 0). change (observed_at t (hostScore.Events hs ++ [ev]) = observed_at t (es ++ [ev])).
      by rewrite !observed_at_app, (Hip t HT). }
    rewrite Hkeep. change (default [] (Some es)) with es. destruct (_ <=? _); (split; [done|]).
    + cbn [snd]. unfold cleanupBanned.
      assert (size (delete ip banned) <= size banned)%nat by (apply map_subseteq_size, delete_subseteq).
      rewrite cleanup_has_room by lia. split; cbn.
      * by rewrite insert_delete_eq, Hbans.
      * intros j. destruct (decide (j = ip)) as [->|Hne]; [by rewrite !lookup_delete_eq|].
        rewrite !lookup_delete_ne by done. pose proof (He j) as Hj. destruct (events a !! j), (hosts !! j); try done.
        intros u Hu. apply Hj. lia.
    + cbn [snd]. split; cbn; [by rewrite Hbans|]. intros j. destruct (decide (j = ip)) as [->|Hne].
      * rewrite !lookup_insert_eq. intros u Hu. cbn. by rewrite observed_at_twice.
      * rewrite !lookup_insert_ne by done. pose proof (He j) as Hj. destruct (events a !! j), (hosts !! j); try done.
        intros u Hu. apply Hj. lia.
  - rewrite bool_decide_false by (by intros [? ?]). cbn [andb]. split; [done|]. cbn [snd]. unfold cleanupHosts.
    rewrite cleanup_has_room by lia. split; cbn; [by rewrite Hbans|]. intros j. destruct (decide (j = ip)) as [->|Hne].
    + by rewrite !lookup_insert_eq.
    + rewrite !lookup_insert_ne by done. pose proof (He j) as Hj. destruct (events a !! j), (hosts !! j); try done.
      intros u Hu. apply Hj. lia.
Qed.

Lemma spec_IsBanned T t ip protocol a d : stands_for T a d → T <= t →
  let s := spec_step t (Call_IsBanned ip protocol) a in
  let r := defender_step (fun _ => t) (Call_IsBanned ip protocol) d in
  r.1 = s.1 ∧ stands_for t s.2 r.2.
Proof.
  intros Hs HT. cbn [spec_step defender_step]. unfold IsBanned, IsBanned_read. rewrite (active_ban_banned_at T t ip a d Hs).
  pose proof (stands_for_later _ _ _ _ HT Hs) as [Hbans He]. destruct (banned_at t ip a) eqn:Hban; [|by split].
  unfold banned_at in Hban. destruct (bans a !! ip) as [v|] eqn:Hv; [|done]. cbn. split; [done|].
  split; [|done]. cbn. rewrite Hbans. apply map_eq. intros j. destruct (decide (j = ip)) as [->|Hne].
  - rewrite lookup_alter_eq, lookup_insert_eq. by rewrite <- Hbans, Hv.
  - by rewrite lookup_alter_ne, lookup_insert_ne.
Qed.

Lemma spec_DeleteHost T t ip a d : stands_for T a d → T <= t →
  let s := spec_step t (Call_DeleteHost ip) a in
  let r := defender_step (fun _ => t) (Call_DeleteHost ip) d in
  r.1 = s.1 ∧ stands_for t s.2 r.2.
Proof.
  intros Hs HT. cbn [spec_step defender_step]. unfold DeleteHost.
  pose proof (stands_for_later _ _ _ _ HT Hs) as [Hbans He]. rewrite <- Hbans. destruct (bans a !! ip) as [v|] eqn:Hv.
  - rewrite bool_decide_true by eauto. rewrite decide_True by eauto. split; [done|]. split; cbn; [by rewrite Hbans|done].
  - rewrite (bool_decide_false (is_Some None)) by (by intros [? ?]). rewrite decide_False by (by intros [? ?]). cbn [orb].
    pose proof (He ip) as Hip. destruct (events a !! ip) as [es|] eqn:Hes, (memoryDefender.hosts d !! ip) as [hs|] eqn:Hho; try done.
    + rewrite bool_decide_true by eauto. split; [done|]. split; cbn; [done|]. intros j.
      destruct (decide (j = ip)) as [->|Hne]; [by rewrite !lookup_delete_eq|]. rewrite !lookup_delete_ne by done. apply He.
    + rewrite bool_decide_false by (by intros [? ?]). split; [done|]. split; cbn; [done|]. intros j.
      destruct (decide (j = ip)) as [->|Hne]; [by rewrite lookup_delete_eq, Hho|]. rewrite lookup_delete_ne by done. apply He.
Qed.

Lemma spec_step_refines T t c a d : stands_for T a d → T <= t → has_room d →
  (defender_step (fun _ => t) c d).1 = (spec_step t c a).1 ∧ stands_for t (spec_step t c a).2 (defender_step (fun _ => t) c d).2.
Proof. intros. destruct c; [by eapply spec_AddEvent|by eapply spec_IsBanned|by eapply spec_DeleteHost]. Qed.

Lemma GetScore_at T t ip a d : stands_for T a d → T <= t → GetScore config (fun _ => t) ip d = score_at t ip a.
Proof.
  intros [_ He] HT. unfold GetScore, score_at. specialize (He ip). destruct (events a !! ip), (memoryDefender.hosts d !! ip); try done.
  cbn. by rewrite (He t HT).
Qed.

Definition at_instant (tc : Z * defender_call) : (nat → Z) * defender_call := (fun _ => tc.1, tc.2).


(** An unban can be undone: when a banned host is checked while an
    administrator deletes it, and the deletion comes between the two steps of
    the check, the host stays banned, for longer than before. *)
Theorem unban_is_undone now ip d v : active_ban now ip d = Some v →
  match IsBanned_read config now ip d with
  | Some banTime =>
      let '(found, d') := DeleteHost ip d in
      found = true ∧ GetBanTime ip d' = None ∧ GetBanTime ip (IsBanned_write ip banTime d') = Some (v + minutes (ban_increment config))
  | None => False
  end.
Proof.
  intros Ha. unfold IsBanned_read. rewrite Ha. cbn. unfold active_ban in Ha. unfold DeleteHost.
  destruct (memoryDefender.banned d !! ip) as [w|] eqn:Hw; [|done]. destruct (_ <? _); [|done]. injection Ha as ->.
  unfold GetBanTime. cbn. split_and!; [done|apply lookup_delete_eq|apply lookup_insert_eq].
Qed.
End runs.

(** * Samples *)

Import ListRanger.
#[local] Instance list_order : MapOrder := fun _ m => map_to_list m.
#[local] Instance list_order_laws : MapOrderLaws.
Proof. by intros A m. Qed.

Definition defender_config : cfg :=
  DefenderConfig.mk true "memory" 30 50 4 2 1 3 (-1) 30 1 2.
Definition no_list : IPList.t := IPList.mk _ true IPListTypeDefender NewPCTrieRanger.
Definition minute_calls : list (Z * defender_call) :=
  [ (0, Call_AddEvent "10.0.0.1" "SSH" HostEventUserNotFound);
    (minutes 1, Call_AddEvent "10.0.0.1" "FTP" HostEventLoginFailed);
    (minutes 30, Call_AddEvent "10.0.0.1" "SSH" HostEventUserNotFound);
    (minutes 30, Call_AddEvent "10.0.0.1" "SSH" HostEventUserNotFound);
    (minutes 40, Call_IsBanned "10.0.0.1" "SSH");
    (minutes 41, Call_IsBanned "10.0.0.2" "SSH")].

(** a ban is deleted and the host counted again between the two parts of a check *)
Definition racing_calls : list ((nat → Z) * defender_event) :=
  (fun '(t, e) => (fun _ => t, e)) <$>
  [ (0, Event_AddEvent "10.0.0.1" "SSH" HostEventUserNotFound); (0, Event_AddEvent "10.0.0.1" "SSH" HostEventUserNotFound);
    (minutes 1, Event_Read "10.0.0.1"); (minutes 1, Event_DeleteHost "10.0.0.1");
    (minutes 1, Event_AddEvent "10.0.0.1" "SSH" HostEventLoginFailed); (minutes 1, Event_Write 0)].
Definition valid_config : cfg := defender_config <| DefenderConfig.ScoreNoAuth := 0 |>.

Lemma defender_stays_within_limits_witness :
  let x := concurrent_run valid_config DB.init no_list racing_calls (idle (memoryDefender.mk ∅ ∅)) in
  revived x = ["10.0.0.1"] ∧ within_limits valid_config (revived x) (defender x).
Proof.
  split; [vm_compute; reflexivity|].
  apply (defender_stays_within_limits _ DB.init no_list defender_config); [vm_compute; reflexivity|reflexivity].
Defined.
(** Between the two parts of a check the ban may be deleted and the host counted
    again: it is then both counted and banned. *)
Theorem revived_ban_breaks_limits :
  let d := defender (concurrent_run valid_config DB.init no_list racing_calls (idle (memoryDefender.mk ∅ ∅))) in
  is_Some (memoryDefender.hosts d !! "10.0.0.1") ∧ GetBanTime "10.0.0.1" d = Some (minutes 45).
Proof. split; [eexists|]; vm_compute; reflexivity. Qed.


Lemma unban_is_undone_witness :
  let d := memoryDefender.mk ∅ {[ "10.0.0.1" := minutes 30 ]} in
  match IsBanned_read defender_config (fun _ => minutes 10) "10.0.0.1" d with
  | Some banTime =>
      let '(found, d') := DeleteHost "10.0.0.1" d in
      found = true ∧ GetBanTime "10.0.0.1" d' = None ∧ GetBanTime "10.0.0.1" (IsBanned_write "10.0.0.1" banTime d') = Some (minutes 45)
  | None => False
  end.
Proof.
  pose (d := memoryDefender.mk ∅ {[ "10.0.0.1" := minutes 30 ]}).
  assert (active_ban (fun _ => minutes 10) "10.0.0.1" d = Some (minutes 30)) as Ha by (vm_compute; reflexivity).
  exact (unban_is_undone defender_config (fun _ => minutes 10) "10.0.0.1" d (minutes 30) Ha).
Defined.
