(* ===== verification/DbDefender.v ===== *)
(** The defender that keeps its hosts in a database shared by several nodes
    (internal/common/defenderdb.go, internal/dataprovider/sqlcommon.go and
    sqlqueries.go).

    The two tables are the state, every statement of the code is what it does to
    them.  The database can refuse any statement: [down] says with which error.
    Times of the clock are nanoseconds, those of the rows milliseconds.  A node
    sends one statement at a time, so the steps of a call are definitions of
    their own ([call_step]) that other nodes can come in between. *)
From S2P Require Import Prelude GoPath Util Net Prefix FsConfig Entities Links Tables MemoryCore UserPerms IPLists Evict Defender.
Open Scope Z_scope.

(** * The tables *)

Module DbHost.
(* source: internal/dataprovider/pgsql.go#L81-L82 defender_hosts *)
Record t := mk { ID : Z; ban_time : Z; updated_at : Z }.
#[global] Instance eta : Settable t := {| settable := fun x => mk (ID x) (ban_time x) (updated_at x) |}.
End DbHost.
Module DbEvent.
(* source: internal/dataprovider/pgsql.go#L83-L84 defender_events *)
Record t := mk { date_time : Z; score : Z; host_id : Z }.
End DbEvent.
Module DbTables.
(** The address is a unique key of the hosts. *)
Record t := mk { hosts : gmap string DbHost.t; events : list DbEvent.t; next_id : Z }.
#[global] Instance eta : Settable t := {| settable := fun x => mk (hosts x) (events x) (next_id x) |}.
End DbTables.
Notation tables := DbTables.t.

(** [util.GetTimeAsMsSinceEpoch], [util.GetTimeFromMsecSinceEpoch] *)
Definition to_ms (t : Z) : Z := t / 1000000.
Definition from_ms (t : Z) : Z := mul64 t 1000000.

Inductive statement := InsertHostAndEvent | SelectHost | SelectHosts | SelectScores | SelectBanned
  | IncrementBan | SetBan | DeleteRow | CleanupEvents | CleanupHosts.

Section sql.
Variable down : statement → option error.
Implicit Types (t : tables) (ip : string).

Definition sql {A} (st : statement) (m : M tables A) : M tables A := fun t =>
  match down st with Some e => (Err e, t) | None => m t end.
Definition not_found {A} : M tables A := fail (RecordNotFoundError "host" "").

(** [INSERT … ON CONFLICT (ip) DO UPDATE SET updated_at] *)
(* source: internal/dataprovider/sqlcommon.go sqlCommonAddDefenderHost *)
Definition sqlCommonAddDefenderHost (now : Z) ip : M tables unit := modify (fun t =>
  match DbTables.hosts t !! ip with
  | Some h => t <| DbTables.hosts ::= <[ip := h <| DbHost.updated_at := to_ms now |>]> |>
  | None => t <| DbTables.hosts ::= <[ip := DbHost.mk (DbTables.next_id t) 0 (to_ms now)]> |> <| DbTables.next_id ::= Z.succ |>
  end).
(** the identifier of the host must not be NULL *)
(* source: internal/dataprovider/sqlcommon.go sqlCommonAddDefenderEvent *)
Definition sqlCommonAddDefenderEvent (now : Z) ip (score : Z) : M tables unit := fun t =>
  match DbTables.hosts t !! ip with
  | Some h => (Ok tt, t <| DbTables.events ::= fun l => DbEvent.mk (to_ms now) score (DbHost.ID h) :: l |>)
  | None => (Err (PlainError "not null constraint failed"), t)
  end.
(** one transaction *)
(* source: internal/dataprovider/sqlcommon.go sqlCommonAddDefenderHostAndEvent *)
Definition sqlCommonAddDefenderHostAndEvent (now : nat → Z) ip (score : Z) : M tables unit :=
  sql InsertHostAndEvent (fun t =>
    match (_ ← sqlCommonAddDefenderHost (now 0%nat) ip; sqlCommonAddDefenderEvent (now 1%nat) ip score) t with
    | (Ok _, t') => (Ok tt, t')
    | (Err e, _) => (Err e, t)
    end).

(** [SELECT SUM(score) … WHERE date_time >= from GROUP BY host_id], for one host *)
(* source: internal/dataprovider/sqlqueries.go getDefenderEventsQuery *)
Definition score_of (from : Z) (id : Z) (events : list DbEvent.t) : Z :=
  foldr (fun e sum => if (DbEvent.host_id e =? id) && (from <=? DbEvent.date_time e) then DbEvent.score e + sum else sum) 0 events.
(* source: internal/dataprovider/sqlcommon.go getDefenderHostsWithScores *)
Definition getDefenderHostsWithScores (hosts : list DefenderEntry.t) (from : Z) (idForScores : list Z) : M tables (list DefenderEntry.t) :=
  if bool_decide (idForScores = []) then mret hosts
  else
    events ← sql SelectScores (gets DbTables.events);
    mret (omap (fun h =>
      let score := if bool_decide (DefenderEntry.ID h ∈ idForScores) then Z.max 0 (score_of from (DefenderEntry.ID h) events) else 0 in
      if (0 <? score) || negb (is_none (DefenderEntry.BanTime h))
      then Some (DefenderEntry.mk (DefenderEntry.ID h) (DefenderEntry.IP h) score (DefenderEntry.BanTime h)) else None) hosts).

(** [updated_at >= from OR ban_time > 0] *)
(* source: internal/dataprovider/sqlqueries.go getDefenderHostQuery *)
Definition is_listed (from : Z) (h : DbHost.t) : bool := (from <=? DbHost.updated_at h) || (0 <? DbHost.ban_time h).
(** the ban that has not expired *)
Definition ban_of (now : Z) (h : DbHost.t) : option Z :=
  if (0 <? DbHost.ban_time h) && (now <? from_ms (DbHost.ban_time h)) then Some (from_ms (DbHost.ban_time h)) else None.
Definition db_entry (now : Z) ip (h : DbHost.t) : DefenderEntry.t := DefenderEntry.mk (DbHost.ID h) ip 0 (ban_of now h).

(** the row, and its scores where they are needed *)
Definition select_host (from : Z) ip : M tables DbHost.t :=
  row ← sql SelectHost (gets (fun t => h ← DbTables.hosts t !! ip; if is_listed from h then Some h else None));
  match row with Some h => mret h | None => not_found end.
Definition select_score (host : DefenderEntry.t) (from : Z) : M tables DefenderEntry.t :=
  hosts ← getDefenderHostsWithScores [host] from [DefenderEntry.ID host];
  match hosts with [] => not_found | host :: _ => mret host end.
(* source: internal/dataprovider/sqlcommon.go sqlCommonGetDefenderHostByIP *)
Definition sqlCommonGetDefenderHostByIP (now : Z) ip (from : Z) : M tables DefenderEntry.t :=
  h ← select_host from ip;
  let host := db_entry now ip h in
  if DefenderEntry.BanTime host is Some _ then mret host else select_score host from.

(** The order of the rows that were updated at the same time is arbitrary. *)
Definition updated_later (x y : string * DbHost.t) : Prop := DbHost.updated_at y.2 <= DbHost.updated_at x.2.
#[local] Instance updated_later_dec : RelDecision updated_later.
Proof. intros x y. unfold updated_later. apply _. Defined.
(* source: internal/dataprovider/sqlqueries.go getDefenderHostsQuery *)
Definition listed_hosts {O : MapOrder} (from : Z) (limit : nat) t : list (string * DbHost.t) :=
  take limit (merge_sort updated_later (filter (fun '(_, h) => is_listed from h = true) (map_order (DbTables.hosts t)))).
(* source: internal/dataprovider/sqlcommon.go sqlCommonGetDefenderHosts *)
Definition sqlCommonGetDefenderHosts {O : MapOrder} (now : Z) (from : Z) (limit : nat) : M tables (list DefenderEntry.t) :=
  rows ← sql SelectHosts (gets (listed_hosts from limit));
  let hosts := (fun '(ip, h) => db_entry now ip h) <$> rows in
  getDefenderHostsWithScores hosts from (DefenderEntry.ID <$> List.filter (fun h => is_none (DefenderEntry.BanTime h)) hosts).

(* source: internal/dataprovider/sqlcommon.go sqlCommonIsDefenderHostBanned *)
Definition sqlCommonIsDefenderHostBanned (now : Z) ip : M tables Z :=
  row ← sql SelectBanned (gets (fun t => h ← DbTables.hosts t !! ip; if to_ms now <=? DbHost.ban_time h then Some (DbHost.ID h) else None));
  match row with Some id => mret id | None => not_found end.

Definition update_host ip (f : DbHost.t → DbHost.t) : M tables unit := modify (fun t => t <| DbTables.hosts ::= alter f ip |>).
(* source: internal/dataprovider/sqlcommon.go sqlCommonDefenderIncrementBanTime *)
Definition sqlCommonDefenderIncrementBanTime ip (minutesToAdd : Z) : M tables unit :=
  sql IncrementBan (update_host ip (fun h => h <| DbHost.ban_time ::= fun b => b + mul64 minutesToAdd 60000 |>)).
(* source: internal/dataprovider/sqlcommon.go sqlCommonSetDefenderBanTime *)
Definition sqlCommonSetDefenderBanTime ip (banTime : Z) : M tables unit :=
  sql SetBan (update_host ip (fun h => h <| DbHost.ban_time := banTime |>)).

(** The foreign key deletes the events of a host with it. *)
Definition keep_hosts (keep : string → DbHost.t → bool) t : tables :=
  let gone := DbHost.ID <$> omap (fun '(ip, h) => if keep ip h then None else Some h) (map_to_list (DbTables.hosts t)) in
  t <| DbTables.hosts ::= filter (fun '(ip, h) => keep ip h = true) |>
    <| DbTables.events ::= List.filter (fun e => negb (bool_decide (DbEvent.host_id e ∈ gone))) |>.
(* source: internal/dataprovider/sqlcommon.go sqlCommonDeleteDefenderHost *)
Definition sqlCommonDeleteDefenderHost ip : M tables unit :=
  sql DeleteRow (fun t => match DbTables.hosts t !! ip with
                          | Some _ => (Ok tt, keep_hosts (fun ip' _ => negb (ip' =s ip)) t)
                          | None => (Err (RecordNotFoundError "sql: no rows in result set" ""), t)
                          end).
(* source: internal/dataprovider/sqlcommon.go sqlCommonCleanupDefenderEvents *)
Definition sqlCommonCleanupDefenderEvents (from : Z) : M tables unit :=
  sql CleanupEvents (modify (fun t => t <| DbTables.events ::= List.filter (fun e => negb (DbEvent.date_time e <? from)) |>)).
(* source: internal/dataprovider/sqlqueries.go getDefenderHostsCleanupQuery *)
Definition is_stale (now from : Z) (events : list DbEvent.t) (h : DbHost.t) : bool :=
  (DbHost.ban_time h <? to_ms now) && negb (existsb (fun e => (DbEvent.host_id e =? DbHost.ID h) && (from <? DbEvent.date_time e)) events).
(* source: internal/dataprovider/sqlcommon.go sqlCommonCleanupDefenderHosts *)
Definition sqlCommonCleanupDefenderHosts (now from : Z) : M tables unit :=
  sql CleanupHosts (modify (fun t => keep_hosts (fun _ h => negb (is_stale now from (DbTables.events t) h)) t)).
(* source: internal/dataprovider/sqlcommon.go sqlCommonDefenderCleanup *)
Definition sqlCommonDefenderCleanup (now from : Z) : M tables unit :=
  _ ← sqlCommonCleanupDefenderEvents from;
  sqlCommonCleanupDefenderHosts now from.

(* source: internal/dataprovider/dataprovider.go AddDefenderEvent *)
Definition AddDefenderEvent (now : nat → Z) ip (score from : Z) : M tables DefenderEntry.t :=
  _ ← sqlCommonAddDefenderHostAndEvent now ip score;
  sqlCommonGetDefenderHostByIP (now 2%nat) ip from.
End sql.

(** * The defender of a node *)

Module DbDefender.
(** The shared tables and the time, in milliseconds, of the last clean-up of
    this node, 0 for never. *)
(* source: internal/common/defenderdb.go dbDefender *)
Record t := mk { rows : tables; lastCleanup : Z }.
#[global] Instance eta : Settable t := {| settable := fun x => mk (rows x) (lastCleanup x) |}.
End DbDefender.

Definition on_rows {A} (m : M tables A) : M DbDefender.t A := fun d =>
  let '(r, t) := m (DbDefender.rows d) in (r, d <| DbDefender.rows := t |>).

Section defender.
Context {R : Ranger} {O : MapOrder}.
Variables (config : cfg) (db : DB.t) (ipList : IPList.t).
Variable down : statement → option error.
Implicit Types (now : nat → Z) (ip protocol : string).

(* source: internal/common/defenderdb.go getStartObservationTime *)
Definition getStartObservationTime (now : Z) : Z := to_ms (now - minutes (DefenderConfig.ObservationTime config)).

(* source: internal/common/defenderdb.go dbDefender.GetHosts *)
Definition db_GetHosts now : M tables (list DefenderEntry.t) :=
  sqlCommonGetDefenderHosts down (now 1%nat) (getStartObservationTime (now 0%nat)) (Z.to_nat (DefenderConfig.EntriesHardLimit config)).
(* source: internal/common/defenderdb.go dbDefender.GetHost *)
Definition db_GetHost now ip : M tables DefenderEntry.t :=
  sqlCommonGetDefenderHostByIP down (now 1%nat) ip (getStartObservationTime (now 0%nat)).
(** An error lets the host in; the one of the update is ignored. *)
(* source: internal/common/defenderdb.go dbDefender.IsBanned *)
Definition db_IsBanned now ip protocol : M tables bool :=
  if isBanned db ipList ip protocol then mret true
  else try_catch (sqlCommonIsDefenderHostBanned down (now 0%nat) ip)
         (fun _ => _ ← ignore (sqlCommonDefenderIncrementBanTime down ip (ban_increment config)); mret true)
         (fun _ => mret false).
(* source: internal/common/defenderdb.go dbDefender.DeleteHost *)
Definition db_DeleteHost now ip : M tables bool :=
  try_catch (db_GetHost now ip)
    (fun _ => try_catch (sqlCommonDeleteDefenderHost down ip) (fun _ => mret true) (fun _ => mret false))
    (fun _ => mret false).
(* source: internal/common/defenderdb.go dbDefender.GetBanTime *)
Definition db_GetBanTime now ip : M tables (option Z) := host ← db_GetHost now ip; mret (DefenderEntry.BanTime host).
(* source: internal/common/defenderdb.go dbDefender.GetScore *)
Definition db_GetScore now ip : M tables Z := host ← db_GetHost now ip; mret (DefenderEntry.Score host).

(* source: internal/common/defenderdb.go setLastCleanup *)
Definition setLastCleanup (when : Z) : M DbDefender.t unit := modify (fun d => d <| DbDefender.lastCleanup := when |>).
(** [lastCleanup.IsZero() || lastCleanup.Add(3 * observation time).Before(time.Now())] *)
Definition cleanup_due (now : Z) (lastCleanup : Z) : bool :=
  (lastCleanup =? 0) || (from_ms lastCleanup + mul64 (minutes (DefenderConfig.ObservationTime config)) 3 <? now).
(* source: internal/common/defenderdb.go dbDefender.cleanup *)
Definition db_cleanup now : M DbDefender.t unit :=
  last ← gets DbDefender.lastCleanup;
  if cleanup_due (now 0%nat) last then
    _ ← setLastCleanup (to_ms (now 1%nat));
    let expireTime := now 2%nat - minutes (DefenderConfig.ObservationTime config + 1) in
    try_catch (on_rows (sqlCommonDefenderCleanup down (now 3%nat) (to_ms expireTime))) mret (fun _ => setLastCleanup last)
  else mret tt.

Definition new_ban (now : Z) : Z := to_ms (now + minutes (DefenderConfig.BanTime config)).
(** what a call does with the score of the host *)
Definition ban_over_threshold now ip (host : DefenderEntry.t) : M DbDefender.t bool :=
  if DefenderConfig.Threshold config <? DefenderEntry.Score host then
    try_catch (on_rows (sqlCommonSetDefenderBanTime down ip (new_ban (now 0%nat))))
      (fun _ => _ ← db_cleanup (fun i => now (S i)); mret true) (fun _ => mret false)
  else _ ← db_cleanup now; mret false.
(** whether the "IP blocked" event is sent to the event manager *)
(* source: internal/common/defenderdb.go dbDefender.AddEvent *)
Definition db_AddEvent now ip protocol (event : HostEvent) : M DbDefender.t bool :=
  if IsSafe db ipList ip protocol then mret false
  else
    try_catch (on_rows (AddDefenderEvent down (fun i => now (S i)) ip (getScore config event) (getStartObservationTime (now 0%nat))))
      (ban_over_threshold (fun i => now (4 + i)%nat) ip) (fun _ => mret false).

(** ** One statement at a time *)

(** Where a call of [AddEvent] is: before it, with the start of the observation
    and before the insertion, after it, between the two queries of
    [GetDefenderHostByIP], and with a score that asks for a ban. *)
Inductive call :=
  | NoCall
  | Inserting (ip : string) (score from : Z)
  | Selecting (ip : string) (from : Z)
  | Scoring (ip : string) (host : DefenderEntry.t) (from : Z)
  | Banning (ip : string).
Definition after_query (ip : string) (r : res DefenderEntry.t) : call :=
  match r with
  | Ok host => if DefenderConfig.Threshold config <? DefenderEntry.Score host then Banning ip else NoCall
  | Err _ => NoCall
  end.
(* source: internal/common/defenderdb.go dbDefender.AddEvent *)
Definition call_step now (c : call) (t : tables) : call * tables :=
  match c with
  | NoCall => (NoCall, t)
  | Inserting ip score from =>
      match sqlCommonAddDefenderHostAndEvent down now ip score t with
      | (Ok _, t) => (Selecting ip from, t)
      | (Err _, t) => (NoCall, t)
      end
  | Selecting ip from =>
      match select_host down from ip t with
      | (Ok h, t) =>
          let host := db_entry (now 0%nat) ip h in
          if DefenderEntry.BanTime host is Some _ then (after_query ip (Ok host), t) else (Scoring ip host from, t)
      | (Err _, t) => (NoCall, t)
      end
  | Scoring ip host from => let '(r, t) := select_score down host from t in (after_query ip r, t)
  | Banning ip => (NoCall, (sqlCommonSetDefenderBanTime down ip (new_ban (now 0%nat)) t).2)
  end.
Definition start_call (now : Z) (ip : string) (event : HostEvent) : call :=
  Inserting ip (getScore config event) (getStartObservationTime now).
End defender.

Section new.
Context {R : Ranger}.
(* source: internal/common/defenderdb.go newDBDefender *)
Definition newDBDefender (config : cfg) (db : DB.t) : res (cfg * IPList.t * Z) :=
  config ← defender_validate config;
  ipList ← NewIPList db IPListTypeDefender;
  Ok (config, ipList, 0).
End new.
