(* ===== verification/DbDefenderProps.v ===== *)
(** What the defender with a shared database guarantees: however the calls of
    the nodes interleave no ban is lost ([no_ban_is_lost]), and a clean-up,
    complete or not, changes no answer ([cleanup_invisible]).  It differs from
    the one in memory at the threshold ([drivers_differ_at_threshold]) and after
    a ban ([old_events_ban_again]). *)
From S2P Require Import Prelude GoPath Util Net Prefix FsConfig Entities Links Tables MemoryCore UserPerms IPLists IPListSync Evict Defender DefenderProps DbDefender.
From stdpp Require Import relations.
Open Scope Z_scope.

(** * Times *)

Lemma to_ms_mono a b : a <= b → to_ms a <= to_ms b.
Proof. intros H. unfold to_ms. apply Z.div_le_mono; lia. Qed.
Lemma from_ms_exact b : 0 <= b → b * 1000000 <= MaxInt64 → from_ms b = b * 1000000.
Proof. intros. apply wrap64_id. unfold in_int64, MinInt64, MaxInt64 in *. lia. Qed.

(** A ban that is not over, of whatever length, does not lie in the past. *)
Lemma ban_of_Some now h b : now <= MaxInt64 → ban_of now h = Some b → to_ms now <= DbHost.ban_time h.
Proof.
  unfold ban_of. intros Hn H. destruct (Z.ltb_spec 0 (DbHost.ban_time h)) as [Hb|]; [|done]. cbn [andb] in H.
  destruct (Z.ltb_spec now (from_ms (DbHost.ban_time h))) as [Hlt|]; [|done]. unfold to_ms.
  destruct (Z.le_gt_cases (DbHost.ban_time h * 1000000) MaxInt64).
  - rewrite from_ms_exact in Hlt by lia. apply Z.lt_succ_r, Z.div_lt_upper_bound; lia.
  - apply Z.lt_le_incl, Z.div_lt_upper_bound; lia.
Qed.
Lemma ban_of_None now h : 0 <= now <= MaxInt64 → DbHost.ban_time h < to_ms now → ban_of now h = None.
Proof.
  intros Hn H. unfold ban_of. destruct (Z.ltb_spec 0 (DbHost.ban_time h)); [|done]. cbn [andb].
  assert (1000000 * to_ms now <= now) by (apply Z.mul_div_le; lia).
  rewrite from_ms_exact by lia. by rewrite (proj2 (Z.ltb_ge _ _)) by lia.
Qed.

(** * Scores *)

Definition no_penalty_is_negative (events : list DbEvent.t) : Prop := ∀ e, e ∈ events → 0 <= DbEvent.score e.

Definition counts_for (from id : Z) (e : DbEvent.t) : bool := (DbEvent.host_id e =? id) && (from <=? DbEvent.date_time e).
Lemma score_of_cons from id e events :
  score_of from id (e :: events) = if counts_for from id e then DbEvent.score e + score_of from id events else score_of from id events.
Proof. done. Qed.
Lemma score_of_nonneg from id events : no_penalty_is_negative events → 0 <= score_of from id events.
Proof.
  induction events as [|e events IH]; intros H; [done|]. rewrite score_of_cons.
  assert (0 <= score_of from id events) by (apply IH; intros ? ?; apply H; by right).
  pose proof (H e (list_elem_of_here _ _)). destruct (counts_for _ _ _); lia.
Qed.
(** less is observed later, and of fewer events *)
Lemma score_of_le from from' id events events' : no_penalty_is_negative events → from <= from' → events' `sublist_of` events →
  score_of from' id events' <= score_of from id events.
Proof.
  intros H Hf Hs. induction Hs as [|e l l' Hs IH|e l l' Hs IH]; [done|..]; rewrite ?score_of_cons.
  all: assert (score_of from' id l <= score_of from id l') by (apply IH; intros ? ?; apply H; by right).
  all: pose proof (H e (list_elem_of_here _ _)).
  - unfold counts_for. destruct (DbEvent.host_id e =? id); cbn [andb]; [|done].
    destruct (Z.leb_spec from (DbEvent.date_time e)), (Z.leb_spec from' (DbEvent.date_time e)); lia.
  - destruct (counts_for from id e); lia.
Qed.
(** what does not count can go *)
Lemma score_of_filter keep from id events :
  (∀ e, e ∈ events → keep e = false → counts_for from id e = false) →
  score_of from id (List.filter keep events) = score_of from id events.
Proof.
  induction events as [|e events IH]; intros H; [done|]. cbn [List.filter].
  assert (score_of from id (List.filter keep events) = score_of from id events) as IH' by (apply IH; intros ? ?; apply H; by right).
  destruct (keep e) eqn:Hk; rewrite !score_of_cons, IH'; [done|]. by rewrite (H e) by (done || by left).
Qed.
Lemma score_of_zero from id events : (∀ e, e ∈ events → counts_for from id e = false) →
  score_of from id events = 0.
Proof.
  induction events as [|e events IH]; intros H; [done|]. rewrite score_of_cons, (H e) by (by left). apply IH. intros ? ?. apply H. by right.
Qed.

Lemma List_filter_sublist {A} (f : A → bool) l : List.filter f l `sublist_of` l.
Proof. induction l as [|x l IH]; cbn; [done|]. destruct (f x); by constructor. Qed.

(** * The tables *)

(** The identifiers of the hosts are distinct and used up, and every event
    belongs to a host. *)
Record wf_tables (t : tables) : Prop := {
  wf_ids : ∀ ip ip' h h', DbTables.hosts t !! ip = Some h → DbTables.hosts t !! ip' = Some h' → DbHost.ID h = DbHost.ID h' → ip = ip';
  wf_used : ∀ ip h, DbTables.hosts t !! ip = Some h → DbHost.ID h < DbTables.next_id t;
  wf_linked : ∀ e, e ∈ DbTables.events t → ∃ ip h, DbTables.hosts t !! ip = Some h ∧ DbHost.ID h = DbEvent.host_id e;
}.

Lemma wf_no_tables n : wf_tables (DbTables.mk ∅ [] n).
Proof. split; cbn; intros *; [by rewrite lookup_empty..|by intros ?%elem_of_nil]. Qed.

(** Rows that go or get a new ban. *)
Lemma wf_alter t ip f : (∀ h, DbHost.ID (f h) = DbHost.ID h) → wf_tables t → wf_tables (t <| DbTables.hosts ::= alter f ip |>).
Proof.
  intros Hf W. destruct t as [hosts events n]. cbn.
  assert (∀ j h, alter f ip hosts !! j = Some h → ∃ h0, hosts !! j = Some h0 ∧ DbHost.ID h = DbHost.ID h0) as Hl.
  { intros j h Hj. destruct (decide (ip = j)) as [<-|]; [rewrite lookup_alter_eq in Hj|rewrite lookup_alter_ne in Hj by done; eauto].
    destruct (hosts !! ip) as [h0|]; [|done]. injection Hj as <-. eauto. }
  split; cbn.
  - intros j j' h h' (h0 & H0 & ->)%Hl (h0' & H0' & ->)%Hl. by eapply (wf_ids _ W).
  - intros j h (h0 & H0 & ->)%Hl. by eapply (wf_used _ W).
  - intros e (j & h & Hj & He)%(wf_linked _ W). cbn in Hj. exists j. destruct (decide (ip = j)) as [<-|].
    + exists (f h). rewrite lookup_alter_eq, Hj. by rewrite Hf.
    + exists h. by rewrite lookup_alter_ne.
Qed.
Lemma keep_hosts_lookup keep t ip h :
  DbTables.hosts (keep_hosts keep t) !! ip = Some h ↔ DbTables.hosts t !! ip = Some h ∧ keep ip h = true.
Proof. destruct t as [hosts events n]. cbn. by rewrite map_lookup_filter_Some. Qed.
Lemma elem_of_gone keep (hosts : gmap string DbHost.t) id :
  id ∈ DbHost.ID <$> omap (fun '(ip, h) => if keep ip h : bool then None else Some h) (map_to_list hosts) ↔
  ∃ ip h, hosts !! ip = Some h ∧ keep ip h = false ∧ DbHost.ID h = id.
Proof.
  rewrite list_elem_of_fmap. setoid_rewrite list_elem_of_omap. split.
  - intros (h & -> & [ip h'] & Hin & H). apply elem_of_map_to_list in Hin. destruct (keep ip h') eqn:?; simplify_eq. eauto.
  - intros (ip & h & Hl & Hk & <-). exists h. split; [done|]. exists (ip, h). split; [by apply elem_of_map_to_list|by rewrite Hk].
Qed.
Lemma keep_hosts_events keep t e : e ∈ DbTables.events (keep_hosts keep t) ↔
  e ∈ DbTables.events t ∧ ¬ ∃ ip h, DbTables.hosts t !! ip = Some h ∧ keep ip h = false ∧ DbHost.ID h = DbEvent.host_id e.
Proof.
  destruct t as [hosts events n]. cbn. rewrite elem_of_filter_b, negb_true_iff, bool_decide_eq_false. by rewrite elem_of_gone.
Qed.
Lemma wf_keep_hosts keep t : wf_tables t → wf_tables (keep_hosts keep t).
Proof.
  intros W. split.
  - intros ip ip' h h' [H _]%keep_hosts_lookup [H' _]%keep_hosts_lookup. by eapply (wf_ids _ W).
  - intros ip h [H _]%keep_hosts_lookup. by apply (wf_used _ W) in H.
  - intros e [He Hn]%keep_hosts_events. destruct (wf_linked _ W e He) as (ip & h & Hl & Hid). exists ip, h. split; [|done].
    apply keep_hosts_lookup. split; [done|]. destruct (keep ip h) eqn:?; [done|]. exfalso. apply Hn. eauto.
Qed.
Lemma wf_fewer_events keep t : wf_tables t → wf_tables (t <| DbTables.events ::= List.filter keep |>).
Proof.
  intros W. destruct t as [hosts events n]. split; cbn; [apply (wf_ids _ W)|apply (wf_used _ W)|].
  intros e [He _]%elem_of_filter_b. by apply (wf_linked _ W).
Qed.

(** * What the queries answer *)

Notation up := (fun _ : statement => None).

Lemma select_score_up host from t :
  select_score up host from t =
  (if 0 <? Z.max 0 (score_of from (DefenderEntry.ID host) (DbTables.events t)) then
     Ok (DefenderEntry.mk (DefenderEntry.ID host) (DefenderEntry.IP host)
           (Z.max 0 (score_of from (DefenderEntry.ID host) (DbTables.events t))) (DefenderEntry.BanTime host))
   else if DefenderEntry.BanTime host is Some _ then
     Ok (DefenderEntry.mk (DefenderEntry.ID host) (DefenderEntry.IP host)
           (Z.max 0 (score_of from (DefenderEntry.ID host) (DbTables.events t))) (DefenderEntry.BanTime host))
   else Err (RecordNotFoundError "host" ""), t).
Proof.
  unfold select_score, getDefenderHostsWithScores. rewrite bool_decide_false by done.
  unfold mbind, M_bind, sql, gets, mret, M_ret. cbn [omap list_omap].
  rewrite bool_decide_true by by left. destruct (_ <? _); cbn [orb]; [done|]. by destruct (DefenderEntry.BanTime host).
Qed.
Lemma select_host_up from ip t :
  select_host up from ip t =
  (match DbTables.hosts t !! ip with
   | Some h => if is_listed from h then Ok h else Err (RecordNotFoundError "host" "")
   | None => Err (RecordNotFoundError "host" "")
   end, t).
Proof.
  unfold select_host, mbind at 1, M_bind, sql, gets. destruct (DbTables.hosts t !! ip) as [h|]; cbn; [|done]. by destruct (is_listed from h).
Qed.
(** The answer about a host depends on its row and its score alone. *)
Lemma get_host_up now ip from t :
  sqlCommonGetDefenderHostByIP up now ip from t =
  (match DbTables.hosts t !! ip with
   | None => Err (RecordNotFoundError "host" "")
   | Some h =>
       if negb (is_listed from h) then Err (RecordNotFoundError "host" "")
       else if ban_of now h is Some _ then Ok (db_entry now ip h)
       else let score := score_of from (DbHost.ID h) (DbTables.events t) in
            if 0 <? score then Ok (DefenderEntry.mk (DbHost.ID h) ip score None) else Err (RecordNotFoundError "host" "")
   end, t).
Proof.
  unfold sqlCommonGetDefenderHostByIP, mbind at 1, M_bind. rewrite select_host_up.
  destruct (DbTables.hosts t !! ip) as [h|]; [|done]. destruct (is_listed from h); [|done]. cbn [negb].
  unfold db_entry. cbn [DefenderEntry.BanTime]. destruct (ban_of now h) as [b|]; [done|]. rewrite select_score_up. cbn.
  destruct (Z.ltb_spec 0 (score_of from (DbHost.ID h) (DbTables.events t))).
  - rewrite Z.max_r by lia. by rewrite (proj2 (Z.ltb_lt _ _)) by done.
  - by rewrite Z.max_l by done.
Qed.

(** * Several nodes *)

Module DbCluster.
(** The tables, the call of every node, the clock they share and the addresses
    whose last event was recorded but not followed by a ban because the
    database refused the statement. *)
Record t := mk { rows : tables; calls : gmap nat call; clock : Z; unanswered : gset string }.
End DbCluster.
Import DbCluster.

Section nodes.
Variable config : cfg.
Notation start := (getStartObservationTime config).
Notation Thr := (DefenderConfig.Threshold config).

(** What the other functions of the defender send. *)
Definition other_statement (down : statement → option error) (now : Z) (m : M tables unit) : Prop :=
  (∃ ip, m = sqlCommonDefenderIncrementBanTime down ip (ban_increment config)) ∨
  (∃ ip, m = sqlCommonDeleteDefenderHost down ip) ∨
  (∃ from, m = sqlCommonCleanupDefenderEvents down from) ∨
  (∃ from, m = sqlCommonCleanupDefenderHosts down now from).
(** The address after a step of a call: its statement is the only one of the
    step. *)
Definition refused (down : statement → option error) (j : call) (u : gset string) : gset string :=
  match j with
  | NoCall => u
  | Inserting ip _ _ => if down InsertHostAndEvent is Some _ then u else u ∖ {[ip]}
  | Selecting ip _ => if down SelectHost is Some _ then {[ip]} ∪ u else u
  | Scoring ip _ _ => if down SelectScores is Some _ then {[ip]} ∪ u else u
  | Banning ip => if down SetBan is Some _ then {[ip]} ∪ u else u
  end.
(** A node begins a call, a call goes on, or a statement of something else is
    executed.  The clock passes while the step reads it. *)
Inductive step : DbCluster.t → DbCluster.t → Prop :=
  | start_step c node ip event now now' : clock c <= now <= now' → now' <= MaxInt64 → calls c !! node = Some NoCall →
      step c (mk (rows c) (<[node := start_call config now ip event]> (calls c)) now' (unanswered c))
  | go_on_step c node j down now now' j' t' : (∀ i, clock c <= now i <= now') → now' <= MaxInt64 → calls c !! node = Some j →
      call_step config down now j (rows c) = (j', t') → step c (mk t' (<[node := j']> (calls c)) now' (refused down j (unanswered c)))
  | other_step c down now now' m : clock c <= now <= now' → now' <= MaxInt64 → other_statement down now m →
      step c (mk (m (rows c)).2 (calls c) now' (unanswered c)).
Definition initial (c : DbCluster.t) : Prop :=
  DbTables.hosts (rows c) = ∅ ∧ DbTables.events (rows c) = [] ∧ (∀ node j, calls c !! node = Some j → j = NoCall) ∧ 0 <= clock c <= MaxInt64 ∧ unanswered c = ∅.
Definition idle (c : DbCluster.t) : Prop := ∀ node j, calls c !! node = Some j → j = NoCall.

(** The numbers of the configuration do not overflow. *)
Record sane : Prop := {
  sane_threshold : 0 <= Thr;
  sane_scores : ∀ e, 0 <= getScore config e;
  sane_ban : 0 <= minutes (DefenderConfig.BanTime config);
  sane_observation : 0 <= minutes (DefenderConfig.ObservationTime config);
  sane_cleanup : minutes (DefenderConfig.ObservationTime config + 1) = minutes (DefenderConfig.ObservationTime config) + minute_ns;
  sane_increment : 0 <= mul64 (ban_increment config) 60000;
}.
Hypothesis Hsane : sane.

Lemma start_mono a b : a <= b → start a <= start b.
Proof. intros. apply to_ms_mono. lia. Qed.
Lemma start_past a : start a <= to_ms a.
Proof. apply to_ms_mono. pose proof (sane_observation Hsane). lia. Qed.

(** A host that needs no ban now: its score is low, or the ban it has got lasts
    beyond every event. *)
Definition settled (clock : Z) (events : list DbEvent.t) (h : DbHost.t) : Prop :=
  score_of (start clock) (DbHost.ID h) events <= Thr ∨
  ∀ e, e ∈ events → DbEvent.host_id e = DbHost.ID h → DbEvent.date_time e <= DbHost.ban_time h.
(** a call that will look at the host, or ban it *)
Definition pending (ip : string) (h : DbHost.t) (j : call) : Prop :=
  match j with
  | NoCall | Inserting _ _ _ => False
  | Selecting ip' from => ip' = ip ∧ from <= DbHost.updated_at h
  | Scoring ip' host _ => ip' = ip ∧ DefenderEntry.ID host = DbHost.ID h
  | Banning ip' => ip' = ip
  end.
(** What is known of a call at some time. *)
Definition call_ok (clock : Z) (j : call) : Prop :=
  match j with
  | Inserting _ score from => 0 <= score ∧ from <= start clock
  | Selecting _ from => from <= start clock
  | Scoring _ host from => from <= start clock ∧ DefenderEntry.BanTime host = None
  | NoCall | Banning _ => True
  end.
Definition covered (c : DbCluster.t) (ip : string) (h : DbHost.t) : Prop :=
  settled (clock c) (DbTables.events (rows c)) h ∨ (∃ node j, calls c !! node = Some j ∧ pending ip h j) ∨ ip ∈ unanswered c.
Record good (c : DbCluster.t) : Prop := {
  good_wf : wf_tables (rows c);
  good_scores : no_penalty_is_negative (DbTables.events (rows c));
  good_dates : ∀ e, e ∈ DbTables.events (rows c) → DbEvent.date_time e <= to_ms (clock c);
  good_clock : 0 <= clock c <= MaxInt64;
  good_calls : ∀ node j, calls c !! node = Some j → call_ok (clock c) j;
  good_covered : ∀ ip h, DbTables.hosts (rows c) !! ip = Some h → covered c ip h;
}.

Lemma settled_mono clock clock' events events' h h' : no_penalty_is_negative events → clock <= clock' → events' `sublist_of` events →
  DbHost.ID h' = DbHost.ID h → DbHost.ban_time h <= DbHost.ban_time h' → settled clock events h → settled clock' events' h'.
Proof.
  intros Hn Hc Hs Hid Hb [H|H]; [left|right]; rewrite Hid.
  - etrans; [|exact H]. apply score_of_le; [done|by apply start_mono|done].
  - intros e He Hi. etrans; [|exact Hb]. apply H; [|done]. by eapply elem_of_sublist.
Qed.
Lemma call_ok_mono clock clock' j : clock <= clock' → call_ok clock j → call_ok clock' j.
Proof. intros Hc. pose proof (start_mono _ _ Hc). destruct j; cbn; lia || (intros []; split; done || lia) || done. Qed.

(** The rows may only lose hosts and events and get longer bans. *)
Definition shrinks (t t' : tables) : Prop :=
  DbTables.events t' `sublist_of` DbTables.events t ∧
  ∀ ip h', DbTables.hosts t' !! ip = Some h' → ∃ h, DbTables.hosts t !! ip = Some h ∧
    DbHost.ID h' = DbHost.ID h ∧ DbHost.ban_time h <= DbHost.ban_time h' ∧ DbHost.updated_at h' = DbHost.updated_at h.
Lemma good_shrinks c t' now' : good c → clock c <= now' <= MaxInt64 → wf_tables t' → shrinks (rows c) t' → good (mk t' (calls c) now' (unanswered c)).
Proof.
  intros G Hnow W [Hev Hrows]. pose proof (good_clock _ G). split; cbn.
  - done.
  - intros e He. apply (good_scores _ G). by eapply elem_of_sublist.
  - intros e He. etrans; [apply (good_dates _ G); by eapply elem_of_sublist|apply to_ms_mono; lia].
  - lia.
  - intros node j Hj. eapply call_ok_mono; [|by apply (good_calls _ G node)]. lia.
  - intros ip h' (h & Hh & Hid & Hb & Hu)%Hrows. destruct (good_covered _ G ip h Hh) as [Hs|[(node & j & Hj & Hp)|Hun]]; [left|right; left|by right; right].
    + eapply (settled_mono (clock c)); [by apply (good_scores _ G)|cbn; lia|exact Hev|exact Hid|exact Hb|exact Hs].
    + exists node, j. split; [done|]. destruct j; cbn in *; [done|done|by rewrite Hu|by rewrite Hid|done].
Qed.
Lemma shrinks_refl t : shrinks t t.
Proof. split; [done|]. intros ip h Hh. by exists h. Qed.

(** The statements of the other functions. *)
Lemma sql_shrinks {A} down st (m : M tables A) t : (wf_tables t → wf_tables (m t).2 ∧ shrinks t (m t).2) →
  wf_tables t → wf_tables (sql down st m t).2 ∧ shrinks t (sql down st m t).2.
Proof. intros H W. unfold sql. destruct (down st); [by split; [|apply shrinks_refl]|by apply H]. Qed.
Lemma alter_shrinks t ip f :
  (∀ h, DbHost.ID (f h) = DbHost.ID h ∧ DbHost.ban_time h <= DbHost.ban_time (f h) ∧ DbHost.updated_at (f h) = DbHost.updated_at h) →
  wf_tables t → wf_tables (t <| DbTables.hosts ::= alter f ip |>) ∧ shrinks t (t <| DbTables.hosts ::= alter f ip |>).
Proof.
  intros Hf W. split; [apply wf_alter; [apply Hf|done]|]. destruct t as [hosts events n]. split; [done|]. cbn. intros j h' Hj.
  destruct (decide (ip = j)) as [<-|Hne].
  - rewrite lookup_alter_eq in Hj. destruct (hosts !! ip) as [h|]; [|done]. injection Hj as <-. exists h. split; [done|]. apply Hf.
  - rewrite lookup_alter_ne in Hj by done. by exists h'.
Qed.
Lemma keep_hosts_shrinks keep t : wf_tables t → wf_tables (keep_hosts keep t) ∧ shrinks t (keep_hosts keep t).
Proof.
  intros W. split; [by apply wf_keep_hosts|]. split; [destruct t; apply List_filter_sublist|].
  intros ip h [H _]%keep_hosts_lookup. by exists h.
Qed.
Lemma fewer_events_shrinks keep t : wf_tables t →
  wf_tables (t <| DbTables.events ::= List.filter keep |>) ∧ shrinks t (t <| DbTables.events ::= List.filter keep |>).
Proof.
  intros W. split; [by apply wf_fewer_events|]. destruct t as [hosts events n]. split; [apply List_filter_sublist|]. cbn. intros ip h H. by exists h.
Qed.
Lemma other_shrinks down now m t : other_statement down now m → wf_tables t → wf_tables (m t).2 ∧ shrinks t (m t).2.
Proof.
  intros [[ip ->]|[[ip ->]|[[from ->]|[from ->]]]]; apply sql_shrinks; intros W.
  - apply alter_shrinks; [|done]. intros h. destruct h. cbn. pose proof (sane_increment Hsane). split_and!; [done|lia|done].
  - destruct (DbTables.hosts t !! ip); [by apply keep_hosts_shrinks|by split; [|apply shrinks_refl]].
  - by apply fewer_events_shrinks.
  - by apply keep_hosts_shrinks.
Qed.

(** ** The steps of a call *)

(** What a step of a call has to leave. *)
Lemma good_step c node j j' t' now' u' : good c → calls c !! node = Some j → clock c <= now' <= MaxInt64 →
  wf_tables t' → no_penalty_is_negative (DbTables.events t') → (∀ e, e ∈ DbTables.events t' → DbEvent.date_time e <= to_ms now') →
  call_ok now' j' →
  (∀ ip h', DbTables.hosts t' !! ip = Some h' → (pending ip h' j' ∨ ip ∈ u') ∨ settled now' (DbTables.events t') h' ∨
     ∃ h, DbTables.hosts (rows c) !! ip = Some h ∧ DbHost.ID h' = DbHost.ID h ∧ DbHost.updated_at h' = DbHost.updated_at h ∧ ¬ pending ip h j ∧ (ip ∈ unanswered c → ip ∈ u') ∧
          (settled (clock c) (DbTables.events (rows c)) h → settled now' (DbTables.events t') h')) →
  good (mk t' (<[node := j']> (calls c)) now' u').
Proof.
  intros G Hj Hnow W Hn Hd Hok Hrows. pose proof (good_clock _ G). split; cbn; [done..|lia| |].
  - intros node' k Hk. destruct (decide (node = node')) as [<-|]; [rewrite lookup_insert_eq in Hk; by injection Hk as <-|].
    rewrite lookup_insert_ne in Hk by done. eapply (call_ok_mono (clock c)); [lia|]. by eapply (good_calls _ G).
  - intros ip h' Hh'. destruct (Hrows ip h' Hh') as [[Hp|Hun]|[Hs|(h & Hh & Hid & Hu & Hnp & Hun & Hs)]]; [right; left|by right; right|by left|].
    + exists node, j'. cbn [calls]. by rewrite lookup_insert_eq.
    + destruct (good_covered _ G ip h Hh) as [Hset|[(node' & k & Hk & Hp)|Hold]]; [left; by apply Hs|right; left|right; right; by apply Hun].
      assert (node ≠ node') by (intros <-; congruence). exists node', k. cbn. rewrite lookup_insert_ne by done. split; [done|].
      destruct k; cbn in *; [done|done|by rewrite Hu|by rewrite Hid|done].
Qed.
(** … when it only reads. *)
Lemma good_read c node j j' now' u' : unanswered c ⊆ u' → good c → calls c !! node = Some j → clock c <= now' <= MaxInt64 → call_ok now' j' →
  (∀ ip h, DbTables.hosts (rows c) !! ip = Some h → pending ip h j → (pending ip h j' ∨ ip ∈ u') ∨ settled now' (DbTables.events (rows c)) h) →
  (∀ ip h, DbTables.hosts (rows c) !! ip = Some h → Decision (pending ip h j)) →
  good (mk (rows c) (<[node := j']> (calls c)) now' u').
Proof.
  intros Hun G Hj Hnow Hok Hp Hdec. eapply good_step; [done..| | | |done|].
  - apply (good_wf _ G).
  - apply (good_scores _ G).
  - intros e He. etrans; [by apply (good_dates _ G)|apply to_ms_mono; lia].
  - intros ip h Hh. destruct (Hdec ip h Hh) as [Hpe|Hnp]; [destruct (Hp ip h Hh Hpe); auto|]. right. right. exists h. split_and!; [done..|by apply Hun|].
    eapply settled_mono; [apply (good_scores _ G)|lia|done..].
Qed.
#[local] Instance pending_dec ip h j : Decision (pending ip h j).
Proof. destruct j; cbn; apply _. Defined.

(** The insertion, as one transaction. *)
Definition row_of (now : Z) (ip : string) (t : tables) : DbHost.t :=
  match DbTables.hosts t !! ip with
  | Some h => h <| DbHost.updated_at := to_ms now |>
  | None => DbHost.mk (DbTables.next_id t) 0 (to_ms now)
  end.
Definition inserted (now : nat → Z) (ip : string) (score : Z) (t : tables) : tables :=
  DbTables.mk (<[ip := row_of (now 0%nat) ip t]> (DbTables.hosts t))
    (DbEvent.mk (to_ms (now 1%nat)) score (DbHost.ID (row_of (now 0%nat) ip t)) :: DbTables.events t)
    (if DbTables.hosts t !! ip is Some _ then DbTables.next_id t else Z.succ (DbTables.next_id t)).
Lemma insert_up now ip score t : sqlCommonAddDefenderHostAndEvent up now ip score t = (Ok tt, inserted now ip score t).
Proof.
  unfold sqlCommonAddDefenderHostAndEvent, sql, sqlCommonAddDefenderHost, sqlCommonAddDefenderEvent, inserted, row_of, mbind, M_bind, modify.
  destruct t as [hosts events n]. destruct (hosts !! ip) as [h|] eqn:Hh; cbn; rewrite Hh; cbn; by rewrite lookup_insert_eq.
Qed.
Lemma inserted_other now ip score t ip' h : ip ≠ ip' → DbTables.hosts (inserted now ip score t) !! ip' = Some h →
  DbTables.hosts t !! ip' = Some h.
Proof. intros Hne. unfold inserted. cbn. by rewrite lookup_insert_ne. Qed.
(** the identifier is that of no other host *)
Lemma row_of_new now ip t ip' h : wf_tables t → ip ≠ ip' → DbTables.hosts t !! ip' = Some h → DbHost.ID h ≠ DbHost.ID (row_of now ip t).
Proof.
  intros W Hne Hh. unfold row_of. destruct (DbTables.hosts t !! ip) as [h0|] eqn:Hip.
  - intros Hid. apply Hne. eapply (wf_ids _ W); [exact Hip|exact Hh|]. by destruct h0.
  - apply (wf_used _ W) in Hh. cbn. lia.
Qed.
Lemma wf_inserted now ip score t : wf_tables t → wf_tables (inserted now ip score t).
Proof.
  intros W. split.
  - intros i i' h h' Hh Hh' Hid. destruct (decide (ip = i)) as [<-|], (decide (ip = i')) as [<-|]; [done|..].
    + apply inserted_other in Hh'; [|done]. unfold inserted in Hh. cbn in Hh. rewrite lookup_insert_eq in Hh. injection Hh as <-.
      by destruct (row_of_new (now 0%nat) ip t i' h' W).
    + apply inserted_other in Hh; [|done]. unfold inserted in Hh'. cbn in Hh'. rewrite lookup_insert_eq in Hh'. injection Hh' as <-.
      by destruct (row_of_new (now 0%nat) ip t i h W).
    + apply inserted_other in Hh, Hh'; [|done..]. by eapply (wf_ids _ W).
  - assert (DbTables.next_id t <= DbTables.next_id (inserted now ip score t)) as Hle by (cbn; case_match; lia).
    intros i h Hh. destruct (decide (ip = i)) as [<-|].
    + cbn in Hh |- *. rewrite lookup_insert_eq in Hh. injection Hh as <-. unfold row_of. destruct (DbTables.hosts t !! ip) as [h0|] eqn:Hip; [|cbn; lia].
      apply (wf_used _ W) in Hip. by destruct h0.
    + apply inserted_other in Hh; [|done]. apply (wf_used _ W) in Hh. lia.
  - intros e [->|He]%elem_of_cons; cbn.
    + exists ip, (row_of (now 0%nat) ip t). by rewrite lookup_insert_eq.
    + destruct (wf_linked _ W e He) as (i & h & Hh & Hid). exists i. destruct (decide (ip = i)) as [<-|]; [|exists h; by rewrite lookup_insert_ne].
      exists (row_of (now 0%nat) ip t). rewrite lookup_insert_eq. split; [done|]. unfold row_of. rewrite Hh. by destruct h.
Qed.
Lemma good_insert c node ip score from now now' : good c → calls c !! node = Some (Inserting ip score from) →
  (∀ i, clock c <= now i <= now') → now' <= MaxInt64 →
  good (mk (inserted now ip score (rows c)) (<[node := Selecting ip from]> (calls c)) now' (unanswered c ∖ {[ip]})).
Proof.
  intros G Hj Hnow Hmax. pose proof (good_clock _ G). pose proof (Hnow 0%nat). pose proof (Hnow 1%nat).
  destruct (good_calls _ G _ _ Hj) as [Hscore Hfrom].
  eapply (good_step c node (Inserting ip score from)); [done|done|lia|by apply wf_inserted, good_wf|..]; cbn.
  - intros e [->|He]%elem_of_cons; [done|by apply (good_scores _ G)].
  - intros e [->|He]%elem_of_cons; cbn; [apply to_ms_mono; lia|]. etrans; [by apply (good_dates _ G)|apply to_ms_mono; lia].
  - pose proof (start_mono (clock c) now'). lia.
  - intros i h' Hh'. destruct (decide (ip = i)) as [<-|Hne]; [left|right; right].
    + left. rewrite lookup_insert_eq in Hh'. injection Hh' as <-. split; [done|].
      assert (DbHost.updated_at (row_of (now 0%nat) ip (rows c)) = to_ms (now 0%nat)) as -> by
        (unfold row_of; destruct (DbTables.hosts (rows c) !! ip) as [h|]; [by destruct h|done]).
      pose proof (start_mono (clock c) (now 0%nat)). pose proof (start_past (now 0%nat)). lia.
    + rewrite lookup_insert_ne in Hh' by done. exists h'. split_and!; [done..|naive_solver|set_solver|].
      pose proof (row_of_new (now 0%nat) ip (rows c) i h' (good_wf _ G) Hne Hh') as Hid. intros [Hs|Hs]; [left|right].
      * rewrite score_of_cons. unfold counts_for. cbn [DbEvent.host_id]. rewrite (proj2 (Z.eqb_neq _ _)) by congruence. cbn [andb].
        etrans; [|exact Hs]. apply score_of_le; [apply (good_scores _ G)|apply start_mono; lia|done].
      * intros e [->|He]%elem_of_cons; [cbn; congruence|by apply Hs].
Qed.
(** the row has been read *)
Lemma good_select c node ip from now now' : good c → calls c !! node = Some (Selecting ip from) →
  (∀ i, clock c <= now i <= now') → now' <= MaxInt64 →
  good (let '(j', t') := call_step config up now (Selecting ip from) (rows c) in mk t' (<[node := j']> (calls c)) now' (unanswered c)).
Proof.
  intros G Hj Hnow Hmax. pose proof (good_clock _ G). pose proof (Hnow 0%nat) as Hnow0. pose proof (good_calls _ G _ _ Hj) as Hfrom. cbn in Hfrom.
  assert (∀ j', call_ok now' j' → (∀ h, DbTables.hosts (rows c) !! ip = Some h → is_listed from h = true →
    pending ip h j' ∨ settled now' (DbTables.events (rows c)) h) → good (mk (rows c) (<[node := j']> (calls c)) now' (unanswered c))) as Hread.
  { intros j' Hok Hp. eapply good_read; [done..|lia|done| |intros; apply _]. intros i h Hh [-> Hu]. destruct (Hp h Hh) as [?|?]; [|by left; left|by right].
    unfold is_listed. by rewrite (proj2 (Z.leb_le _ _)). }
  cbn [call_step]. rewrite select_host_up. destruct (DbTables.hosts (rows c) !! ip) as [h|] eqn:Hh; [|by apply Hread].
  destruct (is_listed from h) eqn:Hl; [|apply Hread; [done|intros h1; congruence]].
  unfold db_entry. cbn [DefenderEntry.BanTime]. destruct (ban_of (now 0%nat) h) as [b|] eqn:Hb.
  - cbn [after_query DefenderEntry.Score]. rewrite (proj2 (Z.ltb_ge _ _)) by apply (sane_threshold Hsane). apply Hread; [done|].
    intros h1 [= <-] _. right. right. intros e He _. etrans; [by apply (good_dates _ G)|].
    etrans; [apply to_ms_mono, Hnow0|]. eapply ban_of_Some; [|exact Hb]. lia.
  - apply Hread; [|by intros h1 [= <-] _; left]. cbn. pose proof (start_mono (clock c) now'). split; [lia|done].
Qed.
(** the scores have been read *)
Lemma good_score c node ip host from now now' : good c → calls c !! node = Some (Scoring ip host from) →
  (∀ i, clock c <= now i <= now') → now' <= MaxInt64 →
  good (let '(j', t') := call_step config up now (Scoring ip host from) (rows c) in mk t' (<[node := j']> (calls c)) now' (unanswered c)).
Proof.
  intros G Hj Hnow Hmax. pose proof (good_clock _ G). pose proof (Hnow 0%nat). destruct (good_calls _ G _ _ Hj) as [Hfrom Hban].
  cbn [call_step]. rewrite select_score_up, Hban. set (s := score_of from _ _).
  assert (after_query config ip (if 0 <? Z.max 0 s then Ok (DefenderEntry.mk (DefenderEntry.ID host) (DefenderEntry.IP host) (Z.max 0 s) None)
    else Err (RecordNotFoundError "host" "")) = if Thr <? s then Banning ip else NoCall) as ->.
  { pose proof (sane_threshold Hsane). destruct (Z.ltb_spec 0 (Z.max 0 s)); cbn; [|by rewrite (proj2 (Z.ltb_ge _ _)) by lia].
    by rewrite Z.max_r by lia. }
  eapply good_read; [done..|lia|by destruct (Thr <? s)| |intros; apply _].
  intros i h Hh [-> Hid]. destruct (Z.ltb_spec Thr s); [by left; left|right; left].
  etrans; [|eassumption]. unfold s. rewrite Hid. apply score_of_le; [apply (good_scores _ G)| |done].
  pose proof (start_mono (clock c) now'). lia.
Qed.
(** the host is banned *)
Lemma good_ban c node ip now now' : good c → calls c !! node = Some (Banning ip) →
  (∀ i, clock c <= now i <= now') → now' <= MaxInt64 →
  good (let '(j', t') := call_step config up now (Banning ip) (rows c) in mk t' (<[node := j']> (calls c)) now' (unanswered c)).
Proof.
  intros G Hj Hnow Hmax. pose proof (good_clock _ G). pose proof (Hnow 0%nat) as Hnow0. cbn [call_step].
  unfold sqlCommonSetDefenderBanTime, sql, update_host, modify. cbn [snd].
  eapply (good_step c node (Banning ip)); [done|done|lia|..].
  - apply wf_alter; [by intros []|by apply good_wf].
  - destruct (rows c) as [hosts events n] eqn:E. pose proof (good_scores _ G) as Hs. by rewrite E in Hs.
  - intros e He. etrans; [apply (good_dates _ G)|apply to_ms_mono; lia]. by destruct (rows c).
  - done.
  - assert (∀ f, DbTables.events ((rows c) <| DbTables.hosts ::= f |>) = DbTables.events (rows c) ∧
      DbTables.hosts ((rows c) <| DbTables.hosts ::= f |>) = f (DbTables.hosts (rows c))) as Hset by (by intros; destruct (rows c)).
    intros i h' Hh'. destruct (Hset (alter (λ h, h <| DbHost.ban_time := new_ban config (now 0%nat) |>) ip)) as [-> Hhosts].
    rewrite Hhosts in Hh'. right. destruct (decide (ip = i)) as [<-|Hne].
    + left. right. rewrite lookup_alter_eq in Hh'. destruct (DbTables.hosts (rows c) !! ip) as [h|]; [|done]. injection Hh' as <-.
      intros e He _. etrans; [by apply (good_dates _ G)|]. destruct h. cbn. apply to_ms_mono. pose proof (sane_ban Hsane). lia.
    + right. rewrite lookup_alter_ne in Hh' by done. exists h'. split_and!; [done..|by intros ->|done|].
      eapply settled_mono; [apply (good_scores _ G)|lia|done..].
Qed.

(** a statement that is refused ends the call, one that is not refused is
    executed *)
Definition statement_of (j : call) : option statement :=
  match j with
  | NoCall => None
  | Inserting _ _ _ => Some InsertHostAndEvent
  | Selecting _ _ => Some SelectHost
  | Scoring _ _ _ => Some SelectScores
  | Banning _ => Some SetBan
  end.
Lemma call_step_refused down now j t : is_Some (statement_of j ≫= down) → call_step config down now j t = (NoCall, t).
Proof.
  intros [e He]. destruct j; cbn in He; [done|..]; cbn [call_step].
  - unfold sqlCommonAddDefenderHostAndEvent, sql. by rewrite He.
  - unfold select_host, mbind, M_bind, sql. by rewrite He.
  - unfold select_score, getDefenderHostsWithScores. rewrite bool_decide_false by done. unfold mbind, M_bind, sql. by rewrite He.
  - unfold sqlCommonSetDefenderBanTime, sql. by rewrite He.
Qed.
Lemma call_step_accepted down now j t : statement_of j ≫= down = None → call_step config down now j t = call_step config up now j t.
Proof.
  intros He. destruct j; cbn in He; [done|..]; cbn [call_step].
  - unfold sqlCommonAddDefenderHostAndEvent, sql. by rewrite He.
  - unfold select_host, mbind, M_bind, sql. by rewrite He.
  - unfold select_score, getDefenderHostsWithScores. rewrite bool_decide_false by done. unfold mbind, M_bind, sql. by rewrite He.
  - unfold sqlCommonSetDefenderBanTime, sql. by rewrite He.
Qed.
Lemma good_refused c node j down now' : good c → calls c !! node = Some j → clock c <= now' <= MaxInt64 → is_Some (statement_of j ≫= down) →
  good (mk (rows c) (<[node := NoCall]> (calls c)) now' (refused down j (unanswered c))).
Proof.
  intros G Hj Hnow [e He]. eapply good_read; [|done..| |intros; apply _].
  - destruct j; cbn in *; rewrite ?He; set_solver.
  - intros ip h _ Hp. left. right. destruct j; cbn in *; rewrite ?He; [done|done|set_solver..].
Qed.
Lemma good_accepted c node j now now' u : good c → calls c !! node = Some j → (∀ i, clock c <= now i <= now') → now' <= MaxInt64 →
  u = (if j is Inserting ip _ _ then unanswered c ∖ {[ip]} else unanswered c) →
  good (let '(j', t') := call_step config up now j (rows c) in mk t' (<[node := j']> (calls c)) now' u).
Proof.
  intros G Hj Hnow Hmax ->. destruct j as [|ip score from|ip from|ip host from|ip].
  - pose proof (Hnow 0%nat). eapply good_read; [done..|lia|done|intros ? ? _ []|intros; apply _].
  - cbn [call_step]. rewrite insert_up. by apply good_insert.
  - by apply good_select.
  - by apply good_score.
  - by apply good_ban.
Qed.

Lemma good_preserved c c' : good c → step c c' → good c'.
Proof.
  intros G Hs. pose proof (good_clock _ G).
  destruct Hs as [c node ip event now now' Hnow Hmax Hj|c node j down now now' j' t' Hnow Hmax Hj Hstep|c down now now' m Hnow Hmax Hm].
  - eapply good_read; [done..|lia| |intros ? ? _ []|intros; apply _]. cbn. split; [apply (sane_scores Hsane)|apply start_mono; lia].
  - destruct (statement_of j ≫= down) as [e|] eqn:He.
    + rewrite call_step_refused in Hstep by by rewrite He. injection Hstep as <- <-. pose proof (Hnow 0%nat).
      apply good_refused; [done..|lia|by rewrite He].
    + rewrite call_step_accepted in Hstep by done. pose proof (good_accepted c node j now now' (refused down j (unanswered c)) G Hj Hnow Hmax) as H1.
      rewrite Hstep in H1. apply H1. destruct j; cbn in *; by rewrite ?He.
  - destruct (other_shrinks down now m (rows c) Hm (good_wf _ G)). apply good_shrinks; [done|lia|done..].
Qed.
Lemma good_initial c : initial c → good c.
Proof.
  intros (Hh & He & Hc & Hclock & _). destruct c as [[hosts events n] calls clock u]. cbn in *. subst. split; cbn; [apply wf_no_tables|..].
  - by intros ? ?%elem_of_nil.
  - by intros ? ?%elem_of_nil.
  - done.
  - intros node j Hj. by rewrite (Hc node j Hj).
  - intros ip h. by rewrite lookup_empty.
Qed.
Lemma good_reachable c c' : initial c → rtc step c c' → good c'.
Proof. intros Hi Hr. apply good_initial in Hi. induction Hr; [done|]. eauto using good_preserved. Qed.

(** C32: However the calls of several nodes that share a clock interleave, with
    each other and with the bans that are extended, the hosts that are removed
    and the clean-ups, and whichever statements the database refuses, once no
    call is in progress every host whose score is over the threshold has been
    banned for longer than its last event, unless the database refused to look
    it up or to ban it after that event. *)
Theorem no_ban_is_lost c c' ip h : initial c → rtc step c c' → idle c' → DbTables.hosts (rows c') !! ip = Some h →
  ip ∉ unanswered c' → Thr < score_of (start (clock c')) (DbHost.ID h) (DbTables.events (rows c')) →
  ∀ e, e ∈ DbTables.events (rows c') → DbEvent.host_id e = DbHost.ID h → DbEvent.date_time e <= DbHost.ban_time h.
Proof.
  intros Hi Hr Hidle Hh Hu Hs. apply good_reachable in Hr; [|done].
  destruct (good_covered _ Hr ip h Hh) as [[Hle|Hb]|[(node & j & Hj & Hp)|Hun]]; [lia|done| |done].
  by rewrite (Hidle node j Hj) in Hp.
Qed.
End nodes.

(** * Cleaning up *)

(** What a clean-up of what is older than [from], at [now], leaves of a host:
    its row and the scores that can still be asked for, or nothing when it has
    neither a ban nor a score any more. *)
Definition cleaned (now from : Z) (t t' : tables) : Prop := ∀ ip,
  (DbTables.hosts t' !! ip = DbTables.hosts t !! ip ∧ ∀ h from', DbTables.hosts t !! ip = Some h → from < from' →
     score_of from' (DbHost.ID h) (DbTables.events t') = score_of from' (DbHost.ID h) (DbTables.events t)) ∨
  (∃ h, DbTables.hosts t !! ip = Some h ∧ DbTables.hosts t' !! ip = None ∧ DbHost.ban_time h < to_ms now ∧
     ∀ from', from < from' → score_of from' (DbHost.ID h) (DbTables.events t) = 0).
Lemma cleaned_refl now from t : cleaned now from t t.
Proof. intros ip. by left. Qed.
(** the events first *)
Lemma cleaned_events from t : let t' := t <| DbTables.events ::= List.filter (fun e => negb (DbEvent.date_time e <? from)) |> in
  DbTables.hosts t' = DbTables.hosts t ∧ ∀ id from', from < from' → score_of from' id (DbTables.events t') = score_of from' id (DbTables.events t).
Proof.
  destruct t as [hosts events n]. cbn. split; [done|]. intros id from' Hf. apply score_of_filter. intros e _ Hold%negb_false_iff%Z.ltb_lt.
  unfold counts_for. rewrite (proj2 (Z.leb_gt _ _)) by lia. apply andb_false_r.
Qed.
Lemma cleaned_hosts now from t : wf_tables t → cleaned now from t (keep_hosts (fun _ h => negb (is_stale now from (DbTables.events t) h)) t).
Proof.
  intros W ip. set (keep := fun (_ : string) h => negb (is_stale now from (DbTables.events t) h)).
  destruct (DbTables.hosts t !! ip) as [h|] eqn:Hh; [destruct (keep ip h) eqn:Hk|].
  - left. split; [by apply keep_hosts_lookup|]. intros h1 from' [= <-] _. unfold keep_hosts. destruct t as [hosts events n]. apply score_of_filter.
    intros e _ Hgone%negb_false_iff%bool_decide_eq_true. apply elem_of_gone in Hgone as (i & h' & Hi & Hki & Hid).
    unfold counts_for. rewrite (proj2 (Z.eqb_neq _ _)); [done|]. rewrite <-Hid. intros Heq.
    pose proof (wf_ids _ W i ip h' h Hi Hh Heq) as ->. cbn in *. congruence.
  - right. exists h. apply negb_false_iff, andb_true_iff in Hk as [Hb%Z.ltb_lt Hold%negb_true_iff]. split_and!; [done| |done|].
    + destruct (DbTables.hosts (keep_hosts keep t) !! ip) as [h'|] eqn:Hl; [|done]. apply keep_hosts_lookup in Hl as [Hl Hk]. rewrite Hh in Hl. injection Hl as <-.
      unfold keep, is_stale in Hk. rewrite (proj2 (Z.ltb_lt _ _) Hb) in Hk. by rewrite Hold in Hk.
    + intros from' Hf. apply score_of_zero. intros e He. apply not_true_is_false. intros [Hid Hd%Z.leb_le]%andb_true_iff.
      apply not_false_iff_true in Hold; [done|]. apply existsb_exists. exists e. split; [by apply list_elem_of_In|].
      rewrite Hid. apply Z.ltb_lt. lia.
  - left. split; [|done]. destruct (DbTables.hosts (keep_hosts keep t) !! ip) as [h|] eqn:Hl; [|done]. apply keep_hosts_lookup in Hl as [Hl _]. congruence.
Qed.
Lemma cleanup_cleans down now from t : wf_tables t → cleaned now from t (sqlCommonDefenderCleanup down now from t).2.
Proof.
  intros W. unfold sqlCommonDefenderCleanup, mbind, M_bind, sqlCommonCleanupDefenderEvents, sqlCommonCleanupDefenderHosts, sql, modify.
  destruct (down CleanupEvents); [apply cleaned_refl|]. destruct (cleaned_events from t) as [Hh Hs].
  set (t1 := t <| DbTables.events ::= _ |>) in *. cbv zeta in Hh, Hs.
  assert (cleaned now from t t1) as H1 by (intros ip; left; rewrite Hh; auto).
  destruct (down CleanupHosts); [done|]. cbn [snd].
  assert (wf_tables t1) as W1 by by apply wf_fewer_events. intros ip. destruct (cleaned_hosts now from t1 W1 ip) as [[H2 H3]|(h & H2 & H3 & H4 & H5)].
  - left. rewrite H2, Hh. split; [done|]. intros h from' Hl Hf. rewrite H3 by (by rewrite ?Hh). by apply Hs.
  - right. exists h. rewrite <-Hh. split_and!; [done..|]. intros from' Hf. rewrite <-Hs by done. by apply H5.
Qed.

(** Such tables answer the same at all later times. *)
Lemma cleaned_get_host now from t t' now' ip from' : cleaned now from t t' → from < from' → 0 <= now <= now' → now' <= MaxInt64 →
  (sqlCommonGetDefenderHostByIP up now' ip from' t').1 = (sqlCommonGetDefenderHostByIP up now' ip from' t).1.
Proof.
  intros Hc Hf Hn Hm. rewrite !get_host_up. cbn [fst]. destruct (Hc ip) as [[-> Hs]|(h & Hh & -> & Hb & Hs)].
  - destruct (DbTables.hosts t !! ip) as [h|] eqn:Hh; [|done]. by rewrite (Hs h from' eq_refl Hf).
  - rewrite Hh, Hs by done. rewrite ban_of_None; [by destruct (is_listed from' h)|lia|]. pose proof (to_ms_mono now now'). lia.
Qed.
Lemma is_banned_up now ip t :
  sqlCommonIsDefenderHostBanned up now ip t =
  (match DbTables.hosts t !! ip with
   | Some h => if to_ms now <=? DbHost.ban_time h then Ok (DbHost.ID h) else Err (RecordNotFoundError "host" "")
   | None => Err (RecordNotFoundError "host" "")
   end, t).
Proof.
  unfold sqlCommonIsDefenderHostBanned, mbind at 1, M_bind, sql, gets. destruct (DbTables.hosts t !! ip) as [h|]; cbn; [|done]. by destruct (_ <=? _).
Qed.
Lemma cleaned_is_banned now from t t' now' ip : cleaned now from t t' → now <= now' →
  (sqlCommonIsDefenderHostBanned up now' ip t').1 = (sqlCommonIsDefenderHostBanned up now' ip t).1.
Proof.
  intros Hc Hn. rewrite !is_banned_up. cbn [fst]. destruct (Hc ip) as [[-> _]|(h & Hh & -> & Hb & _)]; [done|].
  rewrite Hh. pose proof (to_ms_mono now now' Hn). by rewrite (proj2 (Z.leb_gt _ _)) by lia.
Qed.

Section cleanup.
Context {R : Ranger}.
Variables (config : cfg) (db : DB.t) (ipList : IPList.t).

(** C33: A clean-up changes no answer: whatever of it the database refuses, from
    then on a host has the same score and ban as without it, and the same
    clients are let in. *)
Theorem cleanup_invisible down now now' d ip protocol : sane config → wf_tables (DbDefender.rows d) →
  (∀ i j, 0 <= now i <= now' j) → (∀ j, now' j <= MaxInt64) →
  let t := DbDefender.rows d in let t' := DbDefender.rows (db_cleanup config down now d).2 in
  (db_GetHost config up now' ip t').1 = (db_GetHost config up now' ip t).1 ∧
  (db_IsBanned config db ipList up now' ip protocol t').1 = (db_IsBanned config db ipList up now' ip protocol t).1.
Proof.
  intros S W Hn Hm t t'.
  set (from := to_ms (now 2%nat - minutes (DefenderConfig.ObservationTime config + 1))).
  assert (cleaned (now 3%nat) from t t') as Hc.
  { subst t t'. unfold db_cleanup, mbind, M_bind, gets. cbn [fst snd]. destruct (cleanup_due _ _ _); [|apply cleaned_refl].
    unfold setLastCleanup, modify, on_rows, try_catch. destruct d as [rows lc]. cbn [setter].
    pose proof (cleanup_cleans down (now 3%nat) from rows W) as Hc. cbn [DbDefender.rows fst snd] in Hc |- *. fold from. revert Hc.
    by destruct (sqlCommonDefenderCleanup down (now 3%nat) from rows) as [[[]|e] t1]. }
  assert (from < getStartObservationTime config (now' 0%nat)) as Hf.
  { unfold from, getStartObservationTime. rewrite (sane_cleanup config S). pose proof (Hn 2%nat 0%nat).
    apply Z.lt_le_trans with (to_ms (now 2%nat - (minutes (DefenderConfig.ObservationTime config) + minute_ns)) + 60000); [lia|]. unfold to_ms.
    rewrite <-Z.div_add by done. apply Z.div_le_mono; [done|]. unfold minute_ns. lia. }
  pose proof (Hn 3%nat 0%nat). pose proof (Hn 3%nat 1%nat). split.
  - eapply cleaned_get_host; [exact Hc|done..].
  - unfold db_IsBanned. destruct (isBanned _ _ _ _); [done|]. unfold try_catch, mbind, M_bind, ignore.
    pose proof (cleaned_is_banned _ _ _ _ (now' 0%nat) ip Hc ltac:(lia)) as Hb.
    destruct (sqlCommonIsDefenderHostBanned _ _ _ t') as [r1 ?], (sqlCommonIsDefenderHostBanned _ _ _ t) as [r2 ?].
    cbn [fst] in Hb. subst r2. by destruct r1.
Qed.
End cleanup.

(** * The steps are the call *)

Section composition.
Context {R : Ranger}.
Variables (config : cfg) (db : DB.t) (ipList : IPList.t) (down : statement → option error).

Lemma no_cleanup {A} now t lc (a : A) : (∀ i, cleanup_due config (now i) lc = false) →
  (_ ← db_cleanup config down now; mret a) (DbDefender.mk t lc) = (Ok a, DbDefender.mk t lc).
Proof. intros H. unfold db_cleanup, mbind, M_bind, gets. cbn [DbDefender.lastCleanup]. by rewrite H. Qed.
Lemma ban_is_a_step now ip host t lc : (∀ i, cleanup_due config (now i) lc = false) → ∃ t',
  call_step config down now (after_query config ip (Ok host)) t = (NoCall, t') ∧
  (ban_over_threshold config down now ip host (DbDefender.mk t lc)).2 = DbDefender.mk t' lc.
Proof.
  intros H. unfold ban_over_threshold, after_query. destruct (_ <? _); [|exists t; by rewrite no_cleanup].
  cbn [call_step]. exists (sqlCommonSetDefenderBanTime down ip (new_ban config (now 0%nat)) t).2. split; [done|].
  unfold try_catch, on_rows. cbn [DbDefender.rows]. destruct (sqlCommonSetDefenderBanTime _ _ _ t) as [[[]|e] t']; [|done].
  exact (f_equal snd (no_cleanup (fun i => now (S i)) t' lc true (fun i => H (S i)))).
Qed.

(** A call of [AddEvent] that nothing comes in between executes its steps, and
    the clean-up when it is due. *)
Theorem steps_are_the_call now ip protocol event d : IsSafe db ipList ip protocol = false →
  (∀ i, cleanup_due config (now i) (DbDefender.lastCleanup d) = false) →
  let step i '(j, t) := call_step config down (fun k => now (i + k)%nat) j t in
  ∃ t', step 4%nat (step 4%nat (step 3%nat (step 1%nat (start_call config (now 0%nat) ip event, DbDefender.rows d)))) = (NoCall, t') ∧
    (db_AddEvent config db ipList down now ip protocol event d).2 = d <| DbDefender.rows := t' |>.
Proof.
  intros Hsafe Hdue. unfold db_AddEvent, start_call. rewrite Hsafe. destruct d as [rows lc]. cbn [DbDefender.rows DbDefender.lastCleanup] in *.
  unfold try_catch, on_rows, AddDefenderEvent, sqlCommonGetDefenderHostByIP. unfold mbind, M_bind. cbn [call_step DbDefender.rows].
  change (fun k => now (1 + k)%nat) with (fun i => now (S i)).
  destruct (sqlCommonAddDefenderHostAndEvent down _ ip _ rows) as [[[]|e] t1]; cbn [call_step]; [|by exists t1].
  destruct (select_host down _ ip t1) as [[h|e] t2]; cbn [call_step]; [|by exists t2].
  change (3 + 0)%nat with 3%nat. change (now (S 2)) with (now 3%nat). set (host := db_entry (now 3%nat) ip h). clearbody host.
  assert (∀ host t, ∃ t', call_step config down (fun k => now (4 + k)%nat) (after_query config ip (Ok host)) t = (NoCall, t') ∧
    (ban_over_threshold config down (fun i => now (4 + i)%nat) ip host (DbDefender.mk t lc)).2 = DbDefender.mk t' lc) as Hban
    by (intros; by apply ban_is_a_step).
  destruct (DefenderEntry.BanTime host) as [b|].
  - destruct (Hban host t2) as (t' & -> & Hr). by exists t'.
  - cbn [call_step]. destruct (select_score down host _ t2) as [[host'|e] t3]; [|by exists t3].
    destruct (Hban host' t3) as (t' & Hc & Hr). exists t'. split; [exact Hc|exact Hr].
Qed.
End composition.

(** * Configurations *)

(** A configuration that was validated is sane unless its times are absurd. *)
Lemma validated_sane c c' : defender_validate c = Ok c' → DefenderConfig.Enabled c = true →
  DefenderConfig.BanTime c' <= 1000000 → DefenderConfig.BanTimeIncrement c' <= 1000000 → DefenderConfig.ObservationTime c' <= 1000000 → sane c'.
Proof.
  intros Hv He Hb Hi Ho. destruct (defender_validate_ok c c' Hv He) as (Hs & _ & Hb' & Hi' & Ho' & _).
  assert (∀ n, 0 <= n <= 1000001 → minutes n = n * minute_ns) as Hmin.
  { intros n Hn. apply wrap64_id. unfold in_int64, MinInt64, MaxInt64, minute_ns. lia. }
  split.
  - pose proof (Hs HostEventLoginFailed). lia.
  - intros e. apply Hs.
  - rewrite Hmin by lia. unfold minute_ns. lia.
  - rewrite Hmin by lia. unfold minute_ns. lia.
  - rewrite !Hmin by lia. lia.
  - assert (0 <= ban_increment c' <= 1000000000000) as Hinc.
    { assert (mul64 (DefenderConfig.BanTime c') (DefenderConfig.BanTimeIncrement c') = DefenderConfig.BanTime c' * DefenderConfig.BanTimeIncrement c') as Hm
        by (apply wrap64_id; unfold in_int64, MinInt64, MaxInt64; nia).
      assert (0 <= DefenderConfig.BanTime c' * DefenderConfig.BanTimeIncrement c' <= 1000000000000) by nia.
      unfold ban_increment. rewrite Hm. cbv zeta.
      assert (0 <= Z.quot (DefenderConfig.BanTime c' * DefenderConfig.BanTimeIncrement c') 100 <= 1000000000000) as Hq.
      { rewrite Z.quot_div_nonneg by lia. split; [apply Z.div_pos; lia|]. apply Z.div_le_upper_bound; lia. }
      destruct (_ =? 0); lia. }
    unfold mul64. rewrite wrap64_id; [lia|]. unfold in_int64, MinInt64, MaxInt64. lia.
Qed.

(** * Samples *)

Import ListRanger.
#[local] Existing Instance list_order.

Definition shared_config : cfg := DefenderConfig.mk true "provider" 10 50 4 2 1 3 0 60 100 150.
Lemma shared_config_sane : sane shared_config.
Proof. by apply (validated_sane shared_config). Qed.
Notation at_ t := (fun _ : nat => t).
Definition new_tables : tables := DbTables.mk ∅ [] 1.
Definition host : string := "10.0.0.1".
(** invalid users at these times *)
Definition in_memory (times : list Z) : memoryDefender.t :=
  foldl (fun d t => (AddEvent shared_config DB.init no_list (at_ t) host "SSH" HostEventUserNotFound d).1) (memoryDefender.mk ∅ ∅) times.
Definition in_database (times : list Z) : DbDefender.t :=
  foldl (fun d t => (db_AddEvent shared_config DB.init no_list up (at_ t) host "SSH" HostEventUserNotFound d).2) (DbDefender.mk new_tables 0) times.

(** A host whose score reaches the threshold is banned by the defender in
    memory; with the database the score must be over the threshold. *)
Theorem drivers_differ_at_threshold :
  GetBanTime host (in_memory [minutes 1000; minutes 1001]) = Some (minutes 1011) ∧
  (db_GetHost shared_config up (at_ (minutes 1002)) host (DbDefender.rows (in_database [minutes 1000; minutes 1001]))).1 =
    Ok (DefenderEntry.mk 1 host 4 None) ∧
  (db_GetBanTime shared_config up (at_ (minutes 1003)) host (DbDefender.rows (in_database [minutes 1000; minutes 1001; minutes 1002]))).1 =
    Ok (Some (minutes 1012)).
Proof. split_and!; by vm_compute. Qed.

(** After a ban the defender in memory starts from nothing; in the database the
    events before the ban still count, so one more bans the host again. *)
Theorem old_events_ban_again :
  let times := [minutes 1000; minutes 1001; minutes 1002; minutes 1020] in
  active_ban (at_ (minutes 1021)) host (in_memory times) = None ∧ GetScore shared_config (at_ (minutes 1021)) host (in_memory times) = 2 ∧
  (db_GetBanTime shared_config up (at_ (minutes 1021)) host (DbDefender.rows (in_database times))).1 = Ok (Some (minutes 1030)).
Proof. split_and!; by vm_compute. Qed.

(** Runs at one instant. *)
Inductive action := Start (node : nat) (ip : string) (event : HostEvent) | GoOn (node : nat).
Definition act (a : action) (c : DbCluster.t) : DbCluster.t :=
  match a with
  | Start node ip event =>
      if calls c !! node is Some NoCall then mk (rows c) (<[node := start_call shared_config (clock c) ip event]> (calls c)) (clock c) (unanswered c) else c
  | GoOn node =>
      match calls c !! node with
      | Some j => let '(j', t') := call_step shared_config up (at_ (clock c)) j (rows c) in
                  mk t' (<[node := j']> (calls c)) (clock c) (refused up j (unanswered c))
      | None => c
      end
  end.
Lemma act_steps (l : list action) c : clock c <= MaxInt64 → rtc (step shared_config) c (foldl (fun c a => act a c) c l).
Proof.
  revert c. induction l as [|a l IH]; intros c Hc; [done|]. cbn.
  assert (clock (act a c) = clock c) as Hclock by (destruct a; cbn; repeat case_match; done).
  transitivity (act a c); [|apply IH; lia]. destruct a as [node ip event|node]; cbn.
  - destruct (calls c !! node) as [[]|] eqn:Hn; try done. apply rtc_once. by apply start_step.
  - destruct (calls c !! node) as [j|] eqn:Hn; [|done]. destruct (call_step _ _ _ _ _) as [j' t'] eqn:Hs. apply rtc_once. eapply go_on_step; [|exact Hc|exact Hn|exact Hs]. done.
Qed.
#[local] Instance no_call_dec j : Decision (j = NoCall).
Proof. destruct j; [by left|right; discriminate..]. Defined.
Definition two_nodes : DbCluster.t := mk new_tables {[0%nat := NoCall; 1%nat := NoCall]} (minutes 1000) ∅.
Definition both_insert_first : list action :=
  [Start 0 host HostEventLimitExceeded; Start 1 host HostEventLimitExceeded; GoOn 0; GoOn 1; GoOn 0; GoOn 1; GoOn 0; GoOn 1; GoOn 0; GoOn 1].
Definition after_both : DbCluster.t := Eval vm_compute in foldl (fun c a => act a c) two_nodes both_insert_first.
Lemma two_nodes_initial : initial two_nodes.
Proof.
  split_and!; [reflexivity..| |vm_compute; discriminate|vm_compute; discriminate|reflexivity]. intros node j Hj.
  cbn [calls two_nodes] in Hj. apply (lookup_insert_Some (M := gmap nat)) in Hj as [[_ <-]|[_ Hj]]; [reflexivity|].
  apply lookup_singleton_Some in Hj as [_ <-]. reflexivity.
Qed.
Lemma after_both_reached : rtc (step shared_config) two_nodes after_both.
Proof. exact (act_steps both_insert_first two_nodes ltac:(vm_compute; discriminate)). Qed.
Lemma after_both_wf : wf_tables (rows after_both).
Proof. eapply good_wf, good_reachable; [apply shared_config_sane|apply two_nodes_initial|apply after_both_reached]. Qed.
Lemma no_ban_is_lost_witness : ∃ h, DbTables.hosts (rows after_both) !! host = Some h ∧ length (DbTables.events (rows after_both)) = 2%nat ∧
  ∀ e, e ∈ DbTables.events (rows after_both) → DbEvent.host_id e = DbHost.ID h → DbEvent.date_time e <= DbHost.ban_time h.
Proof.
  eexists. split; [vm_compute; reflexivity|]. split; [reflexivity|].
  eapply (no_ban_is_lost shared_config shared_config_sane two_nodes after_both host).
  - exact two_nodes_initial.
  - exact after_both_reached.
  - intros node j Hj. assert (map_Forall (fun _ j => j = NoCall) (calls after_both)) as Hall.
    { apply (bool_decide_unpack _). vm_compute. exact I. }
    exact (Hall node j Hj).
  - vm_compute. reflexivity.
  - apply not_elem_of_empty.
  - vm_compute. reflexivity.
Defined.

(** a clean-up that removes the host *)
Notation cleaned_later := (db_cleanup shared_config up (at_ (minutes 2000)) (DbDefender.mk (rows after_both) 0)).
Lemma cleanup_invisible_witness :
  DbTables.hosts (DbDefender.rows cleaned_later.2) = ∅ ∧ DbTables.hosts (rows after_both) ≠ ∅ ∧
  (db_GetHost shared_config up (at_ (minutes 2001)) host (DbDefender.rows cleaned_later.2)).1 =
    (db_GetHost shared_config up (at_ (minutes 2001)) host (rows after_both)).1.
Proof.
  split; [vm_compute; reflexivity|]. split; [vm_compute; discriminate|].
  apply (cleanup_invisible shared_config DB.init no_list up (at_ (minutes 2000)) (at_ (minutes 2001)) (DbDefender.mk (rows after_both) 0) host "SSH"
    shared_config_sane after_both_wf); intros; vm_compute; repeat split; discriminate.
Defined.
