(* ===== verification/ConnData.v ===== *)
(** Connections: protocols and their errors, the storage interface and the
    state of a connection (internal/common/common.go, connection.go,
    transfer.go, internal/vfs/vfs.go).

    A storage backend is code over third-party services: the methods of
    [vfs.Fs] the connections call are the class [Storage], over one [world]
    that holds the files of all backends.  The hooks an administrator can
    configure are the class [Hooks].  Everything a connection asks a storage
    to change is recorded in [effects], which exists only in the model. *)
From S2P Require Import Prelude GoPath Util Net FsConfig FsValidate Entities Links Tables MemoryCore UserPerms MemoryQueries Quota.
Open Scope Z_scope.

(** * Protocols and errors *)

Definition ProtocolSFTP : string := "SFTP".
Definition ProtocolSCP : string := "SCP".
Definition ProtocolSSH : string := "SSH".
Definition ProtocolFTP : string := "FTP".
Definition ProtocolWebDAV : string := "DAV".
Definition ProtocolHTTP : string := "HTTP".
Definition ProtocolHTTPShare : string := "HTTPShare".
Definition ProtocolDataRetention : string := "DataRetention".
Definition ProtocolOIDC : string := "OIDC".
Definition protocolEventAction : string := "EventAction".
Definition supportedProtocols : list string :=
  [ProtocolSFTP; ProtocolSCP; ProtocolSSH; ProtocolFTP; ProtocolWebDAV; ProtocolHTTP; ProtocolHTTPShare; ProtocolOIDC].

(** Errors are compared by identity in the code and by the name of their
    variable here; [fmt.Errorf] with [%w] keeps the wrapped error only. *)
Definition ErrPermissionDenied : error := PlainError "common.ErrPermissionDenied".
Definition ErrNotExist : error := PlainError "common.ErrNotExist".
Definition ErrOpUnsupported : error := PlainError "common.ErrOpUnsupported".
Definition ErrGenericFailure : error := PlainError "common.ErrGenericFailure".
Definition ErrQuotaExceeded : error := PlainError "common.ErrQuotaExceeded".
Definition ErrReadQuotaExceeded : error := PlainError "common.ErrReadQuotaExceeded".
Definition ErrTransferAborted : error := PlainError "common.ErrTransferAborted".
Definition ErrShuttingDown : error := PlainError "common.ErrShuttingDown".
Definition errNoTransfer : error := PlainError "common.errNoTransfer".
Definition errTransferMismatch : error := PlainError "common.errTransferMismatch".
Definition ErrStorageSizeUnavailable : error := PlainError "vfs.ErrStorageSizeUnavailable".
Definition ErrVfsUnsupported : error := PlainError "vfs.ErrVfsUnsupported".
Definition ErrSFTPLoop : error := PlainError "vfs.ErrSFTPLoop".
Definition os_ErrNotExist : error := PlainError "os.ErrNotExist".
Definition os_ErrPermission : error := PlainError "os.ErrPermission".
Definition ErrSSHFxNoSuchFile : error := PlainError "sftp.ErrSSHFxNoSuchFile".
Definition ErrSSHFxPermissionDenied : error := PlainError "sftp.ErrSSHFxPermissionDenied".
Definition ErrSSHFxOpUnsupported : error := PlainError "sftp.ErrSSHFxOpUnsupported".
Definition ErrStorageExceeded : error := PlainError "ftpserver.ErrStorageExceeded".
Definition ErrFileNameNotAllowed : error := PlainError "ftpserver.ErrFileNameNotAllowed".
(** [fmt.Errorf("%w: %v", sftp.ErrSSHFxFailure, msg)], and the error itself *)
Definition SSHFxFailure (msg : string) : error := PlainError ("sftp.ErrSSHFxFailure" +:+ msg).
Definition is_SSHFxFailure (e : error) : bool :=
  match e with PlainError s => has_prefix s "sftp.ErrSSHFxFailure" | _ => false end.
Definition says (e : error) (msg : string) : bool := match e with PlainError s => has_substring s msg | _ => false end.
Definition is_error (e e' : error) : bool := bool_decide (e = e').

Definition web_or_ftp (protocol : string) : bool :=
  contains [ProtocolWebDAV; ProtocolFTP; ProtocolHTTP; ProtocolOIDC; ProtocolHTTPShare; ProtocolDataRetention] protocol.

(* source: internal/common/connection.go getPermissionDeniedError *)
Definition getPermissionDeniedError (protocol : string) : error :=
  if protocol =s ProtocolSFTP then ErrSSHFxPermissionDenied
  else if web_or_ftp protocol then os_ErrPermission else ErrPermissionDenied.
(* source: internal/common/connection.go GetNotExistError *)
Definition getNotExistError (protocol : string) : error :=
  if protocol =s ProtocolSFTP then ErrSSHFxNoSuchFile
  else if web_or_ftp protocol then os_ErrNotExist else ErrNotExist.
(* source: internal/common/connection.go GetOpUnsupportedError *)
Definition getOpUnsupportedError (protocol : string) : error :=
  if protocol =s ProtocolSFTP then ErrSSHFxOpUnsupported else ErrOpUnsupported.
(* source: internal/common/connection.go getQuotaExceededError *)
Definition getQuotaExceededError (protocol : string) : error :=
  if protocol =s ProtocolSFTP then SSHFxFailure "denying write due to space limit"
  else if protocol =s ProtocolFTP then ErrStorageExceeded else ErrQuotaExceeded.
(* source: internal/common/connection.go getReadQuotaExceededError *)
Definition getReadQuotaExceededError (protocol : string) : error :=
  if protocol =s ProtocolSFTP then SSHFxFailure "denying read due to quota limit" else ErrReadQuotaExceeded.
(* source: internal/common/connection.go IsNotExistError *)
Definition IsNotExistError (protocol : string) (e : error) : bool := is_error e (getNotExistError protocol).
(* source: internal/common/connection.go IsQuotaExceededError *)
Definition IsQuotaExceededError (protocol : string) (err : option error) : bool :=
  match err with
  | None => false
  | Some e =>
      if protocol =s ProtocolSFTP then
        is_error e ErrQuotaExceeded || (is_SSHFxFailure e && says e "denying write due to space limit")
      else if protocol =s ProtocolFTP then is_error e ErrStorageExceeded || is_error e ErrQuotaExceeded
      else is_error e ErrQuotaExceeded
  end.
(* source: internal/common/connection.go GetErrorForDeniedFile *)
Definition getErrorForDeniedFile (protocol : string) (policy : Z) : error :=
  if policy =? DenyPolicyHide then getNotExistError protocol else getPermissionDeniedError protocol.

(** * Storage *)

Module FileInfo.
(** [os.FileInfo]: the name, the size and the kind of a file, its modification
    time in nanoseconds since 1970 *)
Record t := mk { Name : string; Size : Z; IsDir : bool; IsSymlink : bool; IsRegular : bool; ModTime : Z }.
End FileInfo.
(* source: internal/vfs/fileinfo.go NewFileInfo *)
Definition NewFileInfo (name : string) (isDirectory : bool) (sizeInBytes modTime : Z) (fullName : bool) : FileInfo.t :=
  FileInfo.mk (if fullName then name else path_Base name) sizeInBytes isDirectory false (negb isDirectory) modTime.

(** The methods of [vfs.Fs] and the constructors of the backends. *)
Class Storage := {
  world : Type;
  fs : Type;
  reader : Type;
  writer : Type;
  new_root_fs : User.t → list string → world → res fs;
  new_folder_fs : VirtualFolder.t → list string → world → res fs;
  fs_Name : fs → string;
  fs_is_copier : fs → bool;                 (* implements FsFileCopier *)
  fs_local_buffered : fs → bool;            (* an OsFs with a write buffer *)
  fs_reads_buffered : fs → bool;            (* the read buffer size of an OsFs, the buffer size of an SFTPFs, is not 0 *)
  fs_ConvertFileInfo : fs → FileInfo.t → FileInfo.t;   (* of a CryptFs: the size of the plain text *)
  fs_HasVirtualFolders : fs → bool;
  fs_IsUploadResumeSupported : fs → bool;
  fs_IsConditionalUploadResumeSupported : fs → Z → bool;
  fs_IsAtomicUploadSupported : fs → bool;
  fs_GetAtomicUploadPath : fs → string → string;
  fs_IsNotExist : fs → error → bool;
  fs_IsPermission : fs → error → bool;
  fs_IsNotSupported : fs → error → bool;
  fs_path_error : error → option (string * string);   (* the Op and Err of an os.PathError *)
  fs_ResolvePath : fs → string → world → res string;
  fs_GetRelativePath : fs → string → string;
  fs_Lstat : fs → string → world → res FileInfo.t;
  fs_Stat : fs → string → world → res FileInfo.t;
  fs_ReadDir : fs → string → world → res (list FileInfo.t);
  fs_GetDirSize : fs → string → world → res (Z * Z);
  fs_Walk : fs → string → world → list (string * res FileInfo.t) * res unit;
  fs_Open : fs → string → Z → world → res reader;
  fs_Readlink : fs → string → world → res string;
  fs_RealPath : fs → option (string → world → res string);   (* when it implements FsRealPather *)
  fs_GetAvailableDiskSize : fs → string → world → res (Z * Z * Z);   (* the total space, the free space, the number of files *)
  fs_Mkdir : fs → string → M world unit;
  fs_Remove : fs → string → bool → M world unit;
  fs_Rename : fs → string → string → M world (Z * Z);
  fs_Symlink : fs → string → string → M world unit;
  fs_Chmod : fs → string → Z → M world unit;
  fs_Chown : fs → string → Z → Z → M world unit;
  fs_Chtimes : fs → string → Z → Z → bool → M world unit;
  fs_Truncate : fs → string → Z → M world unit;
  fs_CopyFile : fs → string → string → Z → M world unit;
  fs_Create : fs → string → Z → Z → M world writer;   (* flags, checks *)
  reader_File : reader → option writer;   (* a file that was opened, not a pipe *)
  writer_File : writer → option writer;
  io_Copy : reader → writer → M world Z;
  writer_Close : writer → M world unit;
  reader_Close : reader → M world unit;
  file_Seek : writer → Z → Z → M world Z;   (* offset, whence *)
  file_Truncate : writer → Z → M world unit;
  new_os_fs : string → fs;                  (* NewOsFs for a home directory *)
  fs_CheckRootPath : fs → string → Z → Z → M world unit;   (* the name of the user, its UID and GID *)
  fs_ScanRootDirContents : fs → world → res (Z * Z);
  fs_CheckMetadata : fs → M world unit;
}.

Section names.
Context {St : Storage}.
Definition osFsName : string := "osfs".
Definition cryptFsName : string := "cryptfs".
Definition sftpFsName : string := "sftpfs".
Definition httpFsName : string := "httpfs".
Definition s3fsName : string := "S3Fs".
Definition gcsfsName : string := "GCSFs".
Definition azBlobFsName : string := "AzureBlobFs".
(* source: internal/vfs/vfs.go IsLocalOsFs *)
Definition IsLocalOsFs (f : fs) : bool := fs_Name f =s osFsName.
(* source: internal/vfs/vfs.go IsCryptOsFs *)
Definition IsCryptOsFs (f : fs) : bool := fs_Name f =s cryptFsName.
(* source: internal/vfs/vfs.go IsSFTPFs *)
Definition IsSFTPFs (f : fs) : bool := has_prefix (fs_Name f) sftpFsName.
(* source: internal/vfs/vfs.go IsHTTPFs *)
Definition IsHTTPFs (f : fs) : bool := has_prefix (fs_Name f) httpFsName.
(* source: internal/vfs/vfs.go IsBufferedLocalOrSFTPFs *)
Definition IsBufferedLocalOrSFTPFs (f : fs) : bool :=
  if IsLocalOsFs f then fs_local_buffered f
  else if negb (IsSFTPFs f) then false else negb (fs_IsUploadResumeSupported f).
(* source: internal/vfs/vfs.go FsOpenReturnsFile *)
Definition FsOpenReturnsFile (f : fs) : bool := (IsLocalOsFs f || IsSFTPFs f) && negb (fs_reads_buffered f).
(* source: internal/vfs/vfs.go IsLocalOrSFTPFs *)
Definition IsLocalOrSFTPFs (f : fs) : bool := IsLocalOsFs f || IsSFTPFs f.
(* source: internal/vfs/vfs.go HasOpenRWSupport *)
Definition HasOpenRWSupport (f : fs) : bool := IsLocalOsFs f || (IsSFTPFs f && fs_IsUploadResumeSupported f).
(* source: internal/vfs/vfs.go IsUploadResumeSupported *)
Definition IsUploadResumeSupported (f : fs) (size : Z) : bool :=
  fs_IsUploadResumeSupported f || fs_IsConditionalUploadResumeSupported f size.
(* source: internal/vfs/vfs.go HasTruncateSupport *)
Definition HasTruncateSupport (f : fs) : bool := IsLocalOsFs f || IsSFTPFs f || IsHTTPFs f.
(* source: internal/vfs/vfs.go IsRenameAtomic *)
Definition IsRenameAtomic (f : fs) : bool :=
  negb (has_prefix (fs_Name f) s3fsName || has_prefix (fs_Name f) gcsfsName || has_prefix (fs_Name f) azBlobFsName).
(* source: internal/vfs/vfs.go HasImplicitAtomicUploads *)
Definition HasImplicitAtomicUploads (uploadMode : Z) (f : fs) : bool :=
  if has_prefix (fs_Name f) s3fsName then Z.land uploadMode 4 =? 0
  else if has_prefix (fs_Name f) gcsfsName then Z.land uploadMode 8 =? 0
  else if has_prefix (fs_Name f) azBlobFsName then Z.land uploadMode 16 =? 0
  else false.
(* source: internal/vfs/vfs.go IsLocalOrCryptoFs *)
Definition IsLocalOrCryptoFs (f : fs) : bool := IsLocalOsFs f || IsCryptOsFs f.
End names.

(** * Quotas *)

Module QuotaCheckResult.
(* source: internal/vfs/vfs.go QuotaCheckResult *)
Record t := mk {
  HasSpace : bool; AllowedSize : Z; AllowedFiles : Z; UsedSize : Z; UsedFiles : Z; QuotaSize : Z; QuotaFiles : Z }.
#[global] Instance eta : Settable t := {| settable := fun x =>
  mk (HasSpace x) (AllowedSize x) (AllowedFiles x) (UsedSize x) (UsedFiles x) (QuotaSize x) (QuotaFiles x) |}.
End QuotaCheckResult.
(* source: internal/vfs/vfs.go GetRemainingSize *)
Definition GetRemainingSize (q : QuotaCheckResult.t) : Z :=
  if 0 <? QuotaCheckResult.QuotaSize q then sub64 (QuotaCheckResult.QuotaSize q) (QuotaCheckResult.UsedSize q) else 0.
(* source: internal/vfs/vfs.go GetRemainingFiles *)
Definition GetRemainingFiles (q : QuotaCheckResult.t) : Z :=
  if 0 <? QuotaCheckResult.QuotaFiles q then sub64 (QuotaCheckResult.QuotaFiles q) (QuotaCheckResult.UsedFiles q) else 0.

Module TransferQuota.
(* source: internal/dataprovider/dataprovider.go TransferQuota *)
Record t := mk { ULSize : Z; DLSize : Z; TotalSize : Z; AllowedULSize : Z; AllowedDLSize : Z; AllowedTotalSize : Z }.
#[global] Instance eta : Settable t := {| settable := fun x =>
  mk (ULSize x) (DLSize x) (TotalSize x) (AllowedULSize x) (AllowedDLSize x) (AllowedTotalSize x) |}.
Definition zero : t := mk 0 0 0 0 0 0.
End TransferQuota.
(* source: internal/dataprovider/dataprovider.go HasSizeLimits *)
Definition HasSizeLimits (q : TransferQuota.t) : bool :=
  (0 <? TransferQuota.AllowedDLSize q) || (0 <? TransferQuota.AllowedULSize q) || (0 <? TransferQuota.AllowedTotalSize q).
(* source: internal/dataprovider/dataprovider.go HasUploadSpace *)
Definition HasUploadSpace (q : TransferQuota.t) : bool :=
  if (TransferQuota.TotalSize q <=? 0) && (TransferQuota.ULSize q <=? 0) then true
  else if 0 <? TransferQuota.TotalSize q then 0 <? TransferQuota.AllowedTotalSize q
  else 0 <? TransferQuota.AllowedULSize q.
(* source: internal/dataprovider/dataprovider.go HasDownloadSpace *)
Definition HasDownloadSpace (q : TransferQuota.t) : bool :=
  if (TransferQuota.TotalSize q <=? 0) && (TransferQuota.DLSize q <=? 0) then true
  else if 0 <? TransferQuota.TotalSize q then 0 <? TransferQuota.AllowedTotalSize q
  else 0 <? TransferQuota.AllowedDLSize q.

(** * Connections *)

Definition TransferUpload : Z := 0.
Definition TransferDownload : Z := 1.

Module BaseTransfer.
(* source: internal/common/transfer.go BaseTransfer *)
Record t `{Storage} := mk {
  ID : Z;
  BytesSent : Z;
  BytesReceived : Z;
  Fs : fs;
  File : option writer;
  fsPath : string;
  effectiveFsPath : string;
  requestPath : string;
  MaxWriteSize : Z;
  MinWriteOffset : Z;
  InitialSize : Z;
  truncatedSize : Z;
  isNewFile : bool;
  transferType : Z;
  AbortTransfer : bool;
  aTime : Z;
  mTime : Z;
  transferQuota : TransferQuota.t;
  errAbort : option error;
  ErrTransfer : option error;
}.
#[global] Instance eta `{Storage} : Settable t := {| settable := fun x =>
  mk _ (ID x) (BytesSent x) (BytesReceived x) (Fs x) (File x) (fsPath x) (effectiveFsPath x) (requestPath x)
    (MaxWriteSize x) (MinWriteOffset x) (InitialSize x) (truncatedSize x) (isNewFile x) (transferType x) (AbortTransfer x)
    (aTime x) (mTime x) (transferQuota x) (errAbort x) (ErrTransfer x) |}.
End BaseTransfer.

(** What a connection asks a storage to do, with the virtual paths. *)
Inductive effect :=
  | EMkdir (virtualPath : string)
  | EMkdirUnchecked (virtualPath : string)   (* a directory on the way to another path, no file patterns are asked *)
  | EKeepDir (virtualPath : string)          (* a directory the server creates at a login, for a user *)
  | ERemove (virtualPath : string) (isDir : bool)
  | ERename (source target : string) (isDir replaces : bool)   (* [replaces]: there is a target *)
  | ESymlink (source target : string)
  | EChmod (virtualPath pathForPerms : string)
  | EChown (virtualPath pathForPerms : string)
  | EOwn (virtualPath : string)          (* what was created gets the owner set for the user *)
  | EChtimes (virtualPath pathForPerms : string)
  | ETruncate (virtualPath pathForPerms : string)
  | ECopyFile (source target : string)
  | EOpen (virtualPath : string)
  | EDownload (virtualPath : string)     (* a file opened for a client to read *)
  | EStage (virtualPath : string)        (* the rename of an existing file before an atomic upload *)
  | ECreate (virtualPath : string) (isNew : bool)
  | ECommit (virtualPath : string)       (* the rename of an atomic upload to its path *)
  | ECleanup (virtualPath : string).     (* of what the connection wrote itself *)

Module BaseConnection.
(** The fields that do not change. *)
(* source: internal/common/connection.go BaseConnection *)
Record t := mk { ID : string; User : Entities.User.t; protocol : string; remoteAddr : string; localAddr : string }.
End BaseConnection.

Module Conn.
(** The state around a connection: the storages, the counters of the provider,
    the cache of file systems and the transfers of the connection. *)
Record t `{Storage} := mk {
  files : world;
  quotas : Quotas.t;
  fsCache : gmap string fs;
  activeTransfers : list BaseTransfer.t;
  transferID : Z;
  uploadDone : bool;
  downloadDone : bool;
  effects : list effect;
}.
#[global] Instance eta `{Storage} : Settable t := {| settable := fun x =>
  mk _ (files x) (quotas x) (fsCache x) (activeTransfers x) (transferID x) (uploadDone x) (downloadDone x) (effects x) |}.
End Conn.

Module StatAttributes.
(* source: internal/common/common.go StatAttributes *)
Record t := mk { Mode : Z; Atime : Z; Mtime : Z; UID : Z; GID : Z; Flags : Z; Size : Z }.
End StatAttributes.

Module FsEvent.
(** The notification of an operation. *)
Record t := mk {
  Action : string; FsPath : string; VirtualPath : string; FsTargetPath : string; VirtualTargetPath : string;
  FileSize : Z; Status : Z }.
End FsEvent.

(** The hooks, the plugins and the rules of the event manager that an operation
    triggers: they may change the files and the counters. *)
Class Hooks `{Storage} := {
  pre_action : FsEvent.t → Z → M (world * Quotas.t) Z;   (* with the flags the file is opened with *)
  notify : FsEvent.t → M (world * Quotas.t) unit;
}.

Module CommonConfig.
(** The settings the code reads, of [common.Config] and of the data provider. *)
Record t := mk {
  SetstatMode : Z;
  RenameMode : Z;
  UploadMode : Z;
  TempPath : string;
  isShuttingDown : bool;
  TrackQuota : Z;
  DelayedQuotaUpdate : Z;
  allowSelfConnections : Z;
}.
End CommonConfig.

(** Everything the operations of a connection depend on: the settings, the
    clock, the matching of file patterns, the orders of the ranges over a set
    of names and over permissions, and the connection. *)
Class Env {St : Storage} {Hk : Hooks} := {
  env_cfg : CommonConfig.t;
  env_now : nat → Z;
  env_CheckAllowed : PatternsFilter.t → string → bool;
  env_range : gset string → list string;
  env_range_perms : gmap string (list string) → list (string * list string);
  env_conn : BaseConnection.t;
}.
