(* ===== verification/FsPaths.v ===== *)
(** From the paths of the clients to those of the storages and back: the methods
    [ResolvePath] and [GetRelativePath] of the storage backends (internal/vfs:
    osfs.go, sftpfs.go, httpfs.go, s3fs.go, gcsfs.go, azblobfs.go), with the
    checks that symbolic links do not lead out of the root.

    The files of the machine are the class [OsFiles], those of a remote SFTP
    server the class [SftpFiles]. *)
From S2P Require Import Prelude GoPath Util ConnData.
Open Scope Z_scope.

Definition pathResolutionError : error := PlainError "vfs.pathResolutionError".
Definition IsNotExist (e : error) : bool := is_error e os_ErrNotExist.
Definition not_exist {A} (r : res A) : bool := match r with Err e => IsNotExist e | Ok _ => false end.

(** * Mount points *)

(* source: internal/vfs/vfs.go getMountPath *)
Definition getMountPath (mountPath : string) : string := if mountPath =s "/" then "" else mountPath.

Section mounted.
(** the field [mountPath]: empty if the storage is not mounted as a virtual folder *)
Variable mountPath : string.

(** [if fs.mountPath != "" { virtualPath = strings.TrimPrefix(virtualPath, fs.mountPath) }] *)
Definition unmount (virtualPath : string) : string :=
  if negb (mountPath =s "") then TrimPrefix virtualPath mountPath else virtualPath.
(** [if !path.IsAbs(virtualPath) { virtualPath = path.Clean("/" + virtualPath) }] *)
Definition make_abs (virtualPath : string) : string :=
  if is_abs virtualPath then virtualPath else path_Clean ("/" +:+ virtualPath).
(** [if fs.mountPath != "" { rel = path.Join(fs.mountPath, rel) }] *)
Definition remount (rel : string) : string := if negb (mountPath =s "") then path_Join2 mountPath rel else rel.

(** * Object storages *)

Section keys.
(** [config.KeyPrefix] *)
Variable KeyPrefix : string.
(* source: internal/vfs/s3fs.go#L716-L718 S3Fs.Join *)
Definition s3_Join (a b : string) : string := TrimPrefix (path_Join2 a b) "/".
(* source: internal/vfs/s3fs.go S3Fs.ResolvePath *)
Definition s3_ResolvePath (virtualPath : string) : string :=
  s3_Join KeyPrefix (TrimPrefix (make_abs (unmount virtualPath)) "/").
(* source: internal/vfs/s3fs.go S3Fs.GetRelativePath *)
Definition s3_GetRelativePath (name : string) : string :=
  let rel := path_Clean name in
  let rel := if rel =s "." then "" else rel in
  let rel := if negb (is_abs rel) then "/" +:+ rel else rel in
  let rel := if negb (KeyPrefix =s "") then
               let rel := if negb (has_prefix rel ("/" +:+ KeyPrefix)) then "/" else rel in
               path_Clean ("/" +:+ TrimPrefix rel ("/" +:+ KeyPrefix))
             else rel in
  remount rel.
(** the three object storages share the text of these methods *)
(* source: internal/vfs/gcsfs.go GCSFs.ResolvePath *)
Definition gcs_ResolvePath : string → string := s3_ResolvePath.
(* source: internal/vfs/gcsfs.go GCSFs.GetRelativePath *)
Definition gcs_GetRelativePath : string → string := s3_GetRelativePath.
(* source: internal/vfs/azblobfs.go AzureBlobFs.ResolvePath *)
Definition azure_ResolvePath : string → string := s3_ResolvePath.
(* source: internal/vfs/azblobfs.go AzureBlobFs.GetRelativePath *)
Definition azure_GetRelativePath : string → string := s3_GetRelativePath.

(* source: internal/vfs/s3fs.go S3Fs.getPrefix *)
Definition s3_getPrefix (name : string) : string :=
  if negb (name =s "") && negb (name =s ".") && negb (name =s "/") then
    let prefix := TrimPrefix name "/" in
    if negb (has_suffix prefix "/") then prefix +:+ "/" else prefix
  else "".
(* source: internal/vfs/s3fs.go S3Fs.resolve *)
Definition s3_resolve (name prefix : string) : string * bool :=
  let result := TrimPrefix name prefix in
  let isDir := has_suffix result "/" in
  (if isDir then TrimSuffix result "/" else result, isDir).
(* source: internal/vfs/gcsfs.go GCSFs.getPrefix *)
Definition gcs_getPrefix : string → string := s3_getPrefix.
Definition dirMimeType : string := "inode/directory".
(* source: internal/vfs/gcsfs.go GCSFs.resolve *)
Definition gcs_resolve (name prefix contentType : string) : string * bool :=
  let '(result, isDir) := s3_resolve name prefix in (result, isDir || (contentType =s dirMimeType)).
(* source: internal/vfs/azblobfs.go#L779-L788 AzureBlobFs.getPrefix *)
Definition azure_getPrefix (name : string) : string :=
  if negb (name =s "") && negb (name =s ".") then
    let prefix := TrimPrefix name "/" in
    if negb (has_suffix prefix "/") then prefix +:+ "/" else prefix
  else "".
End keys.

(** * The storage behind an HTTP API *)

(* source: internal/vfs/httpfs.go HTTPFs.ResolvePath *)
Definition httpfs_ResolvePath (virtualPath : string) : string := make_abs (unmount virtualPath).
(* source: internal/vfs/httpfs.go HTTPFs.GetRelativePath *)
Definition httpfs_GetRelativePath (name : string) : string :=
  let rel := path_Clean name in
  let rel := if rel =s "." then "" else rel in
  let rel := if negb (is_abs rel) then "/" +:+ rel else rel in
  remount rel.

(** * The local filesystem *)

(** the components of a path [path_Clean] returns *)
Definition clean_words (p : string) : list string :=
  List.filter (fun c => negb (c =s "") && negb (c =s ".")) (split_slash p).
(** [filepath.Rel] *)
Fixpoint strip_common (base targ : list string) : list string * list string :=
  match base, targ with
  | b :: base', t :: targ' => if b =s t then strip_common base' targ' else (base, targ)
  | _, _ => (base, targ)
  end.
Definition filepath_Rel (basepath targpath : string) : option string :=
  let base := path_Clean basepath in
  let targ := path_Clean targpath in
  if base =s targ then Some "."
  else if negb (Bool.eqb (is_abs base) (is_abs targ)) then None
  else
    let '(b, t) := strip_common (clean_words base) (clean_words targ) in
    match b with
    | c :: _ => if c =s ".." then None else Some (join_slash (List.map (fun _ => "..") b ++ t))
    | [] => Some (join_slash t)
    end.

(** the calls of the [os] and [filepath] packages *)
Class OsFiles := {
  EvalSymlinks : string → res string;
  os_Stat : string → res bool;        (* whether it is a directory *)
  os_Lstat : string → res bool;       (* whether it is a symbolic link *)
  os_Readlink : string → res string;
}.

Section local.
Context {F : OsFiles}.
Variable rootDir : string.

(* source: internal/vfs/osfs.go OsFs.isSubDir *)
Definition os_isSubDir (sub : string) : res unit :=
  parent ← EvalSymlinks rootDir;
  if parent =s sub then Ok tt
  else if (String.length sub <? String.length parent)%nat then Err pathResolutionError
  else
    let separator := if parent =s path_Dir parent then "" else "/" in
    if negb (has_prefix sub (parent +:+ separator)) then Err pathResolutionError else Ok tt.
(** the loop over the missing directories; [None] when the fuel runs out *)
Fixpoint missing_dirs (fuel : nat) (results : list string) (parent : string) : option (list string * string * res bool) :=
  match fuel with
  | O => None
  | S fuel =>
      if not_exist (os_Stat parent) then
        let results := results ++ [parent] in
        let parent := path_Dir parent in
        if bool_decide (parent ∈ results) then Some (results, parent, Err os_ErrNotExist)
        else missing_dirs fuel results parent
      else Some (results, parent, os_Stat parent)
  end.
(** the missing directories; the components of the path bound their number *)
(* source: internal/vfs/osfs.go OsFs.findNonexistentDirs *)
Definition findNonexistentDirs (filePath : string) : list string * res unit :=
  let cleanPath := path_Clean filePath in
  match missing_dirs (S (length (split_slash cleanPath))) [] (path_Dir cleanPath) with
  | None => ([], Err (PlainError "out of fuel"))
  | Some (results, parent, r) =>
      (results, _ ← r; p ← EvalSymlinks parent; os_isSubDir p)
  end.
(* source: internal/vfs/osfs.go OsFs.findFirstExistingDir *)
Definition findFirstExistingDir (path : string) : res string :=
  let '(results, r) := findNonexistentDirs path in
  _ ← r;
  let parent := match last results with Some lastMissingDir => path_Dir lastMissingDir | None => rootDir end in
  p ← EvalSymlinks parent;
  isDir ← os_Stat p;
  if negb isDir then Err (PlainError "resolved path is not a dir")
  else _ ← os_isSubDir p; Ok p.
(** the path is returned with the error of the check *)
(* source: internal/vfs/osfs.go OsFs.ResolvePath *)
Definition os_ResolvePath (virtualPath : string) : res string :=
  if negb (is_abs rootDir) then Err (PlainError "invalid root path")
  else
    let r := path_Clean (path_Join2 rootDir (unmount virtualPath)) in
    match EvalSymlinks r with
    | Ok p => _ ← os_isSubDir p; Ok r
    | Err e => if negb (IsNotExist e) then Err e else _ ← findFirstExistingDir r; Ok r
    end.
(* source: internal/vfs/osfs.go OsFs.GetRelativePath *)
Definition os_GetRelativePath (name : string) : string :=
  let virtualPath := if negb (mountPath =s "") then mountPath else "/" in
  match filepath_Rel rootDir (path_Clean name) with
  | None => ""
  | Some rel => path_Join2 virtualPath (if (rel =s ".") || has_prefix rel ".." then "" else rel)
  end.
(** ten links are followed *)
Fixpoint realpath_loop (links : nat) (p : string) : res string :=
  match os_Lstat p with
  | Err e => if IsNotExist e then Ok (os_GetRelativePath p) else Err e
  | Ok false => Ok (os_GetRelativePath p)
  | Ok true =>
      resolvedLink ← os_Readlink p;
      let resolvedLink := path_Clean resolvedLink in
      let p := if is_abs resolvedLink then resolvedLink else path_Join2 (path_Dir p) resolvedLink in
      match links with O => Err pathResolutionError | S links => realpath_loop links p end
  end.
(* source: internal/vfs/osfs.go OsFs.RealPath *)
Definition os_RealPath (p : string) : res string := realpath_loop 10 p.
End local.

(** * A remote SFTP server *)

(** the requests to the server; [client_Lstat] returns whether it is a link *)
Class SftpFiles := {
  client_Lstat : string → res bool;
  client_ReadLink : string → res string;
  client_RealPath : string → res string;
}.

Section remote.
Context {F : SftpFiles}.
(** [config.Prefix] *)
Variable Prefix : string.

(* source: internal/vfs/sftpfs.go SFTPFs.isSubDir *)
Definition sftp_isSubDir (name : string) : res unit :=
  if name =s Prefix then Ok tt
  else if (String.length name <? String.length Prefix)%nat then Err pathResolutionError
  else if negb (has_prefix name (Prefix +:+ "/")) then Err pathResolutionError else Ok tt.
(** the name reached and the error *)
Fixpoint real_loop (links : nat) (name : string) : string * res unit :=
  match client_Lstat name with
  | Err e => (name, Err e)
  | Ok false => (name, Ok tt)
  | Ok true =>
      match client_ReadLink name with
      | Err e => (name, Err e)
      | Ok resolvedLink =>
          let resolvedLink := path_Clean resolvedLink in
          let name := if is_abs resolvedLink then resolvedLink else path_Join2 (path_Dir name) resolvedLink in
          match links with O => ("", Err pathResolutionError) | S links => real_loop links name end
      end
  end.
(* source: internal/vfs/sftpfs.go SFTPFs.getRealPath *)
Definition sftp_getRealPath (name : string) : string * res unit := real_loop 10 name.
(** the loop that goes up while the path does not exist *)
Fixpoint first_existing (fuel : nat) (validatedPath : string) : option (string * res unit) :=
  match fuel with
  | O => None
  | S fuel =>
      let validatedPath := path_Dir validatedPath in
      if validatedPath =s "/" then Some (validatedPath, Ok tt)
      else
        let '(validatedPath, err) := sftp_getRealPath validatedPath in
        if not_exist err then first_existing fuel validatedPath else Some (validatedPath, err)
  end.
(** [None] when the fuel runs out: the links of the server decide how far the loop goes *)
(* source: internal/vfs/sftpfs.go SFTPFs.ResolvePath *)
Definition sftp_ResolvePath (fuel : nat) (virtualPath : string) : option (res string) :=
  let fsPath := path_Join2 Prefix (make_abs (unmount virtualPath)) in
  if negb (Prefix =s "/") && negb (fsPath =s "/") then
    let '(validatedPath, err) := sftp_getRealPath fsPath in
    match (if not_exist err then first_existing fuel validatedPath else Some (validatedPath, err)) with
    | None => None
    | Some (validatedPath, err) => Some (_ ← err; _ ← sftp_isSubDir validatedPath; Ok fsPath)
    end
  else Some (Ok fsPath).
(* source: internal/vfs/sftpfs.go SFTPFs.GetRelativePath *)
Definition sftp_GetRelativePath (name : string) : string :=
  let rel := path_Clean name in
  let rel := if rel =s "." then "" else rel in
  if negb (is_abs rel) then "/" +:+ rel
  else
    let rel := if negb (Prefix =s "/") then
                 let rel := if negb (has_prefix rel Prefix) then "/" else rel in
                 path_Clean ("/" +:+ TrimPrefix rel Prefix)
               else rel in
    remount rel.
(* source: internal/vfs/sftpfs.go SFTPFs.RealPath *)
Definition sftp_RealPath (p : string) : res string :=
  resolved ← client_RealPath p;
  _ ← (if negb (Prefix =s "/") then sftp_isSubDir resolved else Ok tt);
  Ok (sftp_GetRelativePath resolved).
End remote.
End mounted.
