(* ===== verification/FsPathsProps.v ===== *)
(** What the path translations of the storages guarantee: what a client sees of
    a path is what it asked for, and no path resolves outside the root. *)
From S2P Require Import Prelude GoPath Util ConnData FsPaths.
Open Scope Z_scope.

(** * Cleaning paths word by word *)

Definition words (p : string) : list string := List.filter (fun c => negb (c =s "")) (split_slash p).

Lemma filter_normal cs : Forall normal cs → List.filter (fun c => negb (c =s "")) cs = cs.
Proof. induction 1 as [|c cs (Hc & _) _ IH]; [done|]. cbn. by rewrite (proj2 (String.eqb_neq _ _) Hc), IH. Qed.
Lemma filter_app' {A} (f : A → bool) l m : List.filter f (l ++ m) = List.filter f l ++ List.filter f m.
Proof. induction l as [|x l IH]; [done|]. cbn. rewrite IH. by destruct (f x). Qed.
Lemma words_sep a b : words (a +:+ String slash b) = words a ++ words b.
Proof. unfold words. by rewrite split_slash_app_gen, filter_app'. Qed.
Lemma words_slash b : words ("/" +:+ b) = words b.
Proof. exact (words_sep "" b). Qed.
Lemma words_join cs : Forall normal cs → words (join_slash cs) = cs.
Proof.
  intros H. destruct cs as [|c cs]; [done|]. unfold words. rewrite split_join; [by apply filter_normal|done|].
  by apply normal_no_slash.
Qed.
Lemma words_abs cs : Forall normal cs → words (abs_path cs) = cs.
Proof. intros H. change (abs_path cs) with ("" +:+ String slash (join_slash cs)). by rewrite words_sep, words_join. Qed.

Lemma foldl_clean_words_filter rooted cs st :
  foldl (clean_step rooted) st cs = foldl (clean_step rooted) st (List.filter (fun c => negb (c =s "")) cs).
Proof.
  revert st. induction cs as [|c cs IH]; intros st; [done|]. cbn. destruct (String.eqb_spec c "") as [->|Hc]; cbn; [apply IH|].
  rewrite IH. done.
Qed.
Lemma clean_comps_words rooted p : Forall normal (words p) → clean_comps rooted (split_slash p) = words p.
Proof.
  intros H. unfold clean_comps. rewrite foldl_clean_words_filter. fold (words p).
  apply (clean_comps_normal rooted _ H).
Qed.
Lemma Clean_words p : is_abs p = true → Forall normal (words p) → path_Clean p = abs_path (words p).
Proof. intros Hp H. apply path_Clean_rooted; [done|]. by apply clean_comps_words. Qed.
Lemma Clean_words_rel p : is_abs p = false → words p ≠ [] → Forall normal (words p) → path_Clean p = join_slash (words p).
Proof.
  intros Hp Hne H. unfold path_Clean. rewrite Hp, (clean_comps_words false p H).
  destruct (String.eqb_spec p "") as [->|_]; [done|]. by destruct (words p).
Qed.

Lemma is_abs_join cs : Forall normal cs → is_abs (join_slash cs) = false.
Proof.
  intros H. destruct H as [|c cs (Hc & _ & _ & Hn) H]; [done|]. destruct cs as [|d cs].
  - cbn. rewrite <-(append_nil_r c). by apply no_slash_not_abs.
  - rewrite join_slash_cons by done. by apply no_slash_not_abs.
Qed.
Lemma is_abs_app a b : is_abs a = true → is_abs (a +:+ b) = true.
Proof. destruct a as [|c a]; [done|]. rewrite append_cons. unfold is_abs. cbn. destruct (a +:+ b), a; done. Qed.
Lemma Forall_app_2 {A} (P : A → Prop) l m : Forall P l → Forall P m → Forall P (l ++ m).
Proof. intros. by apply Forall_app. Qed.

(** [path.Join] of clean paths *)
Lemma Join_abs cs ds b : Forall normal cs → Forall normal ds → words b = ds → path_Join2 (abs_path cs) b = abs_path (cs ++ ds).
Proof.
  intros Hc Hd Hb. unfold path_Join2. change (abs_path cs =s "") with false. cbn [negb].
  assert (words (abs_path cs +:+ String slash b) = cs ++ ds) as E by (by rewrite words_sep, words_abs, Hb).
  rewrite Clean_words; rewrite ?E; [done|apply is_abs_app, is_abs_abs_path|by apply Forall_app_2].
Qed.
Lemma TrimPrefix_not s p : has_prefix s p = false → TrimPrefix s p = s.
Proof. unfold TrimPrefix. by intros ->. Qed.
Lemma TrimPrefix_slash cs : TrimPrefix (abs_path cs) "/" = join_slash cs.
Proof. apply (TrimPrefix_app "/"). Qed.
Lemma TrimPrefix_rel p : is_abs p = false → TrimPrefix p "/" = p.
Proof. apply TrimPrefix_not. Qed.

Lemma TrimPrefix_self p : TrimPrefix p p = "".
Proof. pose proof (TrimPrefix_app p "") as E. by rewrite append_nil_r in E. Qed.

(** * Mount points *)

(** a mount point: none, or a clean path other than the root *)
Definition mount_ok (mount : string) (ms : list string) : Prop :=
  Forall normal ms ∧ mount = match ms with [] => "" | _ => abs_path ms end.

Lemma unmount_spec mount ms vs : mount_ok mount ms → Forall normal vs →
  make_abs (unmount mount (abs_path (ms ++ vs))) = abs_path vs.
Proof.
  intros [Hm ->] Hv. unfold unmount, make_abs. destruct ms as [|m ms]; [cbn [String.eqb negb app]; by rewrite is_abs_abs_path|].
  change (abs_path (m :: ms) =s "") with false. cbn [negb]. destruct vs as [|v vs].
  - rewrite app_nil_r, TrimPrefix_self. done.
  - assert (abs_path ((m :: ms) ++ v :: vs) = abs_path (m :: ms) +:+ abs_path (v :: vs)) as ->.
    { unfold abs_path. rewrite join_slash_app by done. by rewrite append_cons. }
    rewrite TrimPrefix_app. by rewrite is_abs_abs_path.
Qed.
Lemma remount_spec mount ms vs : mount_ok mount ms → Forall normal vs → remount mount (abs_path vs) = abs_path (ms ++ vs).
Proof.
  intros [Hm ->] Hv. unfold remount. destruct ms as [|m ms]; [done|].
  change (abs_path (m :: ms) =s "") with false. cbn [negb]. apply Join_abs; [done..|by apply words_abs].
Qed.

(** * Object storages *)

(** a prefix of the keys: none, or a relative clean path with a slash at the end *)
Definition prefix_ok (kp : string) (ks : list string) : Prop :=
  Forall normal ks ∧ kp = match ks with [] => "" | _ => join_slash ks +:+ "/" end.

Lemma s3_key mount ms kp ks vs : mount_ok mount ms → prefix_ok kp ks → Forall normal vs →
  s3_ResolvePath mount kp (abs_path (ms ++ vs)) = join_slash (ks ++ vs).
Proof.
  intros Hm [Hk ->] Hv. unfold s3_ResolvePath, s3_Join. rewrite (unmount_spec _ _ _ Hm Hv), TrimPrefix_slash.
  unfold path_Join2. destruct ks as [|k ks].
  - change ("" =s "") with true. cbn [app]. destruct vs as [|v vs]; [done|].
    destruct (String.eqb_spec (join_slash (v :: vs)) "") as [E|_].
    { apply (f_equal words) in E. by rewrite words_join in E. }
    rewrite Clean_words_rel; rewrite ?words_join by done; [|by apply is_abs_join|done|done]. by apply TrimPrefix_rel, is_abs_join.
  - destruct (String.eqb_spec (join_slash (k :: ks) +:+ "/") "") as [E|_].
    { apply (f_equal String.length) in E. rewrite length_append in E. cbn [String.length] in E. lia. }
    assert (words ((join_slash (k :: ks) +:+ "/") +:+ String slash (join_slash vs)) = (k :: ks) ++ vs) as E.
    { rewrite words_sep, (words_sep _ ""), !words_join by done. by rewrite app_nil_r. }
    assert (Forall normal ((k :: ks) ++ vs)) as Hall by (by apply Forall_app_2).
    rewrite Clean_words_rel; rewrite ?E; [by apply TrimPrefix_rel, is_abs_join| |done|done].
    inversion Hk as [|? ? (Hn & _ & _ & Hs) Hks]; subst. destruct ks as [|k' ks].
    + cbn [join_slash]. rewrite <-append_assoc. by apply no_slash_not_abs.
    + rewrite join_slash_cons by done. rewrite <-!append_assoc. by apply no_slash_not_abs.
Qed.

Lemma key_rel key cs : Forall normal cs → key = join_slash cs →
  (let rel := path_Clean key in let rel := if rel =s "." then "" else rel in if negb (is_abs rel) then "/" +:+ rel else rel) = abs_path cs.
Proof.
  intros H ->. cbv zeta. destruct cs as [|c cs]; [done|].
  rewrite !Clean_words_rel; rewrite ?words_join by done; [|by apply is_abs_join|done|done].
  destruct (String.eqb_spec (join_slash (c :: cs)) ".") as [E|_].
  { apply (f_equal words) in E. rewrite words_join in E by done. injection E as -> ->. inversion H as [|? ? (_ & Hd & _)]; done. }
  by rewrite is_abs_join.
Qed.

Lemma root_no_prefix cs : has_prefix "/" (abs_path cs +:+ "/") = false.
Proof.
  destruct (has_prefix _ _) eqn:E; [|done]. apply has_prefix_spec in E as [t E]. apply (f_equal String.length) in E.
  rewrite !length_append in E. cbn [String.length abs_path] in E. lia.
Qed.

(** The object storages show a client the path it asked for: the key of a clean
    path below the mount point translates back to that path. *)
Theorem key_roundtrip mount ms kp ks vs : mount_ok mount ms → prefix_ok kp ks → Forall normal vs →
  s3_GetRelativePath mount kp (s3_ResolvePath mount kp (abs_path (ms ++ vs))) = abs_path (ms ++ vs).
Proof.
  intros Hm Hk Hv. rewrite (s3_key _ _ _ _ _ Hm Hk Hv). destruct Hk as [Hk ->]. unfold s3_GetRelativePath.
  rewrite (key_rel _ (ks ++ vs)) by (done || by apply Forall_app_2). destruct ks as [|k ks]; [by apply remount_spec|].
  destruct (String.eqb_spec (join_slash (k :: ks) +:+ "/") "") as [E|_].
  { apply (f_equal String.length) in E. rewrite length_append in E. cbn [String.length] in E. lia. }
  cbn [negb]. change ("/" +:+ (join_slash (k :: ks) +:+ "/")) with (abs_path (k :: ks) +:+ "/").
  destruct (has_prefix (abs_path ((k :: ks) ++ vs)) (abs_path (k :: ks) +:+ "/")) eqn:Hp; cbn [negb].
  - destruct vs as [|v vs].
    { apply has_prefix_sep in Hp as (j & Hj & E); [|done..|by apply Forall_app_2]. by destruct j; [|apply (f_equal length) in E; rewrite !length_app in E; cbn in E; lia]. }
    assert (abs_path ((k :: ks) ++ v :: vs) = (abs_path (k :: ks) +:+ "/") +:+ join_slash (v :: vs)) as ->.
    { unfold abs_path. rewrite join_slash_app by done. by rewrite <-append_assoc. }
    rewrite TrimPrefix_app. change ("/" +:+ join_slash (v :: vs)) with (abs_path (v :: vs)).
    rewrite path_Clean_abs_path by done. by apply remount_spec.
  - destruct vs as [|v vs].
    + rewrite TrimPrefix_not.
      * change (path_Clean ("/" +:+ "/")) with (abs_path []). by apply remount_spec.
      * apply root_no_prefix.
    + assert (has_prefix (abs_path ((k :: ks) ++ v :: vs)) (abs_path (k :: ks) +:+ "/") = true) as Hp'; [|congruence].
      apply has_prefix_sep; [done|done|by apply Forall_app_2|]. by exists (v :: vs).
Qed.

(** * The other storages *)

Lemma httpfs_roundtrip mount ms vs : mount_ok mount ms → Forall normal vs →
  httpfs_GetRelativePath mount (httpfs_ResolvePath mount (abs_path (ms ++ vs))) = abs_path (ms ++ vs).
Proof.
  intros Hm Hv. unfold httpfs_GetRelativePath, httpfs_ResolvePath. rewrite (unmount_spec _ _ _ Hm Hv). cbv zeta.
  rewrite path_Clean_abs_path by done. change (abs_path vs =s ".") with false. cbn match. rewrite is_abs_abs_path. by apply remount_spec.
Qed.

Lemma abs_path_app cs ds : cs ≠ [] → ds ≠ [] → abs_path (cs ++ ds) = abs_path cs +:+ abs_path ds.
Proof. intros Hc Hd. unfold abs_path. rewrite join_slash_app by done. by rewrite append_cons. Qed.

Lemma sftp_path mount ms ps vs : mount_ok mount ms → Forall normal ps → Forall normal vs →
  path_Join2 (abs_path ps) (make_abs (unmount mount (abs_path (ms ++ vs)))) = abs_path (ps ++ vs).
Proof. intros Hm Hp Hv. rewrite (unmount_spec _ _ _ Hm Hv). by apply Join_abs, words_abs. Qed.
Lemma sftp_roundtrip mount ms ps vs : mount_ok mount ms → Forall normal ps → Forall normal vs →
  sftp_GetRelativePath mount (abs_path ps) (abs_path (ps ++ vs)) = abs_path (ms ++ vs).
Proof.
  intros Hm Hp Hv. unfold sftp_GetRelativePath. cbv zeta. rewrite path_Clean_abs_path by by apply Forall_app_2.
  change (abs_path (ps ++ vs) =s ".") with false. cbn match. rewrite is_abs_abs_path. cbn [negb].
  destruct ps as [|p ps]; [by apply remount_spec|].
  destruct (String.eqb_spec (abs_path (p :: ps)) "/") as [E|_]; [by apply abs_path_root in E|]. cbn [negb].
  destruct vs as [|v vs].
  - rewrite app_nil_r. assert (has_prefix (abs_path (p :: ps)) (abs_path (p :: ps)) = true) as ->.
    { apply has_prefix_spec. exists "". by rewrite append_nil_r. }
    cbn [negb]. rewrite TrimPrefix_self. change (path_Clean ("/" +:+ "")) with (abs_path []). by apply remount_spec.
  - rewrite abs_path_app by done. assert (has_prefix (abs_path (p :: ps) +:+ abs_path (v :: vs)) (abs_path (p :: ps)) = true) as ->.
    { apply has_prefix_spec. by eexists. }
    cbn [negb]. rewrite TrimPrefix_app. rewrite Clean_words; rewrite ?words_slash, ?words_abs by done; [by apply remount_spec|done..].
Qed.

(** ** The local filesystem *)

Lemma filter_clean cs : Forall normal cs → List.filter (fun c => negb (c =s "") && negb (c =s ".")) cs = cs.
Proof.
  induction 1 as [|c cs (H1 & H2 & _) _ IH]; [done|]. cbn.
  by rewrite (proj2 (String.eqb_neq _ _) H1), (proj2 (String.eqb_neq _ _) H2), IH.
Qed.
Lemma clean_words_abs cs : Forall normal cs → clean_words (abs_path cs) = cs.
Proof.
  intros H. unfold clean_words. destruct cs as [|c cs]; [done|]. rewrite split_abs_path by done. exact (filter_clean _ H).
Qed.
Lemma strip_common_app cs ds : strip_common cs (cs ++ ds) = ([], ds).
Proof. induction cs as [|c cs IH]; [by destruct ds|]. cbn. by rewrite String.eqb_refl. Qed.
Lemma Rel_below rs vs : Forall normal rs → Forall normal vs →
  filepath_Rel (abs_path rs) (abs_path (rs ++ vs)) = Some (match vs with [] => "." | _ => join_slash vs end).
Proof.
  intros Hr Hv. assert (Forall normal (rs ++ vs)) as Hall by by apply Forall_app_2.
  unfold filepath_Rel. cbv zeta. rewrite !path_Clean_abs_path by done.
  destruct (String.eqb_spec (abs_path rs) (abs_path (rs ++ vs))) as [E|Hne].
  - apply abs_path_inj in E; [|done..]. destruct vs as [|v vs]; [done|].
    apply (f_equal length) in E. rewrite length_app in E. cbn in E. lia.
  - rewrite !is_abs_abs_path. cbn [Bool.eqb negb]. rewrite !clean_words_abs, strip_common_app by done.
    destruct vs; [by rewrite app_nil_r in Hne|done].
Qed.
(** a name that begins with two dots is taken for a way up *)
Definition dotted (c : string) : bool := has_prefix c "..".
Lemma join_dotted v vs : normal v → dotted v = false → has_prefix (join_slash (v :: vs)) ".." = false.
Proof.
  intros (H1 & H2 & _ & _) Hd. destruct vs as [|w vs]; [done|]. rewrite join_slash_cons by done.
  destruct (has_prefix _ _) eqn:E; [|done]. apply has_prefix_spec in E as [t E].
  destruct v as [|a [|b v]]; [done|discriminate E|]. rewrite !append_cons in E. injection E as -> -> _. by destruct v.
Qed.
Lemma os_relative mount ms rs vs : mount_ok mount ms → Forall normal rs → Forall normal vs → dotted (hd "" vs) = false →
  os_GetRelativePath mount (abs_path rs) (abs_path (rs ++ vs)) = abs_path (ms ++ vs).
Proof.
  intros [Hm ->] Hr Hv Hd. unfold os_GetRelativePath. rewrite path_Clean_abs_path, Rel_below by (done || by apply Forall_app_2).
  assert ((if negb (match ms with [] => "" | _ => abs_path ms end =s "") then match ms with [] => "" | _ => abs_path ms end else "/") = abs_path ms) as ->
    by by destruct ms.
  destruct vs as [|v vs]; [by apply Join_abs|]. inversion Hv as [|? ? Hn _]; subst. cbn [hd] in Hd.
  rewrite (join_dotted v vs Hn Hd).
  destruct (String.eqb_spec (join_slash (v :: vs)) ".") as [E|_].
  { apply (f_equal words) in E. rewrite words_join in E by done. injection E as -> ->. by destruct Hn as (_ & ? & _). }
  apply Join_abs; [done..|by apply words_join].
Qed.

Section local.
Context {F : OsFiles}.
Lemma os_ResolvePath_lexical mount ms rs vs r : mount_ok mount ms → Forall normal rs → Forall normal vs →
  os_ResolvePath mount (abs_path rs) (abs_path (ms ++ vs)) = Ok r → r = abs_path (rs ++ vs).
Proof.
  intros Hm Hr Hv. unfold os_ResolvePath. rewrite is_abs_abs_path. cbn [negb].
  assert (path_Clean (path_Join2 (abs_path rs) (unmount mount (abs_path (ms ++ vs)))) = abs_path (rs ++ vs)) as ->.
  { rewrite (Join_abs _ vs); [|done..|].
    - by rewrite path_Clean_abs_path by by apply Forall_app_2.
    - pose proof (unmount_spec _ _ _ Hm Hv) as E. unfold make_abs in E. destruct (is_abs _) eqn:Ha.
      + rewrite E. by apply words_abs.
      + destruct Hm as [Hm ->]. unfold unmount in *. destruct ms as [|m ms]; [cbn [negb String.eqb app] in Ha; by rewrite is_abs_abs_path in Ha|].
        change (abs_path (m :: ms) =s "") with false in *. cbn [negb] in *. destruct vs as [|v vs].
        * by rewrite app_nil_r, TrimPrefix_self.
        * rewrite abs_path_app, TrimPrefix_app in Ha by done. by rewrite is_abs_abs_path in Ha. }
  destruct (EvalSymlinks (abs_path (rs ++ vs))) as [p|e].
  - destruct (os_isSubDir (abs_path rs) p); [by intros [= <-]|done].
  - destruct (negb _); [done|]. destruct (findFirstExistingDir (abs_path rs) (abs_path (rs ++ vs))); [by intros [= <-]|done].
Qed.
End local.

(** C17: A clean path below the mount point, resolved and translated back, is the
    path the client asked for, on every kind of storage; on the local one the
    first name must not begin with two dots. *)
Theorem storages_show_requested_path `{OsFiles} mount ms rs kp ks vs : mount_ok mount ms → Forall normal rs → prefix_ok kp ks → Forall normal vs →
  let v := abs_path (ms ++ vs) in
  s3_GetRelativePath mount kp (s3_ResolvePath mount kp v) = v ∧
  httpfs_GetRelativePath mount (httpfs_ResolvePath mount v) = v ∧
  sftp_GetRelativePath mount (abs_path rs) (path_Join2 (abs_path rs) (make_abs (unmount mount v))) = v ∧
  (dotted (hd "" vs) = false → ∀ r, os_ResolvePath mount (abs_path rs) v = Ok r → os_GetRelativePath mount (abs_path rs) r = v).
Proof.
  intros Hm Hr Hk Hv v. split_and!.
  - by eapply key_roundtrip.
  - by eapply httpfs_roundtrip.
  - subst v. rewrite (sftp_path _ _ _ _ Hm Hr Hv). by apply sftp_roundtrip.
  - intros Hd r E. rewrite (os_ResolvePath_lexical _ _ _ _ _ Hm Hr Hv E). by apply os_relative.
Qed.

(** * Nothing outside the root *)

(** what [filepath.EvalSymlinks] returns is clean *)
Class OsFilesLaws `{OsFiles} : Prop :=
  EvalSymlinks_clean : ∀ p q, is_abs p = true → EvalSymlinks p = Ok q → canonical q.

Section inside.
Context {F : OsFiles} {L : OsFilesLaws}.
Variables (mount root : string).
Hypothesis root_abs : is_abs root = true.

(** below the directory the root really is *)
Definition inside (q : string) : Prop := ∃ ps ds, Forall normal (ps ++ ds) ∧
  EvalSymlinks root = Ok (abs_path ps) ∧ q = abs_path (ps ++ ds).

Lemma isSubDir_inside q : canonical q → os_isSubDir root q = Ok tt ↔ inside q.
Proof.
  intros (ss & Hs & ->). unfold os_isSubDir, inside. destruct (EvalSymlinks root) as [parent|e] eqn:Er.
  2: { split; [done|]. intros (ps & ds & _ & E & _). done. }
  destruct (EvalSymlinks_clean _ _ root_abs Er) as (ps & Hp & ->). cbn [mbind res_bind].
  assert ((∃ ds, ss = ps ++ ds) ↔ ∃ ps0 ds, Forall normal (ps0 ++ ds) ∧ Ok (abs_path ps) = Ok (abs_path ps0) ∧ abs_path ss = abs_path (ps0 ++ ds)) as <-.
  { split.
    - intros [ds ->]. by exists ps, ds.
    - intros (ps0 & ds & Hall & E0 & E2). exists ds. assert (abs_path ps = abs_path ps0) as E1 by congruence. apply abs_path_inj in E1; [|done|by apply Forall_app in Hall as [? _]]. subst ps0.
      by apply abs_path_inj in E2. }
  destruct (String.eqb_spec (abs_path ps) (abs_path ss)) as [E|Hne].
  { apply abs_path_inj in E; [|done..]. subst. split; [|done]. intros _. exists []. by rewrite app_nil_r. }
  destruct (Nat.ltb_spec (String.length (abs_path ss)) (String.length (abs_path ps))) as [Hlt|_].
  { split; [done|]. intros [ds ->]. destruct ps as [|p ps]; [cbn in Hlt; lia|]. destruct ds as [|d ds]; [by rewrite app_nil_r in Hne|].
    rewrite abs_path_app, length_append in Hlt by done. lia. }
  destruct ps as [|p ps].
  { change (abs_path [] =s path_Dir (abs_path [])) with true. cbn match.
    assert (has_prefix (abs_path ss) (abs_path [] +:+ "") = true) as -> by (by apply has_prefix_spec; exists (join_slash ss)).
    cbn [negb]. split; [intros _; by exists ss|done]. }
  assert (abs_path (p :: ps) =s path_Dir (abs_path (p :: ps)) = false) as ->.
  { apply String.eqb_neq. destruct (@exists_last _ (p :: ps)) as (l & x & El); [done|]. rewrite El in Hp |- *. rewrite path_Dir_snoc by done.
    intros E. apply abs_path_inj in E; [|done|by apply Forall_app in Hp as [? _]]. apply (f_equal length) in E. rewrite length_app in E. cbn in E. lia. }
  destruct (has_prefix (abs_path ss) (abs_path (p :: ps) +:+ "/")) eqn:Hx; cbn [negb].
  - apply has_prefix_sep in Hx as (k & _ & ->); [|done..]. split; [intros _; by exists k|done].
  - split; [done|]. intros [ds ->]. destruct ds as [|d ds]; [by rewrite app_nil_r in Hne|].
    assert (has_prefix (abs_path ((p :: ps) ++ d :: ds)) (abs_path (p :: ps) +:+ "/") = true); [|congruence].
    apply has_prefix_sep; [done..|]. by exists (d :: ds).
Qed.

(** the directory [n] levels up *)
Definition up (n : nat) (p : string) : string := Nat.iter n path_Dir p.
Lemma up_S n p : up n (path_Dir p) = up (S n) p.
Proof. unfold up. by rewrite Nat.iter_succ_r. Qed.

Lemma up_abs n p : is_abs p = true → is_abs (up n p) = true.
Proof.
  intros Hp. induction n as [|n IH]; [done|]. change (up (S n) p) with (path_Dir (up n p)).
  destruct (path_Dir_abs _ IH) as (cs & _ & ->). apply is_abs_abs_path.
Qed.

Lemma missing_dirs_spec fuel results p results' parent d : missing_dirs fuel results p = Some (results', parent, Ok d) →
  ∃ n, parent = up n p ∧ os_Stat parent = Ok d ∧ ∀ j, (j < n)%nat → not_exist (os_Stat (up j p)) = true.
Proof.
  revert results p. induction fuel as [|fuel IH]; intros results p; [done|]. cbn.
  destruct (not_exist (os_Stat p)) eqn:Hn.
  - case_bool_decide; [done|]. intros E. apply IH in E as (n & -> & Hd & Hj). exists (S n). rewrite <-up_S. split_and!; [done..|].
    intros [|j] Hlt; [done|]. rewrite <-up_S. apply Hj. lia.
  - intros [= _ -> E]. exists O. split_and!; [done..|]. intros j Hj. lia.
Qed.
Lemma missing_dirs_total cs : Forall normal cs → ∀ fuel results, (length cs < fuel)%nat → missing_dirs fuel results (abs_path cs) ≠ None.
Proof.
  intros H. induction cs as [|c cs IH] using rev_ind; intros [|fuel] results Hf; try lia; cbn.
  - destruct (not_exist _); [|done]. rewrite bool_decide_eq_true_2; [done|]. apply elem_of_app. right. by apply list_elem_of_singleton.
  - destruct (not_exist _); [|done]. case_bool_decide; [done|]. rewrite path_Dir_snoc by done.
    apply IH; [by apply Forall_app in H as [? _]|]. rewrite length_app in Hf. cbn in Hf. lia.
Qed.

(** the nearest file or directory that exists: the path, or the first of its
    parents that does *)
Definition nearest (r a : string) : Prop :=
  (a = r ∧ not_exist (EvalSymlinks r) = false) ∨
  (not_exist (EvalSymlinks r) = true ∧ ∃ n, a = up (S n) r ∧ is_ok (os_Stat a) = true ∧
     ∀ j, (j < n)%nat → not_exist (os_Stat (up (S j) r)) = true).

Lemma is_abs_Join2 a b : is_abs a = true → is_abs (path_Join2 a b) = true.
Proof. intros Ha. unfold path_Join2. destruct (String.eqb_spec a "") as [->|_]; [done|]. rewrite is_abs_Clean. by apply is_abs_app. Qed.

(** C16: Whatever path a client names, clean or not, the local storage resolves it
    only if the nearest file or directory that exists, its links followed, lies
    in the root directory, its links followed too. *)
Theorem resolved_paths_stay_inside v r : os_ResolvePath mount root v = Ok r →
  ∃ a q, nearest r a ∧ EvalSymlinks a = Ok q ∧ inside q.
Proof.
  unfold os_ResolvePath. rewrite root_abs. cbn [negb].
  assert (canonical (path_Clean (path_Join2 root (unmount mount v)))) as Hcan by by apply Clean_canonical, is_abs_Join2.
  revert Hcan. generalize (path_Clean (path_Join2 root (unmount mount v))). intros p Hcan.
  assert (∀ a q, EvalSymlinks a = Ok q → is_abs a = true → os_isSubDir root q = Ok tt → inside q) as Hin.
  { intros a q Ea Ha Hs. by apply isSubDir_inside; [eapply EvalSymlinks_clean|]. }
  destruct (EvalSymlinks p) as [q|e] eqn:Ep.
  - destruct (os_isSubDir root q) as [[]|] eqn:Hs; [|done]. intros [= <-]. exists p, q. split_and!; [left; by rewrite Ep|done|].
    eapply Hin; [done|by apply canonical_abs|done].
  - destruct (IsNotExist e) eqn:He; [|done]. cbn [negb]. unfold findFirstExistingDir, findNonexistentDirs.
    rewrite (canonical_Clean p Hcan).
    destruct (missing_dirs _ _ _) as [[[results parent] [d|]]|] eqn:Hm; [|done..]. cbn [mbind res_bind].
    apply missing_dirs_spec in Hm as (n & -> & Hd & Hj).
    destruct (EvalSymlinks (up n (path_Dir p))) as [q|] eqn:Eq; [|done]. cbn [mbind res_bind].
    destruct (os_isSubDir root q) as [[]|] eqn:Hs; [|done].
    intros Hok. exists (up n (path_Dir p)), q. split_and!; [|done|].
    + assert (r = p) as -> by (revert Hok; repeat (case_match || (unfold mbind, res_bind; cbn)); congruence).
      right. split; [by rewrite Ep|]. exists n. rewrite <-up_S. split_and!; [done|by rewrite Hd|]. intros j Hlt. rewrite <-up_S. by apply Hj.
    + eapply Hin; [done| |done]. rewrite up_S. by apply up_abs, canonical_abs.
Qed.

(** the loop over the missing directories never runs out of fuel *)
Lemma findNonexistentDirs_fuel p : is_abs p = true →
  missing_dirs (S (length (split_slash (path_Clean p)))) [] (path_Dir (path_Clean p)) ≠ None.
Proof.
  intros Hp. destruct (path_Clean_abs p Hp) as (cs & Hc & ->). destruct cs as [|c cs _] using rev_ind.
  - apply (missing_dirs_total [] (Forall_nil_2 _)). cbn. lia.
  - rewrite path_Dir_snoc by done. apply missing_dirs_total; [by apply Forall_app in Hc as [? _]|].
    rewrite split_abs_path by (done || apply snoc_ne_nil). cbn. rewrite length_app. cbn. lia.
Qed.
End inside.

(** * A tree with links *)

Inductive node := NDir | NFile | NLink (target : string).
Definition tree : Type := gmap string node.

(** the walk of the system from the root: [..] goes up, links are followed *)
Fixpoint walk (t : tree) (fuel : nat) (at_ todo : list string) : res (list string) :=
  match fuel with
  | O => Err (PlainError "too many links")
  | S fuel =>
      match todo with
      | [] => Ok at_
      | c :: todo =>
          if c =s "." then walk t fuel at_ todo
          else if c =s ".." then walk t fuel (removelast at_) todo
          else match t !! abs_path (at_ ++ [c]) with
               | None => Err os_ErrNotExist
               | Some (NLink target) => walk t fuel (if is_abs target then [] else at_) (words target ++ todo)
               | Some NDir => walk t fuel (at_ ++ [c]) todo
               | Some NFile => if bool_decide (todo = []) then Ok (at_ ++ [c]) else Err (PlainError "not a directory")
               end
      end
  end.
Definition walk_to (t : tree) (p : string) : res string := '(cs) ← walk t 64 [] (words p); Ok (abs_path cs).
(** the entry itself, the links of its parents followed *)
Definition entry_at (t : tree) (p : string) : res node :=
  if p =s "/" then Ok NDir
  else parent ← walk_to t (path_Dir p);
       match t !! path_Join2 parent (path_Base p) with Some n => Ok n | None => Err os_ErrNotExist end.
Definition is_link (n : node) : bool := match n with NLink _ => true | _ => false end.
Definition link_target (n : node) : res string := match n with NLink x => Ok x | _ => Err (PlainError "invalid argument") end.
Definition tree_os (t : tree) : OsFiles := {|
  EvalSymlinks p := walk_to t p;
  os_Stat p := q ← walk_to t p; n ← entry_at t q; Ok (match n with NDir => true | _ => false end);
  os_Lstat p := n ← entry_at t p; Ok (is_link n);
  os_Readlink p := n ← entry_at t p; link_target n |}.
Definition tree_sftp (t : tree) : SftpFiles := {|
  client_Lstat p := n ← entry_at t p; Ok (is_link n);
  client_ReadLink p := n ← entry_at t p; link_target n;
  client_RealPath p := walk_to t p |}.

Definition name (c : string) : Prop := c ≠ "" ∧ no_slash c = true.
Lemma words_names p : Forall name (words p).
Proof.
  unfold words. pose proof (split_no_slash p) as H. induction H as [|c cs Hc _ IH]; [constructor|]. cbn.
  destruct (String.eqb_spec c ""); [done|]. by constructor.
Qed.
Lemma Forall_removelast {A} (P : A → Prop) l : Forall P l → Forall P (removelast l).
Proof. induction 1 as [|x l Hx Hl IH]; [constructor|]. cbn. destruct l; [constructor|]. by constructor. Qed.
Lemma walk_normal t fuel : ∀ at_ todo r, Forall normal at_ → Forall name todo → walk t fuel at_ todo = Ok r → Forall normal r.
Proof.
  induction fuel as [|fuel IH]; intros at_ todo r Ha Hd; [done|]. cbn. destruct todo as [|c todo]; [by intros [= <-]|].
  inversion Hd as [|? ? [H1 H2] Hd']; subst. destruct (String.eqb_spec c ".") as [|H3]; [by apply IH|].
  destruct (String.eqb_spec c "..") as [|H4]; [by apply IH; [apply Forall_removelast|]|].
  assert (Forall normal (at_ ++ [c])) as Hc' by (apply Forall_app_2; [done|by apply Forall_singleton]).
  destruct (t !! _) as [[| |x]|] eqn:Ex; [by apply IH| |apply IH|done].
  - case_bool_decide; [by intros [= <-]|done].
  - change (Forall normal (if is_abs x then [] else at_)). destruct (is_abs x); [constructor|done].
  - apply Forall_app_2; [apply words_names|done].
Qed.
Lemma tree_laws t : @OsFilesLaws (tree_os t).
Proof.
  intros p q _. change (walk_to t p = Ok q → canonical q). unfold walk_to. generalize 64%nat. intros fuel.
  destruct (walk t fuel [] (words p)) as [cs|] eqn:E; [|discriminate]. intros H. cbn [mbind res_bind] in H. assert (q = abs_path cs) as -> by congruence.
  apply canonical_abs_path. eapply walk_normal; [| |exact E]; [constructor|apply words_names].
Qed.

(** * Witnesses *)

Definition home : tree := {["/srv" := NDir; "/srv/alice" := NDir; "/srv/alice/docs" := NDir; "/etc" := NDir; "/etc/passwd" := NFile;
  "/srv/alice/up" := NLink "/etc"; "/srv/alice/new" := NLink "/etc/new"]}.
#[local] Instance home_os : OsFiles := tree_os home.
#[local] Instance home_sftp : SftpFiles := tree_sftp home.

Ltac normal_list := repeat (apply Forall_cons_2; [by split_and!|]); apply Forall_nil_2.
Lemma storages_show_requested_path_witness :
  s3_GetRelativePath "/s3" "backup/" (s3_ResolvePath "/s3" "backup/" "/s3/a/b") = "/s3/a/b".
Proof.
  apply (storages_show_requested_path "/s3" ["s3"] ["srv"] "backup/" ["backup"] ["a"; "b"]).
  - split; [normal_list|done].
  - normal_list.
  - split; [normal_list|done].
  - normal_list.
Defined.

Lemma resolved_paths_stay_inside_witness : os_ResolvePath "" "/srv/alice" "/docs/x/y" = Ok "/srv/alice/docs/x/y" ∧
  ∃ a q, nearest "/srv/alice/docs/x/y" a ∧ EvalSymlinks a = Ok q ∧ inside "/srv/alice" q.
Proof.
  assert (os_ResolvePath "" "/srv/alice" "/docs/x/y" = Ok "/srv/alice/docs/x/y") as E by (by vm_compute).
  split; [exact E|]. apply (@resolved_paths_stay_inside _ (tree_laws home) "" "/srv/alice" eq_refl "/docs/x/y"). exact E.
Defined.

(** A link inside the root to a file that does not exist outside of it is
    resolved: a file created under its name is created outside. *)
Theorem dangling_link_leads_out :
  os_ResolvePath "" "/srv/alice" "/new" = Ok "/srv/alice/new" ∧ os_Readlink "/srv/alice/new" = Ok "/etc/new" ∧
  os_ResolvePath "" "/srv/alice" "/up" = Err pathResolutionError ∧ os_ResolvePath "" "/srv/alice" "/up/passwd" = Err pathResolutionError.
Proof. split_and!; by vm_compute. Qed.

(** On a remote server only the last component is looked at: a file in a
    directory that is a link out of the prefix is resolved. *)
Theorem remote_directory_link_leads_out :
  sftp_ResolvePath "" "/srv/alice" 10 "/up/passwd" = Some (Ok "/srv/alice/up/passwd") ∧
  walk_to home "/srv/alice/up/passwd" = Ok "/etc/passwd" ∧
  sftp_ResolvePath "" "/srv/alice" 10 "/up" = Some (Err pathResolutionError).
Proof. split_and!; by vm_compute. Qed.

(** A file of the root directory whose name begins with two dots is shown as
    the root directory. *)
Theorem dotted_file_shown_as_root : os_GetRelativePath "" "/srv/alice" "/srv/alice/..notes" = "/".
Proof. by vm_compute. Qed.
