(* ===== verification/Connection.v ===== *)
(** Connections: the operations of a user on virtual paths
    (internal/common/connection.go, with the file system a path belongs to,
    dataprovider/user.go GetFilesystemForPath).

    Logging, the measurement of durations and the goroutine that keeps a
    connection alive are left out.  A recursion over a directory tree has fuel;
    running out of it stands for the overflow of the stack. *)
From S2P Require Import Prelude GoPath Util Net FsConfig FsValidate Entities Links Tables MemoryCore UserPerms GroupMerge MemoryQueries ValidateUser ValidateObjects Quota ConnData.
Open Scope Z_scope.

Notation C := (M Conn.t).
Notation cfg := env_cfg.
Notation user := (BaseConnection.User env_conn).
Notation protocol := (BaseConnection.protocol env_conn).
Notation IsFileAllowed := (UserPerms.IsFileAllowed env_CheckAllowed).
Notation HasPerm := (UserPerms.HasPerm env_range_perms).
Notation HasAnyPerm := (UserPerms.HasAnyPerm env_range_perms).
Notation HasPermsRenameAll := (UserPerms.HasPermsRenameAll env_range_perms).
Notation HasPermissionsInside := (UserPerms.HasPermissionsInside env_range_perms).

Section connection.
Context {St : Storage} {Hk : Hooks} {Cfg : Settings} {E : Env}.

(** ** Errors of the protocol *)

Definition PermissionDenied : error := getPermissionDeniedError protocol.
Definition NotExistError : error := getNotExistError protocol.
Definition OpUnsupported : error := getOpUnsupportedError protocol.
Definition QuotaExceeded : error := getQuotaExceededError protocol.
Definition is_not_exist (e : error) : bool := IsNotExistError protocol e.

(* source: internal/common/connection.go GetGenericError *)
Definition GetGenericError (err : option error) : error :=
  if protocol =s ProtocolSFTP then
    match err with
    | None => SSHFxFailure ""
    | Some e =>
        if is_error e ErrStorageSizeUnavailable then ErrSSHFxOpUnsupported
        else if is_error e ErrShuttingDown then SSHFxFailure "the service is shutting down"
        else match fs_path_error e with
             | Some (op, msg) => SSHFxFailure (op +:+ " " +:+ msg)
             | None => SSHFxFailure "failure"
             end
    end
  else match err with
       | Some e =>
           if existsb (is_error e) [ErrPermissionDenied; ErrNotExist; ErrOpUnsupported; ErrQuotaExceeded; ErrReadQuotaExceeded;
                                    ErrStorageSizeUnavailable; ErrShuttingDown]
           then e else ErrGenericFailure
       | None => ErrGenericFailure
       end.
(* source: internal/common/connection.go GetFsError *)
Definition GetFsError (f : fs) (err : error) : error :=
  if fs_IsNotExist f err then NotExistError
  else if fs_IsPermission f err then PermissionDenied
  else if fs_IsNotSupported f err then OpUnsupported
  else GetGenericError (Some err).
(* source: internal/common/connection.go getNotificationStatus *)
Definition getNotificationStatus (err : option error) : Z :=
  match err with
  | None => 1
  | Some e => if IsQuotaExceededError protocol (Some e) then 3 else 2
  end.

(** ** Access to the state *)

Definition on_files {A} (m : M world A) : C A := fun s =>
  let '(r, w) := m (Conn.files s) in (r, s <| Conn.files := w |>).
Definition on_quotas {A} (m : M Quotas.t A) : C A := fun s =>
  let '(r, q) := m (Conn.quotas s) in (r, s <| Conn.quotas := q |>).
Definition look {A} (f : world → res A) : C A := fun s => (f (Conn.files s), s).
Definition record (e : effect) : C unit := modify (fun s => s <| Conn.effects ::= fun l => l ++ [e] |>).
(** an operation on a storage, recorded *)
Definition perform {A} (e : effect) (m : M world A) : C A := _ ← record e; on_files m.
Definition hook {A} (m : M (world * Quotas.t) A) : C A := fun s =>
  let '(r, (w, q)) := m (Conn.files s, Conn.quotas s) in (r, (s <| Conn.files := w |>) <| Conn.quotas := q |>).
(** [ExecuteActionNotification], whose error is ignored *)
Definition notify_action (operation fsPath virtualPath target virtualTarget : string) (size : Z) (err : option error) : C unit :=
  hook (notify (FsEvent.mk operation fsPath virtualPath target virtualTarget size (getNotificationStatus err))).
Definition fail_if (bad : bool) (e : error) : C unit := lift (refuse bad e).

Definition update_user_quota (files size : Z) : C unit :=
  ignore (on_quotas (UpdateUserQuota env_now (CommonConfig.TrackQuota cfg) (CommonConfig.DelayedQuotaUpdate cfg) user files size false)).
Definition update_folder_quota (v : VirtualFolder.t) (files size : Z) : C unit :=
  ignore (on_quotas (UpdateVirtualFolderQuota env_now (CommonConfig.TrackQuota cfg) (CommonConfig.DelayedQuotaUpdate cfg)
    (VirtualFolder.Base v) files size false)).
(** the update of the virtual folder and, when it is included, of the user *)
Definition update_folder_and_user (v : VirtualFolder.t) (files size : Z) : C unit :=
  _ ← update_folder_quota v files size;
  if vfolder_IsIncludedInUserQuota v then update_user_quota files size else mret tt.
(** the update after a change of a file in the directory of [virtualPath] *)
(* source: internal/common/eventmanager.go updateUserQuotaAfterFileWrite *)
Definition updateUserQuotaAfterFileWrite (virtualPath : string) (numFiles fileSize : Z) : C unit :=
  match GetVirtualFolderForPath user (path_Dir virtualPath) with
  | Err _ => update_user_quota numFiles fileSize
  | Ok vfolder => update_folder_and_user vfolder numFiles fileSize
  end.

(** ** The file system of a path *)

(* source: internal/dataprovider/dataprovider.go UserExists *)
Definition UserExists (username role : string) (h : DB.t) : res User.t := userExists (convertName username) role h.

(* source: internal/dataprovider/user.go getForbiddenSFTPSelfUsers *)
Definition getForbiddenSFTPSelfUsers (username : string) (h : DB.t) : res (list string) :=
  if CommonConfig.allowSelfConnections cfg =? 0 then Ok []
  else
    match (sftpUser ← UserExists username "" h;
           LoadAndApplyGroupSettings env_range_perms (fun names => getGroupsWithNames names h) sftpUser) with
    | Ok sftpUser =>
        let is_sftp f := Filesystem.Provider f =? SFTPFilesystemProvider in
        if is_sftp (User.FsConfig sftpUser) || existsb (fun v => is_sftp (vfolder_FsConfig v)) (User.VirtualFolders sftpUser)
        then Ok [User.Username sftpUser] else Ok []
    | Err (RecordNotFoundError _ _) => Ok []
    | Err e => Err e
    end.

(* source: internal/dataprovider/user.go getRootFs *)
Definition getRootFs : C fs := fun s =>
  let r :=
    forbidden ← (if Filesystem.Provider (User.FsConfig user) =? SFTPFilesystemProvider then
                   l ← getForbiddenSFTPSelfUsers (SFTPFsConfig.Username (Filesystem.SFTPConfig (User.FsConfig user))) (Quotas.db (Conn.quotas s));
                   Ok (l ++ [User.Username user])
                 else Ok []);
    new_root_fs user forbidden (Conn.files s) in (r, s).
Definition folder_fs (folder : VirtualFolder.t) : C fs := fun s =>
  let config := vfolder_FsConfig folder in
  let r :=
    forbidden ← (if Filesystem.Provider config =? SFTPFilesystemProvider then
                   getForbiddenSFTPSelfUsers (SFTPFsConfig.Username (Filesystem.SFTPConfig config)) (Quotas.db (Conn.quotas s))
                 else Ok []);
    new_folder_fs folder (User.Username user :: forbidden) (Conn.files s) in (r, s).
(** the file system kept under the path, or a new one *)
Definition cached_fs (key : string) (new : C fs) : C fs := fun s =>
  match Conn.fsCache s !! key with
  | Some f => (Ok f, s)
  | None => (f ← new; _ ← modify (fun s => s <| Conn.fsCache ::= <[key := f]> |>); mret f) s
  end.

(* source: internal/dataprovider/user.go GetFilesystemForPath *)
Definition GetFilesystemForPath (virtualPath : string) : C fs :=
  match GetVirtualFolderForPath user virtualPath with
  | Ok folder => cached_fs (VirtualFolder.VirtualPath folder) (folder_fs folder)
  | Err _ => cached_fs "/" getRootFs
  end.

(* source: internal/common/connection.go GetFsAndResolvedPath *)
Definition GetFsAndResolvedPath (virtualPath : string) : C (fs * string) :=
  try_catch (GetFilesystemForPath virtualPath)
    (fun f =>
       if CommonConfig.isShuttingDown cfg then fail (GetFsError f ErrShuttingDown)
       else try_catch (look (fs_ResolvePath f virtualPath)) (fun p => mret (f, p)) (fun e => fail (GetFsError f e)))
    (fun e => if (protocol =s ProtocolWebDAV) && is_error e ErrSFTPLoop then fail PermissionDenied
              else fail (GetGenericError (Some e))).

(** an operation whose error is that of the file system *)
Definition fs_call {A} (f : fs) (m : C A) : C A := try_catch m mret (fun e => fail (GetFsError f e)).

(** ** Active transfers *)

(** [GetRealFsPath] of a transfer; the empty path when it is not the one transferred *)
(* source: internal/common/transfer.go GetRealFsPath *)
Definition transfer_RealFsPath (fsPath : string) (t : BaseTransfer.t) : string :=
  if fsPath =s BaseTransfer.fsPath t then
    if (if BaseTransfer.File t is Some _ then true else false) || IsLocalOsFs (BaseTransfer.Fs t)
    then BaseTransfer.effectiveFsPath t else BaseTransfer.fsPath t
  else "".
(* source: internal/common/connection.go getRealFsPath *)
Definition getRealFsPath (fsPath : string) : C string := gets (fun s =>
  default fsPath (first_some (fun t => let p := transfer_RealFsPath fsPath t in if p =s "" then None else Some p)
    (Conn.activeTransfers s))).

(** the first transfer of the path is changed *)
Fixpoint update_first (p : BaseTransfer.t → bool) (f : BaseTransfer.t → BaseTransfer.t) (l : list BaseTransfer.t)
    : bool * list BaseTransfer.t :=
  match l with
  | [] => (false, [])
  | t :: l' => if p t then (true, f t :: l') else let '(b, l') := update_first p f l' in (b, t :: l')
  end.
(* source: internal/common/connection.go setTimes *)
Definition setTimes (fsPath : string) (atime mtime : Z) : C bool := fun s =>
  let '(b, l) := update_first (fun t => fsPath =s BaseTransfer.fsPath t)
                   (fun t => t <| BaseTransfer.aTime := atime |> <| BaseTransfer.mTime := mtime |>) (Conn.activeTransfers s) in
  (Ok b, s <| Conn.activeTransfers := l |>).

(** ** Reading *)

(* source: internal/common/connection.go doStatInternal *)
Definition doStatInternal (virtualPath : string) (mode : Z) (checkFilePatterns convertResult : bool) : C FileInfo.t :=
  if bool_decide (virtualPath ∈ GetVirtualFoldersInPath user (path_Dir virtualPath))
  then mret (NewFileInfo virtualPath true 0 0 false)
  else
    let '(ok, policy) := if checkFilePatterns && negb (virtualPath =s "/")
                         then IsFileAllowed user virtualPath else (true, 0) in
    _ ← fail_if (negb ok && (policy =? DenyPolicyHide)) NotExistError;
    '(f, fsPath) ← GetFsAndResolvedPath virtualPath;
    real ← getRealFsPath fsPath;
    info ← fs_call f (look (if mode =? 1 then fs_Lstat f real else fs_Stat f real));
    mret (if convertResult && IsCryptOsFs f then fs_ConvertFileInfo f info else info).
(* source: internal/common/connection.go DoStat *)
Definition DoStat (virtualPath : string) (mode : Z) (checkFilePatterns : bool) : C FileInfo.t :=
  doStatInternal virtualPath mode checkFilePatterns true.

(* source: internal/common/connection.go ListDir *)
Definition ListDir (virtualPath : string) : C (list FileInfo.t) :=
  _ ← fail_if (negb (HasPerm user PermListItems virtualPath)) PermissionDenied;
  '(f, fsPath) ← GetFsAndResolvedPath virtualPath;
  files ← fs_call f (look (fs_ReadDir f fsPath));
  mret (FilterListDir env_CheckAllowed FileInfo.Name FileInfo.IsDir (fun name => NewFileInfo name true 0 0 false) env_range user files virtualPath).

(** ** Creating directories *)

(* source: internal/vfs/vfs.go SetPathPermissions *)
Definition SetPathPermissions (f : fs) (path virtualPath : string) : C unit :=
  if (GetUID user =? -1) && (GetGID user =? -1) then mret tt
  else ignore (perform (EOwn virtualPath) (fs_Chown f path (GetUID user) (GetGID user))).

(* source: internal/common/connection.go CreateDir *)
Definition CreateDir (virtualPath : string) (checkFilePatterns : bool) : C unit :=
  _ ← fail_if (negb (HasPerm user PermCreateDirs (path_Dir virtualPath))) PermissionDenied;
  _ ← fail_if (checkFilePatterns && negb (IsFileAllowed user virtualPath).1) PermissionDenied;
  _ ← fail_if (IsVirtualFolder user virtualPath) PermissionDenied;
  '(f, fsPath) ← GetFsAndResolvedPath virtualPath;
  _ ← fs_call f (perform ((if checkFilePatterns then EMkdir else EMkdirUnchecked) virtualPath) (fs_Mkdir f fsPath));
  _ ← SetPathPermissions f fsPath virtualPath;
  ignore (notify_action "mkdir" fsPath virtualPath "" "" 0 None).

(* source: internal/common/connection.go createDirIfMissing *)
Definition createDirIfMissing (name : string) : C unit :=
  try_catch (DoStat name 0 false) (fun _ => mret tt)
    (fun e => if is_not_exist e then CreateDir name false else fail e).

(* source: internal/common/connection.go CheckParentDirs *)
Definition CheckParentDirs (virtualPath : string) : C unit :=
  f ← GetFilesystemForPath virtualPath;
  if fs_HasVirtualFolders f then mret tt
  else
    try_catch (DoStat virtualPath 0 false) (fun _ => mret tt)
      (fun e => if negb (is_not_exist e) then fail e
                else foldr (fun dir (k : C unit) =>
                       f ← GetFilesystemForPath dir;
                       if fs_HasVirtualFolders f then k else _ ← createDirIfMissing dir; k)
                     (mret tt) (reverse (dirs_of virtualPath))).

(* source: internal/common/connection.go GetCreateChecks *)
Definition GetCreateChecks (virtualPath : string) (isNewFile isResume : bool) : Z :=
  if negb isNewFile then (if isResume then 2 else 0)      (* vfs.CheckResume *)
  else if negb (HasPerm user PermCreateDirs (path_Dir virtualPath)) then 1   (* vfs.CheckParentDir *)
  else 0.
End connection.
