(* ===== verification/ConnectionOps.v ===== *)
(** Connections: removing, renaming, linking, attributes, quota checks and
    copies (internal/common/connection.go, and the reader and writer of
    internal/common/eventmanager.go a copy uses). *)
From S2P Require Import Prelude GoPath Util Net FsConfig FsValidate Entities Links Tables MemoryCore UserPerms GroupMerge MemoryQueries ValidateUser ValidateObjects Quota ConnData Connection.
Open Scope Z_scope.

(** the overflow of the stack by a recursion that does not end *)
Definition StackOverflow : error := RuntimePanic "stack overflow".

Section operations.
Context {St : Storage} {Hk : Hooks} {Cfg : Settings} {E : Env}.

(** * Removing *)

(* source: internal/common/connection.go IsRemoveFileAllowed *)
Definition IsRemoveFileAllowed (virtualPath : string) : res unit :=
  if negb (HasAnyPerm user [PermDeleteFiles; PermDelete] (path_Dir virtualPath)) then Err PermissionDenied
  else let '(ok, policy) := IsFileAllowed user virtualPath in
       if negb ok then Err (getErrorForDeniedFile protocol policy) else Ok tt.

(* source: internal/common/connection.go RemoveFile *)
Definition RemoveFile (f : fs) (fsPath virtualPath : string) (info : FileInfo.t) : C unit :=
  _ ← lift (IsRemoveFileAllowed virtualPath);
  let size := FileInfo.Size info in
  status ← try_catch (hook (pre_action (FsEvent.mk "pre-delete" fsPath virtualPath "" "" size 0) 0)) mret
             (fun _ => fail PermissionDenied);
  updateQuota ← try_catch (perform (ERemove virtualPath false) (fs_Remove f fsPath false)) (fun _ => mret true)
    (fun err => if (0 <? status) && fs_IsNotExist f err then mret (status =? 1) else fail (GetFsError f err));
  _ ← (if updateQuota && negb (FileInfo.IsSymlink info) then updateUserQuotaAfterFileWrite virtualPath (-1) (- size) else mret tt);
  ignore (notify_action "delete" fsPath virtualPath "" "" size None).

(* source: internal/common/connection.go IsRemoveDirAllowed *)
Definition IsRemoveDirAllowed (f : fs) (fsPath virtualPath : string) : res unit :=
  if (virtualPath =s "/") || (fs_GetRelativePath f fsPath =s "/") then Err PermissionDenied
  else if IsVirtualFolder user virtualPath then Err PermissionDenied
  else if HasVirtualFoldersInside user virtualPath then Err OpUnsupported
  else if IsMappedPath user fsPath then Err PermissionDenied
  else if negb (HasAnyPerm user [PermDeleteDirs; PermDelete] (path_Dir virtualPath)) then Err PermissionDenied
  else let '(ok, policy) := IsFileAllowed user virtualPath in
       if negb ok then Err (getErrorForDeniedFile protocol policy) else Ok tt.

(* source: internal/common/connection.go RemoveDir *)
Definition RemoveDir (virtualPath : string) : C unit :=
  '(f, fsPath) ← GetFsAndResolvedPath virtualPath;
  _ ← lift (IsRemoveDirAllowed f fsPath virtualPath);
  try_catch (look (fs_Lstat f fsPath))
    (fun fi =>
       _ ← fail_if (negb (FileInfo.IsDir fi) || FileInfo.IsSymlink fi) (GetGenericError None);
       _ ← fs_call f (perform (ERemove virtualPath true) (fs_Remove f fsPath true));
       ignore (notify_action "rmdir" fsPath virtualPath "" "" 0 None))
    (fun err => if fs_IsNotExist f err && fs_HasVirtualFolders f then mret tt else fail (GetFsError f err)).

(** [doRecursiveRemove] and [doRecursiveRemoveDirEntry] *)
(* source: internal/common/connection.go#L496-L520 doRecursiveRemove *)
Fixpoint doRecursiveRemove (fuel : nat) (f : fs) (fsPath virtualPath : string) (info : FileInfo.t) : C unit :=
  match fuel with
  | O => fail StackOverflow
  | S fuel =>
      if FileInfo.IsDir info then
        entries ← ListDir virtualPath;
        _ ← foldr (fun fi (k : C unit) =>
              let targetPath := path_Join2 virtualPath (FileInfo.Name fi) in
              '(f, fsPath) ← GetFsAndResolvedPath targetPath;
              _ ← doRecursiveRemove fuel f fsPath targetPath fi; k) (mret tt) entries;
        RemoveDir virtualPath
      else RemoveFile f fsPath virtualPath info
  end.

(* source: internal/common/connection.go RemoveAll *)
Definition RemoveAll (fuel : nat) (virtualPath : string) : C unit :=
  '(f, fsPath) ← GetFsAndResolvedPath virtualPath;
  fi ← fs_call f (look (fs_Lstat f fsPath));
  if FileInfo.IsDir fi && negb (FileInfo.IsSymlink fi) then
    _ ← lift (IsRemoveDirAllowed f fsPath virtualPath);
    doRecursiveRemove fuel f fsPath virtualPath fi
  else RemoveFile f fsPath virtualPath fi.

(** * Quota checks *)

(* source: internal/common/connection.go checkUserQuota *)
Definition checkUserQuota (q : Quotas.t) : TransferQuota.t * Z * Z :=
  let '(ul, dl, total) := GetDataTransferLimits user in
  let result := TransferQuota.mk ul dl total 0 0 0 in
  if negb (HasTransferQuotaRestrictions user) then (result, -1, -1)
  else match Api_GetUsedQuota (CommonConfig.TrackQuota cfg) (User.Username user) q with
       | Err _ => (result <| TransferQuota.AllowedTotalSize := -1 |>, -1, -1)
       | Ok (usedFiles, usedSize, usedULSize, usedDLSize) =>
           let allowed limit used := if 0 <? limit then sub64 limit used else 0 in
           (result <| TransferQuota.AllowedTotalSize := allowed total (add64 usedULSize usedDLSize) |>
                   <| TransferQuota.AllowedULSize := allowed ul usedULSize |>
                   <| TransferQuota.AllowedDLSize := allowed dl usedDLSize |>, usedFiles, usedSize)
       end.
(* source: internal/common/connection.go GetTransferQuota *)
Definition GetTransferQuota (q : Quotas.t) : TransferQuota.t := (checkUserQuota q).1.1.

(** the usage compared with the limits *)
Definition compare_quota (checkFiles : bool) (quotaSize quotaFiles : Z) (used : res (Z * Z)) : QuotaCheckResult.t :=
  match used with
  | Err _ => QuotaCheckResult.mk false 0 0 0 0 quotaSize quotaFiles
  | Ok (usedFiles, usedSize) =>
      QuotaCheckResult.mk
        (negb ((checkFiles && (0 <? quotaFiles) && (quotaFiles <=? usedFiles)) || ((0 <? quotaSize) && (quotaSize <=? usedSize))))
        (sub64 quotaSize usedSize) (sub64 quotaFiles usedFiles) usedSize usedFiles quotaSize quotaFiles
  end.
Definition no_restrictions : QuotaCheckResult.t := QuotaCheckResult.mk true 0 0 0 0 0 0.

(* source: internal/common/connection.go HasSpace *)
Definition HasSpace (checkFiles getUsage : bool) (requestPath : string) (q : Quotas.t) : QuotaCheckResult.t * TransferQuota.t :=
  if CommonConfig.TrackQuota cfg =? 0 then (no_restrictions, TransferQuota.zero)
  else
    let '(transferQuota, usedFiles, usedSize) := checkUserQuota q in
    let of_user :=
      if HasNoQuotaRestrictions user checkFiles && negb getUsage then no_restrictions
      else compare_quota checkFiles (User.QuotaSize user) (User.QuotaFiles user)
             (if usedSize =? -1
              then '(files, size, _, _) ← Api_GetUsedQuota (CommonConfig.TrackQuota cfg) (User.Username user) q; Ok (files, size)
              else Ok (usedFiles, usedSize)) in
    (match GetVirtualFolderForPath user (path_Dir requestPath) with
     | Ok vfolder =>
         if vfolder_IsIncludedInUserQuota vfolder then of_user
         else if vfolder_HasNoQuotaRestrictions vfolder checkFiles && negb getUsage then no_restrictions
         else compare_quota checkFiles (VirtualFolder.QuotaSize vfolder) (VirtualFolder.QuotaFiles vfolder)
                (GetUsedVirtualFolderQuota env_now (CommonConfig.TrackQuota cfg) (vfolder_Name vfolder) q)
     | Err _ => of_user
     end, transferQuota).

(* source: internal/common/connection.go GetMaxWriteSize *)
Definition GetMaxWriteSize (quotaResult : QuotaCheckResult.t) (isResume : bool) (fileSize : Z) (isUploadResumeSupported : bool) : res Z :=
  let maxWriteSize := GetRemainingSize quotaResult in
  let limit := BaseUserFilters.MaxUploadFileSize (base_filters user) in
  if isResume then
    if negb isUploadResumeSupported then Err OpUnsupported
    else if (0 <? limit) && (limit <=? fileSize) then Err QuotaExceeded
    else
      let maxUploadSize := sub64 limit fileSize in
      Ok (if (0 <? limit) && ((maxUploadSize <? maxWriteSize) || (maxWriteSize =? 0)) then maxUploadSize else maxWriteSize)
  else
    let maxWriteSize := if 0 <? maxWriteSize then add64 maxWriteSize fileSize else maxWriteSize in
    Ok (if (0 <? limit) && ((limit <? maxWriteSize) || (maxWriteSize =? 0)) then limit else maxWriteSize).

(** * Renaming *)

(* source: internal/common/connection.go IsSameResource *)
Definition IsSameResource (virtualSourcePath virtualTargetPath : string) : bool :=
  match GetVirtualFolderForPath user virtualSourcePath, GetVirtualFolderForPath user virtualTargetPath with
  | Err _, Err _ => true
  | Ok sourceFolder, Ok dstFolder =>
      if vfolder_Name sourceFolder =s vfolder_Name dstFolder then true
      else fs_IsSameResource (vfolder_FsConfig sourceFolder) (vfolder_FsConfig dstFolder)
  | Ok sourceFolder, Err _ => fs_IsSameResource (vfolder_FsConfig sourceFolder) (User.FsConfig user)
  | Err _, Ok dstFolder => fs_IsSameResource (vfolder_FsConfig dstFolder) (User.FsConfig user)
  end.

(* source: internal/common/connection.go isCrossFoldersRequest *)
Definition isCrossFoldersRequest (virtualSourcePath virtualTargetPath : string) : bool :=
  match GetVirtualFolderForPath user virtualSourcePath, GetVirtualFolderForPath user virtualTargetPath with
  | Err _, Err _ => false
  | Ok sourceFolder, Ok dstFolder => negb (vfolder_Name sourceFolder =s vfolder_Name dstFolder)
  | _, _ => true
  end.

(* source: internal/common/connection.go hasRenamePerms *)
Definition hasRenamePerms (virtualSourcePath virtualTargetPath : string) (fi : option FileInfo.t) : bool :=
  let src := path_Dir virtualSourcePath in
  let dst := path_Dir virtualTargetPath in
  if HasPermsRenameAll user src && HasPermsRenameAll user dst then true
  else match fi with
       | None => false
       | Some fi =>
           let perms := if FileInfo.IsDir fi then [PermRenameDirs; PermRename] else [PermRenameFiles; PermRename] in
           HasAnyPerm user perms src && HasAnyPerm user perms dst
       end.

(* source: internal/common/connection.go isRenamePermitted *)
Definition isRenamePermitted (fsSrc fsDst : fs) (fsSourcePath fsTargetPath virtualSourcePath virtualTargetPath : string)
    (fi : option FileInfo.t) : bool :=
  if negb (IsSameResource virtualSourcePath virtualTargetPath) then false
  else if IsMappedPath user fsSourcePath && IsLocalOrCryptoFs fsSrc then false
  else if IsMappedPath user fsTargetPath && IsLocalOrCryptoFs fsDst then false
  else if (virtualSourcePath =s "/") || (virtualTargetPath =s "/") || (fs_GetRelativePath fsSrc fsSourcePath =s "/") then false
  else if IsVirtualFolder user virtualSourcePath || IsVirtualFolder user virtualTargetPath then false
  else if negb (IsFileAllowed user virtualSourcePath).1 || negb (IsFileAllowed user virtualTargetPath).1 then false
  else hasRenamePerms virtualSourcePath virtualTargetPath fi.

(** [strings.Replace(s, old, new, 1)] *)
Fixpoint replace_first (s old new : string) : string :=
  if has_prefix s old then new +:+ TrimPrefix s old
  else match s with String a s' => String a (replace_first s' old new) | EmptyString => s end.

(* source: internal/common/connection.go checkRecursiveRenameDirPermissions *)
Definition checkRecursiveRenameDirPermissions (fsSrc fsDst : fs) (sourcePath targetPath virtualSourcePath virtualTargetPath : string)
    (fi : FileInfo.t) : C unit :=
  let inside := HasPermissionsInside user virtualSourcePath || HasPermissionsInside user virtualTargetPath in
  _ ← fail_if (negb inside && negb (isRenamePermitted fsSrc fsDst sourcePath targetPath virtualSourcePath virtualTargetPath (Some fi)))
        PermissionDenied;
  if negb inside && HasPermsRenameAll user (path_Dir virtualSourcePath) && HasPermsRenameAll user (path_Dir virtualTargetPath)
  then mret tt
  else
    '(walked, final) ← gets (fun s => fs_Walk fsSrc sourcePath (Conn.files s));
    lift (_ ← Prelude.for_each (fun '(walkedPath, info) =>
       match info with
       | Err e => Err (GetFsError fsSrc e)
       | Ok info =>
           if negb (walkedPath =s sourcePath) && negb (IsRenameAtomic fsSrc) && (CommonConfig.RenameMode cfg =? 0) then Err OpUnsupported
           else
             let dstPath := replace_first walkedPath sourcePath targetPath in
             let virtualSrcPath := fs_GetRelativePath fsSrc walkedPath in
             let virtualDstPath := fs_GetRelativePath fsDst dstPath in
             refuse (negb (isRenamePermitted fsSrc fsDst walkedPath dstPath virtualSrcPath virtualDstPath (Some info))) PermissionDenied
       end) walked; final).

Definition HasOverlap (dir1 dir2 separator : string) : bool := IsDirOverlapped dir1 dir2 true separator.
(** the separator of the local paths on the platforms with slashes *)
(* source: internal/vfs/filesystem.go GetPathSeparator *)
Definition GetPathSeparator : string := "/".

(* source: internal/common/connection.go checkFolderRename *)
Definition checkFolderRename (fsSrc fsDst : fs) (fsSourcePath fsTargetPath virtualSourcePath virtualTargetPath : string)
    (fi : FileInfo.t) : C unit :=
  _ ← fail_if (HasOverlap virtualSourcePath virtualTargetPath "/") OpUnsupported;
  _ ← fail_if (HasOverlap fsSourcePath fsTargetPath GetPathSeparator) OpUnsupported;
  _ ← fail_if (HasVirtualFoldersInside user virtualSourcePath) OpUnsupported;
  _ ← fail_if (HasVirtualFoldersInside user virtualTargetPath) OpUnsupported;
  checkRecursiveRenameDirPermissions fsSrc fsDst fsSourcePath fsTargetPath virtualSourcePath virtualTargetPath fi.

(* source: internal/common/connection.go hasSpaceForCrossRename *)
Definition hasSpaceForCrossRename (f : fs) (quotaResult : QuotaCheckResult.t) (initialSize : Z) (sourcePath : string) (w : world) : bool :=
  let has := QuotaCheckResult.HasSpace quotaResult in
  if negb has && (initialSize =? -1) then false
  else
    match (fi ← fs_Lstat f sourcePath w;
           if FileInfo.IsRegular fi then
             Ok (if negb (initialSize =? -1) then (0, sub64 (FileInfo.Size fi) initialSize) else (1, FileInfo.Size fi))
           else if FileInfo.IsDir fi then fs_GetDirSize f sourcePath w
           else Ok (0, 0)) with
    | Err _ => false
    | Ok (filesDiff, sizeDiff) =>
        if negb has && negb (initialSize =? -1) then
          if QuotaCheckResult.QuotaSize quotaResult =? 0 then true
          else 0 <=? GetRemainingSize (quotaResult <| QuotaCheckResult.UsedSize ::= fun u => add64 u sizeDiff |>)
        else
          negb ((0 <? QuotaCheckResult.QuotaFiles quotaResult) && (GetRemainingFiles quotaResult <? filesDiff)) &&
          negb ((0 <? QuotaCheckResult.QuotaSize quotaResult) && (GetRemainingSize quotaResult <? sizeDiff))
    end.

(* source: internal/common/connection.go hasSpaceForRename *)
Definition hasSpaceForRename (f : fs) (virtualSourcePath virtualTargetPath : string) (initialSize : Z) (fsSourcePath : string)
    (s : Conn.t) : bool :=
  if CommonConfig.TrackQuota cfg =? 0 then true
  else
    let check :=
      let '(quotaResult, _) := HasSpace true false virtualTargetPath (Conn.quotas s) in
      if QuotaCheckResult.HasSpace quotaResult && (QuotaCheckResult.QuotaSize quotaResult =? 0) && (QuotaCheckResult.QuotaFiles quotaResult =? 0)
      then true
      else hasSpaceForCrossRename f quotaResult initialSize fsSourcePath (Conn.files s) in
    match GetVirtualFolderForPath user (path_Dir virtualSourcePath), GetVirtualFolderForPath user (path_Dir virtualTargetPath) with
    | Err _, Err _ => true
    | Ok sourceFolder, Ok dstFolder => if vfolder_Name sourceFolder =s vfolder_Name dstFolder then true else check
    | Err _, Ok dstFolder => if vfolder_IsIncludedInUserQuota dstFolder then true else check
    | Ok sourceFolder, Err _ => if vfolder_IsIncludedInUserQuota sourceFolder then true else check
    end.

(** ** Quotas after a rename *)

(* source: internal/common/connection.go updateQuotaMoveBetweenVFolders *)
Definition updateQuotaMoveBetweenVFolders (sourceFolder dstFolder : VirtualFolder.t) (initialSize filesSize numFiles : Z) : C unit :=
  if vfolder_Name sourceFolder =s vfolder_Name dstFolder then
    if negb (initialSize =? -1) then update_folder_and_user dstFolder (- numFiles) (- initialSize) else mret tt
  else
    _ ← update_folder_and_user sourceFolder (- numFiles) (- filesSize);
    if initialSize =? -1 then update_folder_and_user dstFolder numFiles filesSize
    else update_folder_and_user dstFolder 0 (sub64 filesSize initialSize).

(* source: internal/common/connection.go updateQuotaMoveFromVFolder *)
Definition updateQuotaMoveFromVFolder (sourceFolder : VirtualFolder.t) (initialSize filesSize numFiles : Z) : C unit :=
  _ ← update_folder_and_user sourceFolder (- numFiles) (- filesSize);
  if initialSize =? -1 then update_user_quota numFiles filesSize
  else update_user_quota 0 (sub64 filesSize initialSize).

(* source: internal/common/connection.go updateQuotaMoveToVFolder *)
Definition updateQuotaMoveToVFolder (dstFolder : VirtualFolder.t) (initialSize filesSize numFiles : Z) : C unit :=
  _ ← update_user_quota (- numFiles) (- filesSize);
  if initialSize =? -1 then update_folder_and_user dstFolder numFiles filesSize
  else update_folder_and_user dstFolder 0 (sub64 filesSize initialSize).

(** the files and the size that were moved, counted when the storage did not return them *)
Definition moved_size (f : fs) (targetPath : string) (numFiles filesSize : Z) (w : world) : res (Z * Z) :=
  if filesSize =? -1 then
    fi ← fs_Stat f targetPath w;
    if FileInfo.IsDir fi then fs_GetDirSize f targetPath w else Ok (1, FileInfo.Size fi)
  else Ok (numFiles, filesSize).

(* source: internal/common/connection.go updateQuotaAfterRename *)
Definition updateQuotaAfterRename (f : fs) (virtualSourcePath virtualTargetPath targetPath : string) (initialSize numFiles filesSize : Z) : C unit :=
  if CommonConfig.TrackQuota cfg =? 0 then mret tt
  else
    match GetVirtualFolderForPath user (path_Dir virtualSourcePath), GetVirtualFolderForPath user (path_Dir virtualTargetPath) with
    | Err _, Err _ => if negb (initialSize =? -1) then update_user_quota (-1) (- initialSize) else mret tt
    | src, dst =>
        '(numFiles, filesSize) ← look (moved_size f targetPath numFiles filesSize);
        match src, dst with
        | Ok sourceFolder, Ok dstFolder => updateQuotaMoveBetweenVFolders sourceFolder dstFolder initialSize filesSize numFiles
        | Ok sourceFolder, Err _ => updateQuotaMoveFromVFolder sourceFolder initialSize filesSize numFiles
        | Err _, Ok dstFolder => updateQuotaMoveToVFolder dstFolder initialSize filesSize numFiles
        | Err _, Err _ => mret tt
        end
    end.

(** What a rename finds at its target: whether its parent is still to be
    checked, the size of the file it replaces, and whether it replaces one. *)
Definition check_rename_target (fsDst : fs) (fsTargetPath virtualTargetPath : string) (checkParentDestination : bool) : C (bool * Z * bool) :=
  try_catch (look (fs_Lstat fsDst fsTargetPath))
    (fun dstInfo =>
       _ ← fail_if (FileInfo.IsDir dstInfo) OpUnsupported;
       _ ← fail_if (negb (HasPerm user PermOverwrite (path_Dir virtualTargetPath))) PermissionDenied;
       mret (false, if FileInfo.IsRegular dstInfo then FileInfo.Size dstInfo else -1, true))
    (fun _ => mret (checkParentDestination, -1, false)).

(* source: internal/common/connection.go renameInternal *)
Definition renameInternal (virtualSourcePath virtualTargetPath : string) (checkParentDestination : bool) : C unit :=
  _ ← fail_if (virtualSourcePath =s virtualTargetPath) OpUnsupported;
  '(fsSrc, fsSourcePath) ← GetFsAndResolvedPath virtualSourcePath;
  '(fsDst, fsTargetPath) ← GetFsAndResolvedPath virtualTargetPath;
  srcInfo ← fs_call fsSrc (look (fs_Lstat fsSrc fsSourcePath));
  _ ← fail_if (negb (isRenamePermitted fsSrc fsDst fsSourcePath fsTargetPath virtualSourcePath virtualTargetPath (Some srcInfo))) PermissionDenied;
  '(checkParentDestination, initialSize, replaces) ← check_rename_target fsDst fsTargetPath virtualTargetPath checkParentDestination;
  _ ← (if FileInfo.IsDir srcInfo
       then checkFolderRename fsSrc fsDst fsSourcePath fsTargetPath virtualSourcePath virtualTargetPath srcInfo else mret tt);
  hasSpace ← gets (hasSpaceForRename fsSrc virtualSourcePath virtualTargetPath initialSize fsSourcePath);
  _ ← fail_if (negb hasSpace) (GetGenericError (Some ErrQuotaExceeded));
  _ ← (if (checkParentDestination : bool) then ignore (CheckParentDirs (path_Dir virtualTargetPath)) else mret tt);
  '(files, size) ← try_catch (perform (ERename virtualSourcePath virtualTargetPath (FileInfo.IsDir srcInfo) replaces) (fs_Rename fsDst fsSourcePath fsTargetPath))
    mret (fun e => fail (GetFsError fsSrc e));
  _ ← SetPathPermissions fsDst fsTargetPath virtualTargetPath;
  _ ← ignore (updateQuotaAfterRename fsDst virtualSourcePath virtualTargetPath fsTargetPath initialSize files size);
  ignore (notify_action "rename" fsSourcePath virtualSourcePath fsTargetPath virtualTargetPath 0 None).
(* source: internal/common/connection.go Rename *)
Definition Rename (virtualSourcePath virtualTargetPath : string) : C unit := renameInternal virtualSourcePath virtualTargetPath false.

(** * Links and attributes *)

(* source: internal/common/connection.go CreateSymlink *)
Definition CreateSymlink (virtualSourcePath virtualTargetPath : string) : C unit :=
  let relativePath := if is_abs virtualSourcePath then "" else virtualSourcePath in
  let virtualSourcePath := if is_abs virtualSourcePath then virtualSourcePath
                           else path_Join2 (path_Dir virtualTargetPath) virtualSourcePath in
  _ ← fail_if (isCrossFoldersRequest virtualSourcePath virtualTargetPath) OpUnsupported;
  '(f, fsSourcePath) ← GetFsAndResolvedPath virtualSourcePath;
  fsTargetPath ← fs_call f (look (fs_ResolvePath f virtualTargetPath));
  _ ← fail_if (fs_GetRelativePath f fsSourcePath =s "/") PermissionDenied;
  _ ← fail_if (fs_GetRelativePath f fsTargetPath =s "/") PermissionDenied;
  _ ← fail_if (negb (HasPerm user PermCreateSymlinks (path_Dir virtualTargetPath))) PermissionDenied;
  let '(ok, policy) := IsFileAllowed user virtualSourcePath in
  _ ← fail_if (negb ok && (policy =? DenyPolicyHide)) NotExistError;
  _ ← fail_if (negb (IsFileAllowed user virtualTargetPath).1) PermissionDenied;
  fs_call f (perform (ESymlink virtualSourcePath virtualTargetPath)
               (fs_Symlink f (if negb (relativePath =s "") then relativePath else fsSourcePath) fsTargetPath)).

(* source: internal/common/connection.go getPathForSetStatPerms *)
Definition getPathForSetStatPerms (f : fs) (fsPath virtualPath : string) (w : world) : string :=
  match fs_Lstat f fsPath w with
  | Ok fi => if FileInfo.IsDir fi then path_Dir virtualPath else virtualPath
  | Err _ => virtualPath
  end.
(* source: internal/common/connection.go ignoreSetStat *)
Definition ignoreSetStat (f : fs) : bool :=
  (CommonConfig.SetstatMode cfg =? 1) || ((CommonConfig.SetstatMode cfg =? 2) && negb (IsLocalOrSFTPFs f) && negb (IsCryptOsFs f)).

(* source: internal/common/connection.go handleChmod *)
Definition handleChmod (f : fs) (fsPath virtualPath pathForPerms : string) (mode : Z) : C unit :=
  _ ← fail_if (negb (HasPerm user PermChmod pathForPerms)) PermissionDenied;
  if ignoreSetStat f then mret tt
  else real ← getRealFsPath fsPath; fs_call f (perform (EChmod virtualPath pathForPerms) (fs_Chmod f real mode)).
(* source: internal/common/connection.go handleChown *)
Definition handleChown (f : fs) (fsPath virtualPath pathForPerms : string) (uid gid : Z) : C unit :=
  _ ← fail_if (negb (HasPerm user PermChown pathForPerms)) PermissionDenied;
  if ignoreSetStat f then mret tt
  else real ← getRealFsPath fsPath; fs_call f (perform (EChown virtualPath pathForPerms) (fs_Chown f real uid gid)).
(* source: internal/common/connection.go handleChtimes *)
Definition handleChtimes (f : fs) (fsPath virtualPath pathForPerms : string) (atime mtime : Z) : C unit :=
  _ ← fail_if (negb (HasPerm user PermChtimes pathForPerms)) PermissionDenied;
  if CommonConfig.SetstatMode cfg =? 1 then mret tt
  else
    isUploading ← setTimes fsPath atime mtime;
    real ← getRealFsPath fsPath;
    try_catch (perform (EChtimes virtualPath pathForPerms) (fs_Chtimes f real atime mtime isUploading)) mret
      (fun err => _ ← setTimes fsPath 0 0;
         if is_error err ErrVfsUnsupported && (CommonConfig.SetstatMode cfg =? 2) then mret tt else fail (GetFsError f err)).

Definition time_is_zero (t : Z) : bool := t =? 0.

(** [BaseTransfer.Truncate], on the transfer of the path: the initial size, and
    the transfer afterwards.  The update of the transfer quota is started in
    the background; it is returned. *)
(* source: internal/common/transfer.go BaseTransfer.Truncate *)
Definition transfer_Truncate (t : BaseTransfer.t) (fsPath : string) (size : Z) (w : world)
    : (res Z * BaseTransfer.t * option (Z * Z)) * world :=
  if fsPath =s BaseTransfer.fsPath t then
    match BaseTransfer.File t with
    | Some file =>
        let initialSize := BaseTransfer.InitialSize t in
        match file_Truncate file size w with
        | (Ok _, w) =>
            let t' := t <| BaseTransfer.InitialSize := size |> in
            if 0 <? BaseTransfer.MaxWriteSize t then
              ((Ok initialSize,
                t' <| BaseTransfer.MaxWriteSize ::= fun m => add64 m (sub64 initialSize size) |> <| BaseTransfer.BytesReceived := 0 |>,
                if HasSizeLimits (BaseTransfer.transferQuota t)
                then Some (BaseTransfer.BytesReceived t, BaseTransfer.BytesSent t) else None), w)
            else ((Ok initialSize, t', None), w)
        | (Err e, w) => ((Err e, t, None), w)
        end
    | None =>
        if (size =? 0) && (BaseTransfer.BytesSent t =? 0) && negb (IsBufferedLocalOrSFTPFs (BaseTransfer.Fs t))
        then ((Ok 0, t, None), w) else ((Err ErrVfsUnsupported, t, None), w)
    end
  else ((Err errTransferMismatch, t, None), w).

(** the first transfer that does not report a mismatch *)
Fixpoint truncate_first (fsPath : string) (size : Z) (l : list BaseTransfer.t) (w : world)
    : (res Z * list BaseTransfer.t * option (Z * Z)) * world :=
  match l with
  | [] => ((Err errNoTransfer, [], None), w)
  | t :: l' =>
      let '((r, t, q), w) := transfer_Truncate t fsPath size w in
      match r with
      | Err e => if is_error e errTransferMismatch
                 then let '((r, l', q), w) := truncate_first fsPath size l' w in ((r, t :: l', q), w)
                 else ((r, t :: l', q), w)
      | Ok _ => ((r, t :: l', q), w)
      end
  end.
(* source: internal/common/connection.go truncateOpenHandle *)
Definition truncateOpenHandle (fsPath : string) (size : Z) : C Z := fun s =>
  let '((r, l, q), w) := truncate_first fsPath size (Conn.activeTransfers s) (Conn.files s) in
  let s := (s <| Conn.activeTransfers := l |>) <| Conn.files := w |> in
  match q with
  | Some (ulSize, dlSize) =>
      let '(_, s) := ignore (on_quotas (UpdateUserTransferQuota env_now (CommonConfig.TrackQuota cfg) (CommonConfig.DelayedQuotaUpdate cfg)
                       user ulSize dlSize false)) s in (r, s)
  | None => (r, s)
  end.

(* source: internal/common/connection.go truncateFile *)
Definition truncateFile (f : fs) (fsPath virtualPath pathForPerms : string) (size : Z) : C unit :=
  _ ← record (ETruncate virtualPath pathForPerms);
  initialSize ← try_catch (truncateOpenHandle fsPath size) mret
    (fun err => if is_error err errNoTransfer then
                  info ← look (fs_Stat f fsPath);
                  _ ← on_files (fs_Truncate f fsPath size); mret (FileInfo.Size info)
                else fail err);
  if HasTruncateSupport f then updateUserQuotaAfterFileWrite virtualPath 0 (- (sub64 initialSize size)) else mret tt.

Definition has_flag (a : StatAttributes.t) (flag : Z) : bool := negb (Z.land (StatAttributes.Flags a) flag =? 0).

(* source: internal/common/connection.go SetStat *)
Definition SetStat (virtualPath : string) (a : StatAttributes.t) : C unit :=
  let '(ok, policy) := IsFileAllowed user virtualPath in
  _ ← fail_if (negb ok) (getErrorForDeniedFile protocol policy);
  '(f, fsPath) ← GetFsAndResolvedPath virtualPath;
  pathForPerms ← gets (fun s => getPathForSetStatPerms f fsPath virtualPath (Conn.files s));
  _ ← (if has_flag a 4 then handleChtimes f fsPath virtualPath pathForPerms (StatAttributes.Atime a) (StatAttributes.Mtime a) else mret tt);
  _ ← (if has_flag a 2 then handleChmod f fsPath virtualPath pathForPerms (StatAttributes.Mode a) else mret tt);
  _ ← (if has_flag a 1 then handleChown f fsPath virtualPath pathForPerms (StatAttributes.UID a) (StatAttributes.GID a) else mret tt);
  if has_flag a 8 then
    _ ← fail_if (negb (HasPerm user PermOverwrite pathForPerms)) PermissionDenied;
    fs_call f (truncateFile f fsPath virtualPath pathForPerms (StatAttributes.Size a))
  else mret tt.
End operations.
