(* ===== verification/ConnectionCopy.v ===== *)
(** Connections: server side copies (internal/common/connection.go Copy and
    the reader and writer of internal/common/eventmanager.go it uses). *)
From S2P Require Import Prelude GoPath Util Net FsConfig FsValidate Entities Links Tables MemoryCore UserPerms GroupMerge MemoryQueries ValidateUser ValidateObjects Quota ConnData Connection ConnectionOps.
Open Scope Z_scope.

Section copies.
Context {St : Storage} {Hk : Hooks} {Cfg : Settings} {E : Env}.

(* source: internal/common/eventmanager.go getFileReader *)
Definition getFileReader (virtualPath : string) : C reader :=
  _ ← fail_if (negb (HasPerm user PermDownload (path_Dir virtualPath))) PermissionDenied;
  '(f, fsPath) ← GetFsAndResolvedPath virtualPath;
  _ ← record (EOpen virtualPath);
  fs_call f (look (fs_Open f fsPath 0)).

(* source: internal/common/eventmanager.go checkWriterPermsAndQuota *)
Definition checkWriterPermsAndQuota (virtualPath : string) (numFiles expectedSize truncatedSize : Z) (q : Quotas.t) : res unit :=
  _ ← refuse (negb (HasPerm user (if numFiles =? 0 then PermOverwrite else PermUpload) (path_Dir virtualPath))) PermissionDenied;
  let '(result, _) := HasSpace (0 <? numFiles) false virtualPath q in
  _ ← refuse (negb (QuotaCheckResult.HasSpace result)) QuotaExceeded;
  let sizeDiff := sub64 expectedSize truncatedSize in
  let remainingSize := GetRemainingSize result in
  refuse (negb (expectedSize =? -1) && (0 <? sizeDiff) && (0 <? remainingSize) && (remainingSize <? sizeDiff)) QuotaExceeded.

(** The writer, the number of new files and the size that is truncated. *)
(* source: internal/common/eventmanager.go getFileWriter *)
Definition getFileWriter (virtualPath : string) (expectedSize : Z) : C (writer * Z * Z) :=
  '(f, fsPath) ← GetFsAndResolvedPath virtualPath;
  '(numFiles, overwrite, fileSize) ← @try_catch Conn.t _ (Z * bool * Z) (look (fs_Lstat f fsPath))
    (fun info => if FileInfo.IsDir info then fail (PlainError "cannot write to a directory")
                 else mret (0, FileInfo.IsRegular info, FileInfo.Size info))
    (fun err => if fs_IsNotExist f err then mret (1, false, 0) else fail (GetFsError f err));
  let truncatedSize := if (overwrite : bool) then fileSize else 0 in
  _ ← (fun s => (checkWriterPermsAndQuota virtualPath numFiles expectedSize truncatedSize (Conn.quotas s), s));
  w ← fs_call f (perform (ECreate virtualPath (numFiles =? 1)) (fs_Create f fsPath 0 (GetCreateChecks virtualPath (numFiles =? 1) false)));
  _ ← SetPathPermissions f fsPath virtualPath;
  if overwrite && (HasTruncateSupport f || IsCryptOsFs f)
  then _ ← updateUserQuotaAfterFileWrite virtualPath numFiles (- fileSize); mret (w, numFiles, 0)
  else mret (w, numFiles, truncatedSize).

(** [closeWriterAndUpdateQuota] after a copy; [errTransfer] is that of the copy. *)
(* source: internal/common/eventmanager.go closeWriterAndUpdateQuota *)
Definition closeWriterAndUpdateQuota (w : writer) (virtualSourcePath virtualTargetPath : string) (numFiles truncatedSize : Z)
    (errTransfer : option error) (operation : string) : C unit :=
  errWrite ← (fun s => let '(r, s) := on_files (writer_Close w) s in (Ok (match r with Ok _ => None | Err e => Some e end), s));
  let targetPath := if virtualTargetPath =s "" then virtualSourcePath else virtualTargetPath in
  dst ← (if virtualTargetPath =s "" then mret (Some "")
         else try_catch (GetFsAndResolvedPath virtualTargetPath)
                (fun '(fsDst, fsDstPath) =>
                   _ ← (if errTransfer is Some _ then ignore (perform (ECleanup virtualTargetPath) (fs_Remove fsDst fsDstPath false)) else mret tt);
                   mret (Some fsDstPath))
                (fun _ => mret None));
  _ ← try_catch (doStatInternal targetPath 0 false false)
        (fun info =>
           _ ← updateUserQuotaAfterFileWrite targetPath numFiles (sub64 (FileInfo.Size info) truncatedSize);
           src ← (if virtualSourcePath =s "" then mret (Some "")
                  else try_catch (GetFsAndResolvedPath virtualSourcePath) (fun '(_, p) => mret (Some p)) (fun _ => mret None));
           match src, dst with
           | Some fsSrcPath, Some fsDstPath =>
               ignore (notify_action operation fsSrcPath virtualSourcePath fsDstPath virtualTargetPath (FileInfo.Size info)
                         (if errTransfer is Some e then Some e else errWrite))
           | _, _ => mret tt
           end)
        (fun _ => mret tt);
  match errTransfer, errWrite with
  | Some e, _ | None, Some e => fail e
  | None, None => mret tt
  end.

(* source: internal/common/connection.go checkCopy *)
Definition checkCopy (srcInfo : FileInfo.t) (dstInfo : option FileInfo.t) (virtualSource virtualTarget : string) : C unit :=
  '(_, fsSourcePath) ← GetFsAndResolvedPath virtualSource;
  '(_, fsTargetPath) ← GetFsAndResolvedPath virtualTarget;
  let dst_is_dir := match dstInfo with Some i => FileInfo.IsDir i | None => false end in
  let dst_is_file := match dstInfo with Some i => negb (FileInfo.IsDir i) | None => false end in
  if FileInfo.IsDir srcInfo then
    _ ← fail_if dst_is_file OpUnsupported;
    _ ← fail_if (HasOverlap virtualSource virtualTarget "/") OpUnsupported;
    fail_if (HasOverlap fsSourcePath fsTargetPath GetPathSeparator) OpUnsupported
  else
    _ ← fail_if dst_is_dir OpUnsupported;
    fail_if (fsSourcePath =s fsTargetPath) OpUnsupported.

(* source: internal/common/connection.go copyFile *)
Definition copyFile (virtualSourcePath virtualTargetPath : string) (srcSize : Z) : C unit :=
  _ ← fail_if (negb (IsFileAllowed user virtualTargetPath).1) PermissionDenied;
  let by_streaming :=
    r ← getFileReader virtualSourcePath;
    '(w, numFiles, truncatedSize) ← getFileWriter virtualTargetPath srcSize;
    err ← (fun s => let '(r, s) := on_files (io_Copy r w) s in (Ok (match r with Ok _ => None | Err e => Some e end), s));
    closeWriterAndUpdateQuota w virtualSourcePath virtualTargetPath numFiles truncatedSize err "copy" in
  if IsSameResource virtualSourcePath virtualTargetPath then
    '(f, fsTargetPath) ← GetFsAndResolvedPath virtualTargetPath;
    if fs_is_copier f then
      '(_, fsSourcePath) ← GetFsAndResolvedPath virtualSourcePath;
      perform (ECopyFile virtualSourcePath virtualTargetPath) (fs_CopyFile f fsSourcePath fsTargetPath srcSize)
    else by_streaming
  else by_streaming.

(** an entry that may not exist *)
Definition stat_if_exists (virtualPath : string) : C (option FileInfo.t) :=
  try_catch (DoStat virtualPath 1 false) (fun info => mret (Some info))
    (fun err => if is_not_exist err then mret None else fail err).

(* source: internal/common/connection.go doRecursiveCopy *)
Fixpoint doRecursiveCopy (fuel : nat) (virtualSourcePath virtualTargetPath : string) (srcInfo : FileInfo.t) (createTargetDir : bool) : C unit :=
  match fuel with
  | O => fail StackOverflow
  | S fuel =>
      if FileInfo.IsDir srcInfo then
        _ ← (if createTargetDir then CreateDir virtualTargetPath false else mret tt);
        entries ← ListDir virtualSourcePath;
        foldr (fun info (k : C unit) =>
          let sourcePath := path_Join2 virtualSourcePath (FileInfo.Name info) in
          let targetPath := path_Join2 virtualTargetPath (FileInfo.Name info) in
          targetInfo ← stat_if_exists targetPath;
          if FileInfo.IsDir info && match targetInfo with Some i => FileInfo.IsDir i | None => false end then k
          else
            _ ← checkCopy info targetInfo sourcePath targetPath;
            @try_catch Conn.t _ unit (doRecursiveCopy fuel sourcePath targetPath info true) (fun _ => k)
              (fun err => if is_not_exist err then k else fail err)) (mret tt) entries
      else if negb (FileInfo.IsRegular srcInfo) then mret tt
      else copyFile virtualSourcePath virtualTargetPath (FileInfo.Size srcInfo)
  end.

(* source: internal/common/connection.go Copy *)
Definition Copy (fuel : nat) (virtualSourcePath virtualTargetPath : string) : C unit :=
  let copyFromSource := has_suffix virtualSourcePath "/" in
  let copyInTarget := has_suffix virtualTargetPath "/" in
  let virtualSourcePath := path_Clean virtualSourcePath in
  let virtualTargetPath := path_Clean virtualTargetPath in
  _ ← fail_if (virtualSourcePath =s virtualTargetPath) OpUnsupported;
  srcInfo ← DoStat virtualSourcePath 1 false;
  _ ← fail_if (FileInfo.IsSymlink srcInfo) OpUnsupported;
  dstInfo ← stat_if_exists virtualTargetPath;
  let copyInTarget := match dstInfo with
                      | Some i => if negb copyFromSource then FileInfo.IsDir i else copyInTarget
                      | None => copyInTarget
                      end in
  let destPath := if copyInTarget then path_Join2 virtualTargetPath (path_Base virtualSourcePath) else virtualTargetPath in
  dstInfo ← (if copyInTarget then stat_if_exists destPath else mret dstInfo);
  let createTargetDir := negb match dstInfo with Some i => FileInfo.IsDir i | None => false end in
  _ ← checkCopy srcInfo dstInfo virtualSourcePath destPath;
  _ ← CheckParentDirs (path_Dir destPath);
  doRecursiveCopy fuel virtualSourcePath destPath srcInfo createTargetDir.
End copies.
