(* ===== verification/Effects.v ===== *)
(** The effects of a computation: a program logic for what the operations of a
    connection ask the storages to do.

    [emits P m Q]: every effect [m] records satisfies [P], whether it succeeds
    or fails, and its result satisfies [Q].  One lemma for each construct of
    the monad; the hint database [emits] applies them. *)
From S2P Require Import Prelude GoPath Util FsConfig FsValidate Entities MemoryCore UserPerms ValidateUser Quota ConnData Connection ConnectionOps.
Open Scope Z_scope.

Create HintDb emits.

Section emits.
Context {St : Storage}.
Implicit Types (P : effect → Prop) (s : Conn.t).

Definition emits {A} P (m : C A) (Q : A → Prop) : Prop := ∀ s,
  (∃ l, Conn.effects (m s).2 = Conn.effects s ++ l ∧ Forall P l) ∧
  match (m s).1 with Ok a => Q a | Err _ => True end.

Definition anything {A} (_ : A) : Prop := True.

Lemma emits_weaken {A} P (m : C A) (Q Q' : A → Prop) : emits P m Q → (∀ a, Q a → Q' a) → emits P m Q'.
Proof. intros H HQ s. destruct (H s) as [He Hr]. split; [done|]. destruct (m s).1; auto. Qed.

Lemma emits_anything {A} P (m : C A) (Q : A → Prop) : emits P m Q → emits P m anything.
Proof. intros H. by apply (emits_weaken _ _ _ _ H). Qed.

Lemma emits_both {A} P P' (m : C A) (Q : A → Prop) : emits P m Q → emits P' m anything → emits (fun e => P e ∧ P' e) m Q.
Proof.
  intros H H' s. destruct (H s) as [(l & Hl & HP) Hr], (H' s) as [(l' & Hl' & HP') _]. split; [|done]. exists l. split; [done|].
  rewrite Hl in Hl'. apply (inj (app _)) in Hl' as ->. by apply Forall_and.
Qed.

Lemma emits_bind {A B} P (m : C A) (k : A → C B) (Q : A → Prop) (R : B → Prop) :
  emits P m Q → (∀ a, Q a → emits P (k a) R) → emits P (m ≫= k) R.
Proof.
  intros Hm Hk s. unfold mbind, M_bind. destruct (Hm s) as [(l & Hl & HP) Hr]. destruct (m s) as [[a|e] s1]; cbn in *.
  - destruct (Hk a Hr s1) as [(l' & Hl' & HP') Hr']. split; [|done]. exists (l ++ l'). split; [by rewrite Hl', Hl, (assoc_L (++))|].
    by apply Forall_app.
  - eauto.
Qed.

Lemma emits_try {A B} P (m : C A) (k1 : A → C B) (k2 : error → C B) (Q : A → Prop) (R : B → Prop) :
  emits P m Q → (∀ a, Q a → emits P (k1 a) R) → (∀ e, emits P (k2 e) R) → emits P (try_catch m k1 k2) R.
Proof.
  intros Hm H1 H2 s. unfold try_catch. destruct (Hm s) as [(l & Hl & HP) Hr].
  assert (∀ (k : C B) s1, Conn.effects s1 = Conn.effects s ++ l → emits P k R →
    (∃ l, Conn.effects (k s1).2 = Conn.effects s ++ l ∧ Forall P l) ∧ match (k s1).1 with Ok a => R a | Err _ => True end) as Hgo.
  { intros k s1 Hs1 Hk. destruct (Hk s1) as [(l' & Hl' & HP') Hr']. split; [|done]. exists (l ++ l').
    split; [by rewrite Hl', Hs1, (assoc_L (++))|]. by apply Forall_app. }
  destruct (m s) as [[a|e] s1]; cbn in *; apply Hgo; auto.
Qed.

Lemma emits_ret {A} P (a : A) (Q : A → Prop) : Q a → emits P (mret a) Q.
Proof. intros H s. split; [|done]. exists []. by rewrite app_nil_r. Qed.
Lemma emits_fail {A} P e (Q : A → Prop) : emits P (fail e) Q.
Proof. intros s. split; [|done]. exists []. by rewrite app_nil_r. Qed.
Lemma emits_lift {A} P (r : res A) : emits P (lift r) (fun a => r = Ok a).
Proof. intros s. split; [exists []; by rewrite app_nil_r|]. cbn. by destruct r. Qed.
Lemma emits_record P e : P e → emits P (record e) anything.
Proof. intros H s. split; [|done]. exists [e]. split; [done|]. by constructor. Qed.

(** A computation that records nothing. *)
Lemma emits_silent {A} P (m : C A) : (∀ s, Conn.effects (m s).2 = Conn.effects s) → emits P m anything.
Proof. intros H s. split; [|by destruct (m s).1]. exists []. by rewrite H, app_nil_r. Qed.

Lemma emits_look {A} P (f : world → res A) : emits P (look f) anything.
Proof. by apply emits_silent. Qed.
Lemma emits_gets {A} P (f : Conn.t → A) : emits P (gets f) anything.
Proof. by apply emits_silent. Qed.
Lemma emits_on_files {A} P (m : M world A) : emits P (on_files m) anything.
Proof. apply emits_silent. intros s. unfold on_files. by destruct (m _). Qed.
Lemma emits_on_quotas {A} P (m : M Quotas.t A) : emits P (on_quotas m) anything.
Proof. apply emits_silent. intros s. unfold on_quotas. by destruct (m _). Qed.
Lemma emits_hook {A} P (m : M (world * Quotas.t) A) : emits P (hook m) anything.
Proof. apply emits_silent. intros s. unfold hook. by destruct (m _) as [r [w q]]. Qed.
Lemma emits_ignore {A} P (m : C A) (Q : A → Prop) : emits P m Q → emits P (ignore m) anything.
Proof. intros H s. by destruct (H s) as [? _]. Qed.
Lemma emits_perform {A} P e (m : M world A) : P e → emits P (perform e m) anything.
Proof. intros H. eapply emits_bind; [by apply emits_record|intros _ _; apply emits_on_files]. Qed.
Lemma emits_fail_if P bad e : emits P (fail_if bad e) (fun _ => bad = false).
Proof. intros s. split; [exists []; by rewrite app_nil_r|]. by destruct bad. Qed.

(** A computation that fails or whose result does not matter. *)
Lemma emits_lift_anything {A} P (r : res A) : emits P (lift r) anything.
Proof. eapply emits_anything, emits_lift. Qed.
Lemma emits_fail_if_anything P bad e : emits P (fail_if bad e) anything.
Proof. eapply emits_anything, emits_fail_if. Qed.

Lemma emits_foldr {A} P (f : A → C unit → C unit) (l : list A) :
  (∀ x k, x ∈ l → emits P k anything → emits P (f x k) anything) → emits P (foldr f (mret tt) l) anything.
Proof.
  intros Hf. induction l as [|x l IH]; [by apply emits_ret|]. cbn. apply Hf; [by left|]. apply IH. intros y k Hy. apply Hf. by right.
Qed.
End emits.

#[export] Hint Resolve emits_ret emits_fail emits_look emits_gets emits_on_files emits_on_quotas emits_hook emits_lift_anything emits_fail_if_anything : emits.

(** [emits_auto] goes through a computation whose intermediate results do not
    matter; it stops at recorded effects and at calls for which no lemma is
    known.  [emits_know] goes through one step and keeps what a lemma says of
    its result. *)
Ltac emits_step :=
  lazymatch goal with
  | |- emits _ (_ ≫= _) _ => apply (emits_bind _ _ _ anything); [|intros ? _]
  | |- emits _ (try_catch _ _ _) _ => apply (emits_try _ _ _ _ anything); [|intros ? _|intros ?]
  | |- emits _ (ignore _) _ => apply (emits_ignore _ _ anything)
  | |- emits _ (match ?x with _ => _ end) _ => destruct x eqn:?
  | |- emits _ (mret _) _ => by apply emits_ret
  | |- emits _ (fail _) _ => apply emits_fail
  | |- emits _ _ _ => solve [eauto with emits nocore]
  end.
Ltac emits_auto := repeat emits_step; try done.
Tactic Notation "emits_know" uconstr(lem) simple_intropattern(H) := eapply emits_bind; [eapply lem|intros ? H].
