(* ===== verification/ConnectionProps.v ===== *)
(** What the operations of a connection guarantee: everything they ask a
    storage to do is permitted to the user ([operations_are_authorized]), apart
    from the copies a storage makes by itself ([copies_are_authorized],
    [copy_without_permissions]). *)
From S2P Require Import Prelude GoPath Util Net FsConfig FsValidate Entities Links Tables MemoryCore UserPerms MemoryQueries ValidateUser ValidateObjects Quota ConnData Connection ConnectionOps ConnectionCopy Effects.
Open Scope Z_scope.

Section props.
Context {St : Storage} {Hk : Hooks} {Cfg : Settings} {E : Env}.

(** * What a user may do *)

Definition allowed (p : string) : Prop := (IsFileAllowed user p).1 = true.
Definition may (perms : list string) (dir : string) : Prop := HasAnyPerm user perms dir = true.

(** the rights to move a file or a directory *)
Definition may_rename (source target : string) (isDir : bool) : Prop :=
  let perms := if isDir then [PermRenameDirs; PermRename] else [PermRenameFiles; PermRename] in
  (HasPermsRenameAll user (path_Dir source) = true ∧ HasPermsRenameAll user (path_Dir target) = true) ∨
  (may perms (path_Dir source) ∧ may perms (path_Dir target)).

(** a right by which something comes to be at a path *)
Definition may_put (v : string) : Prop :=
  HasPerm user PermCreateDirs (path_Dir v) = true ∨ HasPerm user PermUpload (path_Dir v) = true ∨
  HasPerm user PermOverwrite (path_Dir v) = true ∨ ∃ source isDir, may_rename source v isDir.
Definition may_mkdir (v : string) : Prop := HasPerm user PermCreateDirs (path_Dir v) = true ∧ IsVirtualFolder user v = false.

(** What a user may ask for: the permission on the right directory, a path the
    file patterns allow, and never the root or a virtual folder where these are
    excluded. *)
Definition authorized (e : effect) : Prop :=
  match e with
  | EMkdir v => may_mkdir v ∧ allowed v
  | EMkdirUnchecked _ | EKeepDir _ => False
  | EOwn v => may_put v
  | ERemove v false => may [PermDeleteFiles; PermDelete] (path_Dir v) ∧ allowed v
  | ERemove v true =>
      v ≠ "/" ∧ IsVirtualFolder user v = false ∧ HasVirtualFoldersInside user v = false ∧
      may [PermDeleteDirs; PermDelete] (path_Dir v) ∧ allowed v
  | ERename s d isDir replaces =>
      (replaces = true → HasPerm user PermOverwrite (path_Dir d) = true) ∧ s ≠ "/" ∧ d ≠ "/" ∧ IsVirtualFolder user s = false ∧ IsVirtualFolder user d = false ∧ IsSameResource s d = true ∧
      allowed s ∧ allowed d ∧ may_rename s d isDir ∧
      (isDir = true → HasVirtualFoldersInside user s = false ∧ HasVirtualFoldersInside user d = false ∧ HasOverlap s d "/" = false)
  | ESymlink s d =>
      HasPerm user PermCreateSymlinks (path_Dir d) = true ∧ isCrossFoldersRequest s d = false ∧ allowed d
  | EChmod v p => HasPerm user PermChmod p = true ∧ allowed v ∧ (p = v ∨ p = path_Dir v)
  | EChown v p => HasPerm user PermChown p = true ∧ allowed v ∧ (p = v ∨ p = path_Dir v)
  | EChtimes v p => HasPerm user PermChtimes p = true ∧ allowed v ∧ (p = v ∨ p = path_Dir v)
  | ETruncate v p => HasPerm user PermOverwrite p = true ∧ allowed v ∧ (p = v ∨ p = path_Dir v)
  | EDownload v => HasPerm user PermDownload (path_Dir v) = true ∧ allowed v
  | EStage v => HasPerm user PermOverwrite (path_Dir v) = true ∧ allowed v
  | EOpen v => HasPerm user PermDownload (path_Dir v) = true ∧ allowed v
  | ECreate v isNew => HasPerm user (if isNew then PermUpload else PermOverwrite) (path_Dir v) = true ∧ allowed v
  | ECommit v | ECleanup v => (HasPerm user PermUpload (path_Dir v) = true ∨ HasPerm user PermOverwrite (path_Dir v) = true) ∧ allowed v
  | ECopyFile s d =>
      HasPerm user PermDownload (path_Dir s) = true ∧
      (HasPerm user PermUpload (path_Dir d) = true ∨ HasPerm user PermOverwrite (path_Dir d) = true) ∧ allowed d
  end.
(** what a copy asks without the file patterns: the directories on the way and
    the files that are read *)
Definition without_patterns (e : effect) : Prop :=
  match e with
  | EMkdirUnchecked v => may_mkdir v
  | EOpen v => HasPerm user PermDownload (path_Dir v) = true
  | _ => False
  end.
Definition mostly_authorized (e : effect) : Prop := authorized e ∨ without_patterns e.
(** what holds of a copy made by a storage *)
Definition server_side (e : effect) : Prop :=
  match e with ECopyFile s d => IsSameResource s d = true ∧ allowed d | _ => False end.

(** * The operations *)

Lemma GetFilesystemForPath_emits P p : emits P (GetFilesystemForPath p) anything.
Proof.
  apply emits_silent. intros s. unfold GetFilesystemForPath.
  destruct (GetVirtualFolderForPath user p); unfold cached_fs; (destruct (Conn.fsCache s !! _); [done|]);
    unfold mbind, M_bind, getRootFs, folder_fs; cbn; by repeat case_match.
Qed.
#[local] Hint Resolve GetFilesystemForPath_emits : emits.

Lemma GetFsAndResolvedPath_emits P p : emits P (GetFsAndResolvedPath p) anything.
Proof. unfold GetFsAndResolvedPath. emits_auto. Qed.
#[local] Hint Resolve GetFsAndResolvedPath_emits : emits.

Lemma fs_call_emits {A} P f (m : C A) Q : emits P m Q → emits P (fs_call f m) Q.
Proof.
  intros H. unfold fs_call. eapply emits_try; [exact H|intros a Ha; by apply emits_ret|intros e; apply emits_fail].
Qed.
Lemma fs_call_look_emits {A} P f (g : world → res A) : emits P (fs_call f (look g)) anything.
Proof. apply fs_call_emits, emits_look. Qed.
Lemma fs_call_perform_emits {A} P f e (m : M world A) : P e → emits P (fs_call f (perform e m)) anything.
Proof. intros H. by apply fs_call_emits, emits_perform. Qed.
#[local] Hint Resolve fs_call_look_emits : emits.

Lemma notify_action_emits P a b c d e f g : emits P (notify_action a b c d e f g) anything.
Proof. apply emits_hook. Qed.
Lemma update_user_quota_emits P a b : emits P (update_user_quota a b) anything.
Proof. eapply emits_ignore, emits_on_quotas. Qed.
Lemma update_folder_and_user_emits P v a b : emits P (update_folder_and_user v a b) anything.
Proof.
  unfold update_folder_and_user. eapply emits_bind; [eapply emits_ignore, emits_on_quotas|intros _ _].
  case_match; [apply update_user_quota_emits|by apply emits_ret].
Qed.
Lemma updateUserQuotaAfterFileWrite_emits P a b c : emits P (updateUserQuotaAfterFileWrite a b c) anything.
Proof.
  unfold updateUserQuotaAfterFileWrite. case_match; [apply update_folder_and_user_emits|apply update_user_quota_emits].
Qed.
Lemma getRealFsPath_emits P p : emits P (getRealFsPath p) anything.
Proof. apply emits_gets. Qed.
Lemma setTimes_emits P a b c : emits P (setTimes a b c) anything.
Proof. apply emits_silent. intros s. unfold setTimes. by destruct (update_first _ _ _). Qed.
Lemma SetPathPermissions_emits (P : effect → Prop) f p v : P (EOwn v) → emits P (SetPathPermissions f p v) anything.
Proof. intros H. unfold SetPathPermissions. case_match; [by apply emits_ret|]. by eapply emits_ignore, emits_perform. Qed.
#[local] Hint Resolve notify_action_emits update_user_quota_emits update_folder_and_user_emits updateUserQuotaAfterFileWrite_emits
  getRealFsPath_emits setTimes_emits : emits.

Lemma doStatInternal_emits P a b c d : emits P (doStatInternal a b c d) anything.
Proof. unfold doStatInternal. emits_auto. Qed.
Lemma DoStat_emits P a b c : emits P (DoStat a b c) anything.
Proof. apply doStatInternal_emits. Qed.
Lemma ListDir_emits P a : emits P (ListDir a) anything.
Proof. unfold ListDir. emits_auto. Qed.
#[local] Hint Resolve doStatInternal_emits DoStat_emits ListDir_emits : emits.

Lemma emits_or {A} (P Q : effect → Prop) (m : C A) R : emits P m R → (∀ e, P e → Q e) → emits Q m R.
Proof.
  intros H HPQ s. destruct (H s) as [(l & Hl & HP) Hr]. split; [|done]. exists l. split; [done|]. by apply (Forall_impl P).
Qed.
Lemma emits_mostly {A} (m : C A) R : emits authorized m R → emits mostly_authorized m R.
Proof. intros H. eapply emits_or; [exact H|by left]. Qed.

(** with the patterns asked, or not *)
Lemma CreateDir_asks (P : effect → Prop) v b : (may_mkdir v → (b = true → allowed v) → P ((if b then EMkdir else EMkdirUnchecked) v) ∧ P (EOwn v)) →
  emits P (CreateDir v b) anything.
Proof.
  intros HP. unfold CreateDir. emits_know emits_fail_if Hp%negb_false_iff. emits_know emits_fail_if Ha. emits_know emits_fail_if Hv.
  destruct HP as [H1 H2]; [by split|intros ->; by apply negb_false_iff in Ha|].
  emits_step; [emits_auto|]. emits_step. emits_step; [by apply fs_call_perform_emits|]. emits_step; [by apply SetPathPermissions_emits|emits_auto].
Qed.
Lemma CreateDir_emits v : emits authorized (CreateDir v true) anything.
Proof. apply CreateDir_asks. intros Hm Ha. split; [by split; [|apply Ha]|by left; apply Hm]. Qed.
Lemma CreateDir_unchecked_emits v : emits mostly_authorized (CreateDir v false) anything.
Proof. apply CreateDir_asks. intros Hm _. split; [by right|left; by left; apply Hm]. Qed.
#[local] Hint Resolve CreateDir_emits CreateDir_unchecked_emits : emits.

Lemma createDirIfMissing_emits a : emits mostly_authorized (createDirIfMissing a) anything.
Proof. unfold createDirIfMissing. emits_auto. Qed.
#[local] Hint Resolve createDirIfMissing_emits : emits.

Lemma CheckParentDirs_emits a : emits mostly_authorized (CheckParentDirs a) anything.
Proof.
  unfold CheckParentDirs. emits_step; [emits_auto|]. emits_step; [by apply emits_ret|].
  emits_step; [emits_auto..|]. emits_step; [apply emits_fail|].
  apply emits_foldr. intros x k _ Hrest. emits_auto.
Qed.
#[local] Hint Resolve CheckParentDirs_emits : emits.

Lemma IsRemoveFileAllowed_Ok v u : IsRemoveFileAllowed v = Ok u → authorized (ERemove v false).
Proof.
  unfold IsRemoveFileAllowed. destruct (HasAnyPerm _ _ _) eqn:Hp; [|done]. cbn [negb].
  destruct (IsFileAllowed user v) as [ok policy] eqn:Ha. destruct ok; [|done]. intros _. split; [done|]. unfold allowed. by rewrite Ha.
Qed.
Lemma IsRemoveDirAllowed_Ok f p v u : IsRemoveDirAllowed f p v = Ok u → authorized (ERemove v true).
Proof.
  unfold IsRemoveDirAllowed. destruct (String.eqb_spec v "/") as [|Hne]; [done|]. cbn [orb].
  destruct (_ =s "/"); [done|]. destruct (IsVirtualFolder _ _) eqn:Hv; [done|]. destruct (HasVirtualFoldersInside _ _) eqn:Hi; [done|].
  destruct (IsMappedPath _ _); [done|]. destruct (HasAnyPerm _ _ _) eqn:Hp; [|done]. cbn [negb].
  destruct (IsFileAllowed user v) as [ok policy] eqn:Ha. destruct ok; [|done]. intros _. split_and!; try done. unfold allowed. by rewrite Ha.
Qed.

Lemma RemoveFile_emits f p v i : emits authorized (RemoveFile f p v i) anything.
Proof.
  unfold RemoveFile. emits_know emits_lift Hu. apply IsRemoveFileAllowed_Ok in Hu.
  emits_step; [emits_auto|]. emits_step; [|emits_auto]. emits_step; [by apply emits_perform|emits_auto..].
Qed.
Lemma RemoveDir_emits v : emits authorized (RemoveDir v) anything.
Proof.
  unfold RemoveDir. emits_step; [emits_auto|]. emits_step.
  emits_know emits_lift Hu. apply IsRemoveDirAllowed_Ok in Hu. emits_step; [emits_auto| |emits_auto].
  emits_step; [emits_auto|]. emits_step; [by apply fs_call_perform_emits|emits_auto].
Qed.
#[local] Hint Resolve RemoveFile_emits RemoveDir_emits : emits.

Lemma doRecursiveRemove_emits fuel : ∀ f p v i, emits authorized (doRecursiveRemove fuel f p v i) anything.
Proof.
  induction fuel as [|fuel IH]; intros f p v i; cbn [doRecursiveRemove]; [apply emits_fail|]. emits_step; [|emits_auto].
  emits_step; [emits_auto|]. emits_step; [|emits_auto].
  apply emits_foldr. intros x k _ Hrest. emits_auto.
Qed.
#[local] Hint Resolve doRecursiveRemove_emits : emits.
Lemma RemoveAll_emits fuel v : emits authorized (RemoveAll fuel v) anything.
Proof. unfold RemoveAll. emits_auto. Qed.

(** ** Renaming *)

Lemma isRenamePermitted_true fsSrc fsDst p q s d i : isRenamePermitted fsSrc fsDst p q s d (Some i) = true →
  s ≠ "/" ∧ d ≠ "/" ∧ IsVirtualFolder user s = false ∧ IsVirtualFolder user d = false ∧ IsSameResource s d = true ∧
  allowed s ∧ allowed d ∧ may_rename s d (FileInfo.IsDir i).
Proof.
  unfold isRenamePermitted. destruct (IsSameResource s d); [|done]. cbn [negb].
  destruct (_ && _); [done|]. destruct (_ && _); [done|]. destruct (String.eqb_spec s "/"); [done|].
  destruct (String.eqb_spec d "/"); [done|]. cbn [orb]. destruct (_ =s "/"); [done|].
  destruct (IsVirtualFolder user s), (IsVirtualFolder user d); try done. cbn [orb]. unfold allowed.
  destruct ((IsFileAllowed user s).1), ((IsFileAllowed user d).1); try done. cbn [negb orb].
  intros Hp. split_and!; try done. unfold hasRenamePerms in Hp. unfold may_rename, may.
  destruct (HasPermsRenameAll user (path_Dir s)) eqn:H1, (HasPermsRenameAll user (path_Dir d)) eqn:H2;
    [by left|right; by apply andb_prop in Hp..].
Qed.

Lemma checkRecursive_emits P a b c d e f i : emits P (checkRecursiveRenameDirPermissions a b c d e f i) anything.
Proof. unfold checkRecursiveRenameDirPermissions. emits_auto. Qed.
#[local] Hint Resolve checkRecursive_emits : emits.
Lemma checkFolderRename_emits P a b c d s t i : emits P (checkFolderRename a b c d s t i)
  (fun _ => HasVirtualFoldersInside user s = false ∧ HasVirtualFoldersInside user t = false ∧ HasOverlap s t "/" = false).
Proof.
  unfold checkFolderRename. emits_know emits_fail_if H1. emits_step; [emits_auto|].
  emits_know emits_fail_if H2. emits_know emits_fail_if H3. eapply emits_weaken; [apply checkRecursive_emits|done].
Qed.
Lemma check_rename_target_emits P f p d b : emits P (check_rename_target f p d b)
  (fun r => r.2 = true → HasPerm user PermOverwrite (path_Dir d) = true).
Proof.
  unfold check_rename_target. eapply emits_try; [apply emits_look|intros i _|intros e; by apply emits_ret].
  emits_step; [emits_auto|]. emits_know emits_fail_if Hp%negb_false_iff. by apply emits_ret.
Qed.
Lemma quota_after_rename_emits P a b c d e f g : emits P (updateQuotaAfterRename a b c d e f g) anything.
Proof.
  unfold updateQuotaAfterRename, updateQuotaMoveBetweenVFolders, updateQuotaMoveFromVFolder, updateQuotaMoveToVFolder. emits_auto.
Qed.
#[local] Hint Resolve quota_after_rename_emits : emits.

(** The parents of the target are created without the patterns, where they are
    created at all. *)
Lemma renameInternal_asks (P : effect → Prop) s d b : (∀ e, authorized e → P e) →
  (b = true → emits P (CheckParentDirs (path_Dir d)) anything) → emits P (renameInternal s d b) anything.
Proof.
  intros HP Hparents. unfold renameInternal. do 2 (emits_step; [emits_auto|]). emits_step. emits_step; [emits_auto|]. emits_step.
  apply (emits_bind _ _ _ anything); [emits_auto|intros srcInfo _]. emits_know emits_fail_if Hp. apply negb_false_iff, isRenamePermitted_true in Hp.
  apply (emits_bind _ _ _ (fun r => (r.1.1 = true → b = true) ∧ (r.2 = true → HasPerm user PermOverwrite (path_Dir d) = true))).
  { intros st. destruct (check_rename_target_emits P f0 s1 d b st) as [He Hr]. split; [done|].
    revert Hr. unfold check_rename_target, try_catch, look, fail_if, mbind, M_bind, lift, refuse. repeat case_match; simplify_eq/=; naive_solver. }
  intros [[check initialSize] replaces] [Hcheck Hrep]. cbn [fst snd] in Hcheck, Hrep.
  apply (emits_bind _ _ _ (fun _ => FileInfo.IsDir srcInfo = true → HasVirtualFoldersInside user s = false ∧
    HasVirtualFoldersInside user d = false ∧ HasOverlap s d "/" = false)).
  { case_match; [|by apply emits_ret]. eapply emits_weaken; [apply checkFolderRename_emits|naive_solver]. }
  intros _ Hdir. do 2 (emits_step; [emits_auto|]).
  emits_step; [destruct check; [eapply emits_ignore; by apply Hparents, Hcheck|by apply emits_ret]|].
  emits_step.
  - emits_step; [apply emits_perform, HP; naive_solver|emits_auto..].
  - emits_step. emits_step; [|emits_auto]. apply SetPathPermissions_emits, HP. do 3 right. exists s, (FileInfo.IsDir srcInfo). apply Hp.
Qed.
Lemma renameInternal_emits s d b : emits mostly_authorized (renameInternal s d b) anything.
Proof. apply renameInternal_asks; [by left|intros _; emits_auto]. Qed.
Lemma Rename_emits s d : emits authorized (Rename s d) anything.
Proof. by apply renameInternal_asks. Qed.
#[local] Hint Resolve Rename_emits : emits.

(** ** Links and attributes *)

Lemma CreateSymlink_emits s d : emits authorized (CreateSymlink s d) anything.
Proof.
  unfold CreateSymlink. emits_know emits_fail_if Hx. emits_step; [emits_auto|]. emits_step. emits_step; [emits_auto|].
  do 2 (emits_step; [emits_auto|]). emits_know emits_fail_if Hp%negb_false_iff. destruct (IsFileAllowed user (if is_abs s then _ else _)) as [ok policy].
  emits_step; [emits_auto|]. emits_know emits_fail_if Ha%negb_false_iff. by apply fs_call_perform_emits.
Qed.

Lemma handleChmod_emits f p v d mode : allowed v → d = v ∨ d = path_Dir v → emits authorized (handleChmod f p v d mode) anything.
Proof.
  intros Ha Hd. unfold handleChmod. emits_know emits_fail_if Hp%negb_false_iff. emits_step; [emits_auto|].
  emits_step; [emits_auto|]. by apply fs_call_perform_emits.
Qed.
Lemma handleChown_emits f p v d uid gid : allowed v → d = v ∨ d = path_Dir v → emits authorized (handleChown f p v d uid gid) anything.
Proof.
  intros Ha Hd. unfold handleChown. emits_know emits_fail_if Hp%negb_false_iff. emits_step; [emits_auto|].
  emits_step; [emits_auto|]. by apply fs_call_perform_emits.
Qed.
Lemma handleChtimes_emits f p v d at' mt : allowed v → d = v ∨ d = path_Dir v → emits authorized (handleChtimes f p v d at' mt) anything.
Proof.
  intros Ha Hd. unfold handleChtimes. emits_know emits_fail_if Hp%negb_false_iff. emits_step; [emits_auto|].
  do 2 (emits_step; [emits_auto|]). emits_step; [by apply emits_perform|emits_auto..].
Qed.
Lemma truncateOpenHandle_emits P p size : emits P (truncateOpenHandle p size) anything.
Proof.
  apply emits_silent. intros s. unfold truncateOpenHandle.
  destruct (truncate_first _ _ _ _) as [[[r l] [[u d]|]] w]; [|done]. unfold ignore, on_quotas. by destruct (UpdateUserTransferQuota _ _ _ _ _ _ _ _).
Qed.
Lemma truncateFile_emits f p v d size : authorized (ETruncate v d) → emits authorized (truncateFile f p v d size) anything.
Proof.
  intros Ha. unfold truncateFile. emits_step; [by apply emits_record|]. emits_step; [|emits_auto].
  emits_step; [apply truncateOpenHandle_emits|emits_auto..].
Qed.
Lemma getPathForSetStatPerms_cases f p v w : getPathForSetStatPerms f p v w = v ∨ getPathForSetStatPerms f p v w = path_Dir v.
Proof. unfold getPathForSetStatPerms. repeat case_match; auto. Qed.
Lemma SetStat_emits v a : emits authorized (SetStat v a) anything.
Proof.
  unfold SetStat. destruct (IsFileAllowed user v) as [ok policy] eqn:Hok. emits_know emits_fail_if Ha%negb_false_iff.
  assert (allowed v) as Hv by (unfold allowed; by rewrite Hok).
  emits_step; [emits_auto|]. emits_step.
  apply (emits_bind _ _ _ (fun d => d = v ∨ d = path_Dir v)).
  { intros st. split; [exists []; by rewrite app_nil_r|apply getPathForSetStatPerms_cases]. }
  intros d Hd. emits_step; [case_match; [by apply handleChtimes_emits|emits_auto]|].
  emits_step; [case_match; [by apply handleChmod_emits|emits_auto]|].
  emits_step; [case_match; [by apply handleChown_emits|emits_auto]|]. emits_step; [|emits_auto].
  emits_know emits_fail_if Hp%negb_false_iff. by apply fs_call_emits, truncateFile_emits.
Qed.
#[local] Hint Resolve CreateSymlink_emits SetStat_emits RemoveAll_emits : emits.

(** ** Copies *)

Definition copy_authorized (e : effect) : Prop :=
  mostly_authorized e ∨ server_side e ∧ ∃ f, fs_is_copier f = true.

Lemma getFileReader_emits v : emits mostly_authorized (getFileReader v) anything.
Proof.
  unfold getFileReader. emits_know emits_fail_if Hp%negb_false_iff. emits_step; [emits_auto|]. emits_step.
  emits_step; [apply emits_record; by right|emits_auto].
Qed.
(** a user who may write the file *)
Definition may_write (v : string) : Prop := HasPerm user PermUpload (path_Dir v) = true ∨ HasPerm user PermOverwrite (path_Dir v) = true.

Lemma checkWriter_Ok v n e t q u : checkWriterPermsAndQuota v n e t q = Ok u →
  HasPerm user (if n =? 0 then PermOverwrite else PermUpload) (path_Dir v) = true.
Proof. unfold checkWriterPermsAndQuota. destruct (HasPerm _ _ _); [done|]. done. Qed.
Lemma getFileWriter_emits v size : allowed v → emits authorized (getFileWriter v size) (fun _ => may_write v).
Proof.
  intros Ha. unfold getFileWriter. emits_step; [emits_auto|]. emits_step.
  apply (emits_bind _ _ _ (fun r => r.1.1 = 0 ∨ r.1.1 = 1)).
  { apply (emits_try _ _ _ _ anything); [emits_auto|intros i _|intros e].
    - destruct (FileInfo.IsDir i); [apply emits_fail|apply emits_ret; by left].
    - destruct (fs_IsNotExist _ _); [apply emits_ret; by right|apply emits_fail]. }
  intros [[n overwrite] fileSize] Hn. cbn in Hn.
  apply (emits_bind _ _ _ (fun _ => HasPerm user (if n =? 0 then PermOverwrite else PermUpload) (path_Dir v) = true)).
  { intros st. split; [exists []; by rewrite app_nil_r|]. cbn [fst].
    destruct (checkWriterPermsAndQuota _ _ _ _ _) eqn:Hc; [by apply checkWriter_Ok in Hc|done]. }
  intros _ Hp. emits_step.
  { apply fs_call_perform_emits. split; [|done]. by destruct Hn as [-> | ->]. }
  assert (may_write v) by (destruct (n =? 0); [by right|by left]).
  emits_step; [apply SetPathPermissions_emits; by right; destruct (n =? 0); [right; left|left]|].
  destruct (overwrite && _); [emits_step; [emits_auto|]|]; by apply emits_ret.
Qed.
Lemma closeWriter_emits w s d n t e op : allowed d → may_write d → emits authorized (closeWriterAndUpdateQuota w s d n t e op) anything.
Proof.
  intros Ha Hm. unfold closeWriterAndUpdateQuota. emits_step.
  { apply emits_silent. intros st. unfold on_files. by destruct (writer_Close w _). }
  emits_step.
  { emits_step; [by apply emits_ret|]. emits_step; [emits_auto| |emits_auto]. emits_step. emits_step; [|by apply emits_ret].
    emits_step; [|by apply emits_ret]. eapply emits_ignore, (emits_perform _ (ECleanup d)). by split. }
  emits_auto.
Qed.
Lemma copyFile_emits s d n : emits copy_authorized (copyFile s d n) anything.
Proof.
  unfold copyFile. emits_know emits_fail_if Ha%negb_false_iff.
  assert (emits copy_authorized (r ← getFileReader s; '(w, numFiles, truncatedSize) ← getFileWriter d n;
    err ← (fun s => let '(r, s) := on_files (io_Copy r w) s in (Ok (match r with Ok _ => None | Err e => Some e end), s));
    closeWriterAndUpdateQuota w s d numFiles truncatedSize err "copy") anything) as Hstream.
  { apply (emits_or mostly_authorized); [|by left]. emits_step; [apply getFileReader_emits|].
    eapply emits_bind; [by apply emits_mostly, getFileWriter_emits|intros [[w n'] t] Hw]. emits_step; [|by apply emits_mostly, closeWriter_emits].
    apply emits_silent. intros st. unfold on_files. by destruct (io_Copy _ _ _). }
  destruct (IsSameResource s d) eqn:Hsame; [|done]. emits_step; [emits_auto|]. emits_step. destruct (fs_is_copier f) eqn:Hf; [|done].
  emits_step; [emits_auto|]. emits_step. apply emits_perform. right. split; [done|]. eauto.
Qed.
#[local] Hint Resolve copyFile_emits : emits.

Lemma CreateDir_copy a : emits copy_authorized (CreateDir a false) anything.
Proof. apply (emits_or mostly_authorized); [apply CreateDir_unchecked_emits|by left]. Qed.
Lemma CheckParentDirs_copy a : emits copy_authorized (CheckParentDirs a) anything.
Proof. apply (emits_or mostly_authorized); [apply CheckParentDirs_emits|by left]. Qed.
Lemma stat_if_exists_emits P v : emits P (stat_if_exists v) anything.
Proof. unfold stat_if_exists. emits_auto. Qed.
Lemma checkCopy_emits P a b c d : emits P (checkCopy a b c d) anything.
Proof. unfold checkCopy. emits_auto. Qed.
#[local] Hint Resolve CreateDir_copy CheckParentDirs_copy stat_if_exists_emits checkCopy_emits : emits.

Lemma doRecursiveCopy_emits fuel : ∀ s d i b, emits copy_authorized (doRecursiveCopy fuel s d i b) anything.
Proof.
  induction fuel as [|fuel IH]; intros s d i b; cbn [doRecursiveCopy]; [apply emits_fail|].
  emits_step; [|emits_auto]. do 2 (emits_step; [emits_auto|]).
  apply emits_foldr. intros x k _ Hrest. emits_auto.
Qed.
#[local] Hint Resolve doRecursiveCopy_emits : emits.
Lemma Copy_emits fuel s d : emits copy_authorized (Copy fuel s d) anything.
Proof. unfold Copy. emits_auto. Qed.

(** * The operations a protocol server calls *)

Inductive operation :=
  | OStat (virtualPath : string) (mode : Z)
  | OListDir (virtualPath : string)
  | OCreateDir (virtualPath : string)
  | ORemoveFile (f : fs) (fsPath virtualPath : string) (info : FileInfo.t)
  | ORemoveDir (virtualPath : string)
  | ORemoveAll (virtualPath : string)
  | ORename (source target : string)
  | OCreateSymlink (source target : string)
  | OSetStat (virtualPath : string) (a : StatAttributes.t).
Definition run_operation (fuel : nat) (o : operation) : C unit :=
  match o with
  | OStat v mode => _ ← DoStat v mode true; mret tt
  | OListDir v => _ ← ListDir v; mret tt
  | OCreateDir v => CreateDir v true
  | ORemoveFile f p v i => RemoveFile f p v i
  | ORemoveDir v => RemoveDir v
  | ORemoveAll v => RemoveAll fuel v
  | ORename s d => Rename s d
  | OCreateSymlink s d => CreateSymlink s d
  | OSetStat v a => SetStat v a
  end.


(** C29: Unless a storage copies files by itself, a copy only reads files in
    directories the user may download from, and only creates and writes what
    the user may create and write: a file is written at a path the file
    patterns allow, with the permission to upload or, where there is one, to
    overwrite.  The patterns are asked neither for the files that are read nor
    for the directories that are created. *)
Theorem copies_are_authorized fuel source target (s : Conn.t) :
  (∀ f, fs_is_copier f = false) →
  ∃ l, Conn.effects (Copy fuel source target s).2 = Conn.effects s ++ l ∧ Forall mostly_authorized l.
Proof.
  intros Hno. destruct (Copy_emits fuel source target s) as [(l & Hl & HP) _]. exists l. split; [done|].
  apply (Forall_impl _ _ _ HP). intros e [He|[_ [f Hf]]]; [done|]. by rewrite Hno in Hf.
Qed.
End props.
