(* ===== verification/Retention.v ===== *)
(** Data retention checks: old files of a user are removed folder by folder
    (internal/common/dataretention.go).

    Sending the results, by email or to a hook, is left out, and so are the
    durations in them.  A recursion over a directory tree has fuel. *)
From S2P Require Import Prelude GoPath Util FsConfig FsValidate Entities MemoryCore UserPerms GroupMerge ValidateUser Quota EventRules ConnData Connection ConnectionOps.
Open Scope Z_scope.

Module folderRetentionCheckResult.
(* source: internal/common/dataretention.go folderRetentionCheckResult *)
Record t := mk { Path : string; Retention : Z; DeletedFiles : Z; DeletedSize : Z; Info : string; Error : string }.
#[global] Instance eta : Settable t := {| settable := fun x =>
  mk (Path x) (Retention x) (DeletedFiles x) (DeletedSize x) (Info x) (Error x) |}.
End folderRetentionCheckResult.
Notation result := folderRetentionCheckResult.t.

Module RetentionCheck.
(* source: internal/common/dataretention.go RetentionCheck *)
Record t := mk {
  Username : string;
  StartTime : Z;
  Folders : list FolderRetention.t;
  Notifications : list string;
  Email : string;
  Role : string;
  conn : option BaseConnection.t;
}.
#[global] Instance eta : Settable t := {| settable := fun x =>
  mk (Username x) (StartTime x) (Folders x) (Notifications x) (Email x) (Role x) (conn x) |}.
End RetentionCheck.

(** * The active checks *)

(* source: internal/common/dataretention.go ActiveRetentionChecks.Get *)
Definition retention_Get (role : string) (checks : list RetentionCheck.t) : list RetentionCheck.t :=
  (fun check => RetentionCheck.mk (RetentionCheck.Username check) (RetentionCheck.StartTime check) (RetentionCheck.Folders check)
                  (RetentionCheck.Notifications check) (RetentionCheck.Email check) "" None) <$>
  List.filter (fun check => (role =s "") || (role =s RetentionCheck.Role check)) checks.
(* source: internal/common/dataretention.go updateUserPermissions *)
Definition updateUserPermissions (folders : list FolderRetention.t) (u : User.t) : User.t :=
  foldl (fun u folder =>
    if FolderRetention.IgnoreUserPermissions folder
    then u <| User.Permissions ::= <[FolderRetention.Path folder := [PermAny]]> |> else u) u folders.
(** [now] in milliseconds *)
(* source: internal/common/dataretention.go ActiveRetentionChecks.Add *)
Definition retention_Add (now : Z) (check : RetentionCheck.t) (user : User.t) (checks : list RetentionCheck.t)
    : option RetentionCheck.t * list RetentionCheck.t :=
  if existsb (fun val => RetentionCheck.Username val =s User.Username user) checks then (None, checks)
  else
    let user := on_base (fun f => f <| BaseUserFilters.FilePatterns := [] |>) user in
    let conn := BaseConnection.mk ("data_retention_" +:+ User.Username user)
                  (updateUserPermissions (RetentionCheck.Folders check) user) ProtocolDataRetention "" "" in
    let check := check <| RetentionCheck.Username := User.Username user |> <| RetentionCheck.Role := User.Role user |>
                       <| RetentionCheck.StartTime := now |> <| RetentionCheck.conn := Some conn |> in
    (Some check, checks ++ [check]).
(* source: internal/common/dataretention.go ActiveRetentionChecks.remove *)
Definition retention_remove (username : string) (checks : list RetentionCheck.t) : bool * list RetentionCheck.t :=
  match list_find (fun check => RetentionCheck.Username check = username) checks with
  | Some (idx, _) => (true, swap_remove idx checks)
  | None => (false, checks)
  end.

Definition RetentionCheckNotificationHook : string := "Hook".
Definition RetentionCheckNotificationEmail : string := "Email".
(** [smtpEnabled] and [hook] are [smtp.IsEnabled()] and the configured hook *)
(* source: internal/common/dataretention.go RetentionCheck.Validate *)
Definition check_Validate (smtpEnabled : bool) (hook : string) (c : RetentionCheck.t) : res RetentionCheck.t :=
  folders ← retention_config_validate (RetentionCheck.Folders c);
  _ ← Prelude.for_each (fun notification =>
        if notification =s RetentionCheckNotificationEmail then
          _ ← refuse (negb smtpEnabled) (ValidationError "in order to notify results via email you must configure an SMTP server");
          refuse (RetentionCheck.Email c =s "")
            (ValidationError "in order to notify results via email you must add a valid email address to your profile")
        else if notification =s RetentionCheckNotificationHook then
          refuse (hook =s "") (ValidationError "in order to notify results via hook you must define a data_retention_hook")
        else Err (ValidationError "invalid notification")) (RetentionCheck.Notifications c);
  Ok (c <| RetentionCheck.Folders := folders |>).

(** * A check *)

(** [time.Hour] in nanoseconds *)
Definition Hour : Z := 3600000000000.
(** [info.ModTime().Add(time.Duration(retention) * time.Hour)] *)
Definition retentionTime (modTime retention : Z) : Z := modTime + mul64 retention Hour.

Section check.
Context {St : Storage} {Hk : Hooks} {Cfg : Settings} {E : Env}.
Variable Folders : list FolderRetention.t.
(** the clock, in nanoseconds, when a file is looked at *)
Variable now_at : string → Z.

Definition deleteFilesPerms : list string := [PermDelete; PermDeleteFiles].
Definition attempt {A} (m : C A) : C (res A) := try_catch m (fun a => mret (Ok a)) (fun e => mret (Err e)).

(* source: internal/common/dataretention.go getFolderRetention *)
Definition getFolderRetention (folderPath : string) : res FolderRetention.t :=
  match List.find (fun dirPath => existsb (fun f => FolderRetention.Path f =s dirPath) Folders) (default [] (GetDirsForVirtualPath folderPath)) with
  | Some dirPath =>
      match List.find (fun f => FolderRetention.Path f =s dirPath) Folders with
      | Some folder => Ok folder
      | None => Err (PlainError "unable to find folder retention")
      end
  | None => Err (PlainError "unable to find folder retention")
  end.

(* source: internal/common/dataretention.go removeFile *)
Definition retention_removeFile (virtualPath : string) (info : FileInfo.t) : C unit :=
  '(f, fsPath) ← GetFsAndResolvedPath virtualPath;
  RemoveFile f fsPath virtualPath info.

(* source: internal/common/dataretention.go checkEmptyDirRemoval *)
Definition checkEmptyDirRemoval (folderPath : string) : C unit :=
  if folderPath =s "/" then mret tt
  else if existsb (fun f => folderPath =s FolderRetention.Path f) Folders then mret tt
  else if HasAnyPerm user [PermDelete; PermDeleteDirs] (path_Dir folderPath) then
    files ← attempt (ListDir folderPath);
    match files with
    | Ok [] => ignore (RemoveDir folderPath)
    | _ => mret tt
    end
  else mret tt.

Definition expired (folder : FolderRetention.t) (virtualPath : string) (info : FileInfo.t) : bool :=
  retentionTime (FileInfo.ModTime info) (FolderRetention.Retention folder) <? now_at virtualPath.
Definition deleted (info : FileInfo.t) (r : result) : result :=
  r <| folderRetentionCheckResult.DeletedFiles ::= fun n => add64 n 1 |>
    <| folderRetentionCheckResult.DeletedSize ::= fun n => add64 n (FileInfo.Size info) |>.
Definition with_info (msg : string) (r : result) : result := r <| folderRetentionCheckResult.Info := msg |>.
Definition with_error (msg : string) (r : result) : result := r <| folderRetentionCheckResult.Error := msg |>.

(** The loop of [cleanupFolder] over the entries of a directory: the results of
    the directories inside, the result of the directory itself and the error
    that ends the loop. *)
Fixpoint cleanup_entries (cleanupFolder : string → C (list result * option error)) (folder : FolderRetention.t) (folderPath : string)
    (files : list FileInfo.t) (r : result) : C (list result * result * option error) :=
  match files with
  | [] => mret ([], r, None)
  | info :: files =>
      let virtualPath := path_Join2 folderPath (FileInfo.Name info) in
      if FileInfo.IsDir info then
        '(sub, err) ← cleanupFolder virtualPath;
        match err with
        | Some e => mret (sub, with_error "unable to check folder" r, Some e)
        | None => '(rest, r, err) ← cleanup_entries cleanupFolder folder folderPath files r; mret (sub ++ rest, r, err)
        end
      else if expired folder virtualPath info then
        removed ← attempt (retention_removeFile virtualPath info);
        match removed with
        | Err e => mret ([], with_error "unable to remove file" r, Some e)
        | Ok _ => cleanup_entries cleanupFolder folder folderPath files (deleted info r)
        end
      else cleanup_entries cleanupFolder folder folderPath files r
  end.

(** The results it appends, and the error it returns. *)
(* source: internal/common/dataretention.go cleanupFolder *)
Fixpoint cleanupFolder (fuel : nat) (folderPath : string) : C (list result * option error) :=
  match fuel with
  | O => mret ([], Some StackOverflow)
  | S fuel =>
      let r := folderRetentionCheckResult.mk folderPath 0 0 0 "" "" in
      if negb (HasPerm user PermListItems folderPath) || negb (HasAnyPerm user deleteFilesPerms folderPath)
      then mret ([with_info "data retention check skipped: no permissions" r], None)
      else
        match getFolderRetention folderPath with
        | Err e => mret ([with_error "unable to get folder retention" r], Some e)
        | Ok folder =>
            let r := r <| folderRetentionCheckResult.Retention := FolderRetention.Retention folder |> in
            if FolderRetention.Retention folder =? 0
            then mret ([with_info "data retention check skipped: retention is set to 0" r], None)
            else
              files ← attempt (ListDir folderPath);
              match files with
              | Err e =>
                  if is_not_exist e then mret ([with_info "data retention check skipped, folder does not exist" r], None)
                  else mret ([with_error "unable to list directory" r], Some e)
              | Ok files =>
                  '(sub, r, err) ← cleanup_entries (cleanupFolder fuel) folder folderPath files r;
                  _ ← (if is_none err && FolderRetention.DeleteEmptyDirs folder then checkEmptyDirRemoval folderPath else mret tt);
                  mret (sub ++ [r], err)
              end
        end
  end.

(** The results and the error of [Start], which tells them to the notifiers. *)
Fixpoint check_folders (fuel : nat) (folders : list FolderRetention.t) : C (list result * option error) :=
  match folders with
  | [] => mret ([], None)
  | folder :: folders =>
      if 0 <? FolderRetention.Retention folder then
        '(results, err) ← cleanupFolder fuel (FolderRetention.Path folder);
        match err with
        | Some e => mret (results, Some e)
        | None => '(rest, err) ← check_folders fuel folders; mret (results ++ rest, err)
        end
      else check_folders fuel folders
  end.
(** the check is removed from the active ones afterwards *)
(* source: internal/common/dataretention.go Start *)
Definition check_Start (fuel : nat) (checks : list RetentionCheck.t) : C (list result * option error * list RetentionCheck.t) :=
  '(results, err) ← check_folders fuel Folders;
  mret (results, err, (retention_remove (User.Username user) checks).2).
(** the sums a hook is told *)
Definition totals (results : list result) : Z * Z :=
  foldl (fun '(files, size) r => (add64 files (folderRetentionCheckResult.DeletedFiles r), add64 size (folderRetentionCheckResult.DeletedSize r)))
    (0, 0) results.
End check.
