(* ===== verification/EventMatch.v ===== *)
(** Events and the conditions of the rules: the parameters of an event, the
    placeholders they replace and the matching of conditions
    (internal/common/eventmanager.go).

    Matching of patterns with a double star is a parameter. *)
From stdpp Require Import pretty.
From S2P Require Import Prelude GoPath Util FsValidate Entities MemoryCore ValidateUser EventRules Json ConnData Retention.
Open Scope Z_scope.

Definition IDPLoginUser : string := "IDP login user".
Definition IDPLoginAdmin : string := "IDP login admin".
Definition ipBlockedEventName : string := "IP Blocked".
(** the values of [EventConditions.IDPLoginEvent] *)
Definition dataprovider_IDPLoginUser : Z := 1.
Definition dataprovider_IDPLoginAdmin : Z := 2.

Module executedRetentionCheck.
(* source: internal/common/eventmanager.go executedRetentionCheck *)
Record t := mk { Username : string; ActionName : string; Results : list result }.
End executedRetentionCheck.

(** [plugin.Renderer]: the object of a provider event as JSON *)
Definition Renderer : Type := bool → res string.

Module EventParams.
(* source: internal/common/eventmanager.go EventParams *)
Record t := mk {
  Name : string;
  Groups : list GroupMapping.t;
  Event : string;
  Status : Z;
  VirtualPath : string;
  FsPath : string;
  VirtualTargetPath : string;
  FsTargetPath : string;
  ObjectName : string;
  Extension : string;
  ObjectType : string;
  FileSize : Z;
  Elapsed : Z;
  Protocol : string;
  IP : string;
  Role : string;
  Email : string;
  Timestamp : Z;
  UID : string;
  IDPCustomFields : option (gmap string string);
  Object : option Renderer;
  Metadata : gmap string string;
  sender : string;
  updateStatusFromError : bool;
  errors : list string;
  retentionChecks : list executedRetentionCheck.t;
}.
#[global] Instance eta : Settable t := {| settable := fun x =>
  mk (Name x) (Groups x) (Event x) (Status x) (VirtualPath x) (FsPath x) (VirtualTargetPath x) (FsTargetPath x) (ObjectName x)
    (Extension x) (ObjectType x) (FileSize x) (Elapsed x) (Protocol x) (IP x) (Role x) (Email x) (Timestamp x) (UID x)
    (IDPCustomFields x) (Object x) (Metadata x) (sender x) (updateStatusFromError x) (errors x) (retentionChecks x) |}.
Definition zero : t := mk "" [] "" 0 "" "" "" "" "" "" "" 0 0 "" "" "" "" 0 "" None None ∅ "" false [] [].
End EventParams.
Notation params := EventParams.t.

(** [err.Error()], without the values a message shows *)
Definition error_text (e : error) : string :=
  match e with
  | ErrMemoryProviderClosed => "memory provider is closed"
  | RecordNotFoundError what name => what +:+ " " +:+ name +:+ " does not exist"
  | ErrDuplicatedKey what name => what +:+ " " +:+ name +:+ " already exists"
  | ErrForeignKeyViolated what name => what +:+ " " +:+ name +:+ " is referenced"
  | ValidationError msg | GenericError msg | PlainError msg | RuntimePanic msg => msg
  end.

(** [strconv.Quote], what [%q] prints: bytes above 127, those of the characters
    of other scripts, are kept. *)
Definition quote_byte (c : Ascii.ascii) : string :=
  let backslash := Ascii.ascii_of_nat 92 in
  let escaped (n : nat) := String backslash (String (Ascii.ascii_of_nat n) "") in
  match Ascii.nat_of_ascii c with
  | 34%nat => escaped 34%nat | 92%nat => escaped 92%nat
  | 7%nat => escaped 97%nat | 8%nat => escaped 98%nat | 12%nat => escaped 102%nat | 10%nat => escaped 110%nat | 13%nat => escaped 114%nat
  | 9%nat => escaped 116%nat | 11%nat => escaped 118%nat
  | n => if (n <? 32)%nat || (n =? 127)%nat
         then escaped 120%nat +:+ String (hex_digit (N.of_nat (n / 16))) (String (hex_digit (N.of_nat (n mod 16))) "")
         else String c ""
  end.
Definition Quote (s : string) : string :=
  let quote := Ascii.ascii_of_nat 34 in
  String quote (String.concat "" (quote_byte <$> String.list_ascii_of_string s) +:+ String quote "").
(** [fmt.Errorf(prefix + " %q" + suffix + ": %w", name, err)], by its text: the
    chain of the errors is not kept, which nothing asks of these. *)
Definition wrapped (prefix name suffix : string) (e : error) : error := PlainError (prefix +:+ " " +:+ Quote name +:+ suffix +:+ ": " +:+ error_text e).

(** A copy of the parameters: the values of the model are never shared. *)
(* source: internal/common/eventmanager.go getACopy *)
Definition params_getACopy (p : params) : params := p.
(** [customFields]: [None] for a value that is not a string *)
(* source: internal/common/eventmanager.go addIDPCustomFields *)
Definition addIDPCustomFields (customFields : option (gmap string (option string))) (p : params) : params :=
  match customFields with
  | Some fields => if bool_decide (fields = ∅) then p else p <| EventParams.IDPCustomFields := Some (omap id fields) |>
  | None => p
  end.
(* source: internal/common/eventmanager.go AddError *)
Definition AddError (err : option error) (p : params) : params :=
  match err with
  | None => p
  | Some e =>
      (if EventParams.updateStatusFromError p && (EventParams.Status p =? 1) then p <| EventParams.Status := 2 |> else p)
        <| EventParams.errors ::= fun l => l ++ [error_text e] |>
  end.
(* source: internal/common/eventmanager.go addUID *)
Definition addUID (GenerateUniqueID : string) (p : params) : params :=
  if EventParams.UID p =s "" then p <| EventParams.UID := GenerateUniqueID |> else p.
(** [Stat] gives the size of the backup, when it can be read. *)
(* source: internal/common/eventmanager.go setBackupParams *)
Definition setBackupParams (now : Z) (Stat : string → option Z) (backupPath : string) (p : params) : params :=
  if negb (EventParams.sender p =s "") then p
  else
    let name := path_Base backupPath in
    let p := p <| EventParams.sender := "__system__" |> <| EventParams.FsPath := backupPath |> <| EventParams.ObjectName := name |>
               <| EventParams.VirtualPath := "/" +:+ name |> <| EventParams.Timestamp := now |> in
    match Stat backupPath with Some size => p <| EventParams.FileSize := size |> | None => p end.
(* source: internal/common/eventmanager.go getStatusString *)
Definition getStatusString (p : params) : string := if EventParams.Status p =? 1 then "OK" else "KO".

(** * Placeholders *)

Definition in_quotes (s : string) : string := String quote (s +:+ String quote EmptyString).
(** [json.Marshal] of a map of strings: sorted by key *)
Definition json_Marshal_map (m : gmap string string) : string :=
  "{" +:+ String.concat "," ((fun '(k, v) => in_quotes (json_escape k) +:+ ":" +:+ in_quotes (json_escape v)) <$> sort_by fst (map_to_list m)) +:+ "}".
(* source: internal/common/eventmanager.go#L768-L773 getStringReplacement *)
Definition getStringReplacement (val : string) (jsonEscaped : bool) : string := if jsonEscaped then JSONEscape val else val.

Definition objDataPlaceholder : string := "{{ObjectData}}".
Definition objDataPlaceholderString : string := "{{ObjectDataString}}".
Definition path_placeholders (p : params) (jsonEscaped : bool) : list (string * string) :=
  let repl v := getStringReplacement v jsonEscaped in
  (if EventParams.VirtualPath p =s "" then [] else [("{{VirtualDirPath}}", repl (path_Dir (EventParams.VirtualPath p)))]) ++
  (if EventParams.VirtualTargetPath p =s "" then []
   else [("{{VirtualTargetDirPath}}", repl (path_Dir (EventParams.VirtualTargetPath p)));
         ("{{TargetName}}", repl (path_Base (EventParams.VirtualTargetPath p)))]).
(** The pairs of the replacer.  Asking for the data of an object there is none
    of is a nil pointer. [range] is the order of a loop over a map. *)
(* source: internal/common/eventmanager.go getStringReplacements *)
Definition getStringReplacements (range : gmap string string → list (string * string)) (addObjectData jsonEscaped : bool) (p : params)
    : res (list (string * string)) :=
  let repl v := getStringReplacement v jsonEscaped in
  data ← (if addObjectData
          then match EventParams.Object p with
               | Some RenderAsJSON => Ok (match RenderAsJSON (negb (EventParams.Event p =s "delete")) with Ok d => Some d | Err _ => None end)
               | None => Err (RuntimePanic "nil pointer")
               end
          else Ok None);
  Ok ([("{{Name}}", repl (EventParams.Name p)); ("{{Event}}", EventParams.Event p); ("{{Status}}", pretty (EventParams.Status p));
       ("{{VirtualPath}}", repl (EventParams.VirtualPath p)); ("{{FsPath}}", repl (EventParams.FsPath p));
       ("{{VirtualTargetPath}}", repl (EventParams.VirtualTargetPath p)); ("{{FsTargetPath}}", repl (EventParams.FsTargetPath p));
       ("{{ObjectName}}", repl (EventParams.ObjectName p)); ("{{ObjectType}}", EventParams.ObjectType p);
       ("{{FileSize}}", pretty (EventParams.FileSize p)); ("{{Elapsed}}", pretty (EventParams.Elapsed p));
       ("{{Protocol}}", EventParams.Protocol p); ("{{IP}}", EventParams.IP p); ("{{Role}}", repl (EventParams.Role p));
       ("{{Email}}", repl (EventParams.Email p)); ("{{Timestamp}}", pretty (EventParams.Timestamp p));
       ("{{StatusString}}", getStatusString p); ("{{UID}}", repl (EventParams.UID p)); ("{{Ext}}", repl (EventParams.Extension p))] ++
      path_placeholders p jsonEscaped ++
      [("{{ErrorString}}", if bool_decide (EventParams.errors p = []) then "" else repl (String.concat ", " (EventParams.errors p)));
       (objDataPlaceholder, default "{}" data);
       (objDataPlaceholderString, match data with Some d => JSONEscape d | None => "" end)] ++
      ((fun '(k, v) => ("{{IDPField" +:+ k +:+ "}}", repl v)) <$> (match EventParams.IDPCustomFields p with Some m => range m | None => [] end)) ++
      (if bool_decide (EventParams.Metadata p = ∅) then [("{{Metadata}}", "{}"); ("{{MetadataString}}", "")]
       else let d := json_Marshal_map (EventParams.Metadata p) in [("{{Metadata}}", d); ("{{MetadataString}}", JSONEscape d)])).

(* source: internal/common/eventmanager.go replaceWithReplacer *)
Definition replaceWithReplacer (input : string) (replacer : list (string * string)) : string :=
  if negb (has_substring input "{{") then input else Replacer_Replace replacer input.
(* source: internal/common/eventmanager.go replacePathsPlaceholders *)
Definition replacePathsPlaceholders (paths : list string) (replacer : list (string * string)) : list string :=
  RemoveDuplicates ((fun p => CleanPath (replaceWithReplacer p replacer)) <$> paths) false.
(* source: internal/common/eventmanager.go getEmailAddressesWithReplacer *)
Definition getEmailAddressesWithReplacer (addrs : list string) (replacer : list (string * string)) : list string :=
  List.filter (fun rcpt => negb (rcpt =s "")) ((fun a => replaceWithReplacer a replacer) <$> addrs).

(** * Conditions *)

Section conditions.
(** [doublestar.Match]; [None] for a malformed pattern *)
Variable doublestar_Match : string → string → option bool.

(* source: internal/common/eventmanager.go checkEventConditionPattern *)
Definition checkEventConditionPattern (p : ConditionPattern.t) (name : string) : bool :=
  let pattern := ConditionPattern.Pattern p in
  match (if has_substring pattern "**" then doublestar_Match pattern name else path_Match pattern name) with
  | None => false
  | Some matched => if ConditionPattern.InverseMatch p then negb matched else matched
  end.

(** The loop over the patterns: [Some] is the result of a [return] in it,
    [None] the end of it, with the value of [matches]. *)
Fixpoint check_patterns (name : string) (matches : bool) (patterns : list ConditionPattern.t) : option bool * bool :=
  match patterns with
  | [] => (None, matches)
  | p :: patterns =>
      if ConditionPattern.InverseMatch p then
        if checkEventConditionPattern p name then check_patterns name true patterns else (Some false, matches)
      else if checkEventConditionPattern p name then (Some true, matches)
      else check_patterns name matches patterns
  end.
(* source: internal/common/eventmanager.go checkEventConditionPatterns *)
Definition checkEventConditionPatterns (name : string) (patterns : list ConditionPattern.t) : bool :=
  if bool_decide (patterns = []) then true
  else match check_patterns name false patterns with (Some r, _) => r | (None, matches) => matches end.
Fixpoint check_groups (groups : list GroupMapping.t) (matches : bool) (patterns : list ConditionPattern.t) : bool :=
  match groups with
  | [] => matches
  | group :: groups =>
      match check_patterns (GroupMapping.Name group) matches patterns with
      | (Some r, _) => r
      | (None, matches) => check_groups groups matches patterns
      end
  end.
(* source: internal/common/eventmanager.go checkEventGroupConditionPatterns *)
Definition checkEventGroupConditionPatterns (groups : list GroupMapping.t) (patterns : list ConditionPattern.t) : bool :=
  if bool_decide (patterns = []) then true else check_groups groups false patterns.
(* source: internal/common/eventmanager.go checkUserConditionOptions *)
Definition checkUserConditionOptions (user : User.t) (conditions : ConditionOptions.t) : bool :=
  checkEventConditionPatterns (User.Username user) (ConditionOptions.Names conditions) &&
  checkEventConditionPatterns (User.Role user) (ConditionOptions.RoleNames conditions) &&
  checkEventGroupConditionPatterns (User.Groups user) (ConditionOptions.GroupNames conditions).

(* source: internal/common/eventmanager.go#L295-L307 checkIPDLoginEventMatch *)
Definition checkIPDLoginEventMatch (conditions : EventConditions.t) (p : params) : bool :=
  let kind := EventConditions.IDPLoginEvent conditions in
  negb ((kind =? dataprovider_IDPLoginUser) && negb (EventParams.Event p =s IDPLoginUser)) &&
  negb ((kind =? dataprovider_IDPLoginAdmin) && negb (EventParams.Event p =s IDPLoginAdmin)) &&
  checkEventConditionPatterns (EventParams.Name p) (ConditionOptions.Names (EventConditions.Options conditions)).
(* source: internal/common/eventmanager.go#L309-L323 checkProviderEventMatch *)
Definition checkProviderEventMatch (conditions : EventConditions.t) (p : params) : bool :=
  let options := EventConditions.Options conditions in
  contains (EventConditions.ProviderEvents conditions) (EventParams.Event p) &&
  checkEventConditionPatterns (EventParams.Name p) (ConditionOptions.Names options) &&
  checkEventConditionPatterns (EventParams.Role p) (ConditionOptions.RoleNames options) &&
  (bool_decide (ConditionOptions.ProviderObjects options = []) || contains (ConditionOptions.ProviderObjects options) (EventParams.ObjectType p)).
(* source: internal/common/eventmanager.go#L325-L357 checkFsEventMatch *)
Definition checkFsEventMatch (conditions : EventConditions.t) (p : params) : bool :=
  let options := EventConditions.Options conditions in
  let size := EventParams.FileSize p in
  contains (EventConditions.FsEvents conditions) (EventParams.Event p) &&
  checkEventConditionPatterns (EventParams.Name p) (ConditionOptions.Names options) &&
  checkEventConditionPatterns (EventParams.Role p) (ConditionOptions.RoleNames options) &&
  checkEventGroupConditionPatterns (EventParams.Groups p) (ConditionOptions.GroupNames options) &&
  checkEventConditionPatterns (EventParams.VirtualPath p) (ConditionOptions.FsPaths options) &&
  (bool_decide (ConditionOptions.Protocols options = []) || contains (ConditionOptions.Protocols options) (EventParams.Protocol p)) &&
  (negb ((EventParams.Event p =s "upload") || (EventParams.Event p =s "download")) ||
   negb ((0 <? ConditionOptions.MinFileSize options) && (size <? ConditionOptions.MinFileSize options)) &&
   negb ((0 <? ConditionOptions.MaxFileSize options) && (ConditionOptions.MaxFileSize options <? size))).

(** * What the conditions mean *)

(** a pattern matches, as text *)
Definition accepts (name : string) (p : ConditionPattern.t) : Prop := checkEventConditionPattern p name = true.
Definition inverse (p : ConditionPattern.t) : Prop := ConditionPattern.InverseMatch p = true.

Lemma check_patterns_spec name patterns matches :
  match check_patterns name matches patterns with
  | (Some true, _) => ∃ before p after, patterns = before ++ p :: after ∧ ¬ inverse p ∧ accepts name p ∧
                      Forall (fun q => inverse q → accepts name q) before
  | (Some false, _) => ∃ before p after, patterns = before ++ p :: after ∧ inverse p ∧ ¬ accepts name p ∧
                       Forall (fun q => ¬ inverse q → ¬ accepts name q) before
  | (None, m) => Forall (fun q => inverse q ↔ accepts name q) patterns ∧ (m = true ↔ matches = true ∨ ∃ p, p ∈ patterns ∧ inverse p)
  end.
Proof.
  unfold accepts, inverse. revert matches. induction patterns as [|p patterns IH]; intros matches; cbn [check_patterns].
  - split; [done|]. split; [by left|]. intros [|(p & Hp & _)]; [done|by apply not_elem_of_nil in Hp].
  - destruct (ConditionPattern.InverseMatch p) eqn:Hi, (checkEventConditionPattern p name) eqn:Hc.
    + specialize (IH true). destruct (check_patterns name true patterns) as [[[]|] m].
      * destruct IH as (b & q & a & -> & Hq & Hacc & Hb). exists (p :: b), q, a. split_and!; [done|done|done|]. by constructor.
      * destruct IH as (b & q & a & -> & Hq & Hacc & Hb). exists (p :: b), q, a. split_and!; [done|done|done|]. constructor; [by rewrite Hi|done].
      * destruct IH as [IH Hm]. split; [by constructor; [rewrite Hi, Hc|]|]. split; [|by intros _; apply Hm; left].
        intros _. right. exists p. split; [by left|done].
    + exists [], p, patterns. split_and!; [done|done|by rewrite Hc|by constructor].
    + exists [], p, patterns. split_and!; [done|by rewrite Hi|done|by constructor].
    + specialize (IH matches). destruct (check_patterns name matches patterns) as [[[]|] m].
      * destruct IH as (b & q & a & -> & Hq & Hacc & Hb). exists (p :: b), q, a. split_and!; [done|done|done|].
        constructor; [by rewrite Hi|done].
      * destruct IH as (b & q & a & -> & Hq & Hacc & Hb). exists (p :: b), q, a. split_and!; [done|done|done|]. by constructor; [rewrite Hc|].
      * destruct IH as [IH Hm]. split; [by constructor; [rewrite Hi, Hc|]|]. rewrite Hm.
        split; (intros [?|(q & Hq & H)]; [by left|right; exists q]); [split; [by right|done]|].
        apply elem_of_cons in Hq as [->|Hq]; [by rewrite Hi in H|done].
Qed.

(** A name meets conditions when there are none; when a plain pattern matches
    it and no inverse pattern before that one refuses it; or when no plain
    pattern matches it, none of the inverse ones refuses it and there is at
    least one of them. *)
Theorem checkEventConditionPatterns_iff name patterns : checkEventConditionPatterns name patterns = true ↔
  patterns = [] ∨
  (∃ before p after, patterns = before ++ p :: after ∧ ¬ inverse p ∧ accepts name p ∧ Forall (fun q => inverse q → accepts name q) before) ∨
  (Forall (fun q => inverse q ↔ accepts name q) patterns ∧ ∃ p, p ∈ patterns ∧ inverse p).
Proof.
  unfold checkEventConditionPatterns. case_bool_decide as Hnil; [by split; [left|]|].
  pose proof (check_patterns_spec name patterns false) as H. destruct (check_patterns name false patterns) as [[[]|] m].
  - split; [by right; left|done].
  - split; [done|]. destruct H as (b' & p & a' & Hp & Hi & Hn & Hb'). intros [?|[(b & q & a & -> & Hq & Ha & Hb)|[Hall _]]]; [done| |].
    + exfalso. destruct (app_eq_inv _ _ _ _ Hp) as [(k & -> & Hk)|(k & -> & Hk)]; destruct k as [|x k]; cbn in Hk; rewrite ?app_nil_r in *;
        simplify_eq/=; rewrite Forall_app, ?Forall_cons in *; naive_solver.
    + rewrite Hp, Forall_app, Forall_cons in Hall. naive_solver.
  - destruct H as [Hall Hm]. rewrite Hm. split.
    + intros [?|?]; [done|]. by right; right.
    + intros [?|[(b & q & a & -> & Hq & Ha & Hb)|[_ H]]]; [done| |by right].
      rewrite Forall_forall in Hall. exfalso. apply Hq, Hall; [set_solver|done].
Qed.
End conditions.
