(* ===== verification/RateLimiter.v ===== *)
(** Rate limiters (internal/common/ratelimiter.go): their configuration and the
    buckets of the sources, which are evicted like the hosts of the defender.

    A token bucket is a [rate.Limiter] of golang.org/x/time/rate, whose methods
    are the class [TokenBuckets].  The rate, a float64 in the code, is the exact
    quotient of two integers.  Waiting and logging are left out. *)
From S2P Require Import Prelude Util Entities MemoryCore IPLists Evict ConnData Defender.
Open Scope Z_scope.

Definition second_ns : Z := 1000000000.
Definition rateLimiterTypeGlobal : Z := 1.
Definition rateLimiterTypeSource : Z := 2.
Definition rateLimiterProtocolValues : list string := [ProtocolSSH; ProtocolFTP; ProtocolWebDAV; ProtocolHTTP].

Module RateLimiterConfig.
(* source: internal/common/ratelimiter.go RateLimiterConfig *)
Record t := mk {
  Average : Z; Period : Z; Burst : Z; Type_ : Z; Protocols : list string; GenerateDefenderEvents : bool;
  EntriesSoftLimit : Z; EntriesHardLimit : Z }.
#[global] Instance eta : Settable t := {| settable := fun x =>
  mk (Average x) (Period x) (Burst x) (Type_ x) (Protocols x) (GenerateDefenderEvents x) (EntriesSoftLimit x) (EntriesHardLimit x) |}.
End RateLimiterConfig.

(* source: internal/common/ratelimiter.go isEnabled *)
Definition ratelimiter_isEnabled (r : RateLimiterConfig.t) : bool :=
  (0 <? RateLimiterConfig.Average r) && (0 <? Z.of_nat (length (RateLimiterConfig.Protocols r))).

(* source: internal/common/ratelimiter.go RateLimiterConfig.validate *)
Definition ratelimiter_validate (r : RateLimiterConfig.t) : res RateLimiterConfig.t :=
  let type := RateLimiterConfig.Type_ r in
  _ ← refuse (RateLimiterConfig.Burst r <? 1) (PlainError "invalid burst");
  _ ← refuse (RateLimiterConfig.Period r <? 100) (PlainError "invalid period");
  _ ← refuse (negb (type =? rateLimiterTypeGlobal) && negb (type =? rateLimiterTypeSource)) (PlainError "invalid type");
  _ ← (if negb (type =? rateLimiterTypeGlobal) then
         _ ← refuse (RateLimiterConfig.EntriesSoftLimit r <=? 0) (PlainError "invalid entries_soft_limit");
         refuse (RateLimiterConfig.EntriesHardLimit r <=? RateLimiterConfig.EntriesSoftLimit r) (PlainError "invalid entries_hard_limit")
       else Ok tt);
  let r := r <| RateLimiterConfig.Protocols ::= fun l => RemoveDuplicates l true |> in
  _ ← for_each (fun protocol => refuse (negb (contains rateLimiterProtocolValues protocol)) (PlainError "invalid protocol"))
        (RateLimiterConfig.Protocols r);
  Ok r.

(** * Buckets *)

(** [rate.NewLimiter], [Reserve] with the result's [OK] and [Delay] in
    nanoseconds, and [Cancel] *)
Class TokenBuckets := {
  bucket : Type;
  new_bucket : Z * Z → Z → bucket;
  bucket_reserve : Z → bucket → bool * Z * bucket;
  bucket_cancel : Z → Z → bucket → bucket;
}.
(** A new bucket is full: it lets one event through at once if its burst allows any. *)
Class TokenBucketsLaws `{TokenBuckets} : Prop :=
  new_bucket_full rate burst now : 1 <= burst → (bucket_reserve now (new_bucket rate burst)).1 = (true, 0).

Module sourceRateLimiter.
(* source: internal/common/ratelimiter.go sourceRateLimiter *)
Record t `{TokenBuckets} := mk { lastActivity : Z; bucket : RateLimiter.bucket }.
#[global] Instance eta `{TokenBuckets} : Settable t := {| settable := fun x => mk _ (lastActivity x) (bucket x) |}.
End sourceRateLimiter.

Module sourceBuckets.
(* source: internal/common/ratelimiter.go sourceBuckets *)
Record t `{TokenBuckets} := mk { buckets : gmap string sourceRateLimiter.t; hardLimit : Z; softLimit : Z }.
#[global] Instance eta `{TokenBuckets} : Settable t := {| settable := fun x => mk _ (buckets x) (hardLimit x) (softLimit x) |}.
End sourceBuckets.

Module rateLimiter.
(* source: internal/common/ratelimiter.go rateLimiter *)
Record t `{TokenBuckets} := mk {
  rate : Z * Z; burst : Z; maxDelay : Z; globalBucket : option bucket; buckets : sourceBuckets.t; generateDefenderEvents : bool }.
#[global] Instance eta `{TokenBuckets} : Settable t := {| settable := fun x =>
  mk _ (rate x) (burst x) (maxDelay x) (globalBucket x) (buckets x) (generateDefenderEvents x) |}.
End rateLimiter.

Section limiter.
Context {B : TokenBuckets} {O : MapOrder}.
Implicit Types (b : sourceBuckets.t) (rl : rateLimiter.t).

(* source: internal/common/ratelimiter.go getLimiter *)
Definition getLimiter (r : RateLimiterConfig.t) : rateLimiter.t :=
  let period := mul64 (RateLimiterConfig.Period r) 1000000 in
  let num := mul64 (RateLimiterConfig.Average r) second_ns in
  let maxDelay := if num <? period then Z.quot period 2 else Z.quot second_ns (mul64 (Z.quot num period) 2) in
  let maxDelay := if 10 * second_ns <? maxDelay then 10 * second_ns else maxDelay in
  rateLimiter.mk _ (num, period) (RateLimiterConfig.Burst r) maxDelay
    (if negb (RateLimiterConfig.Type_ r =? rateLimiterTypeSource) then Some (new_bucket (num, period) (RateLimiterConfig.Burst r)) else None)
    (sourceBuckets.mk _ ∅ (RateLimiterConfig.EntriesHardLimit r) (RateLimiterConfig.EntriesSoftLimit r))
    (RateLimiterConfig.GenerateDefenderEvents r).

(* source: internal/common/ratelimiter.go cleanup *)
Definition buckets_cleanup b : sourceBuckets.t :=
  let m := sourceBuckets.buckets b in
  let n := Z.of_nat (size m) in
  if sourceBuckets.hardLimit b <=? n
  then b <| sourceBuckets.buckets := evict (n - sourceBuckets.softLimit b)
              ((fun '(k, v) => (k, sourceRateLimiter.lastActivity v)) <$> map_order m) m |>
  else b.

(** [src.updateLastActivity(); src.bucket.Reserve()] *)
Definition reserve_from (now1 now2 : Z) (source : string) (src : sourceRateLimiter.t) b : bool * Z * sourceBuckets.t :=
  let '(r, bk) := bucket_reserve now2 (sourceRateLimiter.bucket src) in
  (r, b <| sourceBuckets.buckets ::= <[source := sourceRateLimiter.mk _ now1 bk]> |>).
(* source: internal/common/ratelimiter.go sourceBuckets.reserve *)
Definition buckets_reserve (now1 now2 : Z) (source : string) b : option (bool * Z * sourceBuckets.t) :=
  match sourceBuckets.buckets b !! source with
  | Some src => Some (reserve_from now1 now2 source src b)
  | None => None      (* errNoBucket *)
  end.
(* source: internal/common/ratelimiter.go addAndReserve *)
Definition addAndReserve (now1 now2 : Z) (r : bucket) (source : string) b : bool * Z * sourceBuckets.t :=
  reserve_from now1 now2 source (sourceRateLimiter.mk _ now1 r) (buckets_cleanup b).

(** the result of [Wait]: the delay to sleep, or the error *)
Inductive wait_result := Admitted_after (delay : Z) | Not_reserved | Exceeded (delay : Z) (defender_event : bool).
(** what [Wait] does with a reservation *)
Definition judge rl (ok : bool) (delay : Z) : wait_result :=
  if negb ok then Not_reserved
  else if rateLimiter.maxDelay rl <? delay
       then Exceeded delay (rateLimiter.generateDefenderEvents rl && match rateLimiter.globalBucket rl with None => true | Some _ => false end)
       else Admitted_after delay.
Definition cancelled (w : wait_result) : bool := match w with Exceeded _ _ => true | _ => false end.

(** The reservation of a source, in the two steps of the code: under the read
    lock, and if there is no bucket under the lock. *)
Definition reserve_source (now : nat → Z) (source : string) rl : bool * Z * rateLimiter.t :=
  let b := rateLimiter.buckets rl in
  let '(r, b) := match buckets_reserve (now 0%nat) (now 1%nat) source b with
                 | Some rb => rb
                 | None => addAndReserve (now 0%nat) (now 1%nat) (new_bucket (rateLimiter.rate rl) (rateLimiter.burst rl)) source b
                 end in (r, rl <| rateLimiter.buckets := b |>).
(* source: internal/common/ratelimiter.go Wait *)
Definition Wait (now : nat → Z) (source : string) rl : wait_result * rateLimiter.t :=
  match rateLimiter.globalBucket rl with
  | Some g =>
      let '(ok, delay, g) := bucket_reserve (now 0%nat) g in
      let w := judge rl ok delay in
      (w, rl <| rateLimiter.globalBucket := Some (if cancelled w then bucket_cancel (now 1%nat) delay g else g) |>)
  | None =>
      let '(ok, delay, rl) := reserve_source now source rl in
      let w := judge rl ok delay in
      (w, if cancelled w
          then rl <| rateLimiter.buckets ::= fun b => b <| sourceBuckets.buckets ::=
                 alter (fun s => s <| sourceRateLimiter.bucket ::= bucket_cancel (now 2%nat) delay |>) source |> |>
          else rl)
  end.

(** the limiters of a protocol, in order, until one refuses *)
Fixpoint limit_all (now : nat → Z) (ip : string) (l : list rateLimiter.t) : option wait_result * list rateLimiter.t :=
  match l with
  | [] => (None, [])
  | rl :: l' =>
      match Wait now ip rl with
      | (Admitted_after _, rl) => let '(w, l') := limit_all (fun n => now (3 + n)%nat) ip l' in (w, rl :: l')
      | (w, rl) => (Some w, rl :: l')
      end
  end.
(* source: internal/common/common.go LimitRate *)
Definition LimitRate (now : nat → Z) (listed : option (res (bool * Z))) (ip : string) (l : list rateLimiter.t)
    : option wait_result * list rateLimiter.t :=
  match listed with
  | Some (Ok (true, _)) => (None, l)
  | _ => limit_all now ip l
  end.
End limiter.

(** * What the limiters guarantee *)

(** A validated limiter of sources has room for a source to evict. *)
Lemma ratelimiter_validate_limits r r' : ratelimiter_validate r = Ok r' → RateLimiterConfig.Type_ r = rateLimiterTypeSource →
  0 < RateLimiterConfig.EntriesSoftLimit r' < RateLimiterConfig.EntriesHardLimit r' ∧ 1 <= RateLimiterConfig.Burst r'.
Proof.
  intros H Ht. unfold ratelimiter_validate in H. rewrite Ht in H. cbn [Z.eqb negb] in H. inv_checks H.
  injection H as <-. cbn. repeat match goal with E : _ = Ok _ |- _ => inv_checks E end.
  repeat match goal with E : (_ <? _) = false |- _ => apply Z.ltb_ge in E | E : (_ <=? _) = false |- _ => apply Z.leb_gt in E end. lia.
Qed.

Section laws.
Context {B : TokenBuckets} {O : MapOrder} {OL : MapOrderLaws}.
Implicit Types (b : sourceBuckets.t) (rl : rateLimiter.t).

Definition within_limits b : Prop :=
  0 < sourceBuckets.softLimit b < sourceBuckets.hardLimit b ∧ Z.of_nat (size (sourceBuckets.buckets b)) <= sourceBuckets.hardLimit b.
(** the buckets dropped are not more recently used than those kept *)
Definition keeps_recent (m m' : gmap string sourceRateLimiter.t) (source : string) : Prop := ∀ j k x y,
  m !! j = Some x → m' !! j = None → k ≠ source → m' !! k = Some y → m !! k = Some y ∧ sourceRateLimiter.lastActivity x <= sourceRateLimiter.lastActivity y.

Lemma listing_perm (m : gmap string sourceRateLimiter.t) :
  (fun '(k, v) => (k, sourceRateLimiter.lastActivity v)) <$> map_order m ≡ₚ prod_map id sourceRateLimiter.lastActivity <$> map_to_list m.
Proof.
  rewrite map_order_perm. apply Permutation_refl', list_fmap_ext. by intros i [k x] _.
Qed.

Lemma buckets_cleanup_size b : within_limits b →
  Z.of_nat (size (sourceBuckets.buckets (buckets_cleanup b))) < sourceBuckets.hardLimit b ∧
  sourceBuckets.hardLimit (buckets_cleanup b) = sourceBuckets.hardLimit b ∧ sourceBuckets.softLimit (buckets_cleanup b) = sourceBuckets.softLimit b.
Proof.
  intros [Hs Hn]. unfold buckets_cleanup. destruct (Z.leb_spec (sourceBuckets.hardLimit b) (Z.of_nat (size (sourceBuckets.buckets b)))) as [Hle|Hgt]; [|done].
  cbn. split; [|done].
  rewrite (evict_size sourceRateLimiter.lastActivity _ _ _ (listing_perm _)); lia.
Qed.
Lemma buckets_cleanup_sub b : sourceBuckets.buckets (buckets_cleanup b) ⊆ sourceBuckets.buckets b.
Proof. unfold buckets_cleanup. destruct (_ <=? _); [apply evict_sub|done]. Qed.
Lemma buckets_cleanup_order b j k x y : sourceBuckets.buckets b !! j = Some x → sourceBuckets.buckets (buckets_cleanup b) !! j = None →
  sourceBuckets.buckets (buckets_cleanup b) !! k = Some y → sourceRateLimiter.lastActivity x <= sourceRateLimiter.lastActivity y.
Proof.
  unfold buckets_cleanup. destruct (_ <=? _); intros Hx Hj Hy; [|congruence]. cbn in Hj, Hy.
  eapply (evict_order sourceRateLimiter.lastActivity _ _ (sourceBuckets.buckets b) (listing_perm _)); [|exact Hy|exact Hx|exact Hj]. done.
Qed.

Lemma alter_size {A} (f : A → A) k (m : gmap string A) : size (alter f k m) = size m.
Proof. rewrite <- !(size_dom (D := gset string)). by rewrite dom_alter_L. Qed.

(** C7: A limiter of sources never keeps more buckets than its hard limit,
    whatever the requests; the source of a request keeps its bucket, and the
    buckets dropped to make room are never more recently used than those that
    stay. *)
Theorem rate_limiter_bounded now source rl :
  rateLimiter.globalBucket rl = None → within_limits (rateLimiter.buckets rl) →
  let rl' := (Wait now source rl).2 in
  within_limits (rateLimiter.buckets rl') ∧ is_Some (sourceBuckets.buckets (rateLimiter.buckets rl') !! source) ∧
  keeps_recent (sourceBuckets.buckets (rateLimiter.buckets rl)) (sourceBuckets.buckets (rateLimiter.buckets rl')) source.
Proof.
  intros Hg Hw. unfold Wait. rewrite Hg.
  assert (∃ ok delay b', reserve_source now source rl = (ok, delay, rl <| rateLimiter.buckets := b' |>) ∧ within_limits b' ∧
    is_Some (sourceBuckets.buckets b' !! source) ∧
    keeps_recent (sourceBuckets.buckets (rateLimiter.buckets rl)) (sourceBuckets.buckets b') source) as (ok & delay & b' & -> & Hb & Hs & Hr).
  { unfold reserve_source, buckets_reserve. set (b := rateLimiter.buckets rl) in *.
    destruct (sourceBuckets.buckets b !! source) as [src|] eqn:Hsrc.
    - unfold reserve_from. destruct (bucket_reserve _ _) as [[ok delay] bk]. eexists _, _, _. split; [done|]. cbn. split_and!.
      + destruct Hw as [Hw Hn]. split; [done|]. cbn. by rewrite map_size_insert_Some.
      + by rewrite lookup_insert_eq.
      + intros j k x y Hx Hj Hk. apply lookup_insert_None in Hj as [Hj _]. congruence.
    - unfold addAndReserve, reserve_from. destruct (bucket_reserve _ _) as [[ok delay] bk]. eexists _, _, _. split; [done|].
      destruct (buckets_cleanup_size b Hw) as (Hlt & Hh & Hso). cbn. split_and!.
      + destruct Hw as [Hw Hn]. split; cbn; [by rewrite Hh, Hso|]. rewrite Hh.
        rewrite map_size_insert_None; [lia|]. eapply lookup_weaken_None; [exact Hsrc|apply buckets_cleanup_sub].
      + by rewrite lookup_insert_eq.
      + intros j k x y Hx Hj Hk. rewrite lookup_insert_ne by done. apply lookup_insert_None in Hj as [Hj _]. intros Hy.
        split; [by eapply lookup_weaken, buckets_cleanup_sub|by eapply buckets_cleanup_order]. }
  cbn zeta. destruct (cancelled _); cbn [snd]; [|done].
  change (rateLimiter.buckets (_ <| rateLimiter.buckets ::= ?g |>)) with (g b'). cbn beta. split_and!.
  - destruct Hb as [Hb Hn]. split; [done|]. cbn. by rewrite alter_size.
  - cbn. rewrite lookup_alter_eq. by apply fmap_is_Some.
  - intros j k x y Hx Hj Hk Hy. cbn in Hj, Hy. rewrite lookup_alter_ne in Hy by done. eapply Hr; [done| |done|done].
    destruct (decide (j = source)) as [->|]; [|by rewrite lookup_alter_ne in Hj]. rewrite lookup_alter_eq in Hj. by apply fmap_None in Hj.
Qed.

(** The two steps of a request of a source, each under its lock. *)
Definition lookup_step (now1 now2 : Z) (source : string) b : option (bool * Z) * sourceBuckets.t :=
  match buckets_reserve now1 now2 source b with Some (r, b) => (Some r, b) | None => (None, b) end.
Definition add_step (now1 now2 : Z) (fresh : bucket) (source : string) (found : option (bool * Z)) b : bool * Z * sourceBuckets.t :=
  match found with Some r => (r, b) | None => addAndReserve now1 now2 fresh source b end.
Lemma reserve_source_steps now source rl : reserve_source now source rl =
  let '(found, b) := lookup_step (now 0%nat) (now 1%nat) source (rateLimiter.buckets rl) in
  let '(r, b) := add_step (now 0%nat) (now 1%nat) (new_bucket (rateLimiter.rate rl) (rateLimiter.burst rl)) source found b in
  (r, rl <| rateLimiter.buckets := b |>).
Proof. unfold reserve_source, lookup_step, add_step. by destruct (buckets_reserve _ _ _ _) as [[r b]|]. Qed.
(** two requests whose lookups both come before they add a bucket *)
Definition interleaved_requests (now : nat → Z) (source : string) rl : list (bool * Z) :=
  let fresh := new_bucket (rateLimiter.rate rl) (rateLimiter.burst rl) in
  let '(found1, b) := lookup_step (now 0%nat) (now 1%nat) source (rateLimiter.buckets rl) in
  let '(found2, b) := lookup_step (now 2%nat) (now 3%nat) source b in
  let '(r1, b) := add_step (now 0%nat) (now 1%nat) fresh source found1 b in
  let '(r2, b) := add_step (now 2%nat) (now 3%nat) fresh source found2 b in
  [r1; r2].

(** The bucket of a source is looked up and added under two locks: of two
    requests that both find none, the second replaces the bucket of the first,
    so both are let through at once even with a burst of one. *)
Theorem concurrent_first_requests_pass `{!TokenBucketsLaws} now source rl :
  1 <= rateLimiter.burst rl → sourceBuckets.buckets (rateLimiter.buckets rl) !! source = None →
  interleaved_requests now source rl = [(true, 0); (true, 0)].
Proof.
  intros Hb Hnone. assert (∀ n1 n2 b, (addAndReserve n1 n2 (new_bucket (rateLimiter.rate rl) (rateLimiter.burst rl)) source b).1 = (true, 0)) as Hadd.
  { intros n1 n2 b. unfold addAndReserve, reserve_from. cbn. destruct (bucket_reserve n2 _) as [r bk] eqn:E.
    pose proof (new_bucket_full (rateLimiter.rate rl) _ n2 Hb) as Hr. by rewrite E in Hr. }
  unfold interleaved_requests, lookup_step, buckets_reserve. rewrite Hnone. cbn [add_step]. rewrite Hnone.
  cbn [add_step]. pose proof (Hadd (now 0%nat) (now 1%nat) (rateLimiter.buckets rl)) as H1.
  destruct (addAndReserve (now 0%nat) _ _ _ _) as [r1 b1]. pose proof (Hadd (now 2%nat) (now 3%nat) b1) as H2.
  destruct (addAndReserve (now 2%nat) _ _ _ _) as [r2 b2]. cbn in H1, H2. by subst.
Qed.
End laws.

(** * Samples *)

(** A bucket that counts the events it let through and then delays by a second each. *)
#[local] Instance counting : TokenBuckets := {|
  bucket := Z; new_bucket _ burst := burst;
  bucket_reserve _ b := ((true, if 0 <? b then 0 else second_ns * (1 - b)), b - 1); bucket_cancel _ _ b := b + 1 |}.
#[local] Instance counting_laws : TokenBucketsLaws.
Proof. intros rate burst now Hb. cbn. destruct (Z.ltb_spec 0 burst); [done|lia]. Qed.
#[local] Instance listed_order : MapOrder := fun A => map_to_list.
#[local] Instance listed_order_laws : MapOrderLaws.
Proof. intros A m. done. Qed.

Definition per_source : RateLimiterConfig.t := RateLimiterConfig.mk 1 1000 1 rateLimiterTypeSource ["SSH"; "SSH"] true 1 2.
Definition two_sources : rateLimiter.t :=
  (Wait (fun n => Z.of_nat n + 10) "10.0.0.2" (Wait Z.of_nat "10.0.0.1" (getLimiter per_source)).2).2.

Lemma rate_limiter_bounded_witness :
  let rl' := (Wait (fun n => Z.of_nat n + 20) "10.0.0.3" two_sources).2 in
  elements (dom (sourceBuckets.buckets (rateLimiter.buckets rl'))) = ["10.0.0.3"; "10.0.0.2"] ∧
  within_limits (rateLimiter.buckets rl').
Proof.
  intros rl'. split; [vm_compute; reflexivity|].
  apply (rate_limiter_bounded (fun n => Z.of_nat n + 20) "10.0.0.3" two_sources);
    [vm_compute; reflexivity|vm_compute; split; [split; reflexivity|discriminate]].
Defined.

Lemma concurrent_first_requests_pass_witness :
  interleaved_requests Z.of_nat "10.0.0.1" (getLimiter per_source) = [(true, 0); (true, 0)] ∧
  (Wait (fun n => Z.of_nat n + 3) "10.0.0.1" (Wait Z.of_nat "10.0.0.1" (getLimiter per_source)).2).1 = Exceeded second_ns true.
Proof.
  split; [|vm_compute; reflexivity].
  apply (concurrent_first_requests_pass Z.of_nat "10.0.0.1" (getLimiter per_source)); [vm_compute; discriminate|vm_compute; reflexivity].
Defined.
