(* ===== verification/TransfersChecker.v ===== *)
(** The check of concurrent transfers against the quotas
    (internal/common/transferschecker.go): the in-memory checker, the
    aggregation of the transfers by user and by folder, and the transfers to
    abort ([overquota_transfers_spec]).  The checker over a shared data provider
    differs only in where the transfers are kept. *)
From S2P Require Import Prelude FsConfig Entities Links Tables MemoryCore UserPerms MemoryQueries ConnData.
Open Scope Z_scope.

Module ActiveTransfer.
(* source: internal/dataprovider/dataprovider.go ActiveTransfer *)
Record t := mk {
  ID : Z; Type_ : Z; ConnID : string; Username : string; FolderName : string; IP : string; TruncatedSize : Z;
  CurrentULSize : Z; CurrentDLSize : Z; CreatedAt : Z; UpdatedAt : Z }.
#[global] Instance eta : Settable t := {| settable := fun x =>
  mk (ID x) (Type_ x) (ConnID x) (Username x) (FolderName x) (IP x) (TruncatedSize x) (CurrentULSize x) (CurrentDLSize x)
    (CreatedAt x) (UpdatedAt x) |}.
End ActiveTransfer.
Import ActiveTransfer (ID, Type_, ConnID, Username, FolderName, TruncatedSize, CurrentULSize, CurrentDLSize).
Notation transfer := ActiveTransfer.t.

Module OverquotaTransfer.
(* source: internal/common/transferschecker.go overquotaTransfer *)
Record t := mk { ConnID : string; TransferID : Z; TransferType : Z }.
End OverquotaTransfer.
Definition overquota (tr : transfer) : OverquotaTransfer.t := OverquotaTransfer.mk (ConnID tr) (ID tr) (Type_ tr).

(** * The transfers of the in-memory checker *)

Definition is_transfer (id : Z) (connectionID : string) (tr : transfer) : bool := (ID tr =? id) && (ConnID tr =s connectionID).

(* source: internal/common/transferschecker.go transfersCheckerMem.AddTransfer *)
Definition checker_AddTransfer (tr : transfer) (transfers : list transfer) : list transfer := transfers ++ [tr].
(* source: internal/common/transferschecker.go transfersCheckerMem.RemoveTransfer *)
Definition checker_RemoveTransfer (id : Z) (connectionID : string) (transfers : list transfer) : list transfer :=
  match list_find (fun tr => is_transfer id connectionID tr) transfers with
  | Some (idx, _) => swap_remove idx transfers
  | None => transfers
  end.
(* source: internal/common/transferschecker.go transfersCheckerMem.UpdateTransferCurrentSizes *)
Definition checker_UpdateTransferCurrentSizes (now ulSize dlSize id : Z) (connectionID : string) (transfers : list transfer)
    : list transfer :=
  match list_find (fun tr => is_transfer id connectionID tr) transfers with
  | Some (idx, tr) =>
      <[idx := tr <| ActiveTransfer.CurrentDLSize := dlSize |> <| ActiveTransfer.CurrentULSize := ulSize |>
                  <| ActiveTransfer.UpdatedAt := now |>]> transfers
  | None => transfers
  end.

(** * Limits *)

(* source: internal/common/transferschecker.go isDataTransferExceeded *)
Definition isDataTransferExceeded (user : User.t) (tr : transfer) (ulSize dlSize : Z) : bool :=
  let '(ulQuota, dlQuota, totalQuota) := GetDataTransferLimits user in
  let usedUL := User.UsedUploadDataTransfer user in
  let usedDL := User.UsedDownloadDataTransfer user in
  if (0 <? totalQuota) && (sub64 totalQuota (add64 usedUL usedDL) <? add64 ulSize dlSize)
  then (0 <? CurrentDLSize tr) || (0 <? CurrentULSize tr)
  else if (0 <? dlQuota) && (sub64 dlQuota usedDL <? dlSize) then 0 <? CurrentDLSize tr
  else if (0 <? ulQuota) && (sub64 ulQuota usedUL <? ulSize) then 0 <? CurrentULSize tr
  else false.

(* source: internal/common/transferschecker.go getRemainingDiskQuota *)
Definition getRemainingDiskQuota (user : User.t) (folderName : string) : res Z :=
  let none := Err (PlainError "no quota limit defined") in
  if negb (folderName =s "") then
    match list_find (fun folder => vfolder_Name folder = folderName ∧ 0 < VirtualFolder.QuotaSize folder) (User.VirtualFolders user) with
    | Some (_, folder) => Ok (sub64 (VirtualFolder.QuotaSize folder) (BaseVirtualFolder.UsedQuotaSize (VirtualFolder.Base folder)))
    | None => none
    end
  else if 0 <? User.QuotaSize user then Ok (sub64 (User.QuotaSize user) (User.UsedQuotaSize user))
  else none.

(** * Aggregations *)

Notation usersToFetch_t := (gmap string bool).
(** [if _, ok := usersToFetch[name]; !ok { usersToFetch[name] = false }] *)
Definition fetch_user (name : string) (m : usersToFetch_t) : usersToFetch_t := if m !! name is Some _ then m else <[name := false]> m.
(** [m[key] = append(m[key], tr)] *)
Definition append_to {K} `{Countable K} (key : K) (tr : transfer) (m : gmap K (list transfer)) : gmap K (list transfer) :=
  <[key := default [] (m !! key) ++ [tr]]> m.
Definition entries_of {K} `{Countable K} (m : gmap K (list transfer)) (key : K) : list transfer := default [] (m !! key).

Definition aggregate_by_user (s : usersToFetch_t * gmap string (list transfer)) (tr : transfer)
    : usersToFetch_t * gmap string (list transfer) :=
  let '(usersToFetch, aggregations) := s in
  let aggregations := append_to (Username tr) tr aggregations in
  (if (1 <? length (entries_of aggregations (Username tr)))%nat then fetch_user (Username tr) usersToFetch else usersToFetch, aggregations).
(* source: internal/common/transferschecker.go aggregateTransfersByUser *)
Definition aggregateTransfersByUser (transfers : list transfer) (usersToFetch : usersToFetch_t)
    : usersToFetch_t * gmap string (list transfer) := foldl aggregate_by_user (usersToFetch, ∅) transfers.

(* source: internal/common/transferschecker.go uploadAggregationKey *)
Notation uploadAggregationKey := (string * string)%type (only parsing).
Definition upload_key (tr : transfer) : uploadAggregationKey := (Username tr, FolderName tr).
Definition upload_state : Type := usersToFetch_t * gmap nat (list transfer) * list uploadAggregationKey.
Definition aggregate_upload (s : upload_state) (tr : transfer) : upload_state :=
  let '(usersToFetch, aggregations, keys) := s in
  if negb (Type_ tr =? TransferUpload) then s
  else
    let key := match list_find (fun k => k = upload_key tr) keys with Some (idx, _) => idx | None => length keys end in
    let aggregations := append_to key tr aggregations in
    (if (1 <? length (entries_of aggregations key))%nat then
       if negb (FolderName tr =s "") then <[Username tr := true]> usersToFetch else fetch_user (Username tr) usersToFetch
     else usersToFetch,
     aggregations, keys ++ [upload_key tr]).
(* source: internal/common/transferschecker.go aggregateUploadTransfers *)
Definition aggregateUploadTransfers (transfers : list transfer) : usersToFetch_t * gmap nat (list transfer) :=
  (foldl aggregate_upload (∅, ∅, []) transfers).1.

Section checker.
Variable range : gmap string (list string) → list (string * list string).
(** the orders of the loops over the two maps *)
Variable range_uploads : gmap nat (list transfer) → list (nat * list transfer).
Variable range_users : gmap string (list transfer) → list (string * list transfer).
Hypothesis range_uploads_perm : ∀ m, range_uploads m ≡ₚ map_to_list m.
Hypothesis range_users_perm : ∀ m, range_users m ≡ₚ map_to_list m.

(* source: internal/common/transferschecker.go getUsersToCheck *)
Definition getUsersToCheck (usersToFetch : usersToFetch_t) (h : DB.t) : res (gmap string User.t) :=
  users ← getUsersForQuotaCheck range usersToFetch h;
  Ok (foldl (fun m u => <[User.Username u := u]> m) ∅ users).

Definition sum64 (f : transfer → Z) (l : list transfer) : Z := foldl (fun acc tr => add64 acc (f tr)) 0 l.
Definition upload_growth (tr : transfer) : Z := sub64 (CurrentULSize tr) (TruncatedSize tr).
Definition user_of (users : gmap string User.t) (name : string) : User.t := default User.zero (users !! name).

(** the uploads to abort of one user and folder *)
Definition over_disk_quota (users : gmap string User.t) (transfers : list transfer) : list transfer :=
  match transfers with
  | [] => []
  | tr0 :: _ =>
      match getRemainingDiskQuota (user_of users (Username tr0)) (FolderName tr0) with
      | Err _ => []
      | Ok remaining =>
          if remaining <? sum64 upload_growth transfers
          then List.filter (fun tr => TruncatedSize tr <? CurrentULSize tr) transfers else []
      end
  end.
(** the transfers to abort of one user *)
Definition over_data_quota (users : gmap string User.t) (username : string) (transfers : list transfer) : list transfer :=
  List.filter (fun tr => isDataTransferExceeded (user_of users username) tr (sum64 CurrentULSize transfers) (sum64 CurrentDLSize transfers))
    transfers.

(* source: internal/common/transferschecker.go getOverquotaTransfers *)
Definition getOverquotaTransfers (usersToFetch : usersToFetch_t) (uploadAggregations : gmap nat (list transfer))
    (userAggregations : gmap string (list transfer)) (h : DB.t) : list OverquotaTransfer.t :=
  if (size usersToFetch =? 0)%nat then []
  else match getUsersToCheck usersToFetch h with
       | Err _ => []
       | Ok users =>
           overquota <$> (mjoin ((fun '(_, l) => over_disk_quota users l) <$> range_uploads uploadAggregations) ++
                          mjoin ((fun '(name, l) => over_data_quota users name l) <$> range_users userAggregations))
       end.

(* source: internal/common/transferschecker.go transfersCheckerMem.GetOverquotaTransfers *)
Definition GetOverquotaTransfers (transfers : list transfer) (h : DB.t) : list OverquotaTransfer.t :=
  let '(usersToFetch, uploadAggregations) := aggregateUploadTransfers transfers in
  let '(usersToFetch, userAggregations) := aggregateTransfersByUser transfers usersToFetch in
  getOverquotaTransfers usersToFetch uploadAggregations userAggregations h.

(** * Specification *)

Implicit Types (ts : list transfer) (tr : transfer).

Definition of_user (name : string) ts : list transfer := filter (fun tr => Username tr = name) ts.
Definition uploads_to (k : string * string) ts : list transfer :=
  filter (fun tr => Type_ tr = TransferUpload ∧ upload_key tr = k) ts.

Lemma of_user_snoc name ts tr : of_user name (ts ++ [tr]) = of_user name ts ++ (if decide (Username tr = name) then [tr] else []).
Proof. unfold of_user. rewrite filter_app, filter_cons, filter_nil. by case_decide. Qed.
Lemma uploads_to_snoc k ts tr : uploads_to k (ts ++ [tr]) =
  uploads_to k ts ++ (if decide (Type_ tr = TransferUpload ∧ upload_key tr = k) then [tr] else []).
Proof. unfold uploads_to. rewrite filter_app, filter_cons, filter_nil. by case_decide. Qed.

(** the transfers by user *)
Lemma aggregateTransfersByUser_spec ts fetch0 : ∀ fetch agg, aggregateTransfersByUser ts fetch0 = (fetch, agg) →
  (∀ name, agg !! name = if decide (of_user name ts = []) then None else Some (of_user name ts)) ∧
  (∀ name, fetch !! name = if decide (fetch0 !! name = None ∧ (1 < length (of_user name ts))%nat) then Some false else fetch0 !! name).
Proof.
  unfold aggregateTransfersByUser. induction ts as [|tr ts IH] using rev_ind; intros fetch agg.
  { intros [= <- <-]. split; intros name; [done|]. rewrite decide_False; [done|]. cbn. lia. }
  rewrite foldl_snoc. destruct (foldl _ _ ts) as [f a]. destruct (IH f a eq_refl) as [Ha Hf]. cbn [aggregate_by_user].
  assert (entries_of (append_to (Username tr) tr a) (Username tr) = of_user (Username tr) (ts ++ [tr])) as He.
  { unfold entries_of, append_to. rewrite lookup_insert_eq, Ha, of_user_snoc, (decide_True (P := Username tr = Username tr)) by done. cbn.
    case_decide as Hn; [by rewrite Hn|done]. }
  rewrite He. intros [= <- <-]. split; intros name.
  - unfold append_to. destruct (decide (name = Username tr)) as [->|Hne].
    + rewrite lookup_insert_eq, Ha, of_user_snoc, (decide_True (P := Username tr = Username tr)) by done.
      rewrite (decide_False (P := _ ++ [tr] = [])); [|by intros [_ ?]%app_nil]. case_decide as Hn; [by rewrite Hn|done].
    + rewrite lookup_insert_ne, Ha, of_user_snoc, (decide_False (P := Username tr = name)) by done. by rewrite app_nil_r.
  - assert (name ≠ Username tr → of_user name (ts ++ [tr]) = of_user name ts) as Hother.
    { intros Hne. rewrite of_user_snoc, decide_False by done. by rewrite app_nil_r. }
    assert (length (of_user (Username tr) (ts ++ [tr])) = S (length (of_user (Username tr) ts))) as Hlen.
    { rewrite of_user_snoc, (decide_True (P := Username tr = Username tr)), length_app by done. cbn. lia. }
    unfold fetch_user. destruct (Nat.ltb_spec 1 (length (of_user (Username tr) (ts ++ [tr])))) as [Hgt|Hle].
    + destruct (decide (name = Username tr)) as [->|Hne].
      * destruct (f !! Username tr) eqn:Hft.
        -- rewrite Hft. rewrite Hf in Hft. repeat case_decide; naive_solver.
        -- rewrite lookup_insert_eq. rewrite Hf in Hft. repeat case_decide; naive_solver.
      * rewrite (Hother Hne). destruct (f !! Username tr); [|rewrite lookup_insert_ne by done]; apply Hf.
    + rewrite Hf. destruct (decide (name = Username tr)) as [->|Hne]; [|by rewrite Hother]. repeat case_decide; naive_solver lia.
Qed.

(** the uploads by user and folder: a group is kept at the index of the first
    of its keys *)
Definition slot (k : string * string) (keys : list (string * string)) : option nat := fst <$> list_find (fun k' => k' = k) keys.

Lemma slot_snoc k k0 keys : slot k (keys ++ [k0]) =
  match slot k keys with Some i => Some i | None => if decide (k0 = k) then Some (length keys) else None end.
Proof.
  unfold slot. destruct (list_find (fun k' => k' = k) keys) as [[i x]|] eqn:Hf; cbn.
  - by erewrite list_find_app_l.
  - rewrite list_find_app_r by done. cbn. by case_decide.
Qed.
Lemma slot_lookup k keys i : slot k keys = Some i → keys !! i = Some k.
Proof. unfold slot. destruct (list_find _ keys) as [[j x]|] eqn:Hf; [|done]. intros [= <-]. by apply list_find_Some in Hf as (? & -> & _). Qed.
Lemma slot_inj k k' keys i : slot k keys = Some i → slot k' keys = Some i → k = k'.
Proof. intros H%slot_lookup H'%slot_lookup. congruence. Qed.
Lemma slot_bound k keys i : slot k keys = Some i → (i < length keys)%nat.
Proof. intros H%slot_lookup. by eapply lookup_lt_Some. Qed.

Definition upload_groups (ts : list transfer) (a : gmap nat (list transfer)) (keys : list (string * string)) : Prop :=
  (∀ k, slot k keys = None → uploads_to k ts = []) ∧
  (∀ k i, slot k keys = Some i → a !! i = Some (uploads_to k ts)) ∧
  (∀ i l, a !! i = Some l → ∃ k, slot k keys = Some i ∧ l = uploads_to k ts).
Definition folders_fetched (ts : list transfer) (fetch : usersToFetch_t) : Prop :=
  (∀ name, fetch !! name = Some true ↔ ∃ folder, folder ≠ "" ∧ (1 < length (uploads_to (name, folder) ts))%nat) ∧
  (∀ name, fetch !! name = None ↔ ∀ folder, (length (uploads_to (name, folder) ts) ≤ 1)%nat).

Lemma aggregate_entries ts a keys tr : Type_ tr = TransferUpload → upload_groups ts a keys →
  entries_of (append_to (default (length keys) (slot (upload_key tr) keys)) tr a) (default (length keys) (slot (upload_key tr) keys))
    = uploads_to (upload_key tr) (ts ++ [tr]).
Proof.
  intros Ht (H1 & H2 & H3). unfold entries_of, append_to. rewrite lookup_insert_eq, uploads_to_snoc. cbn.
  rewrite (decide_True (P := _ ∧ _)) by done. f_equal. destruct (slot (upload_key tr) keys) as [i|] eqn:Hs; cbn.
  - by rewrite (H2 _ _ Hs).
  - rewrite (H1 _ Hs). destruct (a !! length keys) as [l|] eqn:Hl; [|done].
    destruct (H3 _ _ Hl) as (k & Hk%slot_bound & _). lia.
Qed.
Lemma upload_groups_step ts a keys tr : Type_ tr = TransferUpload → upload_groups ts a keys →
  upload_groups (ts ++ [tr]) (append_to (default (length keys) (slot (upload_key tr) keys)) tr a) (keys ++ [upload_key tr]).
Proof.
  intros Ht H. pose proof (aggregate_entries ts a keys tr Ht H) as He. destruct H as (H1 & H2 & H3).
  set (key := default _ _) in *. assert (slot (upload_key tr) (keys ++ [upload_key tr]) = Some key) as Hkey.
  { rewrite slot_snoc. unfold key. destruct (slot _ _); [done|]. by rewrite decide_True. }
  unfold entries_of in He. unfold append_to in *. rewrite lookup_insert_eq in He. cbn in He.
  assert (∀ k, k ≠ upload_key tr → uploads_to k (ts ++ [tr]) = uploads_to k ts ∧ slot k (keys ++ [upload_key tr]) = slot k keys) as Hother.
  { intros k Hne. rewrite uploads_to_snoc, slot_snoc, !decide_False by naive_solver. rewrite app_nil_r. split; [done|]. by destruct (slot k keys). }
  split; [|split].
  - intros k Hk. destruct (decide (k = upload_key tr)) as [->|Hne]; [congruence|].
    destruct (Hother k Hne) as [-> Hs]. apply H1. by rewrite <- Hs.
  - intros k i Hk. destruct (decide (k = upload_key tr)) as [->|Hne].
    + assert (i = key) as -> by congruence. by rewrite lookup_insert_eq, <- He.
    + rewrite lookup_insert_ne by (intros <-; apply Hne; by eapply slot_inj). destruct (Hother k Hne) as [-> Hs]. apply H2. by rewrite <- Hs.
  - intros i l Hl. destruct (decide (i = key)) as [->|Hne].
    + rewrite lookup_insert_eq in Hl. exists (upload_key tr). split; [done|]. injection Hl as <-. by rewrite <- He.
    + rewrite lookup_insert_ne in Hl by done. destruct (H3 _ _ Hl) as (k & Hs & ->). exists k.
      assert (k ≠ upload_key tr) as Hk by (intros ->; apply Hne; unfold key; by rewrite Hs).
      destruct (Hother k Hk) as [-> ->]. done.
Qed.

Lemma folders_fetched_step ts fetch tr : Type_ tr = TransferUpload → folders_fetched ts fetch →
  folders_fetched (ts ++ [tr])
    (if (1 <? length (uploads_to (upload_key tr) (ts ++ [tr])))%nat then
       if negb (FolderName tr =s "") then <[Username tr := true]> fetch else fetch_user (Username tr) fetch
     else fetch).
Proof.
  intros Ht [H1 H2].
  assert (∀ name folder, length (uploads_to (name, folder) (ts ++ [tr])) =
    (length (uploads_to (name, folder) ts) + if decide (upload_key tr = (name, folder)) then 1 else 0)%nat) as Hlen.
  { intros name folder. rewrite uploads_to_snoc, length_app. repeat case_decide; naive_solver. }
  unfold upload_key in *. rewrite Hlen, decide_True by done.
  destruct (Nat.ltb_spec 1 (length (uploads_to (Username tr, FolderName tr) ts) + 1)) as [Hgt|Hle].
  - destruct (String.eqb_spec (FolderName tr) "") as [Hf|Hf]; cbn [negb].
    + split; intros name; unfold fetch_user.
      * transitivity (fetch !! name = Some true).
        { destruct (fetch !! Username tr) eqn:Hu; [done|]. destruct (decide (name = Username tr)) as [->|];
            [rewrite lookup_insert_eq, Hu|rewrite lookup_insert_ne by done]; done. }
        rewrite H1. split; intros (folder & Hne & Hl); exists folder; (split; [done|]); specialize (Hlen name folder);
          case_decide; [congruence|lia|congruence|lia].
      * transitivity (fetch !! name = None ∧ name ≠ Username tr).
        { destruct (fetch !! Username tr) eqn:Hu; [split; [intros ?; split; [done|congruence]|tauto]|].
          destruct (decide (name = Username tr)) as [->|]; [rewrite lookup_insert_eq|rewrite lookup_insert_ne by done]; naive_solver. }
        rewrite H2. split.
        -- intros [Hl Hne] folder. rewrite Hlen, decide_False by congruence. specialize (Hl folder). lia.
        -- intros Hl. split; [intros folder; specialize (Hl folder); rewrite Hlen in Hl; lia|].
           intros ->. specialize (Hl (FolderName tr)). rewrite Hlen, decide_True in Hl by done. lia.
    + split; intros name; (destruct (decide (name = Username tr)) as [->|Hne]; [rewrite lookup_insert_eq|rewrite lookup_insert_ne by done]).
      * split; [|done]. intros _. exists (FolderName tr). split; [done|]. rewrite Hlen, decide_True by done. lia.
      * rewrite H1. split; intros (folder & Hf' & Hl); exists folder; (split; [done|]); specialize (Hlen name folder);
          case_decide; [congruence|lia|congruence|lia].
      * split; [done|]. intros Hl. specialize (Hl (FolderName tr)). rewrite Hlen, decide_True in Hl by done. lia.
      * rewrite H2. split; intros Hl folder; specialize (Hl folder); specialize (Hlen name folder); case_decide; [congruence|lia|congruence|lia].
  - split; intros name.
    + rewrite H1. split; intros (folder & Hne & Hl); exists folder; (split; [done|]); specialize (Hlen name folder); case_decide; simplify_eq; lia.
    + rewrite H2. split; intros Hl folder; specialize (Hl folder); specialize (Hlen name folder); case_decide; simplify_eq; lia.
Qed.

Lemma uploads_other ts tr k : Type_ tr ≠ TransferUpload → uploads_to k (ts ++ [tr]) = uploads_to k ts.
Proof. intros H. rewrite uploads_to_snoc, decide_False by naive_solver. apply app_nil_r. Qed.

Lemma aggregateUploadTransfers_spec ts : ∀ fetch a, aggregateUploadTransfers ts = (fetch, a) →
  folders_fetched ts fetch ∧ ∃ keys, upload_groups ts a keys.
Proof.
  unfold aggregateUploadTransfers. intros fetch a H.
  destruct (foldl aggregate_upload (∅, ∅, []) ts) as [[f a'] keys] eqn:E. injection H as -> ->.
  enough (folders_fetched ts fetch ∧ upload_groups ts a keys) by naive_solver.
  revert fetch a keys E. induction ts as [|tr ts IH] using rev_ind; intros fetch a keys.
  { intros [= <- <- <-]. split; [|by split_and!]. split; intros name; [|split; [cbn; lia|done]]. split; [done|].
    intros (folder & _ & Hl). cbn in Hl. lia. }
  rewrite foldl_snoc. destruct (foldl _ _ ts) as [[f0 a0] keys0]. destruct (IH f0 a0 keys0 eq_refl) as [Hf Hg]. cbn [aggregate_upload].
  destruct (Z.eqb_spec (Type_ tr) TransferUpload) as [Ht|Ht]; cbn [negb].
  - assert (match list_find (fun k => k = upload_key tr) keys0 with Some (idx, _) => idx | None => length keys0 end
      = default (length keys0) (slot (upload_key tr) keys0)) as Hk by (unfold slot; by destruct (list_find _ keys0) as [[??]|]).
    rewrite Hk, (aggregate_entries ts) by done. intros [= <- <- <-].
    split; [by apply folders_fetched_step|by apply upload_groups_step].
  - intros [= <- <- <-]. destruct Hf as [F1 F2], Hg as (G1 & G2 & G3).
    split; [split|split_and!]; setoid_rewrite uploads_other; done.
Qed.

(** * The transfers to abort *)

(** the names of the users to look up, and whether with their folders *)
Definition users_to_fetch (ts : list transfer) : usersToFetch_t :=
  (aggregateTransfersByUser ts (aggregateUploadTransfers ts).1).1.

(** what is left, as the code computes it *)
Definition over_disk (users : gmap string User.t) ts tr : Prop :=
  Type_ tr = TransferUpload ∧ TruncatedSize tr < CurrentULSize tr ∧
  ∃ remaining, getRemainingDiskQuota (user_of users (Username tr)) (FolderName tr) = Ok remaining ∧
    remaining < sum64 upload_growth (uploads_to (upload_key tr) ts).
Definition over_data (users : gmap string User.t) ts tr : Prop :=
  isDataTransferExceeded (user_of users (Username tr)) tr (sum64 CurrentULSize (of_user (Username tr) ts))
    (sum64 CurrentDLSize (of_user (Username tr) ts)) = true.

Lemma elem_of_List_filter {A} (f : A → bool) (l : list A) x : x ∈ List.filter f l ↔ f x = true ∧ x ∈ l.
Proof. rewrite !list_elem_of_In, List.filter_In. tauto. Qed.

Lemma over_disk_quota_elem users ts k tr : tr ∈ over_disk_quota users (uploads_to k ts) ↔
  tr ∈ ts ∧ upload_key tr = k ∧ over_disk users ts tr.
Proof.
  unfold over_disk. destruct (uploads_to k ts) as [|tr0 l] eqn:Hu.
  - cbn. split; [by intros ?%elem_of_nil|]. intros (Hin & <- & Ht & _).
    assert (tr ∈ uploads_to (upload_key tr) ts) as H by (by apply list_elem_of_filter). rewrite Hu in H. by apply elem_of_nil in H.
  - assert (tr0 ∈ uploads_to k ts) as Hin0 by (rewrite Hu; by left). apply list_elem_of_filter in Hin0 as [[_ Hk0] _].
    unfold over_disk_quota. rewrite <- Hu.
    assert (∀ x, x ∈ uploads_to k ts ↔ x ∈ ts ∧ Type_ x = TransferUpload ∧ upload_key x = k) as Hmem.
    { intros x. unfold uploads_to. rewrite list_elem_of_filter. tauto. }
    assert (∀ x, upload_key x = k → Username x = Username tr0 ∧ FolderName x = FolderName tr0) as Hkey.
    { intros x Hx. rewrite <- Hk0 in Hx. unfold upload_key in Hx. by injection Hx. }
    destruct (getRemainingDiskQuota (user_of users (Username tr0)) (FolderName tr0)) as [r|e] eqn:Hr.
    + destruct (Z.ltb_spec r (sum64 upload_growth (uploads_to k ts))) as [Hlt|Hge].
      * rewrite elem_of_List_filter, Hmem, Z.ltb_lt. split.
        -- intros (Hg & Hin & Ht & Hk). destruct (Hkey _ Hk) as [Eu Ef]. split_and!; try done. exists r. by rewrite Eu, Ef, Hk.
        -- intros (Hin & Hk & Ht & Hg & _). done.
      * split; [by intros ?%elem_of_nil|]. intros (Hin & Hk & Ht & Hg & r' & Hr' & Hlt). destruct (Hkey _ Hk) as [Eu Ef].
        rewrite Eu, Ef, Hr in Hr'. injection Hr' as <-. rewrite Hk in Hlt. lia.
    + split; [by intros ?%elem_of_nil|]. intros (Hin & Hk & Ht & Hg & r' & Hr' & _). destruct (Hkey _ Hk) as [Eu Ef].
      by rewrite Eu, Ef, Hr in Hr'.
Qed.
Lemma over_data_quota_elem users ts name tr : tr ∈ over_data_quota users name (of_user name ts) ↔
  tr ∈ ts ∧ Username tr = name ∧ over_data users ts tr.
Proof.
  unfold over_data_quota, over_data, of_user. rewrite elem_of_List_filter, list_elem_of_filter.
  split; [intros (H & <- & Hin)|intros (Hin & <- & H)]; done.
Qed.

(** the loops over the two maps visit the groups of all the transfers *)
Lemma elem_of_uploads ts users a keys tr : upload_groups ts a keys →
  tr ∈ mjoin ((fun '(_, l) => over_disk_quota users l) <$> range_uploads a) ↔ tr ∈ ts ∧ over_disk users ts tr.
Proof.
  intros (G1 & G2 & G3). rewrite list_elem_of_join. split.
  - intros (l & Htr & Hl). apply list_elem_of_fmap in Hl as ([i l'] & -> & Hin). rewrite range_uploads_perm, elem_of_map_to_list in Hin.
    destruct (G3 _ _ Hin) as (k & _ & ->). apply over_disk_quota_elem in Htr. tauto.
  - intros [Hin Hex]. set (k := upload_key tr).
    assert (tr ∈ over_disk_quota users (uploads_to k ts)) as Htr by (by apply over_disk_quota_elem).
    exists (over_disk_quota users (uploads_to k ts)). split; [done|]. destruct (slot k keys) as [i|] eqn:Hs.
    + apply list_elem_of_fmap. exists (i, uploads_to k ts). split; [done|]. rewrite range_uploads_perm, elem_of_map_to_list. by apply G2.
    + rewrite (G1 _ Hs) in Htr. by apply elem_of_nil in Htr.
Qed.
Lemma elem_of_users ts users (agg : gmap string (list transfer)) tr :
  (∀ name, agg !! name = if decide (of_user name ts = []) then None else Some (of_user name ts)) →
  tr ∈ mjoin ((fun '(name, l) => over_data_quota users name l) <$> range_users agg) ↔ tr ∈ ts ∧ over_data users ts tr.
Proof.
  intros Ha. rewrite list_elem_of_join. split.
  - intros (l & Htr & Hl). apply list_elem_of_fmap in Hl as ([name l'] & -> & Hin). rewrite range_users_perm, elem_of_map_to_list, Ha in Hin.
    case_decide; [done|]. injection Hin as <-. apply over_data_quota_elem in Htr. tauto.
  - intros [Hin Hex].
    assert (tr ∈ over_data_quota users (Username tr) (of_user (Username tr) ts)) as Htr by (by apply over_data_quota_elem).
    eexists. split; [exact Htr|]. apply list_elem_of_fmap. exists (Username tr, of_user (Username tr) ts). split; [done|].
    rewrite range_users_perm, elem_of_map_to_list, Ha, decide_False; [done|].
    intros Hn. rewrite Hn in Htr. cbn in Htr. by apply elem_of_nil in Htr.
Qed.

Lemma no_limit_disk users ts tr : users = ∅ → ¬ over_disk users ts tr.
Proof. intros -> (_ & _ & r & Hr & _). unfold getRemainingDiskQuota, user_of in Hr. rewrite lookup_empty in Hr. by destruct (negb _). Qed.
Lemma no_limit_data users ts tr : users = ∅ → ¬ over_data users ts tr.
Proof. intros -> H. unfold over_data, user_of in H. by rewrite lookup_empty in H. Qed.
Lemma omap_none {A B} (f : A → option B) l : (∀ x, f x = None) → omap f l = [].
Proof. intros H. induction l as [|x l IH]; [done|]. simpl. by rewrite H. Qed.
Lemma getUsersToCheck_none h users : getUsersToCheck ∅ h = Ok users → users = ∅.
Proof.
  unfold getUsersToCheck, getUsersForQuotaCheck, when_open. destruct (DB.isClosed h); [done|].
  rewrite omap_none by (intros x; by rewrite lookup_empty). by intros [= <-].
Qed.

Lemma length_filter_le {A} (P Q : A → Prop) `{!∀ x, Decision (P x), !∀ x, Decision (Q x)} (l : list A) :
  (∀ x, P x → Q x) → (length (filter P l) ≤ length (filter Q l))%nat.
Proof. intros HPQ. induction l as [|x l IH]; [done|]. rewrite !filter_cons. case_decide; case_decide; cbn; [lia|exfalso; by auto|lia|done]. Qed.

(** ** What the limits mean *)

Fixpoint total (f : transfer → Z) ts : Z := match ts with [] => 0 | tr :: ts => f tr + total f ts end.
(** the quota that limits the uploads to a folder, or those outside of the
    folders: that of the first folder of that name with a quota, or of the user *)
Definition disk_limit (u : User.t) (folder : string) (limit used : Z) : Prop :=
  0 < limit ∧
  ((folder = "" ∧ limit = User.QuotaSize u ∧ used = User.UsedQuotaSize u) ∨
   (folder ≠ "" ∧ ∃ i v, User.VirtualFolders u !! i = Some v ∧ vfolder_Name v = folder ∧ limit = VirtualFolder.QuotaSize v ∧
      used = BaseVirtualFolder.UsedQuotaSize (VirtualFolder.Base v) ∧
      ∀ j w, User.VirtualFolders u !! j = Some w → (j < i)%nat → vfolder_Name w = folder → VirtualFolder.QuotaSize w <= 0)).
(** The upload has grown, and the uploads that share its quota have grown
    together by more than what is left of it. *)
Definition exceeds_disk_quota (users : gmap string User.t) ts tr : Prop :=
  Type_ tr = TransferUpload ∧ TruncatedSize tr < CurrentULSize tr ∧
  ∃ limit used, disk_limit (user_of users (Username tr)) (FolderName tr) limit used ∧
    limit < used + total (fun tr => CurrentULSize tr - TruncatedSize tr) (uploads_to (upload_key tr) ts).
(** a limit in MB, which none is when it is not positive, with what is used *)
Definition over_MB (limit used : Z) : Prop := 0 < limit ∧ limit * 1048576 < used.
(** The transfers of the user have moved together more than a limit allows, and
    this one has moved something that counts for it.  Only the first limit that
    is exceeded counts, in the order total, downloads, uploads. *)
Definition exceeds_data_quota (users : gmap string User.t) ts tr : Prop :=
  let u := user_of users (Username tr) in
  let up := User.UsedUploadDataTransfer u + total CurrentULSize (of_user (Username tr) ts) in
  let down := User.UsedDownloadDataTransfer u + total CurrentDLSize (of_user (Username tr) ts) in
  let over_total := over_MB (User.TotalDataTransfer u) (up + down) in
  let over_down := over_MB (User.DownloadDataTransfer u) down in
  (over_total ∧ (0 < CurrentDLSize tr ∨ 0 < CurrentULSize tr)) ∨
  (¬ over_total ∧ over_down ∧ 0 < CurrentDLSize tr) ∨
  (¬ over_total ∧ ¬ over_down ∧ over_MB (User.UploadDataTransfer u) up ∧ 0 < CurrentULSize tr).

(** sizes up to 2^60 bytes *)
Definition size_ok (z : Z) : Prop := 0 <= z <= 2 ^ 60.
Definition sizes_ok (users : gmap string User.t) ts : Prop :=
  (∀ tr, tr ∈ ts → 0 <= CurrentULSize tr ∧ 0 <= CurrentDLSize tr ∧ 0 <= TruncatedSize tr) ∧
  total (fun tr => CurrentULSize tr + CurrentDLSize tr + TruncatedSize tr) ts <= 2 ^ 60 ∧
  ∀ name u, users !! name = Some u →
    size_ok (User.QuotaSize u) ∧ size_ok (User.UsedQuotaSize u) ∧ size_ok (User.UsedUploadDataTransfer u) ∧
    size_ok (User.UsedDownloadDataTransfer u) ∧ User.UploadDataTransfer u <= 2 ^ 40 ∧ User.DownloadDataTransfer u <= 2 ^ 40 ∧
    User.TotalDataTransfer u <= 2 ^ 40 ∧
    ∀ v, v ∈ User.VirtualFolders u →
      VirtualFolder.QuotaSize v <= 2 ^ 60 ∧ size_ok (BaseVirtualFolder.UsedQuotaSize (VirtualFolder.Base v)).

Lemma total_mono (f g : transfer → Z) ts : (∀ tr, tr ∈ ts → f tr <= g tr) → total f ts <= total g ts.
Proof.
  induction ts as [|tr ts IH]; intros H; [done|]. cbn. pose proof (H tr ltac:(by left)).
  specialize (IH ltac:(intros x ?; apply H; by right)). lia.
Qed.
Lemma total_nonneg (f : transfer → Z) ts : (∀ tr, tr ∈ ts → 0 <= f tr) → 0 <= total f ts.
Proof. intros H. induction ts as [|tr ts IH]; [done|]. cbn. pose proof (H tr ltac:(by left)). specialize (IH ltac:(intros x ?; apply H; by right)). lia. Qed.
Lemma total_filter (P : transfer → Prop) `{!∀ x, Decision (P x)} (f : transfer → Z) ts : (∀ tr, tr ∈ ts → 0 <= f tr) →
  total f (filter P ts) <= total f ts.
Proof.
  intros Hf. induction ts as [|tr ts IH]; [done|]. rewrite filter_cons. pose proof (Hf tr ltac:(by left)).
  specialize (IH ltac:(intros x ?; apply Hf; by right)). case_decide; cbn; lia.
Qed.
Lemma sum64_ext (f g : transfer → Z) ts : (∀ tr, tr ∈ ts → f tr = g tr) → sum64 f ts = sum64 g ts.
Proof.
  unfold sum64. generalize 0. induction ts as [|tr ts IH]; intros acc Hfg; [done|]. cbn. rewrite Hfg by (by left).
  apply IH. intros x Hx. apply Hfg. by right.
Qed.
Lemma total_elem (f : transfer → Z) ts tr : (∀ tr, tr ∈ ts → 0 <= f tr) → tr ∈ ts → f tr <= total f ts.
Proof.
  intros Hf Hin. apply list_elem_of_split in Hin as (l1 & l2 & ->).
  assert (total f (l1 ++ tr :: l2) = total f l1 + (f tr + total f l2)) as -> by (clear Hf; induction l1 as [|x l IH]; cbn in *; lia).
  assert (0 <= total f l1) by (apply total_nonneg; intros x Hx; apply Hf; set_solver).
  assert (0 <= total f l2) by (apply total_nonneg; intros x Hx; apply Hf; set_solver). lia.
Qed.
(** no sum wraps around when the absolute values add up to a width of 60 bits *)
Lemma sum64_total (f g : transfer → Z) ts : (∀ tr, tr ∈ ts → Z.abs (f tr) <= g tr) → total g ts <= 2 ^ 60 → sum64 f ts = total f ts.
Proof.
  intros Hfg Hg. unfold sum64.
  enough (∀ acc, Z.abs acc + total g ts <= 2 ^ 60 → foldl (fun acc tr => add64 acc (f tr)) acc ts = acc + total f ts) as Hgo by (rewrite Hgo; cbn; lia).
  clear Hg. induction ts as [|tr ts IH]; intros acc Hacc; cbn in *; [lia|].
  pose proof (Hfg tr ltac:(by left)).
  assert (0 <= total g ts) by (apply total_nonneg; intros x Hx; specialize (Hfg x ltac:(by right)); lia).
  rewrite IH; [|intros x Hx; apply Hfg; by right|];
    unfold add64; rewrite wrap64_id by (unfold in_int64, MinInt64, MaxInt64; lia); lia.
Qed.
Lemma sum64_sizes users ts (P : transfer → Prop) `{!∀ x, Decision (P x)} (f : transfer → Z) : sizes_ok users ts →
  (∀ tr, tr ∈ ts → Z.abs (f tr) <= CurrentULSize tr + CurrentDLSize tr + TruncatedSize tr) →
  sum64 f (filter P ts) = total f (filter P ts) ∧ Z.abs (total f (filter P ts)) <= 2 ^ 60.
Proof.
  intros (Hpos & Hsum & _) Hf. set (g tr := CurrentULSize tr + CurrentDLSize tr + TruncatedSize tr).
  assert (∀ tr, tr ∈ filter P ts → Z.abs (f tr) <= g tr) as Hfg by (intros tr [_ Hin]%list_elem_of_filter; by apply Hf).
  assert (total g (filter P ts) <= 2 ^ 60) as Hle.
  { etrans; [|exact Hsum]. apply total_filter. intros tr Htr. specialize (Hpos tr Htr). unfold g. lia. }
  split; [by apply (sum64_total f g)|].
  assert (total f (filter P ts) <= total g (filter P ts)) by (apply total_mono; intros x Hx; specialize (Hfg x Hx); lia).
  assert (total (fun tr => - f tr) (filter P ts) <= total g (filter P ts)) by (apply total_mono; intros x Hx; specialize (Hfg x Hx); lia).
  assert (∀ l, total (fun tr => - f tr) l = - total f l) as Hneg by (induction l as [|x l IH]; cbn; lia). rewrite Hneg in *. lia.
Qed.
Lemma user_of_ok users ts name : sizes_ok users ts → let u := user_of users name in
  size_ok (User.QuotaSize u) ∧ size_ok (User.UsedQuotaSize u) ∧ size_ok (User.UsedUploadDataTransfer u) ∧
  size_ok (User.UsedDownloadDataTransfer u) ∧ User.UploadDataTransfer u <= 2 ^ 40 ∧ User.DownloadDataTransfer u <= 2 ^ 40 ∧
  User.TotalDataTransfer u <= 2 ^ 40 ∧
  ∀ v, v ∈ User.VirtualFolders u →
    VirtualFolder.QuotaSize v <= 2 ^ 60 ∧ size_ok (BaseVirtualFolder.UsedQuotaSize (VirtualFolder.Base v)).
Proof.
  intros (_ & _ & H). cbn zeta. unfold user_of. destruct (users !! name) as [u|] eqn:Hu; [by apply (H name)|].
  assert (size_ok 0) as H0 by (unfold size_ok; lia). split_and!; [exact H0..| | | |by intros v ?%elem_of_nil]; change (0 <= 2 ^ 40); lia.
Qed.

Lemma remaining_disk u folder : size_ok (User.QuotaSize u) → size_ok (User.UsedQuotaSize u) →
  (∀ v, v ∈ User.VirtualFolders u → VirtualFolder.QuotaSize v <= 2 ^ 60 ∧ size_ok (BaseVirtualFolder.UsedQuotaSize (VirtualFolder.Base v))) →
  ∀ r, getRemainingDiskQuota u folder = Ok r ↔ ∃ limit used, disk_limit u folder limit used ∧ r = limit - used.
Proof.
  intros Hq Hused Hv r. unfold getRemainingDiskQuota, disk_limit, sub64, size_ok in *.
  destruct (String.eqb_spec folder "") as [->|Hne]; cbn [negb].
  - destruct (Z.ltb_spec 0 (User.QuotaSize u)) as [Hlt|Hge].
    + rewrite wrap64_id by (unfold in_int64, MinInt64, MaxInt64; lia). split.
      * intros [= <-]. eexists _, _. split; [|done]. split; [|by left]. done.
      * intros (limit & used & (_ & [(_ & -> & ->)|[? _]]) & ->); done.
    + split; [done|]. intros (limit & used & (Hl & [(_ & -> & ->)|[? _]]) & _); [lia|done].
  - destruct (list_find _ _) as [[i v]|] eqn:Hf.
    + apply list_find_Some in Hf as (Hi & [Hn Hpos] & Hfirst). destruct (Hv v) as [Hlim Hu]; [by eapply list_elem_of_lookup_2|].
      rewrite wrap64_id by (unfold in_int64, MinInt64, MaxInt64; lia). split.
      * intros [= <-]. eexists _, _. split; [|done]. split; [done|]. right. split; [done|]. exists i, v. split_and!; try done.
        intros j w Hj Hlt Hnw. specialize (Hfirst j w Hj Hlt). apply not_and_l in Hfirst as [?|?]; [done|lia].
      * intros (limit & used & (Hl & [(? & _)|(_ & i' & v' & Hi' & Hn' & -> & -> & Hfirst')]) & ->); [done|].
        assert (i = i') as <-; [|by simplify_eq]. destruct (Nat.lt_trichotomy i i') as [Hlt|[->|Hlt]]; [|done|].
        -- specialize (Hfirst' i v Hi Hlt Hn). lia.
        -- exfalso. by apply (Hfirst i' v').
    + apply list_find_None in Hf. rewrite Forall_forall in Hf. split; [done|].
      intros (limit & used & (Hl & [(? & _)|(_ & i' & v' & Hi' & Hn' & -> & -> & _)]) & ->); [done|].
      exfalso. apply (Hf v'); [by eapply list_elem_of_lookup_2|done].
Qed.
Lemma over_disk_iff users ts tr : sizes_ok users ts → over_disk users ts tr ↔ exceeds_disk_quota users ts tr.
Proof.
  intros Hok. destruct (user_of_ok users ts (Username tr) Hok) as (Hq & Hu & _ & _ & _ & _ & _ & Hv). pose proof Hok as (Hpos & _).
  destruct (sum64_sizes users ts (fun tr0 => Type_ tr0 = TransferUpload ∧ upload_key tr0 = upload_key tr)
    (fun tr => CurrentULSize tr - TruncatedSize tr) Hok) as [Hsum _]; [intros x Hx; specialize (Hpos x Hx); lia|].
  assert (sum64 upload_growth (uploads_to (upload_key tr) ts) =
    total (fun tr => CurrentULSize tr - TruncatedSize tr) (uploads_to (upload_key tr) ts)) as Hgrow.
  { unfold uploads_to. rewrite <- Hsum. apply sum64_ext. intros x [_ Hin]%list_elem_of_filter. destruct Hok as (_ & Hs & _).
    pose proof (total_elem (fun tr => CurrentULSize tr + CurrentDLSize tr + TruncatedSize tr) ts x) as Hx. cbn beta in Hx.
    specialize (Hx ltac:(intros y Hy; specialize (Hpos y Hy); lia) Hin).
    specialize (Hpos x Hin). unfold upload_growth, sub64. rewrite wrap64_id by (unfold in_int64, MinInt64, MaxInt64; lia). done. }
  unfold over_disk, exceeds_disk_quota. rewrite Hgrow. setoid_rewrite remaining_disk; [|done..]. split.
  - intros (? & ? & r & (limit & used & Hd & ->) & Hlt). split_and!; [done..|]. exists limit, used. split; [done|lia].
  - intros (? & ? & limit & used & Hd & Hlt). split_and!; [done..|]. exists (limit - used). split; [by eauto|lia].
Qed.
(** a limit of the code, in bytes *)
Lemma over_bytes mb used moved : mb <= 2 ^ 40 → Z.abs used <= 2 ^ 61 → Z.abs moved <= 2 ^ 61 →
  let bytes := if 0 <? mb then mul64 mb 1048576 else 0 in
  (0 <? bytes) && (sub64 bytes used <? moved) = true ↔ over_MB mb (used + moved).
Proof.
  intros Hm Hu Hmv. cbn zeta. unfold over_MB, mul64, sub64. destruct (Z.ltb_spec 0 mb); [|cbn; split; [done|lia]].
  rewrite (wrap64_id (mb * _)) by (unfold in_int64, MinInt64, MaxInt64; lia). rewrite wrap64_id by (unfold in_int64, MinInt64, MaxInt64; lia).
  rewrite andb_true_iff, !Z.ltb_lt. lia.
Qed.
Lemma over_data_iff users ts tr : sizes_ok users ts → over_data users ts tr ↔ exceeds_data_quota users ts tr.
Proof.
  intros Hok. destruct (user_of_ok users ts (Username tr) Hok) as (_ & _ & Hup & Hdn & H1 & H2 & H3 & _). pose proof Hok as (Hpos & _).
  destruct (sum64_sizes users ts (fun tr0 => Username tr0 = Username tr) CurrentULSize Hok) as [Hul Bul]; [intros x Hx; specialize (Hpos x Hx); lia|].
  destruct (sum64_sizes users ts (fun tr0 => Username tr0 = Username tr) CurrentDLSize Hok) as [Hdl Bdl]; [intros x Hx; specialize (Hpos x Hx); lia|].
  unfold over_data, exceeds_data_quota, isDataTransferExceeded, GetDataTransferLimits, of_user. cbn zeta. rewrite Hul, Hdl.
  set (u := user_of users (Username tr)) in *. set (up := total CurrentULSize _) in *. set (dn := total CurrentDLSize _) in *.
  unfold size_ok in *. unfold add64. rewrite !wrap64_id by (unfold in_int64, MinInt64, MaxInt64; lia).
  pose proof (over_bytes (User.TotalDataTransfer u) (User.UsedUploadDataTransfer u + User.UsedDownloadDataTransfer u) (up + dn)
    ltac:(lia) ltac:(lia) ltac:(lia)) as Ht.
  pose proof (over_bytes (User.DownloadDataTransfer u) (User.UsedDownloadDataTransfer u) dn ltac:(lia) ltac:(lia) ltac:(lia)) as Hd.
  pose proof (over_bytes (User.UploadDataTransfer u) (User.UsedUploadDataTransfer u) up ltac:(lia) ltac:(lia) ltac:(lia)) as Hp.
  cbn zeta in Ht, Hd, Hp.
  replace (User.UsedUploadDataTransfer u + User.UsedDownloadDataTransfer u + (up + dn))
    with (User.UsedUploadDataTransfer u + up + (User.UsedDownloadDataTransfer u + dn)) in Ht by lia.
  destruct (_ && (_ <? up + dn)); [rewrite orb_true_iff, !Z.ltb_lt; tauto|].
  destruct (_ && (_ <? dn)); [rewrite Z.ltb_lt; intuition congruence|].
  destruct (_ && (_ <? up)); [rewrite Z.ltb_lt|]; intuition congruence.
Qed.

(** C28: The concurrent transfers are aborted exactly when together they do not
    fit: an upload that has grown when the uploads of the user to the folder (or
    outside the folders) have grown by more than what is left of the disk quota,
    and a transfer that has moved data when those of the user exceed what the
    user may still transfer: in total, else by downloading, else by uploading
    (when the limit of the downloads is exceeded, the uploads are left alone).
    The users with more than one transfer are looked up, with their folders when
    they have more than one upload to a folder.  The sums are plain ones, for
    sizes up to 2^60 bytes. *)
Theorem overquota_transfers_spec ts h users :
  getUsersToCheck (users_to_fetch ts) h = Ok users → sizes_ok users ts →
  (∀ name, (users_to_fetch ts !! name = None ↔ (length (of_user name ts) ≤ 1)%nat) ∧
    (users_to_fetch ts !! name = Some true ↔ ∃ folder, folder ≠ "" ∧ (1 < length (uploads_to (name, folder) ts))%nat)) ∧
  (∀ e, e ∈ GetOverquotaTransfers ts h ↔
    ∃ tr, tr ∈ ts ∧ e = overquota tr ∧ (exceeds_disk_quota users ts tr ∨ exceeds_data_quota users ts tr)).
Proof.
  intros Hu Hok. setoid_rewrite <- over_disk_iff; [|exact Hok]. setoid_rewrite <- over_data_iff; [|exact Hok].
  unfold users_to_fetch, GetOverquotaTransfers in *. destruct (aggregateUploadTransfers ts) as [f0 a] eqn:E0.
  destruct (aggregateUploadTransfers_spec ts _ _ E0) as [[F1 F2] [keys G]]. cbn [fst] in *.
  destruct (aggregateTransfersByUser ts f0) as [f agg] eqn:E1. destruct (aggregateTransfersByUser_spec ts f0 _ _ E1) as [Ha Hf]. cbn [fst] in *.
  split.
  - assert (∀ name folder, (length (uploads_to (name, folder) ts) ≤ length (of_user name ts))%nat) as Hle.
    { intros name folder. apply length_filter_le. by intros x [_ [= <- _]]. }
    intros name. rewrite Hf. split.
    + case_decide as Hd; [split; [done|lia]|]. split.
      * intros H0. apply not_and_l in Hd as [?|?]; [done|lia].
      * intros Hl. apply F2. intros folder. specialize (Hle name folder). lia.
    + rewrite <- F1. case_decide as Hd; [|done]. destruct Hd as [-> _]. done.
  - intros e. unfold getOverquotaTransfers. rewrite Hu. destruct (Nat.eqb_spec (size f) 0) as [Hz|_].
    + apply map_size_empty_inv in Hz as ->. apply getUsersToCheck_none in Hu as ->. split; [by intros ?%elem_of_nil|].
      intros (tr & _ & _ & [H|H]); [by apply no_limit_disk in H|by apply no_limit_data in H].
    + rewrite list_elem_of_fmap. setoid_rewrite elem_of_app. setoid_rewrite (elem_of_uploads ts users a keys); [|done].
      setoid_rewrite (elem_of_users ts users agg); [|done]. naive_solver.
Qed.
End checker.
