(* ===== verification/Transfers.v ===== *)
(** Transfers (internal/common/transfer.go) and the transfers of a connection
    (internal/common/connection.go).

    A transfer is a value the operations take and return; the code shares a
    pointer, and the entry of the connection is the one kept in
    [activeTransfers].  The calls of the checker of concurrent transfers run in
    goroutines of their own: they are returned.  The cancel function, the
    metadata, the FTP mode and the start time are left out, and so are the
    metrics and the throttling. *)
From S2P Require Import Prelude GoPath Util Net FsConfig FsValidate Entities Links Tables MemoryCore MemoryOps UserPerms GroupMerge MemoryQueries ValidateUser ValidateObjects Quota ConnData Connection ConnectionOps TransfersChecker.
Open Scope Z_scope.
Import BaseTransfer.

(** A call of the checker, started in the background. *)
Inductive checker_call :=
  | CheckAdd (tr : ActiveTransfer.t)
  | CheckRemove (id : Z) (connectionID : string).
Definition run_call (transfers : list ActiveTransfer.t) (c : checker_call) : list ActiveTransfer.t :=
  match c with
  | CheckAdd tr => checker_AddTransfer tr transfers
  | CheckRemove id connectionID => checker_RemoveTransfer id connectionID transfers
  end.

Module ConnectionTransfer.
(* source: internal/common/common.go ConnectionTransfer *)
Record t := mk {
  ID : Z; OperationType : string; Size : Z; VirtualPath : string; HasSizeLimit : bool; ULSize : Z; DLSize : Z }.
End ConnectionTransfer.

Section transfers.
Context {St : Storage} {Hk : Hooks} {Cfg : Settings} {E : Env}.
Implicit Types (t : BaseTransfer.t).

(** * The fields of a transfer *)

(* source: internal/common/transfer.go GetSize *)
Definition GetSize t : Z := if transferType t =? TransferDownload then BytesSent t else BytesReceived t.
(* source: internal/common/transfer.go HasSizeLimit *)
Definition HasSizeLimit t : bool := (0 <? MaxWriteSize t) || HasSizeLimits (transferQuota t).
(* source: internal/common/transfer.go GetAbortError *)
Definition GetAbortError t : error := default (getQuotaExceededError protocol) (errAbort t).
(* source: internal/common/transfer.go SignalClose *)
Definition SignalClose (err : option error) t : BaseTransfer.t := t <| errAbort := err |> <| AbortTransfer := true |>.
(* source: internal/common/transfer.go SetTimes *)
Definition SetTimes (p : string) (atime mtime : Z) t : BaseTransfer.t * bool :=
  if p =s fsPath t then (t <| aTime := atime |> <| mTime := mtime |>, true) else (t, false).
(* source: internal/common/transfer.go ConvertError *)
Definition ConvertError t (err : error) : error :=
  if fs_IsNotExist (Fs t) err then NotExistError
  else if fs_IsPermission (Fs t) err then PermissionDenied else err.
(* source: internal/common/transfer.go TransferError *)
Definition TransferError (err : error) t : BaseTransfer.t := if ErrTransfer t is Some _ then t else t <| ErrTransfer := Some err |>.

(** * What may still be transferred *)

Definition ReadQuotaExceeded : error := getReadQuotaExceededError protocol.

(* source: internal/common/transfer.go CheckRead *)
Definition CheckRead t : res unit :=
  let allowedDL := TransferQuota.AllowedDLSize (transferQuota t) in
  let allowedTotal := TransferQuota.AllowedTotalSize (transferQuota t) in
  if (allowedDL =? 0) && (allowedTotal =? 0) then Ok tt
  else if 0 <? allowedTotal then refuse (allowedTotal <? add64 (BytesSent t) (BytesReceived t)) ReadQuotaExceeded
  else if 0 <? allowedDL then refuse (allowedDL <? BytesSent t) ReadQuotaExceeded
  else Ok tt.
(* source: internal/common/transfer.go CheckWrite *)
Definition CheckWrite t : res unit :=
  let allowedUL := TransferQuota.AllowedULSize (transferQuota t) in
  let allowedTotal := TransferQuota.AllowedTotalSize (transferQuota t) in
  if (0 <? MaxWriteSize t) && (MaxWriteSize t <? BytesReceived t) then Err QuotaExceeded
  else if (allowedUL =? 0) && (allowedTotal =? 0) then Ok tt
  else if 0 <? allowedTotal then refuse (allowedTotal <? add64 (BytesSent t) (BytesReceived t)) QuotaExceeded
  else if 0 <? allowedUL then refuse (allowedUL <? BytesReceived t) QuotaExceeded
  else Ok tt.

(** * The transfers of a connection *)

(** the folder whose quota an upload counts in, when it is not that of the user *)
Definition checker_folder t : string :=
  if transferType t =? TransferUpload then
    match GetVirtualFolderForPath user (path_Dir (requestPath t)) with
    | Ok vfolder => if vfolder_IsIncludedInUserQuota vfolder then "" else vfolder_Name vfolder
    | Err _ => ""
    end
  else "".
(* source: internal/common/connection.go AddTransfer *)
Definition AddTransfer (now1 now2 : Z) (remoteIP : string) t : C (list checker_call) :=
  _ ← modify (fun s => s <| Conn.activeTransfers ::= fun l => l ++ [t] |>);
  mret (if HasSizeLimit t
        then [CheckAdd (ActiveTransfer.mk (ID t) (transferType t) (BaseConnection.ID env_conn) (User.Username user) (checker_folder t)
                remoteIP (truncatedSize t) 0 0 now1 now2)]
        else []).
(* source: internal/common/connection.go RemoveTransfer *)
Definition RemoveTransfer t : C (list checker_call) :=
  _ ← modify (fun s => s <| Conn.activeTransfers ::= fun l =>
        match list_find (fun t' => ID t' = ID t) l with Some (idx, _) => swap_remove idx l | None => l end |>);
  mret (if HasSizeLimit t then [CheckRemove (ID t) (BaseConnection.ID env_conn)] else []).
(* source: internal/common/connection.go SignalTransferClose *)
Definition SignalTransferClose (transferID : Z) (err : option error) : C unit :=
  modify (fun s => s <| Conn.activeTransfers ::= fmap (fun t => if ID t =? transferID then SignalClose err t else t) |>).
(* source: internal/common/connection.go SignalTransfersAbort *)
Definition SignalTransfersAbort : C unit :=
  l ← gets Conn.activeTransfers;
  if (length l =? 0)%nat then fail (PlainError "no active transfer found")
  else modify (fun s => s <| Conn.activeTransfers := SignalClose (Some ErrTransferAborted) <$> l |>).
(* source: internal/common/connection.go GetTransferID *)
Definition GetTransferID : C Z := fun s =>
  let id := add64 (Conn.transferID s) 1 in (Ok id, s <| Conn.transferID := id |>).

(** without the start time *)
(* source: internal/common/connection.go GetTransfers *)
Definition GetTransfers : C (list ConnectionTransfer.t) := gets (fun s =>
  (fun t => ConnectionTransfer.mk (ID t)
     (if transferType t =? TransferDownload then "download" else if transferType t =? TransferUpload then "upload" else "")
     (GetSize t) (requestPath t) (HasSizeLimit t) (BytesReceived t) (BytesSent t)) <$> Conn.activeTransfers s).

(* source: internal/common/transfer.go NewBaseTransfer *)
Definition NewBaseTransfer (now1 now2 : Z) (remoteIP : string) (file : option writer) (fsPath effectiveFsPath requestPath : string)
    (transferType minWriteOffset initialSize maxWriteSize truncatedSize : Z) (isNewFile : bool) (f : fs) (quota : TransferQuota.t)
    : C (BaseTransfer.t * list checker_call) :=
  id ← GetTransferID;
  let t := BaseTransfer.mk _ id 0 0 f file fsPath effectiveFsPath requestPath maxWriteSize minWriteOffset initialSize truncatedSize
             isNewFile transferType false 0 0 quota None None in
  calls ← AddTransfer now1 now2 remoteIP t;
  mret (t, calls).

(** * The end of a transfer *)

(** the bytes of an upload whose file was removed *)
Definition nothing_received t : BaseTransfer.t := t <| BytesReceived := 0 |> <| MinWriteOffset := 0 |>.
(** [err := t.Fs.Remove(path, false)] *)
Definition remove_file t (path : string) : C (option error) :=
  try_catch (perform (ECleanup (requestPath t)) (fs_Remove (Fs t) path false)) (fun _ => mret None) (fun e => mret (Some e)).

(** The size of the uploaded file, or the error of [Stat], and the number of
    files removed. *)
(* source: internal/common/transfer.go getUploadFileSize *)
Definition getUploadFileSize t : C (BaseTransfer.t * res Z * Z) :=
  info ← (fun s => (Ok (fs_Stat (Fs t) (fsPath t) (Conn.files s)), s));
  let size := (i ← info; Ok (FileInfo.Size i)) in
  if (if ErrTransfer t is Some _ then true else false) && IsCryptOsFs (Fs t) then
    errDelete ← remove_file t (fsPath t);
    match errDelete with
    | Some _ => mret (t, size, 0)
    | None => mret (nothing_received t, (_ ← size; Ok 0), 1)
    end
  else mret (t, size, 0).

(* source: internal/common/transfer.go checkUploadOutsideHomeDir *)
Definition checkUploadOutsideHomeDir (err : option error) t : C BaseTransfer.t :=
  match err with
  | None => mret t
  | Some _ => if CommonConfig.TempPath cfg =s "" then mret t
              else _ ← remove_file t (effectiveFsPath t); mret (nothing_received t)
  end.

(* source: internal/common/transfer.go isAtomicUpload *)
Definition isAtomicUpload t : bool := (transferType t =? TransferUpload) && negb (effectiveFsPath t =s fsPath t).
(* source: internal/common/transfer.go getUploadedFiles *)
Definition getUploadedFiles t : Z := if isNewFile t then 1 else 0.

(** the notification of a transfer *)
Definition notify_transfer (operation : string) t (size : Z) : C unit :=
  notify_action operation (fsPath t) (requestPath t) "" "" size (ErrTransfer t).

Definition set_timestamp (isUpload : bool) : C unit :=
  on_quotas (fun q => let '(r, h) := UpdateUserTransferTimestamps env_now (User.Username user) isUpload (Quotas.db q) in
                      (r, q <| Quotas.db := h |>)).
(* source: internal/common/transfer.go updateTransferTimestamps *)
Definition updateTransferTimestamps t (uploadFileSize : Z) : C unit :=
  if ErrTransfer t is Some _ then mret tt
  else if transferType t =? TransferUpload then
    done ← gets Conn.uploadDone;
    if (User.FirstUpload user =? 0) && negb done then
      try_catch (set_timestamp true)
        (fun _ => _ ← modify (fun s => s <| Conn.uploadDone := true |>); ignore (notify_transfer "first-upload" t uploadFileSize))
        (fun _ => mret tt)
    else mret tt
  else
    done ← gets Conn.downloadDone;
    if (User.FirstDownload user =? 0) && negb done && (0 <? BytesSent t) then
      try_catch (set_timestamp false)
        (fun _ => _ ← modify (fun s => s <| Conn.downloadDone := true |>); ignore (notify_transfer "first-download" t (BytesSent t)))
        (fun _ => mret tt)
    else mret tt.

(* source: internal/common/transfer.go executeUploadHook *)
Definition executeUploadHook t (numFiles fileSize : Z) : C (BaseTransfer.t * Z * Z) :=
  try_catch (notify_transfer "upload" t fileSize) (fun _ => mret (t, numFiles, fileSize))
    (fun err =>
       let t := TransferError err t in
       e ← remove_file t (fsPath t);
       match e with
       | None => mret (nothing_received t, numFiles - 1, 0)
       | Some _ => mret (t, numFiles, fileSize)
       end).

(* source: internal/common/transfer.go updateTimes *)
Definition updateTimes t : C unit :=
  if negb (aTime t =? 0) && negb (mTime t =? 0)
  then ignore (perform (EChtimes (requestPath t) (requestPath t)) (fs_Chtimes (Fs t) (fsPath t) (aTime t) (mTime t) true))
  else mret tt.

(* source: internal/common/transfer.go updateQuota *)
Definition transfer_updateQuota t (numFiles fileSize : Z) : C bool :=
  if (if File t is Some _ then false else true) && (if ErrTransfer t is Some _ then true else false) &&
     HasImplicitAtomicUploads (CommonConfig.UploadMode cfg) (Fs t)
  then mret false
  else
    let sizeDiff := sub64 fileSize (InitialSize t) in
    if (transferType t =? TransferUpload) && (negb (numFiles =? 0) || negb (sizeDiff =? 0)) then
      _ ← updateUserQuotaAfterFileWrite (requestPath t) numFiles sizeDiff; mret true
    else mret false.

(** what happens to the file of a closed transfer *)
Definition settle_file t : C (BaseTransfer.t * option error) :=
  if ((if File t is Some _ then true else false) || IsLocalOsFs (Fs t)) && IsQuotaExceededError protocol (ErrTransfer t) then
    err ← remove_file t (effectiveFsPath t);
    mret (if err is Some _ then t else nothing_received t, err)
  else if isAtomicUpload t then
    if (if ErrTransfer t is Some _ then false else true) || negb (Z.land (CommonConfig.UploadMode cfg) 2 =? 0) then
      err ← try_catch (perform (ECommit (requestPath t)) (fs_Rename (Fs t) (effectiveFsPath t) (fsPath t)))
              (fun _ => mret None) (fun e => mret (Some e));
      t ← checkUploadOutsideHomeDir err t;
      mret (t, err)
    else
      err ← remove_file t (effectiveFsPath t);
      mret (if err is Some _ then t else nothing_received t, err)
  else mret (t, None).
(** the files and the size an upload left *)
Definition settle_upload t (numFiles : Z) : C (BaseTransfer.t * Z) :=
  '(t, statSize, deletedFiles) ← getUploadFileSize t;
  let '(uploadFileSize, numFiles) :=
    match statSize with
    | Ok size => (size, numFiles)
    | Err e => if fs_IsNotExist (Fs t) e then (0, numFiles - 1) else (add64 (BytesReceived t) (MinWriteOffset t), numFiles)
    end in
  '(t, numFiles, uploadFileSize) ← executeUploadHook t (numFiles - deletedFiles) uploadFileSize;
  _ ← transfer_updateQuota t numFiles uploadFileSize;
  _ ← updateTimes t;
  mret (t, uploadFileSize).

(** [Close]: its error, and the calls of the checker *)
(* source: internal/common/transfer.go Close *)
Definition Close t : C (option error * list checker_call) :=
  let numFiles := getUploadedFiles t in
  _ ← (if HasSizeLimits (transferQuota t)
       then ignore (on_quotas (UpdateUserTransferQuota env_now (CommonConfig.TrackQuota cfg) (CommonConfig.DelayedQuotaUpdate cfg)
                      user (BytesReceived t) (BytesSent t) false))
       else mret tt);
  '(t, err) ← settle_file t;
  '(t, uploadFileSize) ← (if transferType t =? TransferDownload
                          then _ ← ignore (notify_transfer "download" t (BytesSent t)); mret (t, 0)
                          else settle_upload t numFiles);
  let err := if err is Some _ then err else ErrTransfer t in
  _ ← updateTransferTimestamps t uploadFileSize;
  calls ← RemoveTransfer t;
  mret (err, calls).
End transfers.
