(* ===== verification/Connections.v ===== *)
(** The active connections (the [ActiveConnections] and the scans of
    internal/common/common.go, internal/common/clientsmap.go).

    The connections are kept in a slice with a map from identifiers to indexes
    and a map that counts the sessions of a user.  What these promise is a
    bag of connections: [connections_refine].  Closing a connection or its file
    system, the metrics and the hooks that follow a removal are outside the
    state. *)
From S2P Require Import Prelude Util Net FsConfig Entities MemoryCore UserPerms MemoryQueries IPLists ConnData Defender TransfersChecker Transfers GroupMerge FsValidate.
Open Scope Z_scope.

(** * The clients by address *)

Module clientsMap.
(* source: internal/common/clientsmap.go clientsMap *)
Record t := mk { totalConnections : Z; clients : gmap string Z }.
#[global] Instance eta : Settable t := {| settable := fun x => mk (totalConnections x) (clients x) |}.
End clientsMap.
(** a 32-bit counter *)
Definition wrap32 (z : Z) : Z := (z + 2 ^ 31) mod 2 ^ 32 - 2 ^ 31.
(* source: internal/common/clientsmap.go getTotalFrom *)
Definition getTotalFrom (source : string) (c : clientsMap.t) : Z := default 0 (clientsMap.clients c !! source).
(* source: internal/common/clientsmap.go clientsMap.add *)
Definition clients_add (source : string) (c : clientsMap.t) : clientsMap.t :=
  c <| clientsMap.totalConnections ::= fun n => wrap32 (n + 1) |>
    <| clientsMap.clients ::= <[source := add64 (getTotalFrom source c) 1]> |>.
(* source: internal/common/clientsmap.go clientsMap.remove *)
Definition clients_remove (source : string) (c : clientsMap.t) : clientsMap.t :=
  match clientsMap.clients c !! source with
  | Some val =>
      let c := c <| clientsMap.totalConnections ::= fun n => wrap32 (n - 1) |> in
      if 1 <? val then c <| clientsMap.clients ::= <[source := sub64 val 1]> |>
      else c <| clientsMap.clients ::= delete source |>
  | None => c
  end.

(** * Slices with an index *)

Section indexed.
Context {A : Type} (key : A → string).
Definition indexed_t : Type := list A * gmap string nat.

Definition indexed_add (c : A) (s : indexed_t) : indexed_t := (s.1 ++ [c], <[key c := length s.1]> s.2).
(** the removal of the entry with the identifier at [idx]: the last one takes its place *)
Definition indexed_remove (id : string) (idx : nat) (s : indexed_t) : indexed_t :=
  let l := swap_remove idx s.1 in
  let m := delete id s.2 in
  (l, if negb (Nat.eqb idx (pred (length s.1)))
      then match l !! idx with Some c => <[key c := idx]> m | None => m end else m).
Definition indexed_find (id : string) (s : indexed_t) : option (nat * A) :=
  idx ← s.2 !! id; c ← s.1 !! idx; Some (idx, c).

(** every entry is where the map says *)
Definition indexed_ok (s : indexed_t) : Prop :=
  NoDup (key <$> s.1) ∧ ∀ k i, s.2 !! k = Some i ↔ ∃ c, s.1 !! i = Some c ∧ key c = k.

Lemma indexed_find_Some id s idx c : indexed_ok s → indexed_find id s = Some (idx, c) → s.1 !! idx = Some c ∧ key c = id ∧ s.2 !! id = Some idx.
Proof.
  intros [_ Hm] H. unfold indexed_find in H. destruct (s.2 !! id) as [i|] eqn:Hi; [|done]. cbn in H.
  pose proof (proj1 (Hm _ _) Hi) as (c' & Hc & Hk). rewrite Hc in H. cbn in H. injection H as <- <-. done.
Qed.
Lemma indexed_find_None id s : indexed_ok s → indexed_find id s = None ↔ ∀ c, c ∈ s.1 → key c ≠ id.
Proof.
  intros [_ Hm]. unfold indexed_find. split.
  - intros H c [i Hi]%list_elem_of_lookup <-. pose proof (proj2 (Hm (key c) i) ltac:(eauto)) as Hk. rewrite Hk in H. cbn in H. by rewrite Hi in H.
  - intros H. destruct (s.2 !! id) as [i|] eqn:Hi; [|done]. apply Hm in Hi as (c & Hc & Hk). destruct (H c); [by eapply list_elem_of_lookup_2|done].
Qed.
Lemma indexed_ok_empty : indexed_ok ([], ∅).
Proof. split; [constructor|]. intros k i. cbn. split; [intros H; by rewrite lookup_empty in H|by intros (c & Hc & _)]. Qed.

Lemma indexed_add_ok c s : indexed_ok s → (∀ x, x ∈ s.1 → key x ≠ key c) → indexed_ok (indexed_add c s).
Proof.
  intros [Hnd Hm] Hnew. unfold indexed_add. split; cbn.
  - rewrite fmap_app, NoDup_app. split_and!; [done| |apply NoDup_singleton].
    intros k (x & -> & Hx)%list_elem_of_fmap Hin%list_elem_of_singleton. by destruct (Hnew x).
  - intros k i. rewrite lookup_insert_Some, Hm. split.
    + intros [[<- <-]|[Hne (x & Hx & Hk)]]; [exists c; by rewrite list_lookup_middle|].
      exists x. split; [|done]. by apply lookup_app_l_Some.
    + intros (x & Hx & <-). apply lookup_app_Some in Hx as [Hx|[Hge Hx]].
      * right. split; [|eauto]. intros Heq. destruct (Hnew x); [by eapply list_elem_of_lookup_2|done].
      * apply list_lookup_singleton_Some in Hx as [Hi ->]. left. split; [done|lia].
Qed.


Lemma swap_remove_lookup (l : list A) idx i : (idx < length l)%nat → swap_remove idx l !! i =
  if decide (i < pred (length l))%nat then if decide (i = idx) then last l else l !! i else None.
Proof.
  intros Hlt. unfold swap_remove. destruct (last l) as [x|] eqn:Hl; [|by apply last_None in Hl as ->].
  destruct (decide (i < pred (length l))%nat) as [Hi|Hi]; [|by rewrite lookup_take_ge by lia].
  rewrite lookup_take_lt by lia. destruct (decide (i = idx)) as [->|Hne]; [by rewrite list_lookup_insert_eq|by rewrite list_lookup_insert_ne].
Qed.

Lemma indexed_remove_ok id idx c s : indexed_ok s → indexed_find id s = Some (idx, c) →
  indexed_ok (indexed_remove id idx s) ∧ s.1 ≡ₚ c :: (indexed_remove id idx s).1.
Proof.
  intros Hok Hf. destruct (indexed_find_Some _ _ _ _ Hok Hf) as (Hc & Hk & Hm0). pose proof (swap_remove_perm _ _ _ Hc) as Hp.
  destruct Hok as [Hnd Hm]. pose proof (lookup_lt_Some _ _ _ Hc) as Hlt.
  split; [|done]. split.
  { rewrite Hp, fmap_cons, NoDup_cons in Hnd. by destruct Hnd. }
  assert (∀ i j x y, s.1 !! i = Some x → s.1 !! j = Some y → key x = key y → i = j) as Hinj.
  { intros i j x y Hx Hy Hxy. pose proof (proj2 (Hm (key x) i) ltac:(eauto)) as Hi. pose proof (proj2 (Hm (key x) j) ltac:(eauto)) as Hj. congruence. }
  assert (∀ k i, (∃ x, swap_remove idx s.1 !! i = Some x ∧ key x = k) ↔
    (k ≠ id ∧ s.2 !! k = Some i ∧ i ≠ pred (length s.1)) ∨ (idx ≠ pred (length s.1) ∧ i = idx ∧ key <$> last s.1 = Some k)) as Hspec.
  { intros k i. rewrite swap_remove_lookup by done. rewrite last_lookup. split.
    - intros (x & Hx & <-). destruct (decide (i < pred (length s.1))%nat) as [Hi|]; [|done].
      destruct (decide (i = idx)) as [->|Hne].
      + right. rewrite Hx. split_and!; [lia|done|done].
      + left. split_and!; [|apply Hm; eauto|lia]. intros He. apply Hne. eapply Hinj; [exact Hx|exact Hc|congruence].
    - intros [(Hne & Hi & Hlast)|(Hlast & -> & Hl)].
      + apply Hm in Hi as (x & Hx & <-). pose proof (lookup_lt_Some _ _ _ Hx). exists x. rewrite decide_True by lia.
        rewrite decide_False; [done|]. intros ->. apply Hne. congruence.
      + rewrite decide_True, decide_True by (done || lia). destruct (s.1 !! pred (length s.1)) as [x|]; [|done]. injection Hl as <-. eauto. }
  intros k i. rewrite Hspec. cbn [indexed_remove snd].
  destruct (Nat.eqb_spec idx (pred (length s.1))) as [He|He]; cbn [negb].
  - rewrite lookup_delete_Some. split.
    + intros [Hne Hi]. left. split_and!; [done|done|]. intros ->. apply Hm in Hi as (x & Hx & <-). apply Hne. rewrite <- He in Hx. congruence.
    + intros [(? & ? & ?)|(? & _)]; [done|lia].
  - rewrite swap_remove_lookup, decide_True, decide_True by (done || lia). destruct (last s.1) as [x|] eqn:Hl.
    2:{ apply last_None in Hl. rewrite Hl in Hlt. cbn in Hlt. lia. }
    assert (Hx := Hl). rewrite last_lookup in Hx. cbn. rewrite lookup_insert_Some, lookup_delete_Some. split.
    + intros [[<- <-]|(Hne & Hne' & Hi)]; [by right|]. left. split_and!; [done|done|]. intros ->.
      apply Hm in Hi as (y & Hy & <-). apply Hne. congruence.
    + intros [(Hne & Hi & Hlast)|(_ & -> & [= <-])]; [|by left]. right. split_and!; [|done|done]. intros <-.
      apply Hlast. pose proof (proj2 (Hm (key x) (pred (length s.1))) ltac:(eauto)). congruence.
Qed.
End indexed.

(** * Active connections *)

Module ActiveConnection.
(** What the interface [ActiveConnection] tells of a connection. *)
(* source: internal/common/common.go ActiveConnection *)
Record t := mk {
  ID : string; Username : string; Role : string; MaxSessions : Z; Protocol : string; Command : string; RemoteAddress : string;
  ClientVersion : string; ConnectionTime : Z; LastActivity : Z; Transfers : list ConnectionTransfer.t }.
End ActiveConnection.
Import ActiveConnection (ID, Username, Role, MaxSessions).

Module SSHConnection.
(* source: internal/common/common.go SSHConnection *)
Record t := mk { id : string; lastActivity : Z }.
End SSHConnection.

Module ActiveConnections.
(* source: internal/common/common.go ActiveConnections *)
Record t := mk {
  clients : clientsMap.t;
  transfersCheckStatus : bool;
  connections : @indexed_t ActiveConnection.t;          (* connections and mapping *)
  sshConnections : @indexed_t SSHConnection.t;          (* sshConnections and sshMapping *)
  perUserConns : gmap string Z;
}.
#[global] Instance eta : Settable t := {| settable := fun x =>
  mk (clients x) (transfersCheckStatus x) (connections x) (sshConnections x) (perUserConns x) |}.
(* source: internal/common/common.go#L122-L129 init *)
Definition init : t := mk (clientsMap.mk 0 ∅) false ([], ∅) ([], ∅) ∅.
End ActiveConnections.
Notation conns_t := ActiveConnections.t.
Implicit Types (s : conns_t) (c : ActiveConnection.t).

(* source: internal/common/common.go addUserConnection *)
Definition addUserConnection (username : string) (m : gmap string Z) : gmap string Z :=
  if username =s "" then m else <[username := add64 (default 0 (m !! username)) 1]> m.
(* source: internal/common/common.go removeUserConnection *)
Definition removeUserConnection (username : string) (m : gmap string Z) : gmap string Z :=
  if username =s "" then m
  else match m !! username with
       | Some val => if 1 <? val then <[username := sub64 val 1]> m else delete username m
       | None => m
       end.
(* source: internal/common/common.go GetActiveSessions *)
Definition GetActiveSessions (username : string) s : Z := default 0 (ActiveConnections.perUserConns s !! username).

Definition TooManySessions : error := PlainError "too many open sessions".

(* source: internal/common/common.go ActiveConnections.Add *)
Definition conns_Add c : M conns_t unit := fun s =>
  let username := Username c in
  if negb (username =s "") && (0 <? MaxSessions c) && (MaxSessions c <=? GetActiveSessions username s) then (Err TooManySessions, s)
  else (Ok tt, s <| ActiveConnections.perUserConns ::= addUserConnection username |>
                 <| ActiveConnections.connections ::= indexed_add ID c |>).

(** [conns.mapping[id]] and the connection there; an index out of range panics *)
Definition find_connection (id : string) s : option (nat * ActiveConnection.t) := indexed_find id (ActiveConnections.connections s).

(* source: internal/common/common.go ActiveConnections.Swap *)
Definition conns_Swap c : M conns_t unit := fun s =>
  match find_connection (ID c) s with
  | None => (Err (PlainError "connection to swap not found"), s)
  | Some (idx, conn) =>
      let m := removeUserConnection (Username conn) (ActiveConnections.perUserConns s) in
      let username := Username c in
      if negb (username =s "") && (0 <? MaxSessions c) && (match m !! username with Some val => MaxSessions c <=? val | None => false end)
      then (Err TooManySessions, s <| ActiveConnections.perUserConns := addUserConnection (Username conn) m |>)
      else (Ok tt, s <| ActiveConnections.perUserConns := addUserConnection username m |>
                     <| ActiveConnections.connections ::= fun '(l, index) => (<[idx := c]> l, index) |>)
  end.

(** The connection removed, whose file system is closed and for which the hook
    runs; a FTP client that never tried to log in is reported to the defender. *)
(* source: internal/common/common.go ActiveConnections.Remove *)
Definition conns_Remove (connectionID : string) : M conns_t (option (ActiveConnection.t * bool)) := fun s =>
  match find_connection connectionID s with
  | None => (Ok None, s)
  | Some (idx, conn) =>
      let no_login := (ActiveConnection.Protocol conn =s ProtocolFTP) && (Username conn =s "") &&
                      negb (contains ["PASS"; "USER"] (ActiveConnection.Command conn)) in
      (Ok (Some (conn, no_login)),
       s <| ActiveConnections.connections ::= indexed_remove ID connectionID idx |>
         <| ActiveConnections.perUserConns ::= removeUserConnection (Username conn) |>)
  end.

(** The connection to disconnect. *)
(* source: internal/common/common.go ActiveConnections.Close *)
Definition conns_Close (connectionID role : string) s : option ActiveConnection.t :=
  match find_connection connectionID s with
  | Some (_, c) => if (role =s "") || (Role c =s role) then Some c else None
  | None => None
  end.

(* source: internal/common/common.go AddSSHConnection *)
Definition AddSSHConnection (c : SSHConnection.t) s : conns_t :=
  s <| ActiveConnections.sshConnections ::= indexed_add SSHConnection.id c |>.
(* source: internal/common/common.go RemoveSSHConnection *)
Definition RemoveSSHConnection (connectionID : string) s : conns_t :=
  match indexed_find connectionID (ActiveConnections.sshConnections s) with
  | Some (idx, _) => s <| ActiveConnections.sshConnections ::= indexed_remove SSHConnection.id connectionID idx |>
  | None => s
  end.

(** ** Idle connections *)

(** The SSH connections and the connections to close. *)
(* source: internal/common/common.go checkIdles *)
Definition checkIdles (now idleTimeout idleLoginTimeout : Z) s : list SSHConnection.t * list ActiveConnection.t :=
  let conns := (ActiveConnections.connections s).1 in
  (List.filter (fun ssh =>
     (idleTimeout <? sub64 now (SSHConnection.lastActivity ssh)) &&
     negb (existsb (fun conn => has_substring (ID conn) ("_" +:+ SSHConnection.id ssh +:+ "_") &&
                                (sub64 now (ActiveConnection.LastActivity conn) <=? idleTimeout)) conns))
     (ActiveConnections.sshConnections s).1,
   List.filter (fun c =>
     let idleTime := sub64 now (ActiveConnection.LastActivity c) in
     let isUnauthenticatedFTPUser := (ActiveConnection.Protocol c =s ProtocolFTP) && (Username c =s "") in
     (idleTimeout <? idleTime) || (isUnauthenticatedFTPUser && (idleLoginTimeout <? idleTime))) conns).

(** ** The limits of the server *)

Module ServerLimits.
(** The settings [IsNewConnectionAllowed] reads. *)
Record t := mk { isShuttingDown : bool; MaxTotalConnections : Z; MaxPerHostConnections : Z }.
End ServerLimits.

(** [listed] is the answer of the allow list, when it is enabled; the second
    result tells whether the defender is sent an event. *)
(* source: internal/common/common.go IsNewConnectionAllowed *)
Definition IsNewConnectionAllowed (limits : ServerLimits.t) (listed : option (res (bool * Z))) (ipAddr : string) s : res unit * bool :=
  let total_max := ServerLimits.MaxTotalConnections limits in
  let host_max := ServerLimits.MaxPerHostConnections limits in
  let denied : error := PlainError "common.ErrConnectionDenied" in
  if ServerLimits.isShuttingDown limits then (Err ErrShuttingDown, false)
  else match listed with
       | Some (Err _) | Some (Ok (false, _)) => (Err denied, false)
       | _ =>
           if (total_max =? 0) && (host_max =? 0) then (Ok tt, false)
           else if (0 <? host_max) && (host_max <? getTotalFrom ipAddr (ActiveConnections.clients s)) then (Err denied, true)
           else if 0 <? total_max then
             if wrap32 total_max <? clientsMap.totalConnections (ActiveConnections.clients s) then (Err denied, false)
             else if total_max <=? Z.of_nat (length (ActiveConnections.connections s).1) then (Err denied, false)
             else (Ok tt, false)
           else (Ok tt, false)
       end.

(** ** The check of concurrent transfers *)

(** The sizes of the transfers with a limit are brought up to date, then the
    transfers over the quota are closed: the connection, the transfer and the
    error of each. *)
Definition update_sizes (now : Z) (conns : list ActiveConnection.t) (transfers : list transfer) : list transfer :=
  foldl (fun ts c => foldl (fun ts tr =>
    if ConnectionTransfer.HasSizeLimit tr
    then checker_UpdateTransferCurrentSizes now (ConnectionTransfer.ULSize tr) (ConnectionTransfer.DLSize tr) (ConnectionTransfer.ID tr) (ID c) ts
    else ts) ts (ActiveConnection.Transfers c)) transfers conns.
(* source: internal/common/common.go checkTransfers *)
Definition checkTransfers (now : Z) (overquota_of : list transfer → list OverquotaTransfer.t) (transfers : list transfer) s
    : list (string * Z * error) * list transfer :=
  let conns := (ActiveConnections.connections s).1 in
  if ActiveConnections.transfersCheckStatus s || (length conns <? 2)%nat then ([], transfers)
  else
    let transfers := update_sizes now conns transfers in
    let over := overquota_of transfers in
    (mjoin ((fun c =>
       (fun o => (ID c, OverquotaTransfer.TransferID o,
                  if OverquotaTransfer.TransferType o =? TransferDownload
                  then getReadQuotaExceededError (ActiveConnection.Protocol c) else getQuotaExceededError (ActiveConnection.Protocol c)))
       <$> List.filter (fun o => ID c =s OverquotaTransfer.ConnID o) over) <$> conns), transfers).

(** without the times and the name of the node *)
(* source: internal/common/common.go GetStats *)
Definition GetStats (role : string) s : list (string * string * string * string * list ConnectionTransfer.t) :=
  (fun c => (Username c, ID c, ActiveConnection.Protocol c, ActiveConnection.Command c, ActiveConnection.Transfers c)) <$>
  List.filter (fun c => (role =s "") || (Role c =s role)) (ActiveConnections.connections s).1.
(** the connections with active transfers *)
(* source: internal/common/common.go getActiveConnections *)
Definition getActiveConnections s : Z :=
  Z.of_nat (length (List.filter (fun c => (0 <? length (ActiveConnection.Transfers c))%nat) (ActiveConnections.connections s).1)).

(** * Scans *)

Module ActiveQuotaScan.
(* source: internal/common/common.go ActiveQuotaScan *)
Record t := mk { Username : string; StartTime : Z; Role : string }.
End ActiveQuotaScan.
(** [MetadataCheck] has the same fields, [ActiveVirtualFolderQuotaScan] has no role. *)
Definition scan_name (scan : ActiveQuotaScan.t) : string := ActiveQuotaScan.Username scan.
(* source: internal/common/common.go AddUserQuotaScan *)
Definition AddUserQuotaScan (now : Z) (username role : string) (scans : list ActiveQuotaScan.t) : bool * list ActiveQuotaScan.t :=
  if existsb (fun scan => scan_name scan =s username) scans then (false, scans)
  else (true, scans ++ [ActiveQuotaScan.mk username now role]).
(* source: internal/common/common.go RemoveUserQuotaScan *)
Definition RemoveUserQuotaScan (username : string) (scans : list ActiveQuotaScan.t) : bool * list ActiveQuotaScan.t :=
  match list_find (fun scan => scan_name scan = username) scans with
  | Some (idx, _) => (true, swap_remove idx scans)
  | None => (false, scans)
  end.
(* source: internal/common/common.go GetUsersQuotaScans *)
Definition GetUsersQuotaScans (role : string) (scans : list ActiveQuotaScan.t) : list ActiveQuotaScan.t :=
  (fun scan => ActiveQuotaScan.mk (ActiveQuotaScan.Username scan) (ActiveQuotaScan.StartTime scan) "") <$>
  List.filter (fun scan => (role =s "") || (role =s ActiveQuotaScan.Role scan)) scans.
(* source: internal/common/common.go AddVFolderQuotaScan *)
Definition AddVFolderQuotaScan (now : Z) (folderName : string) (scans : list ActiveQuotaScan.t) : bool * list ActiveQuotaScan.t :=
  AddUserQuotaScan now folderName "" scans.
(* source: internal/common/common.go RemoveVFolderQuotaScan *)
Definition RemoveVFolderQuotaScan (folderName : string) (scans : list ActiveQuotaScan.t) : bool * list ActiveQuotaScan.t :=
  RemoveUserQuotaScan folderName scans.
(* source: internal/common/common.go MetadataChecks.Add *)
Definition metadata_Add (now : Z) (username role : string) (checks : list ActiveQuotaScan.t) : bool * list ActiveQuotaScan.t :=
  AddUserQuotaScan now username role checks.
(* source: internal/common/common.go MetadataChecks.Remove *)
Definition metadata_Remove (username : string) (checks : list ActiveQuotaScan.t) : bool * list ActiveQuotaScan.t :=
  RemoveUserQuotaScan username checks.
(* source: internal/common/common.go MetadataChecks.Get *)
Definition metadata_Get (role : string) (checks : list ActiveQuotaScan.t) : list ActiveQuotaScan.t := GetUsersQuotaScans role checks.
