(* ===== verification/EventActions.v ===== *)
(** The actions of event rules: what they do with the files, the quotas and the
    active checks of the users they select (internal/common/eventmanager.go,
    with dataprovider/user.go CheckFsRoot, ScanQuota and
    CheckMetadataConsistency).

    An action works with a connection of its own for each user, over all the
    permissions ([getUserForEventAction]).  The requests, commands, mails and
    backups are code outside: the class [Outside].  The archive of a compress
    action is written through [Zip]. *)
From S2P Require Import Prelude GoPath Util Net FsConfig FsValidate Secrets Entities Links Tables MemoryCore UserPerms GroupMerge MemoryQueries ValidateUser ValidateObjects EventRules Quota ProviderApi Backup ConnData Connection ConnectionOps ConnectionCopy Retention EventMatch Connections.
Open Scope Z_scope.

(** [for _, x := range l { if err := f(x); err != nil { return err } }] *)
Fixpoint each_do {S A} (f : A → M S unit) (l : list A) : M S unit :=
  match l with [] => mret tt | a :: l => _ ← f a; each_do f l end.
(** [err := m], with the value of the call or its error *)
Definition outcome {S A} (m : M S A) : M S (res A) := fun s => (Ok (m s).1, (m s).2).

(* source: internal/common/eventmanager.go#L1571-L1588 getUserForEventAction *)
Definition getUserForEventAction (range : gmap string (list string) → list (string * list string))
    (getGroupsWithNames : list string → res (list Group.t)) (user : User.t) : res User.t :=
  user ← (match LoadAndApplyGroupSettings range getGroupsWithNames user with
          | Ok user => Ok user
          | Err _ => Err (PlainError ("unable to get groups for user " +:+ User.Username user))
          end);
  let user := user <| User.UploadDataTransfer := 0 |> <| User.UploadBandwidth := 0 |> <| User.DownloadBandwidth := 0 |> in
  let user := on_base (fun f => f <| BaseUserFilters.DisableFsChecks := false |> <| BaseUserFilters.FilePatterns := [] |>
                                  <| BaseUserFilters.BandwidthLimits := [] |>) user in
  Ok (user <| User.Permissions ::= fmap (fun _ => [PermAny]) |>).

(** * The root directories of a user *)

Section roots.
Context {St : Storage} {Hk : Hooks} {Cfg : Settings} {E : Env}.
(** the time in nanoseconds, and whether nodes share the provider *)
Variable now IsShared : Z.

(** [fs.CheckRootPath], whose result is not used *)
Definition check_root (f : fs) : C unit :=
  ignore (on_files (fs_CheckRootPath f (User.Username user) (GetUID user) (GetGID user))).
(* source: internal/dataprovider/user.go checkRootPath *)
Definition checkRootPath : C unit := f ← GetFilesystemForPath "/"; check_root f.
(* source: internal/dataprovider/user.go checkLocalHomeDir *)
Definition checkLocalHomeDir : C unit :=
  let provider := Filesystem.Provider (User.FsConfig user) in
  if (provider =? LocalFilesystemProvider) || (provider =? CryptedFilesystemProvider) then mret tt
  else check_root (new_os_fs (User.HomeDir user)).
(* source: internal/dataprovider/user.go checkDirWithParents *)
Definition checkDirWithParents (virtualDirPath : string) : C unit :=
  each_do (fun vPath =>
    if vPath =s "/" then mret tt
    else
      f ← GetFilesystemForPath vPath;
      if fs_HasVirtualFolders f then mret tt
      else
        fsPath ← look (fs_ResolvePath f vPath);
        try_catch (look (fs_Stat f fsPath)) (fun _ => mret tt)
          (fun err => if fs_IsNotExist f err then _ ← perform (EKeepDir vPath) (fs_Mkdir f fsPath); SetPathPermissions f fsPath vPath
                      else fail err)) (reverse (dirs_of virtualDirPath)).
(* source: internal/dataprovider/user.go CheckFsRoot *)
Definition CheckFsRoot : C unit :=
  if BaseUserFilters.DisableFsChecks (base_filters user) then mret tt
  else
    let cacheTime := mul64 (BaseUserFilters.ExternalAuthCacheTime (base_filters user)) 1000000000 in
    let delay := if (0 <? BaseUserFilters.ExternalAuthCacheTime (base_filters user)) && (lastLoginMinDelay <? cacheTime) then cacheTime else lastLoginMinDelay in
    if isLastActivityRecent now (User.LastLogin user) delay && (User.UpdatedAt user <? User.LastLogin user)
    then if IsShared =? 1 then checkLocalHomeDir else mret tt
    else
      _ ← checkRootPath;
      let start := BaseUserFilters.StartDirectory (base_filters user) in
      _ ← (if negb (start =s "") then ignore (checkDirWithParents start) else mret tt);
      each_do (fun v =>
        _ ← try_catch (GetFilesystemForPath (VirtualFolder.VirtualPath v)) check_root (fun _ => mret tt);
        ignore (checkDirWithParents (path_Dir (VirtualFolder.VirtualPath v)))) (User.VirtualFolders user).

(** [v.GetFilesystem(…, nil)]: no user is forbidden *)
Definition plain_folder_fs (v : VirtualFolder.t) : C fs := look (new_folder_fs v []).
(* source: internal/vfs/folder.go#L227-L238 ScanQuota *)
Definition folder_ScanQuota (v : VirtualFolder.t) : C (Z * Z) :=
  _ ← fail_if (folder_hasPathPlaceholder (VirtualFolder.Base v)) (PlainError "cannot scan quota: this folder has a path placeholder");
  f ← plain_folder_fs v;
  look (fs_ScanRootDirContents f).
(* source: internal/dataprovider/user.go ScanQuota *)
Definition user_ScanQuota : C (Z * Z) :=
  f ← getRootFs;
  start ← look (fs_ScanRootDirContents f);
  foldl (fun (m : C (Z * Z)) v =>
    '(numFiles, size) ← m;
    if negb (vfolder_IsIncludedInUserQuota v) then mret (numFiles, size)
    else '(num, s) ← folder_ScanQuota v; mret (add64 numFiles num, add64 size s)) (mret start) (User.VirtualFolders user).
(* source: internal/vfs/folder.go#L216-L224 CheckMetadataConsistency *)
Definition folder_CheckMetadataConsistency (v : VirtualFolder.t) : C unit := f ← plain_folder_fs v; on_files (fs_CheckMetadata f).
(* source: internal/dataprovider/user.go CheckMetadataConsistency *)
Definition CheckMetadataConsistency : C unit :=
  f ← getRootFs;
  _ ← on_files (fs_CheckMetadata f);
  each_do folder_CheckMetadataConsistency (User.VirtualFolders user).
End roots.

(** * What an action does for one user *)

(** A zip archive over a file of a storage (klauspost/compress/zip): a header
    starts an entry, with its name and modification time, and a copy writes its
    content. *)
Class Zip {St : Storage} := {
  zip_CreateHeader : writer → string → Z → M world unit;
  zip_Copy : writer → string → reader → M world unit;
  zip_Close : writer → M world unit;
}.

(* source: internal/common/eventmanager.go getArchiveBaseDir *)
Definition getArchiveBaseDir (paths : list string) : string :=
  match RemoveDuplicates (path_Dir <$> paths) false with [baseDir] => baseDir | _ => "/" end.
(* source: internal/common/eventmanager.go getZipEntryName *)
Definition getZipEntryName (entryPath baseDir : string) : res string :=
  if negb (has_prefix entryPath baseDir) then Err (PlainError "entry path is outside base dir")
  else Ok (TrimPrefix (TrimPrefix entryPath baseDir) "/").

Section items.
Context {St : Storage} {Hk : Hooks} {Cfg : Settings} {Zp : Zip} {E : Env}.
Variable now IsShared : Z.
(** the pairs of the replacer of the placeholders *)
Variable replacer : list (string * string).
Variable fuel : nat.
Notation replace s := (CleanPath (replaceWithReplacer s replacer)).

(* source: internal/common/eventmanager.go executeDeleteFileFsAction *)
Definition executeDeleteFileFsAction (item : string) (info : FileInfo.t) : C unit :=
  '(f, fsPath) ← GetFsAndResolvedPath item;
  RemoveFile f fsPath item info.
(** The functions below start after [getUserForEventAction], with the
    connection of the user it gives. *)
(* source: internal/common/eventmanager.go executeDeleteFsActionForUser *)
Definition executeDeleteFsActionForUser (deletes : list string) : C unit :=
  _ ← CheckFsRoot now IsShared;
  each_do (fun item =>
    info ← outcome (DoStat item 0 false);
    match info with
    | Err err => if is_not_exist err then mret tt else fail err
    | Ok info => if FileInfo.IsDir info then RemoveDir item else executeDeleteFileFsAction item info
    end) (replacePathsPlaceholders deletes replacer).
(* source: internal/common/eventmanager.go executeMkDirsFsActionForUser *)
Definition executeMkDirsFsActionForUser (dirs : list string) : C unit :=
  _ ← CheckFsRoot now IsShared;
  each_do (fun item => _ ← CheckParentDirs (path_Dir item); createDirIfMissing item) (replacePathsPlaceholders dirs replacer).
(* source: internal/common/eventmanager.go executeRenameFsActionForUser *)
Definition executeRenameFsActionForUser (renames : list KeyValue.t) : C unit :=
  _ ← CheckFsRoot now IsShared;
  each_do (fun item => renameInternal (replace (KeyValue.Key item)) (replace (KeyValue.Value item)) true) renames.
(* source: internal/common/eventmanager.go executeCopyFsActionForUser *)
Definition executeCopyFsActionForUser (copy : list KeyValue.t) : C unit :=
  let with_slash s := if has_suffix s "/" then replace s +:+ "/" else replace s in
  _ ← CheckFsRoot now IsShared;
  each_do (fun item => Copy fuel (with_slash (KeyValue.Key item)) (with_slash (KeyValue.Value item))) copy.
(* source: internal/common/eventmanager.go executeExistFsActionForUser *)
Definition executeExistFsActionForUser (exist : list string) : C unit :=
  _ ← CheckFsRoot now IsShared;
  each_do (fun item => _ ← DoStat item 0 false; mret tt) (replacePathsPlaceholders exist replacer).

(* source: internal/common/eventmanager.go getSizeForPath *)
Fixpoint getSizeForPath (fuel : nat) (p : string) (info : FileInfo.t) : C Z :=
  match fuel with
  | O => fail StackOverflow
  | S fuel =>
      if FileInfo.IsDir info then
        entries ← ListDir p;
        foldl (fun (m : C Z) entry =>
          dirSize ← m;
          size ← getSizeForPath fuel (path_Join2 p (FileInfo.Name entry)) entry;
          mret (add64 dirSize size)) (mret 0) entries
      else if FileInfo.IsRegular info then mret (FileInfo.Size info) else mret 0
  end.
(* source: internal/common/eventmanager.go estimateZipSize *)
Definition estimateZipSize (zipPath : string) (paths : list string) : C Z :=
  q ← gets (fun s => (HasSpace false false zipPath (Conn.quotas s)).1);
  if QuotaCheckResult.HasSpace q && (0 <? GetRemainingSize q) then
    size ← foldl (fun (m : C Z) item =>
             size ← m;
             info ← DoStat item 1 false;
             itemSize ← getSizeForPath fuel item info;
             mret (add64 size itemSize)) (mret 0) paths;
    mret (Z.quot size 2)
  else mret (-1).

(** [wr.Entries] before and after the call; [wr.Name] is [archive]. *)
(* source: internal/common/eventmanager.go addZipEntry *)
Fixpoint addZipEntry (fuel : nat) (wr : writer) (archive baseDir entryPath : string) (entries : gset string) : C (gset string) :=
  match fuel with
  | O => fail StackOverflow
  | S fuel =>
      if entryPath =s archive then mret entries
      else
        info ← DoStat entryPath 1 false;
        entryName ← lift (getZipEntryName entryPath baseDir);
        if bool_decide (entryName ∈ entries) then mret entries
        else
          let entries := {[entryName]} ∪ entries in
          if FileInfo.IsDir info then
            _ ← on_files (zip_CreateHeader wr (entryName +:+ "/") (FileInfo.ModTime info));
            contents ← ListDir entryPath;
            foldl (fun (m : C (gset string)) info =>
              entries ← m;
              addZipEntry fuel wr archive baseDir (CleanPath (path_Join2 entryPath (FileInfo.Name info))) entries)
              (mret entries) contents
          else if negb (FileInfo.IsRegular info) then mret entries
          else
            r ← getFileReader entryPath;
            copied ← outcome (_ ← on_files (zip_CreateHeader wr entryName (FileInfo.ModTime info)); on_files (zip_Copy wr entryName r));
            _ ← ignore (on_files (reader_Close r));
            match copied with Ok _ => mret entries | Err e => fail e end
  end.

(* source: internal/common/eventmanager.go executeCompressFsActionForUser *)
Definition executeCompressFsActionForUser (c : EventActionFsCompress.t) : C unit :=
  _ ← CheckFsRoot now IsShared;
  let name := replace (EventActionFsCompress.Name c) in
  _ ← ignore (CheckParentDirs (path_Dir name));
  let paths := (fun p => replace p) <$> EventActionFsCompress.Paths c in
  _ ← fail_if (contains paths name) (PlainError "cannot compress the archive to create");
  let paths := RemoveDuplicates paths false in
  estimatedSize ← estimateZipSize name paths;
  '(w, numFiles, truncatedSize) ← getFileWriter name estimatedSize;
  let baseDir := getArchiveBaseDir paths in
  let close err := closeWriterAndUpdateQuota w name "" numFiles truncatedSize err "upload" in
  added ← outcome (foldl (fun (m : C (gset string)) item => entries ← m; addZipEntry fuel w name baseDir item entries) (mret ∅) paths);
  match added with
  | Err e => _ ← ignore (close (Some e)); fail e
  | Ok _ =>
      closed ← outcome (on_files (zip_Close w));
      match closed with
      | Err e => _ ← ignore (close (Some e)); fail e
      | Ok _ => close None
      end
  end.
End items.

(** * Actions over the selected users *)

(** What goes out of the server and the programs it starts: they may change the
    files and the counters. *)
Inductive attachment :=
  | RetentionReports (checks : list executedRetentionCheck.t)
  | FileAttachment (username virtualPath : string) (size : Z).
Class Outside {St : Storage} := {
  http_action : EventActionHTTPConfig.t → list (string * string) → params → M (world * Quotas.t) unit;
  cmd_Run : string → list string → list string → Z → M (world * Quotas.t) unit;   (* arguments, environment, timeout *)
  os_Getenv : string → string;
  SendEmail : list string → list string → string → string → Z → list attachment → M (world * Quotas.t) unit;
  SendPasswordExpiration : User.t → Z → M (world * Quotas.t) unit;
  do_backup : M (world * Quotas.t) string;
  stat_size : string → option Z;
  GetBackupsPath : string;
}.

Module Acts.
(** The state the actions change; [effects] has what their connections asked
    the storages to do, with the users. *)
Record t `{Storage} := mk {
  files : world;
  quotas : Quotas.t;
  checks : list RetentionCheck.t;
  userScans : list ActiveQuotaScan.t;
  folderScans : list ActiveQuotaScan.t;
  metadataChecks : list ActiveQuotaScan.t;
  parameters : params;
  effects : list (string * effect);
}.
#[global] Instance eta `{Storage} : Settable t := {| settable := fun x =>
  mk _ (files x) (quotas x) (checks x) (userScans x) (folderScans x) (metadataChecks x) (parameters x) (effects x) |}.
End Acts.
Notation acts := (M Acts.t).

Definition maxAttachmentsSize : Z := 10 * 1024 * 1024.

Section actions.
Context {St : Storage} {Hk : Hooks} {Cfg : Settings} {Zp : Zip} {Out : Outside} {E : Env}.
Variable now IsShared : Z.
(** the time retention compares the files with, the matching of [**], the order
    of a range over the custom fields, and
    [math.Round(float64(d) / float64(24*time.Hour))] *)
Variable now_at : string → Z.
Variable doublestar_Match : string → string → option bool.
Variable range_fields : gmap string string → list (string * string).
Variable round_days : Z → Z.
Variable fuel : nat.

Definition env_of (c : BaseConnection.t) : Env :=
  {| env_cfg := env_cfg; env_now := env_now; env_CheckAllowed := env_CheckAllowed; env_range := env_range;
     env_range_perms := env_range_perms; env_conn := c |}.
(** the operations of a new connection, over the state they share *)
Definition with_conn {A} (c : BaseConnection.t) (m : Env → C A) : acts A := fun s =>
  let '(r, conn) := m (env_of c) (Conn.mk _ (Acts.files s) (Acts.quotas s) ∅ [] 0 false false []) in
  (r, s <| Acts.files := Conn.files conn |> <| Acts.quotas := Conn.quotas conn |>
        <| Acts.effects ::= fun l => l ++ ((fun e => (User.Username (BaseConnection.User c), e)) <$> Conn.effects conn) |>).
(** the ID of a connection is never looked at *)
Definition as_user {A} (user : User.t) (m : Env → C A) : acts A :=
  with_conn (BaseConnection.mk (protocolEventAction +:+ "_") user protocolEventAction "" "") m.
Definition db (s : Acts.t) : DB.t := Quotas.db (Acts.quotas s).
Definition the_params (s : Acts.t) : params := Acts.parameters s.
Definition on_params (f : params → params) : acts unit := modify (fun s => s <| Acts.parameters ::= f |>).
Definition on_counters {A} (m : M Quotas.t A) : acts A := fun s =>
  let '(r, q) := m (Acts.quotas s) in (r, s <| Acts.quotas := q |>).
Definition outside {A} (m : M (world * Quotas.t) A) : acts A := fun s =>
  let '(r, (w, q)) := m (Acts.files s, Acts.quotas s) in (r, s <| Acts.files := w |> <| Acts.quotas := q |>).
Definition in_db {A} (f : DB.t → res A) : acts A := fun s => (f (db s), s).

(** ** The users and folders of an event *)

(* source: internal/common/eventmanager.go getUserFromSender *)
Definition getUserFromSender : acts User.t := fun s =>
  let sender := EventParams.sender (the_params s) in
  if sender =s ActionExecutorSystem
  then (Ok (User.zero <| User.Status := 1 |> <| User.Username := sender |> <| User.HomeDir := GetBackupsPath |>
                      <| User.Permissions := {["/" := [PermAny]]} |>), s)
  else (match UserExists sender "" (db s) with
        | Ok user => Ok user
        | Err _ => Err (PlainError ("error getting user " +:+ sender))
        end, s).
(* source: internal/common/eventmanager.go getUsers *)
Definition getUsers : acts (list User.t) := fun s =>
  if EventParams.sender (the_params s) =s ""
  then (match dumpUsers (db s) with Ok users => Ok users | Err _ => Err (PlainError "unable to get users") end, s)
  else (user ← getUserFromSender; mret [user]) s.
(* source: internal/common/eventmanager.go getFolders *)
Definition getFolders : acts (list BaseVirtualFolder.t) := fun s =>
  let sender := EventParams.sender (the_params s) in
  (if sender =s "" then dumpFolders (db s) else folder ← getFolderByName (convertName sender) (db s); Ok [folder], s).

(** The loop every action has over the users: the ones whose conditions do not
    match are skipped (with a sender they have been tested already), the
    others counted and the failing ones collected.  [report] is whether a
    failure is added to the errors of the event. *)
Definition skips (conditions : ConditionOptions.t) (p : params) (user : User.t) : bool :=
  (EventParams.sender p =s "") && negb (checkUserConditionOptions doublestar_Match user conditions).
Fixpoint over_users (conditions : ConditionOptions.t) (report : bool) (f : User.t → acts unit) (users : list User.t) : acts (Z * list string) :=
  match users with
  | [] => mret (0, [])
  | user :: users => fun s =>
      if skips conditions (the_params s) user then over_users conditions report f users s
      else
        (done ← outcome (f user);
         match done with
         | Ok _ => '(executed, failures) ← over_users conditions report f users; mret (executed + 1, failures)
         | Err e =>
             _ ← (if report then on_params (AddError (Some e)) else mret tt);
             '(executed, failures) ← over_users conditions report f users;
             mret (executed + 1, User.Username user :: failures)
         end) s
  end.
Definition verdict (failed sep : string) (none : option string) (executed : Z) (failures : list string) : res unit :=
  _ ← refuse (bool_decide (failures ≠ [])) (PlainError (failed +:+ String.concat sep failures));
  match none with Some msg => refuse (executed =? 0) (PlainError msg) | None => Ok tt end.
Definition users_action (failed sep : string) (none : option string) (report : bool) (conditions : ConditionOptions.t)
    (f : User.t → acts unit) : acts unit :=
  users ← getUsers;
  '(executed, failures) ← over_users conditions report f users;
  lift (verdict failed sep none executed failures).

(** ** Filesystem actions *)

Definition as_event_user (m : Env → C unit) (user : User.t) : acts unit :=
  user ← in_db (fun h => getUserForEventAction env_range_perms (fun names => getGroupsWithNames names h) user);
  as_user user m.
(* source: internal/common/eventmanager.go executeDeleteFsRuleAction *)
Definition executeDeleteFsRuleAction (deletes : list string) (replacer : list (string * string)) (conditions : ConditionOptions.t) : acts unit :=
  users_action "fs delete failed for users: " ", " (Some "no delete executed") true conditions
    (as_event_user (fun E => executeDeleteFsActionForUser now IsShared replacer deletes)).
(* source: internal/common/eventmanager.go executeMkdirFsRuleAction *)
Definition executeMkdirFsRuleAction (dirs : list string) (replacer : list (string * string)) (conditions : ConditionOptions.t) : acts unit :=
  users_action "fs mkdir failed for users: " ", " (Some "no mkdir executed") false conditions
    (as_event_user (fun E => executeMkDirsFsActionForUser now IsShared replacer dirs)).
(* source: internal/common/eventmanager.go executeRenameFsRuleAction *)
Definition executeRenameFsRuleAction (renames : list KeyValue.t) (replacer : list (string * string)) (conditions : ConditionOptions.t) : acts unit :=
  users_action "fs rename failed for users: " ", " (Some "no rename executed") true conditions
    (as_event_user (fun E => executeRenameFsActionForUser now IsShared replacer renames)).
(* source: internal/common/eventmanager.go executeCopyFsRuleAction *)
Definition executeCopyFsRuleAction (copy : list KeyValue.t) (replacer : list (string * string)) (conditions : ConditionOptions.t) : acts unit :=
  users_action "fs copy failed for users: " ", " (Some "no copy executed") true conditions
    (as_event_user (fun E => executeCopyFsActionForUser now IsShared replacer fuel copy)).
(* source: internal/common/eventmanager.go executeExistFsRuleAction *)
Definition executeExistFsRuleAction (exist : list string) (replacer : list (string * string)) (conditions : ConditionOptions.t) : acts unit :=
  users_action "fs existence check failed for users: " ", " (Some "no existence check executed") true conditions
    (as_event_user (fun E => executeExistFsActionForUser now IsShared replacer exist)).
(* source: internal/common/eventmanager.go executeCompressFsRuleAction *)
Definition executeCompressFsRuleAction (c : EventActionFsCompress.t) (replacer : list (string * string)) (conditions : ConditionOptions.t) : acts unit :=
  users_action "fs compress failed for users: " "," (Some "no file/folder compressed") true conditions
    (as_event_user (fun E => executeCompressFsActionForUser now IsShared replacer fuel c)).
(** [params.getStringReplacements], which panics when the data of an object is
    asked for and there is none *)
Definition replacements (addObjectData jsonEscaped : bool) : acts (list (string * string)) := fun s =>
  (getStringReplacements range_fields addObjectData jsonEscaped (the_params s), s).
(* source: internal/common/eventmanager.go executeFsRuleAction *)
Definition executeFsRuleAction (c : EventActionFilesystemConfig.t) (conditions : ConditionOptions.t) : acts unit :=
  replacer ← replacements false false;
  let kind := EventActionFilesystemConfig.Type_ c in
  if kind =? FilesystemActionRename then executeRenameFsRuleAction (EventActionFilesystemConfig.Renames c) replacer conditions
  else if kind =? FilesystemActionDelete then executeDeleteFsRuleAction (EventActionFilesystemConfig.Deletes c) replacer conditions
  else if kind =? FilesystemActionMkdirs then executeMkdirFsRuleAction (EventActionFilesystemConfig.MkDirs c) replacer conditions
  else if kind =? FilesystemActionExist then executeExistFsRuleAction (EventActionFilesystemConfig.Exist c) replacer conditions
  else if kind =? FilesystemActionCompress then executeCompressFsRuleAction (EventActionFilesystemConfig.Compress c) replacer conditions
  else if kind =? FilesystemActionCopy then executeCopyFsRuleAction (EventActionFilesystemConfig.Copy c) replacer conditions
  else fail (PlainError "unsupported filesystem action").

(** ** Quotas, retention, metadata, expirations *)

Definition load_groups (user : User.t) : acts User.t :=
  in_db (fun h => LoadAndApplyGroupSettings env_range_perms (fun names => getGroupsWithNames names h) user).
Definition update_scans (f : list ActiveQuotaScan.t → bool * list ActiveQuotaScan.t) : acts bool := fun s =>
  let '(done, l) := f (Acts.userScans s) in (Ok done, s <| Acts.userScans := l |>).
Definition update_folder_scans (f : list ActiveQuotaScan.t → bool * list ActiveQuotaScan.t) : acts bool := fun s =>
  let '(done, l) := f (Acts.folderScans s) in (Ok done, s <| Acts.folderScans := l |>).
Definition update_metadata_checks (f : list ActiveQuotaScan.t → bool * list ActiveQuotaScan.t) : acts bool := fun s =>
  let '(done, l) := f (Acts.metadataChecks s) in (Ok done, s <| Acts.metadataChecks := l |>).
(** [defer]: the second call runs whatever the first one gives *)
Definition finally {A B} (m : acts A) (after : acts B) : acts A := fun s => let '(r, s) := m s in (r, (after s).2).
Notation now_ms := (now / 1000000).

(* source: internal/common/eventmanager.go executeQuotaResetForUser *)
Definition executeQuotaResetForUser (user : User.t) : acts unit :=
  user ← load_groups user;
  added ← update_scans (AddUserQuotaScan now_ms (User.Username user) (User.Role user));
  if negb added then fail (PlainError ("another quota scan is in progress for user " +:+ User.Username user))
  else finally
    ('(numFiles, size) ← as_user user (fun E => user_ScanQuota);
     on_counters (UpdateUserQuota env_now (CommonConfig.TrackQuota cfg) (CommonConfig.DelayedQuotaUpdate cfg) user numFiles size true))
    (update_scans (RemoveUserQuotaScan (User.Username user))).
(* source: internal/common/eventmanager.go executeUsersQuotaResetRuleAction *)
Definition executeUsersQuotaResetRuleAction (conditions : ConditionOptions.t) : acts unit :=
  users_action "quota reset failed for users: " ", " (Some "no user quota reset executed") true conditions executeQuotaResetForUser.

(** one round of the loop over the folders: whether it was executed, and failed *)
Definition reset_folder (folder : BaseVirtualFolder.t) : acts (Z * bool) :=
  let name := BaseVirtualFolder.Name folder in
  let failed (executed : Z) (e : error) : acts (Z * bool) := _ ← on_params (AddError (Some e)); mret (executed, true) in
  added ← update_folder_scans (AddVFolderQuotaScan now_ms name);
  if negb added then failed 0 (PlainError ("another quota scan is already in progress for folder " +:+ Quote name))
  else
    let f := VirtualFolder.zero <| VirtualFolder.Base := folder |> <| VirtualFolder.VirtualPath := "/" |> in
    scanned ← outcome (as_user User.zero (fun E => folder_ScanQuota f));
    _ ← update_folder_scans (RemoveVFolderQuotaScan name);
    match scanned with
    | Err e => failed 1 (wrapped "error scanning quota for folder" name "" e)
    | Ok (numFiles, size) =>
        try_catch (on_counters (UpdateVirtualFolderQuota env_now (CommonConfig.TrackQuota cfg) (CommonConfig.DelayedQuotaUpdate cfg)
                     folder numFiles size true))
          (fun _ => mret (1, false)) (fun e => failed 1 (wrapped "error updating quota for folder" name "" e))
    end.
Fixpoint reset_folders (conditions : ConditionOptions.t) (folders : list BaseVirtualFolder.t) : acts (Z * list string) :=
  match folders with
  | [] => mret (0, [])
  | folder :: folders => fun s =>
      let name := BaseVirtualFolder.Name folder in
      if (EventParams.sender (the_params s) =s "") &&
         negb (checkEventConditionPatterns doublestar_Match name (ConditionOptions.Names conditions))
      then reset_folders conditions folders s
      else
        ('(executed, bad) ← reset_folder folder;
         '(total, failures) ← reset_folders conditions folders;
         mret (executed + total, if (bad : bool) then name :: failures else failures)) s
  end.
(* source: internal/common/eventmanager.go executeFoldersQuotaResetRuleAction *)
Definition executeFoldersQuotaResetRuleAction (conditions : ConditionOptions.t) : acts unit :=
  folders ← getFolders;
  '(executed, failures) ← reset_folders conditions folders;
  lift (verdict "quota reset failed for folders: " ", " (Some "no folder quota reset executed") executed failures).
(* source: internal/common/eventmanager.go executeTransferQuotaResetRuleAction *)
Definition executeTransferQuotaResetRuleAction (conditions : ConditionOptions.t) : acts unit :=
  users_action "transfer quota reset failed for users: " ", " (Some "no transfer quota reset executed") true conditions
    (fun user => try_catch (on_counters (UpdateUserTransferQuota env_now (CommonConfig.TrackQuota cfg) (CommonConfig.DelayedQuotaUpdate cfg) user 0 0 true))
       mret (fun e => fail (wrapped "error updating transfer quota for user" (User.Username user) "" e))).

Definition add_retention_check (folders : list FolderRetention.t) (user : User.t) : acts (option BaseConnection.t) := fun s =>
  let '(c, l) := retention_Add now_ms (RetentionCheck.mk "" 0 folders [] "" "" None) user (Acts.checks s) in
  (Ok (c ≫= RetentionCheck.conn), s <| Acts.checks := l |>).
(** The results are kept for the reports, also after an error. *)
(* source: internal/common/eventmanager.go executeDataRetentionCheckForUser *)
Definition executeDataRetentionCheckForUser (folders : list FolderRetention.t) (actionName : string) (user : User.t) : acts unit :=
  user ← load_groups user;
  c ← add_retention_check folders user;
  match c with
  | None => fail (PlainError ("another retention check is in progress for user " +:+ User.Username user))
  | Some conn =>
      active ← gets Acts.checks;
      ended ← outcome (with_conn conn (fun E => check_Start folders now_at fuel active));
       match ended with
       | Err e => fail e
       | Ok (results, err, checks) =>
           _ ← modify (fun s => s <| Acts.checks := checks |>);
           _ ← on_params (fun p => p <| EventParams.retentionChecks ::= fun l =>
                                     l ++ [executedRetentionCheck.mk (User.Username user) actionName results] |>);
           match err with Some e => fail e | None => mret tt end
       end
  end.
(* source: internal/common/eventmanager.go executeDataRetentionCheckRuleAction *)
Definition executeDataRetentionCheckRuleAction (folders : list FolderRetention.t) (conditions : ConditionOptions.t) (actionName : string) : acts unit :=
  users_action "retention check failed for users: " ", " (Some "no retention check executed") true conditions
    (executeDataRetentionCheckForUser folders actionName).

(** [util.GetTimeFromMsecSinceEpoch(msec).Before(time.Now())] *)
Definition before_now (msec : Z) : bool := msec * 1000000 <? now.
(** An expired user counts as a failure that is not added to the errors. *)
(* source: internal/common/eventmanager.go executeUserExpirationCheckRuleAction *)
Definition executeUserExpirationCheckRuleAction (conditions : ConditionOptions.t) : acts unit :=
  users_action "expired users: " ", " (Some "no user expiration check executed") false conditions
    (fun user => if (0 <? User.ExpirationDate user) && before_now (User.ExpirationDate user) then fail (PlainError "expired") else mret tt).

(* source: internal/common/eventmanager.go executeMetadataCheckForUser *)
Definition executeMetadataCheckForUser (user : User.t) : acts unit :=
  user ← load_groups user;
  added ← update_metadata_checks (metadata_Add now_ms (User.Username user) (User.Role user));
  if negb added then fail (PlainError ("another metadata check is in progress for user " +:+ User.Username user))
  else finally (as_user user (fun E => CheckMetadataConsistency)) (update_metadata_checks (metadata_Remove (User.Username user))).
(* source: internal/common/eventmanager.go executeMetadataCheckRuleAction *)
Definition executeMetadataCheckRuleAction (conditions : ConditionOptions.t) : acts unit :=
  users_action "metadata check failed for users: " ", " (Some "no metadata check executed") true conditions executeMetadataCheckForUser.

Definition day : Z := 24 * 3600 * 1000000000.
(* source: internal/dataprovider/user.go PasswordExpiresIn *)
Definition PasswordExpiresIn (user : User.t) : Z :=
  let pwdExpiration := User.LastPasswordChange user * 1000000 +
                       mul64 (mul64 (BaseUserFilters.PasswordExpiration (base_filters user)) 24) (3600 * 1000000000) in
  let res := round_days (Z.max MinInt64 (Z.min MaxInt64 (pwdExpiration - now))) in
  if (res =? 0) && (now <? pwdExpiration) then 1 else res.
(* source: internal/common/eventmanager.go executePwdExpirationCheckForUser *)
Definition executePwdExpirationCheckForUser (threshold : Z) (user : User.t) : acts unit :=
  user ← load_groups user;
  if (0 <? User.ExpirationDate user) && before_now (User.ExpirationDate user) then mret tt
  else if BaseUserFilters.PasswordExpiration (base_filters user) =? 0 then mret tt
  else
    let days := PasswordExpiresIn user in
    if threshold <? days then mret tt else outside (SendPasswordExpiration user days).
(** That no user was checked is no error. *)
(* source: internal/common/eventmanager.go executePwdExpirationCheckRuleAction *)
Definition executePwdExpirationCheckRuleAction (threshold : Z) (conditions : ConditionOptions.t) : acts unit :=
  users_action "password expiration check failed for users: " ", " None true conditions (executePwdExpirationCheckForUser threshold).
End actions.
