(* ===== verification/EventManager.v ===== *)
(** The event manager: an event is matched with the rules, the actions of the
    matching rules run before the event goes on or as tasks of their own
    (internal/common/eventmanager.go).

    A goroutine that is started is a [task]; [run_task] is what it does.  The
    HTTP request of an action is outside.  A login through an identity provider
    can add or update the account that logs in from a template of a rule;
    [json.Unmarshal] of the templates is a parameter. *)
From S2P Require Import Prelude GoPath Util FsConfig FsValidate Secrets Entities Links Tables MemoryCore MemoryOps MemoryQueries ValidateUser ValidateObjects EventRules EventContainer Quota IPLists ProviderApi Backup ConnData Connection ConnectionOps ConnectionCopy Retention EventMatch Connections EventActions.
Open Scope Z_scope.

Inductive task :=
  | RulesTask (rules : list EventRule.t) (p : params)                          (* [go executeAsyncRulesActions] *)
  | RuleTask (rule : EventRule.t) (p : params) (failedActions : list string).  (* [go executeRuleAsyncActions] *)

(** * Actions that go out *)

Section outgoing.
Context {St : Storage} {Hk : Hooks} {Cfg : Settings} {Zp : Zip} {Out : Outside} {E : Env}.
Variable now IsShared : Z.
Variable range_fields : gmap string string → list (string * string).
Notation replacements := (EventActions.replacements range_fields).

(** [params.Object != nil], and a text asks for the data of the object *)
Definition wants_object (texts : list string) (p : params) : bool :=
  negb (is_none (EventParams.Object p)) && existsb (fun s => has_substring s objDataPlaceholder || has_substring s objDataPlaceholderString) texts.
Definition executeHTTPRuleAction (c : EventActionHTTPConfig.t) : acts unit :=
  p ← gets the_params;
  replacer ← replacements (negb (is_none (EventParams.Object p)) && HasObjectData c) false;
  outside (http_action c replacer p).
(* source: internal/common/eventmanager.go executeCommandRuleAction *)
Definition executeCommandRuleAction (c : EventActionCommandConfig.t) : acts unit :=
  p ← gets the_params;
  replacer ← replacements (wants_object (KeyValue.Value <$> EventActionCommandConfig.EnvVars c) p) false;
  let args := (fun arg => replaceWithReplacer arg replacer) <$> EventActionCommandConfig.Args c in
  let env := (fun kv => KeyValue.Key kv +:+ "=" +:+
                        (if KeyValue.Value kv =s "$" then os_Getenv (KeyValue.Key kv) else replaceWithReplacer (KeyValue.Value kv) replacer))
             <$> EventActionCommandConfig.EnvVars c in
  outside (cmd_Run (EventActionCommandConfig.Cmd c) args env (EventActionCommandConfig.Timeout c)).

(** The files are read while the mail is sent. *)
(* source: internal/common/eventmanager.go getMailAttachments *)
Definition getMailAttachments (replacer : list (string * string)) (attachments : list string) : C (list attachment) :=
  '(files, _) ← foldl (fun (m : C (list attachment * Z)) virtualPath =>
    '(files, totalSize) ← m;
    info ← DoStat virtualPath 0 false;
    _ ← fail_if (negb (FileInfo.IsRegular info)) (PlainError "cannot attach non regular file");
    let totalSize := add64 totalSize (FileInfo.Size info) in
    _ ← fail_if (maxAttachmentsSize <? totalSize) (PlainError "unable to send files as attachment, size too large");
    mret (files ++ [FileAttachment (User.Username user) virtualPath (FileInfo.Size info)], totalSize))
    (mret ([], 0)) (replacePathsPlaceholders attachments replacer);
  mret files.
(* source: internal/common/eventmanager.go executeEmailRuleAction *)
Definition executeEmailRuleAction (c : EventActionEmailConfig.t) : acts unit :=
  p ← gets the_params;
  replacer ← replacements (wants_object [EventActionEmailConfig.Body c] p) false;
  let body := replaceWithReplacer (EventActionEmailConfig.Body c) replacer in
  let subject := replaceWithReplacer (EventActionEmailConfig.Subject c) replacer in
  let recipients := getEmailAddressesWithReplacer (EventActionEmailConfig.Recipients c) replacer in
  let bcc := getEmailAddressesWithReplacer (EventActionEmailConfig.Bcc c) replacer in
  let '(reports, fileAttachments) := partition (fun a => a =s RetentionReportPlaceHolder) (EventActionEmailConfig.Attachments c) in
  let checks := EventParams.retentionChecks p in
  if bool_decide (reports ≠ []) && bool_decide (checks = []) then fail (PlainError "no data retention report available")
  else
    res ← (if bool_decide (fileAttachments = []) then mret []
           else
             user ← getUserFromSender;
             user ← in_db (fun h => getUserForEventAction env_range_perms (fun names => getGroupsWithNames names h) user);
             as_user user (fun E => _ ← CheckFsRoot now IsShared; getMailAttachments replacer fileAttachments));
    outside (SendEmail recipients bcc subject body (EventActionEmailConfig.ContentType c) (((fun _ => RetentionReports checks) <$> reports) ++ res)).
End outgoing.

(** * The actions of a rule *)

(** What running an action does, as the rest of the manager needs it: the
    actions of [executeRuleAction] below, or any other. *)
Section rules.
Context {S : Type}.
(** the action runs with the conditions of its rule; its error is the result *)
Variable execute : BaseEventAction.t → ConditionOptions.t → M S unit.

Definition is_sync (a : EventAction.t) : bool := negb (EventAction.IsFailureAction a) && EventAction.ExecuteSync a.
Definition is_async (a : EventAction.t) : bool := negb (EventAction.IsFailureAction a) && negb (EventAction.ExecuteSync a).
(** The loop over the actions of a rule: the ones that are not [chosen] are
    passed over, and a failing one that stops on failure ends it.  It gives the
    names of the failing actions and the last error. *)
Fixpoint run_actions (chosen : EventAction.t → bool) (conditions : ConditionOptions.t) (actions : list EventAction.t) : M S (list string * option error) :=
  match actions with
  | [] => mret ([], None)
  | action :: actions =>
      if negb (chosen action) then run_actions chosen conditions actions
      else
        r ← outcome (execute (EventAction.Base action) conditions);
        match r with
        | Ok _ => run_actions chosen conditions actions
        | Err err =>
            if EventAction.StopOnFailure action then mret ([ea_name action], Some err)
            else '(failed, last) ← run_actions chosen conditions actions;
                 mret (ea_name action :: failed, Some (default err last))
        end
  end.
Definition options_of (rule : EventRule.t) : ConditionOptions.t := EventConditions.Options (EventRule.Conditions rule).
(** [before_failure] is [params.updateStatusFromError = false] *)
(* source: internal/common/eventmanager.go executeRuleAsyncActions *)
Definition executeRuleAsyncActions (before_failure : S → S) (rule : EventRule.t) (failedActions : list string) : M S unit :=
  '(failed, _) ← run_actions is_async (options_of rule) (EventRule.Actions rule);
  if bool_decide (failedActions ++ failed = []) then mret tt
  else
    _ ← modify before_failure;
    _ ← run_actions EventAction.IsFailureAction (options_of rule) (EventRule.Actions rule);
    mret tt.
End rules.

Section manager.
Context {St : Storage} {Hk : Hooks} {Cfg : Settings} {Zp : Zip} {Out : Outside} {E : Env}.
Variable now IsShared : Z.
Variable now_at : string → Z.
Variable doublestar_Match : string → string → option bool.
Variable range_fields : gmap string string → list (string * string).
Variable round_days : Z → Z.
Variable fuel : nat.
Variable GenerateUniqueID : string.

Definition execute_action (action : BaseEventAction.t) (conditions : ConditionOptions.t) : acts unit :=
  let o := BaseEventAction.Options action in
  let kind := BaseEventAction.Type_ action in
  if kind =? ActionTypeHTTP then executeHTTPRuleAction range_fields (BaseEventActionOptions.HTTPConfig o)
  else if kind =? ActionTypeCommand then executeCommandRuleAction range_fields (BaseEventActionOptions.CmdConfig o)
  else if kind =? ActionTypeEmail then executeEmailRuleAction now IsShared range_fields (BaseEventActionOptions.EmailConfig o)
  else if kind =? ActionTypeBackup then
    backupPath ← outside do_backup;
    on_params (setBackupParams now stat_size backupPath)
  else if kind =? ActionTypeUserQuotaReset then executeUsersQuotaResetRuleAction now doublestar_Match conditions
  else if kind =? ActionTypeFolderQuotaReset then executeFoldersQuotaResetRuleAction now doublestar_Match conditions
  else if kind =? ActionTypeTransferQuotaReset then executeTransferQuotaResetRuleAction doublestar_Match conditions
  else if kind =? ActionTypeDataRetentionCheck then
    executeDataRetentionCheckRuleAction now now_at doublestar_Match fuel (BaseEventActionOptions.RetentionFolders o) conditions (BaseEventAction.Name action)
  else if kind =? ActionTypeMetadataCheck then executeMetadataCheckRuleAction now doublestar_Match conditions
  else if kind =? ActionTypeFilesystem then
    executeFsRuleAction now IsShared doublestar_Match range_fields fuel (BaseEventActionOptions.FsConfig o) conditions
  else if kind =? ActionTypePasswordExpirationCheck then
    executePwdExpirationCheckRuleAction now doublestar_Match round_days (BaseEventActionOptions.PwdExpirationThreshold o) conditions
  else if kind =? ActionTypeUserExpirationCheck then executeUserExpirationCheckRuleAction now doublestar_Match conditions
  else fail (PlainError "unsupported action type").
(** The error of the action is added to those of the event, and returned. *)
(* source: internal/common/eventmanager.go executeRuleAction *)
Definition executeRuleAction (action : BaseEventAction.t) (conditions : ConditionOptions.t) : acts unit :=
  r ← outcome (execute_action action conditions);
  match r with
  | Ok _ => mret tt
  | Err err => let err := wrapped "action" (BaseEventAction.Name action) " failed" err in _ ← on_params (AddError (Some err)); fail err
  end.

(** [m] with parameters of its own, and what it leaves of them *)
Definition with_params {A} (p : params) (m : acts A) : acts (A * params) := fun s =>
  match m (s <| Acts.parameters := p |>) with
  | (Ok a, s') => (Ok (a, the_params s'), s' <| Acts.parameters := the_params s |>)
  | (Err e, s') => (Err e, s' <| Acts.parameters := the_params s |>)
  end.

(** The last error, and the goroutines started. *)
(* source: internal/common/eventmanager.go executeSyncRulesActions *)
Fixpoint executeSyncRulesActions (rules : list EventRule.t) (p : params) : acts (option error * list task) :=
  match rules with
  | [] => mret (None, [])
  | rule :: rules =>
      '((failedActions, err), paramsCopy) ← with_params (params_getACopy p)
         (run_actions executeRuleAction is_sync (options_of rule) (EventRule.Actions rule));
      '(last, tasks) ← executeSyncRulesActions rules p;
      mret (match last with Some e => Some e | None => err end, RuleTask rule paramsCopy failedActions :: tasks)
  end.

Definition keep_status (s : Acts.t) : Acts.t := s <| Acts.parameters ::= fun p => p <| EventParams.updateStatusFromError := false |> |>.
Definition run_rule (rule : EventRule.t) (p : params) (failedActions : list string) : acts unit :=
  _ ← with_params p (executeRuleAsyncActions executeRuleAction keep_status rule failedActions); mret tt.
(* source: internal/common/eventmanager.go executeAsyncRulesActions *)
Definition executeAsyncRulesActions (rules : list EventRule.t) (p : params) : acts unit :=
  let p := addUID GenerateUniqueID p in
  each_do (fun rule => run_rule rule (params_getACopy p) []) rules.
Definition run_task (t : task) : acts unit :=
  match t with
  | RulesTask rules p => executeAsyncRulesActions rules p
  | RuleTask rule p failedActions => run_rule rule p failedActions
  end.

(** * Events *)

Definition has_sync (rule : EventRule.t) : bool := existsb (fun a => EventAction.ExecuteSync a) (EventRule.Actions rule).
Definition consistent (objectType : string) (rule : EventRule.t) : bool := is_ok (CheckActionsConsistency rule objectType).
Definition async_task (rules : list EventRule.t) (p : params) : list task := if bool_decide (rules = []) then [] else [RulesTask rules p].
(** The boolean is whether a synchronous action was executed. *)
(* source: internal/common/eventmanager.go handleFsEvent *)
Definition handleFsEvent (c : container) (p : params) : acts (bool * option error * list task) :=
  if EventParams.Protocol p =s protocolEventAction then mret (false, None, [])
  else
    let matching := List.filter (fun rule => checkFsEventMatch doublestar_Match (EventRule.Conditions rule) p && consistent "" rule) (Container.FsEvents c) in
    let '(rulesWithSyncActions, rulesAsync) := List.partition has_sync matching in
    let p := addUID GenerateUniqueID (p <| EventParams.sender := EventParams.Name p |>) in
    if bool_decide (rulesWithSyncActions = []) then mret (false, None, async_task rulesAsync p)
    else '(err, tasks) ← executeSyncRulesActions rulesWithSyncActions p; mret (true, err, async_task rulesAsync p ++ tasks).
(* source: internal/common/eventmanager.go handleProviderEvent *)
Definition handleProviderEvent (c : container) (p : params) : list task :=
  let rules := List.filter (fun rule => checkProviderEventMatch doublestar_Match (EventRule.Conditions rule) p && consistent (EventParams.ObjectType p) rule)
                 (Container.ProviderEvents c) in
  async_task rules (p <| EventParams.sender := EventParams.ObjectName p |>).
(* source: internal/common/eventmanager.go handleIPBlockedEvent *)
Definition handleIPBlockedEvent (c : container) (p : params) : list task := async_task (List.filter (consistent "") (Container.IPBlockedEvents c)) p.
(* source: internal/common/eventmanager.go handleCertificateEvent *)
Definition handleCertificateEvent (c : container) (p : params) : list task := async_task (List.filter (consistent "") (Container.CertificateEvents c)) p.

Definition own_params : params := EventParams.zero <| EventParams.Status := 1 |> <| EventParams.updateStatusFromError := true |>.
(* source: internal/common/eventmanager.go RunOnDemandRule *)
Definition RunOnDemandRule (name : string) (h : DB.t) : res (list task) :=
  match eventRuleExists (convertName name) h with
  | Err _ => Err (RecordNotFoundError "rule" name)
  | Ok rule =>
      if negb (EventRule.Trigger rule =? EventTriggerOnDemand) then Err (ValidationError "rule is not defined as on-demand")
      else if negb (EventRule.Status rule =? 1) then Err (ValidationError "rule is inactive")
      else if negb (consistent "" rule) then Err (ValidationError "rule has inconsistent actions")
      else Ok [RulesTask [rule] own_params]
  end.
End manager.

(** * Logins through an identity provider *)

Section login.
Context {K : Kms} {Cfg : Settings} {R : Ranger}.
Context `{!Validate User.t, !Validate Group.t, !Validate Admin.t, !Validate Role.t,
  !Validate BaseVirtualFolder.t, !Validate APIKey.t, !Validate Share.t, !Validate BaseEventAction.t,
  !Validate EventRule.t, !Validate IPListEntry.t, !Validate Configs.t}.
Variable now : nat → Z.
Variable range : gmap string (list string) → list (string * list string).
Variable range_fields : gmap string string → list (string * string).
Variable doublestar_Match : string → string → option bool.
Variable ParseAdmin : string → res Admin.t.
Variable ParseUser : string → res User.t.
Variable GenerateUniqueID : string.

(** the template with the placeholders replaced, as JSON strings *)
Definition fill_template (template : string) (p : params) : api string :=
  replacer ← lift (getStringReplacements range_fields false true p);
  mret (replaceWithReplacer template replacer).
(** [err != nil && !errors.Is(err, util.ErrNotFound)] *)
Definition other_error {A} (r : res A) : option error :=
  match r with Ok _ | Err (RecordNotFoundError _ _) => None | Err e => Some e end.

(* source: internal/common/eventmanager.go executeAdminCheckAction *)
Definition executeAdminCheckAction (c : EventActionIDPAccountCheck.t) (p : params) : api Admin.t :=
  found ← outcome (read_db (Api_AdminExists (EventParams.Name p)));
  match found, other_error found with
  | _, Some e => fail e
  | Ok admin, _ =>
      if EventActionIDPAccountCheck.Mode c =? 1 then mret admin
      else
        data ← fill_template (EventActionIDPAccountCheck.TemplateAdmin c) p;
        newAdmin ← lift (ParseAdmin data);
        Api_UpdateAdmin now (if Admin.Password newAdmin =s "" then newAdmin <| Admin.Password := GenerateUniqueID |> else newAdmin) system
  | Err _, None =>
      data ← fill_template (EventActionIDPAccountCheck.TemplateAdmin c) p;
      newAdmin ← lift (ParseAdmin data);
      Api_AddAdmin now (if Admin.Password newAdmin =s "" then newAdmin <| Admin.Password := GenerateUniqueID |> else newAdmin) system
  end.
(* source: internal/common/eventmanager.go executeUserCheckAction *)
Definition executeUserCheckAction (c : EventActionIDPAccountCheck.t) (p : params) : api User.t :=
  found ← outcome (read_db (Api_UserExists (EventParams.Name p) ""));
  match found, other_error found with
  | _, Some e => fail e
  | Ok user, _ =>
      if EventActionIDPAccountCheck.Mode c =? 1 then read_db (load_settings range user)
      else
        data ← fill_template (EventActionIDPAccountCheck.TemplateUser c) p;
        newUser ← lift (ParseUser data);
        _ ← Api_UpdateUser now range newUser system;
        read_db (GetUserWithGroupSettings range (EventParams.Name p) "")
  | Err _, None =>
      data ← fill_template (EventActionIDPAccountCheck.TemplateUser c) p;
      newUser ← lift (ParseUser data);
      _ ← Api_AddUser now newUser system;
      read_db (GetUserWithGroupSettings range (EventParams.Name p) "")
  end.

(** the account found, added or updated *)
Inductive account := AUser (user : User.t) | AAdmin (admin : Admin.t).
(** The result and the goroutine started with the asynchronous actions of the
    rule and, after an error, its failure actions. *)
(* source: internal/common/eventmanager.go executeIDPAccountCheckRule *)
Definition executeIDPAccountCheckRule (rule : EventRule.t) (p : params) : api (res account * list task) :=
  match List.find (fun a => ea_type a =? ActionTypeIDPAccountCheck) (EventRule.Actions rule) with
  | None => mret (Err (PlainError "no action executed"), [])
  | Some action =>
      let c := BaseEventActionOptions.IDPConfig (ea_options action) in
      r ← outcome (if EventParams.Event p =s IDPLoginAdmin then admin ← executeAdminCheckAction c p; mret (AAdmin admin)
                   else if EventParams.Event p =s IDPLoginUser then user ← executeUserCheckAction c p; mret (AUser user)
                   else fail (PlainError "unsupported IDP login event"));
      mret (r, match r with
               | Ok _ => [RuleTask rule p []]
               | Err e => [RuleTask rule (AddError (Some (wrapped "unable to handle" (EventParams.Event p) "" e)) p) [ea_name action]]
               end)
  end.
(** [None]: no rule answers for the account *)
(* source: internal/common/eventmanager.go handleIDPLoginEvent *)
Definition handleIDPLoginEvent (c : container) (customFields : option (gmap string (option string))) (p : params) : api (option (res account) * list task) :=
  let matching := List.filter (fun rule => checkIPDLoginEventMatch doublestar_Match (EventRule.Conditions rule) p && consistent "" rule)
                    (Container.IPDLoginEvents c) in
  let '(rulesWithSyncActions, rulesAsync) := List.partition has_sync matching in
  let p := addIDPCustomFields customFields p in
  match rulesWithSyncActions with
  | _ :: _ :: _ => mret (Some (Err (PlainError "more than one account check action rules matches")), [])
  | [rule] =>
      let p := addUID GenerateUniqueID p in
      '(r, tasks) ← executeIDPAccountCheckRule rule p;
      mret (Some r, async_task rulesAsync p ++ tasks)
  | [] => mret (None, async_task rulesAsync (addUID GenerateUniqueID p))
  end.
End login.
