(* ===== verification/ConnectionsSpec.v ===== *)
(** What the table of active connections promises: a bag of connections with
    distinct identifiers and a limit on the sessions of a user
    ([connections_refine]); the clients it counts ([clients_counted]). *)
From S2P Require Import Prelude Util Entities MemoryCore ConnData TransfersChecker Transfers Connections.
Import ActiveConnection (ID, Username, Role, MaxSessions).
Open Scope Z_scope.

Implicit Types (s : conns_t) (c : ActiveConnection.t) (a : list ActiveConnection.t).

(** * The specification *)

Definition sessions (u : string) a : nat := length (filter (fun c => Username c = u) a).
Definition others (id : string) a : list ActiveConnection.t := filter (fun c => ID c ≠ id) a.
Definition too_many c a : bool :=
  negb (Username c =s "") && (0 <? MaxSessions c) && (MaxSessions c <=? Z.of_nat (sessions (Username c) a)).

Inductive conn_op := OAdd (c : ActiveConnection.t) | OSwap (c : ActiveConnection.t) | ORemove (id : string)
  | OGet (id role : string) | OSessions (u : string).
Inductive conn_result := RDone (r : res unit) | RConn (c : option ActiveConnection.t) | RCount (n : Z).

Definition spec_op (o : conn_op) a : conn_result * list ActiveConnection.t :=
  match o with
  | OAdd c => if too_many c a then (RDone (Err TooManySessions), a) else (RDone (Ok tt), c :: a)
  | OSwap c =>
      match list_find (fun x => ID x = ID c) a with
      | None => (RDone (Err (PlainError "connection to swap not found")), a)
      | Some _ => if too_many c (others (ID c) a) then (RDone (Err TooManySessions), a)
                  else (RDone (Ok tt), c :: others (ID c) a)
      end
  | ORemove id => (RConn (snd <$> list_find (fun x => ID x = id) a), others id a)
  | OGet id role => (RConn (c ← snd <$> list_find (fun x => ID x = id) a; if (role =s "") || (Role c =s role) then Some c else None), a)
  | OSessions u => (RCount (if u =s "" then 0 else Z.of_nat (sessions u a)), a)
  end.
Definition run_op (o : conn_op) s : conn_result * conns_t :=
  match o with
  | OAdd c => let '(r, s) := conns_Add c s in (RDone r, s)
  | OSwap c => let '(r, s) := conns_Swap c s in (RDone r, s)
  | ORemove id => match conns_Remove id s with
                  | (Ok (Some (c, _)), s) => (RConn (Some c), s)
                  | (_, s) => (RConn None, s)
                  end
  | OGet id role => (RConn (conns_Close id role s), s)
  | OSessions u => (RCount (GetActiveSessions u s), s)
  end.
(** the identifiers of the connections are unique, and there are not 2^63 of them *)
Definition op_ok (o : conn_op) a : Prop :=
  Z.of_nat (length a) < MaxInt64 ∧ match o with OAdd c => ∀ x, x ∈ a → ID x ≠ ID c | _ => True end.

Definition counts (m : gmap string Z) a : Prop := ∀ u,
  m !! u = if decide (u = "" ∨ sessions u a = 0%nat) then None else Some (Z.of_nat (sessions u a)).
Definition refines s a : Prop :=
  indexed_ok ID (ActiveConnections.connections s) ∧ (ActiveConnections.connections s).1 ≡ₚ a ∧ counts (ActiveConnections.perUserConns s) a.

(** * Counting sessions *)

#[local] Instance sessions_perm u : Proper ((≡ₚ) ==> eq) (sessions u).
Proof. intros a a' H. unfold sessions. by rewrite H. Qed.
#[local] Instance others_perm id : Proper ((≡ₚ) ==> (≡ₚ)) (others id).
Proof. intros a a' H. unfold others. by rewrite H. Qed.
#[local] Instance too_many_perm c : Proper ((≡ₚ) ==> eq) (too_many c).
Proof. intros a a' H. unfold too_many. by rewrite H. Qed.
#[local] Instance counts_perm m : Proper ((≡ₚ) ==> iff) (counts m).
Proof. intros a a' H. unfold counts. split; intros Hc u; [rewrite <- (sessions_perm u _ _ H)|rewrite (sessions_perm u _ _ H)]; apply Hc. Qed.

Lemma sessions_cons u c a : sessions u (c :: a) = ((if decide (Username c = u) then 1 else 0) + sessions u a)%nat.
Proof. unfold sessions. rewrite filter_cons. by case_decide. Qed.
Lemma sessions_le u a : (sessions u a ≤ length a)%nat.
Proof. apply length_filter. Qed.

Lemma add64_count n : 0 <= n < MaxInt64 → add64 n 1 = n + 1.
Proof. intros Hn. unfold MaxInt64 in *. apply wrap64_id. unfold in_int64, MinInt64, MaxInt64. lia. Qed.
Lemma sub64_count n : 0 <= n <= MaxInt64 → sub64 n 1 = n - 1.
Proof. intros Hn. unfold MaxInt64 in *. apply wrap64_id. unfold in_int64, MinInt64, MaxInt64. lia. Qed.

Lemma counts_add m c a : Z.of_nat (length a) < MaxInt64 → counts m a → counts (addUserConnection (Username c) m) (c :: a).
Proof.
  intros Hlen Hc u. unfold addUserConnection. pose proof (sessions_le (Username c) a).
  pose proof (add64_count (Z.of_nat (sessions (Username c) a)) ltac:(lia)) as Hadd.
  rewrite sessions_cons. destruct (String.eqb_spec (Username c) "") as [He|Hne].
  - rewrite Hc. destruct (decide (u = "")) as [->|Hu]; [by rewrite !decide_True by tauto|].
    by rewrite (decide_False (P := Username c = u)) by congruence.
  - destruct (decide (Username c = u)) as [<-|Hu].
    + rewrite lookup_insert_eq, decide_False, Hc by (intros [?|?]; [done|lia]). f_equal.
      destruct (decide _) as [[?|Hz]|]; [done|rewrite Hz; done|]. cbn [from_option id]. unfold id. rewrite Hadd. lia.
    + rewrite lookup_insert_ne by done. apply Hc.
Qed.
Lemma counts_remove m c a : Z.of_nat (length a) < MaxInt64 → counts m (c :: a) → counts (removeUserConnection (Username c) m) a.
Proof.
  intros Hlen Hc. unfold removeUserConnection. pose proof (sessions_le (Username c) a).
  assert (∀ u, u ≠ Username c ∨ u = "" → m !! u = if decide (u = "" ∨ sessions u a = 0%nat) then None else Some (Z.of_nat (sessions u a))) as Hother.
  { intros u Hu. rewrite Hc, sessions_cons. destruct (decide (u = "")) as [->|Hu']; [by rewrite !decide_True by tauto|].
    by rewrite (decide_False (P := Username c = u)) by (destruct Hu; congruence). }
  destruct (String.eqb_spec (Username c) "") as [He|Hne].
  { intros u. apply Hother. destruct (decide (u = "")); [by right|left; congruence]. }
  assert (m !! Username c = Some (Z.of_nat (S (sessions (Username c) a)))) as Hm.
  { rewrite Hc, sessions_cons, (decide_True (P := Username c = Username c)) by done. rewrite decide_False by (intros [?|?]; [done|lia]). done. }
  rewrite Hm. pose proof (sub64_count (Z.of_nat (S (sessions (Username c) a))) ltac:(lia)) as Hsub.
  destruct (Z.ltb_spec 1 (Z.of_nat (S (sessions (Username c) a)))) as [Hlt|Hle]; intros u.
  - destruct (decide (u = Username c)) as [->|Hu]; [|rewrite lookup_insert_ne by done; apply Hother; by left].
    rewrite lookup_insert_eq, decide_False, Hsub by (intros [?|?]; [done|lia]). f_equal. lia.
  - destruct (decide (u = Username c)) as [->|Hu]; [|rewrite lookup_delete_ne by done; apply Hother; by left].
    rewrite lookup_delete_eq, decide_True by (right; lia). done.
Qed.

(** * The operations *)

Lemma list_find_unique (l : list ActiveConnection.t) id c : NoDup (ID <$> l) → c ∈ l → ID c = id →
  snd <$> list_find (fun x => ID x = id) l = Some c.
Proof.
  intros Hnd Hc Hid. destruct (list_find_elem_of (fun x => ID x = id) l c Hc Hid) as [[i x] Hf]. rewrite Hf.
  apply list_find_Some in Hf as (Hx & Hxi & _). apply list_elem_of_lookup in Hc as [j Hj]. cbn. f_equal.
  assert (i = j) as ->; [|congruence].
  eapply (NoDup_lookup (ID <$> l)); [done|rewrite list_lookup_fmap, Hx; done|rewrite list_lookup_fmap, Hj; cbn; by rewrite Hid, Hxi].
Qed.
Lemma find_perm (l a : list ActiveConnection.t) id : NoDup (ID <$> l) → l ≡ₚ a →
  snd <$> list_find (fun x => ID x = id) l = snd <$> list_find (fun x => ID x = id) a.
Proof.
  intros Hnd Hp. destruct (list_find (fun x => ID x = id) l) as [[i c]|] eqn:Hf.
  - apply list_find_Some in Hf as (Hc & Hid & _). symmetry. apply list_find_unique; [by rewrite <- Hp| |done].
    rewrite <- Hp. by eapply list_elem_of_lookup_2.
  - apply list_find_None in Hf. rewrite Hp in Hf. apply (list_find_None (fun x => ID x = id)) in Hf. by rewrite Hf.
Qed.
Lemma filter_everything (P : ActiveConnection.t → Prop) `{!∀ x, Decision (P x)} a : (∀ x, x ∈ a → P x) → filter P a = a.
Proof.
  induction a as [|x a IH]; intros Hall; [done|]. rewrite filter_cons, decide_True by (apply Hall; by left). f_equal. apply IH. intros y Hy. apply Hall. by right.
Qed.
Lemma others_cons id c a : ID c = id → (∀ x, x ∈ a → ID x ≠ id) → others id (c :: a) = a.
Proof.
  intros Hc Ha. unfold others. rewrite filter_cons, decide_False by naive_solver. by apply filter_everything.
Qed.

(** The connection with an identifier, and the others. *)
Lemma refines_find id s a : refines s a →
  match find_connection id s with
  | Some (idx, c) => ID c = id ∧ snd <$> list_find (fun x => ID x = id) a = Some c ∧ a ≡ₚ c :: others id a ∧
      (ActiveConnections.connections s).1 !! idx = Some c
  | None => list_find (fun x => ID x = id) a = None ∧ others id a = a
  end.
Proof.
  intros (Hok & Hp & _). unfold find_connection. destruct (indexed_find id _) as [[idx c]|] eqn:Hf.
  - destruct (indexed_find_Some _ _ _ _ _ Hok Hf) as (Hc & Hid & _). pose proof (proj1 Hok) as Hnd. split_and!; [done| | |done].
    + rewrite <- (find_perm _ _ _ Hnd Hp). apply list_find_unique; [done|by eapply list_elem_of_lookup_2|done].
    + pose proof (swap_remove_perm _ _ _ Hc) as Hs. rewrite Hs in Hp.
      rewrite Hs, fmap_cons, NoDup_cons in Hnd. destruct Hnd as [Hnew _].
      rewrite <- Hp. rewrite others_cons; [done..|]. intros x Hx Hxi. apply Hnew. rewrite Hid, <- Hxi. by apply list_elem_of_fmap_2.
  - pose proof (proj1 (indexed_find_None _ _ _ Hok) Hf) as Hn. assert (∀ x, x ∈ a → ID x ≠ id) as Ha by (intros x; rewrite <- Hp; apply Hn).
    split; [by apply list_find_None, Forall_forall|]. by apply filter_everything.
Qed.

Lemma refines_sessions u s a : refines s a → GetActiveSessions u s = if u =s "" then 0 else Z.of_nat (sessions u a).
Proof.
  intros (_ & _ & Hc). unfold GetActiveSessions. rewrite Hc. destruct (String.eqb_spec u "") as [->|Hne]; [by rewrite decide_True by tauto|].
  case_decide as Hd; [|done]. destruct Hd as [?|Hz]; [done|]. by rewrite Hz.
Qed.

Lemma indexed_replace c old idx (st : @indexed_t ActiveConnection.t) : indexed_ok ID st → st.1 !! idx = Some old → ID c = ID old →
  indexed_ok ID (<[idx := c]> st.1, st.2) ∧ <[idx := c]> st.1 ≡ₚ c :: swap_remove idx st.1.
Proof.
  intros [Hnd Hm] Hold Hid. pose proof (lookup_lt_Some _ _ _ Hold) as Hlt.
  assert (ID <$> <[idx := c]> st.1 = ID <$> st.1) as Heq.
  { rewrite list_fmap_insert. apply list_insert_id. by rewrite list_lookup_fmap, Hold, Hid. }
  split; [split; cbn|].
  - by rewrite Heq.
  - intros k i. rewrite Hm. assert (∀ l : list ActiveConnection.t, (∃ x, l !! i = Some x ∧ ID x = k) ↔ (ID <$> l) !! i = Some k) as Hl.
    { intros l. rewrite list_lookup_fmap. destruct (l !! i) as [x|]; cbn; naive_solver. }
    by rewrite !Hl, Heq.
  - pose proof (swap_remove_perm _ _ _ Hold) as Hs.
    assert (∀ y, <[idx := y]> st.1 ≡ₚ y :: (take idx st.1 ++ drop (S idx) st.1)) as Hins.
    { intros y. rewrite (insert_take_drop _ _ _ Hlt). solve_Permutation. }
    pose proof (Hins old) as Ho. rewrite list_insert_id in Ho by done.
    rewrite Hins. f_equiv. apply (inj (cons old)). by etrans; [symmetry; exact Ho|exact Hs].
Qed.

Lemma refines_sessions_count u s a : refines s a → u ≠ "" → GetActiveSessions u s = Z.of_nat (sessions u a).
Proof. intros Hr Hu. rewrite (refines_sessions u s a Hr). by destruct (String.eqb_spec u ""). Qed.

Lemma Add_refines c s a : refines s a → op_ok (OAdd c) a → (run_op (OAdd c) s).1 = (spec_op (OAdd c) a).1 ∧
  refines (run_op (OAdd c) s).2 (spec_op (OAdd c) a).2.
Proof.
  intros Hr [Hlen Hnew]. cbn [run_op spec_op]. unfold conns_Add, too_many. destruct (String.eqb_spec (Username c) "") as [Hu|Hu]; cbn [negb andb].
  2: rewrite (refines_sessions_count _ _ _ Hr Hu); destruct ((0 <? MaxSessions c) && _); [done|].
  all: split; [done|]; destruct Hr as (Hok & Hp & Hc); split_and!;
    [apply indexed_add_ok; [done|intros x; rewrite Hp; apply Hnew] | cbn; rewrite Hp; solve_Permutation | by apply counts_add].
Qed.

Lemma Remove_refines id s a : refines s a → op_ok (ORemove id) a → (run_op (ORemove id) s).1 = (spec_op (ORemove id) a).1 ∧
  refines (run_op (ORemove id) s).2 (spec_op (ORemove id) a).2.
Proof.
  intros Hr [Hlen _]. pose proof (refines_find id s a Hr) as Hf. cbn [run_op spec_op]. unfold conns_Remove.
  destruct (find_connection id s) as [[idx c]|] eqn:Hfc.
  - destruct Hf as (Hid & -> & Hperm & Hidx). split; [done|]. destruct Hr as (Hok & Hp & Hc).
    destruct (indexed_remove_ok _ _ _ _ _ Hok Hfc) as [Hok' Hp']. split_and!; [done| |].
    + cbn [snd spec_op]. cbn. apply (inj (cons c)). rewrite <- Hperm, <- Hp. symmetry. exact Hp'.
    + cbn. rewrite Hperm in Hc. apply counts_remove; [|done]. rewrite Hperm in Hlen. cbn in Hlen. lia.
  - destruct Hf as [-> ->]. by split.
Qed.

Lemma Swap_refines c s a : refines s a → op_ok (OSwap c) a → (run_op (OSwap c) s).1 = (spec_op (OSwap c) a).1 ∧
  refines (run_op (OSwap c) s).2 (spec_op (OSwap c) a).2.
Proof.
  intros Hr [Hlen _]. pose proof (refines_find (ID c) s a Hr) as Hf. cbn [run_op spec_op]. unfold conns_Swap.
  destruct (find_connection (ID c) s) as [[idx old]|] eqn:Hfc; [|by destruct Hf as [-> _]].
  destruct Hf as (Hid & Hfind & Hperm & Hidx). destruct (list_find _ a) as [[j x]|]; [|done]. clear Hfind.
  destruct Hr as (Hok & Hp & Hc). set (rest := others (ID c) a) in *. rewrite Hperm in Hc, Hlen. cbn [length] in Hlen.
  pose proof (counts_remove _ old rest ltac:(lia) Hc) as Hrest. set (m := removeUserConnection _ _) in *.
  assert ((match m !! Username c with Some val => MaxSessions c <=? val | None => false end) && (0 <? MaxSessions c) =
    (MaxSessions c <=? Z.of_nat (sessions (Username c) rest)) && (0 <? MaxSessions c) ∨ Username c = "") as Hmax.
  { destruct (decide (Username c = "")); [by right|left]. rewrite Hrest. case_decide as Hd; [|done]. destruct Hd as [?|Hz]; [done|].
    rewrite Hz. destruct (Z.ltb_spec 0 (MaxSessions c)); [|by rewrite !andb_false_r]. destruct (Z.leb_spec (MaxSessions c) (Z.of_nat 0)); [lia|done]. }
  assert (negb (Username c =s "") && (0 <? MaxSessions c) && (match m !! Username c with Some val => MaxSessions c <=? val | None => false end) =
    too_many c rest) as ->.
  { unfold too_many. destruct (String.eqb_spec (Username c) ""); [done|]. cbn [negb andb]. destruct Hmax as [Hmax|]; [|done].
    by rewrite andb_comm, Hmax, andb_comm. }
  destruct (too_many c rest); split; [done| |done|].
  - split_and!; [done|done|]. cbn. rewrite Hperm. apply counts_add; [lia|done].
  - destruct (indexed_replace c old idx _ Hok Hidx ltac:(done)) as [Hok' Hp']. split_and!.
    + cbn. by destruct (ActiveConnections.connections s).
    + cbn. destruct (ActiveConnections.connections s) as [l index] eqn:Hconn. cbn in *. rewrite Hp'. f_equiv.
      pose proof (swap_remove_perm _ _ _ Hidx) as Hs. apply (inj (cons old)). etrans; [symmetry; exact Hs|]. cbn. by rewrite Hp, <- Hperm.
    + cbn. apply counts_add; [lia|done].
Qed.

Lemma op_refines o s a : refines s a → op_ok o a → (run_op o s).1 = (spec_op o a).1 ∧ refines (run_op o s).2 (spec_op o a).2.
Proof.
  intros Hr Ho. destruct o as [c|c|id|id role|u]; [by apply Add_refines|by apply Swap_refines|by apply Remove_refines| |].
  - split; [|done]. cbn. f_equal. unfold conns_Close. pose proof (refines_find id s a Hr) as Hf.
    destruct (find_connection id s) as [[idx c]|]; [by destruct Hf as (_ & -> & _)|by destruct Hf as [-> _]].
  - split; [|done]. cbn. by rewrite (refines_sessions _ _ _ Hr).
Qed.

Fixpoint run_ops (ops : list conn_op) s : list conn_result * conns_t :=
  match ops with [] => ([], s) | o :: ops => let '(r, s) := run_op o s in let '(rs, s) := run_ops ops s in (r :: rs, s) end.
Fixpoint spec_ops (ops : list conn_op) a : list conn_result * list ActiveConnection.t :=
  match ops with [] => ([], a) | o :: ops => let '(r, a) := spec_op o a in let '(rs, a) := spec_ops ops a in (r :: rs, a) end.
Fixpoint ops_ok (ops : list conn_op) a : Prop :=
  match ops with [] => True | o :: ops => op_ok o a ∧ ops_ok ops (spec_op o a).2 end.

Lemma ops_refine ops : ∀ s a, refines s a → ops_ok ops a → (run_ops ops s).1 = (spec_ops ops a).1 ∧ refines (run_ops ops s).2 (spec_ops ops a).2.
Proof.
  induction ops as [|o ops IH]; intros s a Hr Ho; [done|]. destruct Ho as [Ho Hops]. cbn.
  destruct (op_refines o s a Hr Ho) as [H1 H2]. destruct (run_op o s) as [r s'], (spec_op o a) as [r' a']. cbn in *. subst r'.
  destruct (IH s' a' H2 Hops) as [H3 H4]. destruct (run_ops ops s'), (spec_ops ops a'). cbn in *. by subst.
Qed.
Lemma init_refines : refines ActiveConnections.init [].
Proof. split_and!; [apply indexed_ok_empty|done|]. intros u. cbn. rewrite decide_True; [apply lookup_empty|by right]. Qed.

(** C6: The table of active connections implements a bag of connections as long
    as every added connection has an identifier that is not in the table and
    there are fewer than 2^63: any such sequence of additions, swaps, removals,
    look-ups and session counts gives the results the bag gives, with the session limit of a user enforced on
    additions and swaps (the swapped connection does not count), and ends with
    the connections of the bag in the slice. *)
Theorem connections_refine ops : ops_ok ops [] →
  let s := (run_ops ops ActiveConnections.init).2 in
  (run_ops ops ActiveConnections.init).1 = (spec_ops ops []).1 ∧ (ActiveConnections.connections s).1 ≡ₚ (spec_ops ops []).2.
Proof.
  intros Ho. destruct (ops_refine ops _ _ init_refines Ho) as (H1 & _ & H2 & _). done.
Qed.

(** * Clients by address *)

(** the clients of each address, and in all *)
Definition clients_ok (m : clientsMap.t) (clients : list string) : Prop :=
  (∀ ip, clientsMap.clients m !! ip =
    if decide (ip ∈ clients) then Some (Z.of_nat (length (filter (fun x => x = ip) clients))) else None) ∧
  clientsMap.totalConnections m = wrap32 (Z.of_nat (length clients)).
Inductive client_op := CAdd (ip : string) | CRemove (ip : string).
Definition run_client (m : clientsMap.t) (o : client_op) : clientsMap.t :=
  match o with CAdd ip => clients_add ip m | CRemove ip => clients_remove ip m end.
Fixpoint remove_one (ip : string) (l : list string) : list string :=
  match l with [] => [] | x :: l' => if x =s ip then l' else x :: remove_one ip l' end.
Definition spec_client (l : list string) (o : client_op) : list string :=
  match o with CAdd ip => ip :: l | CRemove ip => remove_one ip l end.

Lemma remove_one_perm ip l : ip ∈ l → l ≡ₚ ip :: remove_one ip l.
Proof.
  induction l as [|x l IH]; intros Hin; [by apply elem_of_nil in Hin|]. cbn. destruct (String.eqb_spec x ip) as [->|Hne]; [done|].
  apply elem_of_cons in Hin as [?|Hin]; [congruence|]. rewrite (IH Hin) at 1. apply Permutation_swap.
Qed.
Lemma remove_one_none ip l : ip ∉ l → remove_one ip l = l.
Proof. induction l as [|x l IH]; intros Hin; [done|]. cbn. destruct (String.eqb_spec x ip) as [->|]; [by destruct Hin; left|]. f_equal. set_solver. Qed.
Lemma wrap32_add x y : wrap32 (wrap32 x + y) = wrap32 (x + y).
Proof.
  unfold wrap32. replace ((x + 2 ^ 31) mod 2 ^ 32 - 2 ^ 31 + y + 2 ^ 31) with ((x + 2 ^ 31) mod 2 ^ 32 + y) by lia.
  rewrite Zplus_mod_idemp_l. do 2 f_equal. lia.
Qed.

Notation from_ip ip l := (length (filter (fun x : string => x = ip) l)).
Lemma from_ip_cons ip x l : from_ip ip (x :: l) = ((if decide (x = ip) then 1 else 0) + from_ip ip l)%nat.
Proof. rewrite filter_cons. by case_decide. Qed.
Lemma from_ip_zero ip l : ip ∉ l → from_ip ip l = 0%nat.
Proof. induction l as [|x l IH]; intros Hin; [done|]. rewrite from_ip_cons, decide_False, IH; set_solver. Qed.
Lemma from_ip_pos ip l : ip ∈ l → (0 < from_ip ip l)%nat.
Proof. intros Hin. rewrite (remove_one_perm ip l Hin), from_ip_cons, decide_True by done. lia. Qed.
Lemma from_ip_le ip l : (from_ip ip l ≤ length l)%nat.
Proof. apply length_filter. Qed.

Lemma client_add_ok ip m l : Z.of_nat (length l) < MaxInt64 → clients_ok m l → clients_ok (clients_add ip m) (ip :: l).
Proof.
  intros Hlen [Hm Ht]. pose proof (from_ip_le ip l). split.
  - intros k. change (clientsMap.clients (clients_add ip m)) with (<[ip := add64 (getTotalFrom ip m) 1]> (clientsMap.clients m)).
    rewrite from_ip_cons. destruct (decide (ip = k)) as [<-|Hne].
    + rewrite lookup_insert_eq, decide_True by (by left). f_equal. unfold getTotalFrom. rewrite Hm.
      case_decide as Hin; cbn [from_option]; unfold id; [rewrite add64_count by lia; lia|]. rewrite (from_ip_zero _ _ Hin). done.
    + rewrite lookup_insert_ne, Hm by done. repeat case_decide; set_solver.
  - cbn. rewrite Ht, wrap32_add. f_equal. lia.
Qed.
Lemma client_remove_ok ip m l : Z.of_nat (length l) < MaxInt64 → clients_ok m l → clients_ok (clients_remove ip m) (remove_one ip l).
Proof.
  intros Hlen [Hm Ht]. unfold clients_remove. rewrite Hm. destruct (decide (ip ∈ l)) as [Hin|Hin].
  2:{ rewrite remove_one_none by done. done. }
  pose proof (remove_one_perm ip l Hin) as Hp. pose proof (from_ip_le ip l). pose proof (from_ip_pos ip l Hin).
  assert (from_ip ip l = S (from_ip ip (remove_one ip l))) as Hc by (rewrite Hp at 1; by rewrite from_ip_cons, decide_True).
  assert (∀ k, k ≠ ip → clientsMap.clients m !! k =
    if decide (k ∈ remove_one ip l) then Some (Z.of_nat (from_ip k (remove_one ip l))) else None) as Hother.
  { intros k Hk. rewrite Hm. assert (from_ip k l = from_ip k (remove_one ip l)) as -> by (rewrite Hp at 1; by rewrite from_ip_cons, decide_False).
    assert (k ∈ l ↔ k ∈ remove_one ip l) as Hiff by (rewrite Hp at 1; set_solver). repeat case_decide; tauto. }
  assert (ip ∈ remove_one ip l ↔ (0 < from_ip ip (remove_one ip l))%nat) as Hiff.
  { split; [apply from_ip_pos|]. intros Hpos. destruct (decide (ip ∈ remove_one ip l)) as [|Hn]; [done|]. rewrite (from_ip_zero _ _ Hn) in Hpos. lia. }
  destruct (Z.ltb_spec 1 (Z.of_nat (from_ip ip l))) as [Hlt|Hle]; (split; [intros k; cbn|cbn; rewrite Ht]).
  2,4: rewrite <- Z.add_opp_r, wrap32_add; f_equal; rewrite Hp at 1; cbn; lia.
  - destruct (decide (k = ip)) as [->|Hk]; [|rewrite lookup_insert_ne by done; by apply Hother].
    rewrite lookup_insert_eq, decide_True by (apply Hiff; lia). rewrite sub64_count by lia. f_equal. lia.
  - destruct (decide (k = ip)) as [->|Hk]; [|rewrite lookup_delete_ne by done; by apply Hother].
    rewrite lookup_delete_eq, decide_False; [done|]. rewrite Hiff. lia.
Qed.

(** The counters of the clients are exact: after any sequence of connections
    and disconnections the map holds for every address the number of its open
    connections and no entry for an address without any, and the total is their
    number (as a 32-bit counter); a disconnection that was never counted
    changes nothing. *)
Theorem clients_counted (ops : list client_op) : Z.of_nat (length ops) < MaxInt64 →
  clients_ok (foldl run_client (clientsMap.mk 0 ∅) ops) (foldl spec_client [] ops).
Proof.
  enough (clients_ok (foldl run_client (clientsMap.mk 0 ∅) ops) (foldl spec_client [] ops) ∧
    (length (foldl spec_client [] ops) ≤ length ops)%nat ∨ MaxInt64 <= Z.of_nat (length ops)) by (intros; naive_solver lia).
  induction ops as [|o ops IH] using rev_ind; [left; split; [split; [|done]; intros ip; cbn; apply lookup_empty|done]|].
  rewrite !foldl_snoc, length_app. cbn [length]. destruct (decide (MaxInt64 <= Z.of_nat (length ops + 1))) as [|Hlen]; [by right|]. left.
  destruct IH as [[Hok Hle]|Hge]; [|lia]. destruct o as [ip|ip]; cbn [run_client spec_client].
  - split; [apply client_add_ok; [lia|done]|cbn; lia].
  - split; [apply client_remove_ok; [lia|done]|]. destruct (decide (ip ∈ foldl spec_client [] ops)) as [Hin|Hin].
    + pose proof (remove_one_perm _ _ Hin) as Hp%Permutation_length. cbn in Hp. lia.
    + rewrite remove_one_none by done. lia.
Qed.

(** * Samples *)

Definition sample_conn (id username : string) (maxSessions : Z) : ActiveConnection.t :=
  ActiveConnection.mk id username "" maxSessions ProtocolFTP "USER" "10.0.0.1:1234" "" 0 0 [].

Lemma connections_refine_witness :
  let ops := [OAdd (sample_conn "FTP_1" "" 0); OAdd (sample_conn "FTP_2" "alice" 1); OSwap (sample_conn "FTP_1" "alice" 1);
              OSwap (sample_conn "FTP_2" "alice" 1); OSessions "alice"; ORemove "FTP_1"; OAdd (sample_conn "FTP_3" "bob" 0); ORemove "FTP_2"; OGet "FTP_3" ""] in
  let s := (run_ops ops ActiveConnections.init).2 in
  (run_ops ops ActiveConnections.init).1 =
    [RDone (Ok tt); RDone (Ok tt); RDone (Err TooManySessions); RDone (Ok tt); RCount 1; RConn (Some (sample_conn "FTP_1" "" 0));
     RDone (Ok tt); RConn (Some (sample_conn "FTP_2" "alice" 1)); RConn (Some (sample_conn "FTP_3" "bob" 0))] ∧
  (ActiveConnections.connections s).1 ≡ₚ [sample_conn "FTP_3" "bob" 0].
Proof.
  intros ops s. split; [vm_compute; reflexivity|].
  assert (ops_ok ops []) as Hok.
  { cbn. repeat split; try lia; try discriminate; try set_solver. all: intros x Hx; set_solver. }
  exact (proj2 (connections_refine ops Hok)).
Defined.

Lemma clients_counted_witness :
  let m := foldl run_client (clientsMap.mk 0 ∅) [CAdd "a"; CAdd "b"; CAdd "a"; CRemove "c"; CRemove "a"; CRemove "b"] in
  getTotalFrom "a" m = 1 ∧ clientsMap.clients m !! "b" = None ∧ clients_ok m ["a"].
Proof.
  intros m. split; [vm_compute; reflexivity|]. split; [vm_compute; reflexivity|].
  exact (clients_counted [CAdd "a"; CAdd "b"; CAdd "a"; CRemove "c"; CRemove "a"; CRemove "b"] ltac:(vm_compute; reflexivity)).
Defined.

(** With an identifier that is in the table already, which two requests for the
    SFTP subsystem on one channel give, the table is not a bag: only one of the
    connections can be removed, the other one stays and counts as a session. *)
Lemma repeated_identifier_stays : let c := sample_conn "SFTP_1_1" "alice" 0 in
  let ops := [OAdd c; OAdd c; ORemove "SFTP_1_1"; ORemove "SFTP_1_1"; OGet "SFTP_1_1" ""; OSessions "alice"] in
  (run_ops ops ActiveConnections.init).1 =
    [RDone (Ok tt); RDone (Ok tt); RConn (Some c); RConn None; RConn None; RCount 1].
Proof. vm_compute. reflexivity. Qed.
