(* ===== verification/Streams.v ===== *)
(** The streams of a transfer and what the protocol servers share: counting what
    a read or a write moved and closing (internal/sftpd/transfer.go,
    internal/ftpd/transfer.go, internal/webdavd/file.go, internal/httpd/file.go).

    What a read or a write of the file or the pipe returned is a parameter of
    the definitions.  The metadata of a reader is left out. *)
From S2P Require Import Prelude GoPath Util Net FsConfig FsValidate Entities Links Tables MemoryCore MemoryOps UserPerms MemoryQueries ValidateUser ValidateObjects Quota ConnData Connection ConnectionOps TransfersChecker Transfers.
Open Scope Z_scope.
Import BaseTransfer.

(** What a read or a write returned: a number of bytes and an error. *)
Definition io_result : Type := Z * option error.
Definition EOF : error := PlainError "io.EOF".
Definition ErrTransferClosed : error := PlainError "common.ErrTransferClosed".

(** Flags of [os.OpenFile] on Linux, which the storages receive. *)
Definition O_WRONLY : Z := 1.
Definition O_RDWR : Z := 2.
Definition O_CREATE : Z := 64.
Definition O_EXCL : Z := 128.
Definition O_TRUNC : Z := 512.
Definition SeekStart : Z := 0.
Definition SeekCurrent : Z := 1.
Definition SeekEnd : Z := 2.

Definition error_of (r : res unit) : option error := match r with Ok _ => None | Err e => Some e end.

(** What a transfer reads from: a file, a pipe, or a stream that only fails. *)
Inductive stream `{Storage} :=
  | FromFile (w : writer)
  | FromPipe (r : reader)
  | Failing (inner : option stream) (err : error).

Section streams.
Context {St : Storage} {Hk : Hooks} {Cfg : Settings} {E : Env}.
Implicit Types (t : BaseTransfer.t).

(** [pre_action] for a download or an upload; only its error matters *)
Definition pre_transfer (operation fsPath virtualPath : string) (size flags : Z) (refused : error) : C unit :=
  try_catch (hook (pre_action (FsEvent.mk operation fsPath virtualPath "" "" size 0) flags)) (fun _ => mret tt)
    (fun _ => fail refused).

(* source: internal/common/common.go IsAtomicUploadEnabled *)
Definition IsAtomicUploadEnabled : bool :=
  negb (Z.land (CommonConfig.UploadMode cfg) 1 =? 0) || negb (Z.land (CommonConfig.UploadMode cfg) 2 =? 0).
Definition atomic_upload (f : fs) : bool := IsAtomicUploadEnabled && fs_IsAtomicUploadSupported f.
(** the path an upload writes to *)
Definition upload_path (f : fs) (fsPath : string) : string :=
  if atomic_upload f then fs_GetAtomicUploadPath f fsPath else fsPath.
(** the existing file becomes the temporary one *)
Definition stage_existing (f : fs) (fsPath filePath requestPath : string) : C unit :=
  if atomic_upload f then _ ← fs_call f (perform (EStage requestPath) (fs_Rename f fsPath filePath)); mret tt else mret tt.

(** ** Reading and writing *)

Definition after_read (report : bool) (io : io_result) t : BaseTransfer.t * io_result :=
  let '(n, err) := io in
  let t := t <| BytesSent ::= fun b => add64 b n |> in
  match (if err is Some _ then err else error_of (CheckRead t)) with
  | None => (t, (n, None))
  | Some e => if is_error e EOF then (t, (n, Some e))
              else let t := if report then TransferError e t else t in (t, (n, Some (ConvertError t e)))
  end.
Definition after_write (io : io_result) t : BaseTransfer.t * io_result :=
  let '(n, err) := io in
  let t := t <| BytesReceived ::= fun b => add64 b n |> in
  match (if err is Some _ then err else error_of (CheckWrite t)) with
  | None => (t, (n, None))
  | Some e => let t := TransferError e t in (t, (n, Some (ConvertError t e)))
  end.

(** ** Closing *)

Fixpoint close_stream (s : stream) : C unit :=
  match s with
  | FromFile w => on_files (writer_Close w)
  | FromPipe r => on_files (reader_Close r)
  | Failing None _ => mret tt
  | Failing (Some s) _ => close_stream s
  end.
Definition attempt (m : C unit) : C (option error) := try_catch m (fun _ => mret None) (fun e => mret (Some e)).

(** the file, else the writer, whose error becomes that of the transfer, else the reader *)
Definition closeIO t (w : option writer) (r : option stream) : C (BaseTransfer.t * option error) :=
  match File t, w, r with
  | Some file, _, _ => err ← attempt (on_files (writer_Close file)); mret (t, err)
  | None, Some w, _ =>
      err ← attempt (on_files (writer_Close w));
      mret (if err is Some e then TransferError e t else t, err)
  | None, None, Some r => err ← attempt (close_stream r); mret (t, err)
  | None, None, None => mret (t, None)
  end.
(** [closeIO], then [Close] of the base transfer, whose error counts first *)
Definition close_transfer t (w : option writer) (r : option stream) : C (option error * list checker_call) :=
  '(t, err) ← closeIO t w r;
  '(errBaseClose, calls) ← Close t;
  mret (GetFsError (Fs t) <$> (if errBaseClose is Some _ then errBaseClose else err), calls).
End streams.
