(* ===== verification/SftpHandlers.v ===== *)
(** The SFTP server: the requests of a client over the operations of its
    connection (internal/sftpd/handler.go) and the transfers it opens
    (internal/sftpd/transfer.go).

    A request is what [github.com/pkg/sftp] decodes.  Creating a transfer takes
    two readings of the clock and the IP address of the client. *)
From S2P Require Import Prelude GoPath Util Net FsConfig FsValidate Entities Links Tables MemoryCore MemoryOps UserPerms MemoryQueries ValidateUser ValidateObjects Quota ConnData Connection ConnectionOps TransfersChecker Transfers Streams.
Open Scope Z_scope.

Definition ErrSSHFxOk : error := PlainError "sftp.ErrSSHFxOk".
Definition uint64 (z : Z) : Z := z mod 2 ^ 64.

Module FileOpenFlags.
(** [sftp.FileOpenFlags] *)
Record t := mk { Read : bool; Write : bool; Append : bool; Creat : bool; Trunc : bool; Excl : bool }.
End FileOpenFlags.
Module SftpRequest.
(** [sftp.Request]: the path, the target of a rename or a link, the open flags,
    and the attributes with the flags that say which are given. *)
Record t := mk {
  Method : string; Filepath : string; Target : string; Pflags : FileOpenFlags.t;
  hasPermissions : bool; hasUidGid : bool; hasAcmodtime : bool; hasSize : bool; Attributes : StatAttributes.t }.
End SftpRequest.
Module StatVFS.
(** [sftp.StatVFS]; [Frsize], [Bavail], [Favail] equal [Bsize], [Bfree], [Ffree] *)
Record t := mk { Bsize : Z; Blocks : Z; Bfree : Z; Files : Z; Ffree : Z; Namemax : Z }.
End StatVFS.

Module SftpTransfer.
(* source: internal/sftpd/transfer.go transfer *)
Record t `{Storage} := mk {
  Base : BaseTransfer.t; writerAt : option writer; readerAt : option stream; isFinished : bool }.
#[global] Instance eta `{Storage} : Settable t := {| settable := fun x =>
  mk _ (Base x) (writerAt x) (readerAt x) (isFinished x) |}.
End SftpTransfer.

(* source: internal/sftpd/handler.go getOSOpenFlags *)
Definition getOSOpenFlags (f : FileOpenFlags.t) : Z :=
  let osFlags := 0 in
  let osFlags :=
    if FileOpenFlags.Read f && FileOpenFlags.Write f then Z.lor osFlags O_RDWR
    else if FileOpenFlags.Write f then Z.lor osFlags O_WRONLY else osFlags in
  let osFlags := if FileOpenFlags.Creat f then Z.lor osFlags O_CREATE else osFlags in
  let osFlags := if FileOpenFlags.Trunc f then Z.lor osFlags O_TRUNC else osFlags in
  if FileOpenFlags.Excl f then Z.lor osFlags O_EXCL else osFlags.

Section sftp.
Context {St : Storage} {Hk : Hooks} {Cfg : Settings} {E : Env}.
Variables (folderPrefix : string) (now1 now2 : Z) (remoteIP : string).
Implicit Types (x : SftpTransfer.t) (r : SftpRequest.t).
Import SftpRequest.

(** * Transfers *)

Definition failing (errForRead : option error) (inner : stream) : stream :=
  match errForRead with None => inner | Some e => Failing (Some inner) e end.
(* source: internal/sftpd/transfer.go newTransfer *)
Definition newTransfer (t : BaseTransfer.t) (pipeWriter : option writer) (pipeReader : option reader) (errForRead : option error)
    : SftpTransfer.t :=
  let '(w, rd) :=
    match BaseTransfer.File t, pipeWriter, pipeReader with
    | Some file, _, _ => (Some file, Some (failing errForRead (FromFile file)))
    | None, Some pw, _ => (Some pw, None)
    | None, None, Some pr => (None, Some (failing errForRead (FromPipe pr)))
    | None, None, None => (None, None)
    end in
  let rd := match BaseTransfer.File t, errForRead, pipeReader with None, Some e, None => Some (Failing None e) | _, _, _ => rd end in
  SftpTransfer.mk _ t w rd false.

(** [io] is what the reader returns when it can be called *)
(* source: internal/sftpd/transfer.go#L103-L121 transfer.ReadAt *)
Definition sftpd_ReadAt (io : io_result) x : SftpTransfer.t * io_result :=
  match SftpTransfer.readerAt x with
  | None => (x, (0, Some (RuntimePanic "nil readerAt")))
  | Some rd =>
      let io := match rd with Failing _ e => (0, Some e) | _ => io end in
      let '(t, res) := after_read (BaseTransfer.transferType (SftpTransfer.Base x) =? TransferDownload) io (SftpTransfer.Base x) in
      (x <| SftpTransfer.Base := t |>, res)
  end.
(* source: internal/sftpd/transfer.go#L125-L146 transfer.WriteAt *)
Definition sftpd_WriteAt (off : Z) (io : io_result) x : SftpTransfer.t * io_result :=
  let t := SftpTransfer.Base x in
  if off <? BaseTransfer.MinWriteOffset t then
    let err := PlainError "invalid write offset" in
    (x <| SftpTransfer.Base := TransferError err t |>, (0, Some err))
  else
    match SftpTransfer.writerAt x with
    | None => (x, (0, Some (RuntimePanic "nil writerAt")))
    | Some _ => let '(t, res) := after_write io t in (x <| SftpTransfer.Base := t |>, res)
    end.
(* source: internal/sftpd/transfer.go setFinished *)
Definition sftpd_setFinished x : res SftpTransfer.t :=
  if SftpTransfer.isFinished x then Err ErrTransferClosed else Ok (x <| SftpTransfer.isFinished := true |>).
(* source: internal/sftpd/transfer.go#L153-L184 transfer.Close *)
Definition sftpd_Close x : C (SftpTransfer.t * option error * list checker_call) :=
  match sftpd_setFinished x with
  | Err e => mret (x, Some e, [])
  | Ok x => '(err, calls) ← close_transfer (SftpTransfer.Base x) (SftpTransfer.writerAt x) (SftpTransfer.readerAt x);
            mret (x, err, calls)
  end.

(** One round of the copy of an SSH command: what was read and, when something
    was, what was written. *)
Definition copy_round (written : Z) (rd wr : io_result) (t : BaseTransfer.t) : BaseTransfer.t * Z * option (option error) :=
  let '(nr, er) := rd in
  let after_source (t : BaseTransfer.t) (written : Z) :=
    (t, written, match er with Some e => Some (if is_error e EOF then None else Some e) | None => None end) in
  if 0 <? nr then
    let '(nw, ew) := wr in
    let written' := if 0 <? nw then add64 written nw else written in
    let isDownload := BaseTransfer.transferType t =? TransferDownload in
    let t := if 0 <? nw then (if isDownload then t <| BaseTransfer.BytesSent := written' |> else t <| BaseTransfer.BytesReceived := written' |>)
             else t in
    match (if 0 <? nw then error_of (if isDownload then CheckRead t else CheckWrite t) else None), ew with
    | Some e, _ => (t, written', Some (Some e))
    | None, Some e => (t, written', Some (Some e))
    | None, None => if negb (nr =? nw) then (t, written', Some (Some (PlainError "io.ErrShortWrite"))) else after_source t written'
    end
  else after_source t written.
Fixpoint copy_rounds (written : Z) (rounds : list (io_result * io_result)) (t : BaseTransfer.t)
    : option (BaseTransfer.t * Z * option error) :=
  match rounds with
  | [] => None
  | (rd, wr) :: rounds =>
      match copy_round written rd wr t with
      | (t, written, Some err) => Some (t, written, err)
      | (t, written, None) => copy_rounds written rounds t
      end
  end.
(** [None] while the source has more; the result is given with the error the
    transfer keeps *)
(* source: internal/sftpd/transfer.go copyFromReaderToWriter *)
Definition copyFromReaderToWriter (rounds : list (io_result * io_result)) (t : BaseTransfer.t)
    : C (option (BaseTransfer.t * Z * option error) * list checker_call) :=
  if BaseTransfer.MaxWriteSize t <? 0 then
    calls ← RemoveTransfer t; mret (Some (t, 0, Some ErrQuotaExceeded), calls)
  else
    match copy_rounds 0 rounds t with
    | None => mret (None, [])
    | Some (t, written, err) =>
        let t := t <| BaseTransfer.ErrTransfer := err |> in
        calls ← RemoveTransfer t; mret (Some (t, written, err), calls)
    end.

(** * Downloads and uploads *)

Definition base_transfer := NewBaseTransfer now1 now2 remoteIP.

(* source: internal/sftpd/handler.go Fileread *)
Definition Fileread r : C (SftpTransfer.t * list checker_call) :=
  let Filepath := Filepath r in
  _ ← fail_if (negb (HasPerm user PermDownload (path_Dir Filepath))) ErrSSHFxPermissionDenied;
  transferQuota ← gets (fun s => GetTransferQuota (Conn.quotas s));
  _ ← fail_if (negb (HasDownloadSpace transferQuota)) ReadQuotaExceeded;
  let '(ok, policy) := IsFileAllowed user Filepath in
  _ ← fail_if (negb ok) (getErrorForDeniedFile protocol policy);
  '(f, p) ← GetFsAndResolvedPath Filepath;
  _ ← pre_transfer "pre-download" p Filepath 0 0 PermissionDenied;
  rd ← fs_call f (_ ← record (EDownload Filepath); look (fs_Open f p 0));
  '(t, calls) ← base_transfer (reader_File rd) p p Filepath TransferDownload 0 0 0 0 false f transferQuota;
  mret (newTransfer t None (if reader_File rd is Some _ then None else Some rd) None, calls).

Definition pipe_of (w : writer) : option writer := if writer_File w is Some _ then None else Some w.

(* source: internal/sftpd/handler.go handleSFTPUploadToNewFile *)
Definition handleSFTPUploadToNewFile (f : fs) (pflags : FileOpenFlags.t) (resolvedPath filePath requestPath : string)
    (errForRead : option error) : C (SftpTransfer.t * list checker_call) :=
  '(diskQuota, transferQuota) ← gets (fun s => HasSpace true false requestPath (Conn.quotas s));
  _ ← fail_if (negb (QuotaCheckResult.HasSpace diskQuota) || negb (HasUploadSpace transferQuota)) QuotaExceeded;
  _ ← pre_transfer "pre-upload" resolvedPath requestPath 0 0 PermissionDenied;
  let osFlags := getOSOpenFlags pflags in
  w ← fs_call f (perform (ECreate requestPath true) (fs_Create f filePath osFlags (GetCreateChecks requestPath true false)));
  _ ← SetPathPermissions f filePath requestPath;
  let maxWriteSize := match GetMaxWriteSize diskQuota false 0 (fs_IsUploadResumeSupported f) with Ok m => m | Err _ => 0 end in
  '(t, calls) ← base_transfer (writer_File w) resolvedPath filePath requestPath TransferUpload 0 0 maxWriteSize 0 true f transferQuota;
  mret (newTransfer t (pipe_of w) None errForRead, calls).

(* source: internal/sftpd/handler.go updateQuotaAfterTruncate *)
Definition updateQuotaAfterTruncate (requestPath : string) (fileSize : Z) : C unit :=
  match GetVirtualFolderForPath user (path_Dir requestPath) with
  | Ok vfolder => update_folder_and_user vfolder 0 (- fileSize)
  | Err _ => update_user_quota 0 (- fileSize)
  end.

(* source: internal/sftpd/handler.go handleSFTPUploadToExistingFile *)
Definition handleSFTPUploadToExistingFile (f : fs) (pflags : FileOpenFlags.t) (resolvedPath filePath : string) (fileSize : Z)
    (requestPath : string) (errForRead : option error) : C (SftpTransfer.t * list checker_call) :=
  '(diskQuota, transferQuota) ← gets (fun s => HasSpace false false requestPath (Conn.quotas s));
  _ ← fail_if (negb (QuotaCheckResult.HasSpace diskQuota) || negb (HasUploadSpace transferQuota)) QuotaExceeded;
  let osFlags := getOSOpenFlags pflags in
  let isTruncate := negb (Z.land osFlags O_TRUNC =? 0) in
  let isResume := negb isTruncate in
  maxWriteSize ← lift (GetMaxWriteSize diskQuota isResume fileSize (IsUploadResumeSupported f fileSize));
  _ ← pre_transfer "pre-upload" resolvedPath requestPath fileSize osFlags PermissionDenied;
  _ ← stage_existing f resolvedPath filePath requestPath;
  w ← fs_call f (perform (ECreate requestPath false) (fs_Create f filePath osFlags (GetCreateChecks requestPath false isResume)));
  '(minWriteOffset, initialSize, truncatedSize) ←
    (if isResume then
       mret (if FileOpenFlags.Append pflags || negb (fs_IsUploadResumeSupported f) then fileSize else 0, fileSize, 0)
     else if isTruncate && HasTruncateSupport f then _ ← updateQuotaAfterTruncate requestPath fileSize; mret (0, 0, 0)
     else mret (0, fileSize, fileSize));
  _ ← SetPathPermissions f filePath requestPath;
  '(t, calls) ← base_transfer (writer_File w) resolvedPath filePath requestPath TransferUpload minWriteOffset initialSize maxWriteSize
                  truncatedSize false f transferQuota;
  mret (newTransfer t (pipe_of w) None errForRead, calls).

(* source: internal/sftpd/handler.go handleFilewrite *)
Definition handleFilewrite r : C (SftpTransfer.t * list checker_call) :=
  let Filepath := Filepath r in
  _ ← fail_if (negb (IsFileAllowed user Filepath).1) PermissionDenied;
  '(f, p) ← GetFsAndResolvedPath Filepath;
  let filePath := upload_path f p in
  let errForRead := if negb (HasOpenRWSupport f) && FileOpenFlags.Read (Pflags r) then Some ErrSSHFxOpUnsupported else None in
  let errForRead := if negb (HasPerm user PermDownload (path_Dir Filepath)) then Some os_ErrPermission else errForRead in
  let to_new :=
    _ ← fail_if (negb (HasPerm user PermUpload (path_Dir Filepath))) ErrSSHFxPermissionDenied;
    handleSFTPUploadToNewFile f (Pflags r) p filePath Filepath errForRead in
  try_catch (look (fs_Lstat f p))
    (fun stat =>
       if FileInfo.IsSymlink stat then to_new
       else
         _ ← fail_if (FileInfo.IsDir stat) ErrSSHFxOpUnsupported;
         _ ← fail_if (negb (HasPerm user PermOverwrite (path_Dir Filepath))) ErrSSHFxPermissionDenied;
         handleSFTPUploadToExistingFile f (Pflags r) p filePath (FileInfo.Size stat) Filepath errForRead)
    (fun statErr => if fs_IsNotExist f statErr then to_new else fail (GetFsError f statErr)).

(** * Commands *)

(* source: internal/sftpd/handler.go handleSFTPSetstat *)
Definition handleSFTPSetstat r : C unit :=
  let a := Attributes r in
  let flags := (if hasPermissions r then 2 else 0) + (if hasUidGid r then 1 else 0) + (if hasAcmodtime r then 4 else 0)
               + (if hasSize r then 8 else 0) in
  SetStat (Filepath r)
    (StatAttributes.mk
       (if hasPermissions r then StatAttributes.Mode a else 0)
       (if hasAcmodtime r then StatAttributes.Atime a else 0) (if hasAcmodtime r then StatAttributes.Mtime a else 0)
       (if hasUidGid r then StatAttributes.UID a else 0) (if hasUidGid r then StatAttributes.GID a else 0)
       flags (if hasSize r then wrap64 (StatAttributes.Size a) else 0)).

(* source: internal/sftpd/handler.go handleSFTPRemove *)
Definition handleSFTPRemove r : C unit :=
  '(f, fsPath) ← GetFsAndResolvedPath (Filepath r);
  fi ← fs_call f (look (fs_Lstat f fsPath));
  _ ← fail_if (FileInfo.IsDir fi && negb (FileInfo.IsSymlink fi)) (PlainError "sftp.ErrSSHFxFailure");
  RemoveFile f fsPath (Filepath r) fi.

(** the error [sftp.ErrSSHFxOk] is the answer that says that all went well *)
(* source: internal/sftpd/handler.go Filecmd *)
Definition Filecmd r : C unit :=
  if Method r =s "Setstat" then handleSFTPSetstat r
  else if Method r =s "Rename" then _ ← Rename (Filepath r) (Target r); fail ErrSSHFxOk
  else if Method r =s "Rmdir" then RemoveDir (Filepath r)
  else if Method r =s "Mkdir" then _ ← CreateDir (Filepath r) true; fail ErrSSHFxOk
  else if Method r =s "Symlink" then _ ← CreateSymlink (Filepath r) (Target r); fail ErrSSHFxOk
  else if Method r =s "Remove" then handleSFTPRemove r
  else fail ErrSSHFxOpUnsupported.

Definition dot (name : string) : FileInfo.t := NewFileInfo name true 0 0 false.
(* source: internal/sftpd/handler.go Filelist *)
Definition Filelist r : C (list FileInfo.t) :=
  if Method r =s "List" then
    files ← ListDir (Filepath r);
    let files := if negb (Filepath r =s "/") || negb (folderPrefix =s "") then PrependFileInfo (dot "") files (dot "..") else files in
    mret (PrependFileInfo (dot "") files (dot "."))
  else if Method r =s "Stat" then
    _ ← fail_if (negb (HasPerm user PermListItems (path_Dir (Filepath r)))) ErrSSHFxPermissionDenied;
    s ← DoStat (Filepath r) 0 true; mret [s]
  else fail ErrSSHFxOpUnsupported.

(* source: internal/sftpd/handler.go canReadLink *)
Definition canReadLink (name : string) : res unit :=
  _ ← refuse (negb (HasPerm user PermListItems (path_Dir name))) ErrSSHFxPermissionDenied;
  let '(ok, policy) := IsFileAllowed user name in
  refuse (negb ok && (policy =? DenyPolicyHide)) ErrSSHFxNoSuchFile.
(* source: internal/sftpd/handler.go Readlink *)
Definition Readlink (filePath : string) : C string :=
  _ ← lift (canReadLink filePath);
  '(f, p) ← GetFsAndResolvedPath filePath;
  s ← fs_call f (look (fs_Readlink f p));
  _ ← lift (canReadLink s);
  mret s.
(* source: internal/sftpd/handler.go Lstat *)
Definition sftpd_Lstat r : C (list FileInfo.t) :=
  _ ← fail_if (negb (HasPerm user PermListItems (path_Dir (Filepath r)))) ErrSSHFxPermissionDenied;
  s ← DoStat (Filepath r) 1 true; mret [s].
(* source: internal/sftpd/handler.go RealPath *)
Definition RealPath (p : string) : C string :=
  _ ← fail_if (negb (HasPerm user PermListItems (path_Dir p))) ErrSSHFxPermissionDenied;
  let StartDirectory := BaseUserFilters.StartDirectory (base_filters user) in
  let p := if StartDirectory =s "" then CleanPath p else CleanPathWithBase StartDirectory p in
  '(f, fsPath) ← GetFsAndResolvedPath p;
  match fs_RealPath f with
  | Some realPather => fs_call f (look (realPather fsPath))
  | None => mret p
  end.

(** * Disk usage *)

(** [for bsize > uint64(quotaResult.QuotaSize) { bsize /= 4 }] *)
Fixpoint shrink_bsize (fuel : nat) (bsize size : Z) : option Z :=
  match fuel with
  | O => None
  | S fuel => if size <? bsize then shrink_bsize fuel (bsize / 4) size else Some bsize
  end.
(** [disk] is what the storage reports *)
(* source: internal/sftpd/handler.go getStatVFSFromQuotaResult *)
Definition getStatVFSFromQuotaResult (disk : res (Z * Z * Z)) (q : QuotaCheckResult.t) : res StatVFS.t :=
  '(quotaSize, quotaFiles) ←
    match disk with
    | Ok (total, _, files) =>
        let QuotaSize := QuotaCheckResult.QuotaSize q in
        let QuotaFiles := QuotaCheckResult.QuotaFiles q in
        Ok (if (QuotaSize =? 0) || (wrap64 total <? QuotaSize) then wrap64 total else QuotaSize,
            if (QuotaFiles =? 0) || (wrap64 files <? QuotaFiles) then wrap64 files else QuotaFiles)
    | Err e => if is_error e ErrStorageSizeUnavailable then Ok (QuotaCheckResult.QuotaSize q, QuotaCheckResult.QuotaFiles q) else Err e
    end;
  let quotaSize := if quotaSize =? 0 then add64 (QuotaCheckResult.UsedSize q) (8 * 1024 * 1024 * 1024 * 1024) else quotaSize in
  let quotaFiles := if quotaFiles =? 0 then add64 (QuotaCheckResult.UsedFiles q) 1000000 else quotaFiles in
  match shrink_bsize 8 4096 (uint64 quotaSize) with
  | None => Err (RuntimePanic "fuel")
  | Some 0 => Err (RuntimePanic "integer divide by zero")
  | Some bsize =>
      let has := QuotaCheckResult.HasSpace q in
      Ok (StatVFS.mk bsize (uint64 quotaSize / bsize)
            (if has then uint64 (quotaSize - QuotaCheckResult.UsedSize q) / bsize else 0)
            (uint64 quotaFiles)
            (if has then uint64 (quotaFiles - QuotaCheckResult.UsedFiles q) else 0) 255)
  end.
(** the disk usage a client sees: that of the storage, which is returned as it
    is ([inl]), or one made of the quota *)
(* source: internal/sftpd/handler.go StatVFS *)
Definition sftpd_StatVFS (Filepath : string) : C ((Z * Z * Z) + StatVFS.t) :=
  '(quotaResult, _) ← gets (fun s => HasSpace true true (path_Join2 Filepath "fakefile.txt") (Conn.quotas s));
  '(f, p) ← GetFsAndResolvedPath Filepath;
  let from_quota := v ← look (fun w => getStatVFSFromQuotaResult (fs_GetAvailableDiskSize f p w) quotaResult); mret (inr v) in
  if negb (QuotaCheckResult.HasSpace quotaResult) then from_quota
  else if (QuotaCheckResult.QuotaSize quotaResult =? 0) && (QuotaCheckResult.QuotaFiles quotaResult =? 0) then
    try_catch (look (fs_GetAvailableDiskSize f p)) (fun d => mret (inl d))
      (fun e => if is_error e ErrStorageSizeUnavailable then from_quota else fail e)
  else from_quota.
End sftp.
