(* ===== verification/FtpHandlers.v ===== *)
(** The FTP server: the driver [github.com/fclairamb/ftpserverlib] calls
    (internal/ftpd/handler.go) and its transfers (internal/ftpd/transfer.go).

    The last command of the client and its working directory, which the library
    keeps, are parameters.  The FTP mode of a transfer is left out. *)
From S2P Require Import Prelude GoPath Util Net FsConfig FsValidate Entities Links Tables MemoryCore MemoryOps UserPerms MemoryQueries ValidateUser ValidateObjects Quota ConnData Connection ConnectionOps TransfersChecker Transfers Streams.
Open Scope Z_scope.

Definition errNotImplemented : error := PlainError "ftpd.errNotImplemented".
Definition errCOMBNotSupported : error := PlainError "ftpd.errCOMBNotSupported".

Module FtpTransfer.
(* source: internal/ftpd/transfer.go transfer *)
Record t `{Storage} := mk {
  Base : BaseTransfer.t; writer : option ConnData.writer; reader : option stream; isFinished : bool; expectedOffset : Z }.
#[global] Instance eta `{Storage} : Settable t := {| settable := fun x =>
  mk _ (Base x) (writer x) (reader x) (isFinished x) (expectedOffset x) |}.
End FtpTransfer.

Section ftp.
Context {St : Storage} {Hk : Hooks} {Cfg : Settings} {E : Env}.
Variables (now1 now2 : Z) (remoteIP : string).
Variables (lastCommand clientPath : string).
Implicit Types (x : FtpTransfer.t).

(** * Transfers *)

(* source: internal/ftpd/transfer.go newTransfer *)
Definition ftpd_newTransfer (t : BaseTransfer.t) (pipeWriter : option writer) (pipeReader : option reader) (expectedOffset : Z) : FtpTransfer.t :=
  let '(w, rd) :=
    match BaseTransfer.File t, pipeWriter, pipeReader with
    | Some file, _, _ => (Some file, Some (FromFile file))
    | None, Some pw, _ => (Some pw, None)
    | None, None, Some pr => (None, Some (FromPipe pr))
    | None, None, None => (None, None)
    end in
  FtpTransfer.mk _ t w rd false expectedOffset.

(* source: internal/ftpd/transfer.go#L57-L73 transfer.Read *)
Definition ftpd_Read (io : io_result) x : FtpTransfer.t * io_result :=
  match FtpTransfer.reader x with
  | None => (x, (0, Some (RuntimePanic "nil reader")))
  | Some _ => let '(t, res) := after_read true io (FtpTransfer.Base x) in (x <| FtpTransfer.Base := t |>, res)
  end.
(* source: internal/ftpd/transfer.go#L76-L92 transfer.Write *)
Definition ftpd_Write (io : io_result) x : FtpTransfer.t * io_result :=
  match FtpTransfer.writer x with
  | None => (x, (0, Some (RuntimePanic "nil writer")))
  | Some _ => let '(t, res) := after_write io (FtpTransfer.Base x) in (x <| FtpTransfer.Base := t |>, res)
  end.
(** the answer of a seek in the file, and the transfer *)
(* source: internal/ftpd/transfer.go#L95-L109 transfer.Seek *)
Definition ftpd_Seek (offset whence : Z) x : C (FtpTransfer.t * res Z) :=
  let failed e x := x <| FtpTransfer.Base ::= TransferError e |> in
  match BaseTransfer.File (FtpTransfer.Base x) with
  | Some file => try_catch (on_files (file_Seek file offset whence)) (fun ret => mret (x, Ok ret)) (fun e => mret (failed e x, Err e))
  | None =>
      if negb (is_none (FtpTransfer.reader x) && is_none (FtpTransfer.writer x)) && (FtpTransfer.expectedOffset x =? offset) && (whence =? SeekStart)
      then mret (x, Ok offset)
      else mret (failed (PlainError "seek is unsupported for this transfer") x, Err ErrOpUnsupported)
  end.
(* source: internal/ftpd/transfer.go setFinished *)
Definition ftpd_setFinished x : res FtpTransfer.t :=
  if FtpTransfer.isFinished x then Err ErrTransferClosed else Ok (x <| FtpTransfer.isFinished := true |>).
(* source: internal/ftpd/transfer.go#L112-L143 transfer.Close *)
Definition ftpd_Close x : C (FtpTransfer.t * option error * list checker_call) :=
  match ftpd_setFinished x with
  | Err e => mret (x, Some e, [])
  | Ok x => '(err, calls) ← close_transfer (FtpTransfer.Base x) (FtpTransfer.writer x) (FtpTransfer.reader x); mret (x, err, calls)
  end.

(** * Files and directories *)

(* source: internal/ftpd/handler.go Mkdir *)
Definition ftpd_Mkdir (name : string) : C unit := CreateDir name true.
(* source: internal/ftpd/handler.go Remove *)
Definition ftpd_Remove (name : string) : C unit :=
  '(f, p) ← GetFsAndResolvedPath name;
  fi ← fs_call f (look (fs_Lstat f p));
  _ ← fail_if (FileInfo.IsDir fi && negb (FileInfo.IsSymlink fi)) (GetGenericError None);
  RemoveFile f p name fi.
(* source: internal/ftpd/handler.go Rename *)
Definition ftpd_Rename (oldname newname : string) : C unit := Rename oldname newname.
(* source: internal/ftpd/handler.go RemoveDir *)
Definition ftpd_RemoveDir (name : string) : C unit := RemoveDir name.
(* source: internal/ftpd/handler.go Symlink *)
Definition ftpd_Symlink (oldname newname : string) : C unit := CreateSymlink oldname newname.
(* source: internal/ftpd/handler.go Chown *)
Definition ftpd_Chown (name : string) (uid gid : Z) : C unit := fail ErrOpUnsupported.
(* source: internal/ftpd/handler.go Chmod *)
Definition ftpd_Chmod (name : string) (mode : Z) : C unit := SetStat name (StatAttributes.mk mode 0 0 0 0 2 0).
(* source: internal/ftpd/handler.go Chtimes *)
Definition ftpd_Chtimes (name : string) (atime mtime : Z) : C unit := SetStat name (StatAttributes.mk 0 atime mtime 0 0 4 0).
(** [Create], [MkdirAll], [Open], [OpenFile] and [RemoveAll]: the library uses
    its extensions instead *)
(* source: internal/ftpd/handler.go OpenFile *)
Definition ftpd_not_implemented : C unit := fail errNotImplemented.
(* source: internal/ftpd/handler.go AllocateSpace *)
Definition ftpd_AllocateSpace (size : Z) : C unit := mret tt.

(** [strings.ContainsAny(name, "*?[]^")] *)
Definition ContainsAny (s chars : string) : bool :=
  existsb (fun a => existsb (Ascii.eqb a) (String.list_ascii_of_string chars)) (String.list_ascii_of_string s).
(* source: internal/ftpd/handler.go isListDirWithWildcards *)
Definition isListDirWithWildcards (name : string) : bool :=
  ContainsAny name "*?[]^" && ((lastCommand =s "LIST") || (lastCommand =s "NLST")).
(** the information, and whether the next listing is of the names that match *)
(* source: internal/ftpd/handler.go Stat *)
Definition ftpd_Stat (name : string) : C (FileInfo.t * bool) :=
  _ ← fail_if (negb (HasPerm user PermListItems (path_Dir name))) PermissionDenied;
  try_catch (DoStat name 0 true) (fun fi => mret (fi, false))
    (fun err => if isListDirWithWildcards (path_Base name) then mret (NewFileInfo name true 0 0 false, true) else fail err).

(* source: internal/ftpd/handler.go getPathRelativeTo *)
Fixpoint getPathRelativeTo (fuel : nat) (base target sb : string) : option string :=
  match fuel with
  | O => None
  | S fuel =>
      if base =s target then Some sb
      else
        let base := if has_suffix base "/" then base else base +:+ "/" in
        if has_prefix target base then Some (sb +:+ TrimPrefix target base)
        else if (base =s "/") || (base =s "./") then Some target
        else getPathRelativeTo fuel (path_Dir (path_Clean base)) target (sb +:+ "../")
  end.
(* source: internal/ftpd/handler.go getListDirWithWildcards *)
Definition getListDirWithWildcards (dirName pattern : string) : C (list FileInfo.t) :=
  files ← ListDir dirName;
  relativeBase ← (if negb (lastCommand =s "NLST") then
                    lift (match getPathRelativeTo (length (split_slash clientPath) + 2) clientPath dirName "" with
                          | Some r => Ok r | None => Err (RuntimePanic "fuel") end)
                  else mret "");
  lift (foldr (fun fi rest =>
    match path_Match pattern (FileInfo.Name fi) with
    | None => Err (PlainError "path.ErrBadPattern")
    | Some m => l ← rest; Ok (if m then NewFileInfo (path_Join2 relativeBase (FileInfo.Name fi)) (FileInfo.IsDir fi) (FileInfo.Size fi) (FileInfo.ModTime fi) true :: l else l)
    end) (Ok []) files).
(* source: internal/ftpd/handler.go ReadDir *)
Definition ftpd_ReadDir (doWildcardListDir : bool) (name : string) : C (list FileInfo.t) :=
  if doWildcardListDir then getListDirWithWildcards (path_Dir name) (path_Base name) else ListDir name.

(* source: internal/ftpd/handler.go GetAvailableSpace *)
Definition GetAvailableSpace (dirName : string) : C Z :=
  '(diskQuota, transferQuota) ← gets (fun s => HasSpace false false (path_Join2 dirName "fakefile.txt") (Conn.quotas s));
  let maxUpload := BaseUserFilters.MaxUploadFileSize (base_filters user) in
  let allowedDiskSize := QuotaCheckResult.AllowedSize diskQuota in
  if negb (QuotaCheckResult.HasSpace diskQuota) || negb (HasUploadSpace transferQuota) then mret 0
  else if (allowedDiskSize =? 0) && (TransferQuota.AllowedULSize transferQuota =? 0) && (TransferQuota.AllowedTotalSize transferQuota =? 0) then
    if 0 <? maxUpload then mret maxUpload
    else
      '(f, p) ← GetFsAndResolvedPath dirName;
      '(_, free, _) ← fs_call f (look (fs_GetAvailableDiskSize f p));
      mret (wrap64 free)
  else
    let allowedUploadSize := if 0 <? TransferQuota.AllowedTotalSize transferQuota then TransferQuota.AllowedTotalSize transferQuota
                             else TransferQuota.AllowedULSize transferQuota in
    let allowedSize := if allowedDiskSize =? 0 then allowedUploadSize
                       else if (0 <? allowedUploadSize) && (allowedUploadSize <? allowedDiskSize) then allowedUploadSize else allowedDiskSize in
    mret (if (0 <? maxUpload) && (maxUpload <? allowedSize) then maxUpload else allowedSize).

(** * Downloads and uploads *)

Definition ftpd_base_transfer := NewBaseTransfer now1 now2 remoteIP.
Definition ftpd_pipe_of (w : writer) : option writer := if writer_File w is Some _ then None else Some w.

(* source: internal/ftpd/handler.go downloadFile *)
Definition downloadFile (f : fs) (fsPath ftpPath : string) (offset : Z) : C (FtpTransfer.t * list checker_call) :=
  _ ← fail_if (negb (HasPerm user PermDownload (path_Dir ftpPath))) PermissionDenied;
  transferQuota ← gets (fun s => GetTransferQuota (Conn.quotas s));
  _ ← fail_if (negb (HasDownloadSpace transferQuota)) ReadQuotaExceeded;
  let '(ok, policy) := IsFileAllowed user ftpPath in
  _ ← fail_if (negb ok) (getErrorForDeniedFile protocol policy);
  _ ← pre_transfer "pre-download" fsPath ftpPath 0 0 PermissionDenied;
  rd ← fs_call f (_ ← record (EDownload ftpPath); look (fs_Open f fsPath offset));
  '(t, calls) ← ftpd_base_transfer (reader_File rd) fsPath fsPath ftpPath TransferDownload 0 0 0 0 false f transferQuota;
  mret (ftpd_newTransfer t None (if reader_File rd is Some _ then None else Some rd) offset, calls).

(* source: internal/ftpd/handler.go handleFTPUploadToNewFile *)
Definition handleFTPUploadToNewFile (f : fs) (flags : Z) (resolvedPath filePath requestPath : string) : C (FtpTransfer.t * list checker_call) :=
  '(diskQuota, transferQuota) ← gets (fun s => HasSpace true false requestPath (Conn.quotas s));
  _ ← fail_if (negb (QuotaCheckResult.HasSpace diskQuota) || negb (HasUploadSpace transferQuota)) ErrStorageExceeded;
  _ ← pre_transfer "pre-upload" resolvedPath requestPath 0 0 ErrFileNameNotAllowed;
  w ← fs_call f (perform (ECreate requestPath true) (fs_Create f filePath flags (GetCreateChecks requestPath true false)));
  _ ← SetPathPermissions f filePath requestPath;
  let maxWriteSize := match GetMaxWriteSize diskQuota false 0 (fs_IsUploadResumeSupported f) with Ok m => m | Err _ => 0 end in
  '(t, calls) ← ftpd_base_transfer (writer_File w) resolvedPath filePath requestPath TransferUpload 0 0 maxWriteSize 0 true f transferQuota;
  mret (ftpd_newTransfer t (ftpd_pipe_of w) None 0, calls).

(** a nil file here is a panic *)
Definition seek_resumed (w : writer) (initialSize : Z) : C unit :=
  match writer_File w with
  | Some file => ignore (on_files (file_Seek file initialSize SeekStart))
  | None => fail (RuntimePanic "nil file")
  end.
(* source: internal/ftpd/handler.go handleFTPUploadToExistingFile *)
Definition handleFTPUploadToExistingFile (f : fs) (flags : Z) (resolvedPath filePath : string) (fileSize : Z) (requestPath : string)
    : C (FtpTransfer.t * list checker_call) :=
  '(diskQuota, transferQuota) ← gets (fun s => HasSpace false false requestPath (Conn.quotas s));
  _ ← fail_if (negb (QuotaCheckResult.HasSpace diskQuota) || negb (HasUploadSpace transferQuota)) ErrStorageExceeded;
  let isResume := Z.land flags O_TRUNC =? 0 in
  maxWriteSize ← lift (GetMaxWriteSize diskQuota isResume fileSize (IsUploadResumeSupported f fileSize));
  _ ← pre_transfer "pre-upload" resolvedPath requestPath fileSize flags ErrFileNameNotAllowed;
  _ ← stage_existing f resolvedPath filePath requestPath;
  w ← fs_call f (perform (ECreate requestPath false) (fs_Create f filePath flags (GetCreateChecks requestPath false isResume)));
  '(minWriteOffset, initialSize, truncatedSize) ←
    (if isResume then
       _ ← (if IsSFTPFs f && fs_IsUploadResumeSupported f then seek_resumed w fileSize else mret tt);
       mret (fileSize, fileSize, 0)
     else if HasTruncateSupport f then
       _ ← match GetVirtualFolderForPath user (path_Dir requestPath) with
           | Ok vfolder => update_folder_and_user vfolder 0 (- fileSize)
           | Err _ => update_user_quota 0 (- fileSize)
           end;
       mret (0, 0, 0)
     else mret (0, fileSize, fileSize));
  _ ← SetPathPermissions f filePath requestPath;
  '(t, calls) ← ftpd_base_transfer (writer_File w) resolvedPath filePath requestPath TransferUpload minWriteOffset initialSize maxWriteSize
                  truncatedSize false f transferQuota;
  mret (ftpd_newTransfer t (ftpd_pipe_of w) None minWriteOffset, calls).

(* source: internal/ftpd/handler.go uploadFile *)
Definition uploadFile (f : fs) (fsPath ftpPath : string) (flags : Z) : C (FtpTransfer.t * list checker_call) :=
  _ ← fail_if (negb (IsFileAllowed user ftpPath).1) ErrFileNameNotAllowed;
  let filePath := upload_path f fsPath in
  let to_new :=
    _ ← fail_if (negb (HasPerm user PermUpload (path_Dir ftpPath))) ErrFileNameNotAllowed;
    handleFTPUploadToNewFile f flags fsPath filePath ftpPath in
  try_catch (look (fs_Lstat f fsPath))
    (fun stat =>
       if FileInfo.IsSymlink stat then to_new
       else
         _ ← fail_if (FileInfo.IsDir stat) OpUnsupported;
         _ ← fail_if (negb (HasPerm user PermOverwrite (path_Dir ftpPath))) ErrFileNameNotAllowed;
         handleFTPUploadToExistingFile f flags fsPath filePath (FileInfo.Size stat) ftpPath)
    (fun statErr => if fs_IsNotExist f statErr then to_new else fail (GetFsError f statErr)).

(* source: internal/ftpd/handler.go GetHandle *)
Definition GetHandle (name : string) (flags offset : Z) : C (FtpTransfer.t * list checker_call) :=
  '(f, p) ← GetFsAndResolvedPath name;
  _ ← fail_if ((lastCommand =s "COMB") && negb (IsLocalOsFs f)) errCOMBNotSupported;
  if negb (Z.land flags O_WRONLY =? 0) then uploadFile f p name flags else downloadFile f p name offset.
End ftp.
