(* ===== verification/WebDavHandlers.v ===== *)
(** The WebDAV server: the file system [golang.org/x/net/webdav] calls
    (internal/webdavd/handler.go) and its files (internal/webdavd/file.go).

    The method of the request and the modification time of its header (zero when
    there is none) are parameters; the content types are left out. *)
From S2P Require Import Prelude GoPath Util Net FsConfig FsValidate Entities Links Tables MemoryCore MemoryOps UserPerms MemoryQueries ValidateUser ValidateObjects Quota ConnData Connection ConnectionOps TransfersChecker Transfers Streams.
Open Scope Z_scope.

Definition errTransferAborted : error := PlainError "webdavd.errTransferAborted".
Definition lastModifiedProps : list string := ["Win32LastModifiedTime"; "getlastmodified"].

Module webDavFile.
(* source: internal/webdavd/file.go webDavFile *)
Record t `{Storage} := mk {
  Base : BaseTransfer.t; writer : option ConnData.writer; reader : option stream; info : option FileInfo.t; startOffset : Z;
  isFinished : bool; readTried : bool }.
#[global] Instance eta `{Storage} : Settable t := {| settable := fun x =>
  mk _ (Base x) (writer x) (reader x) (info x) (startOffset x) (isFinished x) (readTried x) |}.
End webDavFile.

Module Proppatch.
(** [webdav.Proppatch]: the local name of each property and the time its value
    parses to. *)
Record t := mk { Remove : bool; Props : list (string * option Z) }.
End Proppatch.

Section webdav.
Context {St : Storage} {Hk : Hooks} {Cfg : Settings} {E : Env}.
Variables (now1 now2 : Z) (remoteIP : string).
Variables (method : string) (modificationTime : Z).
Implicit Types (x : webDavFile.t).
Import webDavFile.

(** * Files *)

(* source: internal/webdavd/file.go newWebDavFile *)
Definition newWebDavFile (t : BaseTransfer.t) (pipeWriter : option ConnData.writer) (pipeReader : option ConnData.reader) : webDavFile.t :=
  let '(w, rd) :=
    match BaseTransfer.File t, pipeWriter, pipeReader with
    | Some file, _, _ => (Some file, Some (FromFile file))
    | None, Some pw, _ => (Some pw, None)
    | None, None, Some pr => (None, Some (FromPipe pr))
    | None, None, None => (None, None)
    end in
  webDavFile.mk _ t w rd None 0 false false.

Definition virtualPath x : string := BaseTransfer.requestPath (Base x).
Definition is_download x : bool := BaseTransfer.transferType (Base x) =? TransferDownload.
Definition transfer_error (e : error) x : webDavFile.t := x <| Base ::= TransferError e |>.

(** without the wrapper that gives the content type *)
(* source: internal/webdavd/file.go Readdir *)
Definition webdav_Readdir x : C (list FileInfo.t) :=
  _ ← fail_if (negb (HasPerm user PermListItems (virtualPath x))) PermissionDenied;
  ListDir (virtualPath x).

Definition stat_of (x : webDavFile.t) (w : world) : res FileInfo.t :=
  let f := BaseTransfer.Fs (Base x) in
  info ← fs_Stat f (BaseTransfer.fsPath (Base x)) w;
  Ok (if IsCryptOsFs f then fs_ConvertFileInfo f info else info).
(* source: internal/webdavd/file.go#L130-L160 webDavFile.Stat *)
Definition webdav_file_Stat x : C FileInfo.t :=
  let t := Base x in
  _ ← fail_if (is_download x && negb (HasPerm user PermListItems (path_Dir (virtualPath x)))) PermissionDenied;
  if (BaseTransfer.transferType t =? TransferUpload) && is_none (BaseTransfer.ErrTransfer t)
  then mret (NewFileInfo (BaseTransfer.fsPath t) false (BaseTransfer.BytesReceived t) (1000000 * env_now 0%nat) false)
  else fs_call (BaseTransfer.Fs t) (look (stat_of x)).

(* source: internal/webdavd/file.go checkFirstRead *)
Definition checkFirstRead x : C webDavFile.t :=
  _ ← fail_if (negb (HasPerm user PermDownload (path_Dir (virtualPath x)))) PermissionDenied;
  _ ← fail_if (negb (HasDownloadSpace (BaseTransfer.transferQuota (Base x)))) ReadQuotaExceeded;
  let '(ok, policy) := IsFileAllowed user (virtualPath x) in
  _ ← fail_if (negb ok) (getErrorForDeniedFile protocol policy);
  _ ← pre_transfer "pre-download" (BaseTransfer.fsPath (Base x)) (virtualPath x) 0 0 PermissionDenied;
  mret (x <| readTried := true |>).

(** The file is opened by the first read. *)
Definition open_for_read x : C (webDavFile.t * option error) :=
  match reader x with
  | Some _ => mret (x, None)
  | None =>
      if negb (is_download x) then mret (transfer_error ErrOpUnsupported x, Some ErrOpUnsupported)
      else
        let f := BaseTransfer.Fs (Base x) in
        let set_error (e : option error) x :=
          (x <| Base ::= (fun t => t <| BaseTransfer.ErrTransfer := e |>) |>) <| startOffset := 0 |> in
        try_catch (_ ← record (EDownload (virtualPath x)); look (fs_Open f (BaseTransfer.fsPath (Base x)) 0))
          (fun r => mret (set_error None
             match reader_File r with
             | Some file => x <| Base ::= (fun t => t <| BaseTransfer.File := Some file |>) |>
                              <| writer := Some file |> <| reader := Some (FromFile file) |>
             | None => x <| reader := Some (FromPipe r) |>
             end, None))
          (fun e => mret (set_error (Some e) x, Some (GetFsError f e)))
  end.
(** the result of the read, with the file as it is left *)
(* source: internal/webdavd/file.go#L185-L235 webDavFile.Read *)
Definition webdav_Read (io : io_result) x : C (webDavFile.t * io_result) :=
  if BaseTransfer.AbortTransfer (Base x) then mret (x, (0, Some errTransferAborted))
  else
    '(x, err) ← (if readTried x then mret (x, None)
                 else try_catch (checkFirstRead x) (fun x => mret (x, None)) (fun e => mret (x, Some e)));
    match err with
    | Some e => mret (x, (0, Some e))
    | None =>
        '(x, err) ← open_for_read x;
        match err with
        | Some e => mret (x, (0, Some e))
        | None => let '(t, res) := after_read true io (Base x) in mret (x <| Base := t |>, res)
        end
    end.
(* source: internal/webdavd/file.go#L238-L258 webDavFile.Write *)
Definition webdav_Write (io : io_result) x : webDavFile.t * io_result :=
  if BaseTransfer.AbortTransfer (Base x) then (x, (0, Some errTransferAborted))
  else match writer x with
       | None => (x, (0, Some (RuntimePanic "nil writer")))
       | Some _ => let '(t, res) := after_write io (Base x) in (x <| Base := t |>, res)
       end.

(** ** Seeking *)

(* source: internal/webdavd/file.go updateStatInfo *)
Definition updateStatInfo x : C webDavFile.t :=
  match info x with
  | Some _ => mret x
  | None => i ← look (stat_of x); mret (x <| info := Some i |>)
  end.
(** the update runs in a goroutine of its own, with the values read before *)
(* source: internal/webdavd/file.go updateTransferQuotaOnSeek *)
Definition updateTransferQuotaOnSeek x : C unit :=
  if HasSizeLimits (BaseTransfer.transferQuota (Base x))
  then ignore (on_quotas (UpdateUserTransferQuota env_now (CommonConfig.TrackQuota cfg) (CommonConfig.DelayedQuotaUpdate cfg)
                 user (BaseTransfer.BytesReceived (Base x)) (BaseTransfer.BytesSent (Base x)) false))
  else mret tt.
(* source: internal/webdavd/file.go checkFile *)
Definition checkFile x : C (webDavFile.t * option error) :=
  let f := BaseTransfer.Fs (Base x) in
  if is_none (BaseTransfer.File (Base x)) && FsOpenReturnsFile f then
    try_catch (look (fs_Open f (BaseTransfer.fsPath (Base x)) 0))
      (fun r =>
         let file := reader_File r in
         mret (((x <| Base ::= (fun t => t <| BaseTransfer.File := file |>) |>) <| reader := FromFile <$> file |>) <| writer := file |>, None))
      (fun e => mret (transfer_error e x, Some e))
  else mret (x, None).
(* source: internal/webdavd/file.go seekFile *)
Definition seekFile (file : ConnData.writer) (offset whence : Z) x : C (webDavFile.t * res Z) :=
  try_catch (on_files (file_Seek file offset whence)) (fun ret => mret (x, Ok ret)) (fun e => mret (transfer_error e x, Err e)).

(** the reader is closed, the counters restart and a new reader is opened *)
Definition reopen_at (readOffset offset whence : Z) x : C (webDavFile.t * res Z) :=
  let f := BaseTransfer.Fs (Base x) in
  _ ← match reader x with Some s => ignore (close_stream s) | None => mret tt end;
  let x := (x <| reader := None |>) <| Base ::= (fun t => (t <| BaseTransfer.BytesReceived := 0 |>) <| BaseTransfer.BytesSent := 0 |>) |> in
  _ ← updateTransferQuotaOnSeek x;
  '(x, startByte) ←
    (if whence =? SeekStart then mret (x, Ok offset)
     else if whence =? SeekCurrent then mret (x, Ok (add64 readOffset offset))
     else if whence =? SeekEnd then
       try_catch (updateStatInfo x)
         (fun x => mret (x, Ok (sub64 (match info x with Some i => FileInfo.Size i | None => 0 end) offset)))
         (fun e => mret (transfer_error e x, Err e))
     else mret (x, Ok 0));
  match startByte with
  | Err e => mret (x, Err e)
  | Ok startByte =>
      let set_error (e : option error) x := x <| Base ::= (fun t => t <| BaseTransfer.ErrTransfer := e |>) |> in
      try_catch (look (fs_Open f (BaseTransfer.fsPath (Base x)) startByte))
        (fun r => mret (set_error None ((x <| startOffset := startByte |>) <| reader := if reader_File r is Some _ then None else Some (FromPipe r) |>),
                        Ok startByte))
        (fun e => mret (set_error (Some e) x, Err e))
  end.
(* source: internal/webdavd/file.go#L312-L370 webDavFile.Seek *)
Definition webdav_Seek (offset whence : Z) x : C (webDavFile.t * res Z) :=
  '(x, err) ← checkFile x;
  match err, BaseTransfer.File (Base x) with
  | Some e, _ => mret (x, Err e)
  | None, Some file => seekFile file offset whence x
  | None, None =>
      if is_download x then
        let readOffset := add64 (startOffset x) (BaseTransfer.BytesSent (Base x)) in
        if (offset =? 0) && (readOffset =? 0) && (whence =? SeekStart) then mret (x, Ok 0)
        else if (offset =? 0) && (readOffset =? 0) && (whence =? SeekEnd) then
          try_catch (updateStatInfo x)
            (fun x => mret (x, Ok (match info x with Some i => FileInfo.Size i | None => 0 end))) (fun e => mret (x, Err e))
        else reopen_at readOffset offset whence x
      else mret (x, Err ErrOpUnsupported)
  end.

(** ** Closing *)

(* source: internal/webdavd/file.go setFinished *)
Definition webdav_setFinished x : res webDavFile.t :=
  if isFinished x then Err ErrTransferClosed else Ok (x <| isFinished := true |>).
(* source: internal/webdavd/file.go isTransfer *)
Definition isTransfer x : bool := if is_download x then readTried x else true.
(* source: internal/webdavd/file.go#L373-L408 webDavFile.Close *)
Definition webdav_Close x : C (webDavFile.t * option error * list checker_call) :=
  match webdav_setFinished x with
  | Err e => mret (x, Some e, [])
  | Ok x =>
      '(t, err) ← closeIO (Base x) (writer x) (reader x);
      let x := x <| Base := t |> in
      '(err, calls) ← (if isTransfer x then
                         '(errBaseClose, calls) ← Close t;
                         mret (if errBaseClose is Some _ then errBaseClose else err, calls)
                       else calls ← RemoveTransfer t; mret (err, calls));
      mret (x, GetFsError (BaseTransfer.Fs t) <$> err, calls)
  end.

(** ** Properties *)

Definition StatusOK : Z := 200.
Definition StatusForbidden : Z := 403.
Definition set_mtime (name : string) (mtime : Z) : C unit := SetStat name (StatAttributes.mk 0 mtime mtime 0 0 4 0).
(** one property: the status, whether there was an error, the properties answered *)
Definition patch_prop (remove : bool) (p : string * option Z) x (acc : Z * bool * list string) : C (Z * bool * list string) :=
  let '(status, hasError, props) := acc in
  let answered := props ++ [p.1] in
  if (status =? StatusForbidden) && negb hasError && negb remove && contains lastModifiedProps p.1 then
    match p.2 with
    | None => mret (status, true, props)
    | Some parsed =>
        try_catch (set_mtime (virtualPath x) parsed) (fun _ => mret (StatusOK, hasError, answered)) (fun _ => mret (status, true, props))
    end
  else mret (status, hasError, answered).
Fixpoint patch_props (remove : bool) (props : list (string * option Z)) x (acc : Z * bool * list string) : C (Z * bool * list string) :=
  match props with
  | [] => mret acc
  | p :: props => acc ← patch_prop remove p x acc; patch_props remove props x acc
  end.
Fixpoint patch_all (patches : list Proppatch.t) x (hasError : bool) : C (list (Z * list string)) :=
  match patches with
  | [] => mret []
  | p :: patches =>
      '(status, hasError, props) ← patch_props (Proppatch.Remove p) (Proppatch.Props p) x (StatusForbidden, hasError, []);
      rest ← patch_all patches x hasError;
      mret ((status, props) :: rest)
  end.
(* source: internal/webdavd/file.go Patch *)
Definition Patch (patches : list Proppatch.t) x : C (list (Z * list string)) := patch_all patches x false.

(** * The file system *)

Definition webdav_base_transfer := NewBaseTransfer now1 now2 remoteIP.

(* source: internal/webdavd/handler.go Mkdir *)
Definition webdav_Mkdir (name : string) : C unit := CreateDir (CleanPath name) true.
(* source: internal/webdavd/handler.go Rename *)
Definition webdav_Rename (oldName newName : string) : C unit :=
  let oldName := CleanPath oldName in
  let newName := CleanPath newName in
  _ ← Rename oldName newName;
  if negb (modificationTime =? 0) then ignore (set_mtime newName modificationTime) else mret tt.
(* source: internal/webdavd/handler.go Stat *)
Definition webdav_Stat (name : string) : C FileInfo.t :=
  let name := CleanPath name in
  _ ← fail_if (negb (HasPerm user PermListItems (path_Dir name))) PermissionDenied;
  DoStat name 0 true.
(* source: internal/webdavd/handler.go RemoveAll *)
Definition webdav_RemoveAll (fuel : nat) (name : string) : C unit := RemoveAll fuel (CleanPath name).

(* source: internal/webdavd/handler.go getFile *)
Definition getFile (f : fs) (fsPath virtualPath : string) : C (webDavFile.t * list checker_call) :=
  transferQuota ← gets (fun s => GetTransferQuota (Conn.quotas s));
  '(t, calls) ← webdav_base_transfer None fsPath fsPath virtualPath TransferDownload 0 0 0 0 false f transferQuota;
  mret (newWebDavFile t None None, calls).

Definition webdav_flags : Z := Z.lor (Z.lor O_WRONLY O_CREATE) O_TRUNC.
(** the transfer of an upload, with the times of the header *)
Definition upload_file (w : ConnData.writer) (tc : BaseTransfer.t * list checker_call) : webDavFile.t * list checker_call :=
  let '(t, calls) := tc in
  let '(t, _) := SetTimes (BaseTransfer.fsPath t) modificationTime modificationTime t in
  (newWebDavFile t (if writer_File w is Some _ then None else Some w) None, calls).

(* source: internal/webdavd/handler.go handleUploadToNewFile *)
Definition handleUploadToNewFile (f : fs) (resolvedPath filePath requestPath : string) : C (webDavFile.t * list checker_call) :=
  '(diskQuota, transferQuota) ← gets (fun s => HasSpace true false requestPath (Conn.quotas s));
  _ ← fail_if (negb (QuotaCheckResult.HasSpace diskQuota) || negb (HasUploadSpace transferQuota)) ErrQuotaExceeded;
  _ ← pre_transfer "pre-upload" resolvedPath requestPath 0 0 PermissionDenied;
  w ← fs_call f (perform (ECreate requestPath true) (fs_Create f filePath webdav_flags (GetCreateChecks requestPath true false)));
  _ ← SetPathPermissions f filePath requestPath;
  let maxWriteSize := match GetMaxWriteSize diskQuota false 0 (fs_IsUploadResumeSupported f) with Ok m => m | Err _ => 0 end in
  tc ← webdav_base_transfer (writer_File w) resolvedPath filePath requestPath TransferUpload 0 0 maxWriteSize 0 true f transferQuota;
  mret (upload_file w tc).

(* source: internal/webdavd/handler.go handleUploadToExistingFile *)
Definition handleUploadToExistingFile (f : fs) (resolvedPath filePath : string) (fileSize : Z) (requestPath : string)
    : C (webDavFile.t * list checker_call) :=
  '(diskQuota, transferQuota) ← gets (fun s => HasSpace false false requestPath (Conn.quotas s));
  _ ← fail_if (negb (QuotaCheckResult.HasSpace diskQuota) || negb (HasUploadSpace transferQuota)) ErrQuotaExceeded;
  _ ← pre_transfer "pre-upload" resolvedPath requestPath fileSize O_TRUNC PermissionDenied;
  let maxWriteSize := match GetMaxWriteSize diskQuota false fileSize (fs_IsUploadResumeSupported f) with Ok m => m | Err _ => 0 end in
  _ ← stage_existing f resolvedPath filePath requestPath;
  w ← fs_call f (perform (ECreate requestPath false) (fs_Create f filePath webdav_flags (GetCreateChecks requestPath false false)));
  '(initialSize, truncatedSize) ←
    (if HasTruncateSupport f then
       _ ← match GetVirtualFolderForPath user (path_Dir requestPath) with
           | Ok vfolder => update_folder_and_user vfolder 0 (- fileSize)
           | Err _ => update_user_quota 0 (- fileSize)
           end;
       mret (0, 0)
     else mret (fileSize, fileSize));
  _ ← SetPathPermissions f filePath requestPath;
  tc ← webdav_base_transfer (writer_File w) resolvedPath filePath requestPath TransferUpload 0 initialSize maxWriteSize truncatedSize
         false f transferQuota;
  mret (upload_file w tc).

(* source: internal/webdavd/handler.go putFile *)
Definition putFile (f : fs) (fsPath virtualPath : string) : C (webDavFile.t * list checker_call) :=
  _ ← fail_if (negb (IsFileAllowed user virtualPath).1) PermissionDenied;
  let filePath := upload_path f fsPath in
  let to_new :=
    _ ← fail_if (negb (HasPerm user PermUpload (path_Dir virtualPath))) PermissionDenied;
    handleUploadToNewFile f fsPath filePath virtualPath in
  try_catch (look (fs_Lstat f fsPath))
    (fun stat =>
       if FileInfo.IsSymlink stat then to_new
       else
         _ ← fail_if (FileInfo.IsDir stat) OpUnsupported;
         _ ← fail_if (negb (HasPerm user PermOverwrite (path_Dir virtualPath))) PermissionDenied;
         handleUploadToExistingFile f fsPath filePath (FileInfo.Size stat) virtualPath)
    (fun statErr => if fs_IsNotExist f statErr then to_new else fail (GetFsError f statErr)).

(* source: internal/webdavd/handler.go OpenFile *)
Definition webdav_OpenFile (name : string) (flag : Z) : C (webDavFile.t * list checker_call) :=
  let name := CleanPath name in
  '(f, p) ← GetFsAndResolvedPath name;
  if (flag =? 0) || (method =s "PROPPATCH") then getFile f p name else putFile f p name.
End webdav.
