(* ===== verification/HttpHandlers.v ===== *)
(** The web client and the REST API of users: reading and writing files
    (internal/httpd/handler.go, internal/httpd/file.go).

    [util.NewI18nError] keeps the error it wraps. *)
From S2P Require Import Prelude GoPath Util Net FsConfig FsValidate Entities Links Tables MemoryCore MemoryOps UserPerms MemoryQueries ValidateUser ValidateObjects Quota ConnData Connection ConnectionOps TransfersChecker Transfers Streams.
Open Scope Z_scope.

Module HttpdFile.
(* source: internal/httpd/file.go httpdFile *)
Record t `{Storage} := mk {
  Base : BaseTransfer.t; writer : option ConnData.writer; reader : option stream; isFinished : bool }.
#[global] Instance eta `{Storage} : Settable t := {| settable := fun x =>
  mk _ (Base x) (writer x) (reader x) (isFinished x) |}.
End HttpdFile.

Section http.
Context {St : Storage} {Hk : Hooks} {Cfg : Settings} {E : Env}.
Variables (now1 now2 : Z) (remoteIP : string).
Implicit Types (x : HttpdFile.t).

(** * Transfers *)

(* source: internal/httpd/file.go newHTTPDFile *)
Definition newHTTPDFile (t : BaseTransfer.t) (pipeWriter : option writer) (pipeReader : option reader) : HttpdFile.t :=
  let '(w, rd) :=
    match BaseTransfer.File t, pipeWriter, pipeReader with
    | Some file, _, _ => (Some file, Some (FromFile file))
    | None, Some pw, _ => (Some pw, None)
    | None, None, Some pr => (None, Some (FromPipe pr))
    | None, None, None => (None, None)
    end in
  HttpdFile.mk _ t w rd false.

Definition httpd_aborted x : HttpdFile.t * io_result :=
  let err := GetAbortError (HttpdFile.Base x) in (x <| HttpdFile.Base ::= TransferError err |>, (0, Some err)).
(* source: internal/httpd/file.go#L51-L73 httpdFile.Read *)
Definition httpd_Read (io : io_result) x : HttpdFile.t * io_result :=
  if BaseTransfer.AbortTransfer (HttpdFile.Base x) then httpd_aborted x
  else match HttpdFile.reader x with
       | None => (x, (0, Some (RuntimePanic "nil reader")))
       | Some _ => let '(t, res) := after_read true io (HttpdFile.Base x) in (x <| HttpdFile.Base := t |>, res)
       end.
(* source: internal/httpd/file.go#L76-L98 httpdFile.Write *)
Definition httpd_Write (io : io_result) x : HttpdFile.t * io_result :=
  if BaseTransfer.AbortTransfer (HttpdFile.Base x) then httpd_aborted x
  else match HttpdFile.writer x with
       | None => (x, (0, Some (RuntimePanic "nil writer")))
       | Some _ => let '(t, res) := after_write io (HttpdFile.Base x) in (x <| HttpdFile.Base := t |>, res)
       end.
(* source: internal/httpd/file.go setFinished *)
Definition httpd_setFinished x : res HttpdFile.t :=
  if HttpdFile.isFinished x then Err ErrTransferClosed else Ok (x <| HttpdFile.isFinished := true |>).
(* source: internal/httpd/file.go#L101-L133 httpdFile.Close *)
Definition httpd_Close x : C (HttpdFile.t * option error * list checker_call) :=
  match httpd_setFinished x with
  | Err e => mret (x, Some e, [])
  | Ok x => '(err, calls) ← close_transfer (HttpdFile.Base x) (HttpdFile.writer x) (HttpdFile.reader x); mret (x, err, calls)
  end.

(** * Files *)

(* source: internal/httpd/handler.go Stat *)
Definition httpd_Stat (name : string) (mode : Z) : C FileInfo.t :=
  _ ← fail_if (negb (HasPerm user PermListItems (path_Dir name))) PermissionDenied;
  DoStat name mode true.
(* source: internal/httpd/handler.go ReadDir *)
Definition httpd_ReadDir (name : string) : C (list FileInfo.t) := ListDir name.

Definition httpd_base_transfer := NewBaseTransfer now1 now2 remoteIP.
(* source: internal/httpd/handler.go getFileReader *)
Definition httpd_getFileReader (name : string) (offset : Z) (method : string) : C (HttpdFile.t * list checker_call) :=
  transferQuota ← gets (fun s => GetTransferQuota (Conn.quotas s));
  _ ← fail_if (negb (HasDownloadSpace transferQuota)) ReadQuotaExceeded;
  _ ← fail_if (negb (HasPerm user PermDownload (path_Dir name))) PermissionDenied;
  let '(ok, policy) := IsFileAllowed user name in
  _ ← fail_if (negb ok) (getErrorForDeniedFile protocol policy);
  '(f, p) ← GetFsAndResolvedPath name;
  _ ← (if negb (method =s "HEAD") then pre_transfer "pre-download" p name 0 0 PermissionDenied else mret tt);
  rd ← fs_call f (_ ← record (EDownload name); look (fs_Open f p offset));
  '(t, calls) ← httpd_base_transfer (reader_File rd) p p name TransferDownload 0 0 0 0 false f transferQuota;
  mret (newHTTPDFile t None (if reader_File rd is Some _ then None else Some rd), calls).

(* source: internal/httpd/handler.go handleUploadFile *)
Definition httpd_handleUploadFile (f : fs) (resolvedPath filePath requestPath : string) (isNewFile : bool) (fileSize : Z)
    : C (HttpdFile.t * list checker_call) :=
  '(diskQuota, transferQuota) ← gets (fun s => HasSpace isNewFile false requestPath (Conn.quotas s));
  _ ← fail_if (negb (QuotaCheckResult.HasSpace diskQuota) || negb (HasUploadSpace transferQuota)) ErrQuotaExceeded;
  _ ← pre_transfer "pre-upload" resolvedPath requestPath fileSize O_TRUNC PermissionDenied;
  let maxWriteSize := match GetMaxWriteSize diskQuota false fileSize (fs_IsUploadResumeSupported f) with Ok m => m | Err _ => 0 end in
  w ← fs_call f (perform (ECreate requestPath isNewFile)
                   (fs_Create f filePath (Z.lor (Z.lor O_WRONLY O_CREATE) O_TRUNC) (GetCreateChecks requestPath isNewFile false)));
  '(initialSize, truncatedSize) ←
    (if negb isNewFile then
       if HasTruncateSupport f then
         _ ← match GetVirtualFolderForPath user (path_Dir requestPath) with
             | Ok vfolder => update_folder_and_user vfolder 0 (- fileSize)
             | Err _ => update_user_quota 0 (- fileSize)
             end;
         mret (0, 0)
       else mret (fileSize, fileSize)
     else mret (0, 0));
  let maxWriteSize := if negb isNewFile && (0 <? maxWriteSize) then add64 maxWriteSize fileSize else maxWriteSize in
  _ ← SetPathPermissions f filePath requestPath;
  '(t, calls) ← httpd_base_transfer (writer_File w) resolvedPath filePath requestPath TransferUpload 0 initialSize maxWriteSize
                  truncatedSize isNewFile f transferQuota;
  mret (newHTTPDFile t (if writer_File w is Some _ then None else Some w) None, calls).

(* source: internal/httpd/handler.go getFileWriter *)
Definition httpd_getFileWriter (name : string) : C (HttpdFile.t * list checker_call) :=
  _ ← fail_if (negb (IsFileAllowed user name).1) PermissionDenied;
  '(f, p) ← GetFsAndResolvedPath name;
  let filePath := upload_path f p in
  let to_new :=
    _ ← fail_if (negb (HasPerm user PermUpload (path_Dir name))) PermissionDenied;
    httpd_handleUploadFile f p filePath name true 0 in
  try_catch (look (fs_Lstat f p))
    (fun stat =>
       if FileInfo.IsSymlink stat then to_new
       else
         _ ← fail_if (FileInfo.IsDir stat) OpUnsupported;
         _ ← fail_if (negb (HasPerm user PermOverwrite (path_Dir name))) PermissionDenied;
         _ ← stage_existing f p filePath name;
         httpd_handleUploadFile f p filePath name false (FileInfo.Size stat))
    (fun statErr => if fs_IsNotExist f statErr then to_new else fail (GetFsError f statErr)).
End http.
