(* ===== verification/Handlers.v ===== *)
(** What a client can ask, over all the protocols: commands on paths, and
    sessions on a file, which is opened, read, written or sought any number of
    times, and closed. *)
From S2P Require Import Prelude GoPath Util Net FsConfig FsValidate Entities Links Tables MemoryCore MemoryOps UserPerms MemoryQueries ValidateUser ValidateObjects Quota ConnData Connection ConnectionOps TransfersChecker Transfers Streams SftpHandlers FtpHandlers WebDavHandlers HttpHandlers.
Open Scope Z_scope.

Inductive command :=
  | SftpFilecmd (r : SftpRequest.t)
  | SftpFilelist (r : SftpRequest.t)
  | SftpLstat (r : SftpRequest.t)
  | SftpReadlink (p : string)
  | SftpRealPath (p : string)
  | SftpStatVFS (p : string)
  | FtpMkdir (p : string)
  | FtpRemove (p : string)
  | FtpRemoveDir (p : string)
  | FtpRename (s d : string)
  | FtpSymlink (s d : string)
  | FtpChmod (p : string) (mode : Z)
  | FtpChtimes (p : string) (atime mtime : Z)
  | FtpStat (p : string)
  | FtpReadDir (wildcards : bool) (p : string)
  | FtpAvailableSpace (p : string)
  | DavMkdir (p : string)
  | DavRename (s d : string)
  | DavStat (p : string)
  | DavRemoveAll (p : string)
  | HttpStat (p : string) (mode : Z)
  | HttpReadDir (p : string).

Inductive open_request :=
  | SftpOpenRead (r : SftpRequest.t)
  | SftpOpenWrite (r : SftpRequest.t)
  | FtpOpen (p : string) (flags offset : Z)
  | DavOpen (p : string) (flag : Z)
  | HttpOpenRead (p : string) (offset : Z) (method : string)
  | HttpOpenWrite (p : string).

Inductive handle `{Storage} :=
  | HSftp (x : SftpTransfer.t)
  | HFtp (x : FtpTransfer.t)
  | HDav (x : webDavFile.t)
  | HHttp (x : HttpdFile.t).

(** what is done with an open file; the results of the reads and writes of the
    storage are given *)
Inductive file_op :=
  | DoRead (io : io_result)
  | DoWrite (offset : Z) (io : io_result)
  | DoSeek (offset whence : Z)
  | DoReaddir
  | DoStat
  | DoPatch (patches : list Proppatch.t)
  | DoAbort (err : error).      (* [SignalClose], by the server *)

Section handlers.
Context {St : Storage} {Hk : Hooks} {Cfg : Settings} {E : Env}.
Variables (folderPrefix lastCommand clientPath method : string) (modificationTime now1 now2 : Z) (remoteIP : string).

Definition run_command (fuel : nat) (c : command) : C unit :=
  match c with
  | SftpFilecmd r => Filecmd r
  | SftpFilelist r => _ ← Filelist folderPrefix r; mret tt
  | SftpLstat r => _ ← sftpd_Lstat r; mret tt
  | SftpReadlink p => _ ← Readlink p; mret tt
  | SftpRealPath p => _ ← RealPath p; mret tt
  | SftpStatVFS p => _ ← sftpd_StatVFS p; mret tt
  | FtpMkdir p => ftpd_Mkdir p
  | FtpRemove p => ftpd_Remove p
  | FtpRemoveDir p => ftpd_RemoveDir p
  | FtpRename s d => ftpd_Rename s d
  | FtpSymlink s d => ftpd_Symlink s d
  | FtpChmod p mode => ftpd_Chmod p mode
  | FtpChtimes p atime mtime => ftpd_Chtimes p atime mtime
  | FtpStat p => _ ← ftpd_Stat lastCommand p; mret tt
  | FtpReadDir wildcards p => _ ← ftpd_ReadDir lastCommand clientPath wildcards p; mret tt
  | FtpAvailableSpace p => _ ← GetAvailableSpace p; mret tt
  | DavMkdir p => webdav_Mkdir p
  | DavRename s d => webdav_Rename modificationTime s d
  | DavStat p => _ ← webdav_Stat p; mret tt
  | DavRemoveAll p => webdav_RemoveAll fuel p
  | HttpStat p mode => _ ← httpd_Stat p mode; mret tt
  | HttpReadDir p => _ ← httpd_ReadDir p; mret tt
  end.

Definition open_file (q : open_request) : C handle :=
  match q with
  | SftpOpenRead r => '(x, _) ← Fileread now1 now2 remoteIP r; mret (HSftp x)
  | SftpOpenWrite r => '(x, _) ← handleFilewrite now1 now2 remoteIP r; mret (HSftp x)
  | FtpOpen p flags offset => '(x, _) ← GetHandle now1 now2 remoteIP lastCommand p flags offset; mret (HFtp x)
  | DavOpen p flag => '(x, _) ← webdav_OpenFile now1 now2 remoteIP method modificationTime p flag; mret (HDav x)
  | HttpOpenRead p offset m => '(x, _) ← httpd_getFileReader now1 now2 remoteIP p offset m; mret (HHttp x)
  | HttpOpenWrite p => '(x, _) ← httpd_getFileWriter now1 now2 remoteIP p; mret (HHttp x)
  end.

Definition base_of (h : handle) : BaseTransfer.t :=
  match h with
  | HSftp x => SftpTransfer.Base x
  | HFtp x => FtpTransfer.Base x
  | HDav x => webDavFile.Base x
  | HHttp x => HttpdFile.Base x
  end.

(** An operation on an open file; what a server does not offer does nothing. *)
Definition run_op (o : file_op) (h : handle) : C handle :=
  match o, h with
  | DoRead io, HSftp x => mret (HSftp (sftpd_ReadAt io x).1)
  | DoRead io, HFtp x => mret (HFtp (ftpd_Read io x).1)
  | DoRead io, HDav x => '(x, _) ← webdav_Read io x; mret (HDav x)
  | DoRead io, HHttp x => mret (HHttp (httpd_Read io x).1)
  | DoWrite offset io, HSftp x => mret (HSftp (sftpd_WriteAt offset io x).1)
  | DoWrite _ io, HFtp x => mret (HFtp (ftpd_Write io x).1)
  | DoWrite _ io, HDav x => mret (HDav (webdav_Write io x).1)
  | DoWrite _ io, HHttp x => mret (HHttp (httpd_Write io x).1)
  | DoSeek offset whence, HFtp x => '(x, _) ← ftpd_Seek offset whence x; mret (HFtp x)
  | DoSeek offset whence, HDav x => '(x, _) ← webdav_Seek offset whence x; mret (HDav x)
  | DoReaddir, HDav x => _ ← webdav_Readdir x; mret h
  | DoStat, HDav x => _ ← webdav_file_Stat x; mret h
  | DoPatch patches, HDav x => _ ← Patch patches x; mret h
  | DoAbort err, HSftp x => mret (HSftp (x <| SftpTransfer.Base ::= SignalClose (Some err) |>))
  | DoAbort err, HFtp x => mret (HFtp (x <| FtpTransfer.Base ::= SignalClose (Some err) |>))
  | DoAbort err, HDav x => mret (HDav (x <| webDavFile.Base ::= SignalClose (Some err) |>))
  | DoAbort err, HHttp x => mret (HHttp (x <| HttpdFile.Base ::= SignalClose (Some err) |>))
  | _, _ => mret h
  end.
Fixpoint run_ops (ops : list file_op) (h : handle) : C handle :=
  match ops with [] => mret h | o :: ops => h ← try_catch (run_op o h) mret (fun _ => mret h); run_ops ops h end.
Definition close_handle (h : handle) : C unit :=
  match h with
  | HSftp x => _ ← sftpd_Close x; mret tt
  | HFtp x => _ ← ftpd_Close x; mret tt
  | HDav x => _ ← webdav_Close x; mret tt
  | HHttp x => _ ← httpd_Close x; mret tt
  end.
(** A session: an operation that fails does not end it. *)
Definition file_session (q : open_request) (ops : list file_op) : C unit :=
  h ← open_file q; h ← run_ops ops h; close_handle h.
End handlers.
