(* ===== verification/Samples.v ===== *)
(** Concrete validators and a small store, built by running the methods from
    the empty provider; the witnesses of the theorems evaluate on it. *)
From S2P Require Import Prelude FsConfig Entities Links Tables MemoryCore MemoryOps MemoryInv MemoryShares MemorySpec.
Open Scope Z_scope.

(** Validators that only refuse empty names. *)
Module Validators.
Definition named {A} (name : A → string) (x : A) (h : DB.t) : res A :=
  if name x =s "" then Err (ValidationError "name is mandatory") else Ok x.

#[export] Instance v_user : Validate User.t := named User.Username.
#[export] Instance v_group : Validate Group.t := named Group.Name.
#[export] Instance v_admin : Validate Admin.t := named Admin.Username.
#[export] Instance v_role : Validate Role.t := named Role.Name.
#[export] Instance v_folder : Validate BaseVirtualFolder.t := named BaseVirtualFolder.Name.
#[export] Instance v_apikey : Validate APIKey.t := named APIKey.KeyID.
#[export] Instance v_share : Validate Share.t := named Share.ShareID.
#[export] Instance v_action : Validate BaseEventAction.t := named BaseEventAction.Name.
#[export] Instance v_rule : Validate EventRule.t := named EventRule.Name.
#[export] Instance v_entry : Validate IPListEntry.t := named IPListEntry.IPOrNet.
#[export] Instance v_configs : Validate Configs.t := fun c _ => Ok c.

Lemma named_nonempty {A} (name : A → string) x h y : named name x h = Ok y → name y ≠ "".
Proof. unfold named. destruct (String.eqb_spec (name x) ""); intros H; [done|by injection H as <-]. Qed.

#[export] Instance v_names : ValidNames.
Proof. split; intros ???; apply named_nonempty. Qed.
End Validators.
Import Validators.

(** The clock advances by one at every reading. *)
Definition clock (i : nat) : Z := 1700000000000 + Z.of_nat i.

Definition run (ops : list op) (h : DB.t) : DB.t := foldl (fun h o => (exec clock o h).2) h ops.

(** Every call succeeds, and none adds a share. *)
Fixpoint run_ok (ops : list op) (h : DB.t) : bool :=
  match ops with
  | [] => true
  | o :: ops' =>
      match o with AddShare _ => false | _ => true end && is_ok (exec clock o h).1 && run_ok ops' (exec clock o h).2
  end.

Lemma run_reachable ops : ∀ h, reachable h → run_ok ops h = true → reachable (run ops h).
Proof.
  induction ops as [|o ops IH]; intros h R H; simpl in *; [done|].
  apply andb_true_iff in H as [[Hs Hok]%andb_true_iff H]. apply IH; [|done].
  apply reach_exec; [done|by destruct o|by left].
Qed.

Definition mk_role (name : string) : Role.t := Role.zero <| Role.Name := name |>.
Definition mk_folder (name : string) : BaseVirtualFolder.t :=
  BaseVirtualFolder.zero <| BaseVirtualFolder.Name := name |> <| BaseVirtualFolder.MappedPath := "/srv/" +:+ name |>.
Definition mk_vfolder (name path : string) : VirtualFolder.t :=
  VirtualFolder.zero <| VirtualFolder.Base := mk_folder name |> <| VirtualFolder.VirtualPath := path |>.
Definition mk_group (name : string) (folders : list VirtualFolder.t) : Group.t :=
  Group.zero <| Group.Name := name |> <| Group.VirtualFolders := folders |>.
Definition mk_user (name role : string) (groups : list string) (folders : list VirtualFolder.t) : User.t :=
  User.zero <| User.Username := name |> <| User.Role := role |> <| User.HomeDir := "/srv/" +:+ name |>
    <| User.Groups := (fun g => GroupMapping.mk g 1) <$> groups |> <| User.VirtualFolders := folders |>.
Definition mk_admin (name role : string) (groups : list string) : Admin.t :=
  Admin.zero <| Admin.Username := name |> <| Admin.Role := role |>
    <| Admin.Groups := (fun g => AdminGroupMapping.zero <| AdminGroupMapping.Name := g |>) <$> groups |>.
Definition mk_apikey (id user : string) : APIKey.t :=
  APIKey.zero <| APIKey.KeyID := id |> <| APIKey.User := user |>.
Definition mk_share (id user : string) : Share.t :=
  Share.zero <| Share.ShareID := id |> <| Share.Username := user |>.
Definition mk_action (name : string) : BaseEventAction.t := BaseEventAction.zero <| BaseEventAction.Name := name |>.
Definition mk_rule (name : string) (actions : list string) : EventRule.t :=
  EventRule.zero <| EventRule.Name := name |>
    <| EventRule.Actions := imap (fun i a => EventAction.zero <| EventAction.Base := mk_action a |>
                                              <| EventAction.Order := Z.of_nat i |>) actions |>.
Definition mk_entry (net : string) (ipType : Z) (first last : list Z) : IPListEntry.t :=
  IPListEntry.zero <| IPListEntry.IPOrNet := net |> <| IPListEntry.Type_ := 1 |> <| IPListEntry.IPType := ipType |>
    <| IPListEntry.First := first |> <| IPListEntry.Last := last |>.

Definition sample_ops : list op := [
  AddRole (mk_role "staff"); AddRole (mk_role "audit");
  AddFolder (mk_folder "docs"); AddFolder (mk_folder "media");
  AddGroup (mk_group "dev" [mk_vfolder "docs" "/docs"]); AddGroup (mk_group "ops" []);
  AddUser (mk_user "alice" "staff" ["ops"; "dev"] [mk_vfolder "media" "/media"]);
  AddUser (mk_user "bob" "" ["dev"] []);
  AddUser (mk_user "carol" "staff" [] []);
  AddAdmin (mk_admin "root" "audit" ["ops"]);
  AddAPIKey (mk_apikey "k1" "alice");
  AddEventAction (mk_action "mail"); AddEventRule (mk_rule "onlogin" ["mail"]);
  AddIPListEntry (mk_entry "10.0.0.0/8" ipTypeV4 [10; 0; 0; 0] [10; 255; 255; 255])].

Definition sample : DB.t := Eval vm_compute in run sample_ops DB.init.

Lemma sample_run : sample = run sample_ops DB.init.
Proof. by vm_compute. Qed.
Lemma sample_reachable : reachable sample.
Proof. rewrite sample_run. apply run_reachable; [apply reach_init|by vm_compute]. Qed.
Lemma sample_wf : wf sample.
Proof. apply reachable_wf, sample_reachable. Qed.
