(* ===== verification/ToyStorage.v ===== *)
(** A storage of files in a map, hooks that do nothing and the connection of
    one user: the theorems on connections and transfers evaluate on it. *)
From S2P Require Import Prelude GoPath Util Net FsConfig FsValidate Entities Links Tables MemoryCore MemoryOps UserPerms MemoryQueries ValidateUser ValidateObjects Quota ConnData Connection Samples.
Open Scope Z_scope.

(** A path holds a directory or a file of some size; the paths of a storage are
    the virtual paths.  [true] is the storage of the user, [false] that of the
    folders; with [copies] the first copies files by itself. *)
Definition toy_world : Type := gmap string (option Z).
Definition toy_missing : error := PlainError "toy: no such file".
Definition toy_info (p : string) (e : option Z) : FileInfo.t :=
  NewFileInfo (path_Base p) (match e with None => true | Some _ => false end) (default 0 e) 0 true.
Definition toy_stat (p : string) (w : toy_world) : res FileInfo.t :=
  match w !! p with Some e => Ok (toy_info p e) | None => Err toy_missing end.
Definition toy_children (p : string) (w : toy_world) : list FileInfo.t :=
  omap (fun '(q, e) => if (path_Dir q =s p) && negb (q =s "/") then Some (toy_info q e) else None) (map_to_list w).
Definition toy_set (p : string) (e : option Z) : M toy_world unit := fun w => (Ok tt, <[p := e]> w).
Definition toy_existing (p : string) (f : option Z → toy_world → toy_world) : M toy_world unit := fun w =>
  match w !! p with Some e => (Ok tt, f e w) | None => (Err toy_missing, w) end.

Definition toy (copies : bool) : Storage := {|
  world := toy_world; fs := bool; reader := Z; writer := string;
  new_root_fs _ _ _ := Ok true; new_folder_fs _ _ _ := Ok false;
  fs_Name f := if f then s3fsName else osFsName;
  fs_is_copier f := f && copies; fs_local_buffered _ := false; fs_HasVirtualFolders _ := false; fs_IsUploadResumeSupported f := negb f;
  fs_IsConditionalUploadResumeSupported _ _ := false; fs_IsAtomicUploadSupported f := negb f; fs_GetAtomicUploadPath _ p := p +:+ ".tmp";
  fs_Readlink _ p _ := Ok p; fs_RealPath _ := None; fs_GetAvailableDiskSize _ _ _ := Ok (1000, 400, 50); reader_File _ := None; writer_File w := Some w;
  fs_IsNotExist _ e := is_error e toy_missing; fs_IsPermission _ _ := false; fs_IsNotSupported _ e := is_error e ErrVfsUnsupported;
  fs_path_error _ := None;
  fs_ResolvePath _ p _ := Ok p; fs_GetRelativePath _ p := p;
  fs_Lstat _ := toy_stat; fs_Stat _ := toy_stat;
  fs_ReadDir _ p w := Ok (toy_children p w);
  fs_GetDirSize _ p w := Ok (Z.of_nat (length (toy_children p w)), 0);
  fs_Walk _ p w := ([(p, toy_stat p w)], Ok tt);
  fs_Open _ p _ w := i ← toy_stat p w; Ok (FileInfo.Size i);
  fs_Mkdir _ p := toy_set p None;
  fs_Remove _ p _ := toy_existing p (fun _ => delete p);
  fs_Rename _ s d := fun w => match w !! s with
    | Some e => (Ok (1, default 0 e), <[d := e]> (delete s w)) | None => (Err toy_missing, w) end;
  fs_Symlink _ s d := toy_set d (Some 0);
  fs_Chmod _ p _ := toy_existing p (fun _ w => w); fs_Chown _ p _ _ := toy_existing p (fun _ w => w);
  fs_Chtimes _ p _ _ _ := toy_existing p (fun _ w => w); fs_Truncate _ p n := toy_set p (Some n);
  fs_CopyFile _ s d _ := toy_existing s (fun e => <[d := e]>);
  fs_Create _ p _ _ := fun w => (Ok p, <[p := Some 0]> w);
  io_Copy n p := fun w => (Ok n, <[p := Some n]> w);
  writer_Close _ := fun w => (Ok tt, w); reader_Close _ := fun w => (Ok tt, w); file_Seek _ n _ := fun w => (Ok n, w);
  fs_reads_buffered _ := false; fs_ConvertFileInfo _ i := i;
  file_Truncate p n := toy_set p (Some n); new_os_fs _ := false; fs_CheckRootPath _ _ _ _ := fun w => (Ok tt, w);
  fs_ScanRootDirContents _ w := Ok (Z.of_nat (size (filter (fun e => e.2 ≠ None) w)), map_fold (fun _ e n => default 0 e + n) 0 w);
  fs_CheckMetadata _ := fun w => (Ok tt, w) |}.
Section toy.
Context {St : Storage}.
Definition toy_hooks : Hooks := {| pre_action _ _ s := (Ok 0, s); notify _ s := (Ok tt, s) |}.

(** A user with these permissions in these directories, over SFTP. *)
Definition toy_user (perms : list (string * list string)) (folders : list VirtualFolder.t) : User.t :=
  (mk_user "alice" "" [] folders) <| User.Permissions := list_to_map perms |> <| User.Status := 1 |>.
Definition toy_cfg : CommonConfig.t := CommonConfig.mk 0 0 0 "" false 1 0 0.
#[local] Existing Instance toy_hooks.
Definition toy_env (u : User.t) : Env := {|
  env_cfg := toy_cfg; env_now := clock; env_CheckAllowed _ _ := true; env_range := elements; env_range_perms := map_to_list;
  env_conn := BaseConnection.mk "SFTP_1" u ProtocolSFTP "10.0.0.1:2022" "" |}.
End toy.
Definition toy_conn (copies : bool) (files : list (string * option Z)) : @Conn.t (toy copies) :=
  Conn.mk (toy copies) (list_to_map files : toy_world) (Quotas.mk sample ∅ ∅ ∅) ∅ [] 0 false false [].
