(* ===== verification/QuotaProps.v ===== *)
(** What delayed quota updates guarantee.

    The usage of a name is what the provider stores plus what is still to be
    stored, modulo 2^64.  Storing the delayed updates is invisible to who reads
    the usage, alone ([quota_round_invisible]) and interleaved with updates
    ([interleaved_updates_count]); a reset in the middle of it is not
    ([reset_during_flush]). *)
From S2P Require Import Prelude FsConfig Entities Links Tables MemoryCore MemoryOps MemoryInv UserPerms MemoryQueries Quota Samples.
Open Scope Z_scope.

(** * Arithmetic modulo 2^64 *)

Lemma wrap64_add_r a b : wrap64 (a + wrap64 b) = wrap64 (a + b).
Proof. rewrite Z.add_comm, wrap64_add_l. f_equal. lia. Qed.

Lemma wrap64_add_m a b c : wrap64 (a + wrap64 b + c) = wrap64 (a + b + c).
Proof. by rewrite <- wrap64_add_l, wrap64_add_r, wrap64_add_l. Qed.

Lemma wrap64_add_l2 a b c : wrap64 (wrap64 a + b + c) = wrap64 (a + b + c).
Proof. rewrite <- (wrap64_add_l (wrap64 a + b)), (wrap64_add_l a). apply wrap64_add_l. Qed.

Ltac wrapping := unfold add64, neg64;
  repeat (rewrite wrap64_add_l || rewrite wrap64_add_r || rewrite wrap64_add_m || rewrite wrap64_add_l2 || rewrite Z.add_assoc);
  apply (f_equal wrap64); lia.

Lemma add64_comm_r a x y : add64 (add64 a x) y = add64 (add64 a y) x.
Proof. wrapping. Qed.
Lemma add64_assoc a x y : add64 (add64 a x) y = add64 a (add64 x y).
Proof. wrapping. Qed.
Lemma add64_neg a x y : add64 (add64 a x) (add64 y (neg64 x)) = add64 a y.
Proof. wrapping. Qed.
Lemma add64_neg_r a x : add64 (add64 a x) (neg64 x) = add64 a 0.
Proof. wrapping. Qed.
Lemma neg64_cancel x : add64 x (neg64 x) = 0.
Proof. transitivity (wrap64 0); [wrapping|done]. Qed.
Lemma add64_0_r a x : add64 (add64 a x) 0 = add64 a x.
Proof. wrapping. Qed.

(** * The pending updates *)

Lemma get_add_pending k k' x y p : get_pending k' (add_pending k x y p) =
  if decide (k' = k) then let '(a, b) := get_pending k p in (add64 a x, add64 b y) else get_pending k' p.
Proof.
  unfold add_pending. destruct (get_pending k p) as [a b] eqn:E. unfold get_pending at 1.
  destruct (_ && _) eqn:Hz; destruct (decide (k' = k)) as [->|Hne].
  - apply andb_prop in Hz as [->%Z.eqb_eq ->%Z.eqb_eq]. by rewrite lookup_delete_eq.
  - by rewrite lookup_delete_ne.
  - by rewrite lookup_insert_eq.
  - by rewrite lookup_insert_ne.
Qed.
Lemma get_delete_pending k k' p : get_pending k' (delete k p) = if decide (k' = k) then (0, 0) else get_pending k' p.
Proof.
  unfold get_pending. destruct (decide (k' = k)) as [->|?]; [by rewrite lookup_delete_eq|by rewrite lookup_delete_ne].
Qed.

(** * One kind of counters *)

Section store.
Context {D : Type} `{QuotaLaws D}.
Implicit Types (d : D) (p : pending).

Lemma used_pending k d p p' : get_pending k p' = get_pending k p → used_counters k (d, p') = used_counters k (d, p).
Proof. unfold used_counters. cbn. by intros ->. Qed.
Lemma used_wrapped k s a b : used_counters k s = Ok (a, b) → add64 a 0 = a ∧ add64 b 0 = b.
Proof.
  unfold used_counters. destruct (read_counters k s.1) as [[u v]|e]; [|done]. cbn. destruct (get_pending k s.2) as [x y].
  intros [= <- <-]. by rewrite !add64_0_r.
Qed.
Lemma used_read k d d' p : read_counters k d' = read_counters k d → used_counters k (d', p) = used_counters k (d, p).
Proof. unfold used_counters. cbn. by intros ->. Qed.

(** What a successful update of the store does to the usage of every name. *)
Lemma update_counters_used k x y d d' p : store_ok d → update_counters k x y false d = (Ok tt, d') →
  store_ok d' ∧ ∀ k', used_counters k' (d', p) =
    if decide (k' = k) then ('(a, b) ← used_counters k (d, p); Ok (add64 a x, add64 b y)) else used_counters k' (d, p).
Proof.
  intros Hd Hu. destruct (read_counters k d) as [[a b]|e] eqn:Hr.
  - destruct (update_found k x y false d a b Hd Hr) as (d1 & Hu1 & Hd1 & Hr1 & Hf). rewrite Hu1 in Hu. injection Hu as ->.
    split; [done|]. intros k'. destruct (decide (k' = k)) as [->|Hne]; [|by apply used_read, Hf].
    unfold used_counters. cbn [fst snd]. rewrite Hr1, Hr. cbn.
    destruct (get_pending k p) as [u v]. cbn. do 2 f_equal; apply add64_comm_r.
  - rewrite (update_missing k x y false d e Hd Hr) in Hu. done.
Qed.

Lemma add_pending_used k x y d p k' : used_counters k' (d, add_pending k x y p) =
  if decide (k' = k) then ('(a, b) ← used_counters k (d, p); Ok (add64 a x, add64 b y)) else used_counters k' (d, p).
Proof.
  unfold used_counters. cbn [fst snd]. rewrite get_add_pending. destruct (decide (k' = k)) as [->|Hne]; [|done].
  destruct (read_counters k d) as [[a b]|e]; [|done]. cbn. destruct (get_pending k p) as [u v]. cbn. by rewrite !add64_assoc.
Qed.

(** Storing the update of a name and subtracting it does not change the usage. *)
Lemma store_and_subtract k x y d d' p : store_ok d → update_counters k x y false d = (Ok tt, d') →
  store_ok d' ∧ ∀ k', used_counters k' (d', add_pending k (neg64 x) (neg64 y) p) = used_counters k' (d, p).
Proof.
  intros Hd Hu. destruct (update_counters_used k x y d d' p Hd Hu) as [Hd' Hk]. split; [done|]. intros k'.
  rewrite add_pending_used, Hk. destruct (decide (k' = k)) as [->|Hne]; [|rewrite Hk; by case_decide].
  rewrite decide_True by done. unfold used_counters. cbn [fst snd]. destruct (read_counters k d) as [[a b]|e]; [|done].
  cbn. destruct (get_pending k p) as [u v]. cbn. do 2 f_equal; wrapping.
Qed.

Lemma read_update_Err k x y r d : store_ok d → (∃ e, fst (update_counters k x y r d) = Err e) →
  (update_counters k x y r d).2 = d ∧ ∃ e, read_counters k d = Err e.
Proof.
  intros Hd [e He]. destruct (read_counters k d) as [[a b]|e'] eqn:Hr.
  - destruct (update_found k x y r d a b Hd Hr) as (d' & Hu & _). by rewrite Hu in He.
  - rewrite (update_missing k x y r d e' Hd Hr). eauto.
Qed.

Lemma update_keeps_ok k x y d : store_ok d → store_ok (update_counters k x y false d).2.
Proof.
  intros Hd. destruct (read_counters k d) as [[a b]|e] eqn:Hr.
  - destruct (update_found k x y false d a b Hd Hr) as (d' & -> & Hd' & _). done.
  - by rewrite (update_missing k x y false d e Hd Hr).
Qed.

(** The frame of the loop: a preorder every update of the store respects. *)
Lemma store_loop_frame (R : relation D) `{!PreOrder R} names : (∀ k x y d, store_ok d → R d (update_counters k x y false d).2) →
  ∀ d p, store_ok d → R d (store_loop names (d, p)).1.
Proof.
  intros HR. induction names as [|k names IH]; intros d p Hd; [done|]. cbn.
  destruct (get_pending k p) as [x y]. destruct (_ || _); [|by apply IH].
  pose proof (HR k x y d Hd) as H1. pose proof (update_keeps_ok k x y d Hd) as H2.
  destruct (update_counters k x y false d) as [[[]|e] d']; (etrans; [exact H1|by apply IH]).
Qed.

Lemma store_loop_spec names : ∀ d p, store_ok d →
  store_ok (store_loop names (d, p)).1 ∧
  (∀ k, used_counters k (store_loop names (d, p)) = used_counters k (d, p)) ∧
  (∀ k, k ∉ names → get_pending k (store_loop names (d, p)).2 = get_pending k p) ∧
  (∀ k, get_pending k p = (0, 0) → get_pending k (store_loop names (d, p)).2 = (0, 0)) ∧
  (∀ k a b, k ∈ names → read_counters k d = Ok (a, b) → get_pending k (store_loop names (d, p)).2 = (0, 0)) ∧
  (∀ k e, read_counters k d = Err e → get_pending k (store_loop names (d, p)).2 = get_pending k p).
Proof.
  induction names as [|n names IH]; intros d p Hd.
  { split_and!; try done. by intros k a b ?%elem_of_nil. }
  cbn. destruct (get_pending n p) as [x y] eqn:Hp.
  assert (∀ k a b d', k ∈ n :: names → get_pending n p = (0, 0) ∨ k ≠ n → read_counters k d = Ok (a, b) → d' = d →
    get_pending k (store_loop names (d', p)).2 = (0, 0)) as Hskip.
  { intros k a b d' Hk Hn Hr ->. destruct (IH d p Hd) as (_ & _ & _ & Hz & Hc & _). destruct (decide (k = n)) as [->|Hne].
    - apply Hz. by destruct Hn.
    - apply elem_of_cons in Hk as [?|Hk]; [done|]. by eapply Hc. }
  destruct (negb (y =? 0) || negb (x =? 0)) eqn:Hne.
  2:{ apply orb_false_elim in Hne as [->%negb_false_iff%Z.eqb_eq ->%negb_false_iff%Z.eqb_eq].
      destruct (IH d p Hd) as (H1 & H2 & H3 & H4 & H5 & H6). split_and!; try done.
      - intros k Hk. apply H3. set_solver.
      - intros k a b Hk Hr. eapply Hskip; eauto. }
  destruct (update_counters n x y false d) as [[[]|e] d'] eqn:Hu.
  2:{ destruct (read_update_Err n x y false d Hd) as [Hd' [e' Hr']]; [rewrite Hu; eauto|]. rewrite Hu in Hd'. cbn in Hd'. subst d'.
      destruct (IH d p Hd) as (H1 & H2 & H3 & H4 & H5 & H6). split_and!; try done.
      - intros k Hk. apply H3. set_solver.
      - intros k a b Hk Hr. eapply Hskip; eauto. right. intros ->. by rewrite Hr in Hr'. }
  destruct (store_and_subtract n x y d d' p Hd Hu) as [Hd' Hused].
  assert (∀ k e, read_counters k d = Err e → k ≠ n) as Hmiss.
  { intros k e Hr ->. rewrite (update_missing n x y false d e Hd Hr) in Hu. done. }
  assert (∀ k, k ≠ n → read_counters k d' = read_counters k d) as Hframe.
  { intros k Hk. destruct (read_counters n d) as [[a b]|e] eqn:Hr; [|by destruct (Hmiss n e Hr)].
    destruct (update_found n x y false d a b Hd Hr) as (d1 & Hu1 & _ & _ & Hf). rewrite Hu1 in Hu. injection Hu as <-. by apply Hf. }
  destruct (IH d' (add_pending n (neg64 x) (neg64 y) p) Hd') as (H1 & H2 & H3 & H4 & H5 & H6).
  assert (get_pending n (add_pending n (neg64 x) (neg64 y) p) = (0, 0)) as Hzero.
  { rewrite get_add_pending, decide_True, Hp by done. by rewrite !neg64_cancel. }
  assert (∀ k, k ≠ n → get_pending k (add_pending n (neg64 x) (neg64 y) p) = get_pending k p) as Hother.
  { intros k Hk. by rewrite get_add_pending, decide_False. }
  split_and!; [done| | | | |].
  - intros k. by rewrite H2, Hused.
  - intros k Hk. rewrite H3, Hother; set_solver.
  - intros k Hk. apply H4. destruct (decide (k = n)) as [->|Hn]; [done|]. by rewrite Hother.
  - intros k a b Hk Hr. destruct (decide (k = n)) as [->|Hn]; [by apply H4|].
    apply elem_of_cons in Hk as [?|Hk]; [done|]. eapply H5; [done|]. by rewrite Hframe.
  - intros k e Hr. pose proof (Hmiss k e Hr). rewrite (H6 k e), Hother; [done..|]. by rewrite Hframe.
Qed.
End store.

(** * Updates, delayed or not *)

Section updates.
Context {D : Type} `{QuotaLaws D}.
Implicit Types (d : D) (p : pending).

Lemma update_or_delay_used delayed k x y d p a b : store_ok d → used_counters k (d, p) = Ok (a, b) →
  ∃ d' p', update_or_delay delayed k x y false (d, p) = (Ok tt, (d', p')) ∧ store_ok d' ∧
    ∀ k', used_counters k' (d', p') = if decide (k' = k) then Ok (add64 a x, add64 b y) else used_counters k' (d, p).
Proof.
  intros Hd Hu. unfold update_or_delay. destruct delayed; cbn [negb orb].
  - eexists _, _. split_and!; [done..|]. intros k'. rewrite add_pending_used, Hu. done.
  - destruct (read_counters k d) as [[a0 b0]|e] eqn:Hr; [|by unfold used_counters in Hu; cbn in Hu; rewrite Hr in Hu].
    destruct (update_found k x y false d a0 b0 Hd Hr) as (d' & Hrun & Hd' & _). rewrite Hrun.
    eexists _, _. split_and!; [done..|]. intros k'.
    destruct (update_counters_used k x y d d' p Hd Hrun) as [_ Hk]. rewrite Hk, Hu. done.
Qed.

Lemma update_or_delay_reset delayed k x y d p a b : in_int64 x → in_int64 y → store_ok d → used_counters k (d, p) = Ok (a, b) →
  ∃ d' p', update_or_delay delayed k x y true (d, p) = (Ok tt, (d', p')) ∧ store_ok d' ∧
    ∀ k', used_counters k' (d', p') = if decide (k' = k) then Ok (x, y) else used_counters k' (d, p).
Proof.
  intros Hx Hy Hd Hu. unfold update_or_delay. rewrite orb_true_r. cbn [fst snd].
  destruct (read_counters k d) as [[a0 b0]|e] eqn:Hr; [|by unfold used_counters in Hu; cbn in Hu; rewrite Hr in Hu].
  destruct (update_found k x y true d a0 b0 Hd Hr) as (d' & Hrun & Hd' & Hr' & Hf). rewrite Hrun.
  eexists _, _. split_and!; [done..|]. intros k'. unfold used_counters. cbn [fst snd]. rewrite get_delete_pending.
  destruct (decide (k' = k)) as [->|Hne]; [|by rewrite Hf].
  rewrite Hr'. cbn. unfold add64. by rewrite !Z.add_0_r, !wrap64_id.
Qed.
End updates.

(** * Storing interleaved with updates and resets *)

(** Where the loop over the names is: the names left, and for the current name
    whether its update was read, or also stored. *)
Inductive flush :=
  | Idle
  | Names (names : list string)
  | Read (k : string) (x y : Z) (names : list string)
  | Stored (k : string) (x y : Z) (names : list string).

(** What the clients do meanwhile. *)
Inductive event :=
  | Tau
  | Added (k : string) (x y : Z)
  | Dropped (k : string)               (* the first step of a reset *)
  | Reset_to (k : string) (x y : Z).   (* the second step *)

Section interleaving.
Context {D : Type} `{QuotaLaws D} (order : pending → list string).
Implicit Types (d : D) (p : pending).

(** Each step is atomic: it holds one lock, of the updater or of the provider. *)
Inductive qstep : D * pending * flush → event → D * pending * flush → Prop :=
  | step_start d p : qstep (d, p, Idle) Tau (d, p, Names (order p))
  | step_end d p : qstep (d, p, Names []) Tau (d, p, Idle)
  | step_skip d p k names : get_pending k p = (0, 0) → qstep (d, p, Names (k :: names)) Tau (d, p, Names names)
  | step_read d p k names x y : get_pending k p = (x, y) → negb (y =? 0) || negb (x =? 0) = true →
      qstep (d, p, Names (k :: names)) Tau (d, p, Read k x y names)
  | step_store d d' p k x y names : update_counters k x y false d = (Ok tt, d') →
      qstep (d, p, Read k x y names) Tau (d', p, Stored k x y names)
  | step_warn d d' p k x y names e : update_counters k x y false d = (Err e, d') →
      qstep (d, p, Read k x y names) Tau (d', p, Names names)
  | step_subtract d p k x y names :
      qstep (d, p, Stored k x y names) Tau (d, add_pending k (neg64 x) (neg64 y) p, Names names)
  | step_add d p fl k x y : qstep (d, p, fl) (Added k x y) (d, add_pending k x y p, fl)
  | step_add_direct d d' p fl k x y : update_counters k x y false d = (Ok tt, d') → qstep (d, p, fl) (Added k x y) (d', p, fl)
  | step_drop d p fl k : qstep (d, p, fl) (Dropped k) (d, delete k p, fl)
  | step_reset d d' p fl k x y : update_counters k x y true d = (Ok tt, d') → qstep (d, p, fl) (Reset_to k x y) (d', p, fl).

Inductive qsteps : D * pending * flush → list event → D * pending * flush → Prop :=
  | qsteps_refl s : qsteps s [] s
  | qsteps_cons s1 e s2 es s3 : qstep s1 e s2 → qsteps s2 es s3 → qsteps s1 (e :: es) s3.

(** The loop run alone is a run of the steps. *)
Lemma flush_is_qsteps names : ∀ d p, ∃ n, qsteps (d, p, Names names) (replicate n Tau) (store_loop names (d, p), Idle).
Proof.
  induction names as [|k names IH]; intros d p; cbn.
  { exists 1%nat. econstructor; [apply step_end|constructor]. }
  destruct (get_pending k p) as [x y] eqn:Hp. destruct (_ || _) eqn:Hne.
  - destruct (update_counters k x y false d) as [[[]|e] d'] eqn:Hu.
    + destruct (IH d' (add_pending k (neg64 x) (neg64 y) p)) as [n Hn]. exists (S (S (S n))).
      repeat (econstructor; [by econstructor|]). done.
    + destruct (IH d' p) as [n Hn]. exists (S (S n)). econstructor; [by econstructor|]. econstructor; [by eapply step_warn|done].
  - destruct (IH d p) as [n Hn]. exists (S n). econstructor; [|done]. apply step_skip.
    apply orb_false_elim in Hne as [->%negb_false_iff%Z.eqb_eq ->%negb_false_iff%Z.eqb_eq]. done.
Qed.

(** The usage of a name when the update in flight, already stored, is not counted twice. *)
Definition counted (k : string) (s : D * pending * flush) : res (Z * Z) :=
  '(a, b) ← used_counters k s.1;
  match s.2 with
  | Stored k' x y _ => if decide (k = k') then Ok (add64 a (neg64 x), add64 b (neg64 y)) else Ok (a, b)
  | _ => Ok (a, b)
  end.
Definition count_event (k : string) (ab : Z * Z) (e : event) : Z * Z :=
  match e with
  | Added k' x y => if decide (k = k') then (add64 ab.1 x, add64 ab.2 y) else ab
  | _ => ab
  end.
Definition no_reset (e : event) : Prop := match e with Tau | Added _ _ _ => True | _ => False end.

Lemma counted_used k d p fl : (∀ k' x y names, fl ≠ Stored k' x y names) → counted k (d, p, fl) = used_counters k (d, p).
Proof. intros Hf. unfold counted. cbn. destruct (used_counters k (d, p)) as [[a b]|e]; [|done]. destruct fl; try done. by edestruct Hf. Qed.

Lemma counted_congr k d p d' p' fl : used_counters k (d', p') = used_counters k (d, p) → counted k (d', p', fl) = counted k (d, p, fl).
Proof. unfold counted. cbn. by intros ->. Qed.

Lemma counted_added k k' x y d p d' p' fl :
  used_counters k (d', p') = (if decide (k = k') then ('(a, b) ← used_counters k' (d, p); Ok (add64 a x, add64 b y))
                              else used_counters k (d, p)) →
  counted k (d', p', fl) = (ab ← counted k (d, p, fl); Ok (count_event k ab (Added k' x y))).
Proof.
  intros Hu. unfold counted. cbn [fst snd]. rewrite Hu. unfold count_event. destruct (decide (k = k')) as [->|Hne].
  - destruct (used_counters k' (d, p)) as [[a b]|e]; [|done]. cbn.
    destruct fl as [| | |k2 x2 y2 names]; try done. cbn. destruct (decide (k' = k2)); [|done]. cbn. do 2 f_equal; apply add64_comm_r.
  - destruct (used_counters k (d, p)) as [[a b]|e]; [|done]. cbn. by destruct fl; try case_decide.
Qed.

Lemma qstep_counted s1 e s2 : qstep s1 e s2 → no_reset e → store_ok s1.1.1 →
  store_ok s2.1.1 ∧ ∀ k, counted k s2 = (ab ← counted k s1; Ok (count_event k ab e)).
Proof.
  assert (∀ k s, counted k s = (ab ← counted k s; Ok (count_event k ab Tau))) as Htau.
  { intros k s. by destruct (counted k s). }
  intros Hs Hn Hd. inversion Hs; subst; cbn in Hd, Hn; cbn [fst snd]; try done.
  1-4: split; [done|]; intros k0; rewrite <- Htau, !counted_used; done.
  - destruct (update_counters_used k x y d d' p Hd ltac:(done)) as [Hd' Hk]. split; [done|]. intros k0. rewrite <- Htau.
    rewrite (counted_used k0 d p) by done. unfold counted. cbn. rewrite Hk. destruct (decide (k0 = k)) as [->|Hne].
    + destruct (used_counters k (d, p)) as [[a b]|e] eqn:Hab; [|done]. apply used_wrapped in Hab as [Ha Hb].
      cbn. by rewrite !add64_neg_r, Ha, Hb.
    + by destruct (used_counters k0 (d, p)) as [[a b]|e].
  - destruct (read_update_Err k x y false d Hd) as [Hd' _]; [match goal with H : update_counters _ _ _ _ _ = _ |- _ => rewrite H end; eauto|].
    match goal with H : update_counters _ _ _ _ _ = _ |- _ => rewrite H in Hd' end. cbn in Hd'. subst.
    split; [done|]. intros k0. by rewrite <- Htau, !counted_used.
  - split; [done|]. intros k0. rewrite <- Htau, counted_used by done. unfold counted. cbn. rewrite add_pending_used.
    destruct (decide (k0 = k)) as [->|Hne]; [done|]. by destruct (used_counters k0 (d, p)) as [[a b]|e].
  - split; [done|]. intros k0. apply counted_added, add_pending_used.
  - destruct (update_counters_used k x y d d' p Hd ltac:(done)) as [Hd' Hk]. split; [done|]. intros k0. apply counted_added, Hk.
Qed.

Lemma qsteps_counted s1 es s2 : qsteps s1 es s2 → Forall no_reset es → store_ok s1.1.1 →
  ∀ k, counted k s2 = (ab ← counted k s1; Ok (foldl (count_event k) ab es)).
Proof.
  induction 1 as [s|s1 e s2 es s3 Hs _ IH]; intros Hes Hd k.
  - by destruct (counted k s).
  - inversion Hes; subst. destruct (qstep_counted _ _ _ Hs ltac:(done) Hd) as [Hd2 Hk]. rewrite IH, Hk by done.
    by destruct (counted k s1).
Qed.

(** C25: While the delayed updates are stored, step by step and in any
    interleaving with updates of the clients, delayed or direct, no update is
    lost or counted twice: when the loop is idle again the usage of every name
    is the usage at the start plus what the clients added, modulo 2^64. *)
Theorem interleaved_updates_count d p es d' p' : store_ok d → Forall no_reset es →
  qsteps (d, p, Idle) es (d', p', Idle) →
  ∀ k, used_counters k (d', p') = (ab ← used_counters k (d, p); Ok (foldl (count_event k) ab es)).
Proof.
  intros Hd Hes Hs k. rewrite <- !(counted_used k _ _ Idle) by done. by eapply qsteps_counted.
Qed.

(** A reset is not safe while the loop runs: when it comes between the
    update of the provider and the subtraction from the pending updates, the
    usage is not the one it sets but smaller by the stored update. *)
Theorem reset_during_flush d k x y a b rx ry : store_ok d → read_counters k d = Ok (a, b) →
  negb (y =? 0) || negb (x =? 0) = true → in_int64 x → in_int64 y → order {[ k := (x, y) ]} = [k] →
  ∃ s', qsteps (d, {[ k := (x, y) ]}, Idle) [Tau; Tau; Tau; Dropped k; Reset_to k rx ry; Tau; Tau] (s', Idle) ∧
    used_counters k s' = Ok (add64 rx (neg64 x), add64 ry (neg64 y)).
Proof.
  intros Hd Hr Hne Hx Hy Ho. set (p := {[ k := (x, y) ]} : pending) in *.
  assert (get_pending k p = (x, y)) as Hp by (unfold get_pending, p; by rewrite lookup_singleton_eq).
  destruct (update_found k x y false d a b Hd Hr) as (d1 & Hu1 & Hd1 & Hr1 & _).
  destruct (update_found k rx ry true d1 _ _ Hd1 Hr1) as (d2 & Hu2 & Hd2 & Hr2 & _).
  exists (d2, add_pending k (neg64 x) (neg64 y) (delete k p)). split.
  - econstructor; [apply step_start|]. rewrite Ho. repeat (econstructor; [by econstructor|]). constructor.
  - rewrite add_pending_used, decide_True by done. unfold used_counters. cbn [fst snd]. rewrite Hr2, get_delete_pending, decide_True by done.
    cbn. do 2 f_equal; wrapping.
Qed.
End interleaving.

(** * The provider *)

Section provider.
Variables (now : nat → Z) (order : pending → list string) (TrackQuota DelayedQuotaUpdate : Z).
Implicit Types (h : DB.t) (s : Quotas.t).

Definition same_users h h' : Prop := ∀ k, @read_counters _ (user_store now) k h' = @read_counters _ (user_store now) k h.
Definition same_transfers h h' : Prop := ∀ k, @read_counters _ (transfer_store now) k h' = @read_counters _ (transfer_store now) k h.
Definition same_folders h h' : Prop := ∀ k, @read_counters _ (folder_store now) k h' = @read_counters _ (folder_store now) k h.

#[local] Instance same_users_preorder : PreOrder same_users.
Proof. split; [by intros h k|intros h1 h2 h3 H1 H2 k; by rewrite H2, H1]. Qed.
#[local] Instance same_transfers_preorder : PreOrder same_transfers.
Proof. split; [by intros h k|intros h1 h2 h3 H1 H2 k; by rewrite H2, H1]. Qed.
#[local] Instance same_folders_preorder : PreOrder same_folders.
Proof. split; [by intros h k|intros h1 h2 h3 H1 H2 k; by rewrite H2, H1]. Qed.

(** What an update of the counters of a user leaves alone. *)
Lemma update_user_frame {B} (get : User.t → B) username f h : open_and_wf h →
  (∀ u, User.Username (f u) = User.Username u) → (∀ u, get (f (user_getACopy u)) = get u) →
  let h' := (locked (update_user username f) h).2 in
  DB.isClosed h' = false ∧ same_folders h h' ∧ ∀ k, get <$> (DB.users h' !! k) = get <$> (DB.users h !! k).
Proof.
  intros [W Hc] Hf Hg. destruct (DB.users h !! username) as [u|] eqn:Hu.
  - rewrite (update_user_run username f h u W Hc Hu Hf). cbn [snd]. split_and!; [done|by intros k|]. intros k.
    change (DB.users (setter _ _ h)) with (<[username:=f (user_getACopy u)]> (DB.users h)).
    destruct (decide (k = username)) as [->|Hne]; [|by rewrite lookup_insert_ne].
    rewrite lookup_insert_eq, Hu. cbn. by rewrite Hg.
  - by rewrite (update_user_missing username f h Hc Hu).
Qed.

Lemma user_update_frame k x y reset h : open_and_wf h →
  same_transfers h (updateQuota now k x y reset h).2 ∧ same_folders h (updateQuota now k x y reset h).2.
Proof.
  intros Hw. pose proof (update_user_frame (fun u => (User.UsedUploadDataTransfer u, User.UsedDownloadDataTransfer u))
    k (user_add_quota now x y reset) h Hw ltac:(by destruct reset) ltac:(by destruct reset)) as (Hc & Hf & Hg).
  split; [|done]. intros k'. specialize (Hg k'). cbn [read_counters transfer_store]. destruct Hw as [_ Hc0].
  rewrite !used_quota_users by done. unfold updateQuota in *. revert Hg.
  destruct (DB.users _ !! k'), (DB.users h !! k'); intros Hg; try done. by injection Hg as -> ->.
Qed.

Lemma transfer_update_frame k x y reset h : open_and_wf h →
  same_users h (updateTransferQuota now k x y reset h).2 ∧ same_folders h (updateTransferQuota now k x y reset h).2.
Proof.
  intros Hw. pose proof (update_user_frame (fun u => (User.UsedQuotaFiles u, User.UsedQuotaSize u))
    k (user_add_transfer now x y reset) h Hw ltac:(by destruct reset) ltac:(by destruct reset)) as (Hc & Hf & Hg).
  split; [|done]. intros k'. specialize (Hg k'). cbn [read_counters user_store]. destruct Hw as [_ Hc0].
  rewrite !used_quota_users by done. unfold updateTransferQuota in *. revert Hg.
  destruct (DB.users _ !! k'), (DB.users h !! k'); intros Hg; try done. by injection Hg as -> ->.
Qed.

Lemma folder_update_frame k x y reset h : open_and_wf h →
  same_users h (updateFolderQuota now k x y reset h).2 ∧ same_transfers h (updateFolderQuota now k x y reset h).2.
Proof.
  intros [W Hc]. unfold updateFolderQuota, locked. rewrite Hc. unfold mbind, M_bind, ask. by destruct (folderExistsInternal k h).
Qed.

(** The three usages as the clients read them. *)
Definition users_used k s := @used_counters _ (user_store now) k (Quotas.db s, Quotas.pendingUserQuotaUpdates s).
Definition transfers_used k s := @used_counters _ (transfer_store now) k (Quotas.db s, Quotas.pendingTransferQuotaUpdates s).
Definition folders_used k s := @used_counters _ (folder_store now) k (Quotas.db s, Quotas.pendingFolderQuotaUpdates s).

Lemma Api_used k s : Api_GetUsedQuota TrackQuota k s = if TrackQuota =? 0 then Err MethodDisabled else
  '(files, size) ← users_used k s; '(ul, dl) ← transfers_used k s; Ok (files, size, ul, dl).
Proof.
  unfold Api_GetUsedQuota, users_used, transfers_used, used_counters, getUserPendingQuota, getUserPendingTransferQuota. cbn.
  destruct (getUsedQuota k (Quotas.db s)) as [[[[f sz] ul] dl]|e]; [|done]. cbn.
  destruct (get_pending k _) as [a b], (get_pending k _) as [a' b']. done.
Qed.

Lemma storeUsersQuota_used s : open_and_wf (Quotas.db s) → let s' := (storeUsersQuota now order s).2 in
  open_and_wf (Quotas.db s') ∧ (∀ k, users_used k s' = users_used k s) ∧ (∀ k, transfers_used k s' = transfers_used k s) ∧
  ∀ k, folders_used k s' = folders_used k s.
Proof.
  intros Hw. destruct s as [h pu pf pt]. cbn in Hw |- *.
  destruct (@store_loop_spec _ _ (user_laws now) (order pu) h pu Hw) as (H1 & H2 & _).
  pose proof (@store_loop_frame _ _ (user_laws now) same_transfers _ (order pu) ltac:(intros; by apply user_update_frame) h pu Hw) as Ht.
  pose proof (@store_loop_frame _ _ (user_laws now) same_folders _ (order pu) ltac:(intros; by apply user_update_frame) h pu Hw) as Hf.
  unfold store_pending. cbn [snd]. destruct (@store_loop _ (user_store now) (order pu) (h, pu)) as [h' pu'] eqn:E.
  split_and!; [done| | |]; intros k; [apply H2|apply (@used_read _ (transfer_store now)), Ht|apply (@used_read _ (folder_store now)), Hf].
Qed.

Lemma storeFoldersQuota_used s : open_and_wf (Quotas.db s) → let s' := (storeFoldersQuota now order s).2 in
  open_and_wf (Quotas.db s') ∧ (∀ k, users_used k s' = users_used k s) ∧ (∀ k, transfers_used k s' = transfers_used k s) ∧
  ∀ k, folders_used k s' = folders_used k s.
Proof.
  intros Hw. destruct s as [h pu pf pt]. cbn in Hw |- *.
  destruct (@store_loop_spec _ _ (folder_laws now) (order pf) h pf Hw) as (H1 & H2 & _).
  pose proof (@store_loop_frame _ _ (folder_laws now) same_transfers _ (order pf) ltac:(intros; by apply folder_update_frame) h pf Hw) as Ht.
  pose proof (@store_loop_frame _ _ (folder_laws now) same_users _ (order pf) ltac:(intros; by apply folder_update_frame) h pf Hw) as Hu.
  unfold store_pending. cbn [snd]. destruct (@store_loop _ (folder_store now) (order pf) (h, pf)) as [h' pf'] eqn:E.
  split_and!; [done| | |]; intros k; [apply (@used_read _ (user_store now)), Hu|apply (@used_read _ (transfer_store now)), Ht|apply H2].
Qed.

Lemma storeUsersTransferQuota_used s : open_and_wf (Quotas.db s) → let s' := (storeUsersTransferQuota now order s).2 in
  open_and_wf (Quotas.db s') ∧ (∀ k, users_used k s' = users_used k s) ∧ (∀ k, transfers_used k s' = transfers_used k s) ∧
  ∀ k, folders_used k s' = folders_used k s.
Proof.
  intros Hw. destruct s as [h pu pf pt]. cbn in Hw |- *.
  destruct (@store_loop_spec _ _ (transfer_laws now) (order pt) h pt Hw) as (H1 & H2 & _).
  pose proof (@store_loop_frame _ _ (transfer_laws now) same_users _ (order pt) ltac:(intros; by apply transfer_update_frame) h pt Hw) as Hu.
  pose proof (@store_loop_frame _ _ (transfer_laws now) same_folders _ (order pt) ltac:(intros; by apply transfer_update_frame) h pt Hw) as Hf.
  unfold store_pending. cbn [snd]. destruct (@store_loop _ (transfer_store now) (order pt) (h, pt)) as [h' pt'] eqn:E.
  split_and!; [done| | |]; intros k; [apply (@used_read _ (user_store now)), Hu|apply H2|apply (@used_read _ (folder_store now)), Hf].
Qed.

(** A round of the quota updater is invisible: the quotas [GetUsedQuota] and
    [GetUsedVirtualFolderQuota] report for any name, errors included, are the
    same before and after the delayed updates are stored. *)
Theorem quota_round_invisible s : open_and_wf (Quotas.db s) → let s' := (quota_round now order s).2 in
  (∀ username, Api_GetUsedQuota TrackQuota username s' = Api_GetUsedQuota TrackQuota username s) ∧
  (∀ name, GetUsedVirtualFolderQuota now TrackQuota name s' = GetUsedVirtualFolderQuota now TrackQuota name s).
Proof.
  intros H0. destruct (storeUsersQuota_used s H0) as (H1 & U1 & T1 & F1). set (s1 := (storeUsersQuota now order s).2) in *.
  destruct (storeFoldersQuota_used s1 H1) as (H2 & U2 & T2 & F2). set (s2 := (storeFoldersQuota now order s1).2) in *.
  destruct (storeUsersTransferQuota_used s2 H2) as (_ & U3 & T3 & F3). set (s3 := (storeUsersTransferQuota now order s2).2) in *.
  assert ((quota_round now order s).2 = s3) as ->.
  { unfold quota_round, mbind, M_bind. unfold s3, s2, s1.
    unfold storeUsersQuota, storeFoldersQuota, storeUsersTransferQuota, on_users, on_folders, on_transfers, on_pending, store_all.
    by repeat (destruct (store_pending _ _) as [? ?]; cbn). }
  split; intros k.
  - by rewrite !Api_used, U3, U2, U1, T3, T2, T1.
  - unfold GetUsedVirtualFolderQuota. fold (folders_used k s3) (folders_used k s). by rewrite F3, F2, F1.
Qed.

Lemma UpdateUserQuota_run s user files size reset f sz ul dl : open_and_wf (Quotas.db s) →
  (TrackQuota =? 2) && negb reset && negb (HasQuotaRestrictions user) = false → (reset = true → in_int64 files ∧ in_int64 size) →
  Api_GetUsedQuota TrackQuota (User.Username user) s = Ok (f, sz, ul, dl) →
  ∃ s', UpdateUserQuota now TrackQuota DelayedQuotaUpdate user files size reset s = (Ok tt, s') ∧ open_and_wf (Quotas.db s') ∧
    ∀ k, Api_GetUsedQuota TrackQuota k s' =
      if decide (k = User.Username user) then Ok (if reset then (files, size, ul, dl) else (add64 f files, add64 sz size, ul, dl))
      else Api_GetUsedQuota TrackQuota k s.
Proof.
  intros Hw Ht Hr Hu. unfold UpdateUserQuota. set (name := User.Username user) in *. rewrite Api_used in Hu.
  destruct (TrackQuota =? 0) eqn:Hq; [done|]. rewrite Ht.
  destruct (users_used name s) as [[f0 sz0]|e] eqn:Hus; [|done]. unfold mbind, res_bind in Hu.
  destruct (transfers_used name s) as [[ul0 dl0]|e] eqn:Hts; [|done]. injection Hu as -> -> -> ->.
  destruct ((files =? 0) && (size =? 0) && negb reset) eqn:Hz.
  { exists s. split; [done|]. split; [done|]. intros k. case_decide as Hk; [|done]. subst k. rewrite Api_used, Hq, Hus, Hts. cbn.
    apply andb_prop in Hz as [[->%Z.eqb_eq ->%Z.eqb_eq]%andb_prop ->%negb_true_iff].
    apply (@used_wrapped _ (user_store now)) in Hus as [-> ->]. done. }
  assert (∃ d' p', @update_or_delay _ (user_store now) (delayed DelayedQuotaUpdate) name files size reset
     (Quotas.db s, Quotas.pendingUserQuotaUpdates s) = (Ok tt, (d', p')) ∧ open_and_wf d' ∧
     (∀ k', @used_counters _ (user_store now) k' (d', p') =
        if decide (k' = name) then Ok (if reset then (files, size) else (add64 f files, add64 sz size)) else users_used k' s)) as (d' & p' & Hrun & Hw' & Hk).
  { destruct reset.
    - destruct (Hr eq_refl) as [Hf Hs]. by apply (@update_or_delay_reset _ _ (user_laws now)) with (a := f) (b := sz).
    - by apply (@update_or_delay_used _ _ (user_laws now)). }
  unfold on_users, on_pending. rewrite Hrun. eexists. split; [done|]. split; [done|]. intros k. rewrite !Api_used, Hq.
  assert (transfers_used k (setter Quotas.pendingUserQuotaUpdates (fun _ => p') (s <| Quotas.db := d' |>)) = transfers_used k s) as ->.
  { apply (@used_read _ (transfer_store now)). cbn. unfold update_or_delay in Hrun. destruct (negb _ || _).
    - cbn in Hrun. pose proof (user_update_frame name files size reset _ Hw) as [Hframe _].
      destruct (updateQuota now name files size reset (Quotas.db s)) as [r d1]. injection Hrun as _ -> _. apply Hframe.
    - by injection Hrun as <- _. }
  unfold users_used at 1. cbn [Quotas.db Quotas.pendingUserQuotaUpdates setter]. rewrite Hk. case_decide as Hn; [|done].
  subst k. rewrite Hts. by destruct reset.
Qed.

(** the same for the transferred data *)
Lemma UpdateUserTransferQuota_run s user upload download f sz ul dl : open_and_wf (Quotas.db s) →
  Api_GetUsedQuota TrackQuota (User.Username user) s = Ok (f, sz, ul, dl) →
  ∃ s', UpdateUserTransferQuota now TrackQuota DelayedQuotaUpdate user upload download false s = (Ok tt, s') ∧ open_and_wf (Quotas.db s') ∧
    ∀ k, Api_GetUsedQuota TrackQuota k s' =
      if decide (k = User.Username user)
      then Ok (if (TrackQuota =? 2) && negb (HasTransferQuotaRestrictions user) then (f, sz, ul, dl) else (f, sz, add64 ul upload, add64 dl download))
      else Api_GetUsedQuota TrackQuota k s.
Proof.
  intros Hw Hu. unfold UpdateUserTransferQuota. set (name := User.Username user) in *. pose proof Hu as Hu0. rewrite Api_used in Hu.
  destruct (TrackQuota =? 0) eqn:Hq; [done|]. rewrite andb_true_r.
  assert (∀ (b : bool) s1, s1 = s → ∀ k, Api_GetUsedQuota TrackQuota k s1 = if decide (k = name) then Ok (f, sz, ul, dl) else Api_GetUsedQuota TrackQuota k s) as Hsame.
  { intros _ s1 -> k. case_decide as Hk; [by subst k|done]. }
  destruct ((TrackQuota =? 2) && negb (HasTransferQuotaRestrictions user)); [exists s; split_and!; [done..|by apply (Hsame true)]|]. clear Hsame.
  destruct (users_used name s) as [[f0 sz0]|e] eqn:Hus; [|done]. unfold mbind, res_bind in Hu.
  destruct (transfers_used name s) as [[ul0 dl0]|e] eqn:Hts; [|done]. injection Hu as -> -> -> ->.
  destruct ((download =? 0) && (upload =? 0) && negb false) eqn:Hz.
  { exists s. split; [done|]. split; [done|]. intros k. case_decide as Hk; [|done]. subst k. rewrite Hu0.
    apply andb_prop in Hz as [[->%Z.eqb_eq ->%Z.eqb_eq]%andb_prop _].
    apply (@used_wrapped _ (transfer_store now)) in Hts as [-> ->]. done. }
  destruct (@update_or_delay_used _ _ (transfer_laws now) (delayed DelayedQuotaUpdate) name upload download (Quotas.db s)
    (Quotas.pendingTransferQuotaUpdates s) ul dl Hw Hts) as (d' & p' & Hrun & Hw' & Hk).
  unfold on_transfers, on_pending. rewrite Hrun. eexists. split; [done|]. split; [done|]. intros k. rewrite !Api_used, Hq.
  assert (users_used k (setter Quotas.pendingTransferQuotaUpdates (fun _ => p') (s <| Quotas.db := d' |>)) = users_used k s) as ->.
  { apply (@used_read _ (user_store now)). cbn. unfold update_or_delay in Hrun. destruct (negb _ || _).
    - cbn in Hrun. pose proof (transfer_update_frame name upload download false _ Hw) as [Hframe _].
      destruct (updateTransferQuota now name upload download false (Quotas.db s)) as [r d1]. injection Hrun as _ -> _. apply Hframe.
    - by injection Hrun as <- _. }
  unfold transfers_used at 1. cbn [Quotas.db Quotas.pendingTransferQuotaUpdates setter]. rewrite Hk. case_decide as Hn; [|done].
  subst k. by rewrite Hus.
Qed.

(** After [UpdateUserQuota], delayed or not, [GetUsedQuota] reports the sum of
    the old usage and the update modulo 2^64, or the new values on a reset; the
    transfers of the user and the other users are unchanged. *)
Theorem UpdateUserQuota_counts s user files size reset f sz ul dl : open_and_wf (Quotas.db s) →
  (TrackQuota =? 2) && negb reset && negb (HasQuotaRestrictions user) = false → (reset = true → in_int64 files ∧ in_int64 size) →
  Api_GetUsedQuota TrackQuota (User.Username user) s = Ok (f, sz, ul, dl) →
  ∃ s', UpdateUserQuota now TrackQuota DelayedQuotaUpdate user files size reset s = (Ok tt, s') ∧
    ∀ k, Api_GetUsedQuota TrackQuota k s' =
      if decide (k = User.Username user) then Ok (if reset then (files, size, ul, dl) else (add64 f files, add64 sz size, ul, dl))
      else Api_GetUsedQuota TrackQuota k s.
Proof.
  intros Hw Ht Hr Hu. destruct (UpdateUserQuota_run s user files size reset f sz ul dl Hw Ht Hr Hu) as (s' & Hs & _ & Hk). eauto.
Qed.
End provider.

(** * Samples *)

Definition names_of (p : pending) : list string := (map_to_list p).*1.
Definition sample_quotas : Quotas.t :=
  Quotas.mk sample {[ "alice" := (2, 100); "ghost" := (1, 1) ]} {[ "docs" := (3, 7) ]} {[ "bob" := (5, MaxInt64) ]}.

Lemma sample_open : open_and_wf sample.
Proof. split; [apply sample_wf|by vm_compute]. Qed.

Lemma quota_round_invisible_witness :
  let s' := (quota_round clock names_of sample_quotas).2 in
  Api_GetUsedQuota 1 "alice" s' = Ok (2, 100, 0, 0) ∧ Quotas.pendingUserQuotaUpdates s' = {[ "ghost" := (1, 1) ]} ∧
  Api_GetUsedQuota 1 "alice" s' = Api_GetUsedQuota 1 "alice" sample_quotas.
Proof.
  pose proof (quota_round_invisible clock names_of 1 sample_quotas sample_open) as [H _]. intros s'. specialize (H "alice").
  refine (conj _ (conj _ H)); vm_compute; reflexivity.
Defined.

Lemma UpdateUserQuota_counts_witness :
  (∃ s', UpdateUserQuota clock 2 60 (mk_user "alice" "" [] []) 1 (-30) true sample_quotas = (Ok tt, s') ∧
    Api_GetUsedQuota 2 "alice" s' = Ok (1, -30, 0, 0)) ∧
  (∃ s', UpdateUserQuota clock 1 60 (mk_user "alice" "" [] []) MaxInt64 1 false sample_quotas = (Ok tt, s') ∧
    Api_GetUsedQuota 1 "alice" s' = Ok (MinInt64 + 1, 101, 0, 0)).
Proof.
  pose proof (UpdateUserQuota_counts clock 2 60 sample_quotas (mk_user "alice" "" [] []) 1 (-30) true 2 100 0 0) as H1.
  pose proof (UpdateUserQuota_counts clock 1 60 sample_quotas (mk_user "alice" "" [] []) MaxInt64 1 false 2 100 0 0) as H2.
  split.
  - destruct H1 as (s' & Hs & Hk); [apply sample_open|reflexivity|by intros _; vm_compute|by vm_compute|].
    exists s'. split; [exact Hs|]. by rewrite (Hk "alice").
  - destruct H2 as (s' & Hs & Hk); [apply sample_open|reflexivity|by intros|by vm_compute|].
    exists s'. split; [exact Hs|]. by rewrite (Hk "alice").
Defined.

Lemma interleaved_updates_count_witness :
  let _ := user_store clock in
  ∃ s', qsteps names_of (sample, {[ "alice" := (2, 100) ]}, Idle) [Tau; Tau; Tau; Added "alice" 1 5; Tau; Tau] (s', Idle) ∧
    used_counters "alice" s' = Ok (3, 105).
Proof.
  intros Q. set (p := {[ "alice" := (2, 100) ]} : pending).
  set (d1 := (update_counters "alice" 2 100 false sample).2).
  assert (update_counters "alice" 2 100 false sample = (Ok tt, d1)) as Hd by (vm_compute; reflexivity).
  set (s' := (d1, add_pending "alice" (neg64 2) (neg64 100) (add_pending "alice" 1 5 p))).
  assert (qsteps names_of (sample, p, Idle) [Tau; Tau; Tau; Added "alice" 1 5; Tau; Tau] (s', Idle)) as Hs.
  { eapply qsteps_cons; [apply step_start|]. change (names_of p) with ["alice"].
    eapply qsteps_cons; [apply step_read; reflexivity|].
    eapply qsteps_cons; [apply step_store, Hd|].
    eapply qsteps_cons; [apply step_add|].
    eapply qsteps_cons; [apply step_subtract|].
    eapply qsteps_cons; [apply step_end|apply qsteps_refl]. }
  exists s'. refine (conj Hs _).
  pose proof (@interleaved_updates_count _ _ (user_laws clock) names_of sample p [Tau; Tau; Tau; Added "alice" 1 5; Tau; Tau] _ _ sample_open
    ltac:(repeat constructor) Hs "alice") as H.
  etrans; [exact H|]. vm_compute. reflexivity.
Defined.

Lemma reset_during_flush_witness :
  let _ := user_store clock in
  ∃ s', qsteps names_of (sample, {[ "alice" := (2, 100) ]}, Idle)
      [Tau; Tau; Tau; Dropped "alice"; Reset_to "alice" 7 1000; Tau; Tau] (s', Idle) ∧
    used_counters "alice" s' = Ok (5, 900).
Proof.
  intros Q.
  destruct (@reset_during_flush _ _ (user_laws clock) names_of sample "alice" 2 100 0 0 7 1000 sample_open)
    as (s' & Hs & Hu); [reflexivity..|by vm_compute|by vm_compute|reflexivity|].
  exists s'. split; [exact Hs|]. etrans; [exact Hu|]. vm_compute. reflexivity.
Defined.
