(* ===== verification/TransferProps.v ===== *)
(** What transfers guarantee: the limits of an upload keep the user within the
    quota ([upload_fits_quota]), also when the file is truncated
    ([truncate_keeps_limit]) unless it is extended past the limit
    ([extending_truncate_lifts_limit]); an upload is counted when it ends
    ([closed_upload_counts]); the checker of concurrent transfers may keep
    transfers that have ended ([checker_calls_race]). *)
From S2P Require Import Prelude GoPath Util Net FsConfig FsValidate Entities Links Tables MemoryCore MemoryOps UserPerms MemoryQueries ValidateUser ValidateObjects Quota ConnData Connection ConnectionOps ConnectionCopy Effects ConnectionProps TransfersChecker Transfers Samples ValidateUserProps ToyStorage QuotaProps.
Open Scope Z_scope.

Section props.
Context {St : Storage} {Hk : Hooks} {Cfg : Settings} {E : Env}.
Implicit Types (t : BaseTransfer.t) (w : world).
Import BaseTransfer.

(** * Limits *)

Lemma sub64_id a b : in_int64 (a - b) → sub64 a b = a - b.
Proof. apply wrap64_id. Qed.
Lemma add64_id a b : in_int64 (a + b) → add64 a b = a + b.
Proof. apply wrap64_id. Qed.

(** all the comparisons of a hypothesis *)
Ltac decide_Z H := repeat
  match type of H with
  | context [?a <? ?b] => destruct (Z.ltb_spec a b)
  | context [?a <=? ?b] => destruct (Z.leb_spec a b)
  | context [?a =? ?b] => destruct (Z.eqb_spec a b)
  end; cbn [orb andb negb] in H; try discriminate H.

Lemma CheckWrite_max t : CheckWrite t = Ok tt → 0 < MaxWriteSize t → BytesReceived t <= MaxWriteSize t.
Proof.
  unfold CheckWrite. intros H Hm. destruct (Z.ltb_spec 0 (MaxWriteSize t)); [|lia].
  destruct (Z.ltb_spec (MaxWriteSize t) (BytesReceived t)); [done|lia].
Qed.

(** C26: An upload the checks let through keeps the disk usage within the quota and
    the file within the size limit of the user: when the quota check of
    [HasSpace] passes and [GetMaxWriteSize] gives the limit of the transfer,
    then as long as [CheckWrite] accepts what was received, the usage without
    the replaced file plus the new data is at most the quota.  A limit of zero,
    which means none, is only given when there is no limit. *)
Theorem upload_fits_quota checkFiles quotaSize quotaFiles usedFiles usedSize isResume fileSize canResume limit t :
  let q := compare_quota checkFiles quotaSize quotaFiles (Ok (usedFiles, usedSize)) in
  let maxUpload := BaseUserFilters.MaxUploadFileSize (base_filters user) in
  in_int64 quotaSize → in_int64 maxUpload → 0 <= fileSize <= usedSize → in_int64 usedSize →
  QuotaCheckResult.HasSpace q = true → GetMaxWriteSize q isResume fileSize canResume = Ok limit →
  MaxWriteSize t = limit → CheckWrite t = Ok tt →
  (0 < quotaSize → usedSize - (if isResume then 0 else fileSize) + BytesReceived t <= quotaSize) ∧
  (0 < maxUpload → (if isResume then fileSize else 0) + BytesReceived t <= maxUpload).
Proof.
  intros q maxUpload Hqs Hmu Hfs Hus Hspace Hmax Ht Hcheck. unfold in_int64, MinInt64, MaxInt64 in *.
  pose proof (CheckWrite_max t Hcheck) as Hrecv. rewrite Ht in Hrecv.
  assert (0 < quotaSize → usedSize < quotaSize) as Hlt.
  { intros Hq. cbn in Hspace. destruct (Z.ltb_spec 0 quotaSize); [|lia]. destruct (Z.leb_spec quotaSize usedSize); [|lia].
    by rewrite orb_true_r in Hspace. }
  assert (GetRemainingSize q = if 0 <? quotaSize then quotaSize - usedSize else 0) as Hrem.
  { unfold GetRemainingSize, q. cbn. destruct (Z.ltb_spec 0 quotaSize); [|done]. apply sub64_id. unfold in_int64, MinInt64, MaxInt64. lia. }
  unfold GetMaxWriteSize in Hmax. rewrite Hrem in Hmax. fold maxUpload in Hmax. clearbody maxUpload. clear q Hcheck Hspace Hrem Ht.
  set (n := BytesReceived t) in *. clearbody n. clear t.
  destruct isResume; [destruct (negb canResume); [done|]|]; decide_Z Hmax;
    try rewrite sub64_id in * by (unfold in_int64, MinInt64, MaxInt64; lia);
    try rewrite add64_id in * by (unfold in_int64, MinInt64, MaxInt64; lia);
    decide_Z Hmax; injection Hmax as <-; lia.
Qed.

(** Truncating the file of an upload below the limit keeps the limit: what is
    already in the file and what may still be received add up to the same, and
    the bytes received so far no longer count. *)
Theorem truncate_keeps_limit t p size w i t' q w' :
  transfer_Truncate t p size w = ((Ok i, t', q), w') → File t ≠ None → 0 < MaxWriteSize t → 0 <= InitialSize t →
  in_int64 (InitialSize t + MaxWriteSize t) → 0 <= size < InitialSize t + MaxWriteSize t →
  i = InitialSize t ∧ InitialSize t' = size ∧ BytesReceived t' = 0 ∧ 0 < MaxWriteSize t' ∧
  InitialSize t' + MaxWriteSize t' = InitialSize t + MaxWriteSize t.
Proof.
  intros H Hf Hm Hi Hr Hs. unfold transfer_Truncate in H. destruct (p =s fsPath t); [|done].
  destruct (File t) as [file|]; [|done]. destruct (file_Truncate file size w) as [[[]|e] w1]; [|done].
  destruct (Z.ltb_spec 0 (MaxWriteSize t)); [|lia]. injection H as <- <- <- <-. cbn.
  unfold in_int64, MinInt64, MaxInt64 in Hr.
  rewrite sub64_id, add64_id by (unfold in_int64, MinInt64, MaxInt64; lia). split_and!; lia.
Qed.

(** Extending the file of an upload to its limit or past it lifts the limit: the
    transfer is no longer limited, whatever is received afterwards is accepted,
    and the checker of concurrent transfers is not told when it ends. *)
Theorem extending_truncate_lifts_limit t p size w i t' q w' n s :
  transfer_Truncate t p size w = ((Ok i, t', q), w') → File t ≠ None → 0 < MaxWriteSize t → 0 <= InitialSize t →
  in_int64 (InitialSize t + MaxWriteSize t) → in_int64 size → InitialSize t + MaxWriteSize t <= size →
  HasSizeLimits (transferQuota t) = false → TransferQuota.AllowedULSize (transferQuota t) = 0 →
  TransferQuota.AllowedTotalSize (transferQuota t) = 0 →
  CheckWrite (t' <| BytesReceived := n |>) = Ok tt ∧
  (∃ tr, (AddTransfer 0 0 "" t s).1 = Ok [CheckAdd tr]) ∧ (RemoveTransfer (t' <| BytesReceived := n |>) s).1 = Ok [].
Proof.
  intros H Hf Hm Hi Hr Hsz Hs Hl Hul Htot. unfold transfer_Truncate in H. destruct (p =s fsPath t); [|done].
  destruct (File t) as [file|]; [|done]. destruct (file_Truncate file size w) as [[[]|e] w1]; [|done].
  destruct (Z.ltb_spec 0 (MaxWriteSize t)); [|lia]. injection H as <- <- <- <-.
  unfold in_int64, MinInt64, MaxInt64 in *.
  assert (add64 (MaxWriteSize t) (sub64 (InitialSize t) size) <= 0) as Hle.
  { rewrite sub64_id, add64_id by (unfold in_int64, MinInt64, MaxInt64; lia). lia. }
  split_and!.
  - unfold CheckWrite. cbn. destruct (Z.ltb_spec 0 (add64 (MaxWriteSize t) (sub64 (InitialSize t) size))); [lia|]. by rewrite Hul, Htot.
  - unfold AddTransfer, HasSizeLimit. cbn. destruct (Z.ltb_spec 0 (MaxWriteSize t)); [|lia]. by eexists.
  - unfold RemoveTransfer, HasSizeLimit. cbn. destruct (Z.ltb_spec 0 (add64 (MaxWriteSize t) (sub64 (InitialSize t) size))); [lia|]. by rewrite Hl.
Qed.

(** * The calls of the checker *)

(** A transfer is registered and unregistered by two goroutines: in order they
    leave the transfers of the checker as they were; in the other order the
    transfer stays registered although it has ended. *)
Theorem checker_calls_race (tr : ActiveTransfer.t) (ts : list ActiveTransfer.t) :
  (∀ x, x ∈ ts → is_transfer (ActiveTransfer.ID tr) (ActiveTransfer.ConnID tr) x = false) →
  foldl run_call ts [CheckAdd tr; CheckRemove (ActiveTransfer.ID tr) (ActiveTransfer.ConnID tr)] = ts ∧
  foldl run_call ts [CheckRemove (ActiveTransfer.ID tr) (ActiveTransfer.ConnID tr); CheckAdd tr] = ts ++ [tr].
Proof.
  intros Hno. assert (list_find (fun x => is_transfer (ActiveTransfer.ID tr) (ActiveTransfer.ConnID tr) x) ts = None) as Hn.
  { apply list_find_None, Forall_forall. intros x Hx. rewrite (Hno x Hx). by intros []. }
  cbn [foldl run_call]. unfold checker_RemoveTransfer, checker_AddTransfer. rewrite list_find_app_r, Hn by done. split; [|done].
  cbn [list_find]. rewrite decide_True by (unfold is_transfer; by rewrite Z.eqb_refl, String.eqb_refl). cbn.
  unfold swap_remove. rewrite last_snoc, insert_app_r_alt, Nat.sub_diag, length_app by lia. cbn.
  rewrite Nat.add_1_r. apply take_app_length.
Qed.

(** * Counting an upload *)

(** the hooks succeed and leave the usage alone *)
Hypothesis quiet : ∀ e w q, ∃ w', notify e (w, q) = (Ok tt, (w', q)).

Notation track := (CommonConfig.TrackQuota cfg).
(** what a step leaves alone: the counters, as they are read, and the transfers *)
Definition same_usage s s' : Prop :=
  Conn.activeTransfers s' = Conn.activeTransfers s ∧
  ∀ k, Api_GetUsedQuota track k (Conn.quotas s') = Api_GetUsedQuota track k (Conn.quotas s).
Lemma notify_quiet a b c d e f g s : ∃ s', notify_action a b c d e f g s = (Ok tt, s') ∧ same_usage s s' ∧ Conn.quotas s' = Conn.quotas s.
Proof.
  unfold notify_action, hook. destruct (quiet (FsEvent.mk a b c d e f (getNotificationStatus g)) (Conn.files s) (Conn.quotas s)) as [w' ->].
  by eexists.
Qed.

Lemma Api_of_users track' q q' : DB.isClosed (Quotas.db q) = false → DB.isClosed (Quotas.db q') = false →
  Quotas.pendingUserQuotaUpdates q' = Quotas.pendingUserQuotaUpdates q → Quotas.pendingTransferQuotaUpdates q' = Quotas.pendingTransferQuotaUpdates q →
  (∀ k, (fun u => (User.UsedQuotaFiles u, User.UsedQuotaSize u, User.UsedUploadDataTransfer u, User.UsedDownloadDataTransfer u)) <$>
     DB.users (Quotas.db q') !! k =
   (fun u => (User.UsedQuotaFiles u, User.UsedQuotaSize u, User.UsedUploadDataTransfer u, User.UsedDownloadDataTransfer u)) <$>
     DB.users (Quotas.db q) !! k) →
  ∀ k, Api_GetUsedQuota track' k q' = Api_GetUsedQuota track' k q.
Proof.
  intros H1 H2 H3 H4 Hu k. specialize (Hu k). unfold Api_GetUsedQuota, getUserPendingQuota, getUserPendingTransferQuota.
  rewrite !used_quota_users, H3, H4 by done. destruct (DB.users (Quotas.db q') !! k), (DB.users (Quotas.db q) !! k); try done.
  cbn in Hu. by injection Hu as -> -> -> ->.
Qed.

Lemma first_upload_usage username q track' : open_and_wf (Quotas.db q) → ∀ k,
  Api_GetUsedQuota track' k (q <| Quotas.db := (setFirstUploadTimestamp env_now username (Quotas.db q)).2 |>) = Api_GetUsedQuota track' k q.
Proof.
  intros Hw k. set (h := (setFirstUploadTimestamp _ _ _).2).
  assert (h = Quotas.db q ∨ h = (locked (update_user username (fun u => u <| User.FirstUpload := env_now 0%nat |>)) (Quotas.db q)).2) as Hh.
  { unfold h, setFirstUploadTimestamp, locked, update_user, mbind, M_bind, ask. destruct (DB.isClosed _); [by left|].
    destruct (userExistsInternal _ _) as [u|e]; [|by left]. destruct (0 <? User.FirstUpload u); [by left|by right]. }
  clearbody h. destruct Hh as [-> | ->]; [by destruct q|].
  pose proof (update_user_frame env_now (fun u => (User.UsedQuotaFiles u, User.UsedQuotaSize u, User.UsedUploadDataTransfer u, User.UsedDownloadDataTransfer u))
    username (fun u => u <| User.FirstUpload := env_now 0%nat |>) (Quotas.db q) Hw ltac:(done) ltac:(done)) as (Hc & _ & Hg).
  set (h' := (locked _ _).2) in *. clearbody h'. destruct Hw as [_ Hw]. by apply Api_of_users.
Qed.

Lemma updateTransferTimestamps_usage t n s : transferType t = TransferUpload → open_and_wf (Quotas.db (Conn.quotas s)) →
  ∃ s', updateTransferTimestamps t n s = (Ok tt, s') ∧ same_usage s s'.
Proof.
  intros Ht Hw. unfold updateTransferTimestamps. destruct (ErrTransfer t); [by exists s|]. rewrite Ht. change (TransferUpload =? TransferUpload) with true.
  unfold mbind, M_bind, gets.
  destruct ((User.FirstUpload user =? 0) && negb (Conn.uploadDone s)); [|by exists s]. unfold try_catch, set_timestamp, on_quotas, UpdateUserTransferTimestamps.
  pose proof (first_upload_usage (User.Username user) (Conn.quotas s) track Hw) as Hq.
  destruct (setFirstUploadTimestamp _ _ _) as [[[]|e] h]; cbn [snd] in Hq.
  - unfold mbind, M_bind, modify, ignore, notify_transfer.
    match goal with |- context [notify_action ?a ?b ?c ?d ?e ?f ?g ?s] => destruct (notify_quiet a b c d e f g s) as (s' & -> & [Ha _] & Hs) end.
    exists s'. split; [done|]. split; [exact Ha|]. rewrite Hs. exact Hq.
  - eexists. split; [done|]. split; [done|exact Hq].
Qed.
Lemma updateTimes_usage t s : ∃ s', updateTimes t s = (Ok tt, s') ∧ same_usage s s' ∧ Conn.quotas s' = Conn.quotas s.
Proof.
  unfold updateTimes. destruct (negb (aTime t =? 0) && negb (mTime t =? 0)); [|by exists s]. unfold ignore, perform, mbind, M_bind, record, modify, on_files. cbn.
  destruct (fs_Chtimes _ _ _ _ _ _). by eexists.
Qed.

(** the user's disk usage is tracked *)
Definition tracked : Prop := track = 2 → HasQuotaRestrictions user = true.
(** The counters of the user are updated; the transfers are left alone. *)
Lemma transfer_updateQuota_counts t n size s f sz ul dl : transferType t = TransferUpload → ErrTransfer t = None →
  (∃ e, GetVirtualFolderForPath user (path_Dir (requestPath t)) = Err e) →
  tracked → open_and_wf (Quotas.db (Conn.quotas s)) →
  Api_GetUsedQuota track (User.Username user) (Conn.quotas s) = Ok (f, sz, ul, dl) →
  ∃ b s', transfer_updateQuota t n size s = (Ok b, s') ∧ Conn.activeTransfers s' = Conn.activeTransfers s ∧
    open_and_wf (Quotas.db (Conn.quotas s')) ∧
    ∀ k, Api_GetUsedQuota track k (Conn.quotas s') =
      if decide (k = User.Username user) then Ok (add64 f n, add64 sz (sub64 size (InitialSize t)), ul, dl)
      else Api_GetUsedQuota track k (Conn.quotas s).
Proof.
  intros Ht He Hv Htr Hw Hu. unfold transfer_updateQuota. rewrite He, andb_false_r. cbn [andb]. rewrite Ht. change (TransferUpload =? TransferUpload) with true.
  destruct (UpdateUserQuota_run env_now track (CommonConfig.DelayedQuotaUpdate cfg) (Conn.quotas s) user n (sub64 size (InitialSize t))
    false f sz ul dl Hw) as (q & Hq & Hwq & Hcount); [|done|exact Hu|].
  { destruct (Z.eqb_spec track 2) as [H2|]; [|done]. by rewrite (Htr H2). }
  cbn [andb]. destruct (negb (n =? 0) || _) eqn:Hz.
  - unfold mbind, M_bind, updateUserQuotaAfterFileWrite.
    destruct Hv as [e ->].
    unfold update_user_quota, ignore, on_quotas. rewrite Hq. cbn [snd]. eexists _, _. split; [done|]. by split_and!.
  - apply orb_false_elim in Hz as [->%negb_false_iff%Z.eqb_eq Hz%negb_false_iff%Z.eqb_eq]. rewrite Hz in *.
    eexists _, s. split; [done|]. split; [done|]. split; [done|]. intros k.
    case_decide as Hd; [|done]. subst k. rewrite Hu. rewrite (Api_used env_now) in Hu. destruct (track =? 0); [done|]. unfold mbind, res_bind in Hu.
    destruct (users_used env_now (User.Username user) (Conn.quotas s)) as [[f0 z0]|e0] eqn:Hus; [|done].
    destruct (transfers_used env_now (User.Username user) (Conn.quotas s)) as [[??]|?]; [|done]. cbn in Hu. injection Hu as -> -> -> ->.
    apply (@used_wrapped _ (user_store env_now)) in Hus as [-> ->]. done.
Qed.

(** the transferred data is counted as well *)
Definition counts_transfer t : bool := HasSizeLimits (transferQuota t) && negb ((track =? 2) && negb (HasTransferQuotaRestrictions user)).
Lemma transfer_quota_counts t s f sz ul dl : open_and_wf (Quotas.db (Conn.quotas s)) →
  Api_GetUsedQuota track (User.Username user) (Conn.quotas s) = Ok (f, sz, ul, dl) →
  ∃ s', (if HasSizeLimits (transferQuota t)
         then ignore (on_quotas (UpdateUserTransferQuota env_now track (CommonConfig.DelayedQuotaUpdate cfg) user (BytesReceived t) (BytesSent t) false))
         else mret tt) s = (Ok tt, s') ∧
    Conn.activeTransfers s' = Conn.activeTransfers s ∧ Conn.files s' = Conn.files s ∧ open_and_wf (Quotas.db (Conn.quotas s')) ∧
    ∀ k, Api_GetUsedQuota track k (Conn.quotas s') =
      if decide (k = User.Username user)
      then Ok (f, sz, if counts_transfer t then add64 ul (BytesReceived t) else ul, if counts_transfer t then add64 dl (BytesSent t) else dl)
      else Api_GetUsedQuota track k (Conn.quotas s).
Proof.
  intros Hw Hu. unfold counts_transfer. destruct (HasSizeLimits (transferQuota t)); cbn [andb].
  - destruct (UpdateUserTransferQuota_run env_now track (CommonConfig.DelayedQuotaUpdate cfg) (Conn.quotas s) user (BytesReceived t) (BytesSent t)
      f sz ul dl Hw Hu) as (q & Hq & Hwq & Hcnt).
    unfold ignore, on_quotas. rewrite Hq. eexists. split; [done|]. split_and!; [done..|]. intros k. cbn [Conn.quotas setter].
    etrans; [apply Hcnt|]. by destruct ((track =? 2) && _).
  - exists s. split_and!; [done..|]. intros k. case_decide as Hd; [by subst k|done].
Qed.

(** C27: When an upload outside the virtual folders ends without error, in any
    mode that writes the file in place, for a user whose usage is tracked and
    with hooks that succeed and leave the usage alone, the disk usage of the
    user grows by exactly the size of the stored file minus the size it
    replaced, and by one file when it is new; the data transferred is counted
    when the user has a limit on it; the counters of the other users stay, and
    the connection drops the transfer. *)
Theorem closed_upload_counts t i s f sz ul dl e : transferType t = TransferUpload → ErrTransfer t = None →
  effectiveFsPath t = fsPath t → fs_Stat (Fs t) (fsPath t) (Conn.files s) = Ok i →
  GetVirtualFolderForPath user (path_Dir (requestPath t)) = Err e → tracked →
  open_and_wf (Quotas.db (Conn.quotas s)) → Api_GetUsedQuota track (User.Username user) (Conn.quotas s) = Ok (f, sz, ul, dl) →
  ∃ calls s', Close t s = (Ok (None, calls), s') ∧
    (∀ k, Api_GetUsedQuota track k (Conn.quotas s') =
      if decide (k = User.Username user)
      then Ok (add64 f (if isNewFile t then 1 else 0), add64 sz (sub64 (FileInfo.Size i) (InitialSize t)),
               if counts_transfer t then add64 ul (BytesReceived t) else ul, if counts_transfer t then add64 dl (BytesSent t) else dl)
      else Api_GetUsedQuota track k (Conn.quotas s)) ∧
    Conn.activeTransfers s' = match list_find (fun t' => ID t' = ID t) (Conn.activeTransfers s) with
                              | Some (idx, _) => swap_remove idx (Conn.activeTransfers s) | None => Conn.activeTransfers s end.
Proof.
  intros Ht He Hp Hi Hv Htr Hw Hu. set (n := if isNewFile t then 1 else 0).
  destruct (transfer_quota_counts t s f sz ul dl Hw Hu) as (s0 & Hs0 & Ha0 & Hf0 & Hw0 & Hk0).
  assert (settle_file t s0 = (Ok (t, None), s0)) as Hfile.
  { unfold settle_file, isAtomicUpload. rewrite He, Hp, String.eqb_refl, !andb_false_r. done. }
  destruct (notify_quiet "upload" (fsPath t) (requestPath t) "" "" (FileInfo.Size i) (ErrTransfer t) s0) as (s1 & Hn1 & [Ha1 Hk1] & Hq1).
  destruct (transfer_updateQuota_counts t (n - 0) (FileInfo.Size i) s1 f sz
    (if counts_transfer t then add64 ul (BytesReceived t) else ul) (if counts_transfer t then add64 dl (BytesSent t) else dl))
    as (b & s2 & Hq & Ha2 & Hw2 & Hk2); [by eauto..|by rewrite Hq1|by rewrite Hk1, Hk0, decide_True|].
  destruct (updateTimes_usage t s2) as (s3 & Ht3 & [Ha3 _] & Hq3).
  assert (settle_upload t n s0 = (Ok (t, FileInfo.Size i), s3)) as Hup.
  { assert (getUploadFileSize t s0 = (Ok (t, Ok (FileInfo.Size i), 0), s0)) as H1.
    { unfold getUploadFileSize, mbind, M_bind. by rewrite Hf0, Hi, He. }
    assert (executeUploadHook t (n - 0) (FileInfo.Size i) s0 = (Ok (t, n - 0, FileInfo.Size i), s1)) as H2.
    { unfold executeUploadHook, try_catch, notify_transfer. by rewrite Hn1. }
    unfold settle_upload, mbind, M_bind. by rewrite H1, H2, Hq, Ht3. }
  destruct (updateTransferTimestamps_usage t (FileInfo.Size i) s3 Ht) as (s4 & Ht4 & [Ha4 Hk4]); [by rewrite Hq3|].
  unfold Close, mbind, M_bind. rewrite Hs0, Hfile, Ht. change (TransferUpload =? TransferDownload) with false.
  unfold getUploadedFiles. fold n. rewrite Hup, He, Ht4. unfold RemoveTransfer, modify, mbind, M_bind, mret, M_ret. eexists _, _. split; [done|].
  cbn [Conn.quotas Conn.activeTransfers setter]. split.
  - intros k. etrans; [apply Hk4|]. rewrite Hq3, Hk2. case_decide; [by rewrite Z.sub_0_r|]. by rewrite Hk1, Hk0, decide_False.
  - change (Conn.activeTransfers (setter Conn.activeTransfers ?g ?x)) with (g (Conn.activeTransfers x)). cbn. by rewrite Ha4, Ha3, Ha2, Ha1, Ha0.
Qed.
End props.

(** * Samples *)

#[local] Existing Instance sample_settings.

Section copy_sample.
#[local] Instance storage : Storage := toy true.
#[local] Existing Instance toy_hooks.
(** a user who may only list the files *)
#[local] Instance lister : Env := toy_env (toy_user [("/", [PermListItems])] []).

(** A user who may neither download nor upload nor overwrite files copies one
    over another when the storage makes the copy: the effect is not one the user
    is permitted, and the quota does not count it. *)
Theorem copy_without_permissions :
  let s := toy_conn true [("/", None); ("/a", Some 7); ("/b", Some 3)] in
  let s' := (Copy 5 "/a" "/b" s).2 in
  (Copy 5 "/a" "/b" s).1 = Ok tt ∧ Conn.effects s' = [ECopyFile "/a" "/b"] ∧ ¬ authorized (ECopyFile "/a" "/b") ∧
  Conn.quotas s' = Conn.quotas s ∧ (look (toy_stat "/b") s').1 = Ok (NewFileInfo "b" false 7 0 true).
Proof.
  cbn zeta. split_and!; [vm_compute; reflexivity..| |vm_compute; reflexivity|vm_compute; reflexivity].
  intros (H & _). vm_compute in H. discriminate H.
Qed.
End copy_sample.

Section local_sample.
#[local] Instance local_storage : Storage := toy false.
#[local] Existing Instance toy_hooks.
#[local] Instance owner : Env := toy_env (toy_user [("/", [PermAny])] []).

Definition local_files : list (string * option Z) := [("/", None); ("/d", None); ("/d/a", Some 7); ("/b", Some 3)].

Lemma copies_are_authorized_witness :
  let s := toy_conn false local_files in
  (Copy 5 "/d" "/c" s).1 = Ok tt ∧
  Conn.effects (Copy 5 "/d" "/c" s).2 = [EMkdirUnchecked "/c"; EOpen "/d/a"; ECreate "/c/a" true] ∧
  ∃ l, Conn.effects (Copy 5 "/d" "/c" s).2 = Conn.effects s ++ l ∧ Forall mostly_authorized l.
Proof.
  cbn zeta. split; [vm_compute; reflexivity|]. split; [vm_compute; reflexivity|].
  apply copies_are_authorized. intros f. by destruct f.
Defined.


Definition sample_transfer (file : option string) (initial max received : Z) : BaseTransfer.t :=
  BaseTransfer.mk local_storage 1 0 received false file "/up" "/up" "/up" max 0 initial 0 true TransferUpload false 0 0 TransferQuota.zero None None.

Lemma upload_fits_quota_witness :
  let q := compare_quota true 1000 0 (Ok (3, 400)) in
  GetMaxWriteSize q false 50 true = Ok 650 ∧
  (0 < 1000 → 400 - 50 + 640 <= 1000) ∧ CheckWrite (sample_transfer (Some "/up") 50 650 651) = Err QuotaExceeded.
Proof.
  split; [vm_compute; reflexivity|]. split; [|vm_compute; reflexivity].
  refine (proj1 (upload_fits_quota true 1000 0 3 400 false 50 true 650 (sample_transfer (Some "/up") 50 650 640) _ _ _ _ _ _ _ _));
    first [vm_compute; reflexivity|vm_compute; split; congruence|lia|vm_compute; split; discriminate].
Defined.

Definition no_files : toy_world := ∅.

Lemma truncate_keeps_limit_witness :
  let t := sample_transfer (Some "/up") 50 650 20 in
  let t' := sample_transfer (Some "/up") 600 100 0 in
  transfer_Truncate t "/up" 600 no_files = ((Ok 50, t', None), <["/up" := Some 600]> no_files) ∧
  BaseTransfer.InitialSize t' + BaseTransfer.MaxWriteSize t' = BaseTransfer.InitialSize t + BaseTransfer.MaxWriteSize t.
Proof.
  intros t t'. assert (transfer_Truncate t "/up" 600 no_files = ((Ok 50, t', None), <["/up" := Some 600]> no_files)) as H by reflexivity.
  split; [exact H|].
  refine (proj2 (proj2 (proj2 (proj2 (truncate_keeps_limit t "/up" 600 no_files 50 t' None _ H _ _ _ _ _)))));
    first [discriminate|vm_compute; reflexivity|vm_compute; split; discriminate|vm_compute; discriminate|cbn; lia].
Defined.

Lemma extending_truncate_lifts_limit_witness :
  let t := sample_transfer (Some "/up") 0 100 0 in
  let t' := sample_transfer (Some "/up") 100 0 0 in
  transfer_Truncate t "/up" 100 no_files = ((Ok 0, t', None), <["/up" := Some 100]> no_files) ∧
  CheckWrite (t' <| BaseTransfer.BytesReceived := 1000000 |>) = Ok tt.
Proof.
  intros t t'. assert (transfer_Truncate t "/up" 100 no_files = ((Ok 0, t', None), <["/up" := Some 100]> no_files)) as H by reflexivity.
  split; [exact H|].
  refine (proj1 (extending_truncate_lifts_limit t "/up" 100 no_files 0 t' None _ 1000000 (toy_conn false []) H _ _ _ _ _ _ _ _ _));
    first [discriminate|vm_compute; reflexivity|vm_compute; split; discriminate|vm_compute; discriminate].
Defined.

Lemma checker_calls_race_witness :
  let tr := ActiveTransfer.mk 1 TransferUpload "SFTP_1" "alice" "" "10.0.0.1" 500 0 0 0 0 in
  let other := tr <| ActiveTransfer.ID := 2 |> in
  foldl run_call [other] [CheckAdd tr; CheckRemove 1 "SFTP_1"] = [other] ∧
  foldl run_call [other] [CheckRemove 1 "SFTP_1"; CheckAdd tr] = [other; tr].
Proof.
  cbn zeta. apply (checker_calls_race (ActiveTransfer.mk 1 TransferUpload "SFTP_1" "alice" "" "10.0.0.1" 500 0 0 0 0)).
  intros x ->%list_elem_of_singleton. vm_compute. reflexivity.
Defined.

Lemma closed_upload_counts_witness :
  let s := (toy_conn false [("/up", Some 30)]) <| Conn.activeTransfers := [sample_transfer None 10 0 20] |> in
  ∃ s', Close (sample_transfer None 10 0 20) s = (Ok (None, []), s') ∧ Api_GetUsedQuota 1 "alice" (Conn.quotas s') = Ok (1, 20, 0, 0).
Proof.
  intros s.
  assert (∀ (e : FsEvent.t) w q, ∃ w', @notify local_storage toy_hooks e (w, q) = (Ok tt, (w', q))) as Hquiet by (intros e w q; exists w; reflexivity).
  destruct (@closed_upload_counts local_storage toy_hooks owner Hquiet (sample_transfer None 10 0 20) (NewFileInfo "up" false 30 0 true) s
    0 0 0 0 (PlainError "no matching virtual folder found")) as (calls & s' & H & Hk & _).
  - vm_compute. reflexivity.
  - vm_compute. reflexivity.
  - vm_compute. reflexivity.
  - vm_compute. reflexivity.
  - vm_compute. reflexivity.
  - unfold tracked. vm_compute. discriminate.
  - exact sample_open.
  - vm_compute. reflexivity.
  - exists s'. split.
    + assert ((Close (sample_transfer None 10 0 20) s).1 = Ok (None, [])) as Hc by (vm_compute; reflexivity).
      rewrite H in Hc. injection Hc as ->. exact H.
    + etrans; [exact (Hk "alice")|]. vm_compute. reflexivity.
Defined.
End local_sample.

(** Two concurrent uploads of a user with a quota of 100 bytes. *)
Definition quota_db : DB.t := Eval vm_compute in sample <| DB.users ::= alter (fun u => u <| User.QuotaSize := 100 |>) "alice" |>.
Definition two_uploads : list ActiveTransfer.t :=
  [ActiveTransfer.mk 1 TransferUpload "SFTP_1" "alice" "" "10.0.0.1" 0 60 0 0 0;
   ActiveTransfer.mk 1 TransferUpload "FTP_2" "alice" "" "10.0.0.2" 0 50 0 0 0;
   ActiveTransfer.mk 1 TransferUpload "FTP_3" "bob" "" "10.0.0.2" 0 500 0 0 0].
Definition users_to_check : gmap string User.t := Eval vm_compute in
  match getUsersToCheck map_to_list (users_to_fetch two_uploads) quota_db with Ok users => users | Err _ => ∅ end.

Definition checked_user : User.t := Eval vm_compute in default User.zero (users_to_check !! "alice").
Lemma two_uploads_ok : sizes_ok users_to_check two_uploads.
Proof.
  split; [|split; [vm_compute; discriminate|]].
  - apply Forall_forall. repeat apply Forall_cons_2; [..|apply Forall_nil_2]; vm_compute; split_and!; discriminate.
  - intros name u Hu. assert ((map_to_list users_to_check).*2 = [checked_user]) as Hl by (vm_compute; reflexivity).
    assert (u ∈ [checked_user]) as ->%list_elem_of_singleton.
    { rewrite <- Hl. apply list_elem_of_fmap. exists (name, u). split; [done|]. by apply elem_of_map_to_list. }
    unfold size_ok. split_and!; [vm_compute; discriminate..|]. intros v Hv.
    assert (forallb (fun v => (VirtualFolder.QuotaSize v <=? 2 ^ 60) && (0 <=? BaseVirtualFolder.UsedQuotaSize (VirtualFolder.Base v)) &&
      (BaseVirtualFolder.UsedQuotaSize (VirtualFolder.Base v) <=? 2 ^ 60)) (User.VirtualFolders checked_user) = true) as Hb by (vm_compute; reflexivity).
    rewrite forallb_forall in Hb. apply list_elem_of_In, Hb in Hv. lia.
Qed.

Lemma overquota_transfers_spec_witness :
  overquota <$> take 2 two_uploads = GetOverquotaTransfers map_to_list map_to_list map_to_list two_uploads quota_db ∧
  ∀ e, e ∈ GetOverquotaTransfers map_to_list map_to_list map_to_list two_uploads quota_db →
    ∃ tr, tr ∈ two_uploads ∧ e = overquota tr ∧ (exceeds_disk_quota users_to_check two_uploads tr ∨ exceeds_data_quota users_to_check two_uploads tr).
Proof.
  split; [vm_compute; reflexivity|]. intros e.
  destruct (overquota_transfers_spec map_to_list map_to_list map_to_list (fun m => Permutation_refl _) (fun m => Permutation_refl _)
    two_uploads quota_db users_to_check) as [_ H]; [vm_compute; reflexivity|exact two_uploads_ok|]. exact (proj1 (H e)).
Defined.
