(* ===== verification/RetentionProps.v ===== *)
(** What data retention checks guarantee: a file that is not old enough is kept
    and every removal is permitted to the user; what a retention means in
    64-bit nanoseconds; a user has one check at a time. *)
From S2P Require Import Prelude GoPath Util FsConfig FsValidate Entities MemoryCore UserPerms GroupMerge ValidateUser ValidateUserProps Quota EventRules ConnData Connection ConnectionOps Effects ConnectionProps Retention Samples ToyStorage.
Open Scope Z_scope.

(** a retention of hours that fits 64-bit nanoseconds *)
Lemma mul64_exact a b : in_int64 (a * b) → mul64 a b = a * b.
Proof. unfold mul64, wrap64, in_int64, MinInt64, MaxInt64. intros H. rewrite Z.mod_small by lia. lia. Qed.
Lemma mul64_range a b : in_int64 (mul64 a b).
Proof.
  unfold mul64, wrap64, in_int64, MinInt64, MaxInt64. pose proof (Z.mod_pos_bound (a * b + 2 ^ 63) (2 ^ 64)). lia.
Qed.

Section props.
Context {St : Storage} {Hk : Hooks} {Cfg : Settings} {E : Env}.
Variable Folders : list FolderRetention.t.
Variable now_at : string → Z.

(** The nearest configured folder: the deepest among those above a directory,
    or the directory itself. *)
Definition nearest (cs : list string) (folder : FolderRetention.t) : Prop :=
  folder ∈ Folders ∧ ∃ k, (k ≤ length cs)%nat ∧ FolderRetention.Path folder = abs_path (take k cs) ∧
    ∀ other j, other ∈ Folders → (j ≤ length cs)%nat → FolderRetention.Path other = abs_path (take j cs) → (j ≤ k)%nat.

Lemma find_first {A} (f : A → bool) l x : List.find f l = Some x →
  ∃ i, l !! i = Some x ∧ f x = true ∧ ∀ j y, (j < i)%nat → l !! j = Some y → f y = false.
Proof.
  induction l as [|y l IH]; [done|]. cbn. destruct (f y) eqn:Hy.
  - intros [= ->]. exists 0%nat. split_and!; [done|done|lia].
  - intros (i & Hi & Hx & Hb)%IH. exists (S i). split_and!; [done..|]. intros [|j] z Hj Hz; [by injection Hz as <-|]. apply (Hb j); [lia|done].
Qed.
Lemma getFolderRetention_nearest cs folder : Forall normal cs → getFolderRetention Folders (abs_path cs) = Ok folder → nearest cs folder.
Proof.
  intros Hcs. unfold getFolderRetention. rewrite GetDirs_normal by done. cbn [default id].
  destruct (List.find (fun d => existsb _ Folders) _) as [d|] eqn:Hd; [|done]. destruct (List.find (fun f => FolderRetention.Path f =s d) Folders) as [f|] eqn:Hf; [|done]. intros [= ->].
  apply List.find_some in Hf as [Hin Hp%String.eqb_eq]. split; [by apply list_elem_of_In|].
  apply find_first in Hd as (i & Hi & _ & Hb).
  assert (i ≤ length cs)%nat as Hil by (apply lookup_lt_Some in Hi; rewrite ancestors_length in Hi; lia).
  rewrite ancestors_lookup in Hi by done. injection Hi as Hi. exists (length cs - i)%nat. split_and!; [lia|by rewrite Hp|].
  intros other j Ho Hj Hpo. destruct (decide (j ≤ length cs - i)%nat) as [|Hlt]; [done|]. exfalso.
  assert (existsb (fun f => FolderRetention.Path f =s abs_path (take j cs)) Folders = true) as Hyes.
  { apply existsb_exists. exists other. split; [by apply list_elem_of_In|]. rewrite Hpo. apply String.eqb_refl. }
  rewrite (Hb (length cs - j)%nat) in Hyes; [done|lia|]. rewrite ancestors_lookup by lia.
  by replace (length cs - (length cs - j))%nat with j by lia.
Qed.
(** the folders of a check that was validated *)
Lemma validated_folders seen l l' : validate_folders seen l = Ok l' → ∀ f, f ∈ l' → canonical (FolderRetention.Path f) ∧ 0 <= FolderRetention.Retention f.
Proof.
  revert seen l'. induction l as [|f l IH]; intros seen l'; cbn [validate_folders]; [by intros [= <-] f ?%elem_of_nil|].
  unfold retention_Validate. cbn [FolderRetention.Retention setter]. intros H.
  destruct (Z.ltb_spec (FolderRetention.Retention f) 0) as [|Hr]; [done|]. cbn in H.
  destruct (bool_decide _); [done|]. cbn in H. destruct (validate_folders _ l) as [l2|] eqn:Hl; [|done]. injection H as <-.
  intros g [->|Hg]%elem_of_cons; [|by eapply IH]. split; [|exact Hr]. destruct (CleanPath_canonical (FolderRetention.Path f)) as (cs & Hcs & Hc). by exists cs.
Qed.
Lemma config_folders l : retention_config_validate l = Ok Folders →
  ∀ f, f ∈ Folders → canonical (FolderRetention.Path f) ∧ 0 <= FolderRetention.Retention f.
Proof.
  unfold retention_config_validate. destruct (validate_folders ∅ l) as [l'|] eqn:Hl; [|done]. cbn. destruct (negb _); [done|].
  intros [= <-]. by eapply validated_folders.
Qed.
Lemma join_canonical dir name : canonical dir → canonical (path_Join2 dir name).
Proof.
  intros (cs & Hcs & ->). unfold path_Join2. change (abs_path cs =s "") with false. cbv iota.
  destruct (path_Clean_abs (abs_path cs +:+ String slash name)) as (ds & Hds & ->); [|by exists ds].
  pose proof (is_abs_abs_path cs) as Ha. unfold is_abs in *. apply has_prefix_spec in Ha as [t ->].
  apply has_prefix_spec. exists (t +:+ String slash name). by rewrite append_assoc.
Qed.

Lemma attempt_emits {A} P (m : C A) Q : emits P m Q → emits P (attempt m) (fun r => if r is Ok a then Q a else True).
Proof. intros H. unfold attempt. eapply emits_try; [exact H|intros a Ha; by apply emits_ret|intros e; by apply emits_ret]. Qed.
Lemma emits_run {A} P (m : C A) : emits P m anything → emits P m (fun a => ∃ s s', m s = (Ok a, s')).
Proof. intros H s. destruct (H s) as [He _]. split; [done|]. destruct (m s) as [[a|e] s'] eqn:Hm; [by exists s, s'|done]. Qed.
Lemma RemoveFile_removes P f p v i : P (ERemove v false) → emits P (RemoveFile f p v i) anything.
Proof.
  intros HP. unfold RemoveFile. emits_step; [emits_auto|]. emits_step; [emits_auto|].
  emits_step; [|emits_step; [|emits_step]; emits_auto; auto using updateUserQuotaAfterFileWrite_emits, notify_action_emits].
  - emits_step; [by apply emits_perform|emits_auto..].
Qed.
Lemma RemoveDir_removes P v : P (ERemove v true) → emits P (RemoveDir v) anything.
Proof.
  intros HP. unfold RemoveDir. emits_step; [apply GetFsAndResolvedPath_emits|]. emits_step. emits_step; [emits_auto|].
  emits_step; [emits_auto| |emits_auto]. emits_step; [emits_auto|]. emits_step; [by apply fs_call_perform_emits|].
  emits_auto; auto using notify_action_emits.
Qed.

(** an entry that a listing of the directory can report *)
Definition listed (dir : string) (info : FileInfo.t) : Prop := ∃ s files s', ListDir dir s = (Ok files, s') ∧ info ∈ files.

Section cleanup.
Variable P : effect → Prop.
Hypothesis folders_canonical : ∀ f, f ∈ Folders → canonical (FolderRetention.Path f).
Hypothesis old_files : ∀ dir folder info, canonical dir → getFolderRetention Folders dir = Ok folder → FolderRetention.Retention folder ≠ 0 →
  listed dir info → FileInfo.IsDir info = false → expired now_at folder (path_Join2 dir (FileInfo.Name info)) info = true →
  emits P (retention_removeFile (path_Join2 dir (FileInfo.Name info)) info) anything.
Hypothesis directories : ∀ dir, emits P (RemoveDir dir) anything.

Lemma cleanup_entries_emits rec folder dir files : canonical dir → getFolderRetention Folders dir = Ok folder →
  FolderRetention.Retention folder ≠ 0 → (∀ p, canonical p → emits P (rec p) anything) → (∀ info, info ∈ files → listed dir info) →
  ∀ r, emits P (cleanup_entries now_at rec folder dir files r) anything.
Proof.
  intros Hc Hf Hr Hrec. induction files as [|info files IH]; intros Hl r; cbn [cleanup_entries]; [by apply emits_ret|].
  pose proof (IH (fun i Hi => Hl i (list_elem_of_further _ _ _ Hi))) as IH'.
  destruct (FileInfo.IsDir info) eqn:Hd.
  - emits_step; [by apply Hrec, join_canonical|]. emits_step. emits_step; [by apply emits_ret|]. emits_step; [apply IH'|]. emits_auto.
  - destruct (expired _ _ _ _) eqn:He; [|apply IH']. eapply emits_bind; [eapply emits_anything, attempt_emits, old_files; [done..|apply Hl; by left|done|done]|].
    intros [u|e] _; [apply IH'|by apply emits_ret].
Qed.
Lemma checkEmptyDirRemoval_emits dir : emits P (checkEmptyDirRemoval Folders dir) anything.
Proof.
  unfold checkEmptyDirRemoval. repeat (emits_step; [by apply emits_ret|]). emits_step; [|by apply emits_ret].
  emits_step; [eapply emits_anything, attempt_emits, ListDir_emits|]. repeat emits_step; try by apply emits_ret.
Qed.
Lemma cleanupFolder_emits fuel dir : canonical dir → emits P (cleanupFolder Folders now_at fuel dir) anything.
Proof.
  revert dir. induction fuel as [|fuel IH]; intros dir Hc; cbn [cleanupFolder]; [by apply emits_ret|].
  destruct (_ || _); [by apply emits_ret|]. destruct (getFolderRetention Folders dir) as [folder|e] eqn:Hf; [|by apply emits_ret].
  destruct (Z.eqb_spec (FolderRetention.Retention folder) 0) as [|Hr]; [by apply emits_ret|].
  eapply emits_bind; [eapply attempt_emits, emits_run, ListDir_emits|]. intros [files|e] Hl; [|case_match; by apply emits_ret].
  emits_step; [apply cleanup_entries_emits; [done|done|done|by apply IH|]|].
  - intros info Hi. destruct Hl as (s & s' & Hs). by exists s, files, s'.
  - emits_step. emits_step. emits_step; [emits_step; [apply checkEmptyDirRemoval_emits|by apply emits_ret]|by apply emits_ret].
Qed.
Lemma check_folders_emits fuel folders : (∀ f, f ∈ folders → f ∈ Folders) → emits P (check_folders Folders now_at fuel folders) anything.
Proof.
  induction folders as [|folder folders IHf]; intros Hin; cbn [check_folders]; [by apply emits_ret|].
  pose proof (IHf (fun f Hf => Hin f (list_elem_of_further _ _ _ Hf))) as IH. emits_step; [|apply IH].
  emits_step; [apply cleanupFolder_emits, folders_canonical, Hin; by left|]. emits_step. emits_step; [by apply emits_ret|]. emits_step; [apply IH|emits_auto].
Qed.
Lemma check_Start_emits fuel checks : emits P (check_Start Folders now_at fuel checks) anything.
Proof. unfold check_Start. emits_step; [by apply check_folders_emits|emits_auto]. Qed.
End cleanup.

(** C10: A retention check, over folders that were validated, never removes a
    file that, whenever its directory is listed, is at most as old as the
    retention of the nearest configured folder (a retention of 0 keeps
    everything), for retentions up to 2562047 hours, the largest that fit 64-bit
    nanoseconds; and whatever it removes the user of the check may remove. *)
Theorem retention_keeps_fresh_files config p fuel checks s r s' :
  retention_config_validate config = Ok Folders →
  (∀ cs folder s1 files s2 info, Forall normal cs → nearest cs folder → FolderRetention.Retention folder ≠ 0 →
     path_Join2 (abs_path cs) (FileInfo.Name info) = p → ListDir (abs_path cs) s1 = (Ok files, s2) → info ∈ files → FileInfo.IsDir info = false →
     FolderRetention.Retention folder <= 2562047 ∧
     now_at p - FileInfo.ModTime info <= FolderRetention.Retention folder * 3600 * 1000000000) →
  check_Start Folders now_at fuel checks s = (r, s') →
  ∃ l, Conn.effects s' = Conn.effects s ++ l ∧ ERemove p false ∉ l ∧ Forall authorized l.
Proof.
  intros Hconf Hfresh Hrun. destruct (check_Start_emits (fun e => authorized e ∧ e ≠ ERemove p false)) with (fuel := fuel) (checks := checks) (s := s)
    as [(l & Hl & HP) _].
  - intros f Hf. by apply (config_folders _ Hconf).
  - intros dir folder info (cs & Hcs & ->) Hf Hr (s1 & files & s2 & Hls & Hi) Hd He. apply getFolderRetention_nearest in Hf as Hn; [|done].
    assert (path_Join2 (abs_path cs) (FileInfo.Name info) ≠ p) as Hp.
    { intros Hp. rewrite Hp in He. destruct (Hfresh cs folder s1 files s2 info) as [Hmax Hage]; [done..|].
      destruct (config_folders _ Hconf folder) as [_ H0]; [apply Hn|]. unfold expired, retentionTime, Hour in He. apply Z.ltb_lt in He.
      rewrite mul64_exact in He by (unfold in_int64, MinInt64, MaxInt64; lia). lia. }
    unfold retention_removeFile. emits_step; [apply GetFsAndResolvedPath_emits|]. emits_step.
    apply emits_both; [apply RemoveFile_emits|]. apply RemoveFile_removes. by intros [=].
  - intros dir. apply emits_both; [apply RemoveDir_emits|]. by apply RemoveDir_removes.
  - exists l. rewrite Hrun in Hl. split_and!; [done|intros Hin|by eapply Forall_impl; [exact HP|intros ? []]].
    rewrite Forall_forall in HP. by destruct (HP _ Hin).
Qed.
End props.

(** * On a storage *)

(** two files of one day in the home of a user; the clock is far ahead for all
    but one of them *)
Definition toy_folders : list FolderRetention.t := [FolderRetention.mk "/" 24 true false].
Definition toy_clock (p : string) : Z := if p =s "/new" then 0 else 10 ^ 18.
#[local] Existing Instance sample_settings.
#[local] Instance retention_storage : Storage := toy false.
#[local] Existing Instance toy_hooks.
#[local] Instance retention_owner : Env := toy_env (toy_user [("/", [PermAny])] []).
Lemma toy_listed dir s files s' info : ListDir dir s = (Ok files, s') → info ∈ files → FileInfo.ModTime info = 0.
Proof.
  unfold ListDir, fail_if. intros H Hi. destruct (HasPerm _ _ _); [|done]. cbn [negb refuse] in H.
  unfold mbind at 1, M_bind at 1 in H. cbn [lift] in H.
  unfold mbind at 1, M_bind at 1 in H. destruct (GetFsAndResolvedPath dir s) as [[[f q]|e] s1]; [|done].
  cbn in H. injection H as <- _. unfold FilterListDir in Hi. cbn in Hi.
  unfold toy_children in Hi. apply list_elem_of_omap in Hi as ((q' & e) & _ & Hq). case_match; [|done]. by injection Hq as <-.
Qed.
Lemma retention_keeps_fresh_files_witness :
  let s := toy_conn false [("/", None); ("/new", Some 3); ("/old", Some 5)] in
  let run := check_Start toy_folders toy_clock 3 [] s in
  Conn.files run.2 = list_to_map [("/", None); ("/new", Some 3)] ∧
  ∃ l, Conn.effects run.2 = Conn.effects s ++ l ∧ ERemove "/new" false ∉ l ∧ Forall authorized l.
Proof.
  intros s run. split; [vm_compute; reflexivity|].
  apply (retention_keeps_fresh_files toy_folders toy_clock toy_folders "/new" 3 [] s run.1 run.2);
    [vm_compute; reflexivity| |by apply surjective_pairing].
  intros cs folder s1 files s2 info Hcs [Hf _] _ Hp Hl Hi _. rewrite (toy_listed _ _ _ _ _ Hl Hi).
  apply list_elem_of_singleton in Hf as ->. vm_compute. split; discriminate.
Defined.

(** * Retentions in hours *)

(** The time a file is kept until is its modification time plus the retention
    exactly for retentions of at most 2562047 hours: a longer one does not fit
    64-bit nanoseconds. *)
Theorem retentionTime_exact_iff modTime retention : 0 <= retention →
  (retentionTime modTime retention = modTime + retention * Hour ↔ retention <= 2562047).
Proof.
  intros H0. unfold retentionTime. pose proof (mul64_range retention Hour) as Hr.
  unfold in_int64, MinInt64, MaxInt64, Hour in *. split.
  - intros Heq. lia.
  - intros Hle. rewrite mul64_exact; [done|]. unfold in_int64, MinInt64, MaxInt64. lia.
Qed.
Lemma retentionTime_exact_iff_witness : retentionTime 7 2562047 = 7 + 2562047 * Hour ↔ 2562047 <= 2562047.
Proof. apply (retentionTime_exact_iff 7 2562047). lia. Defined.

(** A retention of 2562048 hours is accepted, and it makes a file that has just
    been written an old one. *)
Theorem long_retention_deletes_all modTime : is_ok (retention_config_validate [FolderRetention.mk "/" 2562048 false false]) = true ∧
  expired (fun _ => modTime) (FolderRetention.mk "/" 2562048 false false) "/a" (FileInfo.mk "a" 1 false false true modTime) = true.
Proof.
  split; [vm_compute; reflexivity|]. unfold expired, retentionTime. apply Z.ltb_lt. cbn [FolderRetention.Retention FileInfo.ModTime].
  assert (mul64 2562048 Hour < 0) by (vm_compute; reflexivity). lia.
Qed.

(** * One check for a user *)

Definition one_each (checks : list RetentionCheck.t) : Prop := NoDup (RetentionCheck.Username <$> checks).

(** A user has at most one active check: [Add] refuses a second one and adds the
    first, [remove] removes exactly the check of the user. *)
Theorem one_check_for_a_user checks now check user : one_each checks →
  let '(added, checks') := retention_Add now check user checks in
  let checks'' := (retention_remove (User.Username user) checks').2 in
  one_each checks' ∧ one_each checks'' ∧ (added = None ↔ User.Username user ∈ RetentionCheck.Username <$> checks) ∧
  (added ≠ None → checks'' ≡ₚ checks) ∧ User.Username user ∉ RetentionCheck.Username <$> checks''.
Proof.
  intros Hn. unfold retention_Add. destruct (existsb _ checks) eqn:He.
  - apply existsb_exists in He as (c & Hc & Hu%String.eqb_eq). apply list_elem_of_In in Hc.
    unfold retention_remove. destruct (list_find _ checks) as [[idx x]|] eqn:Hf.
    + apply list_find_Some in Hf as (Hi & Hx & _). pose proof (swap_remove_perm _ _ _ Hi) as Hp.
      unfold one_each in *. rewrite Hp in Hn. cbn in Hn. apply NoDup_cons in Hn as [Hout Hn']. cbn.
      split_and!; [by rewrite Hp; cbn; apply NoDup_cons|done| |done|by rewrite <-Hx].
      split; [intros _|done]. rewrite <-Hu. by apply list_elem_of_fmap_2.
    + apply list_find_None in Hf. rewrite Forall_forall in Hf. by destruct (Hf _ Hc).
  - cbv zeta. match goal with |- context [checks ++ [?x]] => remember x as c eqn:Hc end.
    assert (RetentionCheck.Username c = User.Username user) as Hcu by by rewrite Hc.
    clear Hc.
    assert (User.Username user ∉ RetentionCheck.Username <$> checks) as Hout.
    { intros (x & Hu & Hx)%list_elem_of_fmap. apply not_true_iff_false in He. apply He, existsb_exists.
      exists x. split; [by apply list_elem_of_In|]. by rewrite Hu, String.eqb_refl. }
    assert (one_each (checks ++ [c])) as Hn'.
    { unfold one_each. rewrite fmap_app, NoDup_app. split_and!; [done| |apply NoDup_singleton].
      intros u Hu ->%list_elem_of_singleton. apply Hout. by rewrite <-Hcu. }
    assert (retention_remove (User.Username user) (checks ++ [c]) = (true, swap_remove (length checks) (checks ++ [c]))) as Hrm.
    { unfold retention_remove. rewrite list_find_app_r; [|apply list_find_None, Forall_forall; intros x Hx Hu; apply Hout; rewrite <-Hu; by apply list_elem_of_fmap_2].
      cbn. rewrite decide_True by done. cbn. by rewrite ?Nat.add_0_r. }
    pose proof (swap_remove_perm (checks ++ [c]) (length checks) c (list_lookup_middle _ _ _ _ eq_refl)) as Hp.
    assert (swap_remove (length checks) (checks ++ [c]) ≡ₚ checks) as Hback by (apply (inj (cons c)); rewrite <-Hp; solve_Permutation).
    rewrite Hrm. cbn [snd]. unfold one_each in *. split_and!; [done|by rewrite Hback| |done|by rewrite Hback].
    split; [done|by intros].
Qed.
Lemma one_check_for_a_user_witness :
  let '(added, checks') := retention_Add 7 (RetentionCheck.mk "" 0 toy_folders [] "" "" None) (mk_user "bob" "" [] []) [] in
  added ≠ None ∧ one_each checks'.
Proof.
  pose proof (one_check_for_a_user [] 7 (RetentionCheck.mk "" 0 toy_folders [] "" "" None) (mk_user "bob" "" [] [])) as H.
  destruct H as (H & _); [apply NoDup_nil_2|]. split; [done|exact H].
Defined.
