(* ===== verification/HandlerSpec.v ===== *)
(** What the answers of the protocol servers mean: the disk usage of SFTP, the
    relative names of an FTP listing, the limits of the uploads and the copies
    of the SSH commands. *)
From S2P Require Import Prelude GoPath Util Net FsConfig FsValidate Entities Links Tables MemoryCore MemoryOps UserPerms MemoryQueries ValidateUser ValidateObjects Quota ConnData Connection ConnectionOps Effects TransfersChecker Transfers Streams SftpHandlers FtpHandlers WebDavHandlers HttpHandlers.
Open Scope Z_scope.

(** * Disk usage *)

(** the largest power of 4, up to the first, that is not larger than the size *)
Lemma shrink_bsize_spec size (k fuel : nat) : 0 < size → (k < fuel)%nat →
  ∃ j, (j <= k)%nat ∧ shrink_bsize fuel (4 ^ Z.of_nat k) size = Some (4 ^ Z.of_nat j) ∧ 4 ^ Z.of_nat j <= size.
Proof.
  intros Hs. revert fuel. induction k as [|k IH]; intros [|fuel] Hf; try lia; cbn [shrink_bsize].
  - exists 0%nat. change (4 ^ Z.of_nat 0) with 1. destruct (Z.ltb_spec size 1); [lia|]. split_and!; [lia|done|lia].
  - destruct (Z.ltb_spec size (4 ^ Z.of_nat (S k))).
    + rewrite Nat2Z.inj_succ, Z.pow_succ_r, Z.mul_comm, Z.div_mul by lia. destruct (IH fuel) as (j & ? & -> & ?); [lia|]. exists j. eauto with lia.
    + exists (S k). split_and!; [lia|done|lia].
Qed.

(** the size and the number of files that are reported *)
Definition reported (disk used quota default : Z) : Z :=
  let q := if (quota =? 0) || (disk <? quota) then disk else quota in if q =? 0 then used + default else q.
Definition effective_quota (disk : res (Z * Z * Z)) (q : QuotaCheckResult.t) : Z :=
  let quota := QuotaCheckResult.QuotaSize q in
  match disk with
  | Ok (total, _, _) => reported total (QuotaCheckResult.UsedSize q) quota (8 * 1024 * 1024 * 1024 * 1024)
  | Err _ => if quota =? 0 then QuotaCheckResult.UsedSize q + 8 * 1024 * 1024 * 1024 * 1024 else quota
  end.

(** The disk usage an SFTP client is told, when the sizes are those of a disk and
    a quota: there is always an answer (the size of a block is a power of 4 up
    to 4096 that is never reduced to zero), the blocks are those of the quota,
    the disk or the default, and, as long as the usage is not above that size,
    the free blocks are the rest; they are none when the quota is exceeded. *)
Theorem statvfs_spec disk q :
  let size := effective_quota disk q in
  let used := QuotaCheckResult.UsedSize q in
  (match disk with Ok (total, _, files) => 0 <= total <= MaxInt64 ∧ 0 <= files <= MaxInt64 | Err e => e = ErrStorageSizeUnavailable end) →
  0 <= QuotaCheckResult.QuotaSize q <= MaxInt64 → 0 <= used <= MaxInt64 - 2 ^ 43 →
  ∃ v j, getStatVFSFromQuotaResult disk q = Ok v ∧ (j <= 6)%nat ∧ StatVFS.Bsize v = 4 ^ Z.of_nat j ∧
    StatVFS.Blocks v = size / StatVFS.Bsize v ∧ 0 < StatVFS.Blocks v ∧
    (QuotaCheckResult.HasSpace q = false → StatVFS.Bfree v = 0 ∧ StatVFS.Ffree v = 0) ∧
    (QuotaCheckResult.HasSpace q = true → used <= size →
      StatVFS.Bfree v = (size - used) / StatVFS.Bsize v ∧ 0 <= StatVFS.Bfree v <= StatVFS.Blocks v).
Proof.
  intros size used Hdisk Hq Hu. change MaxInt64 with 9223372036854775807 in *. change (2 ^ 43) with 8796093022208 in *.
  set (quotaSize := match disk with Ok (total, _, _) => if (QuotaCheckResult.QuotaSize q =? 0) || (total <? QuotaCheckResult.QuotaSize q) then total
                    else QuotaCheckResult.QuotaSize q | Err _ => QuotaCheckResult.QuotaSize q end).
  assert (size = if quotaSize =? 0 then used + 8796093022208 else quotaSize) as Hsize.
  { unfold size, effective_quota, quotaSize, reported, used. by destruct disk as [[[total free] files]|e]. }
  assert (0 <= quotaSize <= 9223372036854775807) as Hqs.
  { unfold quotaSize. destruct disk as [[[total free] files]|e]; [|lia]. destruct (_ || _); lia. }
  assert (0 < size <= 9223372036854775807) as Hpos by (rewrite Hsize; destruct (Z.eqb_spec quotaSize 0); lia).
  assert (∃ quotaFiles, getStatVFSFromQuotaResult disk q =
    match shrink_bsize 8 4096 (uint64 size) with
    | None => Err (RuntimePanic "fuel") | Some 0 => Err (RuntimePanic "integer divide by zero")
    | Some bsize => Ok (StatVFS.mk bsize (uint64 size / bsize)
        (if QuotaCheckResult.HasSpace q then uint64 (size - used) / bsize else 0) (uint64 quotaFiles)
        (if QuotaCheckResult.HasSpace q then uint64 (quotaFiles - QuotaCheckResult.UsedFiles q) else 0) 255)
    end) as [quotaFiles ->].
  { rewrite Hsize. unfold getStatVFSFromQuotaResult, quotaSize, used, add64.
    destruct disk as [[[total free] files]|e].
    - rewrite (wrap64_id total) by (unfold in_int64, MinInt64, MaxInt64; lia). cbn [mbind res_bind].
      eexists. rewrite wrap64_id by (unfold in_int64, MinInt64, MaxInt64; lia). reflexivity.
    - rewrite Hdisk. eexists. rewrite wrap64_id by (unfold in_int64, MinInt64, MaxInt64; lia). reflexivity. }
  clearbody size. assert (uint64 size = size) as Hus by (apply Z.mod_small; lia). rewrite Hus.
  destruct (shrink_bsize_spec size 6 8) as (j & Hj & Hb & Hle); [lia..|]. change 4096 with (4 ^ Z.of_nat 6). rewrite Hb.
  assert (0 < 4 ^ Z.of_nat j) as Hj0 by (apply Z.pow_pos_nonneg; lia).
  eexists _, j. split; [destruct (4 ^ Z.of_nat j) eqn:Hp; [lia|rewrite <- Hp; reflexivity|lia]|].
  cbn. split_and!; [done|done|done|by apply Z.div_str_pos|by intros ->|].
  intros -> Hused. unfold uint64. rewrite Z.mod_small by lia. split_and!; [done|by apply Z.div_pos; lia|apply Z.div_le_mono; lia].
Qed.

(** The free space of a user with a quota above the size of the disk wraps
    around when the usage, which also counts other storages, is above that size. *)
Theorem statvfs_free_wraps :
  let q := QuotaCheckResult.mk true 500 0 1500 0 2000 0 in
  ∃ v, getStatVFSFromQuotaResult (Ok (1000, 400, 50)) q = Ok v ∧ StatVFS.Blocks v = 3 ∧ StatVFS.Bfree v = (2 ^ 64 - 500) / 256.
Proof. eexists. split; [vm_compute; reflexivity|]. by split; vm_compute. Qed.

(** * Relative names *)

Fixpoint dots (k : nat) : string := match k with O => "" | S k => "../" +:+ dots k end.

Lemma canonical_slash cs : cs ≠ [] → Forall normal cs → has_suffix (abs_path cs) "/" = false.
Proof.
  intros Hne Hcs. apply canonical_no_suffix; [by apply canonical_abs_path|]. intros H. by apply (abs_path_root cs) in H.
Qed.
Lemma Dir_Clean_slash cs c : Forall normal (cs ++ [c]) → path_Dir (path_Clean (abs_path (cs ++ [c]) +:+ "/")) = abs_path cs.
Proof.
  intros Hcs. rewrite (path_Clean_rooted _ (cs ++ [c])); [by apply path_Dir_snoc|by destruct cs|].
  change (abs_path (cs ++ [c]) +:+ "/") with (abs_path (cs ++ [c]) +:+ String slash ""). rewrite split_slash_app_gen.
  rewrite split_abs_path by (done || apply snoc_ne_nil). by apply clean_comps_padded.
Qed.

(** the loop: steps up, then the rest of the target *)
Lemma getPathRelativeTo_loop ts : Forall normal ts → ∀ cs fuel sb, Forall normal cs → (length cs < fuel)%nat →
  ∃ k ks, getPathRelativeTo fuel (abs_path cs) (abs_path ts) sb = Some (sb +:+ dots k +:+ join_slash ks) ∧
    (k <= length cs)%nat ∧ ts = take (length cs - k) cs ++ ks.
Proof.
  intros Hts cs. induction cs as [|c cs IH] using rev_ind; intros [|fuel] sb Hcs Hf; try (cbn in Hf; lia); cbn [getPathRelativeTo].
  - destruct (String.eqb_spec (abs_path []) (abs_path ts)) as [Heq|Hne].
    + apply abs_path_inj in Heq; [|done..]. subst ts. exists 0%nat, []. by rewrite !append_nil_r.
    + exists 0%nat, ts. change (has_suffix (abs_path []) "/") with true. cbn [dots].
      change (abs_path []) with "/". change (abs_path ts) with ("/" +:+ join_slash ts). rewrite has_prefix_app, TrimPrefix_app. done.
  - rewrite length_app in Hf. cbn in Hf. destruct (String.eqb_spec (abs_path (cs ++ [c])) (abs_path ts)) as [Heq|Hne].
    + apply abs_path_inj in Heq; [|done..]. subst ts. exists 0%nat, []. rewrite Nat.sub_0_r, firstn_all, app_nil_r. cbn [dots join_slash]. rewrite !append_nil_r. split_and!; [done|lia|done].
    + rewrite canonical_slash by (done || apply snoc_ne_nil).
      destruct (has_prefix _ _) eqn:Hp.
      * apply has_prefix_sep in Hp as (ks & Hks & ->); [|apply snoc_ne_nil|done..].
        assert (abs_path ((cs ++ [c]) ++ ks) = (abs_path (cs ++ [c]) +:+ "/") +:+ join_slash ks) as ->.
        { unfold abs_path. rewrite join_slash_app by (done || apply snoc_ne_nil). by rewrite <- append_assoc. }
        rewrite TrimPrefix_app. exists 0%nat, ks. rewrite Nat.sub_0_r, firstn_all. split_and!; [done|lia|done].
      * replace (_ || _) with false; [|symmetry; apply orb_false_iff; split; apply String.eqb_neq; unfold abs_path].
        2: { intros Heq%(f_equal String.length). rewrite length_append in Heq. cbn in Heq. lia. }
        2: { intros [=]. }
        rewrite Dir_Clean_slash by done. apply Forall_app in Hcs as [Hcs Hc].
        destruct (IH fuel (sb +:+ "../")) as (k & ks & -> & Hk & ->); [done|lia|].
        exists (S k), ks. split; [cbn [dots]; by rewrite !append_assoc|]. rewrite length_app. cbn.
        split; [lia|]. replace (length cs + 1 - S k)%nat with (length cs - k)%nat by lia. by rewrite take_app_le by lia.
Qed.

Lemma split_dots k s : split_slash (dots k +:+ s) = repeat ".." k ++ split_slash s.
Proof.
  induction k as [|k IH]; [done|]. cbn [dots repeat app]. rewrite <- append_assoc.
  change ("../" +:+ (dots k +:+ s)) with (".." +:+ String slash (dots k +:+ s)). rewrite split_slash_app by done. by rewrite IH.
Qed.
Lemma foldl_dotdots k : ∀ st, Forall normal st → foldl (clean_step true) st (repeat ".." k) = drop k st.
Proof.
  induction k as [|k IH]; intros st Hst; [by rewrite drop_0|]. cbn [repeat foldl]. destruct Hst as [|c st (H1 & H2 & H3 & H4) Hst].
  - cbn. rewrite IH by done. by rewrite drop_nil.
  - unfold clean_step at 2. cbn. rewrite (proj2 (String.eqb_neq _ _) H3). by apply IH.
Qed.
Lemma split_join_slash ks : Forall normal ks → foldl (clean_step true) [] (split_slash (join_slash ks)) = reverse ks ∧
  ∀ st, foldl (clean_step true) st (split_slash (join_slash ks)) = reverse ks ++ st.
Proof.
  intros Hks. assert (∀ st, foldl (clean_step true) st (split_slash (join_slash ks)) = reverse ks ++ st) as H; [|split; [by rewrite H, app_nil_r|done]].
  intros st. destruct ks as [|k ks]; [done|]. rewrite split_join; [by apply foldl_clean_normal|done|by apply normal_no_slash].
Qed.

(** The name of a directory relative to another, of an FTP listing, leads from the
    one to the other: the loop ends within the fuel the listing gives, and
    joining its result to the base gives the target. *)
Theorem getPathRelativeTo_correct base target : canonical base → canonical target →
  ∃ r, getPathRelativeTo (length (split_slash base) + 2) base target "" = Some r ∧ path_Join2 base r = target.
Proof.
  intros (cs & Hcs & ->) (ts & Hts & ->).
  assert (length cs < length (split_slash (abs_path cs)) + 2)%nat as Hf.
  { destruct cs as [|c cs]; [cbn; lia|]. rewrite split_abs_path by done. cbn. lia. }
  destruct (getPathRelativeTo_loop ts Hts cs _ "" Hcs Hf) as (k & ks & -> & Hk & Hts').
  eexists. split; [done|]. unfold path_Join2. replace (abs_path cs =s "") with false by done.
  assert (Forall normal ks) as Hks by (rewrite Hts' in Hts; by apply Forall_app in Hts as [_ ?]).
  apply (path_Clean_rooted _ ts); [by destruct cs|]. rewrite split_slash_app_gen.
  change ("" +:+ dots k +:+ join_slash ks) with (dots k +:+ join_slash ks). rewrite split_dots.
  unfold clean_comps. rewrite !foldl_app.
  assert (foldl (clean_step true) [] (split_slash (abs_path cs)) = reverse cs) as ->.
  { destruct cs as [|c cs]; [done|]. rewrite split_abs_path by done. change (foldl (clean_step true) [] (c :: cs) = reverse (c :: cs)).
    by rewrite foldl_clean_normal, app_nil_r. }
  rewrite foldl_dotdots by (by apply Forall_reverse). rewrite (proj2 (split_join_slash ks Hks)), reverse_app, reverse_involutive.
  assert (drop k (reverse cs) = reverse (take (length cs - k) cs)) as ->.
  { rewrite <- (take_drop (length cs - k) cs) at 1. rewrite reverse_app, drop_app_length'; [done|]. rewrite length_reverse, length_drop. lia. }
  by rewrite reverse_involutive, Hts'.
Qed.
