(* ===== verification/HandlerProps.v ===== *)
(** What the protocol servers guarantee. *)
From S2P Require Import Prelude GoPath Util Net FsConfig FsValidate Entities Links Tables MemoryCore MemoryOps UserPerms MemoryQueries ValidateUser ValidateObjects Quota ConnData Connection ConnectionOps ConnectionCopy Effects ConnectionProps TransfersChecker Transfers Streams SftpHandlers FtpHandlers WebDavHandlers HttpHandlers Handlers Samples ValidateUserProps ToyStorage.
Open Scope Z_scope.

#[local] Hint Resolve GetFilesystemForPath_emits GetFsAndResolvedPath_emits fs_call_look_emits notify_action_emits update_user_quota_emits
  update_folder_and_user_emits updateUserQuotaAfterFileWrite_emits DoStat_emits ListDir_emits CreateDir_emits
  RemoveFile_emits RemoveDir_emits RemoveAll_emits Rename_emits CreateSymlink_emits SetStat_emits : emits.

Section props.
Context {St : Storage} {Hk : Hooks} {Cfg : Settings} {E : Env}.
Implicit Types (t : BaseTransfer.t).
Import BaseTransfer.

(** * Everything a client obtains is permitted *)

(** the modification time of the request, over WebDAV *)
Variable mtime : Z.
(** an error other than that of an exceeded quota *)
Definition not_quota (e : error) : Prop := IsQuotaExceededError protocol (Some e) = false.
(** The user may have opened this transfer; a download has not failed with the
    error of an exceeded quota, for which a file is removed when it is closed. *)
Definition opened t : Prop :=
  ((transferType t = TransferUpload ∧ may_write (requestPath t) ∧ allowed (requestPath t)) ∨
   (transferType t = TransferDownload ∧ IsQuotaExceededError protocol (ErrTransfer t) = false ∧
    (AbortTransfer t = true → not_quota (GetAbortError t)))) ∧
  (aTime t ≠ 0 → aTime t = mtime).
Definition opened_by {A} (base : A → BaseTransfer.t) (good : A → Prop) (x : A * list checker_call) : Prop := opened (base x.1) ∧ good x.1.
Definition sftp_good (x : SftpTransfer.t) : Prop := ∀ sm e, SftpTransfer.readerAt x = Some (Failing sm e) → not_quota e.
Definition dav_good (x : webDavFile.t) : Prop := webDavFile.readTried x = false.
Definition no_quota_error (o : option error) : Prop := ∀ e, o = Some e → not_quota e.
Definition opened_sftp := opened_by SftpTransfer.Base sftp_good.
Definition opened_ftp := opened_by FtpTransfer.Base anything.
Definition opened_http := opened_by HttpdFile.Base anything.
Definition opened_dav := opened_by webDavFile.Base dav_good.

Lemma pre_transfer_emits P a b c d e f : emits P (pre_transfer a b c d e f) anything.
Proof. unfold pre_transfer. emits_auto. Qed.
Lemma NewBaseTransfer_emits P n1 n2 ip file p q v ty a b c d isNew f quota :
  emits P (NewBaseTransfer n1 n2 ip file p q v ty a b c d isNew f quota)
    (fun x => requestPath x.1 = v ∧ transferType x.1 = ty ∧ ErrTransfer x.1 = None ∧ AbortTransfer x.1 = false ∧ aTime x.1 = 0).
Proof. intros s. split; [|done]. exists []. by rewrite app_nil_r. Qed.
Lemma stage_existing_emits f p q v :
  HasPerm user PermOverwrite (path_Dir v) = true → allowed v → emits authorized (stage_existing f p q v) anything.
Proof.
  intros Hp Ha. unfold stage_existing. emits_step; [|by apply emits_ret]. emits_step; [by apply fs_call_perform_emits|by apply emits_ret].
Qed.
Lemma fs_Create_emits f p v isNew flags checks :
  HasPerm user (if isNew : bool then PermUpload else PermOverwrite) (path_Dir v) = true → allowed v →
  emits authorized (fs_call f (perform (ECreate v isNew) (fs_Create f p flags checks))) anything.
Proof. intros Hp Ha. by apply fs_call_perform_emits. Qed.
Lemma fs_Open_emits f p v offset : HasPerm user PermDownload (path_Dir v) = true → allowed v →
  emits authorized (fs_call f (_ ← record (EDownload v); look (fs_Open f p offset))) anything.
Proof. intros Hp Ha. apply fs_call_emits. emits_step; [by apply emits_record|emits_auto]. Qed.

Lemma newTransfer_base t a b c : SftpTransfer.Base (newTransfer t a b c) = t.
Proof. unfold newTransfer. by destruct (File t), a, b. Qed.
Lemma ftpd_newTransfer_base t a b c : FtpTransfer.Base (ftpd_newTransfer t a b c) = t.
Proof. unfold ftpd_newTransfer. by destruct (File t), a, b. Qed.
Lemma newHTTPDFile_base t a b : HttpdFile.Base (newHTTPDFile t a b) = t.
Proof. unfold newHTTPDFile. by destruct (File t), a, b. Qed.
Lemma newWebDavFile_base t a b : webDavFile.Base (newWebDavFile t a b) = t.
Proof. unfold newWebDavFile. by destruct (File t), a, b. Qed.
Lemma newTransfer_good t a b e : no_quota_error e → sftp_good (newTransfer t a b e).
Proof. intros He. unfold newTransfer, sftp_good. destruct (File t), a, b, e; intros; simplify_eq/=; by apply He. Qed.
Lemma newWebDavFile_good t a b : dav_good (newWebDavFile t a b).
Proof. unfold newWebDavFile, dav_good. by destruct (File t), a, b. Qed.
Hint Rewrite newTransfer_base ftpd_newTransfer_base newHTTPDFile_base newWebDavFile_base : bases.
#[local] Hint Resolve pre_transfer_emits : emits.

(** the transfer a handler returns at its end *)
Lemma opened_emits {A} (base : A → BaseTransfer.t) (good : A → Prop) (k : BaseTransfer.t → A) n1 n2 ip file p q v ty a b c d isNew f quota :
  (∀ t, base (k t) = t) → (∀ t, good (k t)) → (ty = TransferUpload ∧ may_write v ∧ allowed v) ∨ ty = TransferDownload →
  emits authorized ('(t, calls) ← NewBaseTransfer n1 n2 ip file p q v ty a b c d isNew f quota; mret (k t, calls)) (opened_by base good).
Proof.
  intros Hb Hg Hv. eapply emits_bind; [apply NewBaseTransfer_emits|]. intros [t calls] (Hreq & Hty & He & Hab & Hat).
  apply emits_ret. split; [|apply Hg]. cbn in *. rewrite Hb. unfold opened. rewrite Hty, Hreq, He, Hab, Hat. split; [destruct Hv; [by left|by right]|done].
Qed.
Lemma writes_upload v : HasPerm user PermUpload (path_Dir v) = true → allowed v → may_write v ∧ allowed v.
Proof. split; [by left|done]. Qed.
Lemma writes_overwrite v : HasPerm user PermOverwrite (path_Dir v) = true → allowed v → may_write v ∧ allowed v.
Proof. split; [by right|done]. Qed.

(** the owner of what a client uploads *)
Lemma own_emits f p v : may_write v → emits authorized (SetPathPermissions f p v) anything.
Proof. intros [Hp|Hp]; apply SetPathPermissions_emits; right; [by left|by right; left]. Qed.

Ltac opened_by_handler := apply opened_emits; [intros ?; autorewrite with bases; done|intros ?; by auto using newTransfer_good|first [by right|left; by auto using writes_upload, writes_overwrite]].
(** the steps of an upload that record nothing, its two effects and its end *)
Ltac upload_steps := repeat
  lazymatch goal with
  | |- emits _ (let _ := _ in _) _ => cbv zeta
  | |- emits _ ('(_, _) ← NewBaseTransfer _ _ _ _ _ _ _ _ _ _ _ _ _ _ _; mret _) _ => opened_by_handler
  | |- emits _ (NewBaseTransfer _ _ _ _ _ _ _ _ _ _ _ _ _ _ _ ≫= _) _ => fail
  | |- emits _ (SetPathPermissions _ _ _) _ => apply own_emits; first [done|by left|by right]
  | |- emits _ (stage_existing _ _ _ _) _ => by apply stage_existing_emits
  | |- emits _ (fs_call _ (perform (ECreate _ _) _)) _ => by apply fs_Create_emits
  | |- _ => emits_step
  end.

Lemma sftp_new_emits n1 n2 ip f pf p q v e : no_quota_error e → HasPerm user PermUpload (path_Dir v) = true → allowed v →
  emits authorized (handleSFTPUploadToNewFile n1 n2 ip f pf p q v e) opened_sftp.
Proof. intros He Hp Ha. unfold handleSFTPUploadToNewFile, base_transfer. upload_steps. Qed.
Lemma sftp_existing_emits n1 n2 ip f pf p q n v e : no_quota_error e → HasPerm user PermOverwrite (path_Dir v) = true → allowed v →
  emits authorized (handleSFTPUploadToExistingFile n1 n2 ip f pf p q n v e) opened_sftp.
Proof. intros He Hp Ha. unfold handleSFTPUploadToExistingFile, base_transfer, updateQuotaAfterTruncate. upload_steps. Qed.
Lemma ftp_new_emits n1 n2 ip f fl p q v : HasPerm user PermUpload (path_Dir v) = true → allowed v →
  emits authorized (handleFTPUploadToNewFile n1 n2 ip f fl p q v) opened_ftp.
Proof. intros Hp Ha. unfold handleFTPUploadToNewFile, ftpd_base_transfer. upload_steps. Qed.
Lemma ftp_existing_emits n1 n2 ip f fl p q n v : HasPerm user PermOverwrite (path_Dir v) = true → allowed v →
  emits authorized (handleFTPUploadToExistingFile n1 n2 ip f fl p q n v) opened_ftp.
Proof. intros Hp Ha. unfold handleFTPUploadToExistingFile, ftpd_base_transfer, seek_resumed. upload_steps. Qed.
Lemma http_upload_emits n1 n2 ip f p q v isNew n :
  HasPerm user (if isNew : bool then PermUpload else PermOverwrite) (path_Dir v) = true → allowed v →
  emits authorized (httpd_handleUploadFile n1 n2 ip f p q v isNew n) opened_http.
Proof.
  intros Hp Ha. assert (may_write v) as Hw by (destruct isNew; [by left|by right]).
  unfold httpd_handleUploadFile, httpd_base_transfer. upload_steps.
Qed.

Lemma upload_file_emits n1 n2 ip file p q v a b c d isNew f quota w : may_write v → allowed v →
  emits authorized (tc ← NewBaseTransfer n1 n2 ip file p q v TransferUpload a b c d isNew f quota; mret (upload_file mtime w tc))
    opened_dav.
Proof.
  intros Hw Ha. eapply emits_bind; [apply NewBaseTransfer_emits|]. intros [t calls] (Hreq & Hty & He & Hab & Hat). cbn in *.
  apply emits_ret. unfold upload_file, SetTimes. rewrite String.eqb_refl.
  split; [|apply newWebDavFile_good]. cbn [fst]. rewrite newWebDavFile_base. unfold opened. cbn. rewrite Hreq, Hty. split; [by left|done].
Qed.
Lemma dav_new_emits n1 n2 ip f p q v : HasPerm user PermUpload (path_Dir v) = true → allowed v →
  emits authorized (handleUploadToNewFile n1 n2 ip mtime f p q v) opened_dav.
Proof.
  intros Hp Ha. unfold handleUploadToNewFile, webdav_base_transfer. upload_steps. apply upload_file_emits; [by left|done].
Qed.
Lemma dav_existing_emits n1 n2 ip f p q n v : HasPerm user PermOverwrite (path_Dir v) = true → allowed v →
  emits authorized (handleUploadToExistingFile n1 n2 ip mtime f p q n v) opened_dav.
Proof.
  intros Hp Ha. unfold handleUploadToExistingFile, webdav_base_transfer. upload_steps. apply upload_file_emits; [by right|done].
Qed.

(** The choice between a new and an existing file, which the servers share:
    [new] and [existing] run under the permission they need. *)
Lemma emits_upload_choice {A} v f p (e1 e2 e3 : error) (e4 : error → error) (new : C A) (existing : FileInfo.t → C A) Q :
  (HasPerm user PermUpload (path_Dir v) = true → emits authorized new Q) →
  (∀ stat, HasPerm user PermOverwrite (path_Dir v) = true → emits authorized (existing stat) Q) →
  emits authorized
    (try_catch (look (fs_Lstat f p))
       (fun stat => if FileInfo.IsSymlink stat then (_ ← fail_if (negb (HasPerm user PermUpload (path_Dir v))) e1; new)
                    else _ ← fail_if (FileInfo.IsDir stat) e2;
                         _ ← fail_if (negb (HasPerm user PermOverwrite (path_Dir v))) e3; existing stat)
       (fun e => if fs_IsNotExist f e then (_ ← fail_if (negb (HasPerm user PermUpload (path_Dir v))) e1; new) else fail (e4 e))) Q.
Proof.
  intros Hnew Hex.
  assert (emits authorized (_ ← fail_if (negb (HasPerm user PermUpload (path_Dir v))) e1; new) Q) as Hn.
  { emits_know emits_fail_if Hp%negb_false_iff. auto. }
  emits_step; [emits_auto| |by emits_step; [|emits_auto]].
  destruct (FileInfo.IsSymlink _); [done|]. emits_step; [emits_auto|]. emits_know emits_fail_if Hp%negb_false_iff. auto.
Qed.

Ltac not_quota_const :=
  unfold not_quota, IsQuotaExceededError; destruct (protocol =s ProtocolSFTP), (protocol =s ProtocolFTP); reflexivity.
Lemma allowed_Ok v ok (policy : Z) : IsFileAllowed user v = (ok, policy) → negb ok = false → allowed v.
Proof. intros H Hok. unfold allowed. rewrite H. by apply negb_false_iff. Qed.

Lemma handleFilewrite_emits n1 n2 ip r : emits authorized (handleFilewrite n1 n2 ip r) opened_sftp.
Proof.
  unfold handleFilewrite. emits_know emits_fail_if Ha%negb_false_iff. emits_step; [emits_auto|]. emits_step.
  assert (no_quota_error (if negb (HasPerm user PermDownload (path_Dir (SftpRequest.Filepath r))) then Some os_ErrPermission
    else if negb (HasOpenRWSupport f) && FileOpenFlags.Read (SftpRequest.Pflags r) then Some ErrSSHFxOpUnsupported else None)) as He.
  { intros e. repeat case_match; intros [= <-]; not_quota_const. }
  apply emits_upload_choice; intros; [by apply sftp_new_emits|by apply sftp_existing_emits].
Qed.
Lemma uploadFile_emits n1 n2 ip f p v fl : emits authorized (uploadFile n1 n2 ip f p v fl) opened_ftp.
Proof.
  unfold uploadFile. emits_know emits_fail_if Ha%negb_false_iff.
  apply emits_upload_choice; intros; [by apply ftp_new_emits|by apply ftp_existing_emits].
Qed.
Lemma putFile_emits n1 n2 ip f p v : emits authorized (putFile n1 n2 ip mtime f p v) opened_dav.
Proof.
  unfold putFile. emits_know emits_fail_if Ha%negb_false_iff.
  apply emits_upload_choice; intros; [by apply dav_new_emits|by apply dav_existing_emits].
Qed.
Lemma httpd_getFileWriter_emits n1 n2 ip v : emits authorized (httpd_getFileWriter n1 n2 ip v) opened_http.
Proof.
  unfold httpd_getFileWriter. emits_know emits_fail_if Ha%negb_false_iff. emits_step; [emits_auto|]. emits_step.
  apply emits_upload_choice; intros; [by apply http_upload_emits|].
  emits_step; [by apply stage_existing_emits|by apply http_upload_emits].
Qed.

Lemma Fileread_emits n1 n2 ip r : emits authorized (Fileread n1 n2 ip r) opened_sftp.
Proof.
  unfold Fileread, base_transfer. emits_know emits_fail_if Hp%negb_false_iff. do 2 (emits_step; [emits_auto|]).
  destruct (IsFileAllowed user _) as [ok policy] eqn:Ha. emits_know emits_fail_if Hok. pose proof (allowed_Ok _ _ _ Ha Hok).
  emits_step; [emits_auto|]. emits_step. emits_step; [emits_auto|]. emits_step; [by apply fs_Open_emits|].
  apply opened_emits; [intros; apply newTransfer_base|intros; by apply newTransfer_good|by right].
Qed.
Lemma downloadFile_emits n1 n2 ip f p v off : emits authorized (downloadFile n1 n2 ip f p v off) opened_ftp.
Proof.
  unfold downloadFile, ftpd_base_transfer. emits_know emits_fail_if Hp%negb_false_iff. do 2 (emits_step; [emits_auto|]).
  destruct (IsFileAllowed user _) as [ok policy] eqn:Ha. emits_know emits_fail_if Hok. pose proof (allowed_Ok _ _ _ Ha Hok).
  emits_step; [emits_auto|]. emits_step; [by apply fs_Open_emits|].
  apply opened_emits; [intros; apply ftpd_newTransfer_base|done|by right].
Qed.
Lemma GetHandle_emits n1 n2 ip c v fl off : emits authorized (GetHandle n1 n2 ip c v fl off) opened_ftp.
Proof.
  unfold GetHandle. emits_step; [emits_auto|]. emits_step. emits_step; [emits_auto|].
  case_match; [apply uploadFile_emits|apply downloadFile_emits].
Qed.
Lemma httpd_getFileReader_emits n1 n2 ip v off m : emits authorized (httpd_getFileReader n1 n2 ip v off m) opened_http.
Proof.
  unfold httpd_getFileReader, httpd_base_transfer. do 2 (emits_step; [emits_auto|]). emits_know emits_fail_if Hp%negb_false_iff.
  destruct (IsFileAllowed user _) as [ok policy] eqn:Ha. emits_know emits_fail_if Hok. pose proof (allowed_Ok _ _ _ Ha Hok).
  emits_step; [emits_auto|]. emits_step. emits_step; [case_match; emits_auto|]. emits_step; [by apply fs_Open_emits|].
  apply opened_emits; [intros; apply newHTTPDFile_base|done|by right].
Qed.
Lemma getFile_emits n1 n2 ip f p v : emits authorized (getFile n1 n2 ip f p v) opened_dav.
Proof.
  unfold getFile, webdav_base_transfer. emits_step; [emits_auto|]. apply opened_emits; [intros; apply newWebDavFile_base|intros; apply newWebDavFile_good|by right].
Qed.
Lemma webdav_OpenFile_emits n1 n2 ip m v fl : emits authorized (webdav_OpenFile n1 n2 ip m mtime v fl) opened_dav.
Proof.
  unfold webdav_OpenFile. emits_step; [emits_auto|]. emits_step. case_match; [apply getFile_emits|apply putFile_emits].
Qed.

(** ** Closing a transfer *)

(** what does not change while a transfer is closed *)
Definition same t t' : Prop :=
  requestPath t' = requestPath t ∧ transferType t' = transferType t ∧ aTime t' = aTime t ∧ mTime t' = mTime t.
(** what closing may change: also the times the client has set *)
Definition closing t (e : effect) : Prop :=
  authorized e ∨ e = EChtimes (requestPath t) (requestPath t) ∧ aTime t ≠ 0 ∧ mTime t ≠ 0.

Lemma same_refl t : same t t.
Proof. done. Qed.
Lemma same_trans t1 t2 t3 : same t1 t2 → same t2 t3 → same t1 t3.
Proof. unfold same. intuition congruence. Qed.
Lemma nothing_received_same t : same t (nothing_received t).
Proof. done. Qed.
Lemma TransferError_same e t : same t (TransferError e t).
Proof. unfold TransferError. by destruct (ErrTransfer t). Qed.
Hint Resolve same_refl nothing_received_same TransferError_same : core.

Lemma remove_file_emits t p : may_write (requestPath t) → allowed (requestPath t) → emits authorized (remove_file t p) anything.
Proof. intros Hw Ha. unfold remove_file. emits_step; [by apply emits_perform|emits_auto..]. Qed.

Lemma settle_file_emits t : opened t → emits authorized (settle_file t) (fun x => same t x.1).
Proof.
  intros Ht. unfold settle_file. destruct (_ && _) eqn:Hq.
  - destruct Ht as [[(_ & Hw & Ha)|(_ & He & _)] _]; [|by rewrite He, andb_false_r in Hq].
    eapply emits_bind; [by apply remove_file_emits|intros err _]. apply emits_ret. by destruct err.
  - destruct (isAtomicUpload t) eqn:Hat; [|by apply emits_ret].
    destruct Ht as [[(_ & Hw & Ha)|[Hty _]] _]; [|by unfold isAtomicUpload in Hat; rewrite Hty in Hat].
    emits_step.
    + eapply (emits_bind _ _ _ anything); [emits_step; [by apply emits_perform|emits_auto..]|intros err _].
      unfold checkUploadOutsideHomeDir. eapply (emits_bind _ _ _ (same t)); [|intros t' Ht; by apply emits_ret].
      destruct err; [|by apply emits_ret]. destruct (_ =s ""); [by apply emits_ret|].
      emits_step; [by apply remove_file_emits|by apply emits_ret].
    + eapply emits_bind; [by apply remove_file_emits|intros err _]. apply emits_ret. by destruct err.
Qed.

Lemma emits_same {A} P (m : C A) (get : A → BaseTransfer.t) t Q : emits P m Q → (∀ x, Q x → same t (get x)) → emits P m (fun x => same t (get x)).
Proof. apply emits_weaken. Qed.

Lemma notify_transfer_emits P a t n : emits P (notify_transfer a t n) anything.
Proof. apply notify_action_emits. Qed.
Lemma updateTransferTimestamps_emits P t n : emits P (updateTransferTimestamps t n) anything.
Proof. unfold updateTransferTimestamps, set_timestamp, notify_transfer. emits_auto; by apply emits_silent.
Qed.
Lemma transfer_updateQuota_emits P t n m : emits P (transfer_updateQuota t n m) anything.
Proof. unfold transfer_updateQuota. cbv zeta. emits_auto. Qed.
Lemma RemoveTransfer_emits P t : emits P (RemoveTransfer t) anything.
Proof. apply emits_silent. intros s. reflexivity. Qed.
#[local] Hint Resolve notify_transfer_emits updateTransferTimestamps_emits transfer_updateQuota_emits RemoveTransfer_emits : emits.

Lemma getUploadFileSize_emits t : may_write (requestPath t) → allowed (requestPath t) →
  emits authorized (getUploadFileSize t) (fun x => same t x.1.1).
Proof.
  intros Hw Ha. unfold getUploadFileSize. emits_step; [by apply emits_silent|]. emits_step; [|by apply emits_ret].
  eapply emits_bind; [by apply remove_file_emits|intros err _]. destruct err; by apply emits_ret.
Qed.
Lemma executeUploadHook_emits t n m : may_write (requestPath t) → allowed (requestPath t) →
  emits authorized (executeUploadHook t n m) (fun x => same t x.1.1).
Proof.
  intros Hw Ha. unfold executeUploadHook. apply (emits_try _ _ _ _ anything); [emits_auto|intros _ _; by apply emits_ret|intros e].
  pose proof (TransferError_same e t) as Hs. pose proof Hs as (Hr & _).
  eapply emits_bind; [apply remove_file_emits; by rewrite Hr|intros err _]. destruct err; by apply emits_ret.
Qed.
Lemma updateTimes_emits t t0 : same t0 t → emits (closing t0) (updateTimes t) anything.
Proof.
  intros (Hr & _ & Ha & Hm). unfold updateTimes. destruct (_ && _) eqn:Hz; [|by apply emits_ret]. emits_step.
  apply emits_perform. right. rewrite Hr, <- Ha, <- Hm. apply andb_prop in Hz as [H1 H2].
  split_and!; [done|by apply Z.eqb_neq, negb_true_iff..].
Qed.
Lemma authorized_closing {A} t (m : C A) Q : emits authorized m Q → emits (closing t) m Q.
Proof. intros H. eapply emits_or; [exact H|by left]. Qed.

Lemma settle_upload_emits t t0 n : same t0 t → may_write (requestPath t) → allowed (requestPath t) →
  emits (closing t0) (settle_upload t n) anything.
Proof.
  intros Hs Hw Ha. unfold settle_upload. eapply emits_bind; [by apply authorized_closing, getUploadFileSize_emits|].
  intros [[t1 size] del] H1. cbn in H1. pose proof H1 as (Hr & _). destruct (match size with Ok _ => _ | Err _ => _ end) as [u nf].
  eapply emits_bind; [apply authorized_closing, executeUploadHook_emits; by rewrite Hr|]. intros [[t2 nf2] u2] H2. cbn in H2.
  emits_step; [emits_auto|]. emits_step; [|by apply emits_ret]. eauto using updateTimes_emits, same_trans.
Qed.
Lemma Close_emits t : opened t → emits (closing t) (Close t) anything.
Proof.
  intros Ht. unfold Close. cbv zeta. emits_step; [emits_auto|].
  eapply emits_bind; [by apply authorized_closing, settle_file_emits|]. intros [t1 err] H1. cbn in H1.
  pose proof H1 as (Hr & Hty & _). emits_step; [|by emits_auto]. destruct (_ =? TransferDownload) eqn:Hd; [emits_auto|].
  destruct Ht as [[(_ & Hw & Ha)|[Hty' _]] _]; [|by rewrite Hty, Hty' in Hd].
  apply settle_upload_emits; [done|by rewrite Hr..].
Qed.

(** ** Sessions on a file *)

(** the storages do not use the error of an exceeded quota for themselves *)
Definition storage_errors : Prop :=
  (∀ f p offset w e, fs_Open f p offset w = Err e → not_quota e) ∧
  (∀ file offset whence w e w', file_Seek file offset whence w = (Err e, w') → not_quota e) ∧
  (∀ f p w e, fs_Stat f p w = Err e → not_quota e) ∧
  (∀ file w e w', writer_Close file w = (Err e, w') → not_quota e).
(** a download is not written to, and neither the storage nor the server reports
    an exceeded quota for it *)
Definition op_ok (download : bool) (o : file_op) : Prop :=
  download = true →
  match o with
  | DoRead (_, Some e) | DoAbort e => not_quota e
  | DoWrite _ _ => False
  | _ => True
  end.

Definition may_read (v : string) : Prop := HasPerm user PermDownload (path_Dir v) = true ∧ allowed v.
Definition handle_ok (h : handle) : Prop :=
  opened (base_of h) ∧ 
  match h with
  | HDav x => webDavFile.readTried x = true → may_read (virtualPath x)
  | HSftp x => sftp_good x
  | _ => True
  end.

(** what the operations on an open file do not change *)
Definition kept t t' : Prop := requestPath t' = requestPath t ∧ transferType t' = transferType t ∧ aTime t' = aTime t.

Lemma ReadQuotaExceeded_not_quota : not_quota ReadQuotaExceeded.
Proof.
  unfold ReadQuotaExceeded, getReadQuotaExceededError. unfold not_quota, IsQuotaExceededError.
  destruct (protocol =s ProtocolSFTP), (protocol =s ProtocolFTP); reflexivity.
Qed.
Lemma CheckRead_not_quota t e : CheckRead t = Err e → not_quota e.
Proof.
  unfold CheckRead, refuse. cbv zeta. intros H. repeat case_match; simplify_eq; apply ReadQuotaExceeded_not_quota.
Qed.

(** an error a download may keep *)
Lemma TransferError_opened e t : opened t → (transferType t = TransferDownload → not_quota e) → opened (TransferError e t).
Proof.
  intros Ho He. unfold TransferError. destruct (ErrTransfer t) eqn:Herr; [done|]. destruct Ho as [Hc Ha]. split; [|done]. cbn.
  destruct Hc as [?|(Hty & _ & Hab)]; [by left|right]. split_and!; [done|by apply He|done].
Qed.
Lemma opened_ext t t' : opened t →
  requestPath t' = requestPath t ∧ transferType t' = transferType t ∧ aTime t' = aTime t ∧ ErrTransfer t' = ErrTransfer t ∧
  AbortTransfer t' = AbortTransfer t ∧ errAbort t' = errAbort t → opened t'.
Proof. unfold opened, GetAbortError. intros Ho (-> & -> & -> & -> & -> & ->). done. Qed.

Lemma after_read_opened report n err t : opened t → op_ok (transferType t =? TransferDownload) (DoRead (n, err)) →
  opened (after_read report (n, err) t).1.
Proof.
  intros Ho Hop. unfold after_read. set (t1 := t <| BytesSent ::= _ |>).
  assert (opened t1) as H1 by (by apply (opened_ext t)).
  destruct (match err with Some _ => err | None => _ end) as [e|] eqn:He; [|done]. destruct (is_error e EOF); [done|].
  destruct report; [|done]. apply TransferError_opened; [done|]. intros Hty.
  destruct err as [e'|]; simplify_eq.
  - apply Hop. by apply Z.eqb_eq.
  - destruct (CheckRead t1) eqn:Hc; simplify_eq/=. by apply CheckRead_not_quota in Hc.
Qed.
Lemma after_write_opened io t : opened t → transferType t ≠ TransferDownload → opened (after_write io t).1.
Proof.
  intros Ho Hty. destruct io as [n err]. unfold after_write. set (t1 := t <| BytesReceived ::= _ |>).
  assert (opened t1) as H1 by (by apply (opened_ext t)).
  destruct (match err with Some _ => err | None => _ end) as [e|]; [|done]. by apply TransferError_opened.
Qed.
Lemma SignalClose_opened e t : opened t → (transferType t = TransferDownload → not_quota e) → opened (SignalClose (Some e) t).
Proof.
  intros [Hc Ha] He. split; [|done]. destruct Hc as [?|(Hty & Hq & _)]; [by left|right]. split_and!; [done..|intros _; by apply He].
Qed.
Lemma set_error_opened e t : opened t → (∀ e', e = Some e' → not_quota e') → opened (t <| ErrTransfer := e |>).
Proof.
  intros [Hc Ha] He. split; [|done]. destruct Hc as [?|(Hty & Hq & Hab)]; [by left|right]. split_and!; [done| |done]. cbn.
  destruct e; [by apply He|]. done.
Qed.

Hypothesis Herrors : storage_errors.

Lemma checkFirstRead_emits x : emits authorized (checkFirstRead x)
  (fun x' => webDavFile.Base x' = webDavFile.Base x ∧ may_read (virtualPath x)).
Proof.
  unfold checkFirstRead. emits_know emits_fail_if Hp%negb_false_iff. emits_step; [emits_auto|].
  destruct (IsFileAllowed user _) as [ok policy] eqn:Ha. emits_know emits_fail_if Hok. pose proof (allowed_Ok _ _ _ Ha Hok).
  emits_step; [emits_auto|]. by apply emits_ret.
Qed.
Lemma look_emits {A} P (f : world → res A) : emits P (look f) anything.
Proof. apply emits_look. Qed.
(** like [emits_try], with what is known of the error *)
Lemma emits_try_err {A B} P (m : C A) (k1 : A → C B) (k2 : error → C B) (Q : A → Prop) (Er : error → Prop) R :
  emits P m Q → (∀ s e s', m s = (Err e, s') → Er e) → (∀ a, Q a → emits P (k1 a) R) → (∀ e, Er e → emits P (k2 e) R) →
  emits P (try_catch m k1 k2) R.
Proof.
  intros Hm Her H1 H2 s. unfold try_catch. destruct (Hm s) as [(l & Hl & HP) Hr]. specialize (Her s).
  assert (∀ (k : C B) s1, Conn.effects s1 = Conn.effects s ++ l → emits P k R →
    (∃ l, Conn.effects (k s1).2 = Conn.effects s ++ l ∧ Forall P l) ∧ match (k s1).1 with Ok a => R a | Err _ => True end) as Hgo.
  { intros k s1 Hs1 Hkk. destruct (Hkk s1) as [(l' & Hl' & HP') Hr']. split; [|done]. exists (l ++ l').
    split; [by rewrite Hl', Hs1, (assoc_L (++))|]. by apply Forall_app. }
  destruct (m s) as [[a|e] s1]; cbn in *; apply Hgo; eauto.
Qed.
Lemma look_err {A} (f : world → res A) (Er : error → Prop) : (∀ w e, f w = Err e → Er e) → ∀ s e s', look f s = (Err e, s') → Er e.
Proof. intros Hf s e s' [= H _]. eauto. Qed.
Lemma on_files_err {A} (m : M world A) (Er : error → Prop) : (∀ w e w', m w = (Err e, w') → Er e) →
  ∀ s e s', on_files m s = (Err e, s') → Er e.
Proof. intros Hm s e s'. unfold on_files. destruct (m _) as [r w] eqn:Hr. intros [= -> _]. eauto. Qed.

Lemma open_for_read_emits x : opened (webDavFile.Base x) → may_read (virtualPath x) →
  emits authorized (open_for_read x) (fun r => opened (webDavFile.Base r.1) ∧ kept (webDavFile.Base x) (webDavFile.Base r.1)).
Proof.
  intros Ho [Hp Ha]. unfold open_for_read. destruct (webDavFile.reader x); [by apply emits_ret|].
  destruct (is_download x) eqn:Hd; cbn [negb].
  - apply (emits_try_err _ _ _ _ anything not_quota); [emits_step; [by apply emits_record|emits_auto]| | |].
    + intros s e s'. unfold mbind, M_bind, record, modify. cbn. apply look_err. apply Herrors.
    + intros r _. apply emits_ret. cbn. split; [|by destruct (reader_File r)].
      apply set_error_opened; [|done]. destruct (reader_File r) as [file|]; [|done]. by apply (opened_ext (webDavFile.Base x)).
    + intros e He. apply emits_ret. split; [|done]. apply set_error_opened; [done|by intros ? [= ->]].
  - apply emits_ret. split; [apply TransferError_opened; [done|]|]. 
    + intros _. not_quota_const.
    + cbn. unfold TransferError. by destruct (ErrTransfer _).
Qed.

Lemma after_read_kept report io t : kept t (after_read report io t).1.
Proof.
  destruct io as [n err]. unfold after_read. destruct (match err with Some _ => err | None => _ end); [|done].
  destruct (is_error _ _); [done|]. destruct report; [|done]. unfold TransferError. by destruct (ErrTransfer _).
Qed.
Lemma after_write_kept io t : kept t (after_write io t).1.
Proof.
  destruct io as [n err]. unfold after_write. destruct (match err with Some _ => err | None => _ end); [|done].
  unfold TransferError. by destruct (ErrTransfer _).
Qed.
Lemma kept_trans t1 t2 t3 : kept t1 t2 → kept t2 t3 → kept t1 t3.
Proof. unfold kept. intuition congruence. Qed.
Lemma TransferError_kept e t : kept t (TransferError e t).
Proof. unfold TransferError. by destruct (ErrTransfer t). Qed.
Lemma op_ok_kept t t' o : kept t t' → op_ok (transferType t =? TransferDownload) o → op_ok (transferType t' =? TransferDownload) o.
Proof. by intros (_ & -> & _). Qed.

(** what is known of a WebDAV file after an operation on [x] *)
Definition dav_ok (x x' : webDavFile.t) : Prop :=
  opened (webDavFile.Base x') ∧ kept (webDavFile.Base x) (webDavFile.Base x') ∧ (webDavFile.readTried x' = true → may_read (virtualPath x')).
Lemma dav_ok_same x x' : dav_ok x x → webDavFile.Base x' = webDavFile.Base x → webDavFile.readTried x' = webDavFile.readTried x → dav_ok x x'.
Proof. unfold dav_ok, virtualPath. by intros H -> ->. Qed.
Lemma dav_ok_step x x1 x2 : dav_ok x x1 → dav_ok x1 x2 → dav_ok x x2.
Proof. intros (_ & H1 & _) (H2 & H3 & H4). split_and!; eauto using kept_trans. Qed.
Lemma dav_ok_refl x x1 : dav_ok x x1 → dav_ok x1 x1.
Proof. intros (H1 & H2 & H3). by split_and!. Qed.
(** the transfer changes, what was tried does not *)
Lemma dav_ok_base x x' : dav_ok x x → opened (webDavFile.Base x') → kept (webDavFile.Base x) (webDavFile.Base x') →
  webDavFile.readTried x' = webDavFile.readTried x → dav_ok x x'.
Proof. intros (H1 & H2 & H3) Ho Hkept Ht. split_and!; [done..|]. rewrite Ht. unfold virtualPath in *. by destruct Hkept as (-> & _). Qed.

Lemma webdav_Read_emits io x : dav_ok x x → op_ok (is_download x) (DoRead io) → emits authorized (webdav_Read io x) (fun r => dav_ok x r.1).
Proof.
  intros Hx Hop. unfold webdav_Read. destruct (AbortTransfer _); [by apply emits_ret|].
  eapply (emits_bind _ _ _ (fun r => dav_ok x r.1 ∧ (r.2 = None → may_read (virtualPath r.1)))).
  { destruct (webDavFile.readTried x) eqn:Ht; [apply emits_ret; split; [done|intros _; by apply Hx]|].
    eapply emits_try; [apply checkFirstRead_emits| |intros e; by apply emits_ret].
    intros x' [Hb Hr]. apply emits_ret. cbn. unfold dav_ok, virtualPath in *. rewrite Hb. by destruct Hx as (? & ? & _). }
  intros [x1 err] [H1 Hr]. cbn in H1, Hr. destruct err as [e|]; [by apply emits_ret|]. specialize (Hr eq_refl).
  eapply emits_bind; [apply open_for_read_emits; [apply H1|done]|]. intros [x2 err] [Ho2 Hk2]. cbn in Ho2, Hk2.
  assert (dav_ok x1 x2) as H2.
  { split_and!; [done..|intros _]. destruct Hk2 as (Hv & _). unfold virtualPath in *. by rewrite Hv. }
  pose proof (dav_ok_step _ _ _ H1 H2) as H12. destruct err; [by apply emits_ret|].
  pose proof (after_read_kept true io (webDavFile.Base x2)) as Hkr.
  assert (opened (after_read true io (webDavFile.Base x2)).1) as Hor.
  { destruct io as [n err]. apply after_read_opened; [done|]. by apply (op_ok_kept (webDavFile.Base x)); [apply H12|]. }
  destruct (after_read _ _ _) as [t res]. apply emits_ret. eapply dav_ok_step; [exact H12|].
  apply dav_ok_base; [by eapply dav_ok_refl|done..].
Qed.

Lemma close_stream_emits P : ∀ sm, emits P (close_stream sm) anything.
Proof. fix IH 1. intros [w|r|[inner|] e]; cbn; [emits_auto..|apply IH|by apply emits_ret]. Qed.
#[local] Hint Resolve close_stream_emits : emits.
Lemma updateTransferQuotaOnSeek_emits P x : emits P (updateTransferQuotaOnSeek x) anything.
Proof. unfold updateTransferQuotaOnSeek. emits_auto. Qed.
#[local] Hint Resolve updateTransferQuotaOnSeek_emits : emits.

Lemma transfer_error_dav e x : dav_ok x x → (is_download x = true → not_quota e) → dav_ok x (transfer_error e x).
Proof.
  intros Hx He. apply dav_ok_base; [done|apply TransferError_opened; [apply Hx|]|apply TransferError_kept|done].
  intros Hty. apply He. unfold is_download. by apply Z.eqb_eq.
Qed.
Lemma stat_of_err x w e : stat_of x w = Err e → not_quota e.
Proof. unfold stat_of. destruct (fs_Stat _ _ _) eqn:Hs; [done|]. intros [= <-]. destruct Herrors as (_ & _ & Hstat & _). by eapply Hstat. Qed.
(** [updateStatInfo] *)
Lemma updateStatInfo_try P {B} x (k1 : webDavFile.t → C B) (k2 : error → C B) R :
  (∀ x', webDavFile.Base x' = webDavFile.Base x → webDavFile.readTried x' = webDavFile.readTried x → emits P (k1 x') R) →
  (∀ e, not_quota e → emits P (k2 e) R) → emits P (try_catch (updateStatInfo x) k1 k2) R.
Proof.
  intros H1 H2. unfold updateStatInfo. destruct (webDavFile.info x).
  - eapply (emits_try_err _ _ _ _ (fun x' => x' = x) (fun _ => False)); [by apply emits_ret|done|intros ? ->; by apply H1|done].
  - eapply (emits_try_err _ _ _ _ (fun x' => webDavFile.Base x' = webDavFile.Base x ∧ webDavFile.readTried x' = webDavFile.readTried x) not_quota).
    + emits_step; [emits_auto|by apply emits_ret].
    + intros s e s'. unfold mbind, M_bind, look. destruct (stat_of x _) eqn:Hst; [done|]. intros [= <- _]. by eapply stat_of_err.
    + intros x' [? ?]. by apply H1.
    + done.
Qed.
Lemma checkFile_emits x : dav_ok x x → emits authorized (checkFile x) (fun r => dav_ok x r.1).
Proof.
  intros Hx. unfold checkFile. destruct (_ && _); [|by apply emits_ret].
  apply (emits_try_err _ _ _ _ anything not_quota); [emits_auto|apply look_err, Herrors| |].
  - intros r _. apply emits_ret. apply dav_ok_base; [done| |done|done]. by apply (opened_ext (webDavFile.Base x)); [apply Hx|].
  - intros e He. apply emits_ret. by apply transfer_error_dav.
Qed.
Lemma reopen_at_emits a b c x : dav_ok x x → emits authorized (reopen_at a b c x) (fun r => dav_ok x r.1).
Proof.
  intros Hx. unfold reopen_at. emits_step; [destruct (webDavFile.reader x); emits_auto|].
  set (x1 := (x <| webDavFile.reader := None |>) <| webDavFile.Base ::= _ |>).
  assert (dav_ok x x1) as H1 by (apply dav_ok_base; [done|by apply (opened_ext (webDavFile.Base x)); [apply Hx|]|done|done]).
  pose proof (dav_ok_refl _ _ H1) as H11. emits_step; [emits_auto|].
  eapply (emits_bind _ _ _ (fun r => dav_ok x1 r.1)).
  { destruct (c =? SeekStart); [by apply emits_ret|]. destruct (c =? SeekCurrent); [by apply emits_ret|].
    destruct (c =? SeekEnd); [|by apply emits_ret]. apply updateStatInfo_try.
    - intros x' Hb Ht. apply emits_ret. by apply dav_ok_same.
    - intros e He. apply emits_ret. by apply transfer_error_dav. }
  intros [x2 r] H2. cbn in H2. pose proof (dav_ok_step _ _ _ H1 H2) as H12. pose proof (dav_ok_refl _ _ H2) as H22.
  destruct r as [start|e]; [|by apply emits_ret].
  apply (emits_try_err _ _ _ _ anything not_quota); [emits_auto|apply look_err, Herrors| |].
  - intros rd _. apply emits_ret. eapply dav_ok_step; [exact H12|]. apply dav_ok_base; [done| |done|done].
    apply set_error_opened; [apply H22|done].
  - intros e He. apply emits_ret. eapply dav_ok_step; [exact H12|]. apply dav_ok_base; [done| |done|done].
    apply set_error_opened; [apply H22|by intros ? [= ->]].
Qed.
Lemma webdav_Seek_emits a b x : dav_ok x x → emits authorized (webdav_Seek a b x) (fun r => dav_ok x r.1).
Proof.
  intros Hx. unfold webdav_Seek. eapply emits_bind; [by apply checkFile_emits|]. intros [x1 err] H1. cbn in H1.
  pose proof (dav_ok_refl _ _ H1) as H11. destruct err; [by apply emits_ret|].
  destruct (File _); [unfold seekFile; apply (emits_try_err _ _ _ _ anything not_quota)|].
  - emits_auto.
  - apply on_files_err. intros. destruct Herrors as (_ & Hseek & _). by eapply Hseek.
  - intros r _. by apply emits_ret.
  - intros e He. apply emits_ret. eapply dav_ok_step; [exact H1|]. by apply transfer_error_dav.
  - destruct (is_download x1); [|by apply emits_ret]. cbv zeta. destruct (_ && _); [by apply emits_ret|].
    destruct (_ && _ && _); [|eapply emits_weaken; [by apply reopen_at_emits|eauto using dav_ok_step]].
    apply updateStatInfo_try; [|intros; by apply emits_ret]. intros x' Hb Ht. apply emits_ret. eapply dav_ok_step; [exact H1|by apply dav_ok_same].
Qed.

(** ** Any operation on an open file *)

Lemma set_mtime_emits v m : emits authorized (set_mtime v m) anything.
Proof. apply SetStat_emits. Qed.
#[local] Hint Resolve set_mtime_emits : emits.
Lemma patch_props_emits b props x : ∀ acc, emits authorized (patch_props b props x acc) anything.
Proof.
  induction props as [|p props IH]; intros acc; cbn [patch_props]; [by apply emits_ret|]. emits_step; [|apply IH].
  unfold patch_prop. emits_auto.
Qed.
#[local] Hint Resolve patch_props_emits : emits.
Lemma Patch_emits x patches : emits authorized (Patch patches x) anything.
Proof.
  unfold Patch. generalize false as b. induction patches as [|p patches IH]; intros b; cbn [patch_all]; [by apply emits_ret|].
  emits_step; [emits_auto|]. do 2 emits_step. emits_step; [apply IH|by apply emits_ret].
Qed.
#[local] Hint Resolve Patch_emits : emits.
Lemma webdav_Readdir_emits P x : emits P (webdav_Readdir x) anything.
Proof. unfold webdav_Readdir. emits_auto. Qed.
Lemma webdav_file_Stat_emits P x : emits P (webdav_file_Stat x) anything.
Proof. unfold webdav_file_Stat. emits_auto. Qed.
#[local] Hint Resolve webdav_Readdir_emits webdav_file_Stat_emits : emits.

Lemma handle_dav x : handle_ok (HDav x) ↔ dav_ok x x.
Proof. split; [intros [? ?]; by split_and!|intros (? & ? & ?); by split]. Qed.
Lemma download_dec t o : op_ok (transferType t =? TransferDownload) o → transferType t = TransferDownload → op_ok true o.
Proof. by intros H Ht _; apply H, Z.eqb_eq. Qed.
Lemma not_download t off io : op_ok (transferType t =? TransferDownload) (DoWrite off io) → transferType t ≠ TransferDownload.
Proof. intros H Ht. by apply (download_dec _ _ H Ht). Qed.

Lemma sftpd_ReadAt_opened io x : opened (SftpTransfer.Base x) → sftp_good x →
  op_ok (transferType (SftpTransfer.Base x) =? TransferDownload) (DoRead io) → handle_ok (HSftp (sftpd_ReadAt io x).1).
Proof.
  intros Ho Hg Hop. unfold sftpd_ReadAt. destruct (SftpTransfer.readerAt x) as [rd|] eqn:Hr; [|done]. cbv zeta.
  assert (∃ n err, match rd with Failing _ e => (0, Some e) | _ => io end = (n, err) ∧
    op_ok (transferType (SftpTransfer.Base x) =? TransferDownload) (DoRead (n, err))) as (n & err & -> & Hop').
  { destruct io as [n err], rd as [w|r|sm e]; [by exists n, err..|]. exists 0, (Some e). split; [done|]. intros _. by eapply Hg. }
  pose proof (after_read_opened (transferType (SftpTransfer.Base x) =? TransferDownload) n err _ Ho Hop').
  by destruct (after_read _ _ _).
Qed.
Lemma sftpd_WriteAt_opened off io x : opened (SftpTransfer.Base x) → sftp_good x →
  transferType (SftpTransfer.Base x) ≠ TransferDownload → handle_ok (HSftp (sftpd_WriteAt off io x).1).
Proof.
  intros Ho Hg Hd. unfold sftpd_WriteAt. destruct (_ <? _); [split; [by apply TransferError_opened|done]|].
  destruct (SftpTransfer.writerAt x); [|done]. pose proof (after_write_opened io _ Ho Hd). by destruct (after_write _ _).
Qed.
Lemma TransferError_const e x : opened (FtpTransfer.Base x) → not_quota e → handle_ok (HFtp (x <| FtpTransfer.Base ::= TransferError e |>)).
Proof. intros Ho He. split; [|done]. by apply TransferError_opened. Qed.
Lemma ftpd_Seek_emits a b x : handle_ok (HFtp x) → emits authorized (ftpd_Seek a b x) (fun r => handle_ok (HFtp r.1)).
Proof.
  intros Hh. pose proof Hh as [Ho _]. unfold ftpd_Seek. destruct (File _).
  - apply (emits_try_err _ _ _ _ anything not_quota); [emits_auto| | |].
    + apply on_files_err. intros. destruct Herrors as (_ & Hseek & _). by eapply Hseek.
    + intros r _. by apply emits_ret.
    + intros e He. apply emits_ret. by apply TransferError_const.
  - destruct (_ && _ && _); apply emits_ret; [done|]. apply TransferError_const; [done|not_quota_const].
Qed.

Lemma run_op_emits o h : handle_ok h → op_ok (transferType (base_of h) =? TransferDownload) o →
  emits authorized (run_op o h) handle_ok.
Proof.
  intros Hh Hop. pose proof Hh as [Ho Hx].
  assert (∀ e, o = DoAbort e → opened (SignalClose (Some e) (base_of h))) as Habort.
  { intros e ->. apply SignalClose_opened; [done|]. intros Hd. by apply (download_dec _ _ Hop Hd). }
  destruct o as [io|off io|a b| | |patches|e], h as [x|x|x|x]; cbn [run_op base_of] in *; try (by apply emits_ret).
  - apply emits_ret. by apply sftpd_ReadAt_opened.
  - apply emits_ret. split; [|done]. unfold ftpd_Read. destruct (FtpTransfer.reader x), io as [n err]; [|done].
    pose proof (after_read_opened true n err _ Ho Hop). cbn [base_of]. by destruct (after_read _ _ _).
  - eapply emits_bind; [apply webdav_Read_emits; [by apply handle_dav|done]|]. intros [x' r] H'. apply emits_ret.
    apply handle_dav. by eapply dav_ok_refl.
  - apply emits_ret. split; [|done]. unfold httpd_Read, httpd_aborted. destruct (AbortTransfer _) eqn:Hab; cbn [base_of].
    { apply TransferError_opened; [done|]. intros Hd. destruct Ho as [[(Hu & _)|(_ & _ & Hq)] _]; [by rewrite Hu in Hd|by apply Hq]. }
    destruct (HttpdFile.reader x), io as [n err]; [|done]. pose proof (after_read_opened true n err _ Ho Hop). by destruct (after_read _ _ _).
  - apply emits_ret. apply sftpd_WriteAt_opened; [done..|by eapply not_download].
  - apply emits_ret. split; [|done]. unfold ftpd_Write. destruct (FtpTransfer.writer x); [|done].
    pose proof (after_write_opened io _ Ho (not_download _ _ _ Hop)). cbn [base_of]. by destruct (after_write _ _).
  - apply emits_ret. apply handle_dav. apply handle_dav in Hh. unfold webdav_Write. destruct (AbortTransfer _); [done|].
    destruct (webDavFile.writer x); [|done]. pose proof (after_write_opened io _ Ho (not_download _ _ _ Hop)).
    pose proof (after_write_kept io (webDavFile.Base x)). destruct (after_write _ _). eapply dav_ok_refl, (dav_ok_base x); [done..|reflexivity].
  - apply emits_ret. split; [|done]. unfold httpd_Write, httpd_aborted. destruct (AbortTransfer _) eqn:Hab; cbn [base_of].
    { apply TransferError_opened; [done|]. intros Hd. by destruct (not_download _ _ _ Hop). }
    destruct (HttpdFile.writer x); [|done]. pose proof (after_write_opened io _ Ho (not_download _ _ _ Hop)). by destruct (after_write _ _).
  - eapply emits_bind; [by apply ftpd_Seek_emits|]. intros [x' r] H'. by apply emits_ret.
  - eapply emits_bind; [apply webdav_Seek_emits; by apply handle_dav|]. intros [x' r] H'. apply emits_ret.
    apply handle_dav. by eapply dav_ok_refl.
  - emits_step; [emits_auto|by apply emits_ret].
  - emits_step; [emits_auto|by apply emits_ret].
  - emits_step; [emits_auto|by apply emits_ret].
  - apply emits_ret. split; [by apply Habort|done].
  - apply emits_ret. split; [by apply Habort|done].
  - apply emits_ret. split; [by apply Habort|done].
  - apply emits_ret. split; [by apply Habort|done].
Qed.

(** the path and the kind of a transfer stay *)
Lemma sftpd_ReadAt_kept io x : kept (SftpTransfer.Base x) (SftpTransfer.Base (sftpd_ReadAt io x).1).
Proof.
  unfold sftpd_ReadAt. destruct (SftpTransfer.readerAt x) as [rd|]; [|done]. cbv zeta. set (io' := match rd with Failing _ _ => _ | _ => _ end).
  pose proof (after_read_kept (transferType (SftpTransfer.Base x) =? TransferDownload) io' (SftpTransfer.Base x)). by destruct (after_read _ _ _).
Qed.
Lemma sftpd_WriteAt_kept off io x : kept (SftpTransfer.Base x) (SftpTransfer.Base (sftpd_WriteAt off io x).1).
Proof.
  unfold sftpd_WriteAt. destruct (_ <? _); [apply TransferError_kept|]. destruct (SftpTransfer.writerAt x); [|done].
  pose proof (after_write_kept io (SftpTransfer.Base x)). by destruct (after_write _ _).
Qed.
Lemma ftpd_Seek_kept a b x : emits (fun _ => True) (ftpd_Seek a b x) (fun r => kept (FtpTransfer.Base x) (FtpTransfer.Base r.1)).
Proof.
  unfold ftpd_Seek. destruct (File _).
  - eapply emits_try; [emits_auto|intros r _; by apply emits_ret|intros e; apply emits_ret; apply TransferError_kept].
  - destruct (_ && _ && _); apply emits_ret; [done|apply TransferError_kept].
Qed.
Lemma emits_and {A} P (m : C A) (Q R : A → Prop) : emits P m Q → emits (fun _ => True) m R → emits P m (fun a => Q a ∧ R a).
Proof. intros H1 H2 s. destruct (H1 s) as [He Hq], (H2 s) as [_ Hr]. split; [done|]. by destruct (m s).1. Qed.
Lemma emits_true {A} P (m : C A) (Q : A → Prop) : emits P m Q → emits (fun _ => True) m Q.
Proof. intros H. by eapply emits_or. Qed.

Lemma run_op_kept o h : handle_ok h → op_ok (transferType (base_of h) =? TransferDownload) o →
  emits (fun _ => True) (run_op o h) (fun h' => kept (base_of h) (base_of h')).
Proof.
  intros Hh Hop. destruct o as [io|off io|a b| | |patches|e], h as [x|x|x|x]; cbn [run_op base_of] in *; try (by apply emits_ret).
  - apply emits_ret. apply sftpd_ReadAt_kept.
  - apply emits_ret. unfold ftpd_Read. destruct (FtpTransfer.reader x); [|done].
    pose proof (after_read_kept true io (FtpTransfer.Base x)). cbn [base_of]. by destruct (after_read _ _ _).
  - eapply emits_bind; [eapply emits_true, webdav_Read_emits; [by apply handle_dav|done]|]. intros [x' r] H'. apply emits_ret. apply H'.
  - apply emits_ret. unfold httpd_Read, httpd_aborted. destruct (AbortTransfer _); cbn [base_of]; [apply TransferError_kept|].
    destruct (HttpdFile.reader x); [|done]. pose proof (after_read_kept true io (HttpdFile.Base x)). by destruct (after_read _ _ _).
  - apply emits_ret. apply sftpd_WriteAt_kept.
  - apply emits_ret. unfold ftpd_Write. destruct (FtpTransfer.writer x); [|done].
    pose proof (after_write_kept io (FtpTransfer.Base x)). cbn [base_of]. by destruct (after_write _ _).
  - apply emits_ret. unfold webdav_Write. destruct (AbortTransfer _); [done|]. destruct (webDavFile.writer x); [|done].
    pose proof (after_write_kept io (webDavFile.Base x)). cbn [base_of]. by destruct (after_write _ _).
  - apply emits_ret. unfold httpd_Write, httpd_aborted. destruct (AbortTransfer _); cbn [base_of]; [apply TransferError_kept|].
    destruct (HttpdFile.writer x); [|done]. pose proof (after_write_kept io (HttpdFile.Base x)). by destruct (after_write _ _).
  - eapply emits_bind; [apply ftpd_Seek_kept|]. intros [x' r] H'. by apply emits_ret.
  - eapply emits_bind; [eapply emits_true, webdav_Seek_emits; by apply handle_dav|]. intros [x' r] H'. apply emits_ret. apply H'.
  - emits_step; [emits_auto|by apply emits_ret].
  - emits_step; [emits_auto|by apply emits_ret].
  - emits_step; [eapply emits_true, Patch_emits|by apply emits_ret].
Qed.

Definition handle_of (ty : Z) (h : handle) : Prop := handle_ok h ∧ transferType (base_of h) = ty.
Lemma run_ops_emits ty ops : ∀ h, handle_of ty h → Forall (op_ok (ty =? TransferDownload)) ops →
  emits authorized (run_ops ops h) (handle_of ty).
Proof.
  induction ops as [|o ops IH]; intros h Hh Hops; cbn [run_ops]; [by apply emits_ret|].
  apply Forall_cons in Hops as [Ho Hops]. destruct Hh as [Hh Hty]. subst ty.
  eapply (emits_bind _ _ _ (handle_of _)); [|intros h' Hh'; by apply IH].
  eapply emits_try; [apply emits_and; [by apply run_op_emits|by apply run_op_kept]|..].
  - intros h' [Hh' (_ & Hty & _)]. by apply emits_ret.
  - intros e. by apply emits_ret.
Qed.

(** ** Opening and closing *)

Lemma open_file_emits a b n1 n2 ip q : emits authorized (open_file a b mtime n1 n2 ip q) handle_ok.
Proof.
  destruct q as [r|r|p fl off|p fl|p off m|p]; cbn [open_file].
  - eapply emits_bind; [apply Fileread_emits|]. intros [x c] [Ho Hg]. by apply emits_ret.
  - eapply emits_bind; [apply handleFilewrite_emits|]. intros [x c] [Ho Hg]. by apply emits_ret.
  - eapply emits_bind; [apply GetHandle_emits|]. intros [x c] [Ho Hg]. by apply emits_ret.
  - eapply emits_bind; [apply webdav_OpenFile_emits|]. intros [x c] [Ho Hg]. apply emits_ret. split; [done|]. by rewrite Hg.
  - eapply emits_bind; [apply httpd_getFileReader_emits|]. intros [x c] [Ho Hg]. by apply emits_ret.
  - eapply emits_bind; [apply httpd_getFileWriter_emits|]. intros [x c] [Ho Hg]. by apply emits_ret.
Qed.

(** what closing a file may change *)
Definition authorized_or_times (e : effect) : Prop := authorized e ∨ (mtime ≠ 0 ∧ ∃ v, e = EChtimes v v).
Lemma Close_opened_emits t : opened t → emits authorized_or_times (Close t) anything.
Proof.
  intros Ho. eapply emits_or; [by apply Close_emits|]. intros e [He|(-> & Ha & _)]; [by left|right].
  split; [|by eexists]. destruct Ho as [_ Hat]. by rewrite <- Hat.
Qed.
Lemma closeIO_emits P t w r : opened t → emits P (closeIO t w r) (fun x => opened x.1).
Proof.
  intros Ho. unfold closeIO, attempt. destruct (File t); [|destruct w as [w|]; [|destruct r]].
  - emits_step; [emits_auto|by apply emits_ret].
  - eapply (emits_bind _ _ _ no_quota_error).
    + apply (emits_try_err _ _ _ _ anything not_quota); [emits_auto| |intros; by apply emits_ret|].
      * apply on_files_err. intros. destruct Herrors as (_ & _ & _ & Hclose). by eapply Hclose.
      * intros e He. apply emits_ret. by intros ? [= <-].
    + intros err He. apply emits_ret. destruct err; [|done]. apply TransferError_opened; [done|]. intros _. by apply He.
  - emits_step; [emits_auto|by apply emits_ret].
  - by apply emits_ret.
Qed.
Lemma close_transfer_emits t w r : opened t → emits authorized_or_times (close_transfer t w r) anything.
Proof.
  intros Ho. unfold close_transfer. eapply emits_bind; [by apply closeIO_emits|]. intros [t' err] Ho'.
  eapply emits_bind; [by apply Close_opened_emits|]. intros [? ?] _. by apply emits_ret.
Qed.
#[local] Hint Resolve close_transfer_emits : emits.
Lemma close_handle_emits h : handle_ok h → emits authorized_or_times (close_handle h) anything.
Proof.
  intros [Ho _]. destruct h as [x|x|x|x]; cbn [close_handle base_of] in *; (emits_step; [|by apply emits_ret]).
  - unfold sftpd_Close, sftpd_setFinished. destruct (SftpTransfer.isFinished x); emits_auto.
  - unfold ftpd_Close, ftpd_setFinished. destruct (FtpTransfer.isFinished x); emits_auto.
  - unfold webdav_Close, webdav_setFinished. destruct (webDavFile.isFinished x); [by apply emits_ret|].
    eapply emits_bind; [by apply closeIO_emits|]. intros [t' err] Ho'. cbv zeta. emits_step; [|emits_auto].
    destruct (isTransfer _); [|emits_auto]. emits_step; [by apply Close_opened_emits|]. emits_auto.
  - unfold httpd_Close, httpd_setFinished. destruct (HttpdFile.isFinished x); emits_auto.
Qed.

(** ** Commands *)

Lemma remove_steps_emits v e : emits authorized ('(f, p) ← GetFsAndResolvedPath v; fi ← fs_call f (look (fs_Lstat f p));
  _ ← fail_if (FileInfo.IsDir fi && negb (FileInfo.IsSymlink fi)) e; RemoveFile f p v fi) anything.
Proof. emits_auto. Qed.
Lemma run_command_emits a b c fuel o : emits authorized (run_command a b c mtime fuel o) anything.
Proof.
  destruct o; cbn [run_command].
  1: unfold Filecmd, handleSFTPSetstat, handleSFTPRemove.
  2: unfold Filelist. 3: unfold sftpd_Lstat. 4: unfold Readlink. 5: unfold RealPath. 6: unfold sftpd_StatVFS.
  7: unfold ftpd_Mkdir. 8: apply remove_steps_emits. 8: unfold ftpd_RemoveDir. 9: apply Rename_emits.
  9: unfold ftpd_Symlink. 10: unfold ftpd_Chmod. 11: unfold ftpd_Chtimes. 12: unfold ftpd_Stat.
  13: unfold ftpd_ReadDir, getListDirWithWildcards. 14: unfold GetAvailableSpace. 15: unfold webdav_Mkdir. 16: unfold webdav_Rename.
  17: unfold webdav_Stat. 18: unfold webdav_RemoveAll. 19: unfold httpd_Stat. 20: unfold httpd_ReadDir.
  all: cbv zeta; emits_auto.
Qed.

End props.

(** ** A session *)

#[local] Existing Instance sample_settings.
Section sample.
#[local] Instance local_storage : Storage := toy false.
#[local] Existing Instance toy_hooks.
#[local] Instance owner : Env := toy_env (toy_user [("/", [PermAny])] []).

Lemma toy_stat_err p w e : toy_stat p w = Err e → e = toy_missing.
Proof. unfold toy_stat. destruct (w !! p); congruence. Qed.
Lemma toy_storage_errors : storage_errors.
Proof.
  split_and!; [|done| |done].
  - intros f p o w e He. change ((i ← toy_stat p w; Ok (FileInfo.Size i) : res Z) = Err e) in He.
    destruct (toy_stat p w) eqn:Ht; [done|]. apply toy_stat_err in Ht as ->. by simplify_eq/=.
  - intros f p w e ->%toy_stat_err. reflexivity.
Qed.

Definition sample_request (p : string) : SftpRequest.t :=
  SftpRequest.mk "Put" p "" (FileOpenFlags.mk false true false true true false) false false false false (StatAttributes.mk 0 0 0 0 0 0 0).
Definition sample_session : list file_op := [DoWrite 0 (5, None); DoWrite 5 (0, Some EOF)].

End sample.
