(* ===== verification/HandlerLimits.v ===== *)
(** Where the protocol servers do less than they mean to: a limit that counts a
    replaced file twice ([http_overwrite_exceeds_quota]), a refused upload that
    loses the file it was to replace ([refused_http_upload_moves_file]), bytes
    that no quota counts ([webdav_seek_loses_quota]), a time set without the
    permission ([header_time_without_permission]), a copy of a file that may not
    be read ([copy_reads_denied_file]), and transfers that cannot be stopped
    ([aborts_reach_http_not_sftp]). *)
From S2P Require Import Prelude GoPath Util Net FsConfig FsValidate Entities Links Tables MemoryCore MemoryOps UserPerms MemoryQueries ValidateUser ValidateObjects Quota ConnData Connection ConnectionOps ConnectionCopy Effects ConnectionProps TransfersChecker Transfers Streams SftpHandlers FtpHandlers WebDavHandlers HttpHandlers Handlers Samples ValidateUserProps ToyStorage.
Open Scope Z_scope.
#[local] Existing Instance sample_settings.
#[local] Existing Instance toy_hooks.

(** A connection over a protocol, with an upload mode. *)
Definition handler_env `{Storage} (protocol : string) (mode : Z) (check : PatternsFilter.t → string → bool) (u : User.t) : Env := {|
  env_cfg := CommonConfig.mk 0 0 mode "" false 1 0 0; env_now := clock; env_CheckAllowed := check; env_range := elements;
  env_range_perms := map_to_list; env_conn := BaseConnection.mk "1" u protocol "10.0.0.1:2022" "" |}.
Definition owner_user : User.t := toy_user [("/", [PermAny])] [].
Definition used_size `{Storage} (s : Conn.t) : res (Z * Z) :=
  '(files, size, _, _) ← Api_GetUsedQuota 1 "alice" (Conn.quotas s); Ok (files, size).
Definition transferred `{Storage} (s : Conn.t) : res (Z * Z) :=
  '(_, _, ul, dl) ← Api_GetUsedQuota 1 "alice" (Conn.quotas s); Ok (ul, dl).

(** [r ← open; ...]: the state and the handle after opening a file *)
Definition opening `{Storage, Hooks, Settings, Env} (method : string) (mtime : Z) (q : open_request) (s : Conn.t) : res handle * Conn.t :=
  open_file "" method mtime 1 2 "10.0.0.1" q s.
Definition session `{Storage, Hooks, Settings, Env} (ops : list file_op) (h : handle) (s : Conn.t) : Conn.t :=
  ((h ← run_ops ops h; close_handle h) s).2.

#[local] Instance sample_storage : Storage := toy false.
(** the folder /d is on a local storage, the rest on an object storage *)
Definition local_folder : VirtualFolder.t :=
  (mk_vfolder "docs" "/d") <| VirtualFolder.QuotaSize := -1 |> <| VirtualFolder.QuotaFiles := -1 |>.
Definition limited_user : User.t := (toy_user [("/", [PermAny])] [local_folder]) <| User.QuotaSize := 100 |>.
(** [alice] has one file on record, of this size *)
Definition start (files : list (string * option Z)) (used : Z) : Conn.t :=
  let s := toy_conn false files in
  s <| Conn.quotas := (UpdateUserQuota clock 1 0 limited_user 1 used false (Conn.quotas s)).2 |>.

Section http_sample.
#[local] Instance http_env : Env := handler_env ProtocolHTTP 1 (fun _ _ => true) limited_user.

(** An HTTP upload over a file of 40 bytes, with 90 of the 100 bytes of the quota
    used: 50 bytes would fit, and 90 are accepted; the quota is then 140. *)
Theorem http_overwrite_exceeds_quota :
  match opening "" 0 (HttpOpenWrite "/f") (start [("/", None); ("/f", Some 40)] 90) with
  | (Ok h, s1) =>
      let s1 := s1 <| Conn.files := <["/f" := Some 90]> (Conn.files s1 : toy_world) |> in
      used_size s1 = Ok (1, 90) ∧
      (match h with HHttp x => (httpd_Write (90, None) x).2 = (90, None) | _ => False end) ∧
      used_size (session [DoWrite 0 (90, None)] h s1) = Ok (1, 140)
  | _ => False
  end ∧ User.QuotaSize limited_user = 100.
Proof. split; [|reflexivity]. vm_compute. by split_and!. Qed.

(** An HTTP upload with atomic uploads that is refused because the quota is
    exceeded: the file it was to replace is left at the temporary path. *)
Theorem refused_http_upload_moves_file :
  match opening "" 0 (HttpOpenWrite "/d/f") (start [("/", None); ("/d/f", Some 40)] 100) with
  | (Err e, s1) => e = ErrQuotaExceeded ∧ (Conn.files s1 : toy_world) !! "/d/f" = None ∧ (Conn.files s1 : toy_world) !! "/d/f.tmp" = Some (Some 40)
  | _ => False
  end.
Proof. vm_compute. by split_and!. Qed.
End http_sample.

Section webdav_sample.
Definition quota_user : User.t := owner_user <| User.TotalDataTransfer := 1 |>.
#[local] Instance webdav_env : Env := handler_env ProtocolWebDAV 0 (fun _ _ => true) quota_user.

(** The bytes read before a seek are not counted in the transfer quota. *)
Theorem webdav_seek_loses_quota :
  match opening "GET" 0 (DavOpen "/f" 0) (start [("/", None); ("/f", Some 40)] 40) with
  | (Ok h, s1) =>
      transferred (session [DoRead (30, None); DoRead (20, None)] h s1) = Ok (0, 50) ∧
      transferred (session [DoRead (30, None); DoSeek 10 SeekStart; DoRead (20, None)] h s1) = Ok (0, 20)
  | _ => False
  end.
Proof. vm_compute. by split_and!. Qed.
End webdav_sample.

Section times_sample.
Definition uploader : User.t := toy_user [("/", [PermListItems; PermUpload])] [].
#[local] Instance times_env : Env := handler_env ProtocolWebDAV 0 (fun _ _ => true) uploader.

(** The modification time of the header of a WebDAV upload is set for a user
    without the permission to change times. *)
Theorem header_time_without_permission :
  match opening "PUT" 7 (DavOpen "/g" 577) (start [("/", None)] 0) with
  | (Ok h, s1) => Conn.effects (session [DoWrite 0 (20, None)] h s1) = [ECreate "/g" true; EChtimes "/g" "/g"]
  | _ => False
  end ∧ ¬ authorized (EChtimes "/g" "/g").
Proof. split; [vm_compute; reflexivity|]. intros [H _]. vm_compute in H. discriminate H. Qed.
End times_sample.

Section patterns_sample.
#[local] Instance patterns_env : Env := handler_env ProtocolSFTP 0 (fun _ name => negb (name =s "secret.zip")) owner_user.

(** A file the patterns deny, which cannot be opened for reading, is copied to a
    name they allow. *)
Theorem copy_reads_denied_file :
  let s := start [("/", None); ("/secret.zip", Some 40)] 40 in
  let read p s := is_ok (opening "" 0 (SftpOpenRead (SftpRequest.mk "Get" p "" (FileOpenFlags.mk true false false false false false)
                    false false false false (StatAttributes.mk 0 0 0 0 0 0 0))) s).1 in
  let s' := (Copy 5 "/secret.zip" "/copy.txt" s).2 in
  read "/secret.zip" s = false ∧ (Copy 5 "/secret.zip" "/copy.txt" s).1 = Ok tt ∧ read "/copy.txt" s' = true.
Proof. cbn zeta. split_and!; vm_compute; reflexivity. Qed.
End patterns_sample.

(** * Transfers that are aborted *)

Section aborts.
Context {St : Storage} {Hk : Hooks} {Cfg : Settings} {E : Env}.

(** After [SignalClose] a transfer over HTTP or WebDAV moves nothing, whatever
    the storage would give; a transfer over SFTP or FTP goes on as before. *)
Theorem aborts_reach_http_not_sftp (e : error) (off : Z) (io : io_result) :
  (∀ x, let x' := x <| HttpdFile.Base ::= SignalClose (Some e) |> in
     (httpd_Read io x').2 = (0, Some e) ∧ (httpd_Write io x').2 = (0, Some e)) ∧
  (∀ x s, let x' := x <| webDavFile.Base ::= SignalClose (Some e) |> in
     webdav_Read io x' s = (Ok (x', (0, Some errTransferAborted)), s) ∧ webdav_Write io x' = (x', (0, Some errTransferAborted))) ∧
  (∀ x, let x' := x <| SftpTransfer.Base ::= SignalClose (Some e) |> in
     (sftpd_ReadAt io x').2 = (sftpd_ReadAt io x).2 ∧ (sftpd_WriteAt off io x').2 = (sftpd_WriteAt off io x).2) ∧
  (∀ x, let x' := x <| FtpTransfer.Base ::= SignalClose (Some e) |> in
     (ftpd_Read io x').2 = (ftpd_Read io x).2 ∧ (ftpd_Write io x').2 = (ftpd_Write io x).2).
Proof.
  assert (∀ b io t, (after_read b io (SignalClose (Some e) t)).2 = (after_read b io t).2) as Hr.
  { intros b [n err] t. unfold after_read. change (CheckRead (SignalClose (Some e) t <| BaseTransfer.BytesSent ::= _ |>))
      with (CheckRead (t <| BaseTransfer.BytesSent ::= fun b => add64 b n |>)). 
    destruct (match err with Some _ => err | None => _ end); [|done]. destruct (is_error _ _); [done|]. destruct b; [|done].
    unfold TransferError. cbn. by destruct (BaseTransfer.ErrTransfer t). }
  assert (∀ io t, (after_write io (SignalClose (Some e) t)).2 = (after_write io t).2) as Hw.
  { intros [n err] t. unfold after_write. change (CheckWrite (SignalClose (Some e) t <| BaseTransfer.BytesReceived ::= _ |>))
      with (CheckWrite (t <| BaseTransfer.BytesReceived ::= fun b => add64 b n |>)).
    destruct (match err with Some _ => err | None => _ end); [|done]. unfold TransferError. cbn. by destruct (BaseTransfer.ErrTransfer t). }
  split_and!; intros x; [done|done|..]; cbv zeta; split.
  - unfold sftpd_ReadAt. cbn [SftpTransfer.readerAt SftpTransfer.Base setter]. destruct (SftpTransfer.readerAt x) as [rd|]; [|done].
    specialize (Hr (BaseTransfer.transferType (SftpTransfer.Base x) =? TransferDownload) (match rd with Failing _ e => (0, Some e) | _ => io end) (SftpTransfer.Base x)).
    cbn in Hr |- *. by destruct (after_read _ _ _), (after_read _ _ _).
  - unfold sftpd_WriteAt. cbn. destruct (_ <? _); [done|]. destruct (SftpTransfer.writerAt x); [|done].
    specialize (Hw io (SftpTransfer.Base x)). cbn in Hw |- *. by destruct (after_write _ _), (after_write _ _).
  - unfold ftpd_Read. cbn. destruct (FtpTransfer.reader x); [|done].
    specialize (Hr true io (FtpTransfer.Base x)). cbn in Hr |- *. by destruct (after_read _ _ _), (after_read _ _ _).
  - unfold ftpd_Write. cbn. destruct (FtpTransfer.writer x); [|done].
    specialize (Hw io (FtpTransfer.Base x)). cbn in Hw |- *. by destruct (after_write _ _), (after_write _ _).
Qed.
End aborts.
