(* ===== verification/MemoryProps.v ===== *)
(** The theorems about the in-memory data provider. *)
From S2P Require Import Prelude FsConfig Entities Links Tables MemoryCore MemoryOps MemoryInv.
From S2P Require Import MemoryAccounts MemoryObjects MemoryShares Atomic MemorySpec ObjectSpec MemoryQueries Samples.
Open Scope Z_scope.

(** A name list enumerates the keys of its table, sorted and without
    repetition, and every object is stored under its own name. *)
Definition enumerates {A} (names : list string) (name : A → string) (m : gmap string A) : Prop :=
  StronglySorted String.le names ∧ NoDup names ∧ (∀ k, k ∈ names ↔ is_Some (m !! k)) ∧
  ∀ k a, m !! k = Some a → name a = k.

Lemma table_enumerates {A} names (name : A → string) m : table_ok names (name <$> m) → enumerates names name m.
Proof.
  intros [H1 H2]. destruct (names_ok_sorted _ _ H1) as [Hs Hn]. split_and!; [done..| |].
  - intros k. rewrite (names_ok_elem _ _ _ H1), dom_fmap_L. apply elem_of_dom.
  - intros k a Hk. apply (H2 k). by rewrite lookup_fmap, Hk.
Qed.

Section props.
Context `{!Validate User.t, !Validate Group.t, !Validate Admin.t, !Validate Role.t,
  !Validate BaseVirtualFolder.t, !Validate APIKey.t, !Validate Share.t, !Validate BaseEventAction.t,
  !Validate EventRule.t, !Validate IPListEntry.t, !Validate Configs.t}.
Context {VN : ValidNames}.
Implicit Types now : nat → Z.

(** * The invariant *)

(** C1: Every state-changing method of the provider keeps the invariant of the
    store when it succeeds; when it fails, so do all but addUser, updateUser,
    addAdmin, updateAdmin, updateGroup and updateEventRule.  (A share that is
    added must not reuse an identifier.) *)
Theorem exec_preserves_wf now o h r h' :
  wf h → fresh_share o h → exec now o h = (r, h') → is_ok r = true ∨ rollback_incomplete o = false → wf h'.
Proof. apply exec_wf. Qed.

(** In every state that is [reachable] each of the ten sorted name slices enumerates
    exactly the keys of its map, without repetition, and every object is stored
    under its own name. *)
Theorem reachable_name_lists h : reachable h →
  enumerates (DB.usernames h) User.Username (DB.users h) ∧
  enumerates (DB.groupnames h) Group.Name (DB.groups h) ∧
  enumerates (DB.vfoldersNames h) BaseVirtualFolder.Name (DB.vfolders h) ∧
  enumerates (DB.adminsUsernames h) Admin.Username (DB.admins h) ∧
  enumerates (DB.apiKeysIDs h) APIKey.KeyID (DB.apiKeys h) ∧
  enumerates (DB.sharesIDs h) Share.ShareID (DB.shares h) ∧
  enumerates (DB.actionsNames h) BaseEventAction.Name (DB.actions h) ∧
  enumerates (DB.rulesNames h) EventRule.Name (DB.rules h) ∧
  enumerates (DB.roleNames h) Role.Name (DB.roles h) ∧
  enumerates (DB.ipListEntriesKeys h) ipentry_getKey (DB.ipListEntries h).
Proof. intros W%reachable_wf. split_and!; apply table_enumerates, W. Qed.

(** In every state that is [reachable] an API key or a share belongs to an account
    that exists. *)
Theorem reachable_owners h : reachable h →
  (∀ k v, DB.apiKeys h !! k = Some v →
     (APIKey.User v = "" ∨ is_Some (DB.users h !! APIKey.User v)) ∧
     (APIKey.Admin v = "" ∨ is_Some (DB.admins h !! APIKey.Admin v))) ∧
  (∀ k s, DB.shares h !! k = Some s → Share.Username s = "" ∨ is_Some (DB.users h !! Share.Username s)).
Proof.
  intros W%reachable_wf. setoid_rewrite <-elem_of_dom. split; [intros k v Hv; split|intros k s Hs].
  - apply (wf_key_user _ W k). by rewrite lookup_fmap, Hv.
  - apply (wf_key_admin _ W k). by rewrite lookup_fmap, Hv.
  - apply (wf_share_user _ W k). by rewrite lookup_fmap, Hs.
Qed.

(** * Failures *)

(** A method that fails leaves the store exactly as it was, apart from the
    six methods with an incomplete rollback and the two that undo their steps. *)
Theorem failed_call_changes_nothing now o h e h' :
  rollback_incomplete o = false → undoes o = false → exec now o h = (Err e, h') → h' = h.
Proof. intros H1 H2. by apply exec_atomic. Qed.

(** Whatever method fails in a well-formed store, users, admins, API keys,
    shares, event rules, IP list entries, configurations and all the name lists
    are as before, and so are the names of the roles, groups, folders and
    actions: only back-references can be different. *)
Theorem failed_call_keeps_objects now o h e h' : wf h → exec now o h = (Err e, h') → keeps h h'.
Proof. intros W. apply exec_fail_keeps. apply W. Qed.

(** A closed provider never changes: every method returns
    errMemoryProviderClosed, but setUpdatedAt, which returns nothing. *)
Theorem closed_provider_is_frozen now o h : DB.isClosed h = true →
  (exec now o h).2 = h ∧ (is_ok (exec now o h).1 = true → ∃ u, o = SetUpdatedAt u).
Proof. apply exec_closed. Qed.

(** * Users *)

(** C24: addUser succeeds exactly when the provider is open, the validated user
    has a new name and its role, groups and folders exist; it then stores under
    its name, and returns, the user with the next identifier, zeroed counters
    and sorted groups and folders, and no other user is touched. *)
Theorem addUser_correct now u h v : wf h → validate u h = Ok v →
  let r := (addUser now u h).1 in let h' := (addUser now u h).2 in
  (is_ok r = true ↔ addable v h) ∧
  (is_ok r = true → r = Ok (new_user now h v) ∧
     DB.users h' = <[User.Username v := user_getACopy (new_user now h v)]> (DB.users h)).
Proof.
  intros W Hv. cbv zeta. destruct (addUser_result now u h v W Hv) as [(H1 & -> & H2)|(H1 & e & ->)]; simpl; naive_solver.
Qed.

(** The rollback of addUser is not complete: when the role exists but a
    group does not, the user is not added, and yet its name stays in the
    Users of the role. *)
Theorem addUser_dangling_role now u h v g : validate u h = Ok v → DB.isClosed h = false →
  User.Username v ∉ dom (DB.users h) → User.Role v ∈ dom (DB.roles h) → User.Role v ≠ "" →
  g ∈ user_groupnames v → g ∉ dom (DB.groups h) →
  ∃ e h' r, addUser now u h = (Err e, h') ∧ DB.users h' = DB.users h ∧
    DB.roles h' !! User.Role v = Some r ∧ User.Username v ∈ Role.Users r.
Proof. apply addUser_leaves_role. Qed.

(** After deleteUser the name is gone from the list of users, and no role,
    group, folder, API key or share refers to it. *)
Theorem deleteUser_no_references u h x h' : wf h → deleteUser u h = (Ok x, h') →
  User.Username u ∉ DB.usernames h' ∧
  (∀ k r, DB.roles h' !! k = Some r → User.Username u ∉ Role.Users r) ∧
  (∀ k g, DB.groups h' !! k = Some g → User.Username u ∉ Group.Users g) ∧
  (∀ k f, DB.vfolders h' !! k = Some f → User.Username u ∉ BaseVirtualFolder.Users f) ∧
  (∀ k v, DB.apiKeys h' !! k = Some v → APIKey.User v ≠ User.Username u) ∧
  (∀ k v, DB.shares h' !! k = Some v → Share.Username v ≠ User.Username u).
Proof. apply deleteUser_gone. Qed.

(** UpdateQuota on a stored user of an open provider succeeds and sets the
    two counters on a reset; otherwise it adds to them, wrapping around at 64
    bits. *)
Theorem updateQuota_correct now username files size reset h u : wf h → DB.isClosed h = false →
  DB.users h !! username = Some u →
  let h' := (updateQuota now username files size reset h).2 in
  (updateQuota now username files size reset h).1 = Ok tt ∧
  used_files username h' = Some (if reset then files else add64 (User.UsedQuotaFiles u) files) ∧
  used_size username h' = Some (if reset then size else add64 (User.UsedQuotaSize u) size).
Proof. apply updateQuota_counters. Qed.

(** UpdateUser, when it succeeds, replaces the stored user by the validated
    one, but for the identifier, the creation date, the counters of the quota
    and the login dates, which stay those of the stored user. *)
Theorem updateUser_keeps_usage now u h v x h' : wf h → validate u h = Ok v → updateUser now u h = (Ok x, h') →
  ∃ u0, DB.users h !! User.Username v = Some u0 ∧ x = updated_user now (user_getACopy u0) v ∧
    DB.users h' = <[User.Username v := user_getACopy x]> (DB.users h) ∧ DB.lastUserUpdate h' = now 1%nat.
Proof. apply updateUser_users. Qed.

(** The rollback of updateUser is not complete: when a group of the new
    version does not exist, the stored users are unchanged, and yet the role of
    the new version lists the user. *)
Theorem updateUser_dangling_role now u h v u0 g : validate u h = Ok v → DB.isClosed h = false →
  DB.users h !! User.Username v = Some u0 → User.Role v ∈ dom (DB.roles h) → User.Role v ≠ "" →
  g ∈ user_groupnames v → g ∉ dom (DB.groups h) → folders_keyed h →
  ∃ e h' r, updateUser now u h = (Err e, h') ∧ DB.users h' = DB.users h ∧
    DB.roles h' !! User.Role v = Some r ∧ User.Username v ∈ Role.Users r.
Proof. apply updateUser_leaves_role. Qed.

(** * The other objects *)

(** A group some user belongs to, a role some admin has and an event action
    some rule runs cannot be deleted: the call fails and changes nothing. *)
Theorem referenced_objects_stay h : wf h → DB.isClosed h = false →
  (∀ g k u, DB.users h !! k = Some u → Group.Name g ∈ user_groupnames u →
     deleteGroup g h = (Err (ValidationError "the group is referenced, it cannot be removed"), h)) ∧
  (∀ r k a, DB.admins h !! k = Some a → Role.Name r ∈ admin_roles a →
     deleteRole r h = (Err (ValidationError "the role is referenced, it cannot be removed"), h)) ∧
  (∀ a k r, DB.rules h !! k = Some r → BaseEventAction.Name a ∈ rule_actionnames r →
     deleteEventAction a h = (Err (ValidationError "action is referenced, it cannot be removed"), h)).
Proof.
  intros W Hc. split_and!; intros.
  - by eapply deleteGroup_refused.
  - by eapply deleteRole_refused.
  - by eapply deleteEventAction_refused.
Qed.

(** After a role, a folder or a group is deleted no user, admin or group
    refers to it any more. *)
Theorem deletions_remove_references h h' x : wf h →
  (∀ r, deleteRole r h = (Ok x, h') → ∀ k u, DB.users h' !! k = Some u → Role.Name r ∉ user_roles u) ∧
  (∀ f, deleteFolder f h = (Ok x, h') →
     (∀ k u, DB.users h' !! k = Some u → BaseVirtualFolder.Name f ∉ user_foldernames u) ∧
     (∀ k g, DB.groups h' !! k = Some g → BaseVirtualFolder.Name f ∉ group_foldernames g)) ∧
  (∀ g, deleteGroup g h = (Ok x, h') →
     (∀ k u, DB.users h' !! k = Some u → Group.Name g ∉ user_groupnames u) ∧
     (∀ k a, DB.admins h' !! k = Some a → Group.Name g ∉ admin_groupnames a)).
Proof.
  intros W. split_and!.
  - intros r H. pose proof (deleteRole_wf _ _ _ _ W H) as W'. apply deleteRole_roles in H.
    eapply linked_unused; [apply W'|done].
  - intros f H. pose proof (deleteFolder_wf _ _ _ _ W H) as W'. apply deleteFolder_folders in H; [|done].
    split; (eapply linked_unused; [apply W'|done]).
  - intros g H. pose proof (deleteGroup_wf _ _ _ _ W H) as W'. apply deleteGroup_groups in H.
    split; (eapply linked_unused; [apply W'|done]).
Qed.

(** As long as no identifier has reached the largest 64-bit integer, the
    next identifier of a user, folder, admin, group, event action, event rule
    and role is positive and larger than all in use, and it does not depend on
    the order in which Go visits the map. *)
Theorem next_ids_are_new h :
  (ids_below User.ID (DB.users h) → is_new_id User.ID (DB.users h) (getNextID h)) ∧
  (ids_below BaseVirtualFolder.ID (DB.vfolders h) →
     is_new_id BaseVirtualFolder.ID (DB.vfolders h) (getNextFolderID h)) ∧
  (ids_below Admin.ID (DB.admins h) → is_new_id Admin.ID (DB.admins h) (getNextAdminID h)) ∧
  (ids_below Group.ID (DB.groups h) → is_new_id Group.ID (DB.groups h) (getNextGroupID h)) ∧
  (ids_below BaseEventAction.ID (DB.actions h) →
     is_new_id BaseEventAction.ID (DB.actions h) (getNextActionID h)) ∧
  (ids_below EventRule.ID (DB.rules h) → is_new_id EventRule.ID (DB.rules h) (getNextRuleID h)) ∧
  (ids_below Role.ID (DB.roles h) → is_new_id Role.ID (DB.roles h) (getNextRoleID h)).
Proof. split_and!; apply next_id_new. Qed.

(** AddShare looks for an identifier in use among the shares of the same
    user only: with the identifier of another user's share it succeeds, the
    stored share now belongs to the new user, and the sorted list of
    identifiers holds the identifier twice. *)
Theorem addShare_overwrites now s h v s0 : validate s h = Ok v → DB.isClosed h = false →
  DB.shares h !! Share.ShareID v = Some s0 → Share.Username v ≠ Share.Username s0 → Share.Username v ≠ "" →
  Share.Username v ∈ dom (DB.users h) → Share.ShareID v ∈ DB.sharesIDs h →
  ∃ x h', addShare now s h = (Ok x, h') ∧
    (∃ s1, DB.shares h' !! Share.ShareID v = Some s1 ∧ Share.Username s1 = Share.Username v) ∧
    ¬ NoDup (DB.sharesIDs h').
Proof. apply addShare_takes_over. Qed.
End props.

(** * Witnesses: the theorems at the store of [Samples] *)

Import Validators.

(** The hypotheses about a lookup, evaluated on the sample. *)
Ltac sampled := vm_compute; congruence.
Definition user_at (name : string) : User.t := entry User.zero (DB.users sample) name.
Lemma sample_user name : is_ok (userExistsInternal name sample) = true → DB.users sample !! name = Some (user_at name).
Proof. unfold userExistsInternal, existsIn, user_at, entry. by destruct (DB.users sample !! name). Qed.

Lemma exec_preserves_wf_witness : wf (exec clock (DeleteFolder (mk_folder "docs")) sample).2.
Proof.
  apply (exec_preserves_wf clock (DeleteFolder (mk_folder "docs")) sample _ _ sample_wf I (surjective_pairing _)).
  left. by vm_compute.
Defined.

Lemma reachable_name_lists_witness : enumerates (DB.usernames sample) User.Username (DB.users sample).
Proof. apply (reachable_name_lists sample sample_reachable). Defined.

Definition k1 : APIKey.t := entry APIKey.zero (DB.apiKeys sample) "k1".
Lemma reachable_owners_witness :
  APIKey.User k1 = "alice" ∧ (APIKey.User k1 = "" ∨ is_Some (DB.users sample !! APIKey.User k1)).
Proof.
  split; [by vm_compute|].
  apply (proj1 (reachable_owners sample sample_reachable) "k1" k1). by vm_compute.
Defined.

Definition failing_group : op := DeleteGroup (mk_group "dev" []).
Lemma failed_call_changes_nothing_witness :
  is_ok (exec clock failing_group sample).1 = false ∧ (exec clock failing_group sample).2 = sample.
Proof.
  split; [by vm_compute|].
  apply (failed_call_changes_nothing clock failing_group sample
    (ValidationError "the group is referenced, it cannot be removed")); [done|done|].
  by vm_compute.
Defined.

Definition failing_user : op := AddUser (mk_user "dave" "staff" ["nowhere"] []).
Lemma failed_call_keeps_objects_witness : keeps sample (exec clock failing_user sample).2.
Proof.
  apply (failed_call_keeps_objects clock failing_user sample (RecordNotFoundError "group" "nowhere") _ sample_wf).
  by vm_compute.
Defined.

Definition closed_sample : DB.t := sample <| DB.isClosed := true |>.
Lemma closed_provider_is_frozen_witness : (exec clock failing_user closed_sample).2 = closed_sample.
Proof. by apply (proj1 (closed_provider_is_frozen clock failing_user closed_sample eq_refl)). Defined.

Definition new_bob : User.t := mk_user "dan" "audit" ["ops"; "dev"] [mk_vfolder "docs" "/d"].
Lemma addUser_correct_witness :
  is_ok (addUser clock new_bob sample).1 = true ∧ (addUser clock new_bob sample).1 = Ok (new_user clock sample new_bob).
Proof.
  assert (is_ok (addUser clock new_bob sample).1 = true) as H by (by vm_compute).
  split; [done|]. by apply (proj2 (addUser_correct clock new_bob sample new_bob sample_wf eq_refl)).
Defined.

Definition new_dave : User.t := mk_user "dave" "staff" ["nowhere"] [].
Lemma addUser_dangling_role_witness :
  ∃ e h' r, addUser clock new_dave sample = (Err e, h') ∧ DB.users h' = DB.users sample ∧
    DB.roles h' !! "staff" = Some r ∧ "dave" ∈ Role.Users r.
Proof.
  apply (addUser_dangling_role clock new_dave sample new_dave "nowhere").
  - done.
  - done.
  - apply not_elem_of_dom. by vm_compute.
  - apply elem_of_dom, not_eq_None_Some. sampled.
  - done.
  - by apply list_elem_of_singleton.
  - apply not_elem_of_dom. by vm_compute.
Defined.

Definition alice : User.t := mk_user "alice" "" [] [].
Lemma deleteUser_no_references_witness : "alice" ∉ DB.usernames (deleteUser alice sample).2.
Proof.
  assert (deleteUser alice sample = (Ok tt, (deleteUser alice sample).2)) as H by (by vm_compute).
  apply (proj1 (deleteUser_no_references alice sample tt _ sample_wf H)).
Defined.

Lemma updateQuota_correct_witness :
  used_files "alice" (updateQuota clock "alice" 3 100 false sample).2 = Some 3.
Proof.
  assert (is_ok (userExistsInternal "alice" sample) = true) as H by (by vm_compute).
  apply (proj1 (proj2 (updateQuota_correct clock "alice" 3 100 false sample (user_at "alice") sample_wf eq_refl
    (sample_user _ H)))).
Defined.

Definition alice_v2 : User.t := mk_user "alice" "" ["ops"] [].
Lemma updateUser_keeps_usage_witness :
  ∃ x, (updateUser clock alice_v2 sample).1 = Ok x ∧ User.ID x = 1 ∧ User.CreatedAt x = User.CreatedAt (user_at "alice").
Proof.
  destruct (updateUser clock alice_v2 sample) as [[x|e] h'] eqn:H; [|by vm_compute in H].
  exists x. split; [done|].
  destruct (updateUser_keeps_usage clock alice_v2 sample alice_v2 x h' sample_wf eq_refl H) as (u0 & Hu0 & -> & _).
  change (DB.users sample !! "alice" = Some u0) in Hu0. rewrite (sample_user "alice") in Hu0 by (by vm_compute). injection Hu0 as <-. by vm_compute.
Defined.

Definition alice_v3 : User.t := mk_user "alice" "audit" ["nowhere"] [].
Lemma updateUser_dangling_role_witness :
  ∃ e h' r, updateUser clock alice_v3 sample = (Err e, h') ∧ DB.users h' = DB.users sample ∧
    DB.roles h' !! "audit" = Some r ∧ "alice" ∈ Role.Users r.
Proof.
  apply (updateUser_dangling_role clock alice_v3 sample alice_v3 (user_at "alice") "nowhere").
  - done.
  - done.
  - apply sample_user. by vm_compute.
  - apply elem_of_dom, not_eq_None_Some. sampled.
  - done.
  - by apply list_elem_of_singleton.
  - apply not_elem_of_dom. by vm_compute.
  - apply wf_folders_keyed, sample_wf.
Defined.

Lemma referenced_objects_stay_witness :
  deleteGroup (mk_group "dev" []) sample =
    (Err (ValidationError "the group is referenced, it cannot be removed"), sample).
Proof.
  assert (is_ok (userExistsInternal "bob" sample) = true) as H by (by vm_compute).
  apply (proj1 (referenced_objects_stay sample sample_wf eq_refl) (mk_group "dev" []) "bob" (user_at "bob") (sample_user _ H)).
  vm_compute. left.
Defined.

Lemma deletions_remove_references_witness :
  "staff" ∉ user_roles (entry User.zero (DB.users (deleteRole (mk_role "staff") sample).2) "alice").
Proof.
  assert (deleteRole (mk_role "staff") sample = (Ok tt, (deleteRole (mk_role "staff") sample).2)) as H by (by vm_compute).
  apply (proj1 (deletions_remove_references sample _ tt sample_wf) (mk_role "staff") H "alice").
  by vm_compute.
Defined.

Lemma sample_ids : ids_below User.ID (DB.users sample).
Proof.
  assert (bool_decide (Forall (fun kv => User.ID kv.2 < MaxInt64) (map_to_list (DB.users sample))) = true) as H by (by vm_compute).
  apply bool_decide_eq_true in H. rewrite Forall_forall in H.
  intros k v Hk. by apply (H (k, v)), elem_of_map_to_list.
Qed.
Lemma next_ids_are_new_witness : getNextID sample = 4 ∧ is_new_id User.ID (DB.users sample) (getNextID sample).
Proof. split; [by vm_compute|]. apply (proj1 (next_ids_are_new sample) sample_ids). Defined.

(** bob has a share; carol adds one under the same identifier *)
Definition shared_sample : DB.t := Eval vm_compute in (exec clock (AddShare (mk_share "s1" "bob")) sample).2.
Lemma addShare_overwrites_witness :
  ∃ x h', addShare clock (mk_share "s1" "carol") shared_sample = (Ok x, h') ∧
    (∃ s1, DB.shares h' !! "s1" = Some s1 ∧ Share.Username s1 = "carol") ∧ ¬ NoDup (DB.sharesIDs h').
Proof.
  apply (addShare_overwrites clock (mk_share "s1" "carol") shared_sample (mk_share "s1" "carol")
    (entry Share.zero (DB.shares shared_sample) "s1")).
  - done.
  - done.
  - by vm_compute.
  - by vm_compute.
  - done.
  - apply elem_of_dom, not_eq_None_Some. sampled.
  - by apply list_elem_of_singleton.
Defined.
