(* ===== verification/QueryProps.v ===== *)
(** The theorems about the methods that read the in-memory data provider:
    paging, filters, and the search of the IP lists. *)
From S2P Require Import Prelude FsConfig Entities Net Prefix UserPerms IPLists Links Tables MemoryCore MemoryOps MemoryInv.
From S2P Require Import MemoryAccounts MemorySpec UserPerms GroupMerge ObjectSpec MemoryQueries Samples.
Open Scope Z_scope.

(** * Paging *)

(** A client that reads [n] pages of [limit] objects one after the other. *)
Definition read_pages {A} (q : Z → Z → res (list A)) (limit : Z) (n : nat) : res (list A) :=
  foldl (fun acc i => l ← acc; p ← q limit (limit * Z.of_nat i); Ok (l ++ p)) (Ok []) (seq 0 n).

Lemma read_pages_all {A} (q : Z → Z → res (list A)) (all : list A) limit n : 0 < limit →
  (∀ i, q limit (limit * Z.of_nat i) = Ok (take (Z.to_nat limit) (drop (Z.to_nat (limit * Z.of_nat i)) all))) →
  read_pages q limit n = Ok (take (Z.to_nat limit * n) all).
Proof.
  intros Hl Hq. induction n as [|n IH]; [by rewrite Nat.mul_0_r, take_0|].
  unfold read_pages in *. rewrite seq_S, foldl_app, IH. simpl. unfold mbind, res_bind. rewrite Hq. f_equal.
  replace (Z.to_nat limit * S n)%nat with (Z.to_nat limit * n + Z.to_nat limit)%nat by lia.
  rewrite Z2Nat.inj_mul, Nat2Z.id by lia.
  rewrite <-(take_drop (Z.to_nat limit * n) (take (Z.to_nat limit * n + Z.to_nat limit) all)).
  rewrite take_take, Nat.min_l by lia. f_equal. rewrite skipn_firstn_comm. f_equal. lia.
Qed.

(** [q] lists in pages the objects of the names, in the order asked for. *)
Definition lists_in_pages {A} (q : Z → Z → string → DB.t → res (list A)) (names : DB.t → list string)
    (load : DB.t → string → A) (asc : string → bool) (h : DB.t) : Prop :=
  ∀ limit order n, 0 < limit → (length (names h) <= Z.to_nat limit * n)%nat →
    read_pages (fun l o => q l o order h) limit n = Ok (load h <$> (if asc order then names h else reverse (names h))).

Lemma omap_total {A B} (f : A → B) (l : list A) : omap (fun x => Some (f x)) l = f <$> l.
Proof. induction l as [|x l IH]; [done|]. cbn. by f_equal. Qed.

Lemma page_total {A} (f : string → A) asc limit offset names : 0 < limit →
  page no_skip (fun n => Some (f n)) asc limit offset names =
  take (Z.to_nat limit) (drop (Z.to_nat offset) (f <$> (if asc then names else reverse names))).
Proof. intros H. by rewrite page_spec, kept_all, omap_total, fmap_drop. Qed.

Lemma listed {A} (q : Z → Z → string → DB.t → res (list A)) names load asc h :
  (∀ limit offset order, 0 < limit →
     q limit offset order h = Ok (page no_skip (fun n => Some (load h n)) (asc order) limit offset (names h))) →
  lists_in_pages q names load asc h.
Proof.
  intros Hq limit order n Hl Hn. rewrite (read_pages_all _ (load h <$> (if asc order then names h else reverse (names h)))).
  - f_equal. apply take_ge. rewrite length_fmap. destruct (asc order); [|rewrite length_reverse]; lia.
  - done.
  - intros i. by rewrite Hq, page_total.
Qed.

Lemma positive_limit limit : 0 < limit → (limit <? 0) = false ∧ (limit <=? 0) = false.
Proof. lia. Qed.

Definition ascending (order : string) : bool := order =s OrderASC.
Definition not_descending (order : string) : bool := negb (order =s OrderDESC).

(** What a page holds for a name. *)
Definition shown_group (h : DB.t) (name : string) : Group.t :=
  group_PrepareForRendering (addVirtualFoldersToGroup h (group_getACopy (entry Group.zero (DB.groups h) name))).
Definition shown_role (h : DB.t) (name : string) : Role.t := role_getACopy (entry Role.zero (DB.roles h) name).
Definition shown_admin (h : DB.t) (name : string) : Admin.t :=
  admin_HideConfidentialData (admin_getACopy (entry Admin.zero (DB.admins h) name)).
Definition shown_folder (h : DB.t) (name : string) : BaseVirtualFolder.t :=
  folder_PrepareForRendering (folder_GetACopy (entry BaseVirtualFolder.zero (DB.vfolders h) name)).
Definition shown_apikey (h : DB.t) (id : string) : APIKey.t :=
  apikey_HideConfidentialData (apikey_getACopy (entry APIKey.zero (DB.apiKeys h) id)).
Definition shown_action (h : DB.t) (name : string) : BaseEventAction.t :=
  action_PrepareForRendering (action_getACopy (entry BaseEventAction.zero (DB.actions h) name)).
Definition shown_rule (h : DB.t) (name : string) : EventRule.t :=
  rule_PrepareForRendering (addActionsToRule h (rule_getACopy (entry EventRule.zero (DB.rules h) name))).
Definition shown_share (h : DB.t) (id : string) : Share.t :=
  share_HideConfidentialData (share_getACopy (entry Share.zero (DB.shares h) id)).

(** A client that asks an open provider for groups, roles, admins, folders,
    API keys, event actions or event rules page by page gets each of them once,
    in the order asked for, whatever the size of a page. *)
Theorem listings_are_complete h : DB.isClosed h = false →
  lists_in_pages getGroups DB.groupnames shown_group ascending h ∧
  lists_in_pages getRoles DB.roleNames shown_role ascending h ∧
  lists_in_pages getAdmins DB.adminsUsernames shown_admin ascending h ∧
  lists_in_pages getFolders DB.vfoldersNames shown_folder ascending h ∧
  lists_in_pages getAPIKeys DB.apiKeysIDs shown_apikey not_descending h ∧
  lists_in_pages getEventActions DB.actionsNames shown_action ascending h ∧
  lists_in_pages getEventRules DB.rulesNames shown_rule ascending h.
Proof.
  intros Hc. split_and!; apply listed; intros limit offset order [H1 H2]%positive_limit;
    unfold getGroups, getRoles, getAdmins, getFolders, getAPIKeys, getEventActions, getEventRules, with_capacity, when_open;
    by rewrite ?H1, Hc, H2.
Qed.

(** The identifiers of the shares of a user, in the order asked for. *)
Definition own_shares (username order : string) (h : DB.t) : list string :=
  List.filter (fun id => Share.Username (entry Share.zero (DB.shares h) id) =s username)
    (if not_descending order then DB.sharesIDs h else reverse (DB.sharesIDs h)).

Lemma filter_ext_eq {A} (f g : A → bool) l : (∀ x, f x = g x) → List.filter f l = List.filter g l.
Proof. intros H. induction l as [|x l IH]; simpl; [done|]. by rewrite H, IH. Qed.

(** GetShares returns the requested slice of the shares of the user, and
    nothing of other users: reading page by page gives each of them once. *)
Theorem getShares_own h username order limit n : DB.isClosed h = false → 0 < limit →
  (length (own_shares username order h) <= Z.to_nat limit * n)%nat →
  read_pages (fun l o => getShares l o order username h) limit n = Ok (shown_share h <$> own_shares username order h).
Proof.
  intros Hc Hl Hn. rewrite (read_pages_all _ (shown_share h <$> own_shares username order h)); [|done|].
  - f_equal. apply take_ge. by rewrite length_fmap.
  - intros i. destruct (positive_limit limit Hl) as [H1 H2]. unfold getShares, when_open. rewrite Hc, H2.
    rewrite page_spec by done. do 2 f_equal. unfold load_share. rewrite omap_total, <-fmap_drop. do 2 f_equal.
    unfold kept, own_shares. apply filter_ext_eq. intros x. unfold other_share. apply negb_involutive.
Qed.

Definition names_of (r : res (list User.t)) : option (list string) :=
  match r with Ok l => Some (User.Username <$> l) | Err _ => None end.

(** GetUsers counts a user for the offset before it looks at its role: for
    an admin of the role "staff" two different pages of one user hold the same
    user, although two users have that role. *)
Theorem getUsers_pages_overlap :
  names_of (getUsers 1 1 OrderASC "staff" sample) = Some ["carol"] ∧
  names_of (getUsers 1 2 OrderASC "staff" sample) = Some ["carol"] ∧
  names_of (getUsers 10 0 OrderASC "staff" sample) = Some ["alice"; "carol"].
Proof. split_and!; by vm_compute. Qed.

(** * IP lists *)

(** GetListEntriesForIP fails exactly on a text that is not an address;
    otherwise the entries it returns are those of the given list and of the
    family of the address between whose bounds the address lies, as numbers. *)
Theorem getListEntriesForIP_correct h ip listType : wf h → DB.isClosed h = false →
  (∀ k e, DB.ipListEntries h !! k = Some e → entry_bounds_ok e) →
  match ParseAddr ip with
  | None => is_ok (getListEntriesForIP ip listType h) = false
  | Some a => ∃ l, getListEntriesForIP ip listType h = Ok l ∧ ∀ x, x ∈ l ↔
      ∃ k e, DB.ipListEntries h !! k = Some e ∧ IPListEntry.Type_ e = listType ∧ covers e a ∧
        x = ipentry_PrepareForRendering (ipentry_getACopy e)
  end.
Proof.
  apply getListEntriesForIP_spec.
Qed.

(** * Updates others are told about *)

Section updates.
Context `{!Validate User.t, !Validate Group.t, !Validate Admin.t, !Validate Role.t,
  !Validate BaseVirtualFolder.t, !Validate APIKey.t, !Validate Share.t, !Validate BaseEventAction.t,
  !Validate EventRule.t, !Validate IPListEntry.t, !Validate Configs.t}.
Context {VN : ValidNames}.
Variable range : gmap string (list string) → list (string * list string).

Lemma shown_username h u : User.Username (user_SetEmptySecretsIfNil (with_group_settings range h u)) = User.Username u.
Proof.
  unfold with_group_settings. cbn. case_bool_decide; [|done]. by destruct (applyGroupSettings_ext range u (user_group_mapping h u)).
Qed.

(** After an update of a user that succeeds, getRecentlyUpdatedUsers
    reports the user for every time that is not after the update. *)
Theorem updates_are_reported (now : nat → Z) u h v x h' after : wf h → validate u h = Ok v →
  updateUser now u h = (Ok x, h') → after <= now 0%nat → now 0%nat <= now 1%nat →
  ∃ l y, getRecentlyUpdatedUsers range after h' = Ok l ∧ y ∈ l ∧ User.Username y = User.Username v.
Proof.
  intros W Hv H H0 H1. destruct (updateUser_users now u h v x h' W Hv H) as (u0 & Hu0 & -> & Hus & Hlast).
  pose proof (updateUser_open now u h _ h' W H) as Hopen. pose proof (updateUser_wf now u h _ h' W H) as W'.
  set (w := user_getACopy (updated_user now (user_getACopy u0) v)) in *.
  unfold getRecentlyUpdatedUsers. rewrite Hlast. replace (now 1%nat <? after) with false by lia.
  unfold when_open. rewrite Hopen. do 2 eexists. split; [done|].
  rewrite list_elem_of_omap. split.
  - exists (User.Username v). split.
    + rewrite (names_ok_elem _ _ _ (proj1 (wf_users _ W'))), dom_fmap_L, Hus, dom_insert_L. set_solver.
    + unfold entry. rewrite Hus, lookup_insert_eq. cbn [from_option id].
      change (User.UpdatedAt w) with (now 0%nat). replace (now 0%nat <? after) with false by lia. reflexivity.
  - by rewrite shown_username.
Qed.
End updates.

(** * Witnesses *)

Import Validators.

Lemma listings_are_complete_witness :
  read_pages (fun l o => getGroups l o OrderASC sample) 1 2 = Ok (shown_group sample <$> ["dev"; "ops"]).
Proof. apply (proj1 (listings_are_complete sample eq_refl) 1 OrderASC 2%nat); vm_compute; [done|lia]. Defined.

(** alice and bob have two shares each *)
Definition shares_sample : DB.t := Eval vm_compute in
  foldl (fun h s => (addShare clock s h).2) sample
    [mk_share "s1" "alice"; mk_share "s2" "bob"; mk_share "s3" "alice"; mk_share "s4" "bob"].
Lemma getShares_own_witness :
  read_pages (fun l o => getShares l o OrderASC "bob" shares_sample) 1 2 = Ok (shown_share shares_sample <$> ["s2"; "s4"]).
Proof. apply (getShares_own shares_sample "bob" OrderASC 1 2); vm_compute; [done|done|lia]. Defined.

Lemma sample_entries k e : DB.ipListEntries sample !! k = Some e → entry_bounds_ok e.
Proof.
  intros Hk. apply elem_of_map_to_list in Hk.
  change (map_to_list (DB.ipListEntries sample)) with
    [("1_10.0.0.0/8", entry IPListEntry.zero (DB.ipListEntries sample) "1_10.0.0.0/8")] in Hk.
  apply list_elem_of_singleton in Hk as [= _ ->].
  vm_compute. split_and!; repeat constructor; discriminate.
Qed.
Lemma getListEntriesForIP_correct_witness : ∃ l, getListEntriesForIP "::ffff:10.1.2.3" 1 sample = Ok l ∧ length l = 1%nat ∧
  ∀ x, x ∈ l ↔ ∃ k e, DB.ipListEntries sample !! k = Some e ∧ IPListEntry.Type_ e = 1 ∧
    covers e (V6 [0; 0; 0; 0; 0; 0; 0; 0; 0; 0; 255; 255; 10; 1; 2; 3] "") ∧
    x = ipentry_PrepareForRendering (ipentry_getACopy e).
Proof.
  pose proof (getListEntriesForIP_correct sample "::ffff:10.1.2.3" 1 sample_wf eq_refl sample_entries) as H.
  replace (ParseAddr "::ffff:10.1.2.3")
    with (Some (V6 [0; 0; 0; 0; 0; 0; 0; 0; 0; 0; 255; 255; 10; 1; 2; 3] "")) in H by (by vm_compute).
  destruct H as (l & Hl & Hx). exists l. split; [exact Hl|]. split; [|exact Hx].
  assert ((match getListEntriesForIP "::ffff:10.1.2.3" 1 sample with Ok l => length l | Err _ => 0%nat end) = 1%nat) as Hn
    by (by vm_compute).
  by rewrite Hl in Hn.
Defined.

Definition alice_again : User.t := mk_user "alice" "" ["ops"] [].
Definition any_range (m : gmap string (list string)) : list (string * list string) := map_to_list m.
Lemma updates_are_reported_witness : ∃ l y,
  getRecentlyUpdatedUsers any_range 1700000000000 (updateUser clock alice_again sample).2 = Ok l ∧ y ∈ l ∧ User.Username y = "alice".
Proof.
  destruct (updateUser clock alice_again sample) as [[x|e] h'] eqn:H; [|by vm_compute in H].
  apply (updates_are_reported any_range clock alice_again sample alice_again x h' 1700000000000 sample_wf eq_refl H);
    vm_compute; congruence.
Defined.
