(* ===== verification/BackupProps.v ===== *)
(** Restoring a backup: in mode 1 nothing that exists is touched, and the cases
    where a restored object is not the saved one. *)
From S2P Require Import Prelude Util Net FsConfig FsValidate Entities Links Tables MemoryCore MemoryOps MemoryInv MemoryShares Atomic.
From S2P Require Import UserPerms GroupMerge MemoryQueries ValidateUser ValidateObjects IPLists IPListSync Quota Credentials ProviderApi Backup Samples ValidateUserProps.
Open Scope Z_scope.

(** * Actions that stay within a relation *)

Class Within {S A} (R : relation S) (m : M S A) : Prop := within : ∀ s, R s (m s).2.

Section within.
Context {S : Type} {R : relation S} `{!PreOrder R}.
Implicit Types A B : Type.

#[export] Instance within_read_only {A} (m : M S A) : ReadOnly m → Within R m | 5.
Proof. intros H s. by rewrite H. Qed.
#[export] Instance within_fail {A} e : Within R (fail e : M S A).
Proof. by intros s. Qed.
#[export] Instance within_bind {A B} (m : M S A) (k : A → M S B) : Within R m → (∀ a, Within R (k a)) → Within R (m ≫= k) | 4.
Proof.
  intros Hm Hk s. specialize (Hm s). unfold mbind, M_bind. destruct (m s) as [[a|e] s1]; [|done]. by etrans; [|apply Hk].
Qed.
#[export] Instance within_if {A} (c : bool) (m m' : M S A) : Within R m → Within R m' → Within R (if c then m else m').
Proof. by destruct c. Qed.
#[export] Instance within_try {A B} (m : M S A) (k1 : A → M S B) k2 :
  Within R m → (∀ a, Within R (k1 a)) → (∀ e, Within R (k2 e)) → Within R (try_catch m k1 k2).
Proof.
  intros Hm H1 H2 s. specialize (Hm s). unfold try_catch. destruct (m s) as [[a|e] s1]; (etrans; [done|]); [apply H1|apply H2].
Qed.
#[export] Instance within_ignore {A} (m : M S A) : Within R m → Within R (ignore m).
Proof. intros H s. apply H. Qed.
#[export] Instance within_map_or_undo {A} (f u : A → M S unit) mapped todo :
  (∀ a, Within R (f a)) → (∀ a, Within R (u a)) → Within R (map_or_undo f u mapped todo).
Proof.
  intros Hf Hu. revert mapped. induction todo as [|a todo IH]; intros mapped; simpl; [apply _|].
  apply within_try; [apply _|intros; apply IH|]. intros e. apply within_bind; [|apply _].
  induction mapped as [|b mapped IHm]; simpl; apply _.
Qed.
#[export] Instance within_option {A B} (o : option A) (f : A → M S B) m : (∀ a, Within R (f a)) → Within R m →
  Within R (match o with Some a => f a | None => m end).
Proof. destruct o; auto. Qed.
End within.

(** * What an addition does to the objects that exist *)

(** the object an addition writes *)
Inductive slot := SNone | SUser (k : string) | SAdmin (k : string) | SKey (k : string) | SRule (k : string).

(** the users, admins, API keys and event rules are the same, but for one slot *)
Record agree (sl : slot) (h h' : DB.t) : Prop := {
  agree_users : ∀ k, sl ≠ SUser k → DB.users h' !! k = DB.users h !! k;
  agree_admins : ∀ k, sl ≠ SAdmin k → DB.admins h' !! k = DB.admins h !! k;
  agree_keys : ∀ k, sl ≠ SKey k → DB.apiKeys h' !! k = DB.apiKeys h !! k;
  agree_rules : ∀ k, sl ≠ SRule k → DB.rules h' !! k = DB.rules h !! k;
}.
#[export] Instance agree_preorder sl : PreOrder (agree sl).
Proof.
  split; [by split|]. intros x y z [A1 A2 A3 A4] [B1 B2 B3 B4].
  split; intros k Hk; [rewrite B1, A1|rewrite B2, A2|rewrite B3, A3|rewrite B4, A4]; done.
Qed.
Lemma agree_same sl h h' : DB.users h' = DB.users h → DB.admins h' = DB.admins h →
  DB.apiKeys h' = DB.apiKeys h → DB.rules h' = DB.rules h → agree sl h h'.
Proof. intros H1 H2 H3 H4. split; intros; by rewrite ?H1, ?H2, ?H3, ?H4. Qed.

(** no user, admin, API key or event rule is changed or removed *)
Definition grows (h h' : DB.t) : Prop :=
  DB.users h ⊆ DB.users h' ∧ DB.admins h ⊆ DB.admins h' ∧ DB.apiKeys h ⊆ DB.apiKeys h' ∧ DB.rules h ⊆ DB.rules h'.
#[export] Instance grows_preorder : PreOrder grows.
Proof. split; [by intros h|]. intros x y z (?&?&?&?) (?&?&?&?). split_and!; by etrans. Qed.

Lemma subseteq_same {B} (m m' : gmap string B) k0 : m !! k0 = None → (∀ k, k ≠ k0 → m' !! k = m !! k) → m ⊆ m'.
Proof. intros H0 H. apply map_subseteq_spec. intros k v Hk. rewrite H; [done|]. by intros ->; rewrite H0 in Hk. Qed.
Lemma subseteq_all {B} (m m' : gmap string B) : (∀ k, m' !! k = m !! k) → m ⊆ m'.
Proof. intros H. apply map_subseteq_spec. intros k v Hk. by rewrite H. Qed.
(** the slot holds nothing *)
Definition free (sl : slot) (h : DB.t) : Prop :=
  match sl with
  | SNone => True | SUser k => DB.users h !! k = None | SAdmin k => DB.admins h !! k = None
  | SKey k => DB.apiKeys h !! k = None | SRule k => DB.rules h !! k = None
  end.
Lemma agree_grows sl h h' : free sl h → agree sl h h' → grows h h'.
Proof.
  intros Hf [H1 H2 H3 H4]. destruct sl as [|k|k|k|k]; cbn in Hf; (split_and!;
    first [apply subseteq_all; intros ?; (apply H1 || apply H2 || apply H3 || apply H4); done
          |apply (subseteq_same _ _ k); [done|]; intros ??; (apply H1 || apply H2 || apply H3 || apply H4); congruence]).
Qed.
#[export] Instance grows_within {A} (m : prov A) : Within (agree SNone) m → Within grows m | 6.
Proof. intros H h. by apply (agree_grows SNone). Qed.
#[export] Instance within_locked {R : relation DB.t} `{!PreOrder R} {A} (m : prov A) : Within R m → Within R (locked m).
Proof. intros H h. unfold locked. by destruct (DB.isClosed h). Qed.

(** an addition first looks whether the name is free *)
Lemma guarded_grows {A B} sl (found : DB.t → res B) e (rest : prov A) :
  (∀ h, is_ok (found h) = false → free sl h) → Within (agree sl) rest → Within grows (_ ← check_absent found e; rest).
Proof.
  intros Hf Hr h. unfold mbind, M_bind, check_absent. destruct (is_ok (found h)) eqn:E; [done|].
  apply (agree_grows sl); [by apply Hf|apply Hr].
Qed.
Lemma exists_free {B} what copy (m : gmap string B) k : is_ok (existsIn what copy m k) = false → m !! k = None.
Proof. unfold existsIn. by destruct (m !! k). Qed.

(** the tables and name lists that do not count, and the slot that is written *)
Ltac agree_on :=
  let h := fresh in intros h; unfold on, upd, modify; try case_match; apply agree_same; reflexivity.
#[local] Hint Extern 1 (Within (agree _) (on _ _)) => agree_on : typeclass_instances.
#[local] Hint Extern 2 (Within (agree _) (upd _ _)) => agree_on : typeclass_instances.
#[export] Instance agree_put_user k v : Within (agree (SUser k)) (upd DB.users <[k:=v]>) | 0.
Proof. intros h. split; intros j Hj; cbn; [|done..]. apply lookup_insert_ne. congruence. Qed.
#[export] Instance agree_put_admin k v : Within (agree (SAdmin k)) (upd DB.admins <[k:=v]>) | 0.
Proof. intros h. split; intros j Hj; cbn; [done| |done..]. apply lookup_insert_ne. congruence. Qed.
#[export] Instance agree_put_key k v : Within (agree (SKey k)) (upd DB.apiKeys <[k:=v]>) | 0.
Proof. intros h. split; intros j Hj; cbn; [done..| |done]. apply lookup_insert_ne. congruence. Qed.
#[export] Instance agree_put_rule k v : Within (agree (SRule k)) (upd DB.rules <[k:=v]>) | 0.
Proof. intros h. split; intros j Hj; cbn; [done..|]. apply lookup_insert_ne. congruence. Qed.

Ltac mappings := unfold addUserToRole, addUserToGroupMapping, removeUserFromGroupMapping, addUserToFolderMapping,
  addAdminToRole, addAdminToGroupMapping, removeAdminFromGroupMapping, addGroupToFolderMapping,
  removeRelationFromFolderMapping, addRuleToActionMapping, removeRuleFromActionMapping, setLastRuleUpdate, setLastUserUpdate.
Ltac by_guard := intros; eapply guarded_grows; [intros ? Hx; by apply exists_free in Hx|].

Section additions.
Context `{!Validate User.t, !Validate Group.t, !Validate Admin.t, !Validate Role.t,
  !Validate BaseVirtualFolder.t, !Validate APIKey.t, !Validate Share.t, !Validate BaseEventAction.t,
  !Validate EventRule.t, !Validate IPListEntry.t, !Validate Configs.t}.
Implicit Types now : nat → Z.

#[export] Instance addUser_grows now u : Within grows (addUser now u).
Proof.
  unfold addUser. apply within_bind; [apply _|]. intros v. apply within_locked.
  eapply (guarded_grows (SUser (User.Username v))); [intros ? Hx; by apply exists_free in Hx|]. mappings.
  apply within_bind; [apply _|intros id]. cbv zeta.
  change (User.Username v) with (User.Username (user_created now id v)). apply _.
Qed.
#[export] Instance addAdmin_grows now a : Within grows (addAdmin now a).
Proof.
  unfold addAdmin. apply within_locked, within_bind; [apply _|]. intros v.
  eapply (guarded_grows (SAdmin (Admin.Username v))); [intros ? Hx; by apply exists_free in Hx|]. mappings.
  apply within_bind; [apply _|intros id]. cbv zeta.
  change (Admin.Username v) with (Admin.Username (admin_created now id v)). apply _.
Qed.
#[export] Instance addAPIKey_grows now k : Within grows (addAPIKey now k).
Proof.
  unfold addAPIKey. apply within_bind; [apply _|]. intros v. apply within_locked.
  eapply (guarded_grows (SKey (APIKey.KeyID v))); [intros ? Hx; by apply exists_free in Hx|]. cbv zeta.
  change (APIKey.KeyID v) with (APIKey.KeyID (apikey_created now v)). apply _.
Qed.
#[export] Instance addEventRule_grows now r : Within grows (addEventRule now r).
Proof.
  unfold addEventRule. apply within_bind; [apply _|]. intros v. apply within_locked.
  eapply (guarded_grows (SRule (EventRule.Name v))); [intros ? Hx; by apply exists_free in Hx|]. mappings.
  apply within_bind; [apply _|intros id]. cbv zeta.
  change (EventRule.Name v) with (EventRule.Name (rule_created now id v)). apply _.
Qed.
(** the other additions write to tables that do not count *)
#[export] Instance addGroup_grows now g : Within grows (addGroup now g).
Proof. apply grows_within. unfold addGroup. mappings. apply _. Qed.
#[export] Instance addFolder_grows f : Within grows (addFolder f).
Proof. apply grows_within. unfold addFolder. apply _. Qed.
#[export] Instance addShare_grows now x : Within grows (addShare now x).
Proof. apply grows_within. unfold addShare. apply _. Qed.
#[export] Instance addEventAction_grows a : Within grows (addEventAction a).
Proof. apply grows_within. unfold addEventAction. apply _. Qed.
#[export] Instance addRole_grows now r : Within grows (addRole now r).
Proof. apply grows_within. unfold addRole. apply _. Qed.
#[export] Instance addIPListEntry_grows now e : Within grows (addIPListEntry now e).
Proof. apply grows_within. unfold addIPListEntry. apply _. Qed.
#[export] Instance setConfigs_grows c : Within grows (setConfigs c).
Proof. apply grows_within. unfold setConfigs. apply _. Qed.
End additions.

(** * Mode 1 *)

Section restore.
Context {K : Kms} {Cfg : Settings} {R : Ranger}.
Context `{!Validate User.t, !Validate Group.t, !Validate Admin.t, !Validate Role.t,
  !Validate BaseVirtualFolder.t, !Validate APIKey.t, !Validate Share.t, !Validate BaseEventAction.t,
  !Validate EventRule.t, !Validate IPListEntry.t, !Validate Configs.t}.
Variable now : nat → Z.
Variable range : gmap string (list string) → list (string * list string).
Variable scanQuota : Z.
Variable who : By.t.

Definition database (s : Api.t) : DB.t := Quotas.db (Api.quotas s).
Definition grows_api (s s' : Api.t) : Prop := grows (database s) (database s').
#[local] Instance grows_api_preorder : PreOrder grows_api.
Proof. split; [by intros s|]. unfold grows_api. intros x y z ??. by etrans. Qed.
#[local] Instance on_db_grows {A} (m : prov A) : Within grows m → Within grows_api (on_db m).
Proof. intros H s. unfold on_db, grows_api, database. specialize (H (Quotas.db (Api.quotas s))). by destruct (m _). Qed.
#[local] Instance announce_grows a : Within grows_api (announce a).
Proof. by intros s. Qed.
#[local] Instance action_grows o w t n : Within grows_api (executeAction o w t n).
Proof. by intros s. Qed.
#[local] Instance lists_grow f : Within grows_api (each_list f).
Proof. by intros s. Qed.
#[local] Instance admin_flag_grows : Within grows_api (modify (fun s : Api.t => s <| Api.isAdminCreated := true |>)).
Proof. by intros s. Qed.
#[local] Instance read_db_grows {A} (f : DB.t → res A) : Within grows_api (read_db f).
Proof. by intros s. Qed.
Lemma each_grows {A} (f : A → api unit) l : (∀ a, Within grows_api (f a)) → Within grows_api (each f l).
Proof. intros Hf. induction l as [|a l IH]; simpl; apply _. Qed.
(** in mode 1 only the additions count *)
#[local] Instance add_or_skip_grows {A B} (found : DB.t → res A) (update : A → api B) add :
  Within grows_api add → Within grows_api (add_or_update 1 found update add).
Proof.
  intros H. unfold add_or_update. apply within_bind; [by intros s|]. intros [a|]; [apply _|].
  apply within_bind; [done|apply _].
Qed.
#[local] Hint Extern 2 (Within grows_api (each _ _)) => apply each_grows; intros ? : typeclass_instances.
#[local] Hint Extern 3 (Within grows_api (discard_result _)) => unfold discard_result : typeclass_instances.

Lemma restore_grows ParseDumpData content :
  Within grows_api (restoreBackup now range 1 scanQuota who ParseDumpData content).
Proof.
  unfold restoreBackup. apply within_bind; [destruct (ParseDumpData content); apply _|]. intros dump.
  unfold RestoreConfigs, RestoreIPListEntries, RestoreRoles, RestoreFolders, RestoreGroups, RestoreUsers, RestoreAdmins,
    RestoreAPIKeys, RestoreShares, RestoreEventActions, RestoreEventRules, Api_UpdateConfigs, AddIPListEntry_announced,
    Api_AddRole, Api_AddFolder, Api_AddGroup, Api_AddUser, Api_AddAdmin, Api_AddAPIKey, Api_AddShare, Api_AddEventAction,
    Api_AddEventRule.
  destruct (BackupData.Configs dump); apply _.
Qed.

(** C21: Restoring a backup in mode 1 never changes or removes a user, an admin, an
    API key or an event rule that exists, whatever the backup holds and even
    when the restore stops with an error. *)
Theorem restore_mode_1_keeps ParseDumpData content s :
  let s' := (restoreBackup now range 1 scanQuota who ParseDumpData content s).2 in
  DB.users (database s) ⊆ DB.users (database s') ∧ DB.admins (database s) ⊆ DB.admins (database s') ∧
  DB.apiKeys (database s) ⊆ DB.apiKeys (database s') ∧ DB.rules (database s) ⊆ DB.rules (database s').
Proof. apply restore_grows. Qed.
End restore.

(** * What a restore loses *)

Definition sample_api {R : Ranger} : Api.t :=
  Api.mk (Quotas.mk sample ∅ ∅ ∅) (credentialsCache.mk 500 ∅) (credentialsCache.mk 100 ∅) (credentialsCache.mk 500 ∅)
    (usersCache.mk ∅ 50) true ∅ [].
Definition root : By.t := By.mk "root" "127.0.0.1" "".

Section losses.
Import Validators.
#[local] Existing Instance sample_kms.
#[local] Existing Instance ListRanger.list_ranger.
#[local] Existing Instance sample_settings.

(** An admin of the backup that is not in the provider is restored without its
    second factor and its recovery codes: [AddAdmin] clears them. *)
Theorem restored_admin_loses_second_factor :
  let totp := AdminTOTPConfig.zero <| AdminTOTPConfig.Enabled := true |> in
  let saved := (mk_admin "carol" "" []) <| Admin.Filters ::= fun f => f <| AdminFilters.TOTPConfig := totp |> |> in
  ∃ s' a, RestoreAdmins clock 0 root [saved] sample_api = (Ok tt, s') ∧
    DB.admins (database s') !! "carol" = Some a ∧
    AdminTOTPConfig.Enabled (AdminFilters.TOTPConfig (Admin.Filters a)) = false.
Proof. eexists _, _. split_and!; by vm_compute. Qed.
End losses.

(** the sample settings with names converted to lower case *)
Definition lower_case : Settings := {|
  NamingRules := 2; UsersBaseDir := @UsersBaseDir sample_settings; tempPath := @tempPath sample_settings;
  os_TempDir := @os_TempDir sample_settings; users_MinEntropy := @users_MinEntropy sample_settings;
  admins_MinEntropy := @admins_MinEntropy sample_settings; hashing_Algo := @hashing_Algo sample_settings;
  bcrypt_Cost := @bcrypt_Cost sample_settings; ExternalAuthHook := @ExternalAuthHook sample_settings;
  HasAuthenticators := @HasAuthenticators sample_settings; totp_configs := @totp_configs sample_settings;
  WebClientOptions := @WebClientOptions sample_settings; IsEmailValid := @IsEmailValid sample_settings;
  bcrypt_Generate := @bcrypt_Generate sample_settings; argon2id_CreateHash := @argon2id_CreateHash sample_settings;
  weak_password := @weak_password sample_settings; ssh_ParseAuthorizedKey := @ssh_ParseAuthorizedKey sample_settings;
  pem_Decode := @pem_Decode sample_settings; x509_ParseCertificate := @x509_ParseCertificate sample_settings;
|}.

Section names.
Import Validators.
#[local] Existing Instance sample_kms.
#[local] Existing Instance ListRanger.list_ranger.
#[local] Existing Instance lower_case.

(** With names that are converted to lower case a role that exists cannot be
    restored under the name in the backup, a group can. *)
Theorem restore_converts_groups_not_roles :
  (RestoreRoles clock 0 root [mk_role "STAFF"] sample_api).1 = Err (RecordNotFoundError "role" "STAFF") ∧
  (RestoreGroups clock map_to_list 0 root [mk_group "DEV" []] sample_api).1 = Ok tt.
Proof. split; by vm_compute. Qed.
End names.
