(* ===== verification/ApiProps.v ===== *)
(** The functions of the data provider as one type of requests: a request that
    fails is silent, one that succeeds keeps the store well formed, and what a
    deleted user leaves behind. *)
From S2P Require Import Prelude Util Net FsConfig FsValidate Entities Links Tables MemoryCore MemoryOps MemoryInv.
From S2P Require Import MemoryAccounts MemoryObjects MemoryShares Atomic MemorySpec ObjectSpec.
From S2P Require Import UserPerms GroupMerge MemoryQueries ValidateUser ValidateObjects IPLists IPListSync Quota Credentials ProviderApi.
From S2P Require Import Samples ValidateUserProps.
Open Scope Z_scope.

Inductive request :=
  | ReqUpdateConfigs (c : option Configs.t)
  | ReqAddShare (s : Share.t) | ReqUpdateShare (s : Share.t) | ReqDeleteShare (id : string)
  | ReqAddAPIKey (k : APIKey.t) | ReqUpdateAPIKey (k : APIKey.t) | ReqDeleteAPIKey (id : string)
  | ReqAddRole (r : Role.t) | ReqUpdateRole (r : Role.t) | ReqDeleteRole (name : string)
  | ReqAddGroup (g : Group.t) | ReqUpdateGroup (g : Group.t) (users : list string) | ReqDeleteGroup (name : string)
  | ReqAddEventAction (a : BaseEventAction.t) | ReqUpdateEventAction (a : BaseEventAction.t) | ReqDeleteEventAction (name : string)
  | ReqAddEventRule (r : EventRule.t) | ReqUpdateEventRule (r : EventRule.t) | ReqDeleteEventRule (name : string)
  | ReqAddAdmin (a : Admin.t) | ReqUpdateAdmin (a : Admin.t) | ReqDeleteAdmin (name : string)
  | ReqAddUser (u : User.t) | ReqUpdateUser (u : User.t) | ReqUpdateUserPassword (name password : string) | ReqDeleteUser (name : string)
  | ReqAddFolder (f : BaseVirtualFolder.t) | ReqUpdateFolder (f : BaseVirtualFolder.t) (users groups : list string) | ReqDeleteFolder (name : string)
  | ReqAddIPListEntry (e : IPListEntry.t) | ReqUpdateIPListEntry (e : IPListEntry.t) | ReqDeleteIPListEntry (net : string) (t : Z).

Definition database {R : Ranger} (s : Api.t) : DB.t := Quotas.db (Api.quotas s).
Definition with_database {R : Ranger} (h : DB.t) (s : Api.t) : Api.t := s <| Api.quotas ::= fun q => q <| Quotas.db := h |> |>.

Section api.
Context {K : Kms} {Cfg : Settings} {R : Ranger}.
Context `{!Validate User.t, !Validate Group.t, !Validate Admin.t, !Validate Role.t,
  !Validate BaseVirtualFolder.t, !Validate APIKey.t, !Validate Share.t, !Validate BaseEventAction.t,
  !Validate EventRule.t, !Validate IPListEntry.t, !Validate Configs.t}.
Variable now : nat → Z.
Variable range : gmap string (list string) → list (string * list string).
Variable PasswordCaching : bool.
Implicit Types who : By.t.

Definition done_with {A} (m : api A) : api unit := _ ← m; mret tt.
Definition perform (who : By.t) (r : request) : api unit :=
  match r with
  | ReqUpdateConfigs c => Api_UpdateConfigs now c who
  | ReqAddShare x => Api_AddShare now x who | ReqUpdateShare x => Api_UpdateShare now x who
  | ReqDeleteShare id => Api_DeleteShare id who
  | ReqAddAPIKey k => Api_AddAPIKey now k who | ReqUpdateAPIKey k => Api_UpdateAPIKey now k who
  | ReqDeleteAPIKey id => Api_DeleteAPIKey PasswordCaching id who
  | ReqAddRole x => Api_AddRole now x who | ReqUpdateRole x => Api_UpdateRole now x who
  | ReqDeleteRole n => Api_DeleteRole now range n who
  | ReqAddGroup g => Api_AddGroup now g who | ReqUpdateGroup g l => Api_UpdateGroup now range g l who
  | ReqDeleteGroup n => Api_DeleteGroup now n who
  | ReqAddEventAction a => Api_AddEventAction a who | ReqUpdateEventAction a => Api_UpdateEventAction now a who
  | ReqDeleteEventAction n => Api_DeleteEventAction n who
  | ReqAddEventRule x => Api_AddEventRule now x who | ReqUpdateEventRule x => Api_UpdateEventRule now x who
  | ReqDeleteEventRule n => Api_DeleteEventRule now n who
  | ReqAddAdmin a => done_with (Api_AddAdmin now a who) | ReqUpdateAdmin a => done_with (Api_UpdateAdmin now a who)
  | ReqDeleteAdmin n => Api_DeleteAdmin PasswordCaching n who
  | ReqAddUser u => done_with (Api_AddUser now u who) | ReqUpdateUser u => done_with (Api_UpdateUser now range u who)
  | ReqUpdateUserPassword n p => UpdateUserPassword now range n p who
  | ReqDeleteUser n => Api_DeleteUser PasswordCaching n who
  | ReqAddFolder f => done_with (Api_AddFolder f who)
  | ReqUpdateFolder f us gs => done_with (Api_UpdateFolder now range f us gs who)
  | ReqDeleteFolder n => Api_DeleteFolder now n who
  | ReqAddIPListEntry e => AddIPListEntry_announced now e who | ReqUpdateIPListEntry e => UpdateIPListEntry_announced now e who
  | ReqDeleteIPListEntry n t => DeleteIPListEntry_announced n t who
  end.

(** * Failures are silent *)

(** A method of the provider leaves at most back-references behind when it fails;
    nothing else has changed. *)
Class Silent {A} (m : api A) : Prop := silent : ∀ s e s', folders_keyed (database s) → m s = (Err e, s') →
  s' = with_database (database s') s ∧ keeps (database s) (database s').

Lemma with_same s : s = with_database (database s) s.
Proof. by destruct s as [[]]. Qed.
#[local] Instance silent_read_only {A} (m : api A) : ReadOnly m → Silent m | 5.
Proof. intros H s e s' _ E. specialize (H s). rewrite E in H. simpl in H. subst s'. split; [apply with_same|apply keeps_refl]. Qed.
#[local] Instance silent_infallible {A} (m : api A) : Infallible m → Silent m | 6.
Proof. intros H s e s' _ E. specialize (H s). by rewrite E in H. Qed.
#[local] Instance silent_bind_read {A B} (m : api A) (k : A → api B) : ReadOnly m → (∀ a, Silent (k a)) → Silent (m ≫= k) | 1.
Proof.
  intros Hm Hk s e s' Hf E. pose proof (Hm s) as H. unfold mbind, M_bind in E.
  destruct (m s) as [[a|e1] s1] eqn:E1; simpl in H; subst s1; [by eapply Hk|].
  injection E as -> <-. split; [apply with_same|apply keeps_refl].
Qed.
#[local] Instance silent_bind_last {A B} (m : api A) (k : A → api B) : Silent m → (∀ a, Infallible (k a)) → Silent (m ≫= k) | 2.
Proof.
  intros Hm Hk s e s' Hf E. unfold mbind, M_bind in E.
  destruct (m s) as [[a|e1] s1] eqn:E1; [|injection E as -> ->; by eapply Hm].
  specialize (Hk a s1). by rewrite E in Hk.
Qed.
#[local] Instance silent_on_db {A} (m : prov A) : FailKeeps m → Silent (on_db m) | 3.
Proof.
  intros H s e s' Hf E. unfold on_db in E. destruct (m (Quotas.db (Api.quotas s))) as [r h] eqn:Em. injection E as -> <-.
  split; [done|]. by eapply H.
Qed.
#[local] Instance read_only_db {A} (f : DB.t → res A) : ReadOnly (read_db f).
Proof. by intros s. Qed.
#[local] Instance read_only_lift {S A} (r : res A) : ReadOnly (lift r : M S A).
Proof. by intros s. Qed.
#[local] Instance infallible_on_db {A} (m : prov A) : Infallible m → Infallible (on_db m).
Proof. intros H s. unfold on_db. specialize (H (Quotas.db (Api.quotas s))). by destruct (m _). Qed.
#[local] Instance infallible_quotas {A} (m : M Quotas.t A) : Infallible m → Infallible (on_quotas m).
Proof. intros H s. unfold on_quotas. specialize (H (Api.quotas s)). by destruct (m _). Qed.
#[local] Instance infallible_webdav f : Infallible (on_webdav f).
Proof. by intros s. Qed.
#[local] Instance infallible_action o w t n : Infallible (executeAction o w t n).
Proof. by intros s. Qed.
#[local] Instance infallible_announce a : Infallible (announce a).
Proof. by intros s. Qed.
#[local] Instance infallible_announce_user w u : Infallible (announce_user w u).
Proof. by intros s. Qed.
#[local] Instance infallible_swap u p : Infallible (swap_user range u p).
Proof. by intros s. Qed.
#[local] Instance infallible_remove u : Infallible (RemoveCachedWebDAVUser u).
Proof. by intros s. Qed.
#[local] Instance infallible_lists f : Infallible (each_list f).
Proof. by intros s. Qed.
#[local] Instance infallible_reset_user u : Infallible (resetUserQuota u).
Proof. by intros s. Qed.
#[local] Instance infallible_reset_folder u : Infallible (resetFolderQuota u).
Proof. by intros s. Qed.
#[local] Instance infallible_option {S A B} (o : option A) (f : A → M S B) m : (∀ a, Infallible (f a)) → Infallible m →
  Infallible (match o with Some a => f a | None => m end).
Proof. destruct o; auto. Qed.
#[local] Instance infallible_touched u : Infallible (touched now u).
Proof. unfold touched. apply _. Qed.
#[local] Instance infallible_each f l : (∀ u, Infallible (f u)) → Infallible (each_user f l).
Proof. intros Hf. induction l; simpl; apply _. Qed.

(** every method of the provider is an operation *)
Lemma fail_keeps_op {A} (m : prov A) o : discard m = exec now o → FailKeeps m.
Proof.
  intros Ho h e h' Hf E. apply (exec_fail_keeps now o h e h' Hf). rewrite <-Ho. unfold discard, mbind, M_bind. by rewrite E.
Qed.
Ltac op_of := lazymatch goal with |- discard ?m = _ => lazymatch m with
  | addUser _ ?x => exact (eq_refl : _ = exec now (AddUser x)) | updateUser _ ?x => exact (eq_refl : _ = exec now (UpdateUser x))
  | deleteUser ?x => exact (eq_refl : _ = exec now (DeleteUser x))
  | addAdmin _ ?x => exact (eq_refl : _ = exec now (AddAdmin x)) | updateAdmin _ ?x => exact (eq_refl : _ = exec now (UpdateAdmin x))
  | deleteAdmin ?x => exact (eq_refl : _ = exec now (DeleteAdmin x))
  | addGroup _ ?x => exact (eq_refl : _ = exec now (AddGroup x)) | updateGroup _ ?x => exact (eq_refl : _ = exec now (UpdateGroup x))
  | deleteGroup ?x => exact (eq_refl : _ = exec now (DeleteGroup x))
  | addFolder ?x => exact (eq_refl : _ = exec now (AddFolder x)) | updateFolder ?x => exact (eq_refl : _ = exec now (UpdateFolder x))
  | deleteFolder ?x => exact (eq_refl : _ = exec now (DeleteFolder x))
  | addAPIKey _ ?x => exact (eq_refl : _ = exec now (AddAPIKey x)) | updateAPIKey _ ?x => exact (eq_refl : _ = exec now (UpdateAPIKey x))
  | deleteAPIKey ?x => exact (eq_refl : _ = exec now (DeleteAPIKey x))
  | addShare _ ?x => exact (eq_refl : _ = exec now (AddShare x)) | updateShare _ ?x => exact (eq_refl : _ = exec now (UpdateShare x))
  | deleteShare ?x => exact (eq_refl : _ = exec now (DeleteShare x))
  | addEventAction ?x => exact (eq_refl : _ = exec now (AddEventAction x))
  | updateEventAction _ ?x => exact (eq_refl : _ = exec now (UpdateEventAction x))
  | deleteEventAction ?x => exact (eq_refl : _ = exec now (DeleteEventAction x))
  | addEventRule _ ?x => exact (eq_refl : _ = exec now (AddEventRule x))
  | updateEventRule _ ?x => exact (eq_refl : _ = exec now (UpdateEventRule x))
  | deleteEventRule _ ?x => exact (eq_refl : _ = exec now (DeleteEventRule x))
  | addRole _ ?x => exact (eq_refl : _ = exec now (AddRole x)) | updateRole _ ?x => exact (eq_refl : _ = exec now (UpdateRole x))
  | deleteRole ?x => exact (eq_refl : _ = exec now (DeleteRole x))
  | addIPListEntry _ ?x => exact (eq_refl : _ = exec now (AddIPListEntry x))
  | updateIPListEntry _ ?x => exact (eq_refl : _ = exec now (UpdateIPListEntry x))
  | deleteIPListEntry ?x => exact (eq_refl : _ = exec now (DeleteIPListEntry x))
  | setConfigs ?x => exact (eq_refl : _ = exec now (SetConfigs x))
  | setUpdatedAt _ ?x => exact (eq_refl : _ = exec now (SetUpdatedAt x))
  end end.
#[local] Hint Extern 0 (FailKeeps _) => eapply fail_keeps_op; op_of : typeclass_instances.
Ltac requests := unfold done_with, Api_UpdateConfigs, Api_AddShare, Api_UpdateShare, Api_DeleteShare, Api_AddAPIKey, Api_UpdateAPIKey,
  Api_DeleteAPIKey, Api_AddRole, Api_UpdateRole, Api_DeleteRole, Api_AddGroup, Api_UpdateGroup, Api_DeleteGroup,
  Api_AddEventAction, Api_UpdateEventAction, Api_DeleteEventAction, Api_AddEventRule, Api_UpdateEventRule, Api_DeleteEventRule,
  Api_AddAdmin, Api_UpdateAdmin, Api_DeleteAdmin, Api_AddUser, Api_UpdateUser, UpdateUserPassword, Api_DeleteUser, Api_AddFolder,
  Api_UpdateFolder, Api_DeleteFolder, AddIPListEntry_announced, UpdateIPListEntry_announced, DeleteIPListEntry_announced.

Lemma perform_silent who r : Silent (perform who r).
Proof. destruct r; cbn [perform]; requests; apply _. Qed.

(** * Successes keep the store well formed *)

Context {VN : ValidNames}.

Class Safe {A} (m : api A) : Prop := safe : ∀ s a s', wf (database s) → m s = (Ok a, s') → wf (database s').
#[local] Instance safe_bind {A B} (m : api A) (k : A → api B) : Safe m → (∀ a, Safe (k a)) → Safe (m ≫= k) | 4.
Proof. intros Hm Hk s b s' W (a & s1 & E1 & E2)%bind_Ok. eapply Hk; [|done]. by eapply Hm. Qed.
#[local] Instance safe_read {A} (m : api A) : ReadOnly m → Safe m | 3.
Proof. intros H s a s' W E. specialize (H s). rewrite E in H. simpl in H. by subst. Qed.
#[local] Instance safe_option {A B} (o : option A) (f : A → api B) m : (∀ a, Safe (f a)) → Safe m →
  Safe (match o with Some a => f a | None => m end).
Proof. destruct o; auto. Qed.
(** actions on the rest of the state *)
Lemma safe_other {A} (m : api A) : (∀ s, database (m s).2 = database s) → Safe m.
Proof. intros H s a s' W E. specialize (H s). rewrite E in H. simpl in H. by rewrite H. Qed.
#[local] Hint Extern 1 (Safe (announce _)) => by apply safe_other : typeclass_instances.
#[local] Hint Extern 1 (Safe (executeAction _ _ _ _)) => by apply safe_other : typeclass_instances.
#[local] Hint Extern 1 (Safe (announce_user _ _)) => by apply safe_other : typeclass_instances.
#[local] Hint Extern 1 (Safe (on_webdav _)) => by apply safe_other : typeclass_instances.
#[local] Hint Extern 1 (Safe (RemoveCachedWebDAVUser _)) => by apply safe_other : typeclass_instances.
#[local] Hint Extern 1 (Safe (swap_user _ _ _)) => by apply safe_other : typeclass_instances.
#[local] Hint Extern 1 (Safe (modify _)) => by apply safe_other : typeclass_instances.
#[local] Hint Extern 1 (Safe (each_list _)) => by apply safe_other : typeclass_instances.
#[local] Hint Extern 1 (Safe (on_quotas _)) => by apply safe_other : typeclass_instances.

Lemma safe_op {A} (m : prov A) o : discard m = exec now o → (∀ h, fresh_share o h) → Safe (on_db m).
Proof.
  intros Ho Hfr s a s' W E. unfold on_db in E. destruct (m (Quotas.db (Api.quotas s))) as [r h] eqn:Em. injection E as -> <-.
  apply (exec_Ok_wf now o (database s) tt h W (Hfr _)). rewrite <-Ho. unfold discard, mbind, M_bind, database. by rewrite Em.
Qed.
#[local] Hint Extern 0 (Safe (on_db _)) => eapply safe_op; [op_of|by intros ?] : typeclass_instances.
#[local] Instance safe_touched u : Safe (touched now u).
Proof.
  intros s a s' W E. unfold touched in E. apply bind_Ok in E as ([] & s1 & E1 & E2).
  assert (s1 = (on_db (setUpdatedAt now u) s).2) as -> by exact (eq_sym (f_equal snd E1)).
  assert (wf (database (on_db (setUpdatedAt now u) s).2)) as W1.
  { unfold on_db. destruct (setUpdatedAt now u (Quotas.db (Api.quotas s))) as [r h] eqn:Eu.
    apply (exec_wf now (SetUpdatedAt u) (database s) (x ← r; Ok tt) h W I); [|by right].
    cbn [exec]. unfold discard, mbind, M_bind, database. rewrite Eu. by destruct r. }
  clear E1. revert E2 W1. generalize (on_db (setUpdatedAt now u) s).2. intros s1 E2 W1.
  unfold try_catch, read_db in E2. destruct (userExists u "" _); by injection E2 as _ <-.
Qed.
#[local] Instance safe_each f l : (∀ u, Safe (f u)) → Safe (each_user f l).
Proof. intros Hf. induction l; simpl; apply _. Qed.

(** the identifier of a share that is added is not in use *)
Definition fresh_request (r : request) (h : DB.t) : Prop :=
  match r with ReqAddShare x => fresh_share (AddShare x) h | _ => True end.

Lemma add_share_wf x who s s' : wf (database s) → fresh_share (AddShare x) (database s) →
  Api_AddShare now x who s = (Ok tt, s') → wf (database s').
Proof.
  intros W Hf E. unfold Api_AddShare in E. apply bind_Ok in E as (v & s1 & E1 & E2). injection E2 as <-.
  change (wf (database s1)). unfold on_db in E1. destruct (addShare now x (Quotas.db (Api.quotas s))) as [r h] eqn:Ea.
  injection E1 as -> <-. apply (exec_Ok_wf now (AddShare x) (database s) tt h W Hf).
  cbn [exec]. unfold discard, mbind, M_bind, database. by rewrite Ea.
Qed.
Definition adds_share (r : request) : bool := match r with ReqAddShare _ => true | _ => false end.
Lemma perform_safe who r : adds_share r = false → Safe (perform who r).
Proof. intros Hr. destruct r; try done; cbn [perform]; requests; apply _. Qed.
Lemma perform_wf who r s s' : wf (database s) → fresh_request r (database s) → perform who r s = (Ok tt, s') → wf (database s').
Proof.
  intros W Hf E. destruct (adds_share r) eqn:Hr; [|by apply (perform_safe who r Hr s tt s' W E)].
  destruct r; try done. by eapply add_share_wf.
Qed.

(** * Successes are announced *)

(** the announcement of a request *)
Definition announces (operation objectType : string) (who : By.t) (a : announcement) : Prop :=
  ∃ name, a = Action operation (By.executor who) (By.ip who) objectType name (By.role who).
Class Extends {A} (m : api A) : Prop := extends : ∀ s, ∃ l, Api.announced (m s).2 = Api.announced s ++ l.
Class Announces {A} (P : announcement → Prop) (m : api A) : Prop :=
  announcing : ∀ s a s', m s = (Ok a, s') → ∃ l, Api.announced s' = Api.announced s ++ l ∧ ∃ x, x ∈ l ∧ P x.

#[local] Instance extends_bind {A B} (m : api A) (k : A → api B) : Extends m → (∀ a, Extends (k a)) → Extends (m ≫= k) | 4.
Proof.
  intros Hm Hk s. destruct (Hm s) as [l Hl]. unfold mbind, M_bind. destruct (m s) as [[a|e] s1]; [|by exists l].
  destruct (Hk a s1) as [l' Hl']. exists (l ++ l'). rewrite Hl'. cbn [snd] in Hl. by rewrite Hl, (assoc_L (++)).
Qed.
Lemma extends_silent {A} (m : api A) : (∀ s, Api.announced (m s).2 = Api.announced s) → Extends m.
Proof. intros H s. exists []. by rewrite H, app_nil_r. Qed.
#[local] Instance extends_read {A} (m : api A) : ReadOnly m → Extends m | 3.
Proof. intros H. apply extends_silent. intros s. by rewrite H. Qed.
#[local] Instance extends_on_db {A} (m : prov A) : Extends (on_db m) | 0.
Proof. apply extends_silent. intros s. unfold on_db. by destruct (m _). Qed.
#[local] Instance extends_on_quotas {A} (m : M Quotas.t A) : Extends (on_quotas m) | 0.
Proof. apply extends_silent. intros s. unfold on_quotas. by destruct (m _). Qed.
#[local] Instance extends_announce a : Extends (announce a).
Proof. intros s. by exists [a]. Qed.
#[local] Instance extends_action o w t n : Extends (executeAction o w t n).
Proof. intros s. by eexists [_]. Qed.
#[local] Instance extends_announce_user w u : Extends (announce_user w u).
Proof. intros s. by eexists [_]. Qed.
#[local] Hint Extern 1 (Extends (on_webdav _)) => by apply extends_silent : typeclass_instances.
#[local] Hint Extern 1 (Extends (RemoveCachedWebDAVUser _)) => by apply extends_silent : typeclass_instances.
#[local] Hint Extern 1 (Extends (swap_user _ _ _)) => by apply extends_silent : typeclass_instances.
#[local] Hint Extern 1 (Extends (modify _)) => by apply extends_silent : typeclass_instances.
#[local] Hint Extern 1 (Extends (each_list _)) => by apply extends_silent : typeclass_instances.
#[local] Instance extends_option {A B} (o : option A) (f : A → api B) m : (∀ a, Extends (f a)) → Extends m →
  Extends (match o with Some a => f a | None => m end).
Proof. destruct o; auto. Qed.
#[local] Instance extends_touched u : Extends (touched now u).
Proof.
  apply extends_silent. intros s. unfold touched, ignore, mbind, M_bind, try_catch, read_db, on_db.
  destruct (setUpdatedAt now u _) as [r h]. cbn. by destruct (userExists u "" h).
Qed.
#[local] Instance extends_each f l : (∀ u, Extends (f u)) → Extends (each_user f l).
Proof. intros Hf. induction l; simpl; apply _. Qed.

#[local] Instance announces_here o w t n : Announces (announces o t w) (executeAction o w t n) | 0.
Proof. intros s a s' E. injection E as _ <-. eexists [_]. split; [done|]. eexists. split; [by left|by eexists]. Qed.
#[local] Instance announces_last {A B} P (m : api A) (k : A → api B) : Extends m → (∀ a, Announces P (k a)) → Announces P (m ≫= k) | 1.
Proof.
  intros Hm Hk s b s' (a & s1 & E1 & E2)%bind_Ok. destruct (Hm s) as [l Hl]. rewrite E1 in Hl. cbn [snd] in Hl.
  destruct (Hk a s1 b s' E2) as (l' & Hl' & x & Hx & HP). exists (l ++ l'). rewrite Hl', Hl, (assoc_L (++)). split; [done|].
  exists x. split; [|done]. apply elem_of_app. by right.
Qed.
#[local] Instance announces_first {A B} P (m : api A) (k : A → api B) : Announces P m → (∀ a, Extends (k a)) → Announces P (m ≫= k) | 2.
Proof.
  intros Hm Hk s b s' (a & s1 & E1 & E2)%bind_Ok. destruct (Hm s a s1 E1) as (l & Hl & x & Hx & HP).
  destruct (Hk a s1) as [l' Hl']. rewrite E2 in Hl'. cbn [snd] in Hl'. exists (l ++ l'). rewrite Hl', Hl, (assoc_L (++)).
  split; [done|]. exists x. split; [|done]. apply elem_of_app. by left.
Qed.

(** what a request is announced as *)
Definition announced_as (r : request) : string * string :=
  match r with
  | ReqUpdateConfigs _ => (operationUpdate, actionObjectConfigs)
  | ReqAddShare _ => (operationAdd, actionObjectShare) | ReqUpdateShare _ => (operationUpdate, actionObjectShare)
  | ReqDeleteShare _ => (operationDelete, actionObjectShare)
  | ReqAddAPIKey _ => (operationAdd, actionObjectAPIKey) | ReqUpdateAPIKey _ => (operationUpdate, actionObjectAPIKey)
  | ReqDeleteAPIKey _ => (operationDelete, actionObjectAPIKey)
  | ReqAddRole _ => (operationAdd, actionObjectRole) | ReqUpdateRole _ => (operationUpdate, actionObjectRole)
  | ReqDeleteRole _ => (operationDelete, actionObjectRole)
  | ReqAddGroup _ => (operationAdd, actionObjectGroup) | ReqUpdateGroup _ _ => (operationUpdate, actionObjectGroup)
  | ReqDeleteGroup _ => (operationDelete, actionObjectGroup)
  | ReqAddEventAction _ => (operationAdd, actionObjectEventAction) | ReqUpdateEventAction _ => (operationUpdate, actionObjectEventAction)
  | ReqDeleteEventAction _ => (operationDelete, actionObjectEventAction)
  | ReqAddEventRule _ => (operationAdd, actionObjectEventRule) | ReqUpdateEventRule _ => (operationUpdate, actionObjectEventRule)
  | ReqDeleteEventRule _ => (operationDelete, actionObjectEventRule)
  | ReqAddAdmin _ => (operationAdd, actionObjectAdmin) | ReqUpdateAdmin _ => (operationUpdate, actionObjectAdmin)
  | ReqDeleteAdmin _ => (operationDelete, actionObjectAdmin)
  | ReqAddUser _ => (operationAdd, actionObjectUser)
  | ReqUpdateUser _ | ReqUpdateUserPassword _ _ => (operationUpdate, actionObjectUser)
  | ReqDeleteUser _ => (operationDelete, actionObjectUser)
  | ReqAddFolder _ => (operationAdd, actionObjectFolder) | ReqUpdateFolder _ _ _ => (operationUpdate, actionObjectFolder)
  | ReqDeleteFolder _ => (operationDelete, actionObjectFolder)
  | ReqAddIPListEntry _ => (operationAdd, actionObjectIPListEntry) | ReqUpdateIPListEntry _ => (operationUpdate, actionObjectIPListEntry)
  | ReqDeleteIPListEntry _ _ => (operationDelete, actionObjectIPListEntry)
  end.
Lemma perform_announces who r : Announces (announces (announced_as r).1 (announced_as r).2 who) (perform who r).
Proof. destruct r; cbn [perform announced_as fst snd]; requests; apply _. Qed.

(** * Deleting a user *)

Lemma userExists_name name role h u : wf h → userExists name role h = Ok u → User.Username u = name.
Proof.
  intros W. unfold userExists, when_open. destruct (DB.isClosed h); [done|]. unfold userExistsInternal, existsIn.
  destruct (DB.users h !! name) as [u0|] eqn:Hu; [|done].
  assert (User.Username u0 = name) as Hn by (apply (proj2 (wf_users _ W) name); by rewrite lookup_fmap, Hu).
  cbn [mbind res_bind]. repeat case_match; intros E; try done; injection E as <-; by autorewrite with attrs.
Qed.

(** ** Properties *)

(** C18: A request to the data provider that fails announces nothing to the event
    manager, the plugins and the hooks, and changes no cache, none of the
    pending updates of quotas (of users, folders and transfers), no list in
    memory and nothing else outside of the store; in the store it changes at
    most the back-references of roles, groups, folders and actions. *)
Theorem failed_request_is_silent who r s e s' : wf (database s) → perform who r s = (Err e, s') →
  Api.announced s' = Api.announced s ∧ Api.webDAVUsersCache s' = Api.webDAVUsersCache s ∧
  Api.cachedUserPasswords s' = Api.cachedUserPasswords s ∧ Api.cachedAdminPasswords s' = Api.cachedAdminPasswords s ∧
  Api.cachedAPIKeys s' = Api.cachedAPIKeys s ∧ Api.inMemoryLists s' = Api.inMemoryLists s ∧ Api.isAdminCreated s' = Api.isAdminCreated s ∧
  Quotas.pendingUserQuotaUpdates (Api.quotas s') = Quotas.pendingUserQuotaUpdates (Api.quotas s) ∧
  Quotas.pendingFolderQuotaUpdates (Api.quotas s') = Quotas.pendingFolderQuotaUpdates (Api.quotas s) ∧
  Quotas.pendingTransferQuotaUpdates (Api.quotas s') = Quotas.pendingTransferQuotaUpdates (Api.quotas s) ∧
  s' = with_database (database s') s ∧ keeps (database s) (database s').
Proof.
  intros W E. destruct (perform_silent who r s e s' (proj2 (wf_vfolders _ W)) E) as [Hs Hk].
  rewrite Hs. split_and!; done.
Qed.

(** C20: Every request that succeeds is announced, to the event manager, the plugins
    and the hooks, as the operation it is and with the name of who asked for it,
    after what was announced before. *)
Theorem successful_request_is_announced who r s s' : perform who r s = (Ok tt, s') →
  ∃ l name, Api.announced s' = Api.announced s ++ l ∧
    Action (announced_as r).1 (By.executor who) (By.ip who) (announced_as r).2 name (By.role who) ∈ l.
Proof.
  intros E. destruct (perform_announces who r s tt s' E) as (l & Hl & x & Hx & name & ->). by exists l, name.
Qed.

(** C19: Once a user is deleted the store has no account, share or API key under
    its name, and neither the cache of WebDAV users nor that of passwords, nor
    the files and sizes still to be stored, have an entry for it. *)
Theorem deleted_user_is_forgotten username who s s' :
  wf (database s) → Api_DeleteUser PasswordCaching username who s = (Ok tt, s') →
  let name := convertName username in
  name ∉ DB.usernames (database s') ∧
  (∀ k v, DB.apiKeys (database s') !! k = Some v → APIKey.User v ≠ name) ∧
  (∀ k v, DB.shares (database s') !! k = Some v → Share.Username v ≠ name) ∧
  usersCache.users (Api.webDAVUsersCache s') !! name = None ∧
  Quotas.pendingUserQuotaUpdates (Api.quotas s') !! name = None ∧
  (PasswordCaching = true → credentialsCache.cache (Api.cachedUserPasswords s') !! name = None).
Proof.
  intros W E name. unfold Api_DeleteUser in E. apply bind_Ok in E as (u & s0 & E0 & E).
  unfold read_db in E0. apply pair_equal_spec in E0 as [E0 <-].
  pose proof (userExists_name _ _ _ _ W E0) as Hn. fold name in Hn.
  apply bind_Ok in E as ([] & s1 & E1 & E). unfold on_db in E1.
  destruct (deleteUser u (Quotas.db (Api.quotas s))) as [r h] eqn:Ed. apply pair_equal_spec in E1 as [-> <-].
  destruct (deleteUser_gone u _ _ _ W Ed) as (G1 & _ & _ & _ & G2 & G3). rewrite Hn in G1, G2, G3.
  apply (f_equal snd) in E. cbn [snd] in E. rewrite <-E, Hn. fold name.
  split_and!; [exact G1|exact G2|exact G3|apply lookup_delete_eq..|].
  intros ->. apply lookup_delete_eq.
Qed.
End api.

(** * Witnesses *)

Section witnesses.
Import Validators.
#[local] Existing Instance sample_kms.
#[local] Existing Instance sample_settings.
#[local] Existing Instance ListRanger.list_ranger.

Definition with_pending (p : pending) : Api.t :=
  Api.mk (Quotas.mk sample ∅ ∅ p) (credentialsCache.mk 500 ∅) (credentialsCache.mk 100 ∅) (credentialsCache.mk 500 ∅)
    (usersCache.mk ∅ 50) true ∅ [].
Definition caller : By.t := By.mk "root" "127.0.0.1" "".
Definition ask_for (r : request) (s : Api.t) : res unit * Api.t := perform clock map_to_list true caller r s.
Lemma asked r s x : (ask_for r s).1 = x → perform clock map_to_list true caller r s = (x, (ask_for r s).2).
Proof. intros <-. unfold ask_for. apply surjective_pairing. Qed.

Lemma failed_request_is_silent_witness :
  is_ok (ask_for (ReqDeleteGroup "dev") (with_pending ∅)).1 = false ∧
  Api.announced (ask_for (ReqDeleteGroup "dev") (with_pending ∅)).2 = [].
Proof.
  split; [by vm_compute|].
  apply (failed_request_is_silent clock map_to_list true caller (ReqDeleteGroup "dev") (with_pending ∅)
    (ValidationError "group dev is referenced, it cannot be removed") _ sample_wf).
  apply asked. by vm_compute.
Defined.
Lemma successful_request_is_announced_witness : ∃ l name,
  Api.announced (ask_for (ReqDeleteUser "alice") (with_pending ∅)).2 = [] ++ l ∧
  Action "delete" "root" "127.0.0.1" "user" name "" ∈ l.
Proof.
  apply (successful_request_is_announced clock map_to_list true caller (ReqDeleteUser "alice") (with_pending ∅)).
  apply asked. by vm_compute.
Defined.
Lemma returns {A} (m : api A) s a : (m s).1 = a → m s = (a, (m s).2).
Proof. intros <-. apply surjective_pairing. Qed.
Lemma deleted_user_is_forgotten_witness :
  convertName "alice" ∉ DB.usernames (database (Api_DeleteUser true "alice" caller (with_pending ∅)).2).
Proof.
  assert ((Api_DeleteUser true "alice" caller (with_pending ∅)).1 = Ok tt) as E by (by vm_compute).
  exact (proj1 (deleted_user_is_forgotten true "alice" caller (with_pending ∅) _ sample_wf (returns _ _ _ E))).
Defined.

(** The transfers of a deleted user that are still to be stored are not
    forgotten: a user added with the same name starts with them. *)
Theorem new_user_inherits_transfers :
  let s := (ask_for (ReqDeleteUser "alice") (with_pending {["alice" := (100, 7)]})).2 in
  let s := (ask_for (ReqAddUser (mk_user "alice" "" [] [])) s).2 in
  is_ok (userExists "alice" "" (database s)) = true ∧
  Api_GetUsedQuota 1 "alice" (Api.quotas s) = Ok (0, 0, 100, 7).
Proof. split; by vm_compute. Qed.
End witnesses.

(** * The cache of WebDAV users *)

(** the order in which a range visits the users *)
Class UsersOrder (range : gmap string CachedUser.t → list (string * CachedUser.t)) : Prop :=
  users_order : ∀ m, range m ≡ₚ map_to_list m.

(** never more users than allowed, and none without a name *)
Definition within_size (c : usersCache.t) : Prop :=
  Z.of_nat (size (usersCache.users c)) <= usersCache.maxSize c ∧ usersCache.users c !! "" = None.

(** the user chosen is one of those visited *)
Lemma victim_loop l : ∀ victim time, victim ≠ "" → (∀ k v, (k, v) ∈ l → k ≠ "") →
  let r := (foldl (fun '(victim, time) '(k, v) =>
     if victim =s "" then (k, CachedUser.Expiration v)
     else match CachedUser.Expiration v, time with
          | Some e, Some t => if e <? t then (k, Some e) else (victim, time)
          | _, _ => (victim, time)
          end) (victim, time) l).1 in r = victim ∨ r ∈ l.*1.
Proof.
  induction l as [|[k v] l IH]; intros victim time Hv Hl; [by left|]. cbn.
  rewrite (proj2 (String.eqb_neq victim "") Hv).
  assert (k ≠ "") as Hk by (apply (Hl k v); by left).
  assert (∀ k v, (k, v) ∈ l → k ≠ "") as Hl' by (intros ?? H; eapply Hl; by right).
  match goal with |- context [foldl ?f ?acc l] => assert (∃ t, acc = (victim, t) ∨ acc = (k, t)) as [t [-> | ->]] by
    (repeat case_match; simplify_eq; eauto) end.
  - destruct (IH victim t Hv Hl') as [E|E]; [by left|right; by right].
  - destruct (IH k t Hk Hl') as [E|E]; right; [rewrite E; by left|by right].
Qed.
Lemma cache_victim_in l : l ≠ [] → (∀ k v, (k, v) ∈ l → k ≠ "") → cache_victim l ∈ l.*1.
Proof.
  destruct l as [|[k v] l]; [done|]. intros _ Hl. unfold cache_victim. cbn.
  edestruct (victim_loop l k) as [E|H]; [eapply Hl; by left|intros ?? H; eapply Hl; by right|rewrite E; by left|by right].
Qed.

Lemma victim_of_range range (m : gmap string CachedUser.t) `{!UsersOrder range} : m !! "" = None → m ≠ ∅ →
  ∃ k v, cache_victim (range m) = k ∧ m !! k = Some v.
Proof.
  intros Hempty Hne. pose proof (users_order m) as Hp.
  assert (cache_victim (range m) ∈ (range m).*1) as Hin.
  { apply cache_victim_in.
    - intros E. rewrite E in Hp. apply Permutation_nil, map_to_list_empty_iff in Hp. done.
    - intros k v Hk. rewrite Hp in Hk. apply elem_of_map_to_list in Hk. intros ->. congruence. }
  apply list_elem_of_fmap in Hin as ([k v] & Ek & Hk). rewrite Hp in Hk. apply elem_of_map_to_list in Hk. by exists k, v.
Qed.

(** The cache of WebDAV users never grows over its limit, whatever is added,
    replaced or removed, and a user that is added is found. *)
Theorem users_cache_bounded range (cu : CachedUser.t) c `{!UsersOrder range} :
  0 < usersCache.maxSize c → within_size c →
  within_size (usersCache_add range cu c) ∧
  (User.Username (CachedUser.User cu) ≠ "" → usersCache_get (User.Username (CachedUser.User cu)) (usersCache_add range cu c) = Some cu) ∧
  (∀ name loaded password, within_size (cache_swap name loaded password c)) ∧
  (∀ name, within_size (usersCache_remove name c)).
Proof.
  intros Hmax [Hsize Hempty].
  assert (∀ name, within_size (c <| usersCache.users ::= delete name |>)) as Hdel.
  { intros name. split; cbn; [|by apply lookup_delete_None; right]. etrans; [|exact Hsize].
    apply inj_le, map_subseteq_size, delete_subseteq. }
  split_and!; [| |intros name loaded password|intros name; apply Hdel].
  - unfold usersCache_add. rewrite (proj2 (Z.ltb_lt _ _) Hmax). cbn [andb].
    match goal with |- context [if (?a <=? ?b) then ?x else c] => set (c' := if (a <=? b) then x else c) end.
    assert (within_size c' ∧ usersCache.maxSize c' = usersCache.maxSize c ∧
      Z.of_nat (size (usersCache.users c')) < usersCache.maxSize c) as (W & Hm & Hlt).
    { subst c'. destruct (Z.leb_spec (usersCache.maxSize c) (Z.of_nat (size (usersCache.users c)))); [|done].
      split_and!; [apply Hdel|done|]. cbn.
      destruct (victim_of_range range (usersCache.users c)) as (k & v & -> & Hk); [done|intros E; rewrite E, map_size_empty in *; lia|].
      rewrite map_size_delete_Some by eauto. lia. }
    clearbody c'. destruct (String.eqb_spec (User.Username (CachedUser.User cu)) "") as [|Hne]; [done|].
    split; cbn; [|rewrite lookup_insert_ne by done; apply W]. rewrite Hm.
    destruct (usersCache.users c' !! User.Username (CachedUser.User cu)) eqn:Hx.
    + rewrite map_size_insert_Some by eauto. lia.
    + rewrite map_size_insert_None by done. lia.
  - intros Hne. unfold usersCache_add, usersCache_get. rewrite (proj2 (String.eqb_neq _ _) Hne). cbn. apply lookup_insert_eq.
  - unfold cache_swap. destruct (usersCache.users c !! name) as [cu0|] eqn:Hx; [|done].
    destruct loaded as [u|e]; [|apply Hdel]. destruct (_ && _); [apply Hdel|]. destruct (isFsEqual _ _); [|apply Hdel].
    split; cbn; [rewrite map_size_insert_Some by eauto; done|].
    rewrite lookup_insert_ne; [done|]. intros ->. congruence.
Qed.

#[export] Instance map_to_list_users_order : UsersOrder map_to_list.
Proof. by intros m. Qed.
Definition cached_as (name : string) (expiration : option Z) : CachedUser.t :=
  CachedUser.mk (User.zero <| User.Username := name |>) expiration "" 0.
Definition one_cached : usersCache.t := usersCache.mk {["carol" := cached_as "carol" (Some 9)]} 1.
Lemma users_cache_bounded_witness :
  usersCache_get "alice" (usersCache_add map_to_list (cached_as "alice" None) one_cached) = Some (cached_as "alice" None) ∧
  within_size (usersCache_add map_to_list (cached_as "alice" None) one_cached).
Proof.
  destruct (users_cache_bounded map_to_list (cached_as "alice" None) one_cached) as (H1 & H2 & _).
  - vm_compute. done.
  - split; by vm_compute.
  - split; [by apply H2|done].
Defined.

(** A user that never expires makes room before one about to expire, if it is
    visited first: the zero time is before every other. *)
Theorem lasting_user_is_evicted :
  cache_victim [("alice", cached_as "alice" None); ("bob", cached_as "bob" (Some 5))] = "alice" ∧
  cache_victim [("bob", cached_as "bob" (Some 5)); ("alice", cached_as "alice" None)] = "bob".
Proof. done. Qed.
