(* ===== verification/EventProps.v ===== *)
(** What the event manager guarantees: which actions of a rule run, in which
    order and with which result ([sync_actions_run], [tasks_run]), whose
    files an action changes and how ([fs_actions_are_confined]), which users it
    reports ([actions_name_the_failing]), and that a quota that is reset
    counts what the scan has found ([quota_reset_counts]). *)
From S2P Require Import Prelude GoPath Util FsConfig FsValidate Entities Links Tables MemoryCore MemoryOps UserPerms GroupMerge MemoryQueries ValidateUser ValidateObjects EventRules EventContainer Quota ProviderApi Backup ConnData Connection ConnectionOps ConnectionCopy Retention EventMatch Connections EventActions EventManager Effects ConnectionProps FsPathsProps ValidateUserProps Samples ToyStorage QuotaProps.
Open Scope Z_scope.

(** * The actions of a rule *)

Section runs.
Context {S : Type}.
Variable execute : BaseEventAction.t → ConditionOptions.t → M S unit.
Variable conditions : ConditionOptions.t.

(** the actions that ran, with their errors *)
Definition trace : Type := list (EventAction.t * option error).
(** The actions of a list run one after the other; one that fails and stops on
    failure is the last. *)
Inductive ran : list EventAction.t → S → trace → S → Prop :=
  | ran_nil s : ran [] s [] s
  | ran_ok a actions s s1 log s2 :
      execute (EventAction.Base a) conditions s = (Ok tt, s1) →
      ran actions s1 log s2 → ran (a :: actions) s ((a, None) :: log) s2
  | ran_failed a e actions s s1 log s2 :
      execute (EventAction.Base a) conditions s = (Err e, s1) → EventAction.StopOnFailure a = false →
      ran actions s1 log s2 → ran (a :: actions) s ((a, Some e) :: log) s2
  | ran_stopped a e actions s s1 :
      execute (EventAction.Base a) conditions s = (Err e, s1) → EventAction.StopOnFailure a = true →
      ran (a :: actions) s [(a, Some e)] s1.

Definition failed_names (log : trace) : list string := omap (fun '(a, e) => if (e : option error) is Some _ then Some (ea_name a) else None) log.
Definition last_error (log : trace) : option error := foldr (fun '(_, e) last => if (last : option error) is Some _ then last else e) None log.

Lemma run_actions_ran chosen actions s : ∃ log s',
  run_actions execute chosen conditions actions s = (Ok (failed_names log, last_error log), s') ∧
  ran (List.filter chosen actions) s log s'.
Proof.
  revert s. induction actions as [|a actions IH]; intros s; [by exists [], s; split; [|constructor]|]. cbn [run_actions List.filter].
  destruct (chosen a); [cbn [negb]|exact (IH s)].
  unfold mbind, M_bind, outcome. destruct (execute (EventAction.Base a) conditions s) as [[[]|e] s1] eqn:E; cbn [fst snd].
  - destruct (IH s1) as (log & s' & Hr & Hran). exists ((a, None) :: log), s'. split; [|by eapply ran_ok].
    rewrite Hr. unfold failed_names, last_error. cbn. by case_match.
  - destruct (EventAction.StopOnFailure a) eqn:Hs; [by exists [(a, Some e)], s1; split; [|by apply ran_stopped]|].
    destruct (IH s1) as (log & s' & Hr & Hran). exists ((a, Some e) :: log), s'. split; [|by eapply ran_failed].
    rewrite Hr. unfold failed_names, last_error. cbn. by case_match.
Qed.

(** at most as many as there are, in their order *)
Lemma ran_prefix actions s log s' : ran actions s log s' → log.*1 `prefix_of` actions.
Proof. induction 1; [done|by apply prefix_cons..|]. by eexists. Qed.
(** all of them, unless one stops the rest *)
Lemma ran_all actions s log s' : ran actions s log s' →
  log.*1 = actions ∨ ∃ before a e, log = before ++ [(a, Some e)] ∧ EventAction.StopOnFailure a = true.
Proof.
  induction 1 as [|a ? ? ? log ? _ _ IH|a e ? ? ? log ? _ _ _ IH|]; [by left|..].
  1,2: destruct IH as [<-|(before & b & e' & -> & ?)]; [by left|right].
  - by exists ((a, None) :: before), b, e'.
  - by exists ((a, Some e) :: before), b, e'.
  - right. by eexists [], _, _.
Qed.
End runs.

Section tasks.
Context {S : Type} (execute : BaseEventAction.t → ConditionOptions.t → M S unit) (before_failure : S → S).

(** What a rule does after its synchronous actions, of which [failed] failed:
    the asynchronous ones and, if any action failed, the failure actions. *)
Definition async_ran (rule : EventRule.t) (failed : list string) (s : S) (s' : S) : Prop := ∃ log1 s1,
  ran execute (options_of rule) (List.filter is_async (EventRule.Actions rule)) s log1 s1 ∧
  if bool_decide (failed ++ failed_names log1 = []) then s' = s1
  else ∃ log2, ran execute (options_of rule) (List.filter EventAction.IsFailureAction (EventRule.Actions rule)) (before_failure s1) log2 s'.

Lemma executeRuleAsync_ran rule failed s : ∃ s',
  executeRuleAsyncActions execute before_failure rule failed s = (Ok tt, s') ∧ async_ran rule failed s s'.
Proof.
  unfold executeRuleAsyncActions, async_ran, modify.
  destruct (run_actions_ran execute (options_of rule) is_async (EventRule.Actions rule) s) as (log1 & s1 & Hr & Hran).
  unfold mbind, M_bind. rewrite Hr. destruct (bool_decide _) eqn:Hf; [exists s1; split; [done|]; exists log1, s1; by rewrite Hf|].
  destruct (run_actions_ran execute (options_of rule) EventAction.IsFailureAction (EventRule.Actions rule) (before_failure s1)) as (log2 & s2 & Hr2 & Hran2).
  rewrite Hr2. exists s2. split; [done|]. exists log1, s1. rewrite Hf. eauto.
Qed.
End tasks.

Section manager.
Context {St : Storage} {Hk : Hooks} {Cfg : Settings} {Zp : Zip} {Out : Outside} {E : Env}.
Variable now IsShared : Z.
Variable now_at : string → Z.
Variable doublestar_Match : string → string → option bool.
Variable range_fields : gmap string string → list (string * string).
Variable round_days : Z → Z.
Variable fuel : nat.
Variable GenerateUniqueID : string.
Notation execute := (executeRuleAction now IsShared now_at doublestar_Match range_fields round_days fuel).
Notation sync_rules := (executeSyncRulesActions now IsShared now_at doublestar_Match range_fields round_days fuel).
Notation run_task := (run_task now IsShared now_at doublestar_Match range_fields round_days fuel GenerateUniqueID).
Notation with_own p s := (s <| Acts.parameters := p |>).

(** The rules of an event one after the other: each runs its synchronous actions
    with a copy of the parameters and leaves a goroutine that knows which of
    them failed. *)
Inductive sync_ran (p : params) : list EventRule.t → Acts.t → list trace → list task → Acts.t → Prop :=
  | sync_nil s : sync_ran p [] s [] [] s
  | sync_rule rule rules s log s1 logs tasks s2 :
      ran execute (options_of rule) (List.filter is_sync (EventRule.Actions rule)) (with_own p s) log s1 →
      sync_ran p rules (with_own (the_params s) s1) logs tasks s2 →
      sync_ran p (rule :: rules) s (log :: logs) (RuleTask rule (the_params s1) (failed_names log) :: tasks) s2.

Lemma last_error_app log logs : last_error (log ++ logs) = match last_error logs with Some e => Some e | None => last_error log end.
Proof.
  induction log as [|[a e] log IH]; cbn [app].
  - unfold last_error at 3. cbn. by destruct (last_error logs).
  - unfold last_error in *. cbn [foldr]. rewrite IH. by repeat case_match.
Qed.

(** C12: The synchronous actions of the matching rules run in order, each until
    one of its rule fails that stops on failure; the event is refused with the
    error of the last failing one, and accepted if none failed; every rule
    leaves a task that is told exactly the actions that failed. *)
Theorem sync_actions_run rules p s : ∃ logs tasks s',
  sync_rules rules p s = (Ok (last_error (concat logs), tasks), s') ∧ sync_ran p rules s logs tasks s'.
Proof.
  revert s. induction rules as [|rule rules IH]; intros s; [by exists [], [], s; split; [|constructor]|].
  cbn [executeSyncRulesActions]. unfold mbind, M_bind, with_params, params_getACopy.
  destruct (run_actions_ran execute (options_of rule) is_sync (EventRule.Actions rule) (with_own p s)) as (log & s1 & -> & Hran).
  destruct (IH (with_own (the_params s) s1)) as (logs & tasks & s2 & -> & Hs). do 3 eexists.
  split; [|by eapply sync_rule]. cbn [concat]. rewrite last_error_app. by destruct (last_error (concat logs)).
Qed.

(** C13: A task of a rule runs its asynchronous actions in order, and its failure
    actions if and only if one of these or one of the synchronous actions
    before has failed. *)
Theorem tasks_run rule p failed s : ∃ s',
  run_task (RuleTask rule p failed) s = (Ok tt, with_own (the_params s) s') ∧ async_ran execute keep_status rule failed (with_own p s) s'.
Proof.
  destruct (executeRuleAsync_ran execute keep_status rule failed (with_own p s)) as (s' & Hr & Hran). exists s'. split; [|done].
  cbn [EventManager.run_task]. unfold run_rule, mbind, M_bind, with_params. by rewrite Hr.
Qed.
End manager.

(** * Whose files an action changes *)

Section items.
Context {St : Storage} {Hk : Hooks} {Cfg : Settings} {Zp : Zip} {E : Env}.
Variable now IsShared : Z.
Variable replacer : list (string * string).
Variable fuel : nat.

(** the directories a server creates when a user logs in: the start directory
    and those that hold the virtual folders *)
Definition kept_dir (v : string) : Prop :=
  v ∈ dirs_of (BaseUserFilters.StartDirectory (base_filters user)) ∨
  ∃ folder, folder ∈ User.VirtualFolders user ∧ v ∈ dirs_of (path_Dir (VirtualFolder.VirtualPath folder)).
(** What an action may ask a storage to do for a user: what the user may do,
    directories included that are created on the way, the copies a storage makes
    by itself, and the directories of a login, with their owner. *)
Definition rule_effect (e : effect) : Prop :=
  authorized e ∨
  match e with
  | EMkdirUnchecked v => authorized (EMkdir v)
  | EKeepDir v | EOwn v => v ≠ "/" ∧ kept_dir v
  | ECopyFile _ _ => server_side e ∧ ∃ f, fs_is_copier f = true
  | _ => False
  end.

(** an action has no file patterns *)
Hypothesis Hall : ∀ p, allowed p.
Lemma mostly_effect e : mostly_authorized e → rule_effect e.
Proof. intros [He|He]; [by left|]. destruct e; try done; [right; by split|left; by split]. Qed.
Lemma copy_effect e : copy_authorized e → rule_effect e.
Proof. intros [He|[He Hf]]; [by apply mostly_effect|]. right. by destruct e. Qed.
Lemma authorized_rule {A} (m : C A) R : emits authorized m R → emits rule_effect m R.
Proof. intros H. eapply emits_or; [exact H|]. intros e He. by left. Qed.
Lemma mostly_rule {A} (m : C A) R : emits mostly_authorized m R → emits rule_effect m R.
Proof. intros H. eapply emits_or; [exact H|]. apply mostly_effect. Qed.
Lemma copy_rule {A} (m : C A) R : emits copy_authorized m R → emits rule_effect m R.
Proof. intros H. eapply emits_or; [exact H|]. apply copy_effect. Qed.
Lemma emits_each_in {A} P (f : A → C unit) l : (∀ x, x ∈ l → emits P (f x) anything) → emits P (each_do f l) anything.
Proof.
  induction l as [|x l IH]; intros H; cbn [each_do]; [emits_auto|]. emits_step; [apply H; by left|]. apply IH. intros y Hy. apply H. by right.
Qed.
Lemma emits_each_do {A} P (f : A → C unit) l : (∀ x, emits P (f x) anything) → emits P (each_do f l) anything.
Proof. intros H. by apply emits_each_in. Qed.
Lemma emits_foldl {A B} P (f : C B → A → C B) l m :
  (∀ x k, emits P k anything → emits P (f k x) anything) → emits P m anything → emits P (foldl f m l) anything.
Proof. intros H. revert m. induction l as [|x l IH]; intros m Hm; cbn [foldl]; [done|]. apply IH. by apply H. Qed.
Lemma emits_outcome {A} P (m : C A) : emits P m anything → emits P (outcome m) anything.
Proof. intros H s. split; [by destruct (H s)|done]. Qed.

#[local] Hint Resolve GetFilesystemForPath_emits GetFsAndResolvedPath_emits fs_call_look_emits getRealFsPath_emits
  DoStat_emits ListDir_emits updateUserQuotaAfterFileWrite_emits doStatInternal_emits notify_action_emits : emits.

Lemma check_root_emits f : emits rule_effect (check_root f) anything.
Proof. eapply emits_ignore, emits_on_files. Qed.
#[local] Hint Resolve check_root_emits : emits.
Lemma checkDirWithParents_emits dir : (∀ v, v ∈ dirs_of dir → kept_dir v) → emits rule_effect (checkDirWithParents dir) anything.
Proof.
  intros Hdir. apply emits_each_in. intros p Hp. rewrite elem_of_reverse in Hp. destruct (String.eqb_spec p "/") as [|Hne]; [emits_auto|].
  assert (p ≠ "/" ∧ kept_dir p) as Hkeep by (split; [done|by apply Hdir]). emits_step; [emits_auto|]. emits_step; [emits_auto|].
  emits_step; [emits_auto|]. emits_step; [emits_auto..|]. emits_step; [|emits_auto]. emits_step; [|by apply SetPathPermissions_emits; right].
  apply emits_perform. by right.
Qed.
Lemma CheckFsRoot_emits : emits rule_effect (CheckFsRoot now IsShared) anything.
Proof.
  unfold CheckFsRoot. emits_step; [emits_auto|]. emits_step; [unfold checkLocalHomeDir; emits_auto|].
  unfold checkRootPath. emits_step; [emits_auto|].
  emits_step; [emits_step; [eapply emits_ignore, checkDirWithParents_emits; by left|emits_auto]|].
  apply emits_each_in. intros v Hv. emits_step; [emits_auto|]. eapply emits_ignore, checkDirWithParents_emits. intros d Hd. right. by exists v.
Qed.
#[local] Hint Resolve CheckFsRoot_emits : emits.

Lemma delete_emits l : emits rule_effect (executeDeleteFsActionForUser now IsShared replacer l) anything.
Proof.
  unfold executeDeleteFsActionForUser. emits_step; [emits_auto|]. apply emits_each_do. intros item.
  emits_step; [apply emits_outcome; emits_auto|]. case_match; [|emits_auto].
  case_match; [apply authorized_rule, RemoveDir_emits|]. unfold executeDeleteFileFsAction. emits_step; [emits_auto|]. case_match.
  apply authorized_rule, RemoveFile_emits.
Qed.
Lemma mkdirs_emits l : emits rule_effect (executeMkDirsFsActionForUser now IsShared replacer l) anything.
Proof.
  unfold executeMkDirsFsActionForUser. emits_step; [emits_auto|]. apply emits_each_do. intros item.
  emits_step; apply mostly_rule; [apply CheckParentDirs_emits|apply createDirIfMissing_emits].
Qed.
Lemma rename_emits l : emits rule_effect (executeRenameFsActionForUser now IsShared replacer l) anything.
Proof.
  unfold executeRenameFsActionForUser. emits_step; [emits_auto|]. apply emits_each_do. intros item. apply mostly_rule, renameInternal_emits.
Qed.
Lemma copy_emits l : emits rule_effect (executeCopyFsActionForUser now IsShared replacer fuel l) anything.
Proof.
  unfold executeCopyFsActionForUser. emits_step; [emits_auto|]. apply emits_each_do. intros item. apply copy_rule, Copy_emits.
Qed.
Lemma exist_emits l : emits rule_effect (executeExistFsActionForUser now IsShared replacer l) anything.
Proof.
  unfold executeExistFsActionForUser. emits_step; [emits_auto|]. apply emits_each_do. intros item. emits_auto.
Qed.

Lemma getSizeForPath_emits n p i : emits rule_effect (getSizeForPath n p i) anything.
Proof.
  revert p i. induction n as [|n IH]; intros p i; cbn [getSizeForPath]; [apply emits_fail|]. emits_step; [|emits_auto].
  emits_step; [emits_auto|]. apply emits_foldl; [|emits_auto]. intros x k Hkk. emits_step; [done|]. emits_step; [apply IH|emits_auto].
Qed.
Lemma estimateZipSize_emits z l : emits rule_effect (estimateZipSize fuel z l) anything.
Proof.
  unfold estimateZipSize. emits_step; [emits_auto|]. emits_step; [|emits_auto]. emits_step; [|emits_auto].
  apply emits_foldl; [|emits_auto]. intros x k Hkk. emits_step; [done|]. emits_step; [emits_auto|]. emits_step; [apply getSizeForPath_emits|emits_auto].
Qed.
Lemma addZipEntry_emits n w a b p m : emits rule_effect (addZipEntry n w a b p m) anything.
Proof.
  revert p m. induction n as [|n IH]; intros p m; cbn [addZipEntry]; [apply emits_fail|]. emits_step; [emits_auto|].
  emits_step; [emits_auto|]. emits_step; [emits_auto|]. emits_step; [emits_auto|]. cbv zeta. emits_step.
  - emits_step; [emits_auto|]. emits_step; [emits_auto|]. apply emits_foldl; [|emits_auto]. intros x k Hkk. emits_step; [done|]. apply IH.
  - emits_step; [emits_auto|]. emits_step; [apply mostly_rule, getFileReader_emits|].
    emits_step; [apply emits_outcome; emits_auto|]. emits_step; [eapply emits_ignore, emits_on_files|emits_auto].
Qed.
Lemma close_emits w p n t e op : emits rule_effect (closeWriterAndUpdateQuota w p "" n t e op) anything.
Proof.
  unfold closeWriterAndUpdateQuota. emits_step; [apply emits_silent; intros st; unfold on_files; by destruct (writer_Close w _)|].
  cbn [String.eqb]. emits_auto.
Qed.
Lemma compress_emits c : emits rule_effect (executeCompressFsActionForUser now IsShared replacer fuel c) anything.
Proof.
  unfold executeCompressFsActionForUser. emits_step; [emits_auto|]. emits_step; [eapply emits_ignore, mostly_rule, CheckParentDirs_emits|].
  emits_step; [emits_auto|]. emits_step; [apply estimateZipSize_emits|]. emits_step; [eapply emits_anything, authorized_rule, getFileWriter_emits, Hall|]. do 2 emits_step.
  emits_step; [apply emits_outcome, emits_foldl; [|emits_auto]; intros x k Hkk; emits_step; [done|apply addZipEntry_emits]|].
  emits_step.
  - emits_step; [apply emits_outcome; emits_auto|]. emits_step; [apply close_emits|]. emits_step; [eapply emits_ignore, close_emits|emits_auto].
  - emits_step; [eapply emits_ignore, close_emits|emits_auto].
Qed.
End items.

Section users.
Context {St : Storage} {Hk : Hooks} {Cfg : Settings} {Zp : Zip} {Out : Outside} {E : Env}.
Variable now IsShared : Z.
Variable doublestar_Match : string → string → option bool.
Variable range_fields : gmap string string → list (string * string).
Variable fuel : nat.
Notation sender s := (EventParams.sender (the_params s)).
Notation selects := (checkUserConditionOptions doublestar_Match).

(** From a state with this sender, every effect [m] adds satisfies [P], and the
    sender stays. *)
Definition touches {A} (sent : string) (P : string * effect → Prop) (m : acts A) : Prop := ∀ s, sender s = sent →
  (∃ l, Acts.effects (m s).2 = Acts.effects s ++ l ∧ Forall P l) ∧ sender (m s).2 = sent.

Lemma touches_bind {A B} sent P (m : acts A) (k : A → acts B) : touches sent P m → (∀ a, touches sent P (k a)) → touches sent P (m ≫= k).
Proof.
  intros Hm Hkk s Hsent. destruct (Hm s Hsent) as [(l & Hl & HP) Hs]. unfold mbind, M_bind. destruct (m s) as [[a|e] s1]; cbn in *; [|eauto].
  destruct (Hkk a s1 Hs) as [(l' & Hl' & HP') Hs']. rewrite Hl', Hl, Hs'. split; [|done]. exists (l ++ l').
  split; [by rewrite (assoc_L (++))|]. by apply Forall_app.
Qed.
Lemma touches_outcome {A} sent P (m : acts A) : touches sent P m → touches sent P (outcome m).
Proof. intros H s Hs. exact (H s Hs). Qed.
(** nothing is recorded *)
Lemma touches_none {A} sent P (m : acts A) : (∀ s, Acts.effects (m s).2 = Acts.effects s ∧ sender (m s).2 = sender s) → touches sent P m.
Proof. intros H s Hs. destruct (H s) as [-> ->]. split; [|done]. exists []. by rewrite app_nil_r. Qed.
Lemma touches_ret {A} sent P (a : A) : touches sent P (mret a).
Proof. by apply touches_none. Qed.
Lemma touches_report sent P e : touches sent P (on_params (AddError (Some e))).
Proof. apply touches_none. intros s. split; [done|]. cbn. by case_match. Qed.
(** the file patterns allow everything when there are none *)
Hypothesis no_patterns_allow : ∀ name, env_CheckAllowed PatternsFilter.zero name = true.
Notation event_env u := (env_of (BaseConnection.mk (protocolEventAction +:+ "_") u protocolEventAction "" "")).
Lemma event_env_allowed u : BaseUserFilters.FilePatterns (base_filters u) = [] → ∀ p, allowed (E := event_env u) p.
Proof.
  intros Hu p. unfold allowed, IsFileAllowed, isDirHidden, getPatternsFilterForPath. cbn. rewrite Hu. apply no_patterns_allow.
Qed.
Lemma event_user_patterns range groups user u : getUserForEventAction range groups user = Ok u → BaseUserFilters.FilePatterns (base_filters u) = [].
Proof. unfold getUserForEventAction. destruct (match LoadAndApplyGroupSettings _ _ _ with Ok _ => _ | Err _ => _ end); [|done]. by intros [= <-]. Qed.
Lemma touches_as_user sent P u (m : Env → C unit) : (∀ e : effect, rule_effect (E := event_env u) e → P (User.Username u, e)) →
  emits (rule_effect (E := event_env u)) (m (event_env u)) anything → touches sent P (as_user u m).
Proof.
  intros HP Hm s Hs. unfold as_user, with_conn. destruct (Hm
    (Conn.mk _ (Acts.files s) (Acts.quotas s) ∅ [] 0 false false [])) as [(l & Hl & Hr) _].
  destruct (m _ _) as [r conn]. cbn in Hl |- *. rewrite Hl. split; [|done]. eexists. split; [done|]. apply Forall_fmap.
  eapply Forall_impl; [exact Hr|]. exact HP.
Qed.

Lemma over_users_touches sent P conditions report f users :
  (∀ user, user ∈ users → (sent = "" → selects user conditions = true) → touches sent P (f user)) →
  touches sent P (over_users doublestar_Match conditions report f users).
Proof.
  induction users as [|user users IH]; intros Hf; [apply touches_ret|]. cbn [over_users].
  assert (touches sent P (over_users doublestar_Match conditions report f users)) as Hrest.
  { apply IH. intros u Hu. apply Hf. by right. }
  intros s Hsent. destruct (skips _ _ _ _) eqn:Hs; [by apply Hrest|].
  assert (touches sent P (f user)) as Huser.
  { apply Hf; [by left|]. intros ->. unfold skips in Hs. rewrite Hsent in Hs. by apply negb_false_iff in Hs. }
  clear Hs. revert s Hsent. change (touches sent P (done ← outcome (f user);
    match done with
    | Ok _ => '(executed, failures) ← over_users doublestar_Match conditions report f users; mret (executed + 1, failures)
    | Err e => _ ← (if report then on_params (AddError (Some e)) else mret tt);
               '(executed, failures) ← over_users doublestar_Match conditions report f users; mret (executed + 1, User.Username user :: failures)
    end)).
  apply touches_bind; [by apply touches_outcome|]. intros [[]|e].
  - apply touches_bind; [done|]. intros [? ?]. apply touches_ret.
  - apply touches_bind; [destruct report; [apply touches_report|apply touches_ret]|]. intros _.
    apply touches_bind; [done|]. intros [? ?]. apply touches_ret.
Qed.

(** The users an event with these parameters is about. *)
Definition is_about (conditions : ConditionOptions.t) (s : Acts.t) (user : User.t) : Prop :=
  (∃ users, (getUsers s).1 = Ok users ∧ user ∈ users) ∧ (sender s = "" → selects user conditions = true).
(** an effect for one of them, in the name of that user with all the permissions *)
Definition confined (conditions : ConditionOptions.t) (s : Acts.t) '((name, e) : string * effect) : Prop :=
  ∃ user groups u, is_about conditions s user ∧ getUserForEventAction env_range_perms groups user = Ok u ∧ name = User.Username u ∧
    rule_effect (E := event_env u) e.

Lemma getUsers_pure s : (getUsers s).2 = s.
Proof. unfold getUsers, getUserFromSender, mbind, M_bind. repeat case_match; simplify_eq/=; done. Qed.

Lemma users_action_confined failed sep none report conditions (m : Env → C unit) s :
  (∀ E' : Env, (∀ p, allowed (E := E') p) → emits (rule_effect (E := E')) (m E') anything) →
  let s' := (users_action doublestar_Match failed sep none report conditions (as_event_user m) s).2 in
  ∃ l, Acts.effects s' = Acts.effects s ++ l ∧ Forall (confined conditions s) l.
Proof.
  intros Hm. unfold users_action. unfold mbind at 1, M_bind at 1. pose proof (getUsers_pure s) as Hpure.
  destruct (getUsers s) as [[users|e] s1] eqn:Hu; cbn [snd] in Hpure |- *; subst s1; [|by exists []; rewrite app_nil_r].
  assert (touches (sender s) (confined conditions s) (
    '(executed, failures) ← over_users doublestar_Match conditions report (as_event_user m) users;
    lift (verdict failed sep none executed failures))) as Ht; [|by destruct (Ht s eq_refl) as [? _]].
  apply touches_bind; [|intros [? ?]; by apply touches_none]. apply over_users_touches. intros user Huser Hsel.
  intros s1 Hs1. unfold as_event_user, in_db, mbind, M_bind.
  destruct (getUserForEventAction _ _ _) as [u|e] eqn:Hget; [|split; [exists []; by rewrite app_nil_r|done]].
  apply touches_as_user; [|by apply Hm, event_env_allowed; eapply event_user_patterns|done]. intros e He. exists user. do 2 eexists. split_and!; [|exact Hget|done..].
  split; [|done]. exists users. by rewrite Hu.
Qed.

End users.

(** * The users an action reports *)

Section reports.
Context {St : Storage} {Cfg : Settings} {Out : Outside}.
Variable doublestar_Match : string → string → option bool.
Variable conditions : ConditionOptions.t.
Variable report : bool.
Variable f : User.t → acts unit.
Notation skips s user := (skips doublestar_Match conditions (the_params s) user).

(** The users one after the other: the ones whose conditions do not match are
    left out, every other is tried once, also after another has failed, and a
    failure is noted in the parameters if it is reported. *)
Inductive tried : list User.t → Acts.t → list (User.t * option error) → Acts.t → Prop :=
  | tried_nil s : tried [] s [] s
  | tried_skip user users s log s' : skips s user = true → tried users s log s' → tried (user :: users) s log s'
  | tried_ok user users s s1 log s2 : skips s user = false → f user s = (Ok tt, s1) →
      tried users s1 log s2 → tried (user :: users) s ((user, None) :: log) s2
  | tried_failed user users s s1 e log s2 : skips s user = false → f user s = (Err e, s1) →
      tried users (if report then s1 <| Acts.parameters ::= AddError (Some e) |> else s1) log s2 →
      tried (user :: users) s ((user, Some e) :: log) s2.
Definition failing (log : list (User.t * option error)) : list string :=
  omap (fun '(user, e) => if (e : option error) is Some _ then Some (User.Username user) else None) log.

Lemma one_more (x : User.t * option error) log : Z.of_nat (length log) + 1 = Z.of_nat (length (x :: log)).
Proof. cbn [length]. lia. Qed.
Lemma over_users_tried users s : ∃ log s',
  over_users doublestar_Match conditions report f users s = (Ok (Z.of_nat (length log), failing log), s') ∧ tried users s log s'.
Proof.
  revert s. induction users as [|user users IH]; intros s; [by exists [], s; split; [|constructor]|]. cbn [over_users].
  destruct (skips s user) eqn:Hs.
  { destruct (IH s) as (log & s' & -> & Ht). exists log, s'. split; [done|]. by apply tried_skip. }
  unfold mbind, M_bind, outcome. destruct (f user s) as [[[]|e] s1] eqn:Hf; cbn [fst snd].
  - destruct (IH s1) as (log & s2 & -> & Ht). exists ((user, None) :: log), s2. split; [|by eapply tried_ok].
    unfold mret, M_ret. by rewrite (one_more (user, None)).
  - destruct (IH (if report then s1 <| Acts.parameters ::= AddError (Some e) |> else s1)) as (log & s2 & Hr & Ht).
    exists ((user, Some e) :: log), s2. split; [|by eapply tried_failed].
    destruct report; unfold on_params, modify, mret, M_ret; cbn [fst snd] in Hr |- *; rewrite Hr; by rewrite (one_more (user, Some e)).
Qed.

(** C14: An action over users tries each user that is not skipped exactly once; it
    fails if and only if one of them fails, naming all that failed, or, where
    that is an error, if no user was tried. *)
Theorem actions_name_the_failing failed sep none users s : (getUsers s).1 = Ok users → ∃ log s',
  tried users s log s' ∧
  users_action doublestar_Match failed sep none report conditions f s =
    (if bool_decide (failing log ≠ []) then Err (PlainError (failed +:+ String.concat sep (failing log)))
     else match none with
          | Some msg => if bool_decide (log = []) then Err (PlainError msg) else Ok tt
          | None => Ok tt
          end, s').
Proof.
  intros Hu. unfold users_action, mbind, M_bind. pose proof (getUsers_pure s) as Hpure.
  destruct (getUsers s) as [r s0]. cbn [fst snd] in Hu, Hpure. subst r s0.
  destruct (over_users_tried users s) as (log & s' & -> & Ht). exists log, s'. split; [done|].
  unfold lift, verdict. f_equal. destruct (bool_decide (failing log ≠ [])); [done|]. cbn [refuse mbind res_bind].
  destruct none as [msg|]; [|done]. unfold refuse. destruct log; [done|]. rewrite bool_decide_false by done. by rewrite (proj2 (Z.eqb_neq _ _)) by (cbn; lia).
Qed.
End reports.

(** * Quota resets *)

Section quotas.
Context {St : Storage} {Hk : Hooks} {Cfg : Settings} {Zp : Zip} {Out : Outside} {E : Env}.
Variable now : Z.

Lemma foldl_pure {A B} (step : C B → A → C B) l (m : C B) s : (∀ m a, (m s).2 = s → (step m a s).2 = s) → (m s).2 = s →
  (foldl step m l s).2 = s.
Proof. intros Hstep. revert m. induction l as [|a l IH]; intros m Hm; [done|]. cbn [foldl]. apply IH. by apply Hstep. Qed.
Lemma getRootFs_pure {E' : Env} s : (getRootFs s).2 = s.
Proof. done. Qed.
Lemma folder_ScanQuota_pure v s : (folder_ScanQuota v s).2 = s.
Proof. unfold folder_ScanQuota, fail_if, plain_folder_fs, look, lift, mbind, M_bind. by repeat case_match; simplify_eq/=. Qed.
Lemma user_ScanQuota_pure {E' : Env} s : (user_ScanQuota s).2 = s.
Proof.
  unfold user_ScanQuota, mbind at 1, M_bind at 1. pose proof (getRootFs_pure s) as Hp. destruct (getRootFs s) as [[f|e] s1]; cbn in Hp; subst s1; [|done].
  unfold mbind at 1, M_bind at 1, look. cbn. destruct (fs_ScanRootDirContents f (Conn.files s)) as [start|e]; [|done].
  apply foldl_pure; [|done]. intros m v Hm. unfold mbind, M_bind. destruct (m s) as [[[n z]|e] s1]; cbn in Hm; subst s1; [|done].
  case_match; [done|]. pose proof (folder_ScanQuota_pure v s) as Hp.
  destruct (folder_ScanQuota v s) as [[[a b]|e] s1]; by cbn in Hp; subst s1.
Qed.

Lemma add_then_remove username role t l l' : AddUserQuotaScan t username role l = (true, l') → RemoveUserQuotaScan username l' = (true, l).
Proof.
  unfold AddUserQuotaScan, RemoveUserQuotaScan. destruct (existsb _ l) eqn:Hex; [done|]. intros [= <-].
  set (scan := ActiveQuotaScan.mk username t role).
  assert (list_find (fun x => scan_name x = username) (l ++ [scan]) = Some (length l, scan)) as ->.
  { apply list_find_Some. split_and!; [by rewrite list_lookup_middle|done|]. intros j y Hy Hlt Hname. rewrite lookup_app_l in Hy by done.
    rewrite <-not_true_iff_false, existsb_exists in Hex. apply Hex. exists y. split; [apply list_elem_of_In; by eapply list_elem_of_lookup_2|].
    by apply String.eqb_eq. }
  f_equal. unfold swap_remove. rewrite last_snoc, length_app, Nat.add_1_r. cbn [pred length].
  rewrite insert_app_r_alt, Nat.sub_diag by lia. cbn. by rewrite take_app_length.
Qed.

Lemma reset_counts u files size q q' : open_and_wf (Quotas.db q) → in_int64 files → in_int64 size →
  UpdateUserQuota env_now (CommonConfig.TrackQuota cfg) (CommonConfig.DelayedQuotaUpdate cfg) u files size true q = (Ok tt, q') →
  @used_counters _ (user_store env_now) (User.Username u) (Quotas.db q', Quotas.pendingUserQuotaUpdates q') = Ok (files, size).
Proof.
  intros Hq Hf Hz. unfold UpdateUserQuota, on_users, on_pending. rewrite !andb_false_r. destruct (_ =? 0); [done|].
  set (delayed := delayed _). cbn [andb].
  destruct (@read_counters _ (user_store env_now) (User.Username u) (Quotas.db q)) as [[a b]|e] eqn:Hr.
  - destruct (@used_counters _ (user_store env_now) (User.Username u) (Quotas.db q, Quotas.pendingUserQuotaUpdates q)) as [[x y]|e] eqn:Hused;
      [|unfold used_counters in Hused; cbn [fst snd] in Hused; rewrite Hr in Hused; cbn in Hused; by case_match].
    destruct (@update_or_delay_reset _ _ (user_laws env_now) delayed (User.Username u) files size (Quotas.db q) (Quotas.pendingUserQuotaUpdates q)
      x y Hf Hz Hq Hused) as (d' & p' & -> & _ & Hused'). intros [= <-]. transitivity (@used_counters _ (user_store env_now) (User.Username u) (d', p')); [done|]. rewrite Hused'. by rewrite decide_True.
  - unfold update_or_delay. rewrite orb_true_r. rewrite (@update_missing _ _ (user_laws env_now) _ _ _ true _ e Hq Hr). done.
Qed.

Notation used u q := (@used_counters _ (user_store env_now) (User.Username u) (Quotas.db q, Quotas.pendingUserQuotaUpdates q)).
(** A quota reset of a rule that succeeds leaves the user with the files and
    the size its storages hold, updates still to be stored included, and no
    scan behind; one that fails leaves no scan of its own behind either. *)
Theorem quota_reset_counts user s : open_and_wf (db s) →
  let '(r, s') := executeQuotaResetForUser now user s in
  Acts.userScans s' = Acts.userScans s ∧
  (r = Ok tt → ∃ u files size, LoadAndApplyGroupSettings env_range_perms (fun names => getGroupsWithNames names (db s)) user = Ok u ∧
     (user_ScanQuota (E := env_of (BaseConnection.mk (protocolEventAction +:+ "_") u protocolEventAction "" ""))
        (Conn.mk _ (Acts.files s) (Acts.quotas s) ∅ [] 0 false false [])).1 = Ok (files, size) ∧
     (in_int64 files → in_int64 size → used u (Acts.quotas s') = Ok (files, size))).
Proof.
  intros Hdb. unfold executeQuotaResetForUser, load_groups, in_db, mbind, M_bind, update_scans.
  destruct (LoadAndApplyGroupSettings _ _ user) as [u|e] eqn:Hload; [|by split].
  destruct (AddUserQuotaScan _ _ _ _) as [added scans] eqn:Hadd. destruct added; cbn [negb].
  2: { unfold AddUserQuotaScan in Hadd. destruct (existsb _ _); [|done]. injection Hadd as <-. by split. }
  apply add_then_remove in Hadd. unfold finally, as_user, with_conn. cbn [Acts.files Acts.quotas Acts.userScans].
  set (c0 := Conn.mk _ _ _ _ _ _ _ _ _). set (conn := BaseConnection.mk _ _ _ _ _).
  pose proof (@user_ScanQuota_pure (env_of conn) c0) as Hpure. destruct (user_ScanQuota c0) as [[[n z]|e] c1] eqn:Hscan; cbn in Hpure; subst c1.
  - cbn [fst snd]. unfold on_counters.
    match goal with |- context [UpdateUserQuota ?a ?b ?c ?d n z true ?q] => destruct (UpdateUserQuota a b c d n z true q) as [r q'] eqn:Hup end.
    cbn. rewrite Hadd. split; [done|]. intros ->. exists u, n, z. split_and!; [done|exact (f_equal fst Hscan)|]. intros Hn Hz.
    eapply reset_counts; [|done..|exact Hup]. exact Hdb.
  - cbn. rewrite Hadd. by split.
Qed.
End quotas.

(** * The names in an archive *)

Lemma zip_name bs ps : Forall normal (bs ++ ps) → getZipEntryName (abs_path (bs ++ ps)) (abs_path bs) = Ok (join_slash ps).
Proof.
  intros Hn. pose proof Hn as [Hb Hp]%Forall_app. unfold getZipEntryName.
  enough (has_prefix (abs_path (bs ++ ps)) (abs_path bs) = true ∧
    (TrimPrefix (abs_path (bs ++ ps)) (abs_path bs) = join_slash ps ∨ TrimPrefix (abs_path (bs ++ ps)) (abs_path bs) = abs_path ps)) as [-> Ht].
  { cbn [negb]. destruct Ht as [-> | ->]; [|by rewrite TrimPrefix_slash]. by rewrite TrimPrefix_rel by by apply is_abs_join. }
  destruct bs as [|b bs]; [split; [done|left; apply TrimPrefix_slash]|].
  destruct ps as [|p ps]; [rewrite app_nil_r; split; [|left; apply TrimPrefix_self]|rewrite abs_path_app by done; split; [apply has_prefix_app|right; apply TrimPrefix_app]].
  pose proof (has_prefix_app (abs_path (b :: bs)) "") as H0. by rewrite append_nil_r in H0.
Qed.

Lemma archive_base css : Forall (Forall normal) css → ∃ bs, Forall normal bs ∧
  getArchiveBaseDir (abs_path <$> css) = abs_path bs ∧ ∀ cs, cs ∈ css → bs `prefix_of` cs.
Proof.
  intros Hcss. unfold getArchiveBaseDir.
  assert (∀ cs, cs ∈ css → path_Dir (abs_path cs) ∈ RemoveDuplicates (path_Dir <$> (abs_path <$> css)) false) as Hin.
  { intros cs Hcs. apply RemoveDuplicates_elem. apply list_elem_of_fmap. exists (abs_path cs). split; [done|]. apply list_elem_of_fmap. by exists cs. }
  destruct css as [|cs0 css]; [by exists []; split_and!; [constructor|..|intros cs Hcs; apply prefix_nil]|].
  destruct (RemoveDuplicates _ _) as [|base [|]]; [by exists []; split_and!; [constructor|..|intros cs Hcs; apply prefix_nil]| |
    by exists []; split_and!; [constructor|..|intros cs Hcs; apply prefix_nil]].
  assert (∀ cs, cs ∈ cs0 :: css → path_Dir (abs_path cs) = base) as Hbase by (intros cs Hcs; by apply list_elem_of_singleton, Hin).
  destruct (path_Dir_abs (abs_path cs0) (is_abs_abs_path cs0)) as (bs & Hbs & Hd).
  rewrite Hbase in Hd by by left. subst base. exists bs. split_and!; [done..|]. intros cs Hcs. specialize (Hbase cs Hcs).
  rewrite Forall_forall in Hcss. specialize (Hcss cs Hcs). destruct cs as [|c cs _] using rev_ind.
  - change (abs_path [] = abs_path bs) in Hbase. apply abs_path_inj in Hbase as <-; [done|constructor|done].
  - rewrite path_Dir_snoc in Hbase by done. apply abs_path_inj in Hbase as <-; [by eexists|by apply Forall_app in Hcss as [? _]|done].
Qed.

(** Whatever clean paths an archive is made of, there is one directory such
    that every entry, at any depth below the paths, is named by its path
    relative to it; so two files never share a name. *)
Theorem archive_names_are_relative css : Forall (Forall normal) css → ∃ bs, ∀ cs rest, cs ∈ css → Forall normal rest → ∃ ps,
  cs ++ rest = bs ++ ps ∧ getZipEntryName (abs_path (cs ++ rest)) (getArchiveBaseDir (abs_path <$> css)) = Ok (join_slash ps).
Proof.
  intros Hcss. destruct (archive_base css Hcss) as (bs & Hbs & -> & Hpre). exists bs. intros cs rest Hcs Hrest.
  destruct (Hpre cs Hcs) as [ps ->]. exists (ps ++ rest). split; [by rewrite (assoc_L (++))|].
  rewrite Forall_forall in Hcss. specialize (Hcss _ Hcs). rewrite <-(assoc_L (++)). apply zip_name.
  rewrite (assoc_L (++)). by apply Forall_app.
Qed.

(** * A small server *)

Section toy.
#[local] Existing Instance toy_hooks.
#[local] Existing Instance sample_settings.
#[local] Instance toy_files : Storage := toy false.
#[local] Instance toy_zip : @Zip toy_files := {| zip_CreateHeader _ _ _ w := (Ok tt, w); zip_Copy _ _ _ w := (Ok tt, w); zip_Close _ w := (Ok tt, w) |}.
#[local] Instance toy_outside : @Outside toy_files := {|
  http_action _ _ _ s := (Err (PlainError "unreachable"), s); cmd_Run _ _ _ _ s := (Ok tt, s); os_Getenv _ := "";
  SendEmail _ _ _ _ _ _ s := (Ok tt, s); SendPasswordExpiration _ _ s := (Ok tt, s); do_backup s := (Ok "/backups/b.json", s);
  stat_size _ := None; GetBackupsPath := "/backups" |}.
#[local] Instance toy_settings : Env := toy_env User.zero.
Definition toy_acts (sender : string) : Acts.t := Acts.mk toy_files (list_to_map [("/docs", None); ("/docs/a", Some 10); ("/docs/b", Some 7)])
  sample_quotas [] [] [] [] (EventParams.zero <| EventParams.sender := sender |> <| EventParams.Status := 1 |>) [].

Definition all_users : list User.t := match dumpUsers sample with Ok l => l | Err _ => [] end.
Definition refuse_alice (user : User.t) : acts unit := if User.Username user =s "alice" then fail (PlainError "refused") else mret tt.
Lemma actions_name_the_failing_witness :
  let run := users_action (fun _ _ => None) "failed: " ", " None true ConditionOptions.zero refuse_alice (toy_acts "") in
  run.1 = Err (PlainError "failed: alice") ∧ (∃ log, tried (fun _ _ => None) ConditionOptions.zero true refuse_alice all_users (toy_acts "") log run.2) ∧
  EventParams.errors (the_params run.2) = ["refused"].
Proof.
  intros run. split; [by vm_compute|]. split; [|by vm_compute].
  destruct (actions_name_the_failing (fun _ _ => None) ConditionOptions.zero true refuse_alice "failed: " ", " None all_users (toy_acts "")
    ltac:(by vm_compute)) as (log & s' & Ht & Hr). exists log. subst run. rewrite Hr. exact Ht.
Defined.

(** a directory is created for an event the server sends itself *)
Definition mkdir_action : EventActionFilesystemConfig.t :=
  EventActionFilesystemConfig.zero <| EventActionFilesystemConfig.Type_ := FilesystemActionMkdirs |> <| EventActionFilesystemConfig.MkDirs := ["/docs/new"] |>.

(** the files of alice are counted: one of 10 and one of 7 bytes *)
Lemma quota_reset_counts_witness :
  let run := executeQuotaResetForUser 0 (mk_user "alice" "" [] []) (toy_acts "alice") in
  run.1 = Ok tt ∧ Acts.userScans run.2 = [] ∧ Api_GetUsedQuota 1 "alice" (Acts.quotas run.2) = Ok (2, 17, 0, 0).
Proof.
  intros run. split; [by vm_compute|]. split; [|by vm_compute].
  pose proof (quota_reset_counts 0 (mk_user "alice" "" [] []) (toy_acts "alice") sample_open) as H.
  subst run. destruct (executeQuotaResetForUser _ _ _) as [r s']. exact (proj1 H).
Defined.

Lemma archive_names_are_relative_witness :
  getArchiveBaseDir ["/docs/a"; "/docs/b"] = "/docs" ∧ ∃ bs, ∀ cs rest, cs ∈ [["docs"; "a"]; ["docs"; "b"]] → Forall normal rest → ∃ ps,
  cs ++ rest = bs ++ ps ∧ getZipEntryName (abs_path (cs ++ rest)) "/docs" = Ok (join_slash ps).
Proof.
  split; [by vm_compute|]. apply (archive_names_are_relative [["docs"; "a"]; ["docs"; "b"]]).
  repeat (apply Forall_cons_2; [normal_list|]). apply Forall_nil_2.
Defined.

(** A rule that deletes the file of the user, mails it about and, as the request
    to a server fails, runs its failure action. *)
Definition delete_action (path : string) : BaseEventAction.t :=
  BaseEventAction.zero <| BaseEventAction.Name := "delete" |> <| BaseEventAction.Type_ := ActionTypeFilesystem |>
    <| BaseEventAction.Options := BaseEventActionOptions.mk EventActionHTTPConfig.zero EventActionCommandConfig.zero EventActionEmailConfig.zero []
         (EventActionFilesystemConfig.zero <| EventActionFilesystemConfig.Type_ := FilesystemActionDelete |>
                                           <| EventActionFilesystemConfig.Deletes := [path] |>) 0 EventActionIDPAccountCheck.zero |>.
Definition http_step : BaseEventAction.t := BaseEventAction.zero <| BaseEventAction.Name := "http" |> <| BaseEventAction.Type_ := ActionTypeHTTP |>.
Definition a_rule : EventRule.t := EventRule.zero <| EventRule.Name := "r" |>
  <| EventRule.Actions := [EventAction.mk http_step 1 false false true; EventAction.mk (delete_action "/docs/a") 2 false false true;
                           EventAction.mk (delete_action "/docs/b") 3 true false false] |>.
Example rule_runs :
  let run := executeSyncRulesActions 0 0 (fun _ => 0) (fun _ _ => None) map_to_list (fun d => d) 10 [a_rule] (EventParams.zero <| EventParams.sender := "__system__" |>)
               (toy_acts "") in
  (match run.1 with Ok (err, [RuleTask _ _ failed]) => Some (err, failed) | _ => None end) = Some (Some (PlainError ("action " +:+ Quote "http" +:+ " failed: unreachable")), ["http"]) ∧
  Acts.effects run.2 = [("__system__", ERemove "/docs/a" false)] ∧
  match run.1 with
  | Ok (_, [t]) => Acts.effects (run_task 0 0 (fun _ => 0) (fun _ _ => None) map_to_list (fun d => d) 10 "uid" t run.2).2 =
                   [("__system__", ERemove "/docs/a" false); ("__system__", ERemove "/docs/b" false)]
  | _ => False
  end.
Proof. by vm_compute. Qed.
End toy.
