(* ===== verification/IdpProps.v ===== *)
(** What logins through an identity provider guarantee: the user that logs in
    has the name the provider vouches for, and an account is only changed where
    the rule says so ([idp_user_has_the_name], [idp_mode_1_keeps_accounts]); and
    what such a login loses ([idp_login_drops_second_factor]). *)
From S2P Require Import Prelude GoPath Util FsConfig FsValidate Secrets Entities Links Tables MemoryCore MemoryOps MemoryInv GroupMerge MemoryQueries ValidateUser ValidateObjects EventRules EventContainer Quota IPLists IPListSync ProviderApi Backup ConnData EventMatch EventActions EventManager ApiProps Samples ValidateUserProps BackupProps.
Open Scope Z_scope.

Lemma LoadAndApply_ext range groups u u' : LoadAndApplyGroupSettings range groups u = Ok u' → GroupMerge.extends u u'.
Proof.
  unfold LoadAndApplyGroupSettings. destruct (negb _); [by intros [= <-]|]. destruct (User.groupSettingsApplied u); [by intros [= <-]|].
  destruct (groups _) as [l|e]; [|done]. cbv zeta. destruct (take_primary _ _ _) as [[g l']|]; intros [= <-].
  - etrans; [apply mergeWithPrimaryGroup_ext|]. etrans; [|apply removeDuplicates_ext]. apply foldl_ext. intros ? ?. apply mergeAdditiveProperties_ext.
  - etrans; [|apply removeDuplicates_ext]. apply foldl_ext. intros ? ?. apply mergeAdditiveProperties_ext.
Qed.

Section props.
Context {K : Kms} {Cfg : Settings} {R : Ranger}.
Context `{!Validate User.t, !Validate Group.t, !Validate Admin.t, !Validate Role.t,
  !Validate BaseVirtualFolder.t, !Validate APIKey.t, !Validate Share.t, !Validate BaseEventAction.t,
  !Validate EventRule.t, !Validate IPListEntry.t, !Validate Configs.t}.
Context {VN : ValidNames}.
Variable now : nat → Z.
Variable range : gmap string (list string) → list (string * list string).
Variable range_fields : gmap string string → list (string * string).
Variable doublestar_Match : string → string → option bool.
Variable ParseAdmin : string → res Admin.t.
Variable ParseUser : string → res User.t.
Variable GenerateUniqueID : string.
Notation handle := (handleIDPLoginEvent now range range_fields doublestar_Match ParseAdmin ParseUser GenerateUniqueID).
Notation check_user := (executeUserCheckAction now range range_fields ParseUser).
Notation check_admin := (executeAdminCheckAction now range_fields ParseAdmin GenerateUniqueID).


(** the user of that name as it is stored, with its virtual folders and the
    settings of its groups *)
Definition stored_with_groups (name : string) (h : DB.t) (u : User.t) : Prop := ∃ row,
  DB.users h !! name = Some row ∧ User.Username row = name ∧ User.Username u = name ∧
  load_settings range (addVirtualFoldersToUser h (user_getACopy row)) h = Ok u.
Lemma userExists_row name h u : wf h → userExists name "" h = Ok u →
  ∃ row, DB.users h !! name = Some row ∧ User.Username row = name ∧ u = addVirtualFoldersToUser h (user_getACopy row).
Proof.
  intros W. unfold userExists, when_open. destruct (DB.isClosed h); [done|]. unfold userExistsInternal, existsIn.
  destruct (DB.users h !! name) as [row|] eqn:Hu; [|done]. cbn [mbind res_bind]. destruct (negb _); [done|]. intros [= <-].
  exists row. split; [reflexivity|]. split; [|reflexivity]. apply (proj2 (wf_users _ W) name). by rewrite lookup_fmap, Hu.
Qed.
Lemma settings_stored name h u0 u : wf h → userExists name "" h = Ok u0 → load_settings range u0 h = Ok u → stored_with_groups name h u.
Proof.
  intros W He Hl. pose proof (userExists_name _ _ _ _ W He) as Hn. destruct (userExists_row _ _ _ W He) as (row & Hrow & Hname & Hu0).
  exists row. rewrite <- Hu0. clear Hu0 He. split_and!; [done|done| |done].
  apply LoadAndApply_ext, ext_name in Hl. congruence.
Qed.
Lemma loaded_stored name h u : wf h → GetUserWithGroupSettings range name "" h = Ok u → stored_with_groups (convertName name) h u.
Proof. intros W H. unfold GetUserWithGroupSettings in H. inv_res H. by eapply settings_stored. Qed.
(** from a template to the account with the name of the login *)
Definition by_template (p : params) (template : string) (save : User.t → api User.t) : api User.t :=
  data ← fill_template range_fields template p;
  newUser ← lift (ParseUser data);
  _ ← save newUser;
  read_db (GetUserWithGroupSettings range (EventParams.Name p) "").
Definition saves (save : User.t → api User.t) : Prop := ∀ v s x s', wf (database s) → save v s = (Ok x, s') → wf (database s').
Lemma saves_add : saves (fun u => Api_AddUser now u system).
Proof.
  intros v s x s' W H. apply (perform_wf now range true system (ReqAddUser v) s s' W I). unfold perform, done_with, mbind, M_bind. by rewrite H.
Qed.
Lemma saves_update : saves (fun u => Api_UpdateUser now range u system).
Proof.
  intros v s x s' W H. apply (perform_wf now range true system (ReqUpdateUser v) s s' W I). unfold perform, done_with, mbind, M_bind. by rewrite H.
Qed.
Lemma filled template p s a h : fill_template range_fields template p s = (Ok a, h) → h = s.
Proof.
  unfold fill_template, lift, mbind, M_bind, mret, M_ret. destruct (getStringReplacements _ _ _ _); [|done]. intros H. exact (eq_sym (f_equal snd H)).
Qed.
Lemma by_template_stored p template save s u s' : saves save → wf (database s) → by_template p template save s = (Ok u, s') →
  stored_with_groups (convertName (EventParams.Name p)) (database s') u.
Proof.
  intros Hsave W H. unfold by_template in H. inv_bind H. inv_bind H. inv_bind H.
  apply filled in E as ->.
  unfold lift in E0. injection E0 as E0 <-. apply Hsave in E1; [|done]. unfold read_db in H. injection H as H <-. by apply loaded_stored.
Qed.
Lemma check_user_stored c p s u s' : wf (database s) → check_user c p s = (Ok u, s') →
  stored_with_groups (convertName (EventParams.Name p)) (database s') u.
Proof.
  intros W. unfold executeUserCheckAction, outcome. unfold mbind at 1, M_bind at 1. cbn [fst snd read_db].
  destruct (Api_UserExists _ _ _) as [u0|e] eqn:Hex; cbn [other_error].
  - destruct (_ =? 1).
    + intros [= Hload <-]. by eapply settings_stored.
    + by apply (by_template_stored p _ _ s u s' saves_update W).
  - assert (∀ r, r s = (Ok u, s') → r = by_template p (EventActionIDPAccountCheck.TemplateUser c) (fun u => Api_AddUser now u system) →
      stored_with_groups (convertName (EventParams.Name p)) (database s') u) as Hadd.
    { intros r H ->. by apply (by_template_stored p _ _ s u s' saves_add W H). }
    destruct e; try done; intros H; (eapply Hadd; [exact H|done]).
Qed.

(** C15: Whoever the template of a rule names, a user that the rules let in after
    a login through an identity provider is the stored user with the name the
    provider vouches for, as it is stored when the rule is done, with its
    virtual folders and the settings of its groups. *)
Theorem idp_user_has_the_name c customFields p s u tasks s' : wf (database s) →
  handle c customFields p s = (Ok (Some (Ok (AUser u)), tasks), s') →
  stored_with_groups (convertName (EventParams.Name p)) (database s') u.
Proof.
  intros W. unfold handleIDPLoginEvent. destruct (List.partition _ _) as [[|rule [|]] rulesAsync]; [done| |done].
  intros H. inv_bind H. destruct a as [r tasks']. injection H as -> <- <-. unfold executeIDPAccountCheckRule in E.
  destruct (List.find _ _) as [action|]; [|done]. inv_bind E. injection E as -> <- <-.
  set (p' := addUID GenerateUniqueID (addIDPCustomFields customFields p)) in *.
  assert (EventParams.Name p' = EventParams.Name p) as <- by (unfold p', addUID, addIDPCustomFields; repeat case_match; done).
  unfold outcome in E0. injection E0 as E0 E1. destruct (_ =s IDPLoginAdmin).
  - unfold mbind, M_bind in E0. destruct (check_admin _ _ _) as [[]]; done.
  - destruct (_ =s IDPLoginUser); [|done]. unfold mbind, M_bind in E0, E1. destruct (check_user _ _ _) as [[v|e] s1] eqn:Hc; [|done].
    cbn in E0, E1. simplify_eq. by eapply check_user_stored.
Qed.

(** A rule in mode 1 only adds accounts: when the user or the admin exists, a
    login changes nothing. *)
Theorem idp_mode_1_keeps_accounts c p s : EventActionIDPAccountCheck.Mode c = 1 →
  (is_ok (Api_UserExists (EventParams.Name p) "" (database s)) = true → (check_user c p s).2 = s) ∧
  (∀ admin, Api_AdminExists (EventParams.Name p) (database s) = Ok admin → check_admin c p s = (Ok admin, s)).
Proof.
  intros Hm. split.
  - intros Hu. unfold executeUserCheckAction, outcome, mbind, M_bind, read_db. cbn [fst snd]. unfold database in Hu.
    destruct (Api_UserExists _ _ _) as [u|e]; [|done]. cbn [other_error]. by rewrite Hm.
  - intros admin Ha. unfold executeAdminCheckAction, outcome, mbind, M_bind, read_db. cbn [fst snd]. unfold database in Ha.
    rewrite Ha. cbn [other_error]. by rewrite Hm.
Qed.
End props.

(** * A small server *)

Section sample.
Import Validators.
#[local] Existing Instance sample_kms.
#[local] Existing Instance ListRanger.list_ranger.
#[local] Existing Instance sample_settings.

Definition account_check (mode : Z) : EventAction.t :=
  EventAction.mk (BaseEventAction.zero <| BaseEventAction.Name := "idp" |> <| BaseEventAction.Type_ := ActionTypeIDPAccountCheck |>
    <| BaseEventAction.Options := BaseEventActionOptions.mk EventActionHTTPConfig.zero EventActionCommandConfig.zero EventActionEmailConfig.zero []
         EventActionFilesystemConfig.zero 0 (EventActionIDPAccountCheck.mk mode "" "") |>) 1 false false true.
Definition idp_rule (mode : Z) : EventRule.t :=
  EventRule.zero <| EventRule.Name := "idp" |> <| EventRule.Status := 1 |> <| EventRule.Trigger := EventTriggerIDPLogin |>
    <| EventRule.Actions := [account_check mode] |>.
Definition idp_rules (mode : Z) : container := Container.empty <| Container.IPDLoginEvents := [idp_rule mode] |>.
Definition login (kind name : string) : params := EventParams.zero <| EventParams.Name := name |> <| EventParams.Event := kind |> <| EventParams.Status := 1 |>.
(** carol has a second factor and a password *)
Definition carol : Admin.t := (mk_admin "carol" "" []) <| Admin.Password := "hash" |>
  <| Admin.Filters ::= fun f => f <| AdminFilters.TOTPConfig := AdminTOTPConfig.zero <| AdminTOTPConfig.Enabled := true |> |> |>.
Definition with_carol : Api.t := with_database (addAdmin clock carol (database sample_api)).2 sample_api.
Notation handle kind name mode := (handleIDPLoginEvent clock map_to_list map_to_list (fun _ _ => None)
  (fun _ => Ok (mk_admin "carol" "" [])) (fun _ => Ok (mk_user "alice" "" [] [])) "generated" (idp_rules mode) None (login kind name)).

(** A rule that adds or updates the admin that logs in replaces the stored admin
    by the one of the template: the second factor and the password are lost. *)
Theorem idp_login_drops_second_factor :
  (∃ a, DB.admins (database with_carol) !! "carol" = Some a ∧ Admin.Password a = "hash" ∧
        AdminTOTPConfig.Enabled (AdminFilters.TOTPConfig (Admin.Filters a)) = true) ∧
  (∃ a, DB.admins (database (handle IDPLoginAdmin "carol" 0 with_carol).2) !! "carol" = Some a ∧ Admin.Password a = "generated" ∧
        AdminTOTPConfig.Enabled (AdminFilters.TOTPConfig (Admin.Filters a)) = false).
Proof. split; eexists; split_and!; by vm_compute. Qed.

(** The admin that logs in is the one of the template, whoever logged in; the
    user is the one that logged in. *)
Theorem idp_admin_is_that_of_the_template :
  (match (handle IDPLoginAdmin "mallory" 1 sample_api).1 with
   | Ok (Some (Ok (AAdmin a)), _) => Some (Admin.Username a) | _ => None end) = Some "carol" ∧
  (match (handle IDPLoginUser "mallory" 1 sample_api).1 with
   | Ok (Some (Ok (AUser u)), _) => Some (User.Username u) | _ => None end) = None.
Proof. by vm_compute. Qed.

(** the template says alice, bob logs in *)
Notation handle_bob := (handleIDPLoginEvent clock map_to_list map_to_list (fun _ _ => None)
  (fun _ => Ok (mk_admin "carol" "" [])) (fun _ => Ok (mk_user "alice" "" [] [])) "generated" (idp_rules 0) None (login IDPLoginUser "bob") sample_api).
Lemma sample_api_wf : wf (database sample_api).
Proof. exact sample_wf. Qed.
Lemma bob_is_bob : convertName (EventParams.Name (login IDPLoginUser "bob")) = "bob".
Proof. by vm_compute. Qed.
Lemma handle_bob_ok : ∃ u tasks s', handle_bob = (Ok (Some (Ok (AUser u)), tasks), s').
Proof.
  assert (match handle_bob.1 with Ok (Some (Ok (AUser _)), _) => true | _ => false end = true) as H by by vm_compute.
  destruct handle_bob as [[[[[[u|?]|?]|] tasks]|e] s']; try discriminate H. by exists u, tasks, s'.
Qed.
Lemma idp_user_has_the_name_witness : ∃ u tasks s', handle_bob = (Ok (Some (Ok (AUser u)), tasks), s') ∧
  stored_with_groups map_to_list "bob" (database s') u.
Proof.
  destruct handle_bob_ok as (u & tasks & s' & Hc). exists u, tasks, s'. split; [exact Hc|]. rewrite <-bob_is_bob.
  eapply idp_user_has_the_name; [exact sample_api_wf|exact Hc].
Defined.
Lemma idp_mode_1_keeps_accounts_witness :
  (executeUserCheckAction clock map_to_list map_to_list (fun _ => Ok (mk_user "alice" "" [] [])) (EventActionIDPAccountCheck.mk 1 "" "")
     (login IDPLoginUser "bob") sample_api).2 = sample_api.
Proof.
  apply (idp_mode_1_keeps_accounts clock map_to_list map_to_list (fun _ => Ok (mk_admin "carol" "" [])) (fun _ => Ok (mk_user "alice" "" [] [])) "generated"
    (EventActionIDPAccountCheck.mk 1 "" "") (login IDPLoginUser "bob") sample_api eq_refl). by vm_compute.
Defined.
End sample.
